(* ===== verification/_CoqProject ===== *)
-Q . S2P
Prelude.v
TrieKeys.v
Trie.v
TrieSpec.v
TrieMap.v
TrieCanon.v
SecureTrie.v
Staking.v
Rlp.v
RlpBuffer.v
AccountKey.v
StateDB.v
StateRevert.v
StateFinalise.v
Kip71.v
Validators.v
Weighted.v
Prque.v
Istanbul.v
IstanbulInv.v
IstanbulSafety.v
IstanbulSteps.v
IstanbulSets.v
Reward.v
Supply.v
EvmWord.v
EvmCode.v
EvmMem.v
EvmParams.v
EvmState.v
EvmGas.v
EvmOps.v
EvmTable.v
EvmRun.v
EvmSpec.v
EvmInv.v
EvmPlain.v
EvmCost.v
EvmStep.v
EvmCalls.v
EvmLoop.v
EvmFrames.v
EvmMain.v
EvmStateDB.v
Blake2b.v
EvmPrecompiles.v
EvmPreSpec.v
EvmMoney.v
EvmMoneyDB.v
EvmLedger.v
EvmTheorems.v
EvmConserve.v
EvmInstr.v
EvmSstore.v
EvmDemo.v
Tx.v
TxSign.v
TxExec.v
TxState.v
TxLedger.v
TxValid.v
Rebalance.v
TxBlock.v
TxSupply.v
TxTheorems.v
TxPure.v
TxDemo.v
