(* ===== verification/Prelude.v ===== *)
(** * A verification library for the Klaytn node

    The repository is a Go implementation of a blockchain node.  This library models the parts
    of it that decide what the chain is, and proves that they keep their promises: the tries
    that hold the state and the codec that serialises it, the state database and account keys,
    the virtual machine that runs contracts on it, transactions with their signatures and
    fees, the processing of a block, the consensus core with its validator sets and committees,
    the base fee, the block rewards and the total supply.

    ** How the parts interact

    A block is agreed on by the Istanbul core, which asks a validator set for the proposer and
    the committee of a round and counts messages against a quorum.  The weighted validator set
    draws its weights from the staking information, and so do the rewards that a block pays.
    The supply manager adds up the rewards of the blocks.  The base fee of a block follows from
    its parent.  Processing a block applies its transactions, each of which is checked against
    the keys of its sender and fee payer, buys gas, runs, and gets back the gas it did not use;
    then the engine pays the rewards.  Contracts run in the virtual machine, whose interpreter reads
    and changes the state database through the interface [vm.StateDB] and goes back to snapshots
    of it when a call fails.  The state database keeps its accounts in a
    secure trie and the storage of each contract in another one; accounts and storage slots are
    stored as RLP, and the tries are Merkle Patricia tries whose keys are encoded by nibbles.

    ** Files

    Shared:
    - [Prelude] (this file): machine integers, byte strings, the outcome monad [res] of
      fallible code ([Ok], [Err], [Panic] for a run-time panic, [NoFuel]), slices and indexing
      with their bounds checks, tactics and hints.

    Storage ([storage/statedb], [rlp]):
    - [TrieKeys]: [encoding.go], the KEYBYTES, HEX and COMPACT key encodings.
    - [Trie] (module [MPT]): [node.go] and [trie.go], lookup, insertion and deletion with hash
      nodes resolved through the database ([trieEnv]).
    - [TrieSpec], [TrieMap], [TrieCanon]: the denotation of canonical nodes, the refinement of a
      finite map through the class [KVStore], and the uniqueness of the canonical form.
    - [SecureTrie] (module [Secure]): [secure_trie.go] on top of any [KVStore].
    - [Rlp] (module [RLP]): [raw.go] and the header code of [encode.go], against the reference
      encoding [enc] of items.  [RlpBuffer] (module [EncBuffer]): [encbuffer.go] and the
      writers of [encode.go], where reflection has chosen the constructor of a value [gval].

    State ([blockchain/state], [blockchain/types/account], [blockchain/types/accountkey]):
    - [AccountKey]: the six kinds of keys, their validation, installation and update.
    - [StateDB] (modules [Account] and [State]): accounts, state objects with their caches, the
      journal, snapshots, access list, transient storage, [Finalise], [IntermediateRoot],
      [Commit], [Copy] and [Reset].  The account trie and the storage tries appear as the maps
      that [TrieMap] and [SecureTrie] prove them to be; hashing, the code store and the opening
      of storage tries are the class [StateEnv].
    - [StateRevert] (module [Revert]): snapshots.  [StateFinalise] (module [Finalised]): the end
      of transactions and blocks.

    Virtual machine ([blockchain/vm], [crypto/blake2b]):
    - [EvmWord]: the interface of 256-bit words ([holiman/uint256]) with its documented laws, and
      the integers below 2^256 as an instance.  [EvmCode]: [analysis.go].  [EvmMem]: [memory.go]
      and the slices of [common.go].  [EvmParams]: the prices of [params].
    - [EvmState] (module [Evm]): the interface [VMState] of the state database, contracts, the
      fields of [EVM] that calls share, and the state monad [M] of a call.  [EvmGas]: memory
      sizes and gas functions.  [EvmOps]: the instructions, over a record [Calls] of the methods
      of [EVM] that they call.  [EvmTable]: the instruction tables, with functions named by
      constructors.  [EvmRun] (module [Run]): the interpreter loop, calls and creations; the
      loop at a fuel calls with the fuel that is left.
    - [Blake2b] and [EvmPrecompiles] (module [Pre]): the precompiled contracts, over the class
      [Crypto].
    - [EvmSpec]: what the machine relies on, the class [StateLaws]; [EvmInv], [EvmPlain],
      [EvmCost], [EvmStep], [EvmCalls], [EvmLoop], [EvmFrames], [EvmMain]: its invariant and the
      weakest preconditions of gas functions, instructions, turns, calls and runs.
    - [EvmStateDB] (module [Link]): the state database as an instance of the interface and the
      proof of its laws.  [EvmPreSpec]: the precompiled contracts against their specifications.
      [EvmTheorems], [EvmInstr], [EvmSstore], [EvmDemo]: the theorems about the machine on the
      state database, and a small chain on which they are evaluated.

    - [EvmMoney], [EvmMoneyDB], [EvmLedger], [EvmConserve]: balances, their sum, and that code
      creates no money.

    Transactions and blocks ([blockchain/types], [blockchain], [blockchain/system]):
    - [Tx]: the data of every transaction type, as what is asked for ([TxKind]) and who pays
      ([FeeDelegation]), the types as numbers, prices and intrinsic gas.  [TxSign] (module
      [Sign]): what is signed and hashed, recovery, and the signers of the forks.
    - [TxExec] (module [Exec]): validation, [state_transition.go] and [ApplyTransaction], in a
      monad [T] over the state database whose errors keep the state.  [Rebalance]:
      [system/rebalance.go].  [TxBlock] (module [Block]): [system/storage.go],
      [system/registry.go], [Finalize] of [backend/engine.go], [Process] of
      [state_processor.go] and the gas checks of [block_validator.go].
    - [TxState], [TxLedger], [TxValid], [TxSupply]: what the operations do to balances, to the
      gas, to validation and to the books of a block.  [TxTheorems] and [TxPure]: the theorems
      on transactions, with and without a state.  [TxDemo]: a block signed by two people, on
      which the theorems are evaluated.

    Consensus ([consensus/istanbul], [consensus/misc], [common/prque]):
    - [Validators] (module [ValSet]): [validator/default.go] and the committee selection of
      [validator/validator.go].  [Weighted] (module [Council]): [validator/weighted.go] and the
      stored form of [backend/snapshot.go].
    - [Prque] (modules [Heap] and [PriorityQueue]): the priority queue of the backlogs.
    - [Istanbul] (module [Core]): every handler of [core/] as a state transformer over an
      interface of validator sets and a record of backend answers; what is sent, posted or
      scheduled goes to a log.  [IstanbulInv], [IstanbulSafety], [IstanbulSteps], [IstanbulSets]:
      its invariants, agreement, single steps, and the two validator sets as instances of the
      interface.
    - [Kip71] (module [BaseFee]): [misc/kip71.go], with big integers changed in place.

    Rewards ([reward], [governance/handler.go], [params/governance_paramset.go]):
    - [Staking]: [staking_info.go].  [Reward]: [reward_distributor.go] and the ratio checks.
      [Supply]: [supply_manager.go] with its database records.

    ** What the theorems show

    - Tries and codec: a trie is a finite map under lookup, update and deletion, its shape
      depends on the map alone, the secure trie is a map for an injective hash, key encodings
      and RLP round-trip, the encoder writes the reference encoding and [Split] accepts exactly
      the canonical one.
    - State: going back to a snapshot restores everything that can be read, through any nesting
      of snapshots, changes, account creations and self-destructions; after the transactions of
      a block a state opened on the finalised trie reads what the state read, and the committed
      trie is the one whose root went into the header; a multisig key accepts exactly the
      signatures that reach its threshold, an installable key can sign, and key updates change
      what they should.
    - Virtual machine: every run returns within as many turns as it has gas, without run-time
      faults; the stack, the memory and the gas stay in their bounds; a call that fails leaves
      the state as it was and a static call changes nothing; a jump is accepted exactly at a
      JUMPDEST instruction; every entry of every instruction table fits its instruction; what
      writes to a slot cost in the end is the price of the change; shifts, memory, modular
      exponentiation and BLAKE2b compute what they should.
    - Transactions and blocks: code moves amounts and creates none; a transaction that was
      decoded is applied without a fault, uses no more gas than it bought, leaves no balance
      negative and takes its fee out of the sum of all balances; a processed block adds to that
      sum no more than it mints less what it burns; a rebalancing burns exactly what it
      reports; the intrinsic gas is its closed form without overflow; a type says what a
      transaction is; and a hash to be signed binds the role, the chain and all that is asked.
    - Consensus: two honest nodes that commit in a view commit the same block, the votes of a
      running node stay consistent, a quorum of COMMITs commits; committees and proposers are
      what the sets promise; the fee stays in its bounds and follows its formula along a chain.
    - Rewards: what is minted and paid in fees is what is distributed or burnt, to the last
      unit; the supply is the sum over the blocks, and the catch-up reaches the head.
    - Where the code does not do what it means to, a theorem exhibits it: the parent fee that is
      changed, quorums of the sticky policy, votes accepted from outside the committee, the
      answer to an old PRE-PREPARE, ratios that overflow, a rewound head, a key update that is
      not reverted, a destroyed contract that [IntermediateRoot] writes back, refused code
      that stays deployed, shared fees that leave a debt or pay the sender, fees reported as
      burnt that are not, and a rebalancing that loses its allocations.

    ** Bounds and fuel

    Integers are [Z]; the operations of fixed width wrap with [u8], [u64] or [i64], and a theorem
    that needs a range says so.  Recursion is structural wherever the code's loop is; the trie
    descends with fuel, and enough fuel is the length of the key plus one ([TrieSpec]); heap and
    sorting loops have the length of the data as fuel ([Prque]); the state machines ([Istanbul],
    [Supply], [StateFinalise]) are step relations over which invariants hold by induction.  The
    interpreter has as fuel the turns it may take, in nested calls together, and one more than
    the gas is enough ([EvmTheorems.evm_terminates]): every instruction that goes on costs gas.
    A transaction is given the turns of its configuration ([cf_turns]); one more than its gas
    limit is enough.  Gas is at most 2^61 ([gas_max]), far above any block limit; beyond it the slices of
    [bigModExp] can overflow.  Memory is allocated without limit.  A slice that an instruction
    returns is a value here, while in the code it can share the memory of its call: the callers
    copy it before they write ([common.CopyBytes] in the calls), and a call whose memory is
    shared has ended.  The abort flag that another thread may set is an oracle, asked at every
    turn and jump.  Hashes are lists of integers and the hash function is injective, which
    idealises collision resistance.  The
    slots of a storage trie, dirty addresses and objects are visited in one order where Go
    visits its maps in any; the theorems are about the result, in which each address and slot
    takes part once.

    ** Not modelled, and why

    - Cryptography (Keccak, curve arithmetic, signatures, BLS) and the pseudo-random generator
      are parameters, with the hypotheses the users name (an injective hash on the keys at hand,
      an injective compression of curve points).
    - The hashing and node database of the trie, proofs, sync and snapshot layers: a resolver and
      a root function stand for them.  The RLP stream decoder works by reflection.
    - The Gini coefficient of the staking information is floating point.
    - Tracing of the virtual machine, the output of the [vmLog] contract, the assembly variants
      of BLAKE2b.
    - The decoding of transactions (the RLP decoder is the reflective one) and their JSON: the
      theorems start from what decoding promises ([decoded]).  Blocks of the forks that
      rebalance are left out of the theorem on blocks, and have their own.
    - The transaction pool, the import of blocks on top of the database, governance votes,
      the sealing and verification of headers, Clique and Gxhash, networking, RPC, wallets,
      commands, and everything that is input and output. *)

From stdpp Require Export base list gmap option numbers countable sorting.
From Stdlib Require Export ZArith Lia.

Declare Scope klay_scope.
Delimit Scope klay_scope with klay.
Open Scope klay_scope.
Open Scope Z_scope.

(** ** Machine integers

    A Go [uint64]/[uint8] is a [Z] in range; the wrap-around of an operation is
    written out with [u64]/[u8], and [i64] is the signed reading of 64 bits. *)

Definition u8 (z : Z) : Z := z mod 2 ^ 8.
Definition u64 (z : Z) : Z := z mod 2 ^ 64.
Definition i64 (z : Z) : Z := (z + 2 ^ 63) mod 2 ^ 64 - 2 ^ 63.

Definition is_u8 (z : Z) : Prop := 0 <= z < 256.
Definition is_u64 (z : Z) : Prop := 0 <= z < 2 ^ 64.

Abbreviation byte := Z (only parsing).
Abbreviation bytes := (list Z) (only parsing).
Abbreviation Address := bytes (only parsing).

Definition is_bytes (l : bytes) : Prop := Forall is_u8 l.

(** Length of a Go slice, as an [int]. *)
Definition len {A} (l : list A) : Z := Z.of_nat (length l).

(** ** Outcomes of fallible code

    [Ok] is a normal return, [Err] an [error] value, [Panic] a run-time panic
    (index out of range, nil dereference, division by zero, explicit [panic]),
    and [NoFuel] is reached only by a fuelled function given too little fuel. *)

Inductive res (E A : Type) : Type :=
| Ok (a : A)
| Err (e : E)
| Panic
| NoFuel.
Arguments Ok {E A} a.
Arguments Err {E A} e.
Arguments Panic {E A}.
Arguments NoFuel {E A}.

#[export] Instance res_ret {E} : MRet (res E) := fun A a => Ok a.
#[export] Instance res_bind {E} : MBind (res E) := fun A B k m =>
  match m with
  | Ok a => k a
  | Err e => Err e
  | Panic => Panic
  | NoFuel => NoFuel
  end.

Definition is_ok {E A} (r : res E A) : Prop := exists a, r = Ok a.

Lemma bind_ok {E A B} (m : res E A) (k : A -> res E B) b :
  (m ≫= k) = Ok b -> exists a, m = Ok a /\ k a = Ok b.
Proof. destruct m; simpl; naive_solver. Qed.

(** ** Tactics *)

(** Turn boolean tests of the code into the propositions they decide. *)
Ltac bool_to_prop :=
  repeat match goal with
  | H : (_ <? _) = true |- _ => apply Z.ltb_lt in H
  | H : (_ <? _) = false |- _ => apply Z.ltb_ge in H
  | H : (_ <=? _) = true |- _ => apply Z.leb_le in H
  | H : (_ <=? _) = false |- _ => apply Z.leb_gt in H
  | H : (_ =? _) = true |- _ => apply Z.eqb_eq in H
  | H : (_ =? _) = false |- _ => apply Z.eqb_neq in H
  | H : (_ && _) = true |- _ => apply andb_true_iff in H as [? ?]
  | H : (_ || _) = false |- _ => apply orb_false_iff in H as [? ?]
  | H : negb _ = true |- _ => apply negb_true_iff in H
  | H : negb _ = false |- _ => apply negb_false_iff in H
  | H : bool_decide _ = true |- _ => apply bool_decide_eq_true in H
  | H : bool_decide _ = false |- _ => apply bool_decide_eq_false in H
  end.

(** Case on every test of the goal, keeping the propositional readings. *)
Ltac case_tests :=
  repeat (match goal with
  | |- context [if ?b then _ else _] => destruct b eqn:?
  end; bool_to_prop).

(** ** Integers *)

Lemma u64_small z : is_u64 z -> u64 z = z.
Proof. intros ?. apply Z.mod_small. exact H. Qed.

Lemma u8_small z : is_u8 z -> u8 z = z.
Proof. intros ?. apply Z.mod_small. exact H. Qed.

Lemma u8_range z : is_u8 (u8 z).
Proof. apply Z.mod_pos_bound. lia. Qed.

Lemma u64_range z : is_u64 (u64 z).
Proof. apply Z.mod_pos_bound. lia. Qed.

Create HintDb klay discriminated.
Create Rewrite HintDb klay.
#[export] Hint Resolve u8_range u64_range : klay.

(** ** Lists *)

Lemma len_nonneg {A} (l : list A) : 0 <= len l.
Proof. unfold len. lia. Qed.

Lemma len_app {A} (l k : list A) : len (l ++ k) = len l + len k.
Proof. unfold len. rewrite length_app. lia. Qed.

Lemma len_cons {A} (x : A) l : len (x :: l) = 1 + len l.
Proof. unfold len. simpl. lia. Qed.

Lemma len_nil {A} : len (@nil A) = 0.
Proof. reflexivity. Qed.

#[export] Hint Rewrite @len_app @len_cons @len_nil : klay.
#[export] Hint Resolve len_nonneg : klay.

(** Concrete byte strings are checked by computation. *)
Definition bytes_ok (l : bytes) : bool := forallb (fun z => (0 <=? z) && (z <? 256)) l.

Lemma is_bytes_check l : bytes_ok l = true -> is_bytes l.
Proof.
  intros H. apply Forall_forall. intros z Hz%list_elem_of_In.
  apply (proj1 (forallb_forall _ _) H) in Hz. bool_to_prop. by split.
Qed.

Ltac solve_bytes := apply is_bytes_check; vm_compute; reflexivity.

(** Code with no error result that may still panic. *)
Abbreviation go := (res Empty_set).

(** Slice indexing: a run-time panic when out of range. *)
Definition index {E A} (l : list A) (i : nat) : res E A :=
  match l !! i with
  | Some x => Ok x
  | None => Panic
  end.

(** Indexed store [l[i] = x]: a run-time panic when out of range. *)
Definition store {E A} (l : list A) (i : nat) (x : A) : res E (list A) :=
  if decide (i < length l)%nat then Ok (<[i:=x]> l) else Panic.

(** [l[lo:hi]] of a slice whose capacity is its length. *)
Definition slice {E A} (l : list A) (lo hi : nat) : res E (list A) :=
  if decide (lo <= hi <= length l)%nat then Ok (take (hi - lo) (drop lo l)) else Panic.

Lemma index_lookup {E A} (l : list A) i x : l !! i = Some x -> index (E:=E) l i = Ok x.
Proof. unfold index. by intros ->. Qed.

Lemma store_lt {E A} (l : list A) i x :
  (i < length l)%nat -> store (E:=E) l i x = Ok (<[i:=x]> l).
Proof. intros. unfold store. by rewrite decide_True. Qed.

Lemma slice_ok {E A} (l : list A) lo hi :
  (lo <= hi <= length l)%nat -> slice (E:=E) l lo hi = Ok (take (hi - lo) (drop lo l)).
Proof. intros. unfold slice. by rewrite decide_True. Qed.

(** Induction by pairs, for loops that consume two elements at a time. *)
Lemma list_pair_ind {A} (P : list A -> Prop) :
  P [] -> (forall x, P [x]) -> (forall x y l, P l -> P (x :: y :: l)) -> forall l, P l.
Proof.
  intros H0 H1 H2 l. assert (P l /\ forall x, P (x :: l)) as [? ?]; [|done].
  induction l as [|x l [IH1 IH2]]; auto.
Qed.

(** ** Bits *)

Lemma testbit_small z k n : 0 <= z < 2 ^ k -> k <= n -> Z.testbit z n = false.
Proof.
  intros Hz Hn. destruct (decide (0 <= k)) as [Hk|Hk].
  - rewrite <- (Z.mod_small z (2 ^ k)) by lia. apply Z.mod_pow2_bits_high. lia.
  - rewrite Z.pow_neg_r in Hz by lia. lia.
Qed.

(** A field shifted past the bits below it adds to them. *)
Lemma lor_shiftl_add k hi lo :
  0 <= k -> 0 <= lo < 2 ^ k -> Z.lor (Z.shiftl hi k) lo = hi * 2 ^ k + lo.
Proof.
  intros Hk Hlo. rewrite <- Z.add_nocarry_lor, Z.shiftl_mul_pow2; [done|done|].
  apply Z.bits_inj'. intros n Hn. rewrite Z.land_spec, Z.bits_0.
  destruct (decide (n < k)).
  - by rewrite Z.shiftl_spec_low.
  - rewrite (testbit_small lo k n) by lia. apply andb_false_r.
Qed.

Lemma land_1_odd z : Z.land z 1 = z mod 2.
Proof. apply (Z.land_ones z 1). lia. Qed.

Lemma odd_of_nat n : Z.odd (Z.of_nat n) = Nat.odd n.
Proof.
  destruct (Nat.odd n) eqn:E.
  - apply Nat.odd_spec in E as [k ->]. apply Z.odd_spec. exists (Z.of_nat k). lia.
  - rewrite <- Z.negb_even. apply negb_false_iff. rewrite <- Nat.negb_even in E.
    apply negb_false_iff, Nat.even_spec in E as [k ->]. apply Z.even_spec. exists (Z.of_nat k). lia.
Qed.

(** Quotient and remainder of a number written in base [k]. *)
Lemma div_base q k r : 0 <= r < k -> (q * k + r) / k = q.
Proof. intros. symmetry. apply (Z.div_unique _ _ _ r); lia. Qed.

Lemma mod_base q k r : 0 <= r < k -> (q * k + r) mod k = r.
Proof. intros. symmetry. apply (Z.mod_unique _ _ q); lia. Qed.

(** A selection from a list without repetitions has none. *)
Lemma selection_NoDup {A} (l k : list A) : l ⊆+ k -> NoDup k -> NoDup l.
Proof. intros [r ->]%submseteq_Permutation Hn. by apply NoDup_app in Hn as [? _]. Qed.

(** ** Hashes *)

Abbreviation Hash := bytes (only parsing).

(** [common.BytesToHash]: keep the last 32 bytes, pad on the left. *)
Definition BytesToHash (b : bytes) : bytes :=
  let b := drop (length b - 32) b in replicate (32 - length b) 0 ++ b.

Lemma BytesToHash_32 b : length b = 32%nat -> BytesToHash b = b.
Proof. intros E. unfold BytesToHash. by rewrite E, Nat.sub_diag, drop_0, E. Qed.
