(* ===== verification/TrieKeys.v ===== *)
(** * Trie key encodings

    Model of [storage/statedb/encoding.go]: the KEYBYTES, HEX and COMPACT (hex
    prefix) encodings of trie keys and the conversions between them.  A nibble
    and a byte are both Go [byte]s. *)

From S2P Require Import Prelude.

(** ** The code *)

(** [hasTerm]: whether a hex key has the terminator flag. *)
Definition hasTerm (s : bytes) : bool :=
  match last s with
  | Some x => x =? 16
  | None => false
  end.

(** [decodeNibbles]: writes the pairs of [nibbles] into the buffer.  An odd number
    of nibbles, or too short a buffer, indexes out of range. *)
Fixpoint decodeNibbles (nibbles buf : bytes) : go bytes :=
  match nibbles, buf with
  | [], _ => Ok buf
  | hi :: lo :: rest, _ :: buf' =>
      tl ← decodeNibbles rest buf';
      Ok (Z.lor (u8 (Z.shiftl hi 4)) lo :: tl)
  | _, _ => Panic
  end.

(** [hexToCompact]. *)
Definition hexToCompact (hex : bytes) : go bytes :=
  let '(terminator, hex) :=
    if hasTerm hex then (1, take (length hex - 1) hex) else (0, hex) in
  let buf := replicate (length hex / 2 + 1) 0 in
  let flag := u8 (Z.shiftl terminator 5) in
  let '(flag, hex) :=
    if Z.land (len hex) 1 =? 1
    then (Z.lor (Z.lor flag (Z.shiftl 1 4)) (default 0 (head hex)), drop 1 hex)
    else (flag, hex) in
  tl ← decodeNibbles hex (drop 1 buf);
  Ok (flag :: tl).

(** The loop of [hexToCompactInPlace]: [for ; ni < hexLen; bi, ni = bi+1, ni+2]. *)
Fixpoint compactLoop (fuel bi ni hexLen : nat) (hex : bytes) : go bytes :=
  match fuel with
  | O => NoFuel
  | S fuel =>
      if decide (ni < hexLen)%nat then
        hi ← index hex ni;
        lo ← index hex (ni + 1);
        hex' ← store hex bi (Z.lor (u8 (Z.shiftl hi 4)) lo);
        compactLoop fuel (bi + 1) (ni + 2) hexLen hex'
      else Ok hex
  end.

(** [hexToCompactInPlace]: the buffer after the call and the length of the compact
    key in it.  The loop runs at most [hexLen] times. *)
Definition hexToCompactInPlace (hex : bytes) : go (nat * bytes) :=
  let '(firstByte, hexLen) :=
    if hasTerm hex then (Z.shiftl 1 5, length hex - 1)%nat else (0, length hex) in
  let binLen := (hexLen / 2 + 1)%nat in
  '(firstByte, ni) ←
    (if Z.land (Z.of_nat hexLen) 1 =? 1
     then h0 ← index hex 0; Ok (Z.lor (Z.lor firstByte (Z.shiftl 1 4)) h0, 1%nat)
     else Ok (firstByte, 0%nat));
  hex ← compactLoop (S hexLen) 1 ni hexLen hex;
  hex ← store hex 0 firstByte;
  Ok (binLen, hex).

(** [keybytesToHex]. *)
Definition keybytesToHex (str : bytes) : bytes :=
  foldr (fun b acc => b / 16 :: b mod 16 :: acc) [16] str.

(** [compactToHex]. *)
Definition compactToHex (compact : bytes) : bytes :=
  match compact with
  | [] => compact
  | _ =>
      let base := keybytesToHex compact in
      let base := take (length base - 1) base in
      let b0 := default 0 (head base) in
      let base := if 2 <=? b0 then base ++ [16] else base in
      drop (Z.to_nat (2 - Z.land b0 1)) base
  end.

(** [hexToKeybytes]: panics on keys of odd length. *)
Definition hexToKeybytes (hex : bytes) : go bytes :=
  let hex := if hasTerm hex then take (length hex - 1) hex else hex in
  if Z.land (len hex) 1 =? 0
  then decodeNibbles hex (replicate (length hex / 2) 0)
  else Panic.

(** [prefixLen]: length of the common prefix. *)
Fixpoint prefixLen (a b : bytes) : nat :=
  match a, b with
  | x :: a', y :: b' => if x =? y then S (prefixLen a' b') else O
  | _, _ => O
  end.

(** ** Reference definitions *)

Definition is_nibble (x : Z) : Prop := 0 <= x < 16.
Definition is_nibbles (l : bytes) : Prop := Forall is_nibble l.

(** A hex key as the trie holds it: nibbles and an optional terminator. *)
Definition valid_hex (h : bytes) : Prop :=
  exists ns, is_nibbles ns /\ (h = ns \/ h = ns ++ [16]).

(** Pairs of nibbles packed into bytes. *)
Fixpoint pack (ns : bytes) : bytes :=
  match ns with
  | hi :: lo :: rest => Z.lor (u8 (Z.shiftl hi 4)) lo :: pack rest
  | _ => []
  end.

(** ** Lemmas *)

Lemma pack_nibble hi lo :
  is_nibble hi -> is_nibble lo -> Z.lor (u8 (Z.shiftl hi 4)) lo = hi * 16 + lo.
Proof.
  unfold is_nibble. intros. rewrite u8_small.
  - rewrite lor_shiftl_add; lia.
  - unfold is_u8. rewrite Z.shiftl_mul_pow2; lia.
Qed.

Lemma length_pack ns : length (pack ns) = (length ns / 2)%nat.
Proof.
  induction ns as [|x|x y ns IH] using list_pair_ind; [done|done|].
  cbn [pack length]. rewrite IH.
  replace (S (S (length ns))) with (length ns + 1 * 2)%nat by lia.
  rewrite Nat.div_add by lia. lia.
Qed.

Lemma decodeNibbles_pack ns buf :
  Nat.even (length ns) -> (length ns / 2 <= length buf)%nat ->
  decodeNibbles ns buf = Ok (pack ns ++ drop (length ns / 2) buf).
Proof.
  revert buf. induction ns as [|x|x y ns IH] using list_pair_ind; intros buf He Hl.
  - done.
  - done.
  - cbn [length Nat.even] in He. cbn [length] in *.
    replace (S (S (length ns))) with (length ns + 1 * 2)%nat in * by lia.
    rewrite Nat.div_add in * by lia. destruct buf as [|b buf]; cbn [length] in *; [lia|].
    cbn [decodeNibbles]. rewrite IH; [|done|lia]. cbn.
    by rewrite Nat.add_1_r.
Qed.

Lemma decodeNibbles_exact ns :
  Nat.even (length ns) ->
  decodeNibbles ns (replicate (length ns / 2) 0) = Ok (pack ns).
Proof.
  intros He. rewrite decodeNibbles_pack; [|done|by rewrite length_replicate].
  by rewrite drop_ge, app_nil_r by (by rewrite length_replicate).
Qed.

Lemma hasTerm_snoc ns : hasTerm (ns ++ [16]) = true.
Proof. unfold hasTerm. by rewrite last_snoc. Qed.

Lemma hasTerm_nibbles ns : is_nibbles ns -> hasTerm ns = false.
Proof.
  unfold hasTerm. intros Hn. destruct (last ns) as [x|] eqn:E; [|done].
  apply last_Some_elem_of in E. unfold is_nibbles in Hn. rewrite Forall_forall in Hn.
  specialize (Hn _ E). unfold is_nibble in Hn. apply Z.eqb_neq. lia.
Qed.

Lemma take_snoc {A} (l : list A) x : take (length (l ++ [x]) - 1) (l ++ [x]) = l.
Proof. rewrite length_app. simpl. rewrite take_app_le by lia. apply take_ge. lia. Qed.

Lemma length_keybytesToHex k : length (keybytesToHex k) = S (2 * length k).
Proof. induction k as [|b k IH]; [done|]. cbn. unfold keybytesToHex in IH. lia. Qed.

(** The nibbles of a byte string, without the terminator. *)
Definition nibbles_of (k : bytes) : bytes := foldr (fun b acc => b / 16 :: b mod 16 :: acc) [] k.

Lemma nibbles_of_cons b k : nibbles_of (b :: k) = b / 16 :: b mod 16 :: nibbles_of k.
Proof. done. Qed.

Lemma keybytesToHex_nibbles k : keybytesToHex k = nibbles_of k ++ [16].
Proof.
  unfold keybytesToHex, nibbles_of. induction k as [|b k IH]; [done|]. simpl. by rewrite IH.
Qed.

Lemma nibbles_of_valid k : is_bytes k -> is_nibbles (nibbles_of k).
Proof.
  induction 1 as [|b k Hb Hk IH]; [constructor|]. cbn. unfold is_u8 in Hb.
  constructor; [|constructor; [|done]]; unfold is_nibble.
  - pose proof (Z.div_lt_upper_bound b 16 16). pose proof (Z.div_pos b 16). lia.
  - pose proof (Z.mod_pos_bound b 16). lia.
Qed.

Lemma length_nibbles_of k : length (nibbles_of k) = (2 * length k)%nat.
Proof. induction k as [|b k IH]; [done|]. cbn. unfold nibbles_of in IH. lia. Qed.

Lemma even_double n : Nat.even (2 * n).
Proof. rewrite Nat.even_mul. done. Qed.

Lemma pack_nibbles_of k : is_bytes k -> pack (nibbles_of k) = k.
Proof.
  intros Hk. pose proof (nibbles_of_valid k Hk) as Hn. induction Hk as [|b k Hb Hk IH]; [done|].
  rewrite nibbles_of_cons in *.
  cbn [pack]. inversion Hn as [|? ? H1 Hn']; inversion Hn' as [|? ? H2 Hn'']; subst.
  rewrite pack_nibble by done. f_equal; [|by apply IH].
  pose proof (Z.div_mod b 16). lia.
Qed.

Lemma nibbles_of_pack ns : is_nibbles ns -> Nat.even (length ns) -> nibbles_of (pack ns) = ns.
Proof.
  induction ns as [|x|x y ns IH] using list_pair_ind; intros Hn He; [done|done|].
  inversion Hn as [|? ? Hx Hn']; inversion Hn' as [|? ? Hy Hn'']; subst.
  cbn [pack].
  rewrite nibbles_of_cons.
  rewrite pack_nibble by done. rewrite IH by done. unfold is_nibble in *.
  by rewrite div_base, mod_base by lia.
Qed.

Lemma odd_test n : (Z.land (Z.of_nat n) 1 =? 1) = Nat.odd n.
Proof.
  rewrite land_1_odd, Zmod_odd, odd_of_nat. by destruct (Nat.odd n).
Qed.

Lemma even_test n : (Z.land (Z.of_nat n) 1 =? 0) = Nat.even n.
Proof.
  rewrite land_1_odd, Zmod_odd, odd_of_nat, <- Nat.negb_odd. by destruct (Nat.odd n).
Qed.

(** The compact form in closed form: flag byte, then the packed even-length rest. *)
Definition compact_of (t : bool) (ns : bytes) : bytes :=
  let f := Z.lor (if t then 32 else 0) (if Nat.odd (length ns) then 16 else 0) in
  if Nat.odd (length ns)
  then Z.lor f (default 0 (head ns)) :: pack (drop 1 ns)
  else f :: pack ns.

Definition with_term (t : bool) (ns : bytes) : bytes := if t then ns ++ [16] else ns.

Lemma half_odd n : Nat.odd (S n) -> (S n / 2 = n / 2)%nat.
Proof.
  intros Ho. rewrite Nat.odd_succ in Ho. apply Is_true_true, Nat.even_spec in Ho as [k ->].
  replace (S (2 * k)) with (1 + k * 2)%nat by lia. rewrite Nat.div_add by lia.
  replace (2 * k)%nat with (k * 2)%nat by lia. by rewrite Nat.div_mul.
Qed.

Lemma hexToCompact_of t ns (hex := with_term t ns) :
  hasTerm hex = t -> hexToCompact hex = Ok (compact_of t ns).
Proof.
  unfold hexToCompact, compact_of. intros ->. subst hex.
  assert ((if t then (1, take (length (with_term t ns) - 1) (with_term t ns)) else (0, with_term t ns))
          = (if t then 1 else 0, ns)) as ->.
  { destruct t; simpl; [by rewrite take_snoc|done]. }
  unfold len. rewrite odd_test. destruct (Nat.odd (length ns)) eqn:Ho.
  - destruct ns as [|n0 ns]; [done|]. cbn [length drop head] in *.
    rewrite half_odd by (by rewrite Ho). rewrite Nat.odd_succ in Ho.
    rewrite Nat.add_1_r. cbn [replicate drop].
    rewrite drop_0, decodeNibbles_exact by (by rewrite Ho). by destruct t.
  - rewrite Nat.add_1_r. cbn [replicate drop].
    rewrite decodeNibbles_exact by (by rewrite <- Nat.negb_odd, Ho).
    by destruct t.
Qed.

Lemma hasTerm_with_term t ns : is_nibbles ns -> hasTerm (with_term t ns) = t.
Proof. intros Hn. destruct t; [apply hasTerm_snoc|by apply hasTerm_nibbles]. Qed.

Lemma valid_hex_with_term h : valid_hex h <-> exists t ns, is_nibbles ns /\ h = with_term t ns.
Proof.
  split.
  - intros (ns & Hn & [->| ->]); [by exists false, ns|by exists true, ns].
  - intros ([] & ns & Hn & ->); exists ns; auto.
Qed.

Lemma flag_byte (t : bool) n0 : is_nibble n0 ->
  let b := Z.lor (Z.lor (if t then 32 else 0) 16) n0 in
  b / 16 = (if t then 3 else 1) /\ b mod 16 = n0 /\ is_u8 b.
Proof.
  intros Hn b. assert (b = (if t then 3 else 1) * 16 + n0) as ->.
  { subst b. destruct t.
    - apply (lor_shiftl_add 4 3 n0); unfold is_nibble in *; lia.
    - apply (lor_shiftl_add 4 1 n0); unfold is_nibble in *; lia. }
  unfold is_nibble, is_u8 in *. rewrite div_base, mod_base by lia. destruct t; lia.
Qed.

Lemma is_bytes_pack ns : is_nibbles ns -> is_bytes (pack ns).
Proof.
  induction ns as [|x|x y ns IH] using list_pair_ind; intros Hn; [constructor|constructor|].
  inversion Hn as [|? ? Hx Hn']; inversion Hn' as [|? ? Hy Hn'']; subst.
  cbn [pack]. rewrite pack_nibble by done. constructor; [|by apply IH].
  unfold is_nibble, is_u8 in *. lia.
Qed.

Lemma is_bytes_compact_of t ns : is_nibbles ns -> is_bytes (compact_of t ns).
Proof.
  intros Hn. unfold compact_of. destruct (Nat.odd (length ns)).
  - constructor; [|by apply is_bytes_pack, Forall_drop].
    apply flag_byte. destruct Hn; simpl; [|done]. unfold is_nibble; lia.
  - constructor; [|by apply is_bytes_pack]. destruct t; compute; split; congruence.
Qed.

Lemma compactToHex_of t ns : is_nibbles ns -> compactToHex (compact_of t ns) = with_term t ns.
Proof.
  intros Hn. unfold compactToHex, compact_of. destruct (Nat.odd (length ns)) eqn:Ho.
  - destruct ns as [|n0 ns]; [done|]. cbn [length] in Ho. rewrite Nat.odd_succ in Ho.
    inversion Hn as [|? ? Hn0 Hns]; subst. cbn [head drop from_option].
    destruct (flag_byte t n0 Hn0) as (Hd & Hm & _). cbn [default from_option id].
    rewrite keybytesToHex_nibbles, take_snoc, nibbles_of_cons, nibbles_of_pack
      by (rewrite ?drop_0; try done; by rewrite Ho).
    change (default 0 (Some n0)) with n0. rewrite Hd, Hm. by destruct t.
  - rewrite keybytesToHex_nibbles, take_snoc, nibbles_of_cons, nibbles_of_pack
      by (try done; by rewrite <- Nat.negb_odd, Ho).
    by destruct t.
Qed.

(** COMPACT encoding loses nothing: every hex key a trie node can hold, with or
    without terminator and of either parity, is encoded by [hexToCompact] without a
    panic into well-formed bytes that [compactToHex] decodes back to the same key. *)
Theorem compact_roundtrip (h : bytes) :
  valid_hex h ->
  exists c, hexToCompact h = Ok c /\ is_bytes c /\ compactToHex c = h.
Proof.
  intros (t & ns & Hn & ->)%valid_hex_with_term. exists (compact_of t ns). split_and!.
  - apply hexToCompact_of. by apply hasTerm_with_term.
  - by apply is_bytes_compact_of.
  - by apply compactToHex_of.
Qed.

Lemma compact_roundtrip_witness :
  exists c, hexToCompact [1; 2; 3; 16] = Ok c /\ is_bytes c /\ compactToHex c = [1; 2; 3; 16].
Proof.
  apply (compact_roundtrip [1; 2; 3; 16]). exists [1; 2; 3]. split; [|by right].
  repeat constructor; unfold is_nibble; lia.
Defined.

(** KEYBYTES to HEX is invertible: a key turned into nibbles with a terminator is
    turned back by [hexToKeybytes] into the same bytes, and the hex form is a valid
    hex key of odd length [2n+1]. *)
Theorem keybytes_roundtrip (k : bytes) :
  is_bytes k ->
  hexToKeybytes (keybytesToHex k) = Ok k /\ valid_hex (keybytesToHex k) /\
  length (keybytesToHex k) = S (2 * length k).
Proof.
  intros Hk. split_and!.
  - unfold hexToKeybytes. rewrite keybytesToHex_nibbles, hasTerm_snoc, take_snoc.
    unfold len. rewrite even_test, length_nibbles_of.
    rewrite (proj1 (Is_true_true _) (even_double _)).
    rewrite <- length_nibbles_of, decodeNibbles_exact, pack_nibbles_of; [done|done|].
    rewrite length_nibbles_of. apply even_double.
  - rewrite keybytesToHex_nibbles. exists (nibbles_of k). split; [by apply nibbles_of_valid|auto].
  - apply length_keybytesToHex.
Qed.

Lemma keybytes_roundtrip_witness : hexToKeybytes (keybytesToHex [255; 7]) = Ok [255; 7].
Proof.
  apply (keybytes_roundtrip [255; 7]). repeat constructor; unfold is_u8; lia.
Defined.

(** ** The in-place compaction *)

(** The loop overwrites the buffer from [bi] on with the packed pairs of [hex[ni:hexLen]];
    it never reads a cell it has already overwritten. *)
Lemma compactLoop_spec fuel rest bi ni hexLen hex :
  drop ni (take hexLen hex) = rest -> Nat.even (length rest) ->
  (length rest < fuel)%nat -> (bi <= ni + 1)%nat -> (hexLen <= length hex)%nat ->
  compactLoop fuel bi ni hexLen hex
  = Ok (take bi hex ++ pack rest ++ drop (bi + length (pack rest)) hex).
Proof.
  revert fuel bi ni hex. induction rest as [|x|x y rest IH] using list_pair_ind;
    intros fuel bi ni hex Hrest He Hf Hb Hl; (destruct fuel as [|fuel]; [simpl in *; lia|]).
  - assert (hexLen <= ni)%nat.
    { apply (f_equal length) in Hrest. rewrite length_drop, length_take in Hrest. simpl in *. lia. }
    simpl. rewrite decide_False by lia. by rewrite Nat.add_0_r, take_drop.
  - done.
  - assert (Hni : (ni + 2 <= hexLen)%nat).
    { apply (f_equal length) in Hrest. rewrite length_drop, length_take in Hrest. simpl in *. lia. }
    assert (Hat : forall j, drop ni (take hexLen hex) !! j = hex !! (ni + j)%nat \/ (hexLen <= ni + j)%nat).
    { intros j. destruct (decide (ni + j < hexLen)%nat); [left|right; lia].
      rewrite lookup_drop, lookup_take_lt by lia. done. }
    rewrite Hrest in Hat.
    assert (Hx : hex !! ni = Some x).
    { destruct (Hat 0%nat) as [E|]; [|lia]. rewrite Nat.add_0_r in E. by rewrite <- E. }
    assert (Hy : hex !! (ni + 1)%nat = Some y).
    { destruct (Hat 1%nat) as [E|]; [|lia]. by rewrite <- E. }
    cbn [compactLoop]. rewrite decide_True by lia.
    rewrite (index_lookup _ _ _ Hx). cbn [mbind res_bind]. rewrite (index_lookup _ _ _ Hy).
    cbn [mbind res_bind]. rewrite store_lt by lia. cbn [mbind res_bind].
    rewrite IH.
    + f_equal. rewrite Nat.add_1_r,  (take_S_r _ bi (Z.lor (u8 (x ≪ 4)) y)); [|].
      * rewrite take_insert_ge by lia. rewrite <- app_assoc. f_equal. cbn [pack app length].
        f_equal. f_equal. rewrite drop_insert_lt by lia. f_equal. lia.
      * apply list_lookup_insert_eq. lia.
    + rewrite take_insert_lt by lia. rewrite drop_insert_lt by lia.
      rewrite <- drop_drop, Hrest. done.
    + done.
    + simpl in Hf. lia.
    + lia.
    + rewrite length_insert. lia.
Qed.

Lemma hex_split hex : exists ns, hex = with_term (hasTerm hex) ns.
Proof.
  unfold hasTerm. destruct (last hex) as [x|] eqn:E; [|by exists hex].
  destruct (Z.eqb_spec x 16) as [->|]; [|by exists hex].
  apply last_Some in E as [l ->]. by exists l.
Qed.

Lemma compactLoop_prefix hex ns t p :
  hex = with_term t ns -> Nat.even (length (drop p ns)) -> (p <= 1)%nat -> hex <> [] ->
  exists tl, compactLoop (S (length ns)) 1 p (length ns) hex = Ok (default 0 (head hex) :: pack (drop p ns) ++ tl).
Proof.
  intros Hh He Hp Hne. destruct hex as [|x hex]; [done|].
  exists (drop (length (pack (drop p ns))) hex).
  rewrite (compactLoop_spec _ (drop p ns)); [done| |done| |lia|].
  - rewrite Hh. f_equal. destruct t; simpl; [by rewrite take_app_length|by rewrite take_ge].
  - rewrite length_drop. lia.
  - rewrite Hh. destruct t; simpl; rewrite ?length_app; lia.
Qed.

(** The in-place variant computes the same compact key: on every non-empty buffer
    [hexToCompactInPlace] terminates without a panic, keeps the buffer's length and
    leaves in its first [n] bytes exactly the result of [hexToCompact]; on the empty
    buffer, which [hexToCompact] accepts, it indexes out of range. *)
Theorem compact_in_place_equiv (hex : bytes) :
  hex <> [] ->
  (exists n buf c, hexToCompactInPlace hex = Ok (n, buf) /\ hexToCompact hex = Ok c /\
                   take n buf = c /\ length c = n) /\
  hexToCompactInPlace [] = Panic.
Proof.
  intros Hne. split; [|done]. destruct (hex_split hex) as [ns Hh]. set (t := hasTerm hex) in *.
  pose proof (hexToCompact_of t ns) as Hc. rewrite <- Hh in Hc. specialize (Hc eq_refl).
  unfold hexToCompactInPlace. fold t.
  assert ((if t then (Z.shiftl 1 5, length hex - 1)%nat else (0, length hex))
          = (if t then 32 else 0, length ns)) as ->.
  { rewrite Hh. destruct t; simpl; rewrite ?length_app; simpl; f_equal; lia. }
  rewrite odd_test. unfold compact_of in Hc. destruct (Nat.odd (length ns)) eqn:Ho.
  - destruct ns as [|n0 ns]; [done|].
    assert (index (E:=Empty_set) hex 0 = Ok n0) as ->.
    { rewrite Hh. by destruct t. }
    destruct (compactLoop_prefix hex (n0 :: ns) t 1) as [tl Htl]; [done| |lia|done|].
    { cbn [drop length]. cbn [length] in Ho. rewrite drop_0. rewrite Nat.odd_succ in Ho. by rewrite Ho. }
    cbn [mbind res_bind]. rewrite Htl. cbn [mbind res_bind]. rewrite store_lt by (simpl; lia).
    cbn [mbind res_bind insert list_insert]. do 3 eexists. split_and!; [done|done| |].
    + cbn [length] in *. rewrite half_odd by (by rewrite Ho). rewrite Nat.add_1_r. cbn [take].
      f_equal. cbn [drop]. rewrite drop_0. rewrite <- length_pack. apply take_app_length.
    + cbn [length] in *. rewrite half_odd by (by rewrite Ho). cbn [drop]. rewrite drop_0, length_pack. lia.
  - destruct (compactLoop_prefix hex ns t 0) as [tl Htl]; [done| |lia|done|].
    { rewrite drop_0. by rewrite <- Nat.negb_odd, Ho. }
    cbn [mbind res_bind]. rewrite Htl. cbn [mbind res_bind]. rewrite store_lt by (simpl; lia).
    cbn [mbind res_bind insert list_insert]. do 3 eexists. split_and!; [done|done| |].
    + rewrite Nat.add_1_r. cbn [take]. rewrite drop_0. f_equal; [by rewrite Z.lor_0_r|].
      rewrite <- length_pack. apply take_app_length.
    + cbn [length]. rewrite length_pack. lia.
Qed.

Lemma compact_in_place_equiv_witness :
  exists n buf c, hexToCompactInPlace [1; 2; 3; 16] = Ok (n, buf) /\
    hexToCompact [1; 2; 3; 16] = Ok c /\ take n buf = c /\ length c = n.
Proof. apply (compact_in_place_equiv [1; 2; 3; 16]). done. Defined.

(** ** Common prefixes *)

Lemma prefixLen_le a b : (prefixLen a b <= length a)%nat /\ (prefixLen a b <= length b)%nat.
Proof.
  revert b. induction a as [|x a IH]; intros [|y b]; simpl; try lia.
  destruct (x =? y); simpl; [|lia]. specialize (IH b). lia.
Qed.

Lemma prefixLen_take a b : take (prefixLen a b) a = take (prefixLen a b) b.
Proof.
  revert b. induction a as [|x a IH]; intros [|y b]; simpl; try done.
  destruct (Z.eqb_spec x y) as [->|]; simpl; [|done]. by rewrite IH.
Qed.

(** Past the common prefix the keys differ, or one of them has ended. *)
Lemma prefixLen_differ a b x y :
  a !! prefixLen a b = Some x -> b !! prefixLen a b = Some y -> x <> y.
Proof.
  revert b. induction a as [|a0 a IH]; intros [|b0 b]; simpl; try done.
  destruct (Z.eqb_spec a0 b0) as [->|]; simpl; [apply IH|]. congruence.
Qed.

Lemma prefixLen_prefix a b : prefixLen a b = length b <-> b `prefix_of` a.
Proof.
  split.
  - intros E. exists (drop (prefixLen a b) a). rewrite <- (take_drop (prefixLen a b) a) at 1.
    rewrite prefixLen_take, E. by rewrite firstn_all.
  - intros [k ->]. induction b as [|x b IH]; simpl; [by destruct k|].
    rewrite Z.eqb_refl. by rewrite IH.
Qed.
