(* ===== verification/Trie.v ===== *)
(** * The Merkle Patricia trie

    Model of [storage/statedb/node.go] and [storage/statedb/trie.go]: the node types,
    lookup, insertion and deletion with on-demand resolution of hash nodes, the
    pruning marks and the public operations of [Trie]. *)

From S2P Require Import Prelude TrieKeys.

Module MPT.

(** ** Nodes *)

(** [nodeFlag]. *)
Record nodeFlag := mkFlag {
  nf_hash : option bytes;
  nf_dirty : bool;
  nf_lenEncoded : Z
}.

(** The [node] interface and its implementations; [NilNode] is the nil interface. *)
Inductive node :=
| NilNode
| ValueNode (v : bytes)
| ShortNode (key : bytes) (val : node) (flags : nodeFlag)
| FullNode (children : list node) (flags : nodeFlag)
| HashNode (h : bytes).

(** [newFlag]: the flag of a newly created node. *)
Definition newFlag : nodeFlag := mkFlag None true 0.

(** [cache]. *)
Definition node_cache (n : node) : option bytes * bool :=
  match n with
  | ShortNode _ _ fl | FullNode _ fl => (nf_hash fl, nf_dirty fl)
  | _ => (None, true)
  end.

Definition is_nil (n : node) : bool := match n with NilNode => true | _ => false end.

(** [MissingNodeError]. *)
Record MissingNodeError := mkMissing { me_NodeHash : bytes; me_Path : bytes }.

(** [common.BytesToExtHash]: a 32-byte hash is extended with a zero counter; any length
    but 0, 32 and 39 is fatal. *)
Definition BytesToExtHash {E} (b : bytes) : res E bytes :=
  if decide (length b = 0%nat \/ length b = 32%nat) then
    Ok (replicate (32 - length b) 0 ++ b ++ replicate 7 0)
  else if decide (length b = 39%nat) then Ok b
  else Panic.

(** [ExtHash.Unextend]. *)
Definition Unextend (eh : bytes) : bytes := take 32 eh.

(** ** The trie

    [db] is the node database behind [Database.node]; the options decide whether
    obsolete nodes are marked for pruning. *)
Record trieEnv := mkEnv {
  te_db : bytes -> option node;
  te_pruning : bool;
  te_PruningBlockNumber : Z
}.

(** The pruning marks cache, [map[common.ExtHash]uint64]. *)
Abbreviation marks := (gmap bytes Z).

(** Trie code: reads and writes the marks, may fail with a [MissingNodeError]. *)
Definition TM (A : Type) : Type := marks -> res MissingNodeError A * marks.

#[export] Instance TM_ret : MRet TM := fun A a s => (Ok a, s).
#[export] Instance TM_bind : MBind TM := fun A B k m s =>
  match m s with
  | (Ok a, s') => k a s'
  | (Err e, s') => (Err e, s')
  | (Panic, s') => (Panic, s')
  | (NoFuel, s') => (NoFuel, s')
  end.

Definition lift {A} (r : res MissingNodeError A) : TM A := fun s => (r, s).

Section ops.
Context (env : trieEnv).

(** [resolveHash]. *)
Definition resolveHash (n : bytes) (prefix : bytes) : TM node :=
  hash ← lift (BytesToExtHash n);
  match te_db env hash with
  | Some NilNode | None => lift (Err (mkMissing (Unextend hash) prefix))
  | Some nd => mret nd
  end.

(** [resolve]. *)
Definition resolve (n : node) (prefix : bytes) : TM node :=
  match n with
  | HashNode h => resolveHash h prefix
  | _ => mret n
  end.

Definition setMark (hash : bytes) : TM unit :=
  fun s => (Ok tt, <[hash := te_PruningBlockNumber env]> s).

(** [t.pruningMarksCache[common.BytesToExtHash(h)] = t.PruningBlockNumber]. *)
Definition putMark (h : bytes) : TM unit :=
  hash ← lift (BytesToExtHash h);
  setMark hash.

(** [markPrunableNode]. *)
Definition markPrunableNode (n : node) : TM unit :=
  if negb (te_pruning env) || (te_PruningBlockNumber env =? 0) then mret tt
  else match n with
  | HashNode hn => putMark hn
  | NilNode => lift Panic
  | _ => match (node_cache n).1 with
         | Some hn => putMark hn
         | None => mret tt
         end
  end.

(** [tryGet]: value found, replacement node, and whether a hash node was resolved. *)
Fixpoint tryGet (fuel : nat) (origNode : node) (key : bytes) (pos : nat)
    : TM (option bytes * node * bool) :=
  match fuel with
  | O => lift NoFuel
  | S fuel =>
    match origNode with
    | NilNode => mret (None, NilNode, false)
    | ValueNode v => mret (Some v, ValueNode v, false)
    | ShortNode nk nv fl =>
        if bool_decide ((length key - pos < length nk)%nat \/
                        nk <> take (length nk) (drop pos key))
        then mret (None, ShortNode nk nv fl, false)
        else
          '(value, newnode, didResolve) ← tryGet fuel nv key (pos + length nk);
          mret (value, ShortNode nk (if (didResolve : bool) then newnode else nv) fl, didResolve)
    | FullNode cs fl =>
        k ← lift (index key pos);
        c ← lift (index cs (Z.to_nat k));
        '(value, newnode, didResolve) ← tryGet fuel c key (pos + 1);
        mret (value,
              FullNode (if (didResolve : bool) then <[Z.to_nat k := newnode]> cs else cs) fl,
              didResolve)
    | HashNode h =>
        child ← resolveHash h (take pos key);
        '(value, newnode, _) ← tryGet fuel child key pos;
        mret (value, newnode, true)
    end
  end.

(** [insert]: whether the trie changed, and the new node. *)
Fixpoint insert (fuel : nat) (n : node) (prefix key : bytes) (value : node) : TM (bool * node) :=
  match fuel with
  | O => lift NoFuel
  | S fuel =>
    match key with
    | [] =>
        match n with
        | ValueNode v =>
            match value with
            | ValueNode w => mret (negb (bool_decide (v = w)), value)
            | _ => lift Panic
            end
        | _ => mret (true, value)
        end
    | _ =>
      match n with
      | ShortNode nk nv fl =>
          let matchlen := prefixLen key nk in
          if bool_decide (matchlen = length nk) then
            '(dirty, nn) ← insert fuel nv (prefix ++ take matchlen key) (drop matchlen key) value;
            if negb dirty then mret (false, n)
            else
              _ ← markPrunableNode n;
              mret (true, ShortNode nk nn newFlag)
          else
            let branch := replicate 17 NilNode in
            i1 ← lift (index nk matchlen);
            '(_, c1) ← insert fuel NilNode (prefix ++ take (matchlen + 1) nk)
                         (drop (matchlen + 1) nk) nv;
            branch ← lift (store branch (Z.to_nat i1) c1);
            i2 ← lift (index key matchlen);
            '(_, c2) ← insert fuel NilNode (prefix ++ take (matchlen + 1) key)
                         (drop (matchlen + 1) key) value;
            branch ← lift (store branch (Z.to_nat i2) c2);
            _ ← markPrunableNode n;
            if bool_decide (matchlen = 0%nat) then mret (true, FullNode branch newFlag)
            else mret (true, ShortNode (take matchlen key) (FullNode branch newFlag) newFlag)
      | FullNode cs fl =>
          k ← lift (index key 0);
          c ← lift (index cs (Z.to_nat k));
          '(dirty, nn) ← insert fuel c (prefix ++ [k]) (drop 1 key) value;
          if negb dirty then mret (false, n)
          else
            _ ← markPrunableNode n;
            cs ← lift (store cs (Z.to_nat k) nn);
            mret (true, FullNode cs newFlag)
      | NilNode => mret (true, ShortNode key value newFlag)
      | HashNode h =>
          rn ← resolveHash h prefix;
          '(dirty, nn) ← insert fuel rn prefix key value;
          if negb dirty then mret (false, rn) else mret (true, nn)
      | ValueNode _ => lift Panic
      end
    end
  end.

(** The scan of a full node's children in [delete]: the index of the only child left,
    [-1] when there is none and [-2] when there are at least two. *)
Fixpoint onlyChild (pos : Z) (i : nat) (cs : list node) : Z :=
  match cs with
  | [] => pos
  | c :: cs' =>
      if is_nil c then onlyChild pos (S i) cs'
      else if pos =? -1 then onlyChild (Z.of_nat i) (S i) cs'
      else -2
  end.

(** [concat]. *)
Definition concat (s1 s2 : bytes) : bytes := s1 ++ s2.

(** [delete]: whether the trie changed, and the new node. *)
Fixpoint delete (fuel : nat) (n : node) (prefix key : bytes) : TM (bool * node) :=
  match fuel with
  | O => lift NoFuel
  | S fuel =>
    match n with
    | ShortNode nk nv fl =>
        let matchlen := prefixLen key nk in
        if bool_decide (matchlen < length nk)%nat then mret (false, n)
        else if bool_decide (matchlen = length key) then
          _ ← markPrunableNode n;
          mret (true, NilNode)
        else
          '(dirty, child) ← delete fuel nv (prefix ++ take (length nk) key) (drop (length nk) key);
          if negb dirty then mret (false, n)
          else
            _ ← markPrunableNode n;
            match child with
            | ShortNode ck cv _ => mret (true, ShortNode (concat nk ck) cv newFlag)
            | _ => mret (true, ShortNode nk child newFlag)
            end
    | FullNode cs fl =>
        k ← lift (index key 0);
        c ← lift (index cs (Z.to_nat k));
        '(dirty, nn) ← delete fuel c (prefix ++ [k]) (drop 1 key);
        if negb dirty then mret (false, n)
        else
          _ ← markPrunableNode n;
          cs ← lift (store cs (Z.to_nat k) nn);
          let pos := onlyChild (-1) 0 cs in
          if 0 <=? pos then
            child ← lift (index cs (Z.to_nat pos));
            if negb (pos =? 16) then
              cnode ← resolve child prefix;
              match cnode with
              | ShortNode ck cv _ => mret (true, ShortNode (pos :: ck) cv newFlag)
              | _ => mret (true, ShortNode [pos] child newFlag)
              end
            else mret (true, ShortNode [pos] child newFlag)
          else mret (true, FullNode cs newFlag)
    | ValueNode _ => mret (true, NilNode)
    | NilNode => mret (false, NilNode)
    | HashNode h =>
        rn ← resolveHash h prefix;
        '(dirty, nn) ← delete fuel rn prefix key;
        if negb dirty then mret (false, rn) else mret (true, nn)
    end
  end.

(** Fuel for a walk along [key]: a hash node never resolves to a hash node, so at most
    two calls are made per nibble, and one more pair at the end of the key. *)
Definition walkFuel (key : bytes) : nat := 2 * length key + 2.

(** The mutable part of [Trie]. *)
Record Trie := mkTrie { t_root : node; t_marks : marks }.

(** [TryGet]. *)
Definition TryGet (t : Trie) (key : bytes) : res MissingNodeError (option bytes) * Trie :=
  let key := keybytesToHex key in
  match tryGet (walkFuel key) (t_root t) key 0 (t_marks t) with
  | (Ok (value, newroot, didResolve), ms) =>
      (Ok value, mkTrie (if (didResolve : bool) then newroot else t_root t) ms)
  | (Err e, ms) => (Err e, mkTrie (t_root t) ms)
  | (Panic, ms) => (Panic, mkTrie (t_root t) ms)
  | (NoFuel, ms) => (NoFuel, mkTrie (t_root t) ms)
  end.

Definition setRoot (t : Trie) (r : res MissingNodeError (bool * node) * marks)
    : res MissingNodeError unit * Trie :=
  match r with
  | (Ok (_, n), ms) => (Ok tt, mkTrie n ms)
  | (Err e, ms) => (Err e, mkTrie (t_root t) ms)
  | (Panic, ms) => (Panic, mkTrie (t_root t) ms)
  | (NoFuel, ms) => (NoFuel, mkTrie (t_root t) ms)
  end.

(** [TryUpdateWithHexKey]: an empty value deletes the key. *)
Definition TryUpdateWithHexKey (t : Trie) (hexKey value : bytes) :=
  match value with
  | [] => setRoot t (delete (walkFuel hexKey) (t_root t) [] hexKey (t_marks t))
  | _ => setRoot t (insert (walkFuel hexKey) (t_root t) [] hexKey (ValueNode value) (t_marks t))
  end.

(** [TryUpdate]. *)
Definition TryUpdate (t : Trie) (key value : bytes) :=
  TryUpdateWithHexKey t (keybytesToHex key) value.

(** [TryDelete]. *)
Definition TryDelete (t : Trie) (key : bytes) :=
  let k := keybytesToHex key in
  setRoot t (delete (walkFuel k) (t_root t) [] k (t_marks t)).

End ops.

End MPT.
