(* ===== verification/TrieSpec.v ===== *)
(** * What the trie promises

    A trie node denotes a partial function from hex keys to values, through the node
    database for the parts not loaded.  [rep] is that denotation restricted to nodes in
    canonical form; lookups, insertions and deletions are proved to realise the
    operations of a finite map on it. *)

From S2P Require Import Prelude TrieKeys Trie.
Import MPT.

(** ** Canonical nodes and their content *)

Definition content := bytes -> option bytes.

(** Hex keys as [keybytesToHex] makes them: nibbles, then the terminator. *)
Definition hexkey (k : bytes) : Prop := exists ns, is_nibbles ns /\ k = ns ++ [16].

(** A cached hash has one of the lengths [BytesToExtHash] accepts. *)
Definition hash_ok (h : bytes) : Prop :=
  length h = 0%nat \/ length h = 32%nat \/ length h = 39%nat.

Definition flag_ok (fl : nodeFlag) : Prop :=
  match nf_hash fl with Some h => hash_ok h | None => True end.

Definition is_hash (n : node) : bool := match n with HashNode _ => true | _ => false end.

#[export] Instance node_nil_dec (n : node) : Decision (n = NilNode).
Proof. destruct n; first [by left|by right]. Defined.

Definition sing (key v : bytes) : content := fun k => if decide (k = key) then Some v else None.
Definition upd (f : content) (key v : bytes) : content :=
  fun k => if decide (k = key) then Some v else f k.
Definition del (f : content) (key : bytes) : content :=
  fun k => if decide (k = key) then None else f k.

Section rep.
Context (env : trieEnv).

(** A full node, possibly not loaded yet. *)
Inductive fullish : node -> Prop :=
| fullish_full cs fl : fullish (FullNode cs fl)
| fullish_hash h eh cs fl :
    BytesToExtHash (E:=MissingNodeError) h = Ok eh -> te_db env eh = Some (FullNode cs fl) ->
    fullish (HashNode h).

(** [rep n f]: the non-empty subtrie [n] is in canonical form and holds exactly [f].
    Short nodes end in a value (leaf) or lead to a full node (extension), a full node
    has at least two children, values sit below a terminator and are not empty. *)
Inductive rep : node -> content -> Prop :=
| rep_leaf ks v fl f :
    is_nibbles ks -> v <> [] -> flag_ok fl ->
    (forall k, f k = sing (ks ++ [16]) v k) ->
    rep (ShortNode (ks ++ [16]) (ValueNode v) fl) f
| rep_ext ks c fl fc f :
    is_nibbles ks -> ks <> [] -> flag_ok fl -> fullish c -> rep c fc ->
    (forall k, f (ks ++ k) = fc k) -> (forall k, ~ ks `prefix_of` k -> f k = None) ->
    rep (ShortNode ks c fl) f
| rep_full cs fl (fs : nat -> content) f :
    length cs = 17%nat -> flag_ok fl ->
    (forall i, cs !! i = Some NilNode -> forall k, fs i k = None) ->
    (forall c, cs !! 16%nat = Some c -> c <> NilNode ->
       exists v, v <> [] /\ c = ValueNode v /\ forall k, fs 16%nat k = sing [] v k) ->
    (forall i c, (i < 16)%nat -> cs !! i = Some c -> c <> NilNode -> rep c (fs i)) ->
    (exists i j ci cj, i <> j /\ cs !! i = Some ci /\ cs !! j = Some cj /\
       ci <> NilNode /\ cj <> NilNode) ->
    f [] = None ->
    (forall x k, f (x :: k) = if decide (0 <= x <= 16) then fs (Z.to_nat x) k else None) ->
    rep (FullNode cs fl) f
| rep_hash h eh n f :
    BytesToExtHash (E:=MissingNodeError) h = Ok eh -> te_db env eh = Some n ->
    is_hash n = false -> rep n f ->
    rep (HashNode h) f.

(** What a child of a full node at index [x] may be. *)
Definition crep (x : nat) (c : node) (f : content) : Prop :=
  (x = 16%nat /\ exists v, v <> [] /\ c = ValueNode v /\ forall k, f k = sing [] v k) \/
  ((x < 16)%nat /\ rep c f).

(** A whole trie: empty, or a canonical node. *)
Definition trep (n : node) (f : content) : Prop :=
  (n = NilNode /\ forall k, f k = None) \/ rep n f.

Lemma rep_ext_eq n f g : rep n f -> (forall k, f k = g k) -> rep n g.
Proof.
  intros H. revert g. induction H as [ks v fl f Hn Hv Hfl Hf|ks c fl fc f Hn Hne Hfl Hc Hr IH H1 H2
    |cs fl fs f Hl Hfl Hnil H16 Hr IH H2 H0 Hx|h eh n f Hh Hdb Hnh Hr IH]; intros g Hg.
  - apply rep_leaf; [done..|]. intros k. by rewrite <- Hg.
  - apply (rep_ext _ _ _ fc); [done..| |]; intros; rewrite <- Hg; auto.
  - apply (rep_full _ _ fs); [done..| |]; intros; rewrite <- Hg; auto.
  - apply (rep_hash _ eh n); auto.
Qed.

Lemma rep_not_nil n f : rep n f -> n <> NilNode.
Proof. by destruct 1. Qed.

Lemma rep_not_value n f v : rep n f -> n <> ValueNode v.
Proof. by destruct 1. Qed.

Lemma crep_not_nil x c f : crep x c f -> c <> NilNode.
Proof. intros [(_ & v & _ & -> & _)|[_ H]]; [done|by eapply rep_not_nil]. Qed.

Lemma crep_ext x c f g : crep x c f -> (forall k, f k = g k) -> crep x c g.
Proof.
  intros [(-> & v & Hv & -> & Hf)|[Hx H]] Hg.
  - left. split; [done|]. exists v. split_and!; [done..|]. intros. by rewrite <- Hg.
  - right. split; [done|]. by eapply rep_ext_eq.
Qed.

(** The children of a canonical full node, one by one. *)
Definition full_ok (cs : list node) (fs : nat -> content) : Prop :=
  length cs = 17%nat /\
  forall i c, cs !! i = Some c ->
    (c = NilNode /\ forall k, fs i k = None) \/ (c <> NilNode /\ crep i c (fs i)).

Definition two_children (cs : list node) : Prop :=
  exists i j ci cj, i <> j /\ cs !! i = Some ci /\ cs !! j = Some cj /\
    ci <> NilNode /\ cj <> NilNode.

Definition full_content (fs : nat -> content) : content := fun k =>
  match k with
  | [] => None
  | x :: k => if decide (0 <= x <= 16) then fs (Z.to_nat x) k else None
  end.

Lemma rep_full_intro cs fl fs f :
  full_ok cs fs -> flag_ok fl -> two_children cs -> (forall k, f k = full_content fs k) ->
  rep (FullNode cs fl) f.
Proof.
  intros [Hl Hc] Hfl H2 Hf. apply (rep_full _ _ fs); try done.
  - intros i Hi k. destruct (Hc _ _ Hi) as [[_ H]|[? _]]; [apply H|done].
  - intros c Hi Hn. destruct (Hc _ _ Hi) as [[? _]|[_ [[_ H]|[H _]]]]; [done|done|lia].
  - intros i c Hlt Hi Hn. destruct (Hc _ _ Hi) as [[? _]|[_ [[-> H]|[_ H]]]]; [done|lia|done].
Qed.

Lemma rep_full_inv cs fl f :
  rep (FullNode cs fl) f ->
  exists fs, full_ok cs fs /\ flag_ok fl /\ two_children cs /\ forall k, f k = full_content fs k.
Proof.
  inversion 1 as [| |? ? fs ? Hl Hfl Hnil H16 Hr H2 H0 Hx|]; subst. exists fs. split_and!; try done.
  - split; [done|]. intros i c Hi. pose proof (lookup_lt_Some _ _ _ Hi).
    destruct (decide (c = NilNode)) as [->|Hn]; [left; by auto|right; split; [done|]].
    destruct (decide (i = 16%nat)) as [->|]; [left; by auto|].
    right. split; [lia|]. apply Hr; auto. lia.
  - intros [|x k]; [done|]. by rewrite Hx.
Qed.

(** Induction on [rep] with the children of a full node taken together. *)
Lemma rep_ind' (P : node -> content -> Prop) :
  (forall ks v fl f, is_nibbles ks -> v <> [] -> flag_ok fl ->
     (forall k, f k = sing (ks ++ [16]) v k) -> P (ShortNode (ks ++ [16]) (ValueNode v) fl) f) ->
  (forall ks c fl fc f, is_nibbles ks -> ks <> [] -> flag_ok fl -> fullish c -> rep c fc -> P c fc ->
     (forall k, f (ks ++ k) = fc k) -> (forall k, ~ ks `prefix_of` k -> f k = None) ->
     P (ShortNode ks c fl) f) ->
  (forall cs fl fs f, full_ok cs fs -> flag_ok fl -> two_children cs ->
     (forall k, f k = full_content fs k) ->
     (forall i c, (i < 16)%nat -> cs !! i = Some c -> c <> NilNode -> P c (fs i)) ->
     P (FullNode cs fl) f) ->
  (forall h eh n f, BytesToExtHash (E:=MissingNodeError) h = Ok eh -> te_db env eh = Some n ->
     is_hash n = false -> rep n f -> P n f -> P (HashNode h) f) ->
  forall n f, rep n f -> P n f.
Proof.
  intros Hleaf Hext Hfull Hhash.
  induction 1 as [| |cs fl fs f Hl Hfl Hnil H16 Hr IH H2 H0 Hx|]; [by eauto..| |by eauto].
  apply (Hfull _ _ fs); try done.
  - split; [done|]. intros i c Hi. pose proof (lookup_lt_Some _ _ _ Hi).
    destruct (decide (c = NilNode)) as [->|Hn]; [left; by auto|right; split; [done|]].
    destruct (decide (i = 16%nat)) as [->|]; [left; by auto|].
    right. split; [lia|]. apply Hr; auto. lia.
  - intros [|x k]; [done|]. by rewrite Hx.
Qed.

Definition fs_set (fs : nat -> content) (i : nat) (g : content) : nat -> content :=
  fun j => if decide (j = i) then g else fs j.

(** Replacing one child. *)
Lemma full_ok_set cs fs i c g :
  full_ok cs fs -> crep i c g -> full_ok (<[i:=c]> cs) (fs_set fs i g).
Proof.
  intros [Hl Hc] Hr. split; [by rewrite length_insert|]. intros j c'.
  rewrite list_lookup_insert. unfold fs_set.
  destruct (decide (i = j /\ i < length cs)%nat) as [[-> ?]|Hn].
  - intros [= <-]. right. rewrite decide_True by done. split; [by eapply crep_not_nil|done].
  - intros Hj. pose proof (lookup_lt_Some _ _ _ Hj).
    rewrite decide_False by (intros ->; tauto). by apply Hc.
Qed.

Lemma full_ok_unset cs fs i :
  full_ok cs fs -> full_ok (<[i:=NilNode]> cs) (fs_set fs i (fun _ => None)).
Proof.
  intros [Hl Hc]. split; [by rewrite length_insert|]. intros j c'.
  rewrite list_lookup_insert. unfold fs_set.
  destruct (decide (i = j /\ i < length cs)%nat) as [[-> ?]|Hn].
  - intros [= <-]. left. by rewrite decide_True.
  - intros Hj. pose proof (lookup_lt_Some _ _ _ Hj).
    rewrite decide_False by (intros ->; tauto). by apply Hc.
Qed.

(** Setting a child to a node that is not nil keeps at least two of them. *)
Lemma two_children_set cs i c :
  two_children cs -> c <> NilNode -> two_children (<[i:=c]> cs).
Proof.
  intros (a & b & ca & cb & Hab & Ha & Hb & Hna & Hnb) Hc.
  assert (forall j cj, cs !! j = Some cj -> cj <> NilNode ->
          exists cj', <[i:=c]> cs !! j = Some cj' /\ cj' <> NilNode) as Hj.
  { intros j cj Hj Hn. rewrite list_lookup_insert.
    destruct (decide (i = j /\ i < length cs)%nat); eauto. }
  destruct (Hj _ _ Ha Hna) as (ca' & ? & ?). destruct (Hj _ _ Hb Hnb) as (cb' & ? & ?).
  by exists a, b, ca', cb'.
Qed.

Lemma full_content_set fs i g k :
  (i <= 16)%nat ->
  full_content (fs_set fs i g) k
  = match k with
    | [] => None
    | x :: k' => if decide (x = Z.of_nat i) then g k' else full_content fs k
    end.
Proof.
  intros Hi. destruct k as [|x k]; [done|]. simpl. unfold fs_set.
  destruct (decide (x = Z.of_nat i)) as [->|Hx].
  - rewrite decide_True by lia. by rewrite Nat2Z.id, decide_True.
  - destruct (decide (0 <= x <= 16)); [|done]. by rewrite decide_False by lia.
Qed.

(** ** Prefix-freeness of terminated keys *)

Lemma nibbles_not_16 ns i : is_nibbles ns -> ns !! i <> Some 16.
Proof.
  intros Hn Hi. unfold is_nibbles in Hn. rewrite Forall_lookup in Hn.
  specialize (Hn _ _ Hi). unfold is_nibble in Hn. lia.
Qed.

Lemma hexkey_prefix_free a b : hexkey a -> hexkey b -> a `prefix_of` b -> a = b.
Proof.
  intros (n1 & H1 & ->) (n2 & H2 & ->) [k Hk].
  destruct k as [|y k]; [by rewrite app_nil_r in Hk|]. exfalso.
  apply (nibbles_not_16 n2 (length n1) H2).
  assert (Hlt : (length n1 < length n2)%nat).
  { apply (f_equal length) in Hk. rewrite !length_app in Hk. simpl in Hk. lia. }
  transitivity ((n2 ++ [16]) !! length n1).
  - by rewrite lookup_app_l.
  - rewrite Hk, <- app_assoc. rewrite lookup_app_r by lia. by rewrite Nat.sub_diag.
Qed.

Lemma hexkey_not_prefix_nibbles a ns : hexkey a -> is_nibbles ns -> ~ a `prefix_of` ns.
Proof.
  intros (n1 & H1 & ->) Hn [k ->]. apply Forall_app in Hn as [Hn _].
  apply Forall_app in Hn as [_ Hn]. inversion Hn as [|? ? Hx]. unfold is_nibble in Hx. lia.
Qed.

Lemma hexkey_cons x k : hexkey (x :: k) -> (x = 16 /\ k = []) \/ (is_nibble x /\ hexkey k).
Proof.
  intros ([|n ns] & Hn & E); simplify_eq/=; [by left|]. inversion Hn; subst. right.
  split; [done|]. by exists ns.
Qed.

Lemma hexkey_app_inv ns k : is_nibbles ns -> hexkey (ns ++ k) -> hexkey k.
Proof.
  induction 1 as [|x ns Hx Hn IH]; [done|]. simpl.
  intros [[-> _]|[_ Hk]]%hexkey_cons; [unfold is_nibble in Hx; lia|auto].
Qed.

Lemma hexkey_app ns k : is_nibbles ns -> hexkey k -> hexkey (ns ++ k).
Proof.
  intros Hn (n2 & H2 & ->). exists (ns ++ n2). split; [by apply Forall_app|].
  by rewrite app_assoc.
Qed.

Lemma hexkey_not_nil k : hexkey k -> k <> [].
Proof. intros (ns & _ & ->). by destruct ns. Qed.

(** ** Lookup *)

(** Fuel for a walk from node [n] along the remaining key [k]. *)
Definition need (n : node) (k : bytes) : nat :=
  2 * length k + 1 + (if is_hash n then 1 else 0).

Ltac run := unfold mbind, TM_bind, mret, TM_ret, lift in *; cbn beta iota zeta in *.

Lemma short_test (nk key : bytes) pos :
  ((length key - pos < length nk)%nat \/ nk <> take (length nk) (drop pos key))
  <-> ~ nk `prefix_of` drop pos key.
Proof.
  split.
  - intros [H|H] [k Hk].
    + apply (f_equal length) in Hk. rewrite length_drop, length_app in Hk. lia.
    + apply H. rewrite Hk. by rewrite take_app_length.
  - intros H. destruct (decide (nk = take (length nk) (drop pos key))) as [E|]; [|by right].
    exfalso. apply H. exists (drop (length nk) (drop pos key)).
    rewrite E at 1. by rewrite take_drop.
Qed.

Lemma drop_cons_index (key : bytes) pos x k :
  drop pos key = x :: k -> key !! pos = Some x /\ drop (pos + 1) key = k /\ (pos < length key)%nat.
Proof.
  intros E. split_and!.
  - rewrite <- (Nat.add_0_r pos), <- lookup_drop, E. done.
  - rewrite <- drop_drop, E. done.
  - apply (f_equal length) in E. rewrite length_drop in E. simpl in E. lia.
Qed.

Lemma resolve_rep h eh n prefix ms :
  BytesToExtHash (E:=MissingNodeError) h = Ok eh -> te_db env eh = Some n -> n <> NilNode ->
  resolveHash env h prefix ms = (Ok n, ms).
Proof. intros Hh Hdb Hn. unfold resolveHash. run. rewrite Hh, Hdb. by destruct n. Qed.

Lemma full_index cs fs key0 k :
  full_ok cs fs -> hexkey (key0 :: k) ->
  exists c, cs !! Z.to_nat key0 = Some c /\ index (E:=MissingNodeError) cs (Z.to_nat key0) = Ok c /\
    0 <= key0 <= 16 /\ (Z.to_nat key0 <= 16)%nat /\
    ((c = NilNode /\ forall k, fs (Z.to_nat key0) k = None) \/
     (key0 = 16 /\ k = [] /\ exists v, v <> [] /\ c = ValueNode v /\ forall k, fs 16%nat k = sing [] v k) \/
     ((Z.to_nat key0 < 16)%nat /\ hexkey k /\ c <> NilNode /\ rep c (fs (Z.to_nat key0)))).
Proof.
  intros [Hl Hc] Hk. assert (Hx : 0 <= key0 <= 16).
  { apply hexkey_cons in Hk as [[-> _]|[? _]]; unfold is_nibble in *; lia. }
  destruct (cs !! Z.to_nat key0) as [c|] eqn:Ec; [|apply lookup_ge_None in Ec; lia].
  exists c. rewrite (index_lookup _ _ _ Ec). split_and!; try done; try lia.
  destruct (Hc _ _ Ec) as [?|[Hn [[E Hv]|[Hlt Hr]]]]; [by left|right; left|right; right].
  - apply hexkey_cons in Hk as [[-> ->]|[Hb _]]; [done|unfold is_nibble in Hb; lia].
  - apply hexkey_cons in Hk as [[-> ->]|[Hb ?]]; [simpl in Hlt; lia|done].
Qed.

Lemma fullish_resolved h eh n :
  fullish (HashNode h) -> BytesToExtHash (E:=MissingNodeError) h = Ok eh -> te_db env eh = Some n ->
  fullish n.
Proof.
  inversion 1 as [|? eh' cs fl E1 E2]; subst. rewrite E1. intros [= <-]. rewrite E2.
  intros [= <-]. constructor.
Qed.

Lemma tryGet_rep n f : rep n f -> forall key pos fuel ms,
  hexkey (drop pos key) -> (need n (drop pos key) <= fuel)%nat ->
  exists n' b, tryGet env fuel n key pos ms = (Ok (f (drop pos key), n', b), ms) /\
    rep n' f /\ (fullish n -> fullish n').
Proof.
  induction 1 as [ks v fl f Hn Hv Hfl Hf|ks c fl fc f Hn Hne Hfl Hc Hr IH H1 H2
    |cs fl fs f Hok Hfl H2 Hf IH|h eh n f Hh Hdb Hnh Hr IH] using rep_ind';
    intros key pos fuel ms Hk Hfuel; unfold need in Hfuel; cbn [is_hash] in Hfuel;
    (destruct fuel as [|fuel]; [lia|]); cbn [tryGet].
  - assert (Hself : rep (ShortNode (ks ++ [16]) (ValueNode v) fl) f) by by apply rep_leaf.
    case_bool_decide as Ht; run.
    + do 2 eexists. split_and!; [|exact Hself|done]. rewrite Hf. unfold sing.
      rewrite decide_False; [done|]. intros E. apply short_test in Ht. by rewrite E in Ht.
    + rewrite short_test in Ht. apply dec_stable in Ht.
      assert (E : ks ++ [16] = drop pos key).
      { apply hexkey_prefix_free; [by exists ks|done|done]. }
      pose proof (hexkey_not_nil _ Hk). destruct fuel as [|fuel].
      { destruct (drop pos key); simpl in *; [done|lia]. }
      cbn. do 2 eexists. split_and!; [|exact Hself|done].
      rewrite Hf. unfold sing. by rewrite decide_True.
  - case_bool_decide as Ht; run.
    + exists (ShortNode ks c fl), false. split_and!; [|by apply (rep_ext _ _ _ fc)|by inversion 1].
      rewrite H2; [done|]. by apply short_test.
    + rewrite short_test in Ht. apply dec_stable in Ht. destruct Ht as [k Ek].
      assert (Ed : drop (pos + length ks) key = k).
      { rewrite <- drop_drop, Ek. apply drop_app_length. }
      rewrite Ek in Hk, Hfuel. apply hexkey_app_inv in Hk; [|done].
      destruct (IH key (pos + length ks)%nat fuel ms) as (n' & b & E & Hrep & Hfull).
      * by rewrite Ed.
      * rewrite Ed. unfold need. rewrite length_app in Hfuel.
        destruct ks; [done|]. simpl in Hfuel. destruct (is_hash c); lia.
      * rewrite E. exists (ShortNode ks (if b then n' else c) fl), b.
        split_and!; [by rewrite Ek, H1, Ed| |by inversion 1].
        destruct b; apply (rep_ext _ _ _ fc); auto.
  - destruct (drop pos key) as [|x k] eqn:Ek; [by apply hexkey_not_nil in Hk|].
    apply drop_cons_index in Ek as (Hi & Hd & Hlt). run. rewrite (index_lookup _ _ _ Hi).
    destruct (full_index cs fs x k Hok Hk) as (c & Ec & -> & Hx & Hx' & Hcase).
    rewrite Hf. simpl in Hfuel |- *. rewrite decide_True by done. destruct fuel as [|fuel]; [lia|].
    assert (Hself : rep (FullNode cs fl) f) by by eapply rep_full_intro.
    destruct Hcase as [[-> Hs]|[(-> & -> & v & Hv & -> & Hs)|(Hlt' & Hk' & Hcn & Hrc)]].
    + cbn. rewrite Hs. by exists (FullNode cs fl), false.
    + cbn. change (Z.to_nat 16) with 16%nat. rewrite Hs. by exists (FullNode cs fl), false.
    + destruct (IH (Z.to_nat x) c Hlt' Ec Hcn key (pos + 1)%nat (S fuel) ms)
        as (n' & b & E & Hrep & _).
      * by rewrite Hd.
      * rewrite Hd. unfold need. destruct (is_hash c); lia.
      * rewrite E, Hd. do 2 eexists. split_and!; [done| |constructor]. destruct b; [|done].
        apply (rep_full_intro _ _ (fs_set fs (Z.to_nat x) (fs (Z.to_nat x)))); auto.
        -- apply full_ok_set; [done|by right].
        -- apply two_children_set; [done|by eapply rep_not_nil].
        -- intros k'. rewrite full_content_set, Hf by lia. destruct k' as [|y k']; [done|]. simpl.
           destruct (decide (y = _)) as [->|]; [|done]. rewrite decide_True by lia.
           by rewrite Nat2Z.id.
  - run. rewrite (resolve_rep h eh n) by (try done; by eapply rep_not_nil).
    destruct (IH key pos fuel ms Hk) as (n' & b & E & Hrep & Hfull).
    { unfold need. rewrite Hnh. lia. }
    rewrite E. do 2 eexists. split_and!; [done|done|].
    intros Hfi. apply Hfull. by eapply fullish_resolved.
Qed.

(** ** Insertion *)

Lemma BytesToExtHash_ok {E} h : hash_ok h -> exists eh, BytesToExtHash (E:=E) h = Ok eh.
Proof.
  intros H. unfold BytesToExtHash.
  destruct (decide (length h = 0 \/ length h = 32)%nat); [by eexists|].
  rewrite decide_True by (destruct H as [?|[?|?]]; tauto). by eexists.
Qed.

Lemma mark_ok n fl ms :
  (node_cache n).1 = nf_hash fl -> flag_ok fl -> is_nil n = false -> is_hash n = false ->
  exists ms', markPrunableNode env n ms = (Ok tt, ms').
Proof.
  unfold flag_ok, markPrunableNode. intros Hc Hfl Hn Hh.
  destruct (negb (te_pruning env) || (te_PruningBlockNumber env =? 0)); [by eexists|].
  assert (exists ms', match nf_hash fl with Some hn => putMark env hn | None => mret tt end ms = (Ok tt, ms')).
  { destruct (nf_hash fl) as [h|]; [|by eexists]. destruct (BytesToExtHash_ok (E:=MissingNodeError) h Hfl) as [eh E].
    unfold putMark. run. rewrite E. by eexists. }
  destruct n; try done; by rewrite Hc.
Qed.

Lemma mark_short nk nv fl ms :
  flag_ok fl -> exists ms', markPrunableNode env (ShortNode nk nv fl) ms = (Ok tt, ms').
Proof. intros. by apply (mark_ok _ fl). Qed.

Lemma mark_full cs fl ms :
  flag_ok fl -> exists ms', markPrunableNode env (FullNode cs fl) ms = (Ok tt, ms').
Proof. intros. by apply (mark_ok _ fl). Qed.

Lemma newFlag_ok : flag_ok newFlag.
Proof. done. Qed.

Lemma sing_app p key v k : sing (p ++ key) v (p ++ k) = sing key v k.
Proof.
  unfold sing. destruct (decide (k = key)) as [->|Hn]; [by rewrite decide_True|].
  rewrite decide_False; [done|]. by intros ?%app_inv_head.
Qed.

Lemma take_S_snoc (l : bytes) m x : l !! m = Some x -> take (m + 1) l = take m l ++ [x].
Proof. intros. rewrite Nat.add_1_r. by apply take_S_r. Qed.

Lemma split_at (l : bytes) m x : l !! m = Some x -> l = (take m l ++ [x]) ++ drop (m + 1) l.
Proof.
  intros H. rewrite <- (take_S_snoc _ _ _ H). by rewrite take_drop.
Qed.

(** Cutting a short node below its [m]-th nibble gives a child for a full node. *)
Lemma short_child nk nv fl f m x fuel p ms :
  rep (ShortNode nk nv fl) f -> nk !! m = Some x ->
  is_nibbles (take m nk) /\ 0 <= x <= 16 /\
  (forall k, f k <> None -> (take m nk ++ [x]) `prefix_of` k) /\
  exists c, insert env (S fuel) NilNode p (drop (m + 1) nk) nv ms = (Ok (true, c), ms) /\
    crep (Z.to_nat x) c (fun k => f ((take m nk ++ [x]) ++ k)).
Proof.
  intros Hrep Hx. pose proof (split_at _ _ _ Hx) as Hsp.
  inversion Hrep as [ks v fl' f' Hn Hv Hfl Hf|ks c fl' fc f' Hn Hne Hfl Hc Hr H1 H2| |]; subst.
  - pose proof (lookup_lt_Some _ _ _ Hx) as Hlt. rewrite length_app in Hlt. simpl in Hlt.
    assert (Hpre : forall k, f k <> None -> (take m (ks ++ [16]) ++ [x]) `prefix_of` k).
    { intros k. rewrite Hf. unfold sing. destruct (decide (k = ks ++ [16])) as [->|]; [|done].
      intros _. rewrite Hsp at 2. by eexists. }
    destruct (decide (m = length ks)) as [->|].
    + rewrite lookup_app_r, Nat.sub_diag in Hx by lia. simplify_eq/=.
      rewrite take_app_length. split_and!; [done|lia|lia|by rewrite take_app_length in Hpre|].
      rewrite drop_ge by (rewrite length_app; simpl; lia). eexists. split; [done|].
      left. split; [done|]. exists v. split_and!; [done..|]. intros k. rewrite Hf.
      pose proof (sing_app (ks ++ [16]) [] v k) as E. by rewrite app_nil_r in E.
    + rewrite lookup_app_l in Hx by lia. pose proof (proj1 (Forall_lookup _ _) Hn _ _ Hx) as Hxn.
      unfold is_nibble in Hxn. rewrite take_app_le in * by lia.
      split_and!; [by apply Forall_take|lia|lia|done|].
      assert (Hsp' : ks ++ [16] = (take m ks ++ [x]) ++ drop (m + 1) ks ++ [16]).
      { rewrite app_assoc, <- (split_at ks m x); done. }
      rewrite drop_app_le by lia. exists (ShortNode (drop (m + 1) ks ++ [16]) (ValueNode v) newFlag).
      split; [by destruct (drop (m + 1) ks)|]. right. split; [lia|].
      apply rep_leaf; [by apply Forall_drop|done|done|]. intros k. rewrite Hf, Hsp'.
      by rewrite sing_app.
  - pose proof (proj1 (Forall_lookup _ _) Hn _ _ Hx) as Hxn. unfold is_nibble in Hxn.
    split_and!; [by apply Forall_take|lia|lia| |].
    { intros k Hk. destruct (decide (nk `prefix_of` k)) as [[k' ->]|]; [|by rewrite H2 in Hk].
      rewrite Hsp at 2. rewrite <- app_assoc. by eexists. }
    destruct (drop (m + 1) nk) as [|y d] eqn:Ed.
    + exists nv. split; [done|]. right. split; [lia|]. eapply rep_ext_eq; [done|].
      intros k. rewrite app_nil_r in Hsp. by rewrite <- Hsp.
    + exists (ShortNode (y :: d) nv newFlag). split; [done|]. right. split; [lia|].
      apply (rep_ext _ _ _ fc); try done.
      * rewrite <- Ed. by apply Forall_drop.
      * intros k. rewrite app_assoc, <- Hsp. apply H1.
      * intros k Hk. apply H2. intros [k' Hk']. apply Hk. exists k'.
        apply (app_inv_head (take m nk ++ [x])). by rewrite Hk', app_assoc, <- Hsp.
Qed.

Lemma rep_branch i1 i2 c1 c2 f1 f2 (fs := fs_set (fs_set (fun _ _ => None) i1 f1) i2 f2) :
  i1 <> i2 -> (i1 <= 16)%nat -> (i2 <= 16)%nat -> crep i1 c1 f1 -> crep i2 c2 f2 ->
  rep (FullNode (<[i2:=c2]> (<[i1:=c1]> (replicate 17 NilNode))) newFlag) (full_content fs).
Proof.
  intros Hne H1 H2 Hc1 Hc2. apply (rep_full_intro _ _ fs); [|done| |done].
  - do 2 (apply full_ok_set; [|done]). split; [done|].
    intros i c [-> _]%lookup_replicate. by left.
  - exists i1, i2, c1, c2. rewrite list_lookup_insert_ne by done.
    rewrite !list_lookup_insert_eq by (rewrite ?length_insert, length_replicate; lia).
    split_and!; eauto using crep_not_nil.
Qed.

(** The key of a short node, and of nothing else than a leaf when it is terminated. *)
Lemma short_key nk nv fl f :
  rep (ShortNode nk nv fl) f -> flag_ok fl /\ (hexkey nk \/ is_nibbles nk) /\ nk <> [].
Proof.
  inversion 1; subst; split_and!; try done; [left; by eexists|by destruct ks|by right].
Qed.

Lemma diverge_lt key nk :
  hexkey key -> hexkey nk \/ is_nibbles nk -> prefixLen key nk <> length nk ->
  exists x y, key !! prefixLen key nk = Some x /\ nk !! prefixLen key nk = Some y /\ x <> y.
Proof.
  intros Hk Hnk Hne. pose proof (prefixLen_le key nk) as [Hl1 Hl2].
  destruct (lookup_lt_is_Some_2 nk (prefixLen key nk)) as [y Hy]; [lia|].
  destruct (decide (prefixLen key nk = length key)) as [E|].
  - exfalso. assert (Hp : key `prefix_of` nk).
    { exists (drop (length key) nk). rewrite <- E.
      transitivity (take (prefixLen key nk) nk ++ drop (prefixLen key nk) nk); [by rewrite take_drop|].
      f_equal. rewrite <- prefixLen_take. by rewrite E, firstn_all. }
    destruct Hnk as [Hnk|Hnk]; [|by eapply hexkey_not_prefix_nibbles].
    apply hexkey_prefix_free in Hp; [|done..]. subst. by apply Hne, prefixLen_prefix.
  - destruct (lookup_lt_is_Some_2 key (prefixLen key nk)) as [x Hx]; [lia|].
    exists x, y. split_and!; [done..|]. by eapply prefixLen_differ.
Qed.

(** The content of a branch put where two keys diverge. *)
Lemma branch_content f key v P x y k f1 f2 :
  key = (P ++ [x]) ++ drop (length P + 1) key -> x <> y -> 0 <= x <= 16 -> 0 <= y <= 16 ->
  (forall k, f k <> None -> (P ++ [y]) `prefix_of` k) ->
  (forall k, f1 k = f ((P ++ [y]) ++ k)) -> (forall k, f2 k = sing key v ((P ++ [x]) ++ k)) ->
  upd f key v (P ++ k)
  = full_content (fs_set (fs_set (fun _ _ => None) (Z.to_nat y) f1) (Z.to_nat x) f2) k.
Proof.
  intros Hkey Hxy Hx Hy Hf H1 H2.
  assert (Hnone : forall z k', z <> y -> f (P ++ z :: k') = None).
  { intros z k' Hz. destruct (f _) eqn:E; [|done]. destruct (Hf (P ++ z :: k')) as [k'' Hk''].
    - by rewrite E.
    - rewrite <- app_assoc in Hk''. apply app_inv_head in Hk''. by simplify_eq/=. }
  rewrite full_content_set by lia. unfold upd. destruct k as [|z k].
  - rewrite app_nil_r, decide_False.
    + destruct (f P) eqn:E; [|done]. destruct (Hf P) as [k' Hk']; [by rewrite E|].
      apply (f_equal length) in Hk'. rewrite !length_app in Hk'. simpl in Hk'. lia.
    + intros E. rewrite Hkey in E. apply (f_equal length) in E. rewrite !length_app in E. simpl in E. lia.
  - rewrite Z2Nat.id by lia. destruct (decide (z = x)) as [->|Hz].
    + rewrite H2. unfold sing. rewrite <- (app_assoc P [x] k). simpl.
      destruct (decide (P ++ x :: k = key)); [done|]. by apply Hnone.
    + rewrite full_content_set, Z2Nat.id by lia. rewrite decide_False.
      2: { intros E. rewrite Hkey, <- !app_assoc in E. apply app_inv_head in E. by simplify_eq/=. }
      destruct (decide (z = y)) as [->|Hz']; [by rewrite H1, <- app_assoc|].
      simpl. rewrite Hnone by done. by destruct (decide _).
Qed.

Lemma insert_diverge nk nv fl f key v prefix fuel ms :
  rep (ShortNode nk nv fl) f -> hexkey key -> v <> [] -> prefixLen key nk <> length nk ->
  exists n' ms', insert env (S (S fuel)) (ShortNode nk nv fl) prefix key (ValueNode v) ms
    = (Ok (true, n'), ms') /\ rep n' (upd f key v).
Proof.
  intros Hrep Hk Hv Hne. destruct (short_key _ _ _ _ Hrep) as (Hfl & Hnk & _).
  destruct (diverge_lt key nk Hk Hnk Hne) as (x & y & Hx & Hy & Hxy).
  set (m := prefixLen key nk) in *.
  assert (HP : take m key = take m nk) by apply prefixLen_take.
  assert (Hleaf : rep (ShortNode key (ValueNode v) newFlag) (sing key v)).
  { destruct Hk as (ns & Hns & ->). by apply rep_leaf. }
  destruct (short_child _ _ _ _ m y fuel (prefix ++ take (m + 1) nk) ms Hrep Hy)
    as (Hn1 & Hy16 & Hf & c1 & Hi1 & Hc1).
  destruct (short_child _ _ _ _ m x fuel (prefix ++ take (m + 1) key) ms Hleaf Hx)
    as (_ & Hx16 & _ & c2 & Hi2 & Hc2).
  destruct (mark_short nk nv fl ms Hfl) as [ms' Hmark].
  rewrite <- HP in *.
  set (f1 := fun k => f ((take m key ++ [y]) ++ k)) in *.
  set (f2 := fun k => sing key v ((take m key ++ [x]) ++ k)) in *.
  assert (Hbr : rep (FullNode (<[Z.to_nat x:=c2]> (<[Z.to_nat y:=c1]> (replicate 17 NilNode))) newFlag)
     (full_content (fs_set (fs_set (fun _ _ => None) (Z.to_nat y) f1) (Z.to_nat x) f2))).
  { apply rep_branch; [lia|lia|lia|done|done]. }
  assert (Hm : length (take m key) = m).
  { apply length_take_le. apply lookup_lt_Some in Hx. lia. }
  assert (Hcont : forall k, upd f key v (take m key ++ k)
    = full_content (fs_set (fs_set (fun _ _ => None) (Z.to_nat y) f1) (Z.to_nat x) f2) k).
  { intros k. apply branch_content; try done. rewrite Hm. by apply split_at. }
  pose proof (hexkey_not_nil _ Hk). remember (S fuel) as fu eqn:Efu.
  cbn [insert]. destruct key as [|k0 key']; [done|]. set (key := k0 :: key') in *. fold m.
  rewrite bool_decide_false by done. run.
  rewrite (index_lookup _ _ _ Hy). cbn beta iota. rewrite Hi1.
  rewrite store_lt by (rewrite length_replicate; lia). cbn beta iota.
  rewrite (index_lookup _ _ _ Hx). cbn beta iota. rewrite Hi2.
  rewrite store_lt by (rewrite length_insert, length_replicate; lia). cbn beta iota. rewrite Hmark.
  case_bool_decide as Hm0.
  - eexists _, _. split; [done|]. eapply rep_ext_eq; [exact Hbr|]. intros k. rewrite <- Hcont.
    by rewrite Hm0.
  - eexists _, _. split; [done|]. eapply rep_ext; [exact Hn1| |done|constructor|exact Hbr|exact Hcont|].
    + intros E. by rewrite E in Hm.
    + intros k Hk'. unfold upd. rewrite decide_False.
      * destruct (f k) eqn:E; [|done]. exfalso. apply Hk'. destruct (Hf k) as [k' ->]; [by rewrite E|].
        rewrite <- app_assoc. by eexists.
      * intros ->. apply Hk'. exists (drop m key). by rewrite take_drop.
Qed.

(** An update below a short node's key. *)
Lemma upd_app f fc ks k v :
  (forall k, f (ks ++ k) = fc k) -> (forall k, ~ ks `prefix_of` k -> f k = None) ->
  (forall k', upd f (ks ++ k) v (ks ++ k') = upd fc k v k') /\
  (forall k', ~ ks `prefix_of` k' -> upd f (ks ++ k) v k' = None).
Proof.
  intros H1 H2. unfold upd. split; intros k'.
  - destruct (decide (k' = k)) as [->|]; [by rewrite decide_True|].
    rewrite decide_False; [auto|]. by intros ?%app_inv_head.
  - intros Hk'. rewrite decide_False; [auto|]. intros ->. apply Hk'. by eexists.
Qed.

(** An update below a child of a full node. *)
Lemma upd_cons f fs i x k v g :
  (forall k, f k = full_content fs k) -> x = Z.of_nat i -> (i <= 16)%nat ->
  (forall k', g k' = upd (fs i) k v k') ->
  forall k', upd f (x :: k) v k' = full_content (fs_set fs i g) k'.
Proof.
  intros Hf -> Hi Hg k'. rewrite full_content_set by done. unfold upd.
  destruct k' as [|y k']; [by rewrite Hf|]. rewrite Hf. destruct (decide (y = Z.of_nat i)) as [->|Hy].
  - rewrite Hg. unfold upd. simpl. rewrite (decide_True (P := 0 <= Z.of_nat i <= 16)) by lia.
    rewrite Nat2Z.id. destruct (decide (k' = k)) as [->|]; [by rewrite decide_True|].
    rewrite decide_False; [done|]. congruence.
  - rewrite decide_False; [done|]. congruence.
Qed.

(** What insertion promises of a node. *)
Definition insert_ok (n : node) (f : content) : Prop := forall key v prefix fuel ms,
  hexkey key -> v <> [] -> (need n key <= fuel)%nat ->
  exists d n' ms', insert env fuel n prefix key (ValueNode v) ms = (Ok (d, n'), ms') /\
    rep n' (upd f key v) /\ (fullish n -> fullish n') /\
    (d = false -> forall k, upd f key v k = f k).

(** Open the goal [insert_ok n f] with at least two units of fuel. *)
Ltac start_insert :=
  intros key v prefix fuel ms Hk Hv Hfuel; unfold need in Hfuel; cbn [is_hash] in Hfuel;
  pose proof (hexkey_not_nil _ Hk) as Hknil;
  assert (0 < length key)%nat by (destruct key; simpl in *; [done|lia]);
  (destruct fuel as [|fuel]; [lia|]); (destruct fuel as [|fuel]; [lia|]).

(** Unfold one call of [insert] on the non-empty key [key]. *)
Ltac open_insert key :=
  cbn [insert]; let Hkey := fresh in
  destruct key as [|? ?] eqn:Hkey; [done|]; rewrite <- Hkey in *; clear Hkey.

Lemma upd_sing key v0 v k : upd (sing key v0) key v k = sing key v k.
Proof. unfold upd, sing. by destruct (decide (k = key)). Qed.

Lemma insert_leaf_ok ks v0 fl f :
  is_nibbles ks -> v0 <> [] -> flag_ok fl -> (forall k, f k = sing (ks ++ [16]) v0 k) ->
  insert_ok (ShortNode (ks ++ [16]) (ValueNode v0) fl) f.
Proof.
  intros Hn Hv0 Hfl Hf.
  assert (Hself : rep (ShortNode (ks ++ [16]) (ValueNode v0) fl) f) by by apply rep_leaf.
  start_insert.
  destruct (decide (prefixLen key (ks ++ [16]) = length (ks ++ [16]))) as [E|E].
  - assert (ks ++ [16] = key) as Ekey.
    { apply hexkey_prefix_free; [by eexists|done|]. by apply prefixLen_prefix. }
    destruct (mark_short (ks ++ [16]) (ValueNode v0) fl ms Hfl) as [ms' Hmark].
    remember (S fuel) as fu eqn:Efu. open_insert key.
    rewrite bool_decide_true by done. rewrite E, Ekey, drop_ge by lia. subst fu.
    cbn [insert]. run. rewrite Ekey in Hmark, Hself, Hf.
    assert (forall k, sing key v k = upd f key v k) as Hu.
    { intros k. rewrite <- (upd_sing key v0). unfold upd. by rewrite Hf. }
    destruct (bool_decide (v0 = v)) eqn:Ev; cbn [negb]; bool_to_prop.
    + subst v0. exists false, (ShortNode key (ValueNode v) fl), ms.
      split_and!; [done| |done|]; [|intros _ k; by rewrite <- Hu, Hf].
      eapply rep_ext_eq; [done|]. intros k. by rewrite Hf, Hu.
    + rewrite Hmark. exists true, (ShortNode key (ValueNode v) newFlag), ms'.
      split_and!; [done| |by inversion 1|done]. rewrite <- Ekey. apply rep_leaf; try done.
      intros k. by rewrite Ekey, <- Hu.
  - destruct (insert_diverge _ _ _ _ key v prefix fuel ms Hself Hk Hv E) as (n' & ms' & -> & Hr).
    exists true, n', ms'. split_and!; [done|done|by inversion 1|done].
Qed.

Lemma insert_ext_ok ks c fl fc f :
  is_nibbles ks -> ks <> [] -> flag_ok fl -> fullish c -> rep c fc -> insert_ok c fc ->
  (forall k, f (ks ++ k) = fc k) -> (forall k, ~ ks `prefix_of` k -> f k = None) ->
  insert_ok (ShortNode ks c fl) f.
Proof.
  intros Hn Hne Hfl Hc Hr IH H1 H2. assert (Hself : rep (ShortNode ks c fl) f) by by eapply rep_ext.
  start_insert. destruct (decide (prefixLen key ks = length ks)) as [E|E].
  - pose proof (proj1 (prefixLen_prefix _ _) E) as [k Ek].
    assert (Hkk : hexkey k) by (apply (hexkey_app_inv ks); [done|by rewrite <- Ek]).
    destruct (IH k v (prefix ++ take (length ks) key) (S fuel) ms Hkk Hv)
      as (d & c' & ms1 & Ei & Hrc & Hfull & Hd).
    { unfold need. rewrite Ek, length_app in Hfuel. destruct ks; [done|].
      simpl in Hfuel. destruct (is_hash c); lia. }
    destruct (mark_short ks c fl ms1 Hfl) as [ms' Hmark].
    destruct (upd_app f fc ks k v H1 H2) as [Hu1 Hu2].
    remember (S fuel) as fu eqn:Efu. open_insert key.
    rewrite bool_decide_true by done. rewrite E. run.
    assert (drop (length ks) key = k) as -> by (rewrite Ek; apply drop_app_length).
    rewrite Ei. destruct d; cbn [negb].
    + rewrite Hmark. exists true, (ShortNode ks c' newFlag), ms'. rewrite Ek.
      split_and!; [done| |by inversion 1|done]. by eapply rep_ext; eauto.
    + exists false, (ShortNode ks c fl), ms1.
      assert (forall k', upd f key v k' = f k') as Heq.
      { intros k'. rewrite Ek. destruct (decide (ks `prefix_of` k')) as [[k'' ->]|Hn'].
        - by rewrite Hu1, Hd, H1.
        - by rewrite Hu2, H2. }
      split_and!; [done|by eapply rep_ext_eq|by inversion 1|by intros _].
  - destruct (insert_diverge _ _ _ _ key v prefix fuel ms Hself Hk Hv E) as (n' & ms' & -> & Hr').
    exists true, n', ms'. split_and!; [done|done|by inversion 1|done].
Qed.

(** Insertion into the child a full node selects. *)
Lemma insert_child_ok cs fs k0 key' c v prefix fuel ms :
  full_ok cs fs -> hexkey (k0 :: key') -> cs !! Z.to_nat k0 = Some c -> v <> [] ->
  (forall i c, (i < 16)%nat -> cs !! i = Some c -> c <> NilNode -> insert_ok c (fs i)) ->
  (2 * length key' + 2 <= fuel)%nat ->
  exists d c' ms1, insert env fuel c prefix key' (ValueNode v) ms = (Ok (d, c'), ms1) /\
    crep (Z.to_nat k0) c' (upd (fs (Z.to_nat k0)) key' v) /\
    (d = false -> forall k, upd (fs (Z.to_nat k0)) key' v k = fs (Z.to_nat k0) k).
Proof.
  intros Hok Hk Ec Hv IH Hfuel. destruct fuel as [|fuel]; [lia|].
  destruct (full_index cs fs k0 key' Hok Hk) as (c0 & Ec0 & _ & Hx & Hx' & Hcase). simplify_eq.
  destruct Hcase as [[-> Hs]|[(-> & -> & w & Hw & -> & Hs)|(Hlt' & Hk' & Hcn & Hrc)]].
  - apply hexkey_cons in Hk as [[-> ->]|[Hk0 Hk']].
    + exists true, (ValueNode v), ms. split_and!; [done| |done]. left. split; [done|].
      exists v. split_and!; [done..|]. intros k. unfold upd, sing. by rewrite Hs.
    + exists true, (ShortNode key' (ValueNode v) newFlag), ms. split_and!; [|right; split|done].
      * cbn [insert]. destruct key'; [by apply hexkey_not_nil in Hk'|done].
      * unfold is_nibble in Hk0. lia.
      * destruct Hk' as (ns & Hns & ->). apply rep_leaf; try done.
        intros k. unfold upd, sing. by rewrite Hs.
  - change (Z.to_nat 16) with 16%nat in *.
    assert (forall k, upd (fs 16%nat) [] v k = sing [] v k) as Hu.
    { intros k. rewrite <- (upd_sing [] w). unfold upd. by rewrite Hs. }
    cbn. eexists _, _, _. split_and!; [done|left; split; [done|by exists v]|].
    intros Hd k. bool_to_prop. subst w. by rewrite Hu, Hs.
  - destruct (IH _ c Hlt' Ec Hcn key' v prefix (S fuel) ms Hk' Hv)
      as (d & c' & ms1 & Ei & Hrc' & _ & Hd).
    { unfold need. destruct (is_hash c); lia. }
    exists d, c', ms1. split_and!; [done|by right|done].
Qed.

Lemma insert_full_ok cs fl fs f :
  full_ok cs fs -> flag_ok fl -> two_children cs -> (forall k, f k = full_content fs k) ->
  (forall i c, (i < 16)%nat -> cs !! i = Some c -> c <> NilNode -> insert_ok c (fs i)) ->
  insert_ok (FullNode cs fl) f.
Proof.
  intros Hok Hfl H2 Hf IH. assert (Hself : rep (FullNode cs fl) f) by by eapply rep_full_intro.
  start_insert. destruct key as [|k0 key']; [done|].
  destruct (full_index cs fs k0 key' Hok Hk) as (c & Ec & Eci & Hx & Hx' & _).
  destruct (insert_child_ok cs fs k0 key' c v (prefix ++ [k0]) (S fuel) ms)
    as (d & c' & ms1 & Ei & Hc' & Hd); try done.
  { simpl in Hfuel. lia. }
  remember (S fuel) as fu. cbn [insert]. run.
  change (index (k0 :: key') 0) with (Ok (E:=MissingNodeError) k0). cbn beta iota. rewrite Eci.
  change (drop 1 (k0 :: key')) with (drop 0 key'). rewrite drop_0, Ei.
  pose proof (upd_cons f fs (Z.to_nat k0) k0 key' v _ Hf ltac:(lia) Hx' (fun _ => eq_refl)) as Hu.
  destruct d; cbn [negb].
  - destruct (mark_full cs fl ms1 Hfl) as [ms' Hmark]. rewrite Hmark.
    rewrite store_lt by (by eapply lookup_lt_Some).
    eexists _, _, _. split_and!; [done| |constructor|done].
    eapply rep_full_intro; [by apply full_ok_set|done| |done].
    apply two_children_set; [done|by eapply crep_not_nil].
  - exists false, (FullNode cs fl), ms1.
    assert (forall k', upd f (k0 :: key') v k' = f k') as Heq.
    { intros k'. rewrite Hu, full_content_set, Hf by done. destruct k' as [|y k']; [done|].
      destruct (decide (y = _)) as [->|]; [|done]. rewrite Hd by done. simpl.
      rewrite decide_True by lia. by rewrite Nat2Z.id. }
    split_and!; [done|by eapply rep_ext_eq|done|by intros _].
Qed.

Lemma insert_hash_ok h eh n f :
  BytesToExtHash (E:=MissingNodeError) h = Ok eh -> te_db env eh = Some n -> is_hash n = false ->
  rep n f -> insert_ok n f -> insert_ok (HashNode h) f.
Proof.
  intros Hh Hdb Hnh Hr IH. start_insert. remember (S fuel) as fu. open_insert key. run.
  rewrite (resolve_rep h eh n) by (try done; by eapply rep_not_nil).
  destruct (IH key v prefix fu ms Hk Hv) as (d & n' & ms' & E & Hrep & Hfull & Hd).
  { unfold need. rewrite Hnh. lia. }
  rewrite E. destruct d; cbn [negb].
  - exists true, n', ms'. split_and!; [done|done| |done].
    intros Hfi. apply Hfull. by eapply fullish_resolved.
  - exists false, n, ms'. split_and!; [done| | |done].
    + eapply rep_ext_eq; [done|]. intros. by rewrite Hd.
    + intros Hfi. by eapply fullish_resolved.
Qed.

Lemma insert_rep n f : rep n f -> insert_ok n f.
Proof.
  induction 1 using rep_ind';
    eauto using insert_leaf_ok, insert_ext_ok, insert_full_ok, insert_hash_ok.
Qed.

(** ** Deletion *)

(** What deletion promises of a node: an unchanged subtrie is reported only when the key
    was absent, and a full node never disappears (it loses at most one child). *)
Definition delete_ok (n : node) (f : content) : Prop := forall key prefix fuel ms,
  hexkey key -> (need n key <= fuel)%nat ->
  exists d n' ms', delete env fuel n prefix key ms = (Ok (d, n'), ms') /\
    trep n' (del f key) /\
    (d = false -> (forall k, del f key k = f k) /\ (fullish n -> fullish n')) /\
    (fullish n -> d = true -> rep n' (del f key) /\ is_hash n' = false).

Lemma del_absent f key : f key = None -> forall k, del f key k = f k.
Proof. intros Hf k. unfold del. by destruct (decide (k = key)) as [->|]. Qed.

Lemma trep_rep n f g : rep n f -> (forall k, f k = g k) -> trep n g.
Proof. intros. right. by eapply rep_ext_eq. Qed.

Ltac start_delete :=
  intros key prefix fuel ms Hk Hfuel; unfold need in Hfuel; cbn [is_hash] in Hfuel;
  pose proof (hexkey_not_nil _ Hk) as Hknil;
  assert (0 < length key)%nat by (destruct key; simpl in *; [done|lia]);
  (destruct fuel as [|fuel]; [lia|]); cbn [delete].

Lemma delete_leaf_ok ks v0 fl f :
  is_nibbles ks -> v0 <> [] -> flag_ok fl -> (forall k, f k = sing (ks ++ [16]) v0 k) ->
  delete_ok (ShortNode (ks ++ [16]) (ValueNode v0) fl) f.
Proof.
  intros Hn Hv0 Hfl Hf. start_delete. pose proof (prefixLen_le key (ks ++ [16])) as [_ Hle].
  assert (Hfalse : ~ fullish (ShortNode (ks ++ [16]) (ValueNode v0) fl)) by by inversion 1.
  case_bool_decide as Hlt.
  - assert (f key = None).
    { rewrite Hf. unfold sing. rewrite decide_False; [done|]. intros E.
      assert (prefixLen key (ks ++ [16]) = length (ks ++ [16])) by (apply prefixLen_prefix; by rewrite E).
      lia. }
    exists false, (ShortNode (ks ++ [16]) (ValueNode v0) fl), ms. split_and!; try done.
    + eapply trep_rep; [by apply rep_leaf|]. intros. by rewrite del_absent.
    + intros _. split; [by apply del_absent|done].
  - assert (E : prefixLen key (ks ++ [16]) = length (ks ++ [16])) by lia.
    assert (ks ++ [16] = key) as <-.
    { apply hexkey_prefix_free; [by eexists|done|]. by apply prefixLen_prefix. }
    rewrite bool_decide_true by done.
    destruct (mark_short (ks ++ [16]) (ValueNode v0) fl ms Hfl) as [ms' Hmark]. run. rewrite Hmark.
    exists true, NilNode, ms'. split_and!; [done| |done|done]. left. split; [done|].
    intros k. unfold del. rewrite Hf. unfold sing. by destruct (decide (k = ks ++ [16])).
Qed.

(** Merging a nibble path with the short node below it. *)
Lemma short_prepend ks ck cv fl g f :
  rep (ShortNode ck cv fl) g -> is_nibbles ks ->
  (forall k, f (ks ++ k) = g k) -> (forall k, ~ ks `prefix_of` k -> f k = None) ->
  rep (ShortNode (ks ++ ck) cv newFlag) f.
Proof.
  intros Hrep Hks H1 H2.
  inversion Hrep as [ks' v fl' f' Hn Hv Hfl Hf|ks' c fl' fc f' Hn Hne Hfl Hc Hr G1 G2| |]; subst.
  - rewrite app_assoc. apply rep_leaf; [by apply Forall_app|done|done|]. intros k.
    rewrite <- app_assoc. destruct (decide (ks `prefix_of` k)) as [[k' ->]|Hk].
    + by rewrite H1, sing_app, Hf.
    + rewrite H2 by done. unfold sing. rewrite decide_False; [done|]. intros ->. apply Hk. by eexists.
  - apply (rep_ext _ _ _ fc); try done; [by apply Forall_app|by destruct ks| |].
    + intros k. by rewrite <- app_assoc, H1, G1.
    + intros k Hk. destruct (decide (ks `prefix_of` k)) as [[k' ->]|Hk']; [|by apply H2].
      rewrite H1, G2; [done|]. intros [k'' ->]. apply Hk. rewrite app_assoc. by eexists.
Qed.

(** A nibble path to a node that is not short. *)
Lemma full_prepend ks c g f :
  rep c g -> fullish c -> is_nibbles ks -> ks <> [] ->
  (forall k, f (ks ++ k) = g k) -> (forall k, ~ ks `prefix_of` k -> f k = None) ->
  rep (ShortNode ks c newFlag) f.
Proof. intros. by eapply rep_ext. Qed.

Lemma rep_short_or_full n f :
  rep n f -> is_hash n = false ->
  (exists ck cv fl, n = ShortNode ck cv fl) \/ (exists cs fl, n = FullNode cs fl).
Proof. inversion 1; subst; intros; try done; eauto. Qed.

Lemma del_app f fc ks k :
  (forall k, f (ks ++ k) = fc k) -> (forall k, ~ ks `prefix_of` k -> f k = None) ->
  (forall k', del f (ks ++ k) (ks ++ k') = del fc k k') /\
  (forall k', ~ ks `prefix_of` k' -> del f (ks ++ k) k' = None).
Proof.
  intros H1 H2. unfold del. split; intros k'.
  - destruct (decide (k' = k)) as [->|]; [by rewrite decide_True|].
    rewrite decide_False; [auto|]. by intros ?%app_inv_head.
  - intros Hk'. rewrite H2 by done. by destruct (decide _).
Qed.

Lemma delete_ext_ok ks c fl fc f :
  is_nibbles ks -> ks <> [] -> flag_ok fl -> fullish c -> rep c fc -> delete_ok c fc ->
  (forall k, f (ks ++ k) = fc k) -> (forall k, ~ ks `prefix_of` k -> f k = None) ->
  delete_ok (ShortNode ks c fl) f.
Proof.
  intros Hn Hne Hfl Hc Hr IH H1 H2. assert (Hself : rep (ShortNode ks c fl) f) by by eapply rep_ext.
  assert (Hfalse : ~ fullish (ShortNode ks c fl)) by by inversion 1.
  start_delete. pose proof (prefixLen_le key ks) as [_ Hle]. case_bool_decide as Hlt.
  - assert (f key = None).
    { apply H2. intros Hp. apply prefixLen_prefix in Hp. lia. }
    exists false, (ShortNode ks c fl), ms. split_and!; try done.
    + eapply trep_rep; [done|]. intros. by rewrite del_absent.
    + intros _. split; [by apply del_absent|done].
  - assert (E : prefixLen key ks = length ks) by lia.
    pose proof (proj1 (prefixLen_prefix _ _) E) as [k Ek].
    assert (Hkk : hexkey k) by (apply (hexkey_app_inv ks); [done|by rewrite <- Ek]).
    rewrite bool_decide_false.
    2: { rewrite E, Ek, length_app. apply hexkey_not_nil in Hkk. destruct k; simpl; [done|lia]. }
    destruct (IH k (prefix ++ take (length ks) key) fuel ms Hkk)
      as (d & c' & ms1 & Ei & Hrc & Hd & Hfull).
    { unfold need. rewrite Ek, length_app in Hfuel. destruct ks; [done|].
      simpl in Hfuel. destruct (is_hash c); lia. }
    destruct (del_app f fc ks k H1 H2) as [Hu1 Hu2]. run.
    assert (drop (length ks) key = k) as -> by (rewrite Ek; apply drop_app_length).
    rewrite Ei. destruct d; cbn [negb].
    + destruct (mark_short ks c fl ms1 Hfl) as [ms' Hmark]. rewrite Hmark, Ek.
      destruct (Hfull Hc eq_refl) as [Hrc' Hnh].
      destruct (rep_short_or_full c' _ Hrc' Hnh) as [(ck & cv & cfl & ->)|(cs & cfl & ->)].
      * eexists true, _, ms'. split_and!; [done|right|done|done]. by eapply short_prepend.
      * eexists true, _, ms'. split_and!; [done|right|done|done].
        eapply full_prepend; eauto. constructor.
    + exists false, (ShortNode ks c fl), ms1.
      assert (forall k', del f key k' = f k') as Heq.
      { intros k'. rewrite Ek. destruct (decide (ks `prefix_of` k')) as [[k'' ->]|Hn'].
        - by rewrite Hu1, (proj1 (Hd eq_refl)), H1.
        - by rewrite Hu2, H2. }
      split_and!; [done|by eapply trep_rep|by intros _|done].
Qed.

Lemma delete_hash_ok h eh n f :
  BytesToExtHash (E:=MissingNodeError) h = Ok eh -> te_db env eh = Some n -> is_hash n = false ->
  rep n f -> delete_ok n f -> delete_ok (HashNode h) f.
Proof.
  intros Hh Hdb Hnh Hr IH. start_delete. run.
  rewrite (resolve_rep h eh n) by (try done; by eapply rep_not_nil).
  destruct (IH key prefix fuel ms Hk) as (d & n' & ms' & E & Hrep & Hd & Hfull).
  { unfold need. rewrite Hnh. lia. }
  rewrite E. destruct d; cbn [negb].
  - exists true, n', ms'. split_and!; [done|done|done|].
    intros Hfi _. apply Hfull; [|done]. by eapply fullish_resolved.
  - destruct (Hd eq_refl) as [Heq _]. exists false, n, ms'. split_and!; [done| | |done].
    + by eapply trep_rep.
    + intros _. split; [done|]. intros Hfi. by eapply fullish_resolved.
Qed.

(** The scan for the only remaining child. *)
Lemma onlyChild_found cs p i :
  p <> -1 ->
  (onlyChild p i cs = p /\ forall j c, cs !! j = Some c -> c = NilNode) \/
  (onlyChild p i cs = -2 /\ exists j c, cs !! j = Some c /\ c <> NilNode).
Proof.
  intros Hp. revert i. induction cs as [|c cs IH]; intros i; [by left|]. cbn [onlyChild].
  destruct (is_nil c) eqn:En.
  - destruct c; try done. destruct (IH (S i)) as [[-> Hn]|[-> (j & c & Hj & Hc)]].
    + left. split; [done|]. intros [|j] c'; simpl; [by intros [= <-]|apply Hn].
    + right. split; [done|]. by exists (S j), c.
  - rewrite (proj2 (Z.eqb_neq _ _) Hp). right. split; [done|]. exists 0%nat, c. split; [done|]. by destruct c.
Qed.

Lemma onlyChild_spec cs i :
  (onlyChild (-1) i cs = -1 /\ forall j c, cs !! j = Some c -> c = NilNode) \/
  (exists j c, onlyChild (-1) i cs = Z.of_nat (i + j) /\ cs !! j = Some c /\ c <> NilNode /\
     forall j' c', cs !! j' = Some c' -> j' <> j -> c' = NilNode) \/
  (onlyChild (-1) i cs = -2 /\ two_children cs).
Proof.
  revert i. induction cs as [|c cs IH]; intros i; [by left|]. cbn [onlyChild].
  destruct (is_nil c) eqn:En.
  - destruct c; try done.
    destruct (IH (S i)) as [[-> Hn]|[(j & c & -> & Hj & Hc & Ho)|[-> (a & b & ca & cb & ? & ? & ? & ? & ?)]]].
    + left. split; [done|]. intros [|j] c'; simpl; [by intros [= <-]|apply Hn].
    + right. left. exists (S j), c. split_and!; [lia|done|done|].
      intros [|j'] c'; simpl; [by intros [= <-]|]. intros. eapply Ho; [done|lia].
    + right. right. split; [done|]. exists (S a), (S b), ca, cb. split_and!; auto.
  - assert (c <> NilNode) by by destruct c.
    change (-1 =? -1) with true. cbn iota.
    destruct (onlyChild_found cs (Z.of_nat i) (S i)) as [[-> Hn]|[-> (j & c' & Hj & Hc')]]; [lia| |].
    + right. left. exists 0%nat, c. split_and!; [lia|done|done|].
      intros [|j'] c'; simpl; [done|]. intros. by eapply Hn.
    + right. right. split; [done|]. exists 0%nat, (S j), c, c'. split_and!; auto.
Qed.

Lemma del_cons f fs i x k g :
  (forall k, f k = full_content fs k) -> x = Z.of_nat i -> (i <= 16)%nat ->
  (forall k', g k' = del (fs i) k k') ->
  forall k', del f (x :: k) k' = full_content (fs_set fs i g) k'.
Proof.
  intros Hf -> Hi Hg k'. rewrite full_content_set by done. unfold del.
  destruct k' as [|y k']; [by rewrite Hf|]. rewrite Hf. destruct (decide (y = Z.of_nat i)) as [->|Hy].
  - rewrite Hg. unfold del. simpl. rewrite (decide_True (P := 0 <= Z.of_nat i <= 16)) by lia.
    rewrite Nat2Z.id. destruct (decide (k' = k)) as [->|]; [by rewrite decide_True|].
    rewrite decide_False; [done|]. congruence.
  - rewrite decide_False; [done|]. congruence.
Qed.

(** Deletion from the child a full node selects. *)
Lemma delete_child_ok cs fs k0 key' c prefix fuel ms :
  full_ok cs fs -> hexkey (k0 :: key') -> cs !! Z.to_nat k0 = Some c ->
  (forall i c, (i < 16)%nat -> cs !! i = Some c -> c <> NilNode -> delete_ok c (fs i)) ->
  (2 * length key' + 2 <= fuel)%nat ->
  exists d c' ms1, delete env fuel c prefix key' ms = (Ok (d, c'), ms1) /\
    full_ok (<[Z.to_nat k0:=c']> cs) (fs_set fs (Z.to_nat k0) (del (fs (Z.to_nat k0)) key')) /\
    (d = false -> forall k, del (fs (Z.to_nat k0)) key' k = fs (Z.to_nat k0) k).
Proof.
  intros Hok Hk Ec IH Hfuel. destruct fuel as [|fuel]; [lia|].
  destruct (full_index cs fs k0 key' Hok Hk) as (c0 & Ec0 & _ & Hx & Hx' & Hcase). simplify_eq.
  assert (Hunset : (forall k, del (fs (Z.to_nat k0)) key' k = None) ->
    full_ok (<[Z.to_nat k0:=NilNode]> cs) (fs_set fs (Z.to_nat k0) (del (fs (Z.to_nat k0)) key'))).
  { intros Hnone. destruct (full_ok_unset cs fs (Z.to_nat k0) Hok) as [Hl Hc]. split; [done|].
    intros i c' Hi. destruct (Hc i c' Hi) as [[-> Hfs]|[Hn Hr]]; unfold fs_set in *;
      destruct (decide (i = Z.to_nat k0)) as [->|]; auto.
    exfalso. apply Hn. rewrite list_lookup_insert_eq in Hi by (destruct Hok; lia). congruence. }
  destruct Hcase as [[-> Hs]|[(-> & -> & w & Hw & -> & Hs)|(Hlt' & Hk' & Hcn & Hrc)]].
  - exists false, NilNode, ms. split_and!; [done| |].
    + apply Hunset. intros k. unfold del. rewrite Hs. by destruct (decide _).
    + intros _. by apply del_absent.
  - exists true, NilNode, ms. split_and!; [done| |done]. apply Hunset. intros k. unfold del.
    change (Z.to_nat 16) with 16%nat. rewrite Hs. unfold sing. by destruct (decide (k = [])).
  - destruct (IH _ c Hlt' Ec Hcn key' prefix (S fuel) ms Hk')
      as (d & c' & ms1 & Ei & Hrc' & Hd & _).
    { unfold need. destruct (is_hash c); lia. }
    exists d, c', ms1. split_and!; [done| |intros; by apply Hd].
    destruct Hrc' as [[-> Hn]|Hr]; [by apply Hunset|]. apply full_ok_set; [done|by right].
Qed.

(** The reduction of a full node with one child left. *)
Lemma reduce_ok cs fs f j c prefix ms :
  full_ok cs fs -> (forall k, f k = full_content fs k) -> cs !! j = Some c -> c <> NilNode ->
  (forall j' c', cs !! j' = Some c' -> j' <> j -> c' = NilNode) ->
  exists n', (if negb (Z.of_nat j =? 16) then
      cnode ← resolve env c prefix;
      match cnode with
      | ShortNode ck cv _ => mret (true, ShortNode (Z.of_nat j :: ck) cv newFlag)
      | _ => mret (true, ShortNode [Z.of_nat j] c newFlag)
      end
    else mret (M:=TM) (true, ShortNode [Z.of_nat j] c newFlag)) ms = (Ok (true, n'), ms) /\
    rep n' f /\ is_hash n' = false.
Proof.
  intros [Hl Hc] Hf Hj Hn Ho. pose proof (lookup_lt_Some _ _ _ Hj) as Hlt.
  assert (H1 : forall k, f ([Z.of_nat j] ++ k) = fs j k).
  { intros k. rewrite Hf. simpl. rewrite decide_True by lia. by rewrite Nat2Z.id. }
  assert (H2 : forall k, ~ [Z.of_nat j] `prefix_of` k -> f k = None).
  { intros [|x k] Hk; rewrite Hf; [done|]. simpl. destruct (decide (0 <= x <= 16)); [|done].
    destruct (lookup_lt_is_Some_2 cs (Z.to_nat x)) as [c' Hc']; [lia|].
    assert (Z.to_nat x <> j). { intros <-. apply Hk. exists k. by rewrite Z2Nat.id by lia. }
    destruct (Hc _ _ Hc') as [[_ Hs]|[Hn' _]]; [apply Hs|]. by rewrite (Ho _ _ Hc') in Hn'. }
  destruct (Hc _ _ Hj) as [[? _]|[_ [(-> & v & Hv & -> & Hs)|[Hj16 Hr]]]]; [done| |].
  - eexists. split_and!; [done| |done]. apply (rep_leaf [] v); [constructor|done|done|].
    intros k. destruct (decide ([Z.of_nat 16] `prefix_of` k)) as [[k' ->]|Hk].
    + rewrite H1, Hs. by rewrite (sing_app [Z.of_nat 16] []).
    + rewrite H2 by done. unfold sing. rewrite decide_False; [done|]. intros ->. apply Hk. by exists [].
  - rewrite (proj2 (Z.eqb_neq (Z.of_nat j) 16)) by lia. cbn [negb].
    assert (Hnib : is_nibbles [Z.of_nat j]) by (repeat constructor; unfold is_nibble; lia).
    assert (exists n, resolve env c prefix ms = (Ok n, ms) /\ rep n (fs j) /\ is_hash n = false /\
      (forall cs fl, n = FullNode cs fl -> fullish c)) as (n & Hres & Hrn & Hnh & Hfull).
    { destruct (is_hash c) eqn:Eh.
      - inversion Hr as [| | |h eh n f' Hh Hdb Hnh Hrn]; subst; try done. exists n. split_and!; try done.
        + simpl. apply (resolve_rep h eh n); try done. by eapply rep_not_nil.
        + intros cs' fl ->. by eapply fullish_hash.
      - exists c. split_and!; try done; [by destruct c|]. intros cs' fl ->. constructor. }
    unfold mbind, TM_bind. rewrite Hres.
    destruct (rep_short_or_full n _ Hrn Hnh) as [(ck & cv & cfl & ->)|(cs' & cfl & ->)].
    + eexists. split_and!; [done| |done]. by eapply (short_prepend [Z.of_nat j]).
    + eexists. split_and!; [done| |done]. eapply full_prepend; eauto.
Qed.

Lemma delete_full_ok cs fl fs f :
  full_ok cs fs -> flag_ok fl -> two_children cs -> (forall k, f k = full_content fs k) ->
  (forall i c, (i < 16)%nat -> cs !! i = Some c -> c <> NilNode -> delete_ok c (fs i)) ->
  delete_ok (FullNode cs fl) f.
Proof.
  intros Hok Hfl H2 Hf IH. assert (Hself : rep (FullNode cs fl) f) by by eapply rep_full_intro.
  start_delete. destruct key as [|k0 key']; [done|].
  destruct (full_index cs fs k0 key' Hok Hk) as (c & Ec & Eci & Hx & Hx' & _).
  destruct (delete_child_ok cs fs k0 key' c (prefix ++ [k0]) fuel ms)
    as (d & c' & ms1 & Ei & Hok' & Hd); try done.
  { simpl in Hfuel. lia. }
  run. change (index (k0 :: key') 0) with (Ok (E:=MissingNodeError) k0). cbn beta iota. rewrite Eci.
  change (drop 1 (k0 :: key')) with (drop 0 key'). rewrite drop_0, Ei.
  pose proof (del_cons f fs (Z.to_nat k0) k0 key' _ Hf ltac:(lia) Hx' (fun _ => eq_refl)) as Hu.
  set (fs' := fs_set fs (Z.to_nat k0) (del (fs (Z.to_nat k0)) key')) in *.
  destruct d; cbn [negb].
  - destruct (mark_full cs fl ms1 Hfl) as [ms' Hmark]. rewrite Hmark.
    rewrite store_lt by (by eapply lookup_lt_Some). set (cs' := <[Z.to_nat k0:=c']> cs) in *.
    destruct (onlyChild_spec cs' 0) as [[_ Hall]|[(j & cj & -> & Hj & Hnj & Ho)|[-> H2']]].
    + exfalso. destruct H2 as (a & b & ca & cb & Hab & Ha & Hb & Hna & Hnb).
      destruct (decide (a = Z.to_nat k0)) as [->|Hne].
      * apply Hnb. apply (Hall b). unfold cs'. by rewrite list_lookup_insert_ne.
      * apply Hna. apply (Hall a). unfold cs'. by rewrite list_lookup_insert_ne.
    + rewrite Nat.add_0_l, (proj2 (Z.leb_le _ _)), Nat2Z.id, (index_lookup _ _ _ Hj) by lia.
      destruct (reduce_ok cs' fs' _ j cj prefix ms' Hok' Hu Hj Hnj Ho) as (n' & E & Hr & Hnh).
      unfold mbind, TM_bind, mret, TM_ret in E. rewrite E. exists true, n', ms'.
      split_and!; [done|by right|done|done].
    + exists true, (FullNode cs' newFlag), ms'.
      assert (rep (FullNode cs' newFlag) (del f (k0 :: key'))) by by eapply rep_full_intro.
      split_and!; [done|by right|done|done].
  - exists false, (FullNode cs fl), ms1.
    assert (forall k', del f (k0 :: key') k' = f k') as Heq.
    { intros k'. rewrite Hu. unfold fs'. rewrite full_content_set, Hf by done. destruct k' as [|y k']; [done|].
      destruct (decide (y = _)) as [->|]; [|done]. rewrite Hd by done. simpl.
      rewrite decide_True by lia. by rewrite Nat2Z.id. }
    split_and!; [done|by eapply trep_rep|by intros _|done].
Qed.

Lemma delete_rep n f : rep n f -> delete_ok n f.
Proof.
  induction 1 using rep_ind';
    eauto using delete_leaf_ok, delete_ext_ok, delete_full_ok, delete_hash_ok.
Qed.

End rep.
