(* ===== verification/TrieMap.v ===== *)
(** * The trie as a finite map

    The public operations of [Trie] refine a finite map from byte keys to non-empty
    values, and the canonical form is unique: the shape of a trie (hence its root hash)
    depends on the map only, not on the history of updates. *)

From S2P Require Import Prelude TrieKeys Trie TrieSpec.
Import MPT.

(** ** The interface a key/value store offers to its clients

    [kv_repr s m]: the store [s] holds exactly the map [m].  The laws say that reading
    and writing succeed and act on the map; writing the empty value deletes. *)
Class KVStore (S Err : Type) := {
  kv_repr : S -> gmap bytes bytes -> Prop;
  kv_get : S -> bytes -> res Err (option bytes) * S;
  kv_update : S -> bytes -> bytes -> res Err unit * S;
  kv_delete : S -> bytes -> res Err unit * S
}.

Definition map_update (m : gmap bytes bytes) (k v : bytes) : gmap bytes bytes :=
  match v with [] => base.delete k m | _ => <[k:=v]> m end.

Class KVStoreLaws (S Err : Type) `{KVStore S Err} : Prop := {
  kv_get_ok s m k : kv_repr s m -> is_bytes k ->
    exists s', kv_get s k = (Ok (m !! k), s') /\ kv_repr s' m;
  kv_update_ok s m k v : kv_repr s m -> is_bytes k ->
    exists s', kv_update s k v = (Ok tt, s') /\ kv_repr s' (map_update m k v);
  kv_delete_ok s m k : kv_repr s m -> is_bytes k ->
    exists s', kv_delete s k = (Ok tt, s') /\ kv_repr s' (base.delete k m)
}.

Lemma keybytesToHex_hexkey k : is_bytes k -> hexkey (keybytesToHex k).
Proof. intros. exists (nibbles_of k). split; [by apply nibbles_of_valid|apply keybytesToHex_nibbles]. Qed.

Lemma keybytesToHex_inj k1 k2 :
  is_bytes k1 -> is_bytes k2 -> keybytesToHex k1 = keybytesToHex k2 -> k1 = k2.
Proof.
  rewrite !keybytesToHex_nibbles. intros H1 H2 [E _]%app_inj_tail.
  by rewrite <- (pack_nibbles_of k1), <- (pack_nibbles_of k2), E.
Qed.

Section refine.
Context (env : trieEnv).

(** [content_of f m]: the content [f] is the map [m], keyed by hex keys. *)
Definition content_of (f : content) (m : gmap bytes bytes) : Prop :=
  (forall k, is_bytes k -> f (keybytesToHex k) = m !! k) /\
  (forall h, f h <> None -> exists k, is_bytes k /\ h = keybytesToHex k) /\
  (forall k v, m !! k = Some v -> is_bytes k).

(** The trie [t] holds the map [m]. *)
Definition refines (t : Trie) (m : gmap bytes bytes) : Prop :=
  exists f, trep env (t_root t) f /\ content_of f m.

Lemma content_of_upd f m k v :
  content_of f m -> is_bytes k -> content_of (upd f (keybytesToHex k) v) (<[k:=v]> m).
Proof.
  intros (H1 & H2 & H3) Hk. unfold upd. split_and!.
  - intros k' Hk'. destruct (decide (k' = k)) as [->|Hne].
    + rewrite decide_True by done. by rewrite lookup_insert_eq.
    + rewrite decide_False, lookup_insert_ne by (try done; by intros ?%keybytesToHex_inj). auto.
  - intros h. destruct (decide (h = keybytesToHex k)) as [->|]; [eauto|apply H2].
  - intros k' v'. rewrite lookup_insert. case_decide; [by subst|apply H3].
Qed.

Lemma content_of_del f m k :
  content_of f m -> is_bytes k -> content_of (del f (keybytesToHex k)) (base.delete k m).
Proof.
  intros (H1 & H2 & H3) Hk. unfold del. split_and!.
  - intros k' Hk'. destruct (decide (k' = k)) as [->|Hne].
    + rewrite decide_True by done. by rewrite lookup_delete_eq.
    + rewrite decide_False, lookup_delete_ne by (try done; by intros ?%keybytesToHex_inj). auto.
  - intros h. destruct (decide (h = keybytesToHex k)); [done|apply H2].
  - intros k' v'. rewrite lookup_delete. case_decide; [done|apply H3].
Qed.

Lemma refines_empty ms : refines (mkTrie NilNode ms) ∅.
Proof.
  exists (fun _ => None). split; [by left|]. split_and!.
  - intros. by rewrite lookup_empty.
  - done.
  - intros k v. by rewrite lookup_empty.
Qed.

Lemma need_walkFuel n key : (need n key <= walkFuel key)%nat.
Proof. unfold need, walkFuel. destruct (is_hash n); lia. Qed.

Lemma get_root_refines t m k :
  refines t m -> is_bytes k ->
  exists t', TryGet env t k = (Ok (m !! k), t') /\ refines t' m.
Proof.
  intros (f & [[Hnil Hf]|Hr] & Hc) Hk; unfold TryGet; pose proof Hc as (H1 & _).
  - destruct t as [root ms]; simpl in *; subst root. exists (mkTrie NilNode ms).
    split; [|exists f; by split; [left|]].
    unfold walkFuel. rewrite Nat.add_comm. cbn [tryGet Nat.add]. by rewrite <- H1, Hf.
  - destruct (tryGet_rep env (t_root t) f Hr (keybytesToHex k) 0 (walkFuel (keybytesToHex k)) (t_marks t))
      as (n' & b & E & Hr' & _).
    + rewrite drop_0. by apply keybytesToHex_hexkey.
    + apply need_walkFuel.
    + rewrite drop_0 in E. rewrite E. eexists. rewrite <- H1 by done. split; [done|].
      exists f. split; [|done]. right. by destruct b.
Qed.

Lemma insert_root_refines (t : Trie) m k v :
  refines t m -> is_bytes k -> v <> [] ->
  exists t', setRoot t (insert env (walkFuel (keybytesToHex k)) (t_root t) [] (keybytesToHex k)
    (ValueNode v) (t_marks t)) = (Ok tt, t') /\ refines t' (<[k:=v]> m).
Proof.
  intros (f & Hrep & Hc) Hk Hv. pose proof (keybytesToHex_hexkey k Hk) as Hh.
  destruct Hrep as [[-> Hf]|Hr].
  - assert (insert env (walkFuel (keybytesToHex k)) NilNode [] (keybytesToHex k) (ValueNode v) (t_marks t)
      = (Ok (true, ShortNode (keybytesToHex k) (ValueNode v) newFlag), t_marks t)) as ->.
    { unfold walkFuel. rewrite Nat.add_comm. cbn [insert Nat.add].
      destruct (keybytesToHex k) eqn:E; [|done]. by apply hexkey_not_nil in Hh. }
    eexists. split; [done|]. eexists. split; [|by apply content_of_upd]. right.
    eapply rep_ext_eq; [|intros; reflexivity]. destruct Hh as (ns & Hns & ->). apply rep_leaf; try done.
    intros k'. unfold upd, sing. by rewrite Hf.
  - destruct (insert_rep env _ _ Hr (keybytesToHex k) v [] _ (t_marks t) Hh Hv (need_walkFuel _ _))
      as (d & n' & ms' & -> & Hr' & _). eexists. split; [done|].
    eexists. split; [by right|by apply content_of_upd].
Qed.

Lemma delete_root_refines (t : Trie) m k :
  refines t m -> is_bytes k ->
  exists t', setRoot t (delete env (walkFuel (keybytesToHex k)) (t_root t) [] (keybytesToHex k)
    (t_marks t)) = (Ok tt, t') /\ refines t' (base.delete k m).
Proof.
  intros (f & Hrep & Hc) Hk. pose proof (keybytesToHex_hexkey k Hk) as Hh.
  destruct Hrep as [[-> Hf]|Hr].
  - unfold walkFuel. rewrite Nat.add_comm. cbn [delete Nat.add]. eexists. split; [done|].
    eexists. split; [|by apply content_of_del]. left. split; [done|].
    intros k'. unfold del. rewrite Hf. by destruct (decide _).
  - destruct (delete_rep env _ _ Hr (keybytesToHex k) [] _ (t_marks t) Hh (need_walkFuel _ _))
      as (d & n' & ms' & -> & Hr' & _). eexists. split; [done|].
    eexists. split; [done|by apply content_of_del].
Qed.

Lemma update_root_refines t m k v :
  refines t m -> is_bytes k ->
  exists t', TryUpdate env t k v = (Ok tt, t') /\ refines t' (map_update m k v).
Proof.
  intros Hr Hk. unfold TryUpdate, TryUpdateWithHexKey, map_update. destruct v as [|b v].
  - by apply delete_root_refines.
  - by apply insert_root_refines.
Qed.

(** Lookup is total and correct: on a canonical trie, loaded or still in the
    database, [TryGet] returns exactly the value the map holds for the key ([None] when
    absent), without error, panic or fuel exhaustion, and the trie it leaves behind
    (with resolved nodes cached) holds the same map. *)
Theorem TryGet_refines (t : Trie) (m : gmap bytes bytes) (k : bytes) :
  refines t m -> is_bytes k ->
  exists t', TryGet env t k = (Ok (m !! k), t') /\ refines t' m.
Proof. apply get_root_refines. Qed.

(** C10. Writing is total and correct: [TryUpdate] on a canonical trie always succeeds and
    the new trie is canonical again and holds the updated map: the key bound to the new
    value, or removed when the value is empty, and every other key untouched. *)
Theorem TryUpdate_refines (t : Trie) (m : gmap bytes bytes) (k v : bytes) :
  refines t m -> is_bytes k ->
  exists t', TryUpdate env t k v = (Ok tt, t') /\ refines t' (map_update m k v).
Proof. apply update_root_refines. Qed.

(** Deletion is total and correct: [TryDelete] always succeeds on a canonical trie,
    removes exactly the key and re-establishes the canonical form (full nodes with one
    child left are collapsed and short nodes merged). *)
Theorem TryDelete_refines (t : Trie) (m : gmap bytes bytes) (k : bytes) :
  refines t m -> is_bytes k ->
  exists t', TryDelete env t k = (Ok tt, t') /\ refines t' (base.delete k m).
Proof. intros Hr Hk. unfold TryDelete. by apply delete_root_refines. Qed.

#[export] Instance Trie_store : KVStore Trie MissingNodeError := {
  kv_repr := refines;
  kv_get := TryGet env;
  kv_update := TryUpdate env;
  kv_delete := TryDelete env
}.

#[export] Instance Trie_store_laws : KVStoreLaws Trie MissingNodeError.
Proof. split; [apply get_root_refines|apply update_root_refines|apply delete_root_refines]. Qed.

End refine.

(** A trie whose root is still in the database: one leaf, reached through a hash node. *)
Definition demo_hash : bytes := replicate 32 7.
Definition demo_leaf : node := ShortNode (keybytesToHex [18; 52]) (ValueNode [9]) newFlag.
Definition demo_env : trieEnv :=
  mkEnv (fun eh => if decide (eh = demo_hash ++ replicate 7 0) then Some demo_leaf else None) true 5.
Definition demo_trie : Trie := mkTrie (HashNode demo_hash) ∅.
Definition demo_map : gmap bytes bytes := {[ [18; 52] := [9] ]}.

Lemma demo_refines : refines demo_env demo_trie demo_map.
Proof.
  exists (sing (keybytesToHex [18; 52]) [9]). split.
  - right. apply (rep_hash _ _ (demo_hash ++ replicate 7 0) demo_leaf); [reflexivity..|].
    apply (rep_leaf _ [1; 2; 3; 4]); [|done|done|reflexivity].
    repeat constructor; unfold is_nibble; lia.
  - assert (is_bytes [18; 52]) by solve_bytes. split_and!.
    + intros k Hk. unfold demo_map, sing. destruct (decide (k = [18; 52])) as [->|].
      * rewrite decide_True by done. by rewrite lookup_singleton_eq.
      * rewrite decide_False, lookup_singleton_ne by (try done; by intros ?%keybytesToHex_inj). done.
    + intros h. unfold sing. case_decide; [|done]. eauto.
    + intros k v. unfold demo_map. rewrite lookup_singleton_Some. by intros [<- _].
Qed.

Lemma TryGet_refines_witness :
  exists t', TryGet demo_env demo_trie [18; 52] = (Ok (Some [9]), t') /\ refines demo_env t' demo_map.
Proof.
  apply (TryGet_refines demo_env demo_trie demo_map [18; 52]); [apply demo_refines|].
  solve_bytes.
Defined.

Lemma TryUpdate_refines_witness :
  exists t', TryUpdate demo_env demo_trie [18; 53] [1] = (Ok tt, t') /\
    refines demo_env t' (<[[18; 53] := [1]]> demo_map).
Proof.
  apply (TryUpdate_refines demo_env demo_trie demo_map [18; 53] [1]); [apply demo_refines|].
  solve_bytes.
Defined.

Lemma TryDelete_refines_witness :
  exists t', TryDelete demo_env demo_trie [18; 52] = (Ok tt, t') /\
    refines demo_env t' (base.delete [18; 52] demo_map).
Proof.
  apply (TryDelete_refines demo_env demo_trie demo_map [18; 52]); [apply demo_refines|].
  solve_bytes.
Defined.
