(* ===== verification/TrieCanon.v ===== *)
(** * The canonical form is unique

    Two canonical nodes that hold the same content are the same tree, up to node flags
    and up to which parts are loaded.  The shape of a trie, hence its root hash, is a
    function of the map it holds and not of the history of updates. *)

From S2P Require Import Prelude TrieKeys Trie TrieSpec TrieMap.
Import MPT.

Section canon.
Context (env : trieEnv).

(** The same tree, following hash nodes into the database and ignoring flags. *)
Inductive same : node -> node -> Prop :=
| same_nil : same NilNode NilNode
| same_value v : same (ValueNode v) (ValueNode v)
| same_short k c1 c2 f1 f2 : same c1 c2 -> same (ShortNode k c1 f1) (ShortNode k c2 f2)
| same_full cs1 cs2 f1 f2 :
    length cs1 = length cs2 ->
    (forall i c1 c2, cs1 !! i = Some c1 -> cs2 !! i = Some c2 -> same c1 c2) ->
    same (FullNode cs1 f1) (FullNode cs2 f2)
| same_hash_l h eh n1 n2 :
    BytesToExtHash (E:=MissingNodeError) h = Ok eh -> te_db env eh = Some n1 ->
    same n1 n2 -> same (HashNode h) n2
| same_hash_r h eh n1 n2 :
    BytesToExtHash (E:=MissingNodeError) h = Ok eh -> te_db env eh = Some n2 ->
    same n1 n2 -> same n1 (HashNode h).

(** Keys starting with two different nibbles are bound. *)
Definition split_heads (f : content) : Prop :=
  exists x y k1 k2, x <> y /\ f (x :: k1) <> None /\ f (y :: k2) <> None.

Lemma full_bound cs fs i c :
  full_ok env cs fs -> cs !! i = Some c -> c <> NilNode ->
  (forall j d, (j < 16)%nat -> cs !! j = Some d -> d <> NilNode -> exists k, fs j k <> None) ->
  exists k, full_content fs (Z.of_nat i :: k) <> None.
Proof.
  intros [Hl Hc] Hi Hn IH. pose proof (lookup_lt_Some _ _ _ Hi).
  assert (exists k, fs i k <> None) as [k Hk].
  { destruct (Hc _ _ Hi) as [[? _]|[_ [(-> & v & _ & _ & Hf)|[Hlt _]]]]; [done| |by eauto].
    exists []. rewrite Hf. unfold sing. by rewrite decide_True. }
  exists k. cbn [full_content]. rewrite decide_True by lia. by rewrite Nat2Z.id.
Qed.

Lemma rep_nonempty n f : rep env n f -> exists k, f k <> None.
Proof.
  induction 1 as [ks v fl f _ _ _ Hf|ks c fl fc f _ _ _ _ _ [k Hk] Hf _
    |cs fl fs f Hok _ (i & j & ci & cj & _ & Hi & _ & Hn & _) Hf IH|h eh n f _ _ _ _ IH] using rep_ind'.
  - exists (ks ++ [16]). rewrite Hf. unfold sing. by rewrite decide_True.
  - exists (ks ++ k). by rewrite Hf.
  - destruct (full_bound cs fs i ci) as [k Hk]; [done..|]. exists (Z.of_nat i :: k). by rewrite Hf.
  - done.
Qed.

Lemma full_split_heads cs fl f : rep env (FullNode cs fl) f -> split_heads f.
Proof.
  intros (fs & Hok & _ & (i & j & ci & cj & Hij & Hi & Hj & Hni & Hnj) & Hf)%rep_full_inv.
  assert (IH : forall j d, (j < 16)%nat -> cs !! j = Some d -> d <> NilNode -> exists k, fs j k <> None).
  { intros l d Hlt Hl Hn. apply (rep_nonempty d). destruct Hok as [_ Hc].
    destruct (Hc _ _ Hl) as [[? _]|[_ [(-> & _)|[_ ?]]]]; [done|lia|done]. }
  destruct (full_bound cs fs i ci Hok Hi Hni IH) as [k1 H1], (full_bound cs fs j cj Hok Hj Hnj IH) as [k2 H2].
  exists (Z.of_nat i), (Z.of_nat j), k1, k2. rewrite !Hf. split_and!; [lia|done..].
Qed.

Lemma fullish_split_heads c f : fullish env c -> rep env c f -> split_heads f.
Proof.
  destruct 1 as [|h eh cs fl Hh Hdb]; [apply full_split_heads|]. inversion 1 as [| | |? eh' n' ? Hh' Hdb' _ Hr]; subst.
  assert (eh' = eh) as -> by congruence. assert (n' = FullNode cs fl) as -> by congruence.
  by apply (full_split_heads cs fl).
Qed.

(** Bound keys that split after [ks1] and all extend [ks2] make [ks2] a prefix of [ks1]. *)
Lemma split_prefix (f g : content) (ks1 ks2 : bytes) :
  split_heads g -> (forall k, f (ks1 ++ k) = g k) -> (forall k, ~ ks2 `prefix_of` k -> f k = None) ->
  ks2 `prefix_of` ks1.
Proof.
  intros (x & y & k1 & k2 & Hxy & H1 & H2) Hg Hp.
  assert (Hpre : forall z k, g (z :: k) <> None -> ks2 `prefix_of` (ks1 ++ z :: k)).
  { intros z k Hz. destruct (decide (ks2 `prefix_of` (ks1 ++ z :: k))) as [|Hn]; [done|].
    rewrite <- Hg, Hp in Hz by done. done. }
  apply Hpre in H1 as [r1 E1], H2 as [r2 E2].
  destruct (decide (length ks2 <= length ks1)%nat) as [Hle|Hgt].
  - exists (drop (length ks2) ks1). rewrite <- (take_drop (length ks2) ks1) at 1. f_equal.
    apply (f_equal (take (length ks2))) in E1. by rewrite take_app_le, take_app_length in E1.
  - apply (f_equal (.!! length ks1)) in E1, E2.
    rewrite lookup_app_r, Nat.sub_diag, lookup_app_l in E1, E2 by lia. simpl in *. congruence.
Qed.

Lemma leaf_not_split ks v (f : content) (P : bytes) g :
  (forall k, f k = sing (ks ++ [16]) v k) -> (forall k, f (P ++ k) = g k) -> ~ split_heads g.
Proof.
  intros Hf Hg (x & y & k1 & k2 & Hxy & H1 & H2). rewrite <- Hg, Hf in H1, H2. unfold sing in *.
  do 2 case_decide; try done. assert (P ++ x :: k1 = P ++ y :: k2) as ?%(inj (app P)) by congruence. congruence.
Qed.

Lemma ext_not_split ks (f : content) :
  ks <> [] -> (forall k, ~ ks `prefix_of` k -> f k = None) -> ~ split_heads f.
Proof.
  intros Hne Hp Hs. apply (split_prefix f f [] ks) in Hs as [l E]; [|done..]. by destruct ks.
Qed.

Lemma same_resolve n1 n2 f :
  rep env n2 f ->
  (forall n2', rep env n2' f -> is_hash n2' = false -> same n1 n2') -> same n1 n2.
Proof.
  intros Hr H. destruct (is_hash n2) eqn:E; [|by apply H].
  inversion Hr; subst; try done. eapply same_hash_r; [done..|]. by apply H.
Qed.

Lemma leaf_shape ks v f n :
  (forall k, f k = sing (ks ++ [16]) v k) -> rep env n f -> is_hash n = false ->
  exists fl, n = ShortNode (ks ++ [16]) (ValueNode v) fl.
Proof.
  intros Hf Hr Hnh.
  inversion Hr as [ks2 v2 fl2 ? _ _ _ Hf2|? ? ? fc2 ? _ _ _ Hc2 Hrc2 Hf2 Hp2| |]; subst; [| | |done].
  - specialize (Hf (ks ++ [16])). rewrite Hf2 in Hf. unfold sing in Hf.
    rewrite (decide_True (P := ks ++ [16] = ks ++ [16])) in Hf by done. case_decide as E; [|done].
    rewrite E. simplify_eq. eauto.
  - exfalso. by eapply leaf_not_split, fullish_split_heads.
  - exfalso. eapply (leaf_not_split ks v f [] f); [done|done|]. by eapply full_split_heads.
Qed.

Lemma ext_shape ks c fc f n :
  ks <> [] -> fullish env c -> rep env c fc ->
  (forall k, f (ks ++ k) = fc k) -> (forall k, ~ ks `prefix_of` k -> f k = None) ->
  rep env n f -> is_hash n = false -> exists c2 fl, n = ShortNode ks c2 fl /\ rep env c2 fc.
Proof.
  intros Hks Hc Hr Hf Hp Hr2 Hnh.
  inversion Hr2 as [ks2 v2 ? ? _ _ _ Hf2|ks2 c2 ? fc2 ? _ _ _ Hc2 Hrc2 Hf2 Hp2| |]; subst; [| | |done].
  - exfalso. by eapply leaf_not_split, fullish_split_heads.
  - assert (ks2 = ks) as ->.
    { pose proof (fullish_split_heads _ _ Hc Hr). pose proof (fullish_split_heads _ _ Hc2 Hrc2).
      apply (anti_symm prefix); [by eapply (split_prefix f fc)|by eapply (split_prefix f fc2)]. }
    do 2 eexists. split; [done|]. apply (rep_ext_eq _ _ fc2); [done|]. intros k. by rewrite <- Hf2.
  - exfalso. eapply (ext_not_split ks f); [done..|]. by eapply full_split_heads.
Qed.

Lemma full_shape f n :
  split_heads f -> rep env n f -> is_hash n = false -> exists cs fl, n = FullNode cs fl.
Proof.
  intros Hs Hr Hnh.
  inversion Hr as [ks2 v2 ? ? _ _ _ Hf2|? ? ? fc2 ? _ Hne2 _ Hc2 Hrc2 Hf2 Hp2| |]; subst; [| |by eauto|done].
  - exfalso. by eapply (leaf_not_split ks2 v2 f [] f).
  - exfalso. by eapply (ext_not_split _ f).
Qed.

(** Children with the same content at the same index are the same tree. *)
Lemma child_same i c1 c2 f1 f2 :
  (forall k, f2 k = f1 k) ->
  (c1 = NilNode /\ (forall k, f1 k = None) \/ c1 <> NilNode /\ crep env i c1 f1) ->
  (c2 = NilNode /\ (forall k, f2 k = None) \/ c2 <> NilNode /\ crep env i c2 f2) ->
  ((i < 16)%nat -> c1 <> NilNode -> forall n, rep env n f1 -> same c1 n) -> same c1 c2.
Proof.
  assert (Hbound : forall c f, crep env i c f -> exists k, f k <> None).
  { intros c f [(_ & v & _ & _ & Hf)|[_ Hr]]; [|by eapply rep_nonempty].
    exists []. rewrite Hf. unfold sing. by rewrite decide_True. }
  intros Hf [[-> H1]|[Hn1 H1]] [[-> H2]|[Hn2 H2]] IH.
  - constructor.
  - destruct (Hbound _ _ H2) as [k Hk]. by rewrite Hf, H1 in Hk.
  - destruct (Hbound _ _ H1) as [k Hk]. by rewrite <- Hf, H2 in Hk.
  - destruct H1 as [(-> & v & _ & -> & Hv)|[Hlt _]], H2 as [(? & w & _ & -> & Hw)|[? H2]]; try lia.
    + specialize (Hf []). rewrite Hv, Hw in Hf. unfold sing in Hf.
      rewrite !decide_True in Hf by done. simplify_eq. constructor.
    + apply IH; [done..|]. by eapply rep_ext_eq.
Qed.

(** Canonical nodes with the same content are the same tree. *)
Lemma rep_unique n1 f : rep env n1 f -> forall n2, rep env n2 f -> same n1 n2.
Proof.
  induction 1 as [ks v fl f _ _ _ Hf|ks c fl fc f _ Hks _ Hc Hr IH Hf Hp
    |cs fl fs f Hok Hfl H2 Hf IH|h eh n f Hh Hdb _ _ IH] using rep_ind';
    intros n2 Hr2; [| | |by apply (same_hash_l _ _ _ _ Hh Hdb), IH];
    apply (same_resolve _ _ _ Hr2); clear n2 Hr2; intros n2 Hr2 Hnh.
  - destruct (leaf_shape _ _ _ _ Hf Hr2 Hnh) as [fl2 ->]. do 2 constructor.
  - destruct (ext_shape _ _ _ _ _ Hks Hc Hr Hf Hp Hr2 Hnh) as (c2 & fl2 & -> & Hr').
    constructor. by apply IH.
  - destruct (full_shape f n2) as (cs2 & fl2 & ->); [|done..|].
    { by eapply full_split_heads, (rep_full_intro _ cs fl fs f). }
    apply rep_full_inv in Hr2 as (fs2 & [Hl2 Hok2] & _ & _ & Hf2). destruct Hok as [Hl Hok].
    constructor; [congruence|]. intros i c1 c2 Hi1 Hi2. pose proof (lookup_lt_Some _ _ _ Hi1).
    apply (child_same i c1 c2 (fs i) (fs2 i)); [|by auto|by auto|by eauto].
    intros k. specialize (Hf (Z.of_nat i :: k)). rewrite Hf2 in Hf. cbn [full_content] in Hf.
    rewrite !decide_True in Hf by lia. by rewrite Nat2Z.id in Hf.
Qed.

(** The content of a trie is determined by the map. *)
Lemma content_of_unique f g m :
  content_of f m -> content_of g m -> forall h, f h = g h.
Proof.
  assert (Hsub : forall f g, content_of f m -> content_of g m -> forall h v, f h = Some v -> g h = Some v).
  { intros f' g' (H1 & H2 & _) (G1 & _) h v Hv. destruct (H2 h) as (k & Hk & ->); [congruence|].
    by rewrite G1, <- H1. }
  intros Hf Hg h. apply option_eq. split; by apply Hsub.
Qed.

Lemma refines_same t1 t2 m :
  refines env t1 m -> refines env t2 m -> same (t_root t1) (t_root t2).
Proof.
  intros (f & Hf & Hcf) (g & Hg & Hcg). pose proof (content_of_unique _ _ _ Hcf Hcg) as E.
  destruct Hf as [[-> Hf]|Hf], Hg as [[-> Hg]|Hg].
  - constructor.
  - destruct (rep_nonempty _ _ Hg) as [k Hk]. by rewrite <- E, Hf in Hk.
  - destruct (rep_nonempty _ _ Hf) as [k Hk]. by rewrite E, Hg in Hk.
  - eapply rep_unique; [done|]. by eapply rep_ext_eq.
Qed.

(** ** Histories of updates *)

(** Run a list of [TryUpdate] calls; stop at the first failure. *)
Fixpoint updates (t : Trie) (ops : list (bytes * bytes)) : res MissingNodeError Trie :=
  match ops with
  | [] => Ok t
  | (k, v) :: ops =>
      match TryUpdate env t k v with
      | (Ok _, t') => updates t' ops
      | (Err e, _) => Err e
      | (Panic, _) => Panic
      | (NoFuel, _) => NoFuel
      end
  end.

Definition map_updates (m : gmap bytes bytes) (ops : list (bytes * bytes)) : gmap bytes bytes :=
  fold_left (fun m op => map_update m op.1 op.2) ops m.

Lemma updates_refine ops : forall t m,
  refines env t m -> Forall (fun op => is_bytes op.1) ops ->
  exists t', updates t ops = Ok t' /\ refines env t' (map_updates m ops).
Proof.
  induction ops as [|[k v] ops IH]; intros t m Hr Hops; [by eauto|].
  inversion Hops as [|? ? Hk Hops']; subst. simpl in *.
  destruct (update_root_refines env t m k v Hr Hk) as (t' & -> & Hr'). by apply IH.
Qed.

(** C9. The trie is history independent: two sequences of updates from the empty trie
    that describe the same final map both succeed and end in the same tree, node for
    node (flags aside), whatever the order of the updates and whatever was inserted,
    overwritten or removed on the way. *)
Theorem trie_history_independent (ops1 ops2 : list (bytes * bytes)) :
  Forall (fun op => is_bytes op.1) ops1 -> Forall (fun op => is_bytes op.1) ops2 ->
  map_updates ∅ ops1 = map_updates ∅ ops2 ->
  exists t1 t2, updates (mkTrie NilNode ∅) ops1 = Ok t1 /\
    updates (mkTrie NilNode ∅) ops2 = Ok t2 /\ same (t_root t1) (t_root t2).
Proof.
  intros H1 H2 E.
  destruct (updates_refine ops1 _ _ (refines_empty env ∅) H1) as (t1 & E1 & R1).
  destruct (updates_refine ops2 _ _ (refines_empty env ∅) H2) as (t2 & E2 & R2).
  exists t1, t2. split_and!; [done..|]. rewrite E in R1. by eapply refines_same.
Qed.

End canon.

(** A concrete environment: no database and no pruning. *)
Definition env0 : trieEnv := mkEnv (fun _ => None) false 0.

Lemma trie_history_independent_witness :
  exists t1 t2,
    updates env0 (mkTrie NilNode ∅) [([1; 2], [7]); ([1; 3], [8]); ([1; 2], [])] = Ok t1 /\
    updates env0 (mkTrie NilNode ∅) [([1; 3], [5]); ([1; 3], [8])] = Ok t2 /\
    same env0 (t_root t1) (t_root t2).
Proof.
  apply trie_history_independent.
  - repeat (apply Forall_cons_2; [solve_bytes|]). apply Forall_nil_2.
  - repeat (apply Forall_cons_2; [solve_bytes|]). apply Forall_nil_2.
  - vm_compute. reflexivity.
Defined.
