(* ===== verification/SecureTrie.v ===== *)
(** * The secure trie

    Model of [storage/statedb/secure_trie.go]: a store whose keys are hashed before they
    reach the trie, with a cache of key preimages.  The trie below is used through the
    [KVStore] interface only; the hash function is a parameter. *)

From S2P Require Import Prelude TrieKeys Trie TrieMap.

Module Secure.

Section ops.
Context {T Err : Type} `{KVStore T Err}.

(** [sha3]: the Keccak-256 of a byte string. *)
Context (sha3 : bytes -> bytes).

(** [SecureTrie]; [st_owned] is [t == t.secKeyCacheOwner]. *)
Record SecureTrie := mkSecure {
  st_trie : T;
  st_secKeyCache : gmap bytes bytes;
  st_owned : bool
}.

(** [hashKey]. *)
Definition hashKey (key : bytes) : bytes := sha3 key.

(** [getSecKeyCache], with its write to the receiver. *)
Definition getSecKeyCache (t : SecureTrie) : SecureTrie :=
  if st_owned t then t else mkSecure (st_trie t) ∅ true.

(** [Copy]: the copy does not own the cache it starts with. *)
Definition Copy (t : SecureTrie) : SecureTrie := mkSecure (st_trie t) (st_secKeyCache t) false.

(** [TryGet]. *)
Definition TryGet (t : SecureTrie) (key : bytes) : res Err (option bytes) * SecureTrie :=
  let (r, tr) := kv_get (st_trie t) (hashKey key) in
  (r, mkSecure tr (st_secKeyCache t) (st_owned t)).

(** [TryUpdate]. *)
Definition TryUpdate (t : SecureTrie) (key value : bytes) : res Err unit * SecureTrie :=
  let hk := hashKey key in
  let (r, tr) := kv_update (st_trie t) hk value in
  let t := mkSecure tr (st_secKeyCache t) (st_owned t) in
  match r with
  | Ok _ =>
      let t := getSecKeyCache t in
      (r, mkSecure (st_trie t) (<[hk := key]> (st_secKeyCache t)) (st_owned t))
  | _ => (r, t)
  end.

(** [TryDelete]. *)
Definition TryDelete (t : SecureTrie) (key : bytes) : res Err unit * SecureTrie :=
  let hk := hashKey key in
  let t := getSecKeyCache t in
  let cache := base.delete hk (st_secKeyCache t) in
  let (r, tr) := kv_delete (st_trie t) hk in
  (r, mkSecure tr cache (st_owned t)).

(** [Database.preimage]: the in-memory preimages, then the disk. *)
Definition preimage (preimages : gmap bytes bytes) (disk : bytes -> option bytes) (hash : bytes)
    : option bytes :=
  match preimages !! hash with Some p => Some p | None => disk hash end.

(** [Database.insertPreimage]. *)
Definition insertPreimage (preimages : gmap bytes bytes) (hash pre : bytes) : gmap bytes bytes :=
  match preimages !! hash with Some _ => preimages | None => <[hash := pre]> preimages end.

(** [GetKey]. *)
Definition GetKey (preimages : gmap bytes bytes) (disk : bytes -> option bytes)
    (t : SecureTrie) (shaKey : bytes) : option bytes * SecureTrie :=
  let t := getSecKeyCache t in
  match st_secKeyCache t !! shaKey with
  | Some key => (Some key, t)
  | None => (preimage preimages disk (BytesToHash shaKey), t)
  end.

(** [commitPreimages]: the loop over the Go map is a fold in some order. *)
Definition commitPreimages (preimages : gmap bytes bytes) (t : SecureTrie)
    : gmap bytes bytes * SecureTrie :=
  let t := getSecKeyCache t in
  if bool_decide (st_secKeyCache t = ∅) then (preimages, t)
  else (map_fold (fun hk key ps => insertPreimage ps (BytesToHash hk) key) preimages (st_secKeyCache t),
        mkSecure (st_trie t) ∅ (st_owned t)).

(** ** What the secure trie promises *)

Section laws.
Context `{!KVStoreLaws T Err}.

(** Hashes are 32 bytes. *)
Hypothesis sha3_len : forall k, length (sha3 k) = 32%nat.
Hypothesis sha3_bytes : forall k, is_bytes (sha3 k).

(** The keys in use, among which [sha3] has no collision. *)
Context (K : bytes -> Prop).
Hypothesis sha3_no_collision : forall k1 k2, K k1 -> K k2 -> sha3 k1 = sha3 k2 -> k1 = k2.

(** The secure trie holds [m]: the trie holds each value of [m] under the hashed key. *)
Definition secure_repr (t : SecureTrie) (m : gmap bytes bytes) : Prop :=
  (forall k v, m !! k = Some v -> K k) /\
  exists hm, kv_repr (st_trie t) hm /\
    (forall k, K k -> hm !! sha3 k = m !! k).

Lemma hashed_lookup_ne (hm m : gmap bytes bytes) k k' v :
  K k -> K k' -> k <> k' -> (forall k, K k -> hm !! sha3 k = m !! k) ->
  (map_update hm (sha3 k) v) !! sha3 k' = m !! k'.
Proof.
  intros Hk Hk' Hne Hm. assert (sha3 k <> sha3 k') by (intros ?; by apply Hne, sha3_no_collision).
  unfold map_update. destruct v; rewrite ?lookup_delete_ne, ?lookup_insert_ne by done; auto.
Qed.

Lemma map_update_hashed (hm m : gmap bytes bytes) k v :
  K k -> (forall k, K k -> hm !! sha3 k = m !! k) ->
  forall k', K k' -> map_update hm (sha3 k) v !! sha3 k' = map_update m k v !! k'.
Proof.
  intros Hk Hm k' Hk'. destruct (decide (k = k')) as [<-|Hne].
  - unfold map_update. destruct v; rewrite ?lookup_delete_eq, ?lookup_insert_eq; done.
  - rewrite (hashed_lookup_ne hm m) by done. unfold map_update.
    destruct v; rewrite ?lookup_delete_ne, ?lookup_insert_ne; done.
Qed.

Lemma map_update_keys (m : gmap bytes bytes) k v :
  K k -> (forall k v, m !! k = Some v -> K k) -> forall k' v', map_update m k v !! k' = Some v' -> K k'.
Proof.
  intros Hk Hm k' v'. unfold map_update.
  destruct v; rewrite ?lookup_delete, ?lookup_insert; case_decide; subst; naive_solver.
Qed.

(** The secure trie is a map on the keys in use, whatever store lies below: reads
    return the value last written under the key itself, writes of an empty value delete,
    deletes remove, and none of them fails or disturbs another key, as long as the hash
    does not collide on the keys in use. *)
Theorem secure_trie_map (t : SecureTrie) (m : gmap bytes bytes) (k v : bytes) :
  secure_repr t m -> K k ->
  (exists t', TryGet t k = (Ok (m !! k), t') /\ secure_repr t' m) /\
  (exists t', TryUpdate t k v = (Ok tt, t') /\ secure_repr t' (map_update m k v)) /\
  (exists t', TryDelete t k = (Ok tt, t') /\ secure_repr t' (base.delete k m)).
Proof.
  intros (Hd & hm & Hr & Hm) Hk. unfold TryGet, TryUpdate, TryDelete, hashKey. split_and!.
  - destruct (kv_get_ok _ _ (sha3 k) Hr (sha3_bytes k)) as (s' & -> & Hr').
    eexists. rewrite Hm by done. split; [done|]. split; [done|]. by exists hm.
  - destruct (kv_update_ok _ _ (sha3 k) v Hr (sha3_bytes k)) as (s' & -> & Hr').
    eexists. split; [done|]. split; [by apply map_update_keys|].
    exists (map_update hm (sha3 k) v). split; [|by apply map_update_hashed].
    unfold getSecKeyCache. by destruct (st_owned t).
  - assert (st_trie (getSecKeyCache t) = st_trie t) as -> by (unfold getSecKeyCache; by destruct (st_owned t)).
    destruct (kv_delete_ok _ _ (sha3 k) Hr (sha3_bytes k)) as (s' & -> & Hr').
    eexists. split; [done|]. split; [by apply (map_update_keys m k [])|].
    exists (base.delete (sha3 k) hm). split; [done|]. by apply (map_update_hashed hm m k []).
Qed.

(** ** Preimages *)

(** Every recorded preimage hashes to the key it is recorded under. *)
Definition preimages_sound (ps : gmap bytes bytes) : Prop :=
  forall h k, ps !! h = Some k -> h = sha3 k.

Lemma commit_union (ps cache : gmap bytes bytes) :
  preimages_sound cache ->
  map_fold (fun hk key ps => insertPreimage ps (BytesToHash hk) key) ps cache = ps ∪ cache.
Proof.
  revert cache. apply (map_fold_weak_ind (fun r m => preimages_sound m -> r = ps ∪ m)).
  - by rewrite map_union_empty.
  - intros h k m r Hm IH Hs.
    assert (h = sha3 k) as -> by (apply Hs; by rewrite lookup_insert_eq).
    rewrite IH. 2: { intros h' k' E. apply Hs. rewrite lookup_insert_ne; [done|]. congruence. }
    rewrite BytesToHash_32 by apply sha3_len. unfold insertPreimage.
    rewrite lookup_union, Hm.
    destruct (ps !! sha3 k) eqn:E; simpl.
    + apply map_eq. intros i. rewrite !lookup_union, lookup_insert. case_decide; [subst|done].
      by rewrite E, Hm.
    + by rewrite insert_union_r.
Qed.

Lemma preimages_sound_union ps qs :
  preimages_sound ps -> preimages_sound qs -> preimages_sound (ps ∪ qs).
Proof. intros Hp Hq h k [?|[_ ?]]%lookup_union_Some_raw; auto. Qed.

(** The state of the preimage bookkeeping. *)
Definition secure_sound (ps : gmap bytes bytes) (t : SecureTrie) : Prop :=
  preimages_sound ps /\ preimages_sound (st_secKeyCache t).

Lemma getSecKeyCache_sound ps t :
  secure_sound ps t -> secure_sound ps (getSecKeyCache t).
Proof. unfold getSecKeyCache. destruct (st_owned t); [done|]. intros [? _]. by split. Qed.

Lemma commitPreimages_sound ps t :
  secure_sound ps t ->
  secure_sound (commitPreimages ps t).1 (commitPreimages ps t).2 /\
  (commitPreimages ps t).1 = ps ∪ st_secKeyCache (getSecKeyCache t) /\
  st_secKeyCache (commitPreimages ps t).2 = ∅ /\ st_owned (commitPreimages ps t).2 = true.
Proof.
  intros Hs%getSecKeyCache_sound. destruct Hs as [Hp Hc]. unfold commitPreimages.
  assert (st_owned (getSecKeyCache t) = true) as Ho
    by (unfold getSecKeyCache; destruct (st_owned t) eqn:E; [exact E|done]).
  case_bool_decide as E; simpl.
  - rewrite E, map_union_empty. split_and!; [|done..]. by split.
  - rewrite commit_union by done. split_and!; [|done..]. by split; [apply preimages_sound_union|].
Qed.

(** A key written to the secure trie can be recovered from its hash, both while it
    is only in the key cache and after [commitPreimages] moved the cache to the database
    (where an older entry is never overwritten), also when the trie is a fresh copy. *)
Theorem secure_preimage_roundtrip (ps : gmap bytes bytes) (disk : bytes -> option bytes)
    (t t' : SecureTrie) (k v : bytes) :
  secure_sound ps t -> (forall h p, ps !! h = Some p -> K p) -> K k ->
  TryUpdate t k v = (Ok tt, t') ->
  (GetKey ps disk t' (sha3 k)).1 = Some k /\
  (let '(ps', t'') := commitPreimages ps t' in (GetKey ps' disk t'' (sha3 k)).1 = Some k).
Proof.
  intros Hs HK Hk E. unfold TryUpdate, hashKey in E.
  destruct (kv_update _ _ _) as [[[]| | |] tr]; simplify_eq.
  set (t1 := getSecKeyCache _) in *. set (t2 := mkSecure _ _ _).
  assert (Ho : st_owned t1 = true) by (unfold t1, getSecKeyCache; simpl; by destruct (st_owned t) eqn:?).
  assert (Hs1 : secure_sound ps t1) by (apply getSecKeyCache_sound; by destruct Hs).
  assert (Hs2 : secure_sound ps t2).
  { destruct Hs1 as [? Hc]. split; [done|]. intros h p. simpl. rewrite lookup_insert.
    case_decide; [naive_solver|apply Hc]. }
  assert (Hg : getSecKeyCache t2 = t2) by (unfold getSecKeyCache; simpl; by rewrite Ho).
  split.
  - unfold GetKey. rewrite Hg. simpl. by rewrite lookup_insert_eq.
  - destruct (commitPreimages_sound _ _ Hs2) as ((Hs' & _) & Eu & Ec & Eo).
    destruct (commitPreimages ps t2) as [ps' t3]. simpl in *. unfold GetKey, getSecKeyCache.
    rewrite Eo, Ec, lookup_empty. simpl. unfold preimage. rewrite BytesToHash_32 by apply sha3_len.
    rewrite Hg in Eu. simpl in Eu. subst ps'. rewrite lookup_union.
    destruct (ps !! sha3 k) as [p|] eqn:Ep; simpl.
    + rewrite lookup_insert_eq. simpl. f_equal. symmetry. apply sha3_no_collision; [done| |].
      * by eapply HK.
      * destruct Hs as [Hs _]. by apply Hs.
    + by rewrite lookup_insert_eq.
Qed.

End laws.
End ops.

(** ** Concrete instances *)

(** A stand-in for the hash: pad to 32 bytes. *)
Definition demo_sha3 (k : bytes) : bytes := take 32 (map u8 k ++ replicate 32 0).
Definition demo_keys (k : bytes) : Prop := k = [18; 52] \/ k = [1].

Lemma demo_sha3_len k : length (demo_sha3 k) = 32%nat.
Proof. unfold demo_sha3. rewrite length_take, length_app, length_replicate. lia. Qed.

Lemma demo_sha3_bytes k : is_bytes (demo_sha3 k).
Proof.
  apply Forall_take, Forall_app. split.
  - apply Forall_map, Forall_true. intros. apply u8_range.
  - apply Forall_replicate. unfold is_u8. lia.
Qed.

Lemma demo_sha3_no_collision k1 k2 :
  demo_keys k1 -> demo_keys k2 -> demo_sha3 k1 = demo_sha3 k2 -> k1 = k2.
Proof. intros [->| ->] [->| ->]; first [done|by vm_compute]. Qed.

Definition demo_secure : SecureTrie (T:=MPT.Trie) := mkSecure (MPT.mkTrie MPT.NilNode ∅) ∅ false.

Lemma demo_secure_repr :
  secure_repr (H:=Trie_store demo_env) demo_sha3 demo_keys demo_secure ∅.
Proof. split; [done|]. exists ∅. split; [apply refines_empty|]. intros. by rewrite !lookup_empty. Qed.

Lemma secure_trie_map_witness :
  exists t', TryUpdate (H:=Trie_store demo_env) demo_sha3 demo_secure [1] [5] = (Ok tt, t') /\
    secure_repr (H:=Trie_store demo_env) demo_sha3 demo_keys t' (map_update ∅ [1] [5]).
Proof.
  apply (secure_trie_map (H:=Trie_store demo_env) demo_sha3 demo_sha3_bytes demo_keys
    demo_sha3_no_collision demo_secure ∅ [1] [5] demo_secure_repr).
  right. reflexivity.
Defined.

Lemma secure_preimage_roundtrip_witness :
  let t' := (TryUpdate (H:=Trie_store demo_env) demo_sha3 demo_secure [1] [5]).2 in
  (GetKey ∅ (fun _ => None) t' (demo_sha3 [1])).1 = Some [1] /\
  (let '(ps', t'') := commitPreimages ∅ t' in
   (GetKey ps' (fun _ => None) t'' (demo_sha3 [1])).1 = Some [1]).
Proof.
  apply (secure_preimage_roundtrip (H:=Trie_store demo_env) demo_sha3 demo_sha3_len demo_keys
    demo_sha3_no_collision ∅ (fun _ => None) demo_secure _ [1] [5]).
  - split; done.
  - done.
  - right. reflexivity.
  - vm_compute. reflexivity.
Defined.

End Secure.
