(* ===== verification/Staking.v ===== *)
(** * Staking information

    [reward/staking_info.go]: the record built from the address book contract and the
    balances of the staking contracts, and its consolidation, which merges the council
    nodes that share a reward address.  The Gini coefficient, a floating point number, is
    left out. *)

From S2P Require Import Prelude.

Module Staking.

(** ** Data *)

(** [StakingInfo]. *)
Record StakingInfo := mkStaking {
  si_BlockNum : Z;
  si_CouncilNodeAddrs : list Address;
  si_CouncilStakingAddrs : list Address;
  si_CouncilRewardAddrs : list Address;
  si_KEFAddr : Address;
  si_KIFAddr : Address;
  si_UseGini : bool;
  si_CouncilStakingAmounts : list Z
}.

(** [consolidatedNode] and [ConsolidatedStakingInfo]. *)
Record consolidatedNode := mkNode {
  cn_NodeAddrs : list Address;
  cn_StakingAddrs : list Address;
  cn_RewardAddr : Address;
  cn_StakingAmount : Z
}.
Record ConsolidatedStakingInfo := mkConsolidated {
  cs_nodes : list consolidatedNode;
  cs_nodeIndex : gmap Address nat
}.

(** The address types of the address book contract. *)
Definition addressTypeNodeID := 0.
Definition addressTypeStakingAddr := 1.
Definition addressTypeRewardAddr := 2.
Definition addressTypePoCAddr := 3.
Definition addressTypeKIRAddr := 4.

Definition KAIA : Z := 10 ^ 18.
Definition maxStakingLimit : Z := 100000000000.
Definition emptyAddr : Address := replicate 20 0.

Inductive stakingError := ErrInvalidType (t : Z) | ErrNoBlock | ErrNoParams.

(** ** Construction *)

(** [newEmptyStakingInfo]. *)
Definition newEmptyStakingInfo (blockNum : Z) : StakingInfo :=
  mkStaking blockNum [] [] [] emptyAddr emptyAddr false [].

(** What [newStakingInfo] collects from the address book. *)
Record parsedBook := mkBook {
  pb_nodeIds : list Address;
  pb_stakingAddrs : list Address;
  pb_rewardAddrs : list Address;
  pb_pocAddr : Address;
  pb_kirAddr : Address
}.

(** The loop over the address types. *)
Fixpoint parseBook (i : nat) (types : list Z) (addrs : list Address) (b : parsedBook) : res stakingError parsedBook :=
  match types with
  | [] => mret b
  | t :: types =>
      b ← (if t =? addressTypeNodeID then
             a ← index addrs i;
             mret (mkBook (pb_nodeIds b ++ [a]) (pb_stakingAddrs b) (pb_rewardAddrs b) (pb_pocAddr b) (pb_kirAddr b))
           else if t =? addressTypeStakingAddr then
             a ← index addrs i;
             mret (mkBook (pb_nodeIds b) (pb_stakingAddrs b ++ [a]) (pb_rewardAddrs b) (pb_pocAddr b) (pb_kirAddr b))
           else if t =? addressTypeRewardAddr then
             a ← index addrs i;
             mret (mkBook (pb_nodeIds b) (pb_stakingAddrs b) (pb_rewardAddrs b ++ [a]) (pb_pocAddr b) (pb_kirAddr b))
           else if t =? addressTypePoCAddr then
             a ← index addrs i;
             mret (mkBook (pb_nodeIds b) (pb_stakingAddrs b) (pb_rewardAddrs b) a (pb_kirAddr b))
           else if t =? addressTypeKIRAddr then
             a ← index addrs i;
             mret (mkBook (pb_nodeIds b) (pb_stakingAddrs b) (pb_rewardAddrs b) (pb_pocAddr b) a)
           else Err (ErrInvalidType t));
      parseBook (S i) types addrs b
  end.

(** A balance in whole KAIA, cut off at the limit. *)
Definition stakingAmount (balance : Z) : Z :=
  let amount := balance / KAIA in
  if maxStakingLimit <? amount then maxStakingLimit else u64 (Z.abs amount).

(** [newStakingInfo]: [balances] is the state at the block, [None] when the block or its
    state is missing, and [useGini] the parameter at the block, [None] when missing. *)
Definition newStakingInfo (balances : option (Address -> Z)) (useGini : option bool) (blockNum : Z)
    (types : list Z) (addrs : list Address) (effectiveStakings : list Z) : res stakingError StakingInfo :=
  b ← parseBook 0 types addrs (mkBook [] [] [] emptyAddr emptyAddr);
  let nodes := length (pb_nodeIds b) in
  if negb (nodes =? length (pb_stakingAddrs b))%nat || negb (nodes =? length (pb_rewardAddrs b))%nat
     || ((0 <? length effectiveStakings)%nat && negb (length (pb_stakingAddrs b) =? length effectiveStakings)%nat)
     || bool_decide (pb_pocAddr b = emptyAddr) || bool_decide (pb_kirAddr b = emptyAddr)
  then mret (newEmptyStakingInfo blockNum)
  else
    amounts ← (if (length effectiveStakings =? 0)%nat then
                 match balances with
                 | None => Err ErrNoBlock
                 | Some balance => mret (map (fun a => stakingAmount (balance a)) (pb_stakingAddrs b))
                 end
               else mret (map stakingAmount effectiveStakings));
    match useGini with
    | None => Err ErrNoParams
    | Some useGini =>
        mret (mkStaking blockNum (pb_nodeIds b) (pb_stakingAddrs b) (pb_rewardAddrs b) (pb_kirAddr b) (pb_pocAddr b)
                useGini amounts)
    end.

(** ** Lookup *)

(** [GetIndexByNodeAddress] and [GetStakingAmountByNodeId]; [None] is
    [ErrAddrNotInStakingInfo]. *)
Fixpoint nodeIndex (i : nat) (addr : Address) (l : list Address) : option nat :=
  match l with
  | [] => None
  | a :: l => if bool_decide (a = addr) then Some i else nodeIndex (S i) addr l
  end.
Definition GetIndexByNodeAddress (si : StakingInfo) (addr : Address) : option nat :=
  nodeIndex 0 addr (si_CouncilNodeAddrs si).
Definition GetStakingAmountByNodeId (si : StakingInfo) (addr : Address) : go (option Z) :=
  match GetIndexByNodeAddress si addr with
  | None => mret None
  | Some i => amount ← index (si_CouncilStakingAmounts si) i; mret (Some amount)
  end.

(** ** Consolidation *)

(** One iteration of [GetConsolidatedStakingInfo], for entry [j]: a new node, or the node
    of the reward address extended. *)
Definition consolidateEntry (s : StakingInfo) (j : nat) (c : ConsolidatedStakingInfo) (rewardIndex : gmap Address nat)
    : go (ConsolidatedStakingInfo * gmap Address nat) :=
  nodeAddr ← index (si_CouncilNodeAddrs s) j;
  stakingAddr ← index (si_CouncilStakingAddrs s) j;
  rewardAddr ← index (si_CouncilRewardAddrs s) j;
  stakingAmount ← index (si_CouncilStakingAmounts s) j;
  match rewardIndex !! (rewardAddr : Address) with
  | None =>
      let n := length (cs_nodes c) in
      mret (mkConsolidated (cs_nodes c ++ [mkNode [nodeAddr] [stakingAddr] rewardAddr stakingAmount])
              (<[nodeAddr := n]> (cs_nodeIndex c)),
            <[rewardAddr := n]> rewardIndex)
  | Some idx =>
      node ← index (cs_nodes c) idx;
      nodes ← store (cs_nodes c) idx
        (mkNode (cn_NodeAddrs node ++ [nodeAddr]) (cn_StakingAddrs node ++ [stakingAddr]) (cn_RewardAddr node)
           (u64 (cn_StakingAmount node + stakingAmount)));
      mret (mkConsolidated nodes (<[nodeAddr := idx]> (cs_nodeIndex c)), rewardIndex)
  end.
Fixpoint consolidateLoop (s : StakingInfo) (todo j : nat) (c : ConsolidatedStakingInfo) (rewardIndex : gmap Address nat)
    : go ConsolidatedStakingInfo :=
  match todo with
  | O => mret c
  | S todo =>
      '(c, rewardIndex) ← consolidateEntry s j c rewardIndex;
      consolidateLoop s todo (S j) c rewardIndex
  end.
Definition GetConsolidatedStakingInfo (s : StakingInfo) : go ConsolidatedStakingInfo :=
  consolidateLoop s (length (si_CouncilNodeAddrs s)) 0 (mkConsolidated [] ∅) ∅.

(** [GetConsolidatedNode]. *)
Definition GetConsolidatedNode (c : ConsolidatedStakingInfo) (addr : Address) : go (option consolidatedNode) :=
  match cs_nodeIndex c !! addr with
  | Some idx => node ← index (cs_nodes c) idx; mret (Some node)
  | None => mret None
  end.

(** ** What consolidation computes *)

(** The entries of the address book, one per council node. *)
Record entry := mkEntry { e_node : Address; e_staking : Address; e_reward : Address; e_amount : Z }.
Definition entries (s : StakingInfo) : list entry :=
  zip_with (fun ns ra => mkEntry ns.1 ns.2 ra.1 ra.2)
    (zip (si_CouncilNodeAddrs s) (si_CouncilStakingAddrs s))
    (zip (si_CouncilRewardAddrs s) (si_CouncilStakingAmounts s)).

(** What [newStakingInfo] guarantees: the four lists have the same length, and amounts are
    within the limit. *)
Record staking_ok (s : StakingInfo) : Prop := {
  ok_staking : length (si_CouncilStakingAddrs s) = length (si_CouncilNodeAddrs s);
  ok_rewards : length (si_CouncilRewardAddrs s) = length (si_CouncilNodeAddrs s);
  ok_amounts : length (si_CouncilStakingAmounts s) = length (si_CouncilNodeAddrs s);
  ok_limit : Forall (fun a => 0 <= a <= maxStakingLimit) (si_CouncilStakingAmounts s)
}.

Definition sumZ (l : list Z) : Z := foldr Z.add 0 l.

(** The distinct elements of a list, in the order of their first occurrence. *)
Definition firsts (l : list Address) : list Address :=
  foldl (fun acc x => if decide (x ∈ acc) then acc else acc ++ [x]) [] l.

(** The entries with a reward address, and the node they are merged into. *)
Definition withReward (r : Address) (es : list entry) : list entry := filter (fun e => e_reward e = r) es.
Definition merged (es : list entry) (r : Address) : consolidatedNode :=
  mkNode (map e_node (withReward r es)) (map e_staking (withReward r es)) r
    (u64 (sumZ (map e_amount (withReward r es)))).

Lemma sumZ_app (l k : list Z) : sumZ (l ++ k) = sumZ l + sumZ k.
Proof. induction l as [|x l IH]; [done|]. unfold sumZ in *. csimpl. lia. Qed.

Lemma sumZ_nonneg (l : list Z) : Forall (fun a => 0 <= a) l -> 0 <= sumZ l.
Proof. induction 1 as [|x l ? _ IH]; [done|]. unfold sumZ in *. csimpl. lia. Qed.

Lemma firsts_snoc (l : list Address) x :
  firsts (l ++ [x]) = if decide (x ∈ firsts l) then firsts l else firsts l ++ [x].
Proof. unfold firsts. by rewrite foldl_app. Qed.

Lemma firsts_elem (l : list Address) x : x ∈ firsts l <-> x ∈ l.
Proof.
  induction l as [|y l IH] using rev_ind; [done|]. rewrite firsts_snoc. case_decide; set_solver.
Qed.

Lemma firsts_NoDup (l : list Address) : NoDup (firsts l).
Proof.
  induction l as [|y l IH] using rev_ind; [constructor|]. rewrite firsts_snoc. case_decide; [done|].
  apply NoDup_app. split_and!; [done| |apply NoDup_singleton]. set_solver.
Qed.

(** Changing a function at one element of a list without repetitions. *)
Lemma fmap_change {A B} (f g : A -> B) (l : list A) i x :
  NoDup l -> l !! i = Some x -> (forall y, y <> x -> g y = f y) -> map g l = <[i := g x]> (map f l).
Proof.
  intros Hn Hi Hf. apply list_eq. intros j. destruct (decide (i = j)) as [<-|Hij].
  - rewrite list_lookup_insert_eq; [by rewrite list_lookup_fmap, Hi|].
    rewrite length_fmap. by eapply lookup_lt_Some.
  - rewrite list_lookup_insert_ne by done. rewrite !list_lookup_fmap.
    destruct (l !! j) as [y|] eqn:Hj; [|done]. simpl. f_equal. apply Hf. intros ->.
    apply Hij. by eapply NoDup_lookup.
Qed.

(** The state of the loop after a prefix of the entries. *)
Record consolidated (es : list entry) (c : ConsolidatedStakingInfo) (ri : gmap Address nat) : Prop := {
  con_nodes : cs_nodes c = map (merged es) (firsts (map e_reward es));
  con_rewards : forall r i, ri !! r = Some i <-> firsts (map e_reward es) !! i = Some r;
  con_index : forall a i, cs_nodeIndex c !! a = Some i ->
    exists e, e ∈ es /\ e_node e = a /\ firsts (map e_reward es) !! i = Some (e_reward e);
  con_found : forall e, e ∈ es -> is_Some (cs_nodeIndex c !! e_node e)
}.

Lemma withReward_snoc r (es : list entry) e :
  withReward r (es ++ [e]) = if decide (e_reward e = r) then withReward r es ++ [e] else withReward r es.
Proof.
  unfold withReward. rewrite filter_app, filter_cons. case_decide; [done|]. by rewrite filter_nil, app_nil_r.
Qed.

Lemma withReward_none r (es : list entry) : r ∉ map e_reward es -> withReward r es = [].
Proof.
  induction es as [|e es IH]; [done|]. intros [Hne Hr]%not_elem_of_cons. unfold withReward in *.
  rewrite filter_cons, decide_False by done. by apply IH.
Qed.

Lemma entry_lookup (s : StakingInfo) j e :
  entries s !! j = Some e ->
  si_CouncilNodeAddrs s !! j = Some (e_node e) /\ si_CouncilStakingAddrs s !! j = Some (e_staking e) /\
  si_CouncilRewardAddrs s !! j = Some (e_reward e) /\ si_CouncilStakingAmounts s !! j = Some (e_amount e).
Proof.
  unfold entries. intros ([n st] & [r a] & He & Hns & Hra)%lookup_zip_with_Some.
  apply lookup_zip_with_Some in Hns as (? & ? & [= <- <-] & ? & ?).
  apply lookup_zip_with_Some in Hra as (? & ? & [= <- <-] & ? & ?). by subst.
Qed.

Lemma entries_length (s : StakingInfo) : staking_ok s -> length (entries s) = length (si_CouncilNodeAddrs s).
Proof. intros [H1 H2 H3 _]. unfold entries. rewrite !length_zip_with. lia. Qed.

Lemma consolidateEntry_ok (s : StakingInfo) es j e c ri :
  entries s !! j = Some e -> 0 <= e_amount e < 2 ^ 64 -> consolidated es c ri ->
  exists c' ri', consolidateEntry s j c ri = Ok (c', ri') /\ consolidated (es ++ [e]) c' ri'.
Proof.
  intros He Ha [Hn Hr Hi Hf]. apply entry_lookup in He as (H1 & H2 & H3 & H4).
  unfold consolidateEntry. rewrite !(index_lookup _ _ _ H1), (index_lookup _ _ _ H2), (index_lookup _ _ _ H3), (index_lookup _ _ _ H4).
  cbn [mbind res_bind]. set (l := map e_reward es) in *.
  assert (Hl : map e_reward (es ++ [e]) = l ++ [e_reward e]) by (unfold l; apply map_app).
  destruct (ri !! e_reward e) as [idx|] eqn:Hri.
  - pose proof (proj1 (Hr _ _) Hri) as Hidx.
    assert (Hfs : firsts (l ++ [e_reward e]) = firsts l).
    { rewrite firsts_snoc, decide_True; [done|]. by eapply list_elem_of_lookup_2. }
    rewrite (index_lookup _ _ (merged es (e_reward e))) by (by rewrite Hn, list_lookup_fmap, Hidx).
    cbn [mbind res_bind]. rewrite store_lt by (rewrite Hn, length_fmap; by eapply lookup_lt_Some).
    cbn [mbind res_bind]. eexists _, _. split; [done|]. split; simpl; rewrite ?Hl, ?Hfs.
    + rewrite Hn. rewrite (fmap_change (merged es) (merged (es ++ [e])) _ idx (e_reward e) (firsts_NoDup l) Hidx).
      * f_equal. unfold merged. rewrite withReward_snoc, decide_True, !map_app, sumZ_app by done. simpl. f_equal.
        unfold u64. rewrite Zplus_mod_idemp_l. f_equal. unfold sumZ. simpl. lia.
      * intros y Hy. unfold merged. by rewrite withReward_snoc, decide_False by done.
    + done.
    + intros a i. rewrite lookup_insert. case_decide as Hc.
      * intros [= <-]. exists e. split; [set_solver|]. by subst.
      * intros (e' & ? & ? & ?)%Hi. exists e'. split; [set_solver|done].
    + intros e' [He'|He'%list_elem_of_singleton]%elem_of_app; rewrite lookup_insert; case_decide; subst; eauto; done.
  - assert (Hnew : e_reward e ∉ firsts l).
    { intros [i Hc]%list_elem_of_lookup. apply Hr in Hc. congruence. }
    assert (Hfs : firsts (l ++ [e_reward e]) = firsts l ++ [e_reward e]) by (by rewrite firsts_snoc, decide_False).
    eexists _, _. split; [done|].
    assert (Hlen : length (cs_nodes c) = length (firsts l)) by (rewrite Hn; apply length_fmap).
    split; simpl; rewrite ?Hl, ?Hfs, ?Hlen.
    + rewrite Hn, map_app. f_equal.
      * apply map_ext_in. intros y Hy%list_elem_of_In. unfold merged. rewrite withReward_snoc, decide_False by (by intros <-). done.
      * simpl. unfold merged. rewrite withReward_snoc, decide_True by done.
        rewrite withReward_none by (by rewrite <- firsts_elem). simpl. unfold sumZ. simpl. rewrite Z.add_0_r, u64_small; done.
    + intros r i. rewrite lookup_insert. case_decide as Hc.
      * subst. rewrite lookup_app_Some. split.
        -- intros [= <-]. right. by rewrite Nat.sub_diag.
        -- intros [Hc|[Hge Hc]]; [by eapply list_elem_of_lookup_2 in Hc|].
           apply lookup_lt_Some in Hc as Hlt. simpl in Hlt. f_equal. lia.
      * rewrite Hr, lookup_app_Some. split; [by left|]. intros [?|[_ Hx]]; [done|].
        by apply list_lookup_singleton_Some in Hx as [_ Hx].
    + intros a i. rewrite lookup_insert. case_decide as Hc.
      * intros [= <-]. exists e. split; [set_solver|]. split; [done|].
        rewrite lookup_app_r by done. by rewrite Nat.sub_diag.
      * intros (e' & ? & ? & ?)%Hi. exists e'. split; [set_solver|]. split; [done|]. by apply lookup_app_l_Some.
    + intros e' [He'|He'%list_elem_of_singleton]%elem_of_app; rewrite lookup_insert; case_decide; subst; eauto; done.
Qed.

Lemma consolidateLoop_ok (s : StakingInfo) todo : forall done c ri,
  Forall (fun e => 0 <= e_amount e < 2 ^ 64) todo -> entries s = done ++ todo -> consolidated done c ri ->
  exists c' ri', consolidateLoop s (length todo) (length done) c ri = Ok c' /\ consolidated (entries s) c' ri'.
Proof.
  induction todo as [|e todo IH]; intros done c ri Ha Hs Hc; simpl.
  - rewrite app_nil_r in Hs. rewrite Hs. eauto.
  - apply Forall_cons in Ha as [He Ha].
    destruct (consolidateEntry_ok s done (length done) e c ri) as (c' & ri' & -> & Hc'); [|done|done|].
    { rewrite Hs. rewrite lookup_app_r by done. by rewrite Nat.sub_diag. }
    cbn [mbind res_bind]. destruct (IH (done ++ [e]) c' ri') as (c'' & ri'' & Hl & Hc''); [done| |done|].
    { by rewrite <- app_assoc. }
    rewrite length_app, Nat.add_1_r in Hl. eauto.
Qed.

Lemma entries_range (s : StakingInfo) : staking_ok s -> Forall (fun e => 0 <= e_amount e <= maxStakingLimit) (entries s).
Proof.
  intros [_ _ _ Hl]. apply Forall_forall. intros e [j Hj]%list_elem_of_lookup.
  apply entry_lookup in Hj as (_ & _ & _ & Hj). apply (Forall_lookup_1 _ _ _ _ Hl Hj).
Qed.

Lemma GetConsolidatedStakingInfo_ok (s : StakingInfo) : staking_ok s ->
  exists c ri, GetConsolidatedStakingInfo s = Ok c /\ consolidated (entries s) c ri.
Proof.
  intros Hs. unfold GetConsolidatedStakingInfo. rewrite <- entries_length by done.
  apply (consolidateLoop_ok s (entries s) []); [|done|].
  - eapply Forall_impl; [by apply entries_range|]. unfold maxStakingLimit. simpl. lia.
  - split; simpl; [done| | |]; intros *; rewrite ?lookup_empty; [|done|set_solver].
    change (firsts []) with (@nil Address). by rewrite lookup_nil.
Qed.

Lemma u64_sum_small (l : list Z) : Forall (fun a => 0 <= a) l -> sumZ l < 2 ^ 64 -> u64 (sumZ l) = sumZ l.
Proof. intros H1 H2. apply u64_small. split; [by apply sumZ_nonneg|done]. Qed.

(** Amounts split over the reward addresses add up. *)
Lemma sumZ_withReward (es : list entry) (rs : list Address) :
  NoDup rs -> (forall e, e ∈ es -> e_reward e ∈ rs) ->
  sumZ (map (fun r => sumZ (map e_amount (withReward r es))) rs) = sumZ (map e_amount es).
Proof.
  intros Hn. induction es as [|e es IH] using rev_ind; intros Hr.
  - clear Hr. simpl. induction rs as [|r rs IHr]; [done|]. apply NoDup_cons in Hn as [_ Hn]. unfold sumZ in *. csimpl.
    by rewrite IHr.
  - rewrite map_app, sumZ_app. rewrite <- IH by set_solver.
    assert (He : e_reward e ∈ rs) by set_solver. clear IH Hr.
    replace (sumZ (map e_amount [e])) with (e_amount e) by (unfold sumZ; simpl; lia).
    assert (Hx : forall r, sumZ (map e_amount (withReward r (es ++ [e]))) =
                 sumZ (map e_amount (withReward r es)) + (if decide (e_reward e = r) then e_amount e else 0)).
    { intros r. rewrite withReward_snoc. case_decide; [|lia]. rewrite map_app, sumZ_app. unfold sumZ at 2. simpl. lia. }
    rewrite (map_ext _ _ Hx). clear Hx. induction rs as [|r rs IHr]; [set_solver|].
    apply NoDup_cons in Hn as [Hr Hn]. unfold sumZ in *. csimpl. apply elem_of_cons in He as [<-|He].
    + rewrite decide_True by done. rewrite (map_ext_in _ (fun r => foldr Z.add 0 (map e_amount (withReward r es)))); [lia|].
      intros r' Hr'%list_elem_of_In. rewrite decide_False by (by intros <-). lia.
    + rewrite IHr by done. rewrite decide_False by (by intros <-). lia.
Qed.

Lemma entries_column {B} (s : StakingInfo) (f : entry -> B) (l : list B) :
  staking_ok s -> length l = length (si_CouncilNodeAddrs s) ->
  (forall j e, entries s !! j = Some e -> l !! j = Some (f e)) -> map f (entries s) = l.
Proof.
  intros Hs Hl Hf. apply list_eq. intros j. rewrite list_lookup_fmap.
  destruct (entries s !! j) as [e|] eqn:He; simpl; [by rewrite (Hf _ _ He)|].
  symmetry. apply lookup_ge_None. apply lookup_ge_None in He. rewrite entries_length in He by done. lia.
Qed.

Lemma entries_columns (s : StakingInfo) : staking_ok s ->
  map e_node (entries s) = si_CouncilNodeAddrs s /\ map e_reward (entries s) = si_CouncilRewardAddrs s /\
  map e_amount (entries s) = si_CouncilStakingAmounts s.
Proof.
  intros Hs. pose proof Hs as [H1 H2 H3 _].
  split_and!; apply entries_column; try done; intros j e (? & ? & ? & ?)%entry_lookup; done.
Qed.

(** Part of the entries has part of the stake. *)
Lemma withReward_amount (es : list entry) r :
  Forall (fun e => 0 <= e_amount e) es ->
  Forall (fun a => 0 <= a) (map e_amount (withReward r es)) /\
  sumZ (map e_amount (withReward r es)) <= sumZ (map e_amount es).
Proof.
  induction 1 as [|e es He _ [IH1 IH2]]; [split; [constructor|done]|].
  unfold withReward, sumZ in *. rewrite filter_cons. csimpl. case_decide; csimpl; [|split; [done|lia]].
  split; [by constructor|lia].
Qed.

Lemma merged_amount (s : StakingInfo) r :
  staking_ok s -> sumZ (si_CouncilStakingAmounts s) < 2 ^ 64 ->
  cn_StakingAmount (merged (entries s) r) = sumZ (map e_amount (withReward r (entries s))) /\
  0 <= cn_StakingAmount (merged (entries s) r).
Proof.
  intros Hs Hsum. destruct (entries_columns s Hs) as (_ & _ & Ham). rewrite <- Ham in Hsum.
  assert (Hpos : Forall (fun e => 0 <= e_amount e) (entries s)).
  { eapply Forall_impl; [by apply entries_range|]. simpl. lia. }
  destruct (withReward_amount (entries s) r Hpos) as [? ?].
  split; [apply u64_sum_small; [done|lia]|apply u64_range].
Qed.

(** The consolidated nodes have distinct reward addresses and hold the whole stake. *)
Lemma consolidation_total (s : StakingInfo) :
  staking_ok s -> sumZ (si_CouncilStakingAmounts s) < 2 ^ 64 ->
  exists c, GetConsolidatedStakingInfo s = Ok c /\ NoDup (map cn_RewardAddr (cs_nodes c)) /\
    Forall (fun node => 0 <= cn_StakingAmount node) (cs_nodes c) /\
    sumZ (map cn_StakingAmount (cs_nodes c)) = sumZ (si_CouncilStakingAmounts s).
Proof.
  intros Hs Hsum. destruct (GetConsolidatedStakingInfo_ok s Hs) as (c & ri & Hc & [Hn _ _ _]).
  destruct (entries_columns s Hs) as (_ & Hrew & Ham). rewrite Hrew in Hn.
  exists c. split; [done|]. rewrite Hn. split_and!.
  - rewrite map_map. simpl. rewrite map_id. apply firsts_NoDup.
  - apply Forall_fmap, Forall_forall. intros r _. by apply merged_amount.
  - rewrite map_map, (map_ext _ (fun r => sumZ (map e_amount (withReward r (entries s)))))
      by (intros r; by apply merged_amount).
    rewrite sumZ_withReward, Ham; [done|apply firsts_NoDup|].
    intros e He. apply firsts_elem. rewrite <- Hrew. by apply list_elem_of_fmap_2.
Qed.

(** Consolidation loses nothing: on staking information as it is built from the
    address book, [GetConsolidatedStakingInfo] succeeds; the nodes it returns have distinct
    reward addresses, each holds exactly the entries with its reward address and the sum
    of their amounts, the amounts add up to the total stake, and every council node is
    found in the consolidated node of one of its entries. *)
Theorem consolidation_correct (s : StakingInfo) :
  staking_ok s -> sumZ (si_CouncilStakingAmounts s) < 2 ^ 64 ->
  exists c, GetConsolidatedStakingInfo s = Ok c /\
    NoDup (map cn_RewardAddr (cs_nodes c)) /\
    (forall node, node ∈ cs_nodes c <->
       exists r, r ∈ si_CouncilRewardAddrs s /\ cn_RewardAddr node = r /\
         cn_NodeAddrs node = map e_node (withReward r (entries s)) /\
         cn_StakingAddrs node = map e_staking (withReward r (entries s)) /\
         cn_StakingAmount node = sumZ (map e_amount (withReward r (entries s)))) /\
    sumZ (map cn_StakingAmount (cs_nodes c)) = sumZ (si_CouncilStakingAmounts s) /\
    (forall a, a ∈ si_CouncilNodeAddrs s ->
       exists node, GetConsolidatedNode c a = Ok (Some node) /\ node ∈ cs_nodes c /\ a ∈ cn_NodeAddrs node).
Proof.
  intros Hs Hsum. destruct (consolidation_total s Hs Hsum) as (c & Hc & Hnd & _ & Htot).
  destruct (GetConsolidatedStakingInfo_ok s Hs) as (c' & ri & Hc' & [Hn _ Hi Hf]).
  rewrite Hc in Hc'. injection Hc' as <-.
  destruct (entries_columns s Hs) as (Hnode & Hrew & _). rewrite Hrew in Hn, Hi.
  exists c. split_and!; [done|done| |done|].
  - intros node. rewrite Hn, list_elem_of_fmap. split.
    + intros (r & -> & Hr). rewrite firsts_elem in Hr. exists r. split_and!; try done. by apply merged_amount.
    + intros (r & Hr & H1 & H2 & H3 & H4). exists r. split; [|by apply firsts_elem].
      destruct node. simpl in *. subst. unfold merged. f_equal. symmetry. by apply merged_amount.
  - intros a Hin. rewrite <- Hnode in Hin. apply list_elem_of_fmap in Hin as (e & -> & He).
    destruct (Hf _ He) as [i Hidx]. destruct (Hi _ _ Hidx) as (e' & He' & Hn' & Hr').
    assert (Hl : cs_nodes c !! i = Some (merged (entries s) (e_reward e'))) by (by rewrite Hn, list_lookup_fmap, Hr').
    exists (merged (entries s) (e_reward e')). unfold GetConsolidatedNode. rewrite Hidx, (index_lookup _ _ _ Hl).
    split; [done|]. split; [by eapply list_elem_of_lookup_2|].
    simpl. rewrite <- Hn'. apply list_elem_of_fmap_2. by apply list_elem_of_filter.
Qed.

(** ** Construction *)

Lemma stakingAmount_range balance : 0 <= balance -> 0 <= stakingAmount balance <= maxStakingLimit.
Proof.
  intros Hb. assert (0 <= balance / KAIA) by (apply Z.div_pos; [done|reflexivity]).
  unfold stakingAmount. destruct (maxStakingLimit <? balance / KAIA) eqn:E; bool_to_prop; unfold maxStakingLimit in *; [lia|].
  rewrite Z.abs_eq, u64_small by (unfold is_u64; lia). lia.
Qed.

(** Staking information is well formed whatever the address book returns: when the
    construction succeeds, the four columns have the same length and every amount is
    between zero and the staking limit; it panics only if the address book returns fewer
    addresses than types. *)
Theorem newStakingInfo_ok (balances : option (Address -> Z)) (useGini : option bool) (blockNum : Z)
    (types : list Z) (addrs : list Address) (effectiveStakings : list Z) :
  (forall balance a, balances = Some balance -> 0 <= balance a) -> Forall (fun x => 0 <= x) effectiveStakings ->
  match newStakingInfo balances useGini blockNum types addrs effectiveStakings with
  | Ok s => staking_ok s /\ si_BlockNum s = blockNum
  | Panic => (length addrs < length types)%nat
  | Err _ => True
  | NoFuel => False
  end.
Proof.
  intros Hb He. unfold newStakingInfo.
  assert (Hp : forall ts i b0, match parseBook i ts addrs b0 with
            Panic => (length addrs < i + length ts)%nat | NoFuel => False | _ => True end).
  { induction ts as [|t ts IH]; intros i b0; [done|]. cbn [parseBook].
    assert (Hx : forall k : Address -> parsedBook,
      match (a ← index addrs i; mret (k a)) ≫= parseBook (S i) ts addrs with
      | Panic => (length addrs < i + length (t :: ts))%nat | NoFuel => False | _ => True end).
    { intros k. unfold index. destruct (addrs !! i) as [a|] eqn:Ha; cbn [mbind res_bind mret res_ret].
      - specialize (IH (S i) (k a)). simpl. destruct (parseBook _ _ _ _); try done. lia.
      - apply lookup_ge_None in Ha. simpl. lia. }
    case_tests; try apply Hx. done. }
  specialize (Hp types 0%nat (mkBook [] [] [] emptyAddr emptyAddr)).
  destruct (parseBook _ _ _ _) as [b| | |]; cbn [mbind res_bind mret res_ret]; try done. clear Hp.
  destruct (_ || _) eqn:Ho; cbn [mbind res_bind mret res_ret]; [by repeat constructor|].
  bool_to_prop. repeat match goal with H : (_ =? _)%nat = true |- _ => apply Nat.eqb_eq in H end.
  destruct (length effectiveStakings =? 0)%nat eqn:E.
  - destruct balances as [balance|]; [|done]. cbn [mbind res_bind mret res_ret]. destruct useGini; [|done].
    split; [|done]. split; simpl; try done; [by rewrite length_map|]. apply Forall_fmap, Forall_forall.
    intros a _. simpl. apply stakingAmount_range. by apply (Hb balance).
  - cbn [mbind res_bind mret res_ret]. destruct useGini; [|done]. apply Nat.eqb_neq in E.
    assert (length (pb_stakingAddrs b) = length effectiveStakings).
    { match goal with H : _ && _ = false |- _ => apply andb_false_iff in H as [Hl|Hl] end.
      - apply Nat.ltb_ge in Hl. lia.
      - by apply negb_false_iff, Nat.eqb_eq in Hl. }
    split; [|done]. split; simpl; try done; [rewrite length_map; congruence|]. apply Forall_fmap.
    eapply Forall_impl; [done|]. intros x. apply stakingAmount_range.
Qed.

(** ** Witnesses *)

Definition demo_staking : StakingInfo :=
  mkStaking 7 [[1]; [2]; [3]] [[11]; [12]; [13]] [[101]; [101]; [103]] [201] [202] false [5000000; 6000000; 7000000].

Lemma demo_staking_ok : staking_ok demo_staking.
Proof. split; try done. repeat constructor; done. Qed.

Lemma consolidation_correct_witness :
  exists c, GetConsolidatedStakingInfo demo_staking = Ok c /\ NoDup (map cn_RewardAddr (cs_nodes c)).
Proof.
  destruct (consolidation_correct demo_staking demo_staking_ok) as (c & Hc & Hn & _); [vm_compute; reflexivity|]. eauto.
Defined.

Lemma newStakingInfo_ok_witness :
  exists s, newStakingInfo (Some (fun _ => 3 * KAIA)) (Some false) 7 [0; 1; 2; 3; 4] [[1]; [11]; [101]; [202]; [201]] [] = Ok s /\
    staking_ok s.
Proof.
  eexists. split; [vm_compute; reflexivity|].
  refine (proj1 (newStakingInfo_ok (Some (fun _ => 3 * KAIA)) (Some false) 7 [0; 1; 2; 3; 4]
    [[1]; [11]; [101]; [202]; [201]] [] _ _)).
  - intros balance a [= <-]. vm_compute. discriminate.
  - constructor.
Defined.

End Staking.
