(* ===== verification/Rlp.v ===== *)
(** * RLP

    Model of [rlp/raw.go], [rlp/encode.go] and [rlp/encbuffer.go]: the integer and header
    encoders, the encoder buffer with its deferred list headers, and the functions that
    split encoded data.  [enc] is the reference encoding of an item tree. *)

From S2P Require Import Prelude.

Module RLP.

(** ** Integers and headers *)

(** The bytes [putint] writes: [i] in big endian order on the least number of bytes. *)
Definition putint_bytes (i : Z) : bytes :=
  let b k := u8 (Z.shiftr i k) in
  if i <? 2 ^ 8 then [b 0]
  else if i <? 2 ^ 16 then [b 8; b 0]
  else if i <? 2 ^ 24 then [b 16; b 8; b 0]
  else if i <? 2 ^ 32 then [b 24; b 16; b 8; b 0]
  else if i <? 2 ^ 40 then [b 32; b 24; b 16; b 8; b 0]
  else if i <? 2 ^ 48 then [b 40; b 32; b 24; b 16; b 8; b 0]
  else if i <? 2 ^ 56 then [b 48; b 40; b 32; b 24; b 16; b 8; b 0]
  else [b 56; b 48; b 40; b 32; b 24; b 16; b 8; b 0].

(** Stores at [buf[0]], [buf[1]], ...: a panic when the buffer is too short. *)
Definition overwrite {E} (buf bs : bytes) : res E bytes :=
  if decide (length bs <= length buf)%nat then Ok (bs ++ drop (length bs) buf) else Panic.

(** [putint]: the buffer written and the number of bytes used. *)
Definition putint {E} (b : bytes) (i : Z) : res E (bytes * nat) :=
  b ← overwrite b (putint_bytes i);
  mret (b, length (putint_bytes i)).

(** [intsize]: the loop runs at most eight times on a [uint64]. *)
Fixpoint intsizeLoop (fuel : nat) (size i : Z) : Z :=
  match fuel with
  | O => size
  | S fuel => let i := Z.shiftr i 8 in if i =? 0 then size else intsizeLoop fuel (size + 1) i
  end.
Definition intsize (i : Z) : Z := intsizeLoop 8 1 i.

(** [headsize]. *)
Definition headsize (size : Z) : Z := if size <? 56 then 1 else 1 + intsize size.

(** [puthead]. *)
Definition puthead {E} (buf : bytes) (smalltag largetag size : Z) : res E (bytes * nat) :=
  if size <? 56 then
    buf ← overwrite buf [u8 (smalltag + u8 size)];
    mret (buf, 1%nat)
  else
    tail ← slice buf 1 (length buf);
    '(tail, sizesize) ← putint tail size;
    b0 ← index buf 0;
    buf ← overwrite (b0 :: tail) [u8 (largetag + u8 (Z.of_nat sizesize))];
    mret (buf, S sizesize).

(** [ListSize] and [IntSize]. *)
Definition ListSize (contentSize : Z) : Z := u64 (headsize contentSize + contentSize).
Definition IntSize (x : Z) : Z := if x <? 128 then 1 else 1 + intsize x.

(** [AppendUint64]. *)
Definition AppendUint64 (b : bytes) (i : Z) : bytes :=
  let s k := u8 (Z.shiftr i k) in
  if i =? 0 then b ++ [128]
  else if i <? 128 then b ++ [u8 i]
  else if i <? 2 ^ 8 then b ++ [129; u8 i]
  else if i <? 2 ^ 16 then b ++ [130; s 8; u8 i]
  else if i <? 2 ^ 24 then b ++ [131; s 16; s 8; u8 i]
  else if i <? 2 ^ 32 then b ++ [132; s 24; s 16; s 8; u8 i]
  else if i <? 2 ^ 40 then b ++ [133; s 32; s 24; s 16; s 8; u8 i]
  else if i <? 2 ^ 48 then b ++ [134; s 40; s 32; s 24; s 16; s 8; u8 i]
  else if i <? 2 ^ 56 then b ++ [135; s 48; s 40; s 32; s 24; s 16; s 8; u8 i]
  else b ++ [136; s 56; s 48; s 40; s 32; s 24; s 16; s 8; u8 i].

(** ** Splitting encoded data *)

Inductive Kind := KByte | KString | KList.

Inductive rlpError :=
| ErrUnexpectedEOF
| ErrExpectedString
| ErrExpectedList
| ErrCanonInt
| ErrCanonSize
| ErrValueTooLarge
| errUintOverflow.

Abbreviation R := (res rlpError).

(** [readSize]: the bytes are below 256, so that no shift wraps. *)
Definition readSize (b : bytes) (slen : Z) : R Z :=
  if len b <? slen then Err ErrUnexpectedEOF
  else
    let x i k := Z.shiftl (nth i b 0) k in
    let s :=
      match slen with
      | 1 => x 0%nat 0
      | 2 => Z.lor (x 0%nat 8) (x 1%nat 0)
      | 3 => Z.lor (Z.lor (x 0%nat 16) (x 1%nat 8)) (x 2%nat 0)
      | 4 => Z.lor (Z.lor (Z.lor (x 0%nat 24) (x 1%nat 16)) (x 2%nat 8)) (x 3%nat 0)
      | 5 => Z.lor (Z.lor (Z.lor (Z.lor (x 0%nat 32) (x 1%nat 24)) (x 2%nat 16)) (x 3%nat 8)) (x 4%nat 0)
      | 6 => Z.lor (Z.lor (Z.lor (Z.lor (Z.lor (x 0%nat 40) (x 1%nat 32)) (x 2%nat 24)) (x 3%nat 16))
                (x 4%nat 8)) (x 5%nat 0)
      | 7 => Z.lor (Z.lor (Z.lor (Z.lor (Z.lor (Z.lor (x 0%nat 48) (x 1%nat 40)) (x 2%nat 32))
                (x 3%nat 24)) (x 4%nat 16)) (x 5%nat 8)) (x 6%nat 0)
      | 8 => Z.lor (Z.lor (Z.lor (Z.lor (Z.lor (Z.lor (Z.lor (x 0%nat 56) (x 1%nat 48)) (x 2%nat 40))
                (x 3%nat 32)) (x 4%nat 24)) (x 5%nat 16)) (x 6%nat 8)) (x 7%nat 0)
      | _ => 0
      end in
    if s <? 56 then Err ErrCanonSize
    else
      b0 ← index b 0;
      if b0 =? 0 then Err ErrCanonSize else mret s.

(** [readKind]: kind, tag size and content size of the value at the start of [buf]. *)
Definition readKind (buf : bytes) : R (Kind * Z * Z) :=
  match buf with
  | [] => Err ErrUnexpectedEOF
  | b :: tl =>
      '(k, tagsize, contentsize) ←
        (if b <? 128 then mret (KByte, 0, 1)
         else if b <? 184 then
           let contentsize := b - 128 in
           if (contentsize =? 1) && (1 <? len buf) && (nth 1 buf 0 <? 128)
           then Err ErrCanonSize
           else mret (KString, 1, contentsize)
         else if b <? 192 then
           contentsize ← readSize tl (b - 183);
           mret (KString, b - 183 + 1, contentsize)
         else if b <? 248 then mret (KList, 1, b - 192)
         else
           contentsize ← readSize tl (b - 247);
           mret (KList, b - 247 + 1, contentsize));
      if u64 (len buf - tagsize) <? contentsize then Err ErrValueTooLarge
      else mret (k, tagsize, contentsize)
  end.

(** [Split]: kind, content and rest; on an error the rest is the whole input. *)
Definition Split (b : bytes) : R (Kind * bytes * bytes) :=
  '(k, ts, cs) ← readKind b;
  content ← slice b (Z.to_nat ts) (Z.to_nat (ts + cs));
  rest ← slice b (Z.to_nat (ts + cs)) (length b);
  mret (k, content, rest).

(** [SplitString]. *)
Definition SplitString (b : bytes) : R (bytes * bytes) :=
  '(k, content, rest) ← Split b;
  match k with KList => Err ErrExpectedString | _ => mret (content, rest) end.

(** [SplitList]. *)
Definition SplitList (b : bytes) : R (bytes * bytes) :=
  '(k, content, rest) ← Split b;
  match k with KList => mret (content, rest) | _ => Err ErrExpectedList end.

(** The switch of [SplitUint64] on the content of the string. *)
Definition uintContent (content : bytes) : R Z :=
  match content with
  | [] => mret 0
  | [c] => if c =? 0 then Err ErrCanonInt else mret c
  | _ =>
      if 8 <? len content then Err errUintOverflow
      else match readSize content (len content) with
           | Ok x => mret x
           | Err _ => Err ErrCanonInt
           | Panic => Panic
           | NoFuel => NoFuel
           end
  end.

(** [SplitUint64]. *)
Definition SplitUint64 (b : bytes) : R (Z * bytes) :=
  '(content, rest) ← SplitString b;
  x ← uintContent content;
  mret (x, rest).

(** [CountValues]: every value takes at least one byte, so [length b] is enough fuel. *)
Fixpoint countLoop (fuel : nat) (i : Z) (b : bytes) : R Z :=
  match b with
  | [] => mret i
  | _ =>
      match fuel with
      | O => NoFuel
      | S fuel =>
          '(_, tagsize, size) ← readKind b;
          b ← slice b (Z.to_nat (tagsize + size)) (length b);
          countLoop fuel (i + 1) b
      end
  end.
Definition CountValues (b : bytes) : R Z := countLoop (length b) 0 b.

(** ** The reference encoding *)

(** [n] bytes of [z] in big endian order, and back. *)
Fixpoint be (n : nat) (z : Z) : bytes :=
  match n with O => [] | S n => be n (z / 256) ++ [z mod 256] end.
Definition from_be (bs : bytes) : Z := fold_left (fun acc b => acc * 256 + b) bs 0.

(** Number of bytes of a positive number. *)
Definition nbytes (z : Z) : nat := Z.to_nat (Z.log2 z / 8 + 1).

(** The minimal big-endian bytes of a number; none for zero. *)
Definition minbe (z : Z) : bytes := if z =? 0 then [] else be (nbytes z) z.

Inductive item :=
| Str (b : bytes)
| Lst (l : list item).

(** The header of a payload of [size] bytes. *)
Definition header (small large size : Z) : bytes :=
  if size <? 56 then [small + size] else (large + len (minbe size)) :: minbe size.

Definition enc_string (b : bytes) : bytes :=
  match b with
  | [x] => if x <? 128 then [x] else [129; x]
  | _ => header 128 183 (len b) ++ b
  end.

Definition enc_list (payload : bytes) : bytes := header 192 247 (len payload) ++ payload.

Fixpoint enc (i : item) : bytes :=
  match i with
  | Str b => enc_string b
  | Lst l => enc_list (flat_map enc l)
  end.

(** ** Big-endian numbers *)

Lemma be_length n z : length (be n z) = n.
Proof. revert z. induction n; intros z; simpl; [done|]. rewrite length_app, IHn. simpl. lia. Qed.

Lemma be_bytes n z : is_bytes (be n z).
Proof.
  revert z. induction n as [|n IH]; intros z; [constructor|]. apply Forall_app. split; [apply IH|].
  repeat constructor; apply Z.mod_pos_bound; lia.
Qed.

Lemma be_cons n z : be (S n) z = u8 (Z.shiftr z (8 * Z.of_nat n)) :: be n z.
Proof.
  revert z. induction n as [|n IH]; intros z; [by rewrite Z.shiftr_0_r|].
  change (be (S (S n)) z) with (be (S n) (z / 256) ++ [z mod 256]). rewrite IH.
  change (be (S n) z) with (be n (z / 256) ++ [z mod 256]). simpl app. f_equal.
  change (z / 256) with (z / 2 ^ 8). rewrite <- Z.shiftr_div_pow2, Z.shiftr_shiftr by lia.
  do 2 f_equal. lia.
Qed.

Lemma from_be_snoc bs b : from_be (bs ++ [b]) = from_be bs * 256 + b.
Proof. unfold from_be. by rewrite fold_left_app. Qed.

Lemma from_be_be n z : from_be (be n z) = z mod 256 ^ Z.of_nat n.
Proof.
  revert z. induction n as [|n IH]; intros z; [by rewrite Z.mod_1_r|].
  cbn [be]. rewrite from_be_snoc, IH. replace (Z.of_nat (S n)) with (1 + Z.of_nat n) by lia.
  rewrite Z.pow_add_r, Z.pow_1_r, Z.mul_comm, Z.rem_mul_r by lia. lia.
Qed.

Lemma from_be_bound bs : is_bytes bs -> 0 <= from_be bs < 256 ^ len bs.
Proof.
  induction bs as [|b bs IH] using rev_ind; intros H; [done|].
  apply Forall_app in H as [H Hb]. inversion Hb as [|? ? Hb' _]; subst. specialize (IH H).
  rewrite from_be_snoc, len_app, Z.pow_add_r by (try apply len_nonneg; done).
  unfold is_u8 in Hb'. change (256 ^ len [b]) with 256. lia.
Qed.

Lemma be_from_be bs : is_bytes bs -> be (length bs) (from_be bs) = bs.
Proof.
  induction bs as [|b bs IH] using rev_ind; intros H; [done|].
  apply Forall_app in H as [H Hb]. inversion Hb as [|? ? Hb' _]; subst.
  rewrite length_app, Nat.add_comm. simpl. rewrite from_be_snoc. unfold is_u8 in Hb'.
  rewrite div_base, mod_base by lia. by rewrite IH.
Qed.

Lemma pow256 n : 0 <= n -> 256 ^ n = 2 ^ (8 * n).
Proof. intros. change 256 with (2 ^ 8). rewrite <- Z.pow_mul_r; lia. Qed.

(** [nbytes z] is the number of base-256 digits of [z]. *)
Lemma nbytes_unique z n :
  (1 <= n)%nat -> 0 < z -> 256 ^ (Z.of_nat n - 1) <= z < 256 ^ Z.of_nat n -> nbytes z = n.
Proof.
  intros Hn Hz [Hlo Hhi]. rewrite pow256 in Hlo, Hhi by lia.
  apply Z.log2_le_pow2 in Hlo; [|lia]. apply Z.log2_lt_pow2 in Hhi; [|lia]. unfold nbytes.
  assert (Z.log2 z / 8 = Z.of_nat n - 1); [|lia].
  symmetry. apply (Z.div_unique _ _ _ (Z.log2 z - 8 * (Z.of_nat n - 1))); lia.
Qed.

Lemma nbytes_bounds z :
  0 < z -> (1 <= nbytes z)%nat /\ 256 ^ (Z.of_nat (nbytes z) - 1) <= z < 256 ^ Z.of_nat (nbytes z).
Proof.
  intros Hz. pose proof (Z.log2_spec z Hz) as [Hlo Hhi]. pose proof (Z.log2_nonneg z) as Hnn.
  assert (Z.of_nat (nbytes z) = Z.log2 z / 8 + 1) as En
    by (unfold nbytes; rewrite Z2Nat.id; [done|]; pose proof (Z.div_pos (Z.log2 z) 8); lia).
  pose proof (Z.div_mod (Z.log2 z) 8 ltac:(lia)). pose proof (Z.mod_pos_bound (Z.log2 z) 8 ltac:(lia)).
  pose proof (Z.div_pos (Z.log2 z) 8).
  split; [lia|]. rewrite En, !pow256 by lia. split.
  - etransitivity; [|exact Hlo]. apply Z.pow_le_mono_r; lia.
  - eapply Z.lt_le_trans; [exact Hhi|]. apply Z.pow_le_mono_r; lia.
Qed.

Lemma minbe_pos z : 0 < z -> minbe z = be (nbytes z) z.
Proof. intros. unfold minbe. case_tests; [lia|done]. Qed.

Lemma minbe_from_be bs b :
  is_bytes (b :: bs) -> b <> 0 -> minbe (from_be (b :: bs)) = b :: bs.
Proof.
  intros H Hb. inversion H as [|? ? Hb' Hbs]; subst. unfold is_u8 in Hb'.
  pose proof (from_be_bound (b :: bs) H) as Hup. rewrite len_cons in Hup.
  assert (Hlow : 256 ^ len bs <= from_be (b :: bs)).
  { clear Hup. induction bs as [|c bs IH] using rev_ind; [change (1 <= b); lia|].
    apply Forall_app in Hbs as [Hbs Hc]. inversion Hc as [|? ? Hc' _]; subst. unfold is_u8 in Hc'.
    change (b :: bs ++ [c]) with ((b :: bs) ++ [c]). rewrite from_be_snoc, len_app, Z.pow_add_r
      by (try apply len_nonneg; done). change (256 ^ len [c]) with 256.
    specialize (IH ltac:(by constructor) Hbs). lia. }
  pose proof (Z.pow_pos_nonneg 256 (len bs) ltac:(lia) (len_nonneg bs)).
  rewrite minbe_pos by lia. rewrite (nbytes_unique _ (length (b :: bs))).
  - by apply be_from_be.
  - simpl. lia.
  - lia.
  - unfold len in *. cbn [length].
    replace (Z.of_nat (S (length bs)) - 1) with (Z.of_nat (length bs)) by lia.
    replace (Z.of_nat (S (length bs))) with (1 + Z.of_nat (length bs)) by lia. lia.
Qed.

(** The digits [putint] writes are the minimal big-endian ones. *)
Lemma putint_bytes_be i : 0 <= i < 2 ^ 64 -> putint_bytes i = be (nbytes i) i.
Proof.
  intros Hi. unfold putint_bytes.
  destruct (decide (i = 0)) as [->|Hne]; [done|].
  case_tests; match goal with |- ?l = _ => let n := eval compute in (length l) in
      rewrite (nbytes_unique i n) by lia; by rewrite !be_cons end.
Qed.

Lemma putint_minbe i : 0 < i < 2 ^ 64 -> putint_bytes i = minbe i.
Proof. intros. rewrite putint_bytes_be, minbe_pos by lia. done. Qed.

Lemma nbytes_range i : 0 <= i < 2 ^ 64 -> (1 <= nbytes i <= 8)%nat.
Proof.
  intros Hi. destruct (decide (i = 0)) as [->|Hne]; [vm_compute; lia|].
  pose proof (nbytes_bounds i ltac:(lia)) as [H1 [H2 _]]. split; [done|].
  destruct (decide (nbytes i <= 8)%nat) as [|Hgt]; [done|]. exfalso.
  assert (256 ^ 8 <= 256 ^ (Z.of_nat (nbytes i) - 1)) by (apply Z.pow_le_mono_r; lia). lia.
Qed.

Lemma intsize_nbytes i : 0 <= i < 2 ^ 64 -> intsize i = Z.of_nat (nbytes i).
Proof.
  intros Hi. unfold intsize. 
  assert (H : forall fuel size i, 0 <= i < 256 ^ Z.of_nat fuel -> (1 <= fuel)%nat ->
    intsizeLoop fuel size i = size + Z.of_nat (nbytes i) - 1).
  { clear. induction fuel as [|fuel IH]; intros size i Hi Hf; [lia|]. cbn [intsizeLoop].
    rewrite Z.shiftr_div_pow2 by lia. change (2 ^ 8) with 256. case_tests.
    - assert (nbytes i = 1%nat); [|lia]. destruct (decide (i = 0)) as [->|]; [done|].
      apply Z.div_small_iff in Heqb; [|lia]. apply nbytes_unique; [lia..|]. change (1 <= i < 256). lia.
    - assert (0 <= i / 256 < 256 ^ Z.of_nat fuel).
      { split; [apply Z.div_pos; lia|]. apply Z.div_lt_upper_bound; [lia|].
        replace (Z.of_nat (S fuel)) with (1 + Z.of_nat fuel) in Hi by lia.
        rewrite Z.pow_add_r in Hi by lia. lia. }
      assert (1 <= fuel)%nat by (destruct fuel; [change (256 ^ Z.of_nat 0) with 1 in *|]; lia).
      rewrite IH by done.
      assert (nbytes i = S (nbytes (i / 256))); [|lia].
      pose proof (nbytes_bounds (i / 256) ltac:(lia)) as [H1 [H2 H3]].
      pose proof (Z.div_mod i 256 ltac:(lia)). pose proof (Z.mod_pos_bound i 256 ltac:(lia)).
      apply nbytes_unique; [lia..|]. replace (Z.of_nat (S _) - 1) with (1 + (Z.of_nat (nbytes (i / 256)) - 1)) by lia.
      replace (Z.of_nat (S _)) with (1 + Z.of_nat (nbytes (i / 256))) by lia.
      rewrite !Z.pow_add_r by lia. lia. }
  rewrite H; [lia| |lia]. exact Hi.
Qed.

(** ** Sizes *)

Lemma lor_disjoint k x y : 0 <= k -> x mod 2 ^ k = 0 -> 0 <= y < 2 ^ k -> Z.lor x y = x + y.
Proof.
  intros Hk Hx Hy. pose proof (Z.div_mod x (2 ^ k) ltac:(lia)) as E. rewrite Hx in E.
  rewrite E at 1. rewrite Z.add_0_r, Z.mul_comm, <- Z.shiftl_mul_pow2 by done.
  rewrite lor_shiftl_add by done. lia.
Qed.

(** One more byte below the field read so far. *)
Lemma lor_byte acc b K k :
  K = 8 + k -> 0 <= k -> is_u8 b ->
  Z.lor (Z.shiftl acc K) (Z.shiftl b k) = Z.shiftl (acc * 256 + b) k.
Proof.
  intros -> Hk Hb. unfold is_u8 in Hb. rewrite <- Z.shiftl_shiftl, <- Z.shiftl_lor by lia.
  by rewrite (lor_shiftl_add 8) by lia.
Qed.

Lemma readSize_value b slen :
  1 <= slen <= 8 -> slen <= len b -> is_bytes b ->
  readSize b slen =
    let s := from_be (take (Z.to_nat slen) b) in
    if s <? 56 then Err ErrCanonSize else if nth 0 b 0 =? 0 then Err ErrCanonSize else Ok s.
Proof.
  intros Hs Hl Hb. unfold readSize. destruct (Z.ltb_spec (len b) slen) as [?|_]; [lia|].
  unfold len in Hl.
  assert (slen = 1 \/ slen = 2 \/ slen = 3 \/ slen = 4 \/ slen = 5 \/ slen = 6 \/ slen = 7 \/ slen = 8)
    as Hcase by lia.
  destruct_or! Hcase; subst slen;
    repeat (match goal with H : context [length ?b] |- _ =>
              is_var b; destruct b as [|? b]; [simpl in Hl; lia|cbn [length] in Hl] end);
    unfold is_bytes in Hb; repeat match goal with H : Forall is_u8 (_ :: _) |- _ => apply Forall_cons in H as [? H] end;
    cbn [nth]; repeat rewrite lor_byte by (try assumption; reflexivity || lia);
    rewrite Z.shiftl_0_r; unfold from_be, index;
    match goal with |- context [Z.to_nat ?n] =>
      let m := eval compute in (Z.to_nat n) in change (Z.to_nat n) with m end;
    cbn [fold_left take lookup list_lookup]; rewrite Z.mul_0_l, Z.add_0_l; reflexivity.
Qed.

Lemma minbe_head n : 0 < n -> exists b bs, minbe n = b :: bs /\ b <> 0.
Proof.
  intros Hn. pose proof (nbytes_bounds n Hn) as [H1 [H2 H3]]. rewrite minbe_pos by done.
  destruct (nbytes n) as [|m]; [lia|]. rewrite be_cons. do 2 eexists. split; [done|].
  replace (Z.of_nat (S m) - 1) with (Z.of_nat m) in H2 by lia.
  replace (Z.of_nat (S m)) with (1 + Z.of_nat m) in H3 by lia.
  rewrite Z.pow_add_r, Z.pow_1_r in H3 by lia. rewrite pow256 in H2, H3 by lia.
  rewrite Z.shiftr_div_pow2 by lia.
  pose proof (Z.pow_pos_nonneg 2 (8 * Z.of_nat m) ltac:(lia) ltac:(lia)).
  assert (1 <= n / 2 ^ (8 * Z.of_nat m)) by (apply Z.div_le_lower_bound; lia).
  assert (n / 2 ^ (8 * Z.of_nat m) < 256) by (apply Z.div_lt_upper_bound; lia).
  unfold u8. rewrite Z.mod_small by lia. lia.
Qed.

Lemma minbe_bytes n : is_bytes (minbe n).
Proof. unfold minbe. case_tests; [constructor|apply be_bytes]. Qed.

Lemma minbe_len n : 0 < n < 2 ^ 64 -> 1 <= len (minbe n) <= 8.
Proof.
  intros. rewrite minbe_pos by lia. unfold len. rewrite be_length.
  pose proof (nbytes_range n ltac:(lia)). lia.
Qed.

Lemma from_be_minbe n : 0 <= n -> from_be (minbe n) = n.
Proof.
  intros. unfold minbe. case_tests; [by subst|]. rewrite from_be_be.
  pose proof (nbytes_bounds n ltac:(lia)). rewrite Z.mod_small; lia.
Qed.

Lemma take_len_app {A} (l k : list A) : take (Z.to_nat (len l)) (l ++ k) = l.
Proof. unfold len. rewrite Nat2Z.id. apply take_app_length. Qed.

Lemma readSize_minbe n rest :
  56 <= n < 2 ^ 64 -> is_bytes rest -> readSize (minbe n ++ rest) (len (minbe n)) = Ok n.
Proof.
  intros Hn Hr. pose proof (minbe_len n ltac:(lia)). rewrite readSize_value; [|done| |].
  - cbn zeta. rewrite take_len_app, from_be_minbe by lia.
    destruct (minbe_head n) as (b & bs & -> & Hb); [lia|]. simpl. case_tests; [lia..|done].
  - rewrite len_app. pose proof (len_nonneg rest). lia.
  - apply Forall_app. split; [apply minbe_bytes|done].
Qed.

Lemma readSize_inv b slen s :
  1 <= slen <= 8 -> is_bytes b -> readSize b slen = Ok s ->
  slen <= len b /\ take (Z.to_nat slen) b = minbe s /\ 56 <= s < 2 ^ 64.
Proof.
  intros Hs Hb E. assert (slen <= len b) as Hl.
  { unfold readSize in E. destruct (Z.ltb_spec (len b) slen); [done|lia]. }
  rewrite readSize_value in E by done. cbn zeta in E. split; [done|].
  destruct (Z.ltb_spec (from_be (take (Z.to_nat slen) b)) 56); [done|].
  destruct b as [|b0 b]; [unfold len in Hl; simpl in Hl; lia|]. simpl nth in E.
  destruct (Z.eqb_spec b0 0); [done|]. injection E as E.
  assert (Hlen : len (take (Z.to_nat slen) (b0 :: b)) = slen).
  { unfold len in *. rewrite length_take. lia. }
  pose proof (from_be_bound (take (Z.to_nat slen) (b0 :: b)) (Forall_take _ _ _ Hb)) as [_ Hup].
  rewrite E, Hlen in Hup.
  assert (256 ^ slen <= 256 ^ 8) by (apply Z.pow_le_mono_r; lia). split; [|lia].
  rewrite <- E. destruct (Z.to_nat slen) as [|m] eqn:Em; [lia|]. cbn [take].
  symmetry. apply minbe_from_be; [|done]. by apply (Forall_take _ (S m)) in Hb.
Qed.

(** ** Splitting is the inverse of encoding *)

Definition kind_of (c : bytes) : Kind :=
  match c with [x] => if x <? 128 then KByte else KString | _ => KString end.

Lemma Split_parts tag content rest k :
  readKind (tag ++ content ++ rest) = Ok (k, len tag, len content) ->
  Split (tag ++ content ++ rest) = Ok (k, content, rest).
Proof.
  intros E. unfold Split. rewrite E. simpl. unfold slice, len.
  rewrite <- Nat2Z.inj_add, !Nat2Z.id, !length_app, decide_True by lia. simpl.
  rewrite decide_True by lia. simpl. rewrite drop_app_length, drop_app_add, drop_app_length.
  replace (length tag + length content - length tag)%nat with (length content) by lia.
  by rewrite take_app_length, take_ge by lia.
Qed.

Lemma u64_len_sub {A} (l : list A) t : 0 <= t <= len l -> len l < 2 ^ 64 -> u64 (len l - t) = len l - t.
Proof. intros. apply u64_small. unfold is_u64. lia. Qed.

Lemma readKind_short_string size rest :
  0 <= size < 56 -> 1 + len rest < 2 ^ 64 -> size <= len rest ->
  ~ (size = 1 /\ nth 0 rest 0 < 128) ->
  readKind ((128 + size) :: rest) = Ok (KString, 1, size).
Proof.
  intros Hs Hl Hle Hc. unfold readKind.
  destruct (Z.ltb_spec (128 + size) 128); [lia|]. destruct (Z.ltb_spec (128 + size) 184); [|lia].
  replace (128 + size - 128) with size by lia.
  assert ((size =? 1) && (1 <? len (128 + size :: rest)) && (nth 1 (128 + size :: rest) 0 <? 128) = false) as ->.
  { destruct (Z.eqb_spec size 1); [|done]. simpl nth. destruct (Z.ltb_spec (nth 0 rest 0) 128); [|by rewrite andb_false_r].
    exfalso. apply Hc. lia. }
  simpl. rewrite u64_len_sub by (rewrite len_cons; lia). rewrite len_cons.
  destruct (Z.ltb_spec (1 + len rest - 1) size); [lia|done].
Qed.

Lemma readKind_short_list size rest :
  0 <= size < 56 -> 1 + len rest < 2 ^ 64 -> size <= len rest ->
  readKind ((192 + size) :: rest) = Ok (KList, 1, size).
Proof.
  intros Hs Hl Hle. unfold readKind.
  destruct (Z.ltb_spec (192 + size) 128); [lia|]. destruct (Z.ltb_spec (192 + size) 184); [lia|].
  destruct (Z.ltb_spec (192 + size) 192); [lia|]. destruct (Z.ltb_spec (192 + size) 248); [|lia].
  simpl. rewrite u64_len_sub by (rewrite len_cons; lia). rewrite len_cons.
  replace (192 + size - 192) with size by lia.
  destruct (Z.ltb_spec (1 + len rest - 1) size); [lia|done].
Qed.

Lemma readKind_long large k size rest :
  (large = 183 /\ k = KString \/ large = 247 /\ k = KList) ->
  56 <= size < 2 ^ 64 -> is_bytes rest -> 9 + len rest < 2 ^ 64 -> size <= len rest ->
  readKind ((large + len (minbe size)) :: minbe size ++ rest) = Ok (k, 1 + len (minbe size), size).
Proof.
  intros Hk Hs Hb Hl Hle. unfold readKind. pose proof (minbe_len size ltac:(lia)).
  destruct (Z.ltb_spec (large + len (minbe size)) 128); [lia|].
  destruct (Z.ltb_spec (large + len (minbe size)) 184); [lia|].
  rewrite len_cons, len_app.
  destruct Hk as [[-> ->]|[-> ->]].
  - destruct (Z.ltb_spec (183 + len (minbe size)) 192); [|lia].
    replace (183 + len (minbe size) - 183) with (len (minbe size)) by lia.
    rewrite readSize_minbe by done. simpl. rewrite u64_small by (unfold is_u64; lia). 
    destruct (Z.ltb_spec (1 + (len (minbe size) + len rest) - (len (minbe size) + 1)) size); [lia|]. do 3 f_equal. lia.
  - destruct (Z.ltb_spec (247 + len (minbe size)) 192); [lia|].
    destruct (Z.ltb_spec (247 + len (minbe size)) 248); [lia|].
    replace (247 + len (minbe size) - 247) with (len (minbe size)) by lia.
    rewrite readSize_minbe by done. simpl. rewrite u64_small by (unfold is_u64; lia).
    destruct (Z.ltb_spec (1 + (len (minbe size) + len rest) - (len (minbe size) + 1)) size); [lia|]. do 3 f_equal. lia.
Qed.

Lemma header_len small large size : 0 <= size < 2 ^ 64 -> 1 <= len (header small large size) <= 9.
Proof.
  intros. unfold header. case_tests; rewrite len_cons, ?len_nil; [lia|].
  pose proof (minbe_len size). lia.
Qed.

Lemma header_readKind (lst : bool) size rest :
  0 <= size < 2 ^ 64 - 9 -> is_bytes rest -> 9 + len rest < 2 ^ 64 -> size <= len rest ->
  ~ (lst = false /\ size = 1 /\ nth 0 rest 0 < 128) ->
  let h := if lst then header 192 247 size else header 128 183 size in
  readKind (h ++ rest) = Ok (if lst then KList else KString, len h, size).
Proof.
  intros Hs Hb Hl Hle Hc. unfold header.
  destruct (Z.ltb_spec size 56), lst; cbn zeta; simpl app; rewrite ?len_cons, ?len_nil.
  - apply readKind_short_list; lia.
  - apply readKind_short_string; [lia..|]. intros ?. by apply Hc.
  - rewrite readKind_long with (k := KList); [done|by right|lia|done|lia|lia].
  - rewrite readKind_long with (k := KString); [done|by left|lia|done|lia|lia].
Qed.

Lemma readKind_byte x rest :
  x < 128 -> 1 + len rest < 2 ^ 64 -> readKind (x :: rest) = Ok (KByte, 0, 1).
Proof.
  intros Hx Hl. pose proof (len_nonneg rest). unfold readKind. destruct (Z.ltb_spec x 128); [|lia]. simpl.
  rewrite u64_len_sub by (rewrite len_cons; lia). rewrite len_cons. by destruct (Z.ltb_spec (1 + len rest - 0) 1); [lia|].
Qed.

(** The tag of a string and the fact that it is read back. *)
Definition string_tag (c : bytes) : bytes :=
  match c with [x] => if x <? 128 then [] else [129] | _ => header 128 183 (len c) end.

Lemma enc_string_tag c : enc_string c = string_tag c ++ c.
Proof. unfold enc_string, string_tag. destruct c as [|x [|y c]]; try done. by case_tests. Qed.

Lemma readKind_enc_string c rest :
  is_bytes (c ++ rest) -> 9 + len (c ++ rest) < 2 ^ 64 ->
  readKind (string_tag c ++ c ++ rest) = Ok (kind_of c, len (string_tag c), len c).
Proof.
  intros Hb Hl. assert (len c <= len (c ++ rest)) by (rewrite len_app; pose proof (len_nonneg rest); lia).
  pose proof (len_nonneg c).
  destruct (decide (length c = 1%nat)) as [E1|E1].
  - destruct c as [|x [|]]; try done. simpl string_tag. simpl kind_of. simpl app in *. rewrite len_cons in Hl.
    destruct (Z.ltb_spec x 128); [apply readKind_byte; lia|].
    apply (readKind_short_string 1); rewrite ?len_cons; simpl; pose proof (len_nonneg rest); lia.
  - assert (string_tag c = header 128 183 (len c)) as -> by (by destruct c as [|x [|y c]]).
    assert (kind_of c = KString) as -> by (by destruct c as [|x [|y c]]).
    apply (header_readKind false); [lia|done|lia|lia|]. unfold len. lia.
Qed.

Lemma Split_enc_string c rest :
  is_bytes (c ++ rest) -> 9 + len (c ++ rest) < 2 ^ 64 ->
  Split (enc_string c ++ rest) = Ok (kind_of c, c, rest).
Proof.
  intros Hb Hl. rewrite enc_string_tag, <- app_assoc. by apply Split_parts, readKind_enc_string.
Qed.

Lemma readKind_enc_list p rest :
  is_bytes (p ++ rest) -> 9 + len (p ++ rest) < 2 ^ 64 ->
  readKind (header 192 247 (len p) ++ p ++ rest) = Ok (KList, len (header 192 247 (len p)), len p).
Proof.
  intros Hb Hl. pose proof Hl as Hl'. rewrite len_app in Hl'. pose proof (len_nonneg rest).
  pose proof (len_nonneg p). apply (header_readKind true); [lia|done|done|rewrite len_app; lia|by intros [? _]].
Qed.

Lemma Split_enc_list p rest :
  is_bytes (p ++ rest) -> 9 + len (p ++ rest) < 2 ^ 64 ->
  Split (enc_list p ++ rest) = Ok (KList, p, rest).
Proof.
  intros Hb Hl. unfold enc_list. rewrite <- app_assoc. by apply Split_parts, readKind_enc_list.
Qed.

Lemma split_len {A} (l : list A) n : 0 <= n <= len l -> exists c r, l = c ++ r /\ len c = n.
Proof.
  intros Hn. exists (take (Z.to_nat n) l), (drop (Z.to_nat n) l). rewrite take_drop.
  split; [done|]. unfold len in *. rewrite length_take. lia.
Qed.

(** The tag in front of a value, by kind. *)
Definition tag_for (k : Kind) (content : bytes) : bytes :=
  match k with KList => header 192 247 (len content) | _ => string_tag content end.

Definition well_kinded (k : Kind) (content : bytes) : Prop :=
  match k with KList => True | _ => k = kind_of content end.

(** What [readKind] accepts: a canonical tag and enough content after it. *)
Definition tagged (b : bytes) (k : Kind) (ts cs : Z) : Prop :=
  exists content rest, b = tag_for k content ++ content ++ rest /\ well_kinded k content /\
    len content = cs /\ ts = len (tag_for k content).

Lemma tagged_long (large x : Z) k tl cs :
  (large = 183 /\ k = KString \/ large = 247 /\ k = KList) ->
  1 <= x - large <= 8 -> is_bytes tl -> readSize tl (x - large) = Ok cs ->
  cs <= len (x :: tl) - (x - large + 1) -> tagged (x :: tl) k (x - large + 1) cs.
Proof.
  intros Hk Hx Hb E Hle. destruct (readSize_inv _ _ _ Hx Hb E) as (Hl & Et & Hs).
  rewrite <- (take_drop (Z.to_nat (x - large)) tl) in Hle |- *. rewrite Et in *.
  assert (Em : len (minbe cs) = x - large).
  { rewrite <- Et. unfold len in *. rewrite length_take. lia. }
  rewrite len_cons, len_app in Hle.
  destruct (split_len (drop (Z.to_nat (x - large)) tl) cs) as (c & r & -> & Hc); [lia|].
  exists c, r.
  assert (tag_for k c = x :: minbe cs /\ well_kinded k c) as [-> Hw].
  { assert (c <> [] /\ forall y, c <> [y]) as [Hc0 Hc1]
      by (split; [|intros y]; intros ->; rewrite ?len_cons, ?len_nil in Hc; lia).
    unfold tag_for, well_kinded, string_tag, kind_of, header.
    destruct Hk as [[-> ->]|[-> ->]].
    - destruct c as [|y [|z c]]; [done|by destruct (Hc1 y)|]. rewrite Hc.
      destruct (Z.ltb_spec cs 56); [lia|]. split; [|done]. f_equal. lia.
    - rewrite Hc. destruct (Z.ltb_spec cs 56); [lia|]. split; [|done]. f_equal. lia. }
  split_and!; [done|done|done|]. rewrite len_cons. lia.
Qed.

Lemma tagged_short_string x tl :
  128 <= x < 184 -> ~ (x = 129 /\ 1 < len (x :: tl) /\ nth 0 tl 0 < 128) ->
  x - 128 <= len tl -> tagged (x :: tl) KString 1 (x - 128).
Proof.
  intros Hx Hn Hle. destruct (split_len tl (x - 128)) as (c & r & -> & Hc); [lia|].
  exists c, r.
  assert (string_tag c = [x] /\ KString = kind_of c) as [Et Hw].
  { destruct c as [|y [|z c]]; rewrite ?len_cons, ?len_nil in *.
    - split; [|done]. unfold string_tag, header. rewrite len_nil. simpl. f_equal. lia.
    - simpl string_tag. simpl kind_of. simpl nth in Hn. simpl app in Hn. rewrite len_cons in Hn.
      pose proof (len_nonneg r). destruct (Z.ltb_spec y 128); [exfalso; apply Hn; lia|].
      split; [|done]. f_equal. lia.
    - split; [|done]. unfold string_tag, header. rewrite !len_cons.
      pose proof (len_nonneg c). destruct (Z.ltb_spec (1 + (1 + len c)) 56); [|lia]. f_equal. lia. }
  cbn [tag_for well_kinded]. rewrite Et. done.
Qed.

Lemma readKind_inv b k ts cs :
  is_bytes b -> len b < 2 ^ 64 -> readKind b = Ok (k, ts, cs) -> tagged b k ts cs.
Proof.
  intros Hb Hl E. destruct b as [|x tl]; [done|]. inversion Hb as [|? ? Hx Htl]; subst.
  unfold is_u8 in Hx. pose proof (len_nonneg tl). pose proof (len_cons x tl) as El. unfold readKind in E.
  apply bind_ok in E as ([[k' ts'] cs'] & E1 & E2).
  assert (0 <= ts' <= len (x :: tl) -> k' = k /\ ts' = ts /\ cs' = cs /\ cs <= len (x :: tl) - ts) as Hfin.
  { intros Hts. rewrite u64_len_sub in E2 by lia.
    destruct (Z.ltb_spec (len (x :: tl) - ts') cs'); [done|]. injection E2 as <- <- <-. split_and!; [done..|lia]. }
  clear E2. destruct (Z.ltb_spec x 128); [|destruct (Z.ltb_spec x 184);
    [|destruct (Z.ltb_spec x 192); [|destruct (Z.ltb_spec x 248)]]].
  - injection E1 as <- <- <-. destruct Hfin as (<- & <- & <- & _); [lia|]. exists [x], tl. unfold tag_for.
    simpl. destruct (Z.ltb_spec x 128); [|lia]. done.
  - destruct (_ && _) eqn:Ec; [done|]. injection E1 as <- <- <-. destruct Hfin as (<- & <- & <- & Hle); [lia|].
    apply tagged_short_string; [lia| |lia]. intros (-> & Hgt & Hsm). revert Ec.
    simpl nth. apply Z.ltb_lt in Hgt as ->. by apply Z.ltb_lt in Hsm as ->.
  - apply bind_ok in E1 as (s & Es & E1). injection E1 as <- <- <-.
    destruct (readSize_inv tl (x - 183) s ltac:(lia) Htl Es) as (? & _).
    destruct Hfin as (<- & <- & <- & Hle); [lia|]. apply tagged_long; [by left|lia|done|done|lia].
  - injection E1 as <- <- <-. destruct Hfin as (<- & <- & <- & Hle); [lia|].
    destruct (split_len tl (x - 192)) as (c & r & -> & Hc); [lia|]. exists c, r. unfold tag_for, header.
    rewrite Hc. destruct (Z.ltb_spec (x - 192) 56); [|lia].
    split_and!; [|done..]. simpl. f_equal. lia.
  - apply bind_ok in E1 as (s & Es & E1). injection E1 as <- <- <-.
    destruct (readSize_inv tl (x - 247) s ltac:(lia) Htl Es) as (? & _).
    destruct Hfin as (<- & <- & <- & Hle); [lia|]. apply tagged_long; [by right|lia|done|done|lia].
Qed.

(** ** Theorems on splitting *)

Definition enc_value (k : Kind) (content : bytes) : bytes :=
  match k with KList => enc_list content | _ => enc_string content end.

Lemma enc_value_tag k c : enc_value k c = tag_for k c ++ c.
Proof. destruct k; simpl; [apply enc_string_tag..|done]. Qed.

Lemma tag_for_len k c : len c < 2 ^ 64 -> 0 <= len (tag_for k c) <= 9.
Proof.
  intros Hc. pose proof (len_nonneg c).
  assert (Hh : forall s l, 0 <= len (header s l (len c)) <= 9)
    by (intros s l; pose proof (header_len s l (len c) ltac:(lia)); lia).
  assert (0 <= len (string_tag c) <= 9).
  { unfold string_tag. destruct c as [|x [|y c]]; try apply Hh.
    case_tests; by vm_compute. }
  destruct k; simpl; auto.
Qed.

Lemma readKind_enc_value k c rest :
  well_kinded k c -> is_bytes (c ++ rest) -> 9 + len (c ++ rest) < 2 ^ 64 ->
  readKind (enc_value k c ++ rest) = Ok (k, len (tag_for k c), len c).
Proof.
  intros Hk Hb Hl. rewrite enc_value_tag, <- app_assoc.
  destruct k; simpl in *; [rewrite Hk; by apply readKind_enc_string..|by apply readKind_enc_list].
Qed.

Lemma is_bytes_app_inv b c : is_bytes (b ++ c) -> is_bytes b /\ is_bytes c.
Proof. apply Forall_app. Qed.

(** [Split] accepts exactly the canonical encodings followed by anything. *)
Lemma Split_iff b k c rest :
  is_bytes b -> 9 + len b < 2 ^ 64 ->
  Split b = Ok (k, c, rest) <-> b = enc_value k c ++ rest /\ well_kinded k c.
Proof.
  intros Hb Hl. split.
  - intros E. destruct (readKind b) as [[[k' ts] cs]| | |] eqn:Er;
      try (unfold Split in E; rewrite Er in E; done).
    pose proof Er as (c' & r' & Eb & Hw & Hcs & Hts)%readKind_inv; [|done|lia]. subst ts cs b.
    apply Split_parts in Er. rewrite Er in E. injection E as <- <- <-.
    by rewrite enc_value_tag, <- app_assoc.
  - intros [-> Hw]. rewrite enc_value_tag, <- app_assoc in *. apply Split_parts.
    rewrite app_assoc, <- enc_value_tag. apply is_bytes_app_inv in Hb as [_ ?].
    rewrite len_app in Hl. pose proof (len_nonneg (tag_for k c)).
    apply readKind_enc_value; [done..|lia].
Qed.

Lemma readKind_total b : is_bytes b -> readKind b <> Panic /\ readKind b <> NoFuel.
Proof.
  assert (Hs : forall b n, 1 <= n <= 8 -> is_bytes b -> readSize b n <> Panic /\ readSize b n <> NoFuel).
  { intros c n Hn Hc. destruct (Z.ltb_spec (len c) n).
    - unfold readSize. apply Z.ltb_lt in H as ->. done.
    - rewrite readSize_value by done. cbn zeta. by case_tests. }
  intros Hb. destruct b as [|x tl]; [done|]. inversion Hb as [|? ? Hx Htl]; subst. unfold is_u8 in Hx.
  unfold readKind. pose proof (Hs tl (x - 183)) as H1. pose proof (Hs tl (x - 247)) as H2.
  destruct (Z.ltb_spec x 128); [simpl; by case_tests|].
  destruct (Z.ltb_spec x 184); [destruct (_ && _); simpl; [done|]; by case_tests|].
  destruct (Z.ltb_spec x 192).
  { destruct H1; [lia|done|]. destruct (readSize tl (x - 183)); simpl; [by case_tests|done..]. }
  destruct (Z.ltb_spec x 248); [simpl; by case_tests|].
  destruct H2; [lia|done|]. destruct (readSize tl (x - 247)); simpl; [by case_tests|done..].
Qed.

(** C27. [Split] accepts exactly the canonical encodings: it returns a kind, a content and
    a rest if and only if the input is the reference encoding of that content (as a
    string or as a list payload) followed by the rest, with no second encoding of the
    same value accepted; on any other input it returns an error and never panics. *)
Theorem Split_canonical (b : bytes) (k : Kind) (c rest : bytes) :
  is_bytes b -> 9 + len b < 2 ^ 64 ->
  (Split b = Ok (k, c, rest) <-> b = enc_value k c ++ rest /\ well_kinded k c) /\
  Split b <> Panic /\ Split b <> NoFuel.
Proof.
  intros Hb Hl. split; [by apply Split_iff|].
  destruct (readKind_total b Hb). destruct (readKind b) as [[[k' ts] cs]|e| |] eqn:Er; try done.
  - pose proof Er as (c' & r' & Eb & _ & Hcs & Hts)%readKind_inv; [|done|lia]. subst ts cs b.
    apply Split_parts in Er. by rewrite Er.
  - unfold Split. by rewrite Er.
Qed.

(** ** Counting values *)

Definition enc_values (vs : list (Kind * bytes)) : bytes := flat_map (fun v => enc_value v.1 v.2) vs.

Lemma enc_value_nonempty k c : well_kinded k c -> enc_value k c <> [].
Proof.
  assert (Hh : forall s l n (c : bytes), header s l n ++ c <> [])
    by (intros; unfold header; by case_tests).
  intros Hk. destruct k; simpl in *; [| |apply Hh].
  all: unfold enc_string; destruct c as [|x [|y c]]; try apply Hh; by case_tests.
Qed.

Lemma slice_app_r {E A} (l k : list A) :
  slice (E:=E) (l ++ k) (Z.to_nat (len l)) (length (l ++ k)) = Ok k.
Proof.
  unfold slice, len. rewrite Nat2Z.id, length_app, decide_True by lia.
  by rewrite drop_app_length, take_ge by lia.
Qed.

Lemma countLoop_enc vs : forall fuel i,
  Forall (fun v => well_kinded v.1 v.2) vs -> is_bytes (enc_values vs) ->
  9 + len (enc_values vs) < 2 ^ 64 -> (length (enc_values vs) <= fuel)%nat ->
  countLoop fuel i (enc_values vs) = Ok (i + len vs).
Proof.
  induction vs as [|[k c] vs IH]; intros fuel i Hk Hb Hl Hf.
  { rewrite len_nil, Z.add_0_r. by destruct fuel. }
  inversion Hk as [|? ? Hk1 Hk2]; subst. simpl in Hk1.
  change (enc_values ((k, c) :: vs)) with (enc_value k c ++ enc_values vs) in *.
  pose proof (enc_value_nonempty _ _ Hk1) as Hne.
  apply is_bytes_app_inv in Hb as [Hb1 Hb2]. rewrite len_app in Hl. rewrite length_app in Hf.
  destruct (enc_value k c) as [|x e] eqn:Ee; [done|]. destruct fuel as [|fuel]; [simpl in Hf; lia|].
  simpl app. cbn [countLoop]. change (x :: e ++ enc_values vs) with ((x :: e) ++ enc_values vs).
  rewrite <- Ee in *. pose proof (len_nonneg (enc_value k c)).
  assert (Hlen : len (enc_value k c) = len (tag_for k c) + len c) by (by rewrite enc_value_tag, len_app).
  assert (Hbc : is_bytes c) by (rewrite enc_value_tag in Hb1; by apply is_bytes_app_inv in Hb1 as [_ ?]).
  pose proof (len_nonneg (tag_for k c)).
  rewrite readKind_enc_value; [|done|by apply Forall_app|rewrite len_app; lia]. simpl.
  rewrite <- Hlen, slice_app_r. simpl. rewrite Ee in Hf. simpl in Hf.
  rewrite IH by (done || lia). f_equal. unfold len. simpl length. lia.
Qed.

(** One round of the loop removes one value. *)
Lemma countLoop_inv fuel : forall i b,
  is_bytes b -> len b < 2 ^ 64 -> (length b <= fuel)%nat ->
  countLoop fuel i b <> Panic /\ countLoop fuel i b <> NoFuel /\
  forall n, countLoop fuel i b = Ok n ->
    exists vs, b = enc_values vs /\ n = i + len vs /\ Forall (fun v => well_kinded v.1 v.2) vs.
Proof.
  induction fuel as [|fuel IH]; intros i b Hb Hl Hf.
  - destruct b; [|simpl in Hf; lia]. split_and!; [done..|]. intros n [= <-]. exists [].
    rewrite len_nil. split_and!; [done|lia|constructor].
  - destruct b as [|x tl]; cbn [countLoop].
    { split_and!; [done..|]. intros n [= <-]. exists []. rewrite len_nil. split_and!; [done|lia|constructor]. }
    destruct (readKind_total _ Hb).
    destruct (readKind (x :: tl)) as [[[k ts] cs]| | |] eqn:Er; try done. simpl.
    apply readKind_inv in Er as (c & r & Eb & Hw & Hcs & Hts); [|done..]. subst ts cs.
    rewrite app_assoc, <- enc_value_tag in Eb.
    assert (len (tag_for k c) + len c = len (enc_value k c)) as ->
      by (rewrite enc_value_tag, len_app; done).
    assert ((length r < length (x :: tl))%nat).
    { rewrite Eb, length_app. pose proof (enc_value_nonempty _ _ Hw). destruct (enc_value k c); simpl; [done|lia]. }
    change (S (length tl)) with (length (x :: tl)). rewrite Eb in *. rewrite slice_app_r. simpl.
    apply is_bytes_app_inv in Hb as [_ Hr]. rewrite len_app in Hl. pose proof (len_nonneg (enc_value k c)).
    destruct (IH (i + 1) r) as (Hp & Hn & Hv); [done|lia|lia|]. split_and!; [done..|].
    intros n E. destruct (Hv n E) as (vs & -> & -> & Hvs). exists ((k, c) :: vs).
    rewrite len_cons. split_and!; [done|lia|by constructor].
Qed.

(** [CountValues] returns [n] exactly on the concatenation of [n] canonical
    encodings; on any other input it returns an error.  The loop always terminates
    (every value takes at least a byte) and never slices out of range. *)
Theorem CountValues_correct (b : bytes) :
  is_bytes b -> 9 + len b < 2 ^ 64 ->
  (forall n, CountValues b = Ok n <->
     exists vs, b = enc_values vs /\ n = len vs /\ Forall (fun v => well_kinded v.1 v.2) vs) /\
  CountValues b <> Panic /\ CountValues b <> NoFuel.
Proof.
  intros Hb Hl. unfold CountValues. destruct (countLoop_inv (length b) 0 b) as (H1 & H2 & H3); [done|lia|lia|].
  split_and!; [|done..]. intros n. split.
  - intros (vs & ? & -> & ?)%H3. exists vs. by rewrite Z.add_0_l.
  - intros (vs & -> & -> & Hvs). by rewrite countLoop_enc by (done || lia).
Qed.

(** ** 64-bit integers *)

Lemma AppendUint64_enc b i : is_u64 i -> AppendUint64 b i = b ++ enc_string (minbe i).
Proof.
  intros Hi. unfold is_u64 in Hi. unfold AppendUint64.
  destruct (Z.eqb_spec i 0) as [->|Hne]; [done|].
  rewrite <- putint_minbe by lia. unfold putint_bytes. rewrite Z.shiftr_0_r.
  assert (i < 256 -> u8 i = i) as Hu by (intros; apply u8_small; unfold is_u8; lia).
  case_tests; unfold enc_string; rewrite ?Hu by lia; try lia; try reflexivity.
  - by destruct (Z.ltb_spec i 128); [|lia].
  - by destruct (Z.ltb_spec i 128); [lia|].
Qed.

Lemma uintContent_iff c i :
  is_bytes c -> uintContent c = Ok i <-> is_u64 i /\ c = minbe i.
Proof.
  intros Hc. unfold is_u64, uintContent. destruct c as [|x [|y c]].
  - split; [by intros [= <-]|]. intros [Hi E]. destruct (decide (i = 0)) as [->|]; [done|].
    destruct (minbe_head i) as (? & ? & E' & _); [lia|]. congruence.
  - inversion Hc as [|? ? Hx _]; subst. unfold is_u8 in Hx. destruct (Z.eqb_spec x 0) as [->|Hne].
    + split; [done|]. intros [Hi E]. destruct (decide (i = 0)) as [->|]; [done|].
      destruct (minbe_head i) as (? & ? & E' & ?); [lia|]. congruence.
    + assert (minbe x = [x]) as Hm by (by apply (minbe_from_be [] x)). split.
      * intros [= <-]. split; [lia|done].
      * intros [Hi E]. rewrite <- Hm in E. apply (f_equal from_be) in E.
        rewrite !from_be_minbe in E by lia. by subst.
  - set (l := x :: y :: c) in *. assert (2 <= len l) by (unfold l; rewrite !len_cons; pose proof (len_nonneg c); lia).
    destruct (Z.ltb_spec 8 (len l)).
    { split; [done|]. intros [Hi E]. destruct (decide (i = 0)) as [->|]; [done|].
      pose proof (minbe_len i ltac:(lia)). rewrite <- E in *. lia. }
    split.
    + destruct (readSize l (len l)) as [s| | |] eqn:Er; try done. intros [= <-].
      apply readSize_inv in Er as (_ & Et & Hs); [|lia|done]. split; [lia|]. rewrite <- Et.
      unfold len. rewrite Nat2Z.id. by rewrite take_ge.
    + intros [Hi ->]. assert (0 < i) by (destruct (decide (i = 0)) as [->|]; [done|lia]).
      rewrite <- (app_nil_r (minbe i)) at 1. rewrite readSize_minbe; [done| |constructor]. split; [|lia].
      pose proof (nbytes_bounds i ltac:(lia)) as (_ & Hlow & _).
      assert (256 ^ 1 <= 256 ^ (Z.of_nat (nbytes i) - 1)); [|lia]. apply Z.pow_le_mono_r; [lia|].
      rewrite minbe_pos in * by lia. unfold len in *. rewrite be_length in *. lia.
Qed.

Lemma kind_of_string c :
  enc_value (kind_of c) c = enc_string c /\ well_kinded (kind_of c) c /\ kind_of c <> KList.
Proof.
  assert (kind_of c <> KList) as Hk by (unfold kind_of; destruct c as [|x [|y c]]; by case_tests).
  destruct (kind_of c) eqn:E; simpl; rewrite ?E; done.
Qed.

(** Integers round trip: [SplitUint64] returns an integer and a rest exactly on what
    [AppendUint64] produces for that integer followed by the rest; leading zeros,
    oversized integers and non-minimal sizes are rejected. *)
Theorem uint64_roundtrip (b rest : bytes) (i : Z) :
  is_bytes b -> 9 + len b < 2 ^ 64 ->
  SplitUint64 b = Ok (i, rest) <-> is_u64 i /\ b = AppendUint64 [] i ++ rest.
Proof.
  intros Hb Hl. split.
  - intros E. unfold SplitUint64, SplitString in E. apply bind_ok in E as ([c r] & E1 & E2).
    apply bind_ok in E2 as (x & E2 & E4). injection E4 as -> ->.
    apply bind_ok in E1 as ([[k c'] r'] & E1 & E3). apply Split_iff in E1 as [-> Hw]; [|done..].
    assert (k <> KList /\ c' = c /\ r' = rest) as (Hk & -> & ->)
      by (destruct k; [by injection E3 as -> ->..|done]).
    assert (enc_value k c = enc_string c) as Ek by (by destruct k). rewrite Ek in *.
    apply is_bytes_app_inv in Hb as [Hb _]. rewrite enc_string_tag in Hb. apply is_bytes_app_inv in Hb as [_ Hb].
    apply uintContent_iff in E2 as [Hi ->]; [|done]. split; [done|]. by rewrite AppendUint64_enc.
  - intros [Hi ->]. rewrite AppendUint64_enc in * by done. simpl app in *.
    assert (Split (enc_string (minbe i) ++ rest) = Ok (kind_of (minbe i), minbe i, rest)) as E.
    { apply Split_iff; [done..|]. destruct (kind_of_string (minbe i)) as (-> & ? & _). done. }
    unfold SplitUint64, SplitString. rewrite E. simpl. destruct (kind_of_string (minbe i)) as (_ & _ & Hk).
    destruct (kind_of (minbe i)); simpl; [| |done];
      (rewrite (proj2 (uintContent_iff (minbe i) i (minbe_bytes i))); [done|done]).
Qed.

(** ** The encoding is injective and prefix free *)

(** Induction on items with a hypothesis for every element of a list. *)
Fixpoint item_ind' (P : item -> Prop) (HS : forall b, P (Str b))
    (HL : forall l, Forall P l -> P (Lst l)) (i : item) : P i :=
  match i with
  | Str b => HS b
  | Lst l => HL l ((fix each l : Forall P l := match l with
                    | [] => Forall_nil_2 P
                    | i :: l => Forall_cons_2 P i l (item_ind' P HS HL i) (each l)
                    end) l)
  end.

Definition item_kind (i : item) : Kind := match i with Str b => kind_of b | Lst _ => KList end.
Definition item_payload (i : item) : bytes := match i with Str b => b | Lst l => flat_map enc l end.

Lemma enc_as_value i :
  enc i = enc_value (item_kind i) (item_payload i) /\ well_kinded (item_kind i) (item_payload i).
Proof. destruct i as [b|l]; [|done]. simpl. destruct (kind_of_string b) as (-> & ? & _). done. Qed.

Lemma enc_nonempty i : enc i <> [].
Proof. destruct (enc_as_value i) as [-> ?]. by apply enc_value_nonempty. Qed.

Lemma enc_payload_bytes i r : is_bytes (enc i ++ r) -> is_bytes (item_payload i).
Proof.
  destruct (enc_as_value i) as [-> _]. rewrite enc_value_tag.
  by intros [[_ ?]%is_bytes_app_inv _]%is_bytes_app_inv.
Qed.

Lemma enc_payload_len i : len (item_payload i) <= len (enc i).
Proof.
  destruct (enc_as_value i) as [-> _]. rewrite enc_value_tag, len_app.
  pose proof (len_nonneg (tag_for (item_kind i) (item_payload i))). lia.
Qed.

Definition uniquely_parsed (i1 : item) : Prop := forall i2 r1 r2,
  is_bytes (enc i1 ++ r1) -> 9 + len (enc i1 ++ r1) < 2 ^ 64 ->
  enc i1 ++ r1 = enc i2 ++ r2 -> i1 = i2 /\ r1 = r2.

Lemma uniquely_parsed_list l1 : Forall uniquely_parsed l1 -> forall l2,
  is_bytes (flat_map enc l1) -> 9 + len (flat_map enc l1) < 2 ^ 64 ->
  flat_map enc l1 = flat_map enc l2 -> l1 = l2.
Proof.
  induction 1 as [|i1 l1 Hi _ IH]; intros [|i2 l2] Hb Hl E; simpl in *; [done| | |].
  - symmetry in E. apply app_nil in E as [E _]. by apply enc_nonempty in E.
  - apply app_nil in E as [E _]. by apply enc_nonempty in E.
  - destruct (Hi i2 _ _ Hb Hl E) as [<- E']. f_equal. apply is_bytes_app_inv in Hb as [_ ?].
    rewrite len_app in Hl. pose proof (len_nonneg (enc i1)). apply IH; [done|lia|done].
Qed.

Lemma all_uniquely_parsed i : uniquely_parsed i.
Proof.
  induction i as [b|l IH] using item_ind'; intros i2 r1 r2 Hb Hl E.
  all: match goal with |- ?i1 = _ /\ _ =>
    destruct (enc_as_value i1) as [E1 W1], (enc_as_value i2) as [E2 W2];
    pose proof (proj2 (Split_iff _ _ _ r1 Hb Hl) (conj (f_equal (.++ r1) E1) W1)) as S1;
    pose proof (enc_payload_bytes i1 r1 Hb) as Hp; pose proof (enc_payload_len i1) as Hpl;
    rewrite E in Hb, Hl, S1;
    pose proof (proj2 (Split_iff _ _ _ r2 Hb Hl) (conj (f_equal (.++ r2) E2) W2)) as S2;
    rewrite <- E in Hl; rewrite S1 in S2; injection S2 as Hk Hc <- end.
  - destruct i2 as [b2|l2]; simpl in *; [by subst|].
    destruct (kind_of_string b) as (_ & _ & ?). congruence.
  - destruct i2 as [b2|l2]; simpl in *.
    + destruct (kind_of_string b2) as (_ & _ & ?). congruence.
    + rewrite len_app in Hl. pose proof (len_nonneg r1). split; [|done]. f_equal.
      apply uniquely_parsed_list; [done|done|lia|done].
Qed.

(** The encoding is injective and prefix free: if two encodings, each followed by
    anything, agree as byte strings then the items agree and so does what follows.  In
    particular different items never have the same encoding. *)
Lemma enc_prefix_free (i1 i2 : item) (r1 r2 : bytes) :
  is_bytes (enc i1 ++ r1) -> 9 + len (enc i1 ++ r1) < 2 ^ 64 ->
  enc i1 ++ r1 = enc i2 ++ r2 -> i1 = i2 /\ r1 = r2.
Proof. apply all_uniquely_parsed. Qed.

(** ** Witnesses *)

Lemma Split_canonical_witness : Split [130; 1; 2; 7] = Ok (KString, [1; 2], [7]).
Proof.
  assert (is_bytes [130; 1; 2; 7]) as Hb by solve_bytes.
  apply (Split_canonical [130; 1; 2; 7] KString [1; 2] [7] Hb ltac:(vm_compute; reflexivity)).
  split; reflexivity.
Defined.

Lemma CountValues_correct_witness : CountValues [5; 194; 1; 2; 128] = Ok 3.
Proof.
  assert (is_bytes [5; 194; 1; 2; 128]) as Hb by solve_bytes.
  apply (CountValues_correct [5; 194; 1; 2; 128] Hb ltac:(vm_compute; reflexivity)).
  exists [(KByte, [5]); (KList, [1; 2]); (KString, [])]. split; [reflexivity|]. split; [reflexivity|].
  repeat constructor.
Defined.

Lemma uint64_roundtrip_witness : SplitUint64 (AppendUint64 [] 1024 ++ [9]) = Ok (1024, [9]).
Proof.
  apply (uint64_roundtrip (AppendUint64 [] 1024 ++ [9]) [9] 1024).
  - solve_bytes.
  - vm_compute. reflexivity.
  - split; [unfold is_u64; lia|reflexivity].
Defined.

End RLP.
