(* ===== verification/RlpBuffer.v ===== *)
(** * The RLP encoder buffer

    Model of [rlp/encbuffer.go] and of the value writers of [rlp/encode.go].  The buffer
    keeps the string data and the list headers apart: a list header is recorded when the
    list starts, its size is known when the list ends, and the headers are woven into the
    output at the very end.  The output is proved to be the reference encoding. *)

From S2P Require Import Prelude Rlp.

Module EncBuffer.
Import RLP.

(** ** The buffer *)

(** [listhead]. *)
Record listhead := mkHead { lh_offset : Z; lh_size : Z }.

(** [encBuffer]. *)
Record encBuffer := mkBuf {
  eb_str : bytes;
  eb_lheads : list listhead;
  eb_lhsize : Z;
  eb_sizebuf : bytes
}.

Inductive encError := ErrNegativeBigInt.
Abbreviation W := (res encError).

Definition set_str (s : bytes) (w : encBuffer) : encBuffer :=
  mkBuf s (eb_lheads w) (eb_lhsize w) (eb_sizebuf w).

(** [w.str = append(w.str, b...)]. *)
Definition append (b : bytes) (w : encBuffer) : encBuffer := set_str (eb_str w ++ b) w.

(** [reset] (and [getEncBuffer], which resets a pooled buffer). *)
Definition reset (w : encBuffer) : encBuffer := mkBuf [] [] 0 (eb_sizebuf w).

(** [size]. *)
Definition size (w : encBuffer) : Z := len (eb_str w) + eb_lhsize w.

(** [sizebuf] filled with a tag and an integer, and the part in use appended to the data. *)
Definition appendTagged (tag i : Z) (w : encBuffer) : W encBuffer :=
  '(tl, s) ← putint (drop 1 (eb_sizebuf w)) i;
  sizebuf ← store (take 1 (eb_sizebuf w) ++ tl) 0 (u8 (tag + u8 (Z.of_nat s)));
  head ← slice sizebuf 0 (s + 1);
  mret (mkBuf (eb_str w ++ head) (eb_lheads w) (eb_lhsize w) sizebuf).

(** [writeBool]. *)
Definition writeBool (b : bool) (w : encBuffer) : encBuffer :=
  if b then append [1] w else append [128] w.

(** [writeUint64]. *)
Definition writeUint64 (i : Z) (w : encBuffer) : W encBuffer :=
  if i =? 0 then mret (append [128] w)
  else if i <? 128 then mret (append [u8 i] w)
  else appendTagged 128 i w.

(** [encodeStringHeader]. *)
Definition encodeStringHeader (size : Z) (w : encBuffer) : W encBuffer :=
  if size <? 56 then mret (append [u8 (128 + u8 size)] w)
  else appendTagged 183 size w.

(** [writeBytes] and [writeString]. *)
Definition writeBytes (b : bytes) (w : encBuffer) : W encBuffer :=
  match b with
  | [x] => if x <=? 127 then mret (append [x] w)
           else w ← encodeStringHeader (len b) w; mret (append b w)
  | _ => w ← encodeStringHeader (len b) w; mret (append b w)
  end.

(** ** Big integers

    A [big.Int] is an integer; [BitLen] is the length of its absolute value in bits and
    [Bits] its little-endian 64-bit words. *)
Definition BitLen (i : Z) : Z := if i =? 0 then 0 else Z.log2 (Z.abs i) + 1.
Fixpoint wordsOf (n : nat) (z : Z) : list Z :=
  match n with O => [] | S n => z mod 2 ^ 64 :: wordsOf n (z / 2 ^ 64) end.
Definition Bits (i : Z) : list Z := wordsOf (Z.to_nat ((BitLen i + 63) / 64)) (Z.abs i).

(** The inner loop: at most eight bytes of a word, from the end of the buffer down. *)
Fixpoint wordBytesLoop (j : nat) (index : nat) (d : Z) (buf : bytes) : nat * bytes :=
  match j, index with
  | S j, S index => wordBytesLoop j index (Z.shiftr d 8) (<[index := u8 d]> buf)
  | _, _ => (index, buf)
  end.

Definition bigLoop (index : nat) (ws : list Z) (buf : bytes) : bytes :=
  (fold_left (fun '(index, buf) d => wordBytesLoop 8 index d buf) ws (index, buf)).2.

(** [writeBigInt]. *)
Definition writeBigInt (i : Z) (w : encBuffer) : W encBuffer :=
  let bitlen := BitLen i in
  if bitlen <=? 64 then writeUint64 (u64 (Z.abs i)) w
  else
    let length := Z.shiftr (Z.land (bitlen + 7) (-8)) 3 in
    w ← encodeStringHeader length w;
    mret (append (bigLoop (Z.to_nat length) (Bits i) (replicate (Z.to_nat length) 0)) w).

(** ** Lists *)

(** [list]: the index of the new header. *)
Definition list_ (w : encBuffer) : nat * encBuffer :=
  (length (eb_lheads w),
   mkBuf (eb_str w) (eb_lheads w ++ [mkHead (len (eb_str w)) (eb_lhsize w)]) (eb_lhsize w) (eb_sizebuf w)).

(** [listEnd]. *)
Definition listEnd (ix : nat) (w : encBuffer) : W encBuffer :=
  lh ← index (eb_lheads w) ix;
  let sz := size w - lh_offset lh - lh_size lh in
  lheads ← store (eb_lheads w) ix (mkHead (lh_offset lh) sz);
  mret (mkBuf (eb_str w) lheads
          (if sz <? 56 then eb_lhsize w + 1 else eb_lhsize w + (1 + intsize (u64 sz)))
          (eb_sizebuf w)).

(** ** Output *)

(** [copy(dst[pos:], src)]: the number of bytes copied and the destination. *)
Definition copyAt {E} (dst : bytes) (pos : nat) (src : bytes) : res E (nat * bytes) :=
  if decide (pos <= length dst)%nat then
    let n := Nat.min (length dst - pos) (length src) in
    Ok (n, take pos dst ++ take n src ++ drop (pos + n) dst)
  else Panic.

(** [head.encode(dst[pos:])]: the length of the header and the destination. *)
Definition encodeAt {E} (head : listhead) (dst : bytes) (pos : nat) : res E (nat * bytes) :=
  tail ← slice dst pos (length dst);
  '(tail, n) ← puthead tail 192 247 (u64 (lh_size head));
  mret (n, take pos dst ++ tail).

(** [copyTo]. *)
Fixpoint copyLoop {E} (str : bytes) (heads : list listhead) (strpos pos : nat) (dst : bytes)
    : res E bytes :=
  match heads with
  | [] =>
      src ← slice str strpos (length str);
      '(_, dst) ← copyAt dst pos src;
      mret dst
  | head :: heads =>
      src ← slice str strpos (Z.to_nat (lh_offset head));
      '(n, dst) ← copyAt dst pos src;
      '(m, dst) ← encodeAt head dst (pos + n);
      copyLoop str heads (strpos + n) (pos + n + m) dst
  end.
Definition copyTo {E} (w : encBuffer) (dst : bytes) : res E bytes :=
  copyLoop (eb_str w) (eb_lheads w) 0 0 dst.

(** [makeBytes]. *)
Definition makeBytes {E} (w : encBuffer) : res E bytes :=
  copyTo w (replicate (Z.to_nat (size w)) 0).

(** [AppendToBytes]. *)
Definition AppendToBytes {E} (w : encBuffer) (dst : bytes) : res E bytes :=
  let out := dst ++ replicate (Z.to_nat (size w)) 0 in
  tail ← slice out (length dst) (length out);
  tail ← copyTo w tail;
  mret (dst ++ tail).

(** [writeTo]: [write] is the destination's [Write], which takes the bytes and returns the
    count it wrote and an optional error along with its new state. *)
Section writeTo.
Context {S WE : Type} (write : S -> bytes -> S * (nat * option WE)).

Fixpoint writeHeads (str : bytes) (heads : list listhead) (strpos : nat) (sizebuf : bytes) (s : S)
    : go (S * (nat * option WE)) :=
  match heads with
  | [] => mret (s, (strpos, None))
  | head :: heads =>
      let write_head strpos s :=
        '(buf, n) ← puthead sizebuf 192 247 (u64 (lh_size head));
        let '(s, (_, e)) := write s (take n buf) in
        match e with
        | Some e => mret (s, (strpos, Some e))
        | None => writeHeads str heads strpos buf s
        end in
      if 0 <? lh_offset head - Z.of_nat strpos then
        src ← slice str strpos (Z.to_nat (lh_offset head));
        let '(s, (n, e)) := write s src in
        match e with
        | Some e => mret (s, ((strpos + n)%nat, Some e))
        | None => write_head (strpos + n)%nat s
        end
      else write_head strpos s
  end.

Definition writeTo (w : encBuffer) (s : S) : go (S * option WE) :=
  '(s, (strpos, e)) ← writeHeads (eb_str w) (eb_lheads w) 0 (eb_sizebuf w) s;
  match e with
  | Some e => mret (s, Some e)
  | None =>
      if decide (strpos < length (eb_str w))%nat then
        src ← slice (eb_str w) strpos (length (eb_str w));
        let '(s, (_, e)) := write s src in mret (s, e)
      else mret (s, None)
  end.
End writeTo.

(** ** Reading the output piecewise *)

(** [encReader]; [er_buf] is [None] once the buffer has been put back. *)
Record encReader := mkReader {
  er_buf : option encBuffer;
  er_lhpos : nat;
  er_strpos : nat;
  er_piece : option bytes
}.

(** [next]. *)
Definition next (r : encReader) : go (option bytes * encReader) :=
  match er_buf r with
  | None => mret (None, r)
  | Some buf =>
      match er_piece r with
      | Some p => mret (Some p, r)
      | None =>
          match eb_lheads buf !! er_lhpos r with
          | Some head =>
              let sizebefore := lh_offset head - Z.of_nat (er_strpos r) in
              if 0 <? sizebefore then
                p ← slice (eb_str buf) (er_strpos r) (Z.to_nat (lh_offset head));
                mret (Some p, mkReader (Some buf) (er_lhpos r) (er_strpos r + Z.to_nat sizebefore) None)
              else
                '(sb, n) ← puthead (eb_sizebuf buf) 192 247 (u64 (lh_size head));
                mret (Some (take n sb),
                      mkReader (Some (mkBuf (eb_str buf) (eb_lheads buf) (eb_lhsize buf) sb))
                        (er_lhpos r + 1) (er_strpos r) None)
          | None =>
              if decide (er_strpos r < length (eb_str buf))%nat then
                p ← slice (eb_str buf) (er_strpos r) (length (eb_str buf));
                mret (Some p, mkReader (Some buf) (er_lhpos r) (length (eb_str buf)) None)
              else mret (None, r)
          end
      end
  end.

(** [Read] into a buffer of [room] bytes: the bytes delivered and whether the end was
    reported. *)
Fixpoint readLoop (fuel : nat) (r : encReader) (room : nat) (got : bytes) : go (bytes * bool * encReader) :=
  match fuel with
  | O => NoFuel
  | S fuel =>
      '(piece, r) ← next r;
      match piece with
      | None => mret (got, true, mkReader None (er_lhpos r) (er_strpos r) None)
      | Some p =>
          let nn := Nat.min room (length p) in
          if decide (nn < length p)%nat then
            mret (got ++ take nn p, false, mkReader (er_buf r) (er_lhpos r) (er_strpos r) (Some (drop nn p)))
          else
            readLoop fuel (mkReader (er_buf r) (er_lhpos r) (er_strpos r) None) (room - nn) (got ++ p)
      end
  end.

(** Every piece holds at least one byte of the output. *)
Definition readFuel (r : encReader) : nat :=
  match er_buf r with
  | None => 1
  | Some buf => Z.to_nat (size buf) + 1
  end.
Definition Read (r : encReader) (room : nat) : go (bytes * bool * encReader) :=
  readLoop (readFuel r) r room [].

(** ** Values

    The values the writers of [rlp/encode.go] are selected for.  A struct carries the
    index of its first optional field and, with each field, whether it is the zero value. *)
Inductive gval :=
| GRaw (b : bytes)
| GBigPtr (i : option Z)
| GBig (i : Z)
| GUint (i : Z)
| GBool (b : bool)
| GString (s : bytes)
| GBytes (b : bytes)
| GByteArray (b : bytes)
| GSlice (tail : bool) (l : list gval)
| GStruct (firstOptional : nat) (fields : list (bool * gval))
| GInterface (v : option gval)
| GPtr (nilString : bool) (v : option gval).

(** [makeByteArrayWriter]. *)
Definition writeByteArray (b : bytes) (w : encBuffer) : W encBuffer :=
  match b with
  | [] => mret (append [128] w)
  | [x] => if x <=? 127 then mret (append [x] w) else mret (append [129; x] w)
  | _ => w ← encodeStringHeader (len b) w; mret (append b w)
  end.

(** [writeBigIntNoPtr]. *)
Definition writeSignedBig (i : Z) (w : encBuffer) : W encBuffer :=
  if i <? 0 then Err ErrNegativeBigInt else writeBigInt i w.

(** The search for the last field to write: trailing optional fields with the zero value
    are left out.  Returns the number of fields to write. *)
Fixpoint fieldCount (firstOptional n : nat) (fields : list (bool * gval)) : nat :=
  match n with
  | O => O
  | S n' =>
      if decide (firstOptional <= n')%nat then
        match fields !! n' with
        | Some (true, _) => fieldCount firstOptional n' fields
        | _ => n
        end
      else n
  end.

(** The element loop of the slice writers. *)
Definition each (write : gval -> encBuffer -> W encBuffer) :=
  fix each (l : list gval) (w : encBuffer) : W encBuffer :=
    match l with
    | [] => mret w
    | v :: l => w ← write v w; each l w
    end.

(** The field loop of the struct writers, over the first [n] fields. *)
Definition eachField (write : gval -> encBuffer -> W encBuffer) :=
  fix eachField (l : list (bool * gval)) (n : nat) (w : encBuffer) : W encBuffer :=
    match l, n with
    | (_, v) :: l, S n => w ← write v w; eachField l n w
    | _, _ => mret w
    end.

(** The writer selected by [makeWriter] for each kind of value. *)
Fixpoint encode (v : gval) (w : encBuffer) {struct v} : W encBuffer :=
  match v with
  | GRaw b => mret (append b w)
  | GBigPtr None => mret (append [128] w)
  | GBigPtr (Some i) | GBig i => writeSignedBig i w
  | GUint i => writeUint64 i w
  | GBool b => mret (writeBool b w)
  | GString s | GBytes s => writeBytes s w
  | GByteArray b => writeByteArray b w
  | GSlice true l => each encode l w
  | GSlice false [] => mret (append [192] w)
  | GSlice false l =>
      let '(listOffset, w) := list_ w in
      w ← each encode l w;
      listEnd listOffset w
  | GStruct firstOptional fields =>
      let '(lh, w) := list_ w in
      w ← eachField encode fields (fieldCount firstOptional (length fields) fields) w;
      listEnd lh w
  | GInterface None => mret (append [192] w)
  | GPtr nilString None => mret (append [if nilString then 128 else 192] w)
  | GInterface (Some v) | GPtr _ (Some v) => encode v w
  end.

(** [EncodeToBytes], with the pooled buffer it starts from. *)
Definition EncodeToBytes (pooled : encBuffer) (v : gval) : W bytes :=
  buf ← encode v (reset pooled);
  makeBytes buf.

(** [EncodeToReader]: the total size and the reader. *)
Definition EncodeToReader (pooled : encBuffer) (v : gval) : W (Z * encReader) :=
  buf ← encode v (reset pooled);
  mret (size buf, mkReader (Some buf) 0 0 None).

(** [Encode] to a writer that is not itself an encoder buffer. *)
Definition Encode {S WE} (write : S -> bytes -> S * (nat * option WE)) (pooled : encBuffer)
    (s : S) (v : gval) : res (encError + WE) S :=
  match encode v (reset pooled) with
  | Ok buf =>
      match writeTo write buf s with
      | Ok (s, None) => Ok s
      | Ok (_, Some e) => Err (inr e)
      | Err e => match e with end
      | Panic => Panic
      | NoFuel => NoFuel
      end
  | Err e => Err (inl e)
  | Panic => Panic
  | NoFuel => NoFuel
  end.

(** A client reading with buffers of the given sizes: the bytes delivered, and after each
    read whether the end was reported. *)
Fixpoint reads (r : encReader) (rooms : list nat) : go (bytes * list bool) :=
  match rooms with
  | [] => mret ([], [])
  | room :: rooms =>
      '(b, eof, r) ← Read r room;
      '(bs, eofs) ← reads r rooms;
      mret (b ++ bs, eof :: eofs)
  end.

(** ** The reference encoding of values *)

Definition concat_map_opt {A} (f : A -> option bytes) : list A -> option bytes :=
  fix go l :=
    match l with
    | [] => Some []
    | x :: l => match f x, go l with Some b, Some c => Some (b ++ c) | _, _ => None end
    end.

(** Same, over the first [n] elements. *)
Definition concat_fields (f : gval -> option bytes) : list (bool * gval) -> nat -> option bytes :=
  fix go l n :=
    match l, n with
    | (_, v) :: l, S n => match f v, go l n with Some b, Some c => Some (b ++ c) | _, _ => None end
    | _, _ => Some []
    end.

(** [None] when the value holds a negative integer, which has no encoding. *)
Fixpoint gspec (v : gval) : option bytes :=
  match v with
  | GRaw b => Some b
  | GBigPtr None => Some (enc (Str []))
  | GBigPtr (Some i) | GBig i => if i <? 0 then None else Some (enc (Str (minbe i)))
  | GUint i => Some (enc (Str (minbe i)))
  | GBool b => Some (enc (Str (if b then [1] else [])))
  | GString b | GBytes b | GByteArray b => Some (enc (Str b))
  | GSlice tail l => (if tail then id else enc_list) <$> concat_map_opt gspec l
  | GStruct firstOptional fields =>
      enc_list <$> concat_fields gspec fields (fieldCount firstOptional (length fields) fields)
  | GInterface None => Some (enc (Lst []))
  | GPtr nilString None => Some (enc (if nilString then Str [] else Lst []))
  | GInterface (Some v) | GPtr _ (Some v) => gspec v
  end.

(** Unsigned integers fit 64 bits. *)
Fixpoint gwf (v : gval) : Prop :=
  match v with
  | GUint i => is_u64 i
  | GSlice _ l => foldr (fun v P => gwf v /\ P) True l
  | GStruct _ l => foldr (fun '(_, v) P => gwf v /\ P) True l
  | GInterface (Some v) | GPtr _ (Some v) => gwf v
  | _ => True
  end.

(** ** Rendering: string data with headers woven in

    [s] is the string data from offset [p] on. *)
Fixpoint render (p : Z) (s : bytes) (hs : list listhead) : bytes :=
  match hs with
  | [] => s
  | h :: hs =>
      let d := Z.to_nat (lh_offset h - p) in
      take d s ++ header 192 247 (lh_size h) ++ render (lh_offset h) (drop d s) hs
  end.

(** Offsets increase and stay within the data; sizes fit an [int]. *)
Fixpoint heads_ok (p : Z) (s : bytes) (hs : list listhead) : Prop :=
  match hs with
  | [] => True
  | h :: hs =>
      p <= lh_offset h <= p + len s /\ 0 <= lh_size h < 2 ^ 63 /\
      heads_ok (lh_offset h) (drop (Z.to_nat (lh_offset h - p)) s) hs
  end.

Lemma render_prefix p s1 s2 hs :
  heads_ok (p + len s1) s2 hs -> render p (s1 ++ s2) hs = s1 ++ render (p + len s1) s2 hs.
Proof.
  destruct hs as [|h hs]; [done|]. intros ((H1 & H2) & _ & _). cbn [render].
  assert (Z.to_nat (lh_offset h - p) = length s1 + Z.to_nat (lh_offset h - (p + len s1)))%nat as ->
    by (unfold len in *; lia).
  by rewrite take_app_add, drop_app_add, <- app_assoc.
Qed.

Lemma heads_ok_prefix p s1 s2 hs : heads_ok (p + len s1) s2 hs -> heads_ok p (s1 ++ s2) hs.
Proof.
  destruct hs as [|h hs]; [done|]. intros ((H1 & H2) & H3 & H4). cbn [heads_ok]. rewrite len_app.
  pose proof (len_nonneg s1). split_and!; [lia|lia|lia|lia|].
  assert (Z.to_nat (lh_offset h - p) = length s1 + Z.to_nat (lh_offset h - (p + len s1)))%nat as ->
    by (unfold len in *; lia).
  by rewrite drop_app_add.
Qed.

Lemma len_drop {A} (l : list A) n : 0 <= n <= len l -> len (drop (Z.to_nat n) l) = len l - n.
Proof. intros. unfold len in *. rewrite length_drop. lia. Qed.

Lemma render_app p s1 s2 hs1 hs2 :
  heads_ok p s1 hs1 -> heads_ok (p + len s1) s2 hs2 ->
  heads_ok p (s1 ++ s2) (hs1 ++ hs2) /\
  render p (s1 ++ s2) (hs1 ++ hs2) = render p s1 hs1 ++ render (p + len s1) s2 hs2.
Proof.
  revert p s1. induction hs1 as [|h hs1 IH]; intros p s1 H1 H2; simpl app.
  - split; [by apply heads_ok_prefix|by apply render_prefix].
  - destruct H1 as ((Ha & Hb) & Hc & Hd).
    assert (Hd' : (Z.to_nat (lh_offset h - p) <= length s1)%nat) by (unfold len in *; lia).
    assert (Hlen : len (drop (Z.to_nat (lh_offset h - p)) s1) = len s1 - (lh_offset h - p))
      by (apply len_drop; lia).
    destruct (IH (lh_offset h) (drop (Z.to_nat (lh_offset h - p)) s1)) as [I1 I2]; [done| |].
    { rewrite Hlen. by replace (lh_offset h + (len s1 - (lh_offset h - p))) with (p + len s1) by lia. }
    rewrite Hlen in I2. replace (lh_offset h + (len s1 - (lh_offset h - p))) with (p + len s1) in I2 by lia.
    cbn [heads_ok render]. rewrite len_app, take_app_le, drop_app_le by lia. pose proof (len_nonneg s2).
    split; [split_and!; [lia..|done]|]. rewrite I2. by rewrite <- !app_assoc.
Qed.

(** [w'] extends [w] by data that renders to [out]. *)
Definition appended (w w' : encBuffer) (out : bytes) : Prop :=
  exists s hs, eb_str w' = eb_str w ++ s /\ eb_lheads w' = eb_lheads w ++ hs /\
    eb_lhsize w' = eb_lhsize w + (len out - len s) /\
    heads_ok (len (eb_str w)) s hs /\ render (len (eb_str w)) s hs = out.

Definition buf_ok (w : encBuffer) : Prop := length (eb_sizebuf w) = 9%nat.

(** [w'] is an extension of [w] with a usable scratch buffer. *)
Definition grows (w w' : encBuffer) : Prop := buf_ok w' /\ eb_lheads w `prefix_of` eb_lheads w'.

Lemma appended_refl w : appended w w [].
Proof. exists [], []. rewrite !app_nil_r, (@len_nil Z). split_and!; try done. lia. Qed.

Lemma appended_trans w1 w2 w3 a b :
  appended w1 w2 a -> appended w2 w3 b -> appended w1 w3 (a ++ b).
Proof.
  intros (s1 & h1 & E1 & F1 & G1 & O1 & R1) (s2 & h2 & E2 & F2 & G2 & O2 & R2).
  exists (s1 ++ s2), (h1 ++ h2). rewrite E1, len_app in O2, R2.
  destruct (render_app _ _ _ _ _ O1 O2) as [O R]. rewrite E2, E1, F2, F1, G2, G1, !len_app, !app_assoc.
  split_and!; [done|done|lia|done|congruence].
Qed.

Lemma appended_data w b : appended w (append b w) b.
Proof. exists b, []. simpl. rewrite app_nil_r. split_and!; try done. lia. Qed.

Lemma grows_refl w : buf_ok w -> grows w w.
Proof. by split. Qed.

Lemma grows_trans w1 w2 w3 : grows w1 w2 -> grows w2 w3 -> grows w1 w3.
Proof. intros [_ H1] [H2 H3]. split; [done|]. by etransitivity. Qed.

Lemma grows_data w b : buf_ok w -> grows w (append b w).
Proof. by split. Qed.

(** What writing a value with reference encoding [o] must do. *)
Definition writes (o : option bytes) (w : encBuffer) (r : W encBuffer) : Prop :=
  match o with
  | Some out => exists w', r = Ok w' /\ grows w w' /\ (len out < 2 ^ 63 -> appended w w' out)
  | None => r = Err ErrNegativeBigInt
  end.

Lemma writes_data b w : buf_ok w -> writes (Some b) w (mret (append b w)).
Proof. intros. exists (append b w). split_and!; [done|by apply grows_data|intros; apply appended_data]. Qed.

Lemma writes_seq o1 o2 w r k :
  writes o1 w r -> (forall w', grows w w' -> writes o2 w' (k w')) ->
  writes (match o1, o2 with Some b, Some c => Some (b ++ c) | _, _ => None end) w (r ≫= k).
Proof.
  intros H1 H2. destruct o1 as [a|]; simpl in *; [|by subst].
  destruct H1 as (w1 & -> & Hg & Ha). simpl. specialize (H2 w1 Hg). destruct o2 as [b|]; [|done].
  destruct H2 as (w2 & -> & Hg2 & Hb). exists w2. split; [done|]. split; [by eapply grows_trans|].
  rewrite len_app. intros Hl. pose proof (len_nonneg a). pose proof (len_nonneg b).
  eapply appended_trans; [apply Ha|apply Hb]; lia.
Qed.

(** ** Headers and strings *)

Lemma putint_bytes_length i : (1 <= length (putint_bytes i) <= 8)%nat.
Proof. unfold putint_bytes. case_tests; simpl; lia. Qed.

Lemma putint_ok {E} b i :
  (8 <= length b)%nat ->
  putint (E:=E) b i = Ok (putint_bytes i ++ drop (length (putint_bytes i)) b, length (putint_bytes i)).
Proof.
  intros Hb. pose proof (putint_bytes_length i). unfold putint, overwrite.
  by rewrite decide_True by lia.
Qed.

Lemma appendTagged_ok tag i w :
  buf_ok w -> exists sb, length sb = 9%nat /\
    appendTagged tag i w =
      Ok (mkBuf (eb_str w ++ u8 (tag + u8 (len (putint_bytes i))) :: putint_bytes i)
            (eb_lheads w) (eb_lhsize w) sb).
Proof.
  intros Hw. unfold buf_ok in Hw. pose proof (putint_bytes_length i). unfold appendTagged.
  destruct (eb_sizebuf w) as [|x sb] eqn:E; [done|]. simpl in Hw. cbn [drop]. rewrite drop_0.
  rewrite putint_ok by lia. cbn [mbind res_bind].
  rewrite store_lt by (simpl; lia). cbn [mbind res_bind]. unfold slice.
  rewrite decide_True by (simpl; rewrite length_app, length_drop; lia). cbn [mbind res_bind].
  eexists. split; [|do 3 f_equal].
  - simpl. rewrite length_app, length_drop. lia.
  - unfold len. rewrite Nat.sub_0_r, Nat.add_1_r. simpl. by rewrite take_app_length.
Qed.

Lemma u8_tag tag n : 0 <= tag -> 0 <= n -> tag + n < 256 -> u8 (tag + u8 n) = tag + n.
Proof. intros. rewrite (u8_small n) by (unfold is_u8; lia). apply u8_small. unfold is_u8. lia. Qed.

Lemma appendTagged_writes tag i w :
  buf_ok w -> exists w', appendTagged tag i w = Ok w' /\ grows w w' /\
    (0 <= tag <= 247 -> 0 < i < 2 ^ 64 -> appended w w' ((tag + len (minbe i)) :: minbe i)).
Proof.
  intros Hw. destruct (appendTagged_ok tag i w Hw) as (sb & Hsb & ->). eexists.
  split; [done|]. split; [by split|]. intros Ht Hi. rewrite putint_minbe by done.
  pose proof (minbe_len i Hi). rewrite u8_tag by lia. eexists _, []. simpl.
  split_and!; [done|by rewrite app_nil_r|lia|done|done].
Qed.

Lemma encodeStringHeader_writes n w :
  0 <= n -> buf_ok w -> exists w', encodeStringHeader n w = Ok w' /\ grows w w' /\
    (n < 2 ^ 63 -> appended w w' (header 128 183 n)).
Proof.
  intros Hn Hw. unfold encodeStringHeader, header. destruct (Z.ltb_spec n 56).
  - rewrite u8_tag by lia. eexists. split; [done|]. split; [by apply grows_data|]. intros. apply appended_data.
  - destruct (appendTagged_writes 183 n w Hw) as (w' & -> & Hg & Ha). exists w'.
    split_and!; [done..|]. intros. apply Ha; lia.
Qed.

(** A string header followed by the bytes of the string. *)
Lemma header_then_data n b w :
  n = len b -> buf_ok w ->
  writes (Some (header 128 183 (len b) ++ b)) w (w ← encodeStringHeader n w; mret (append b w)).
Proof.
  intros -> Hw. destruct (encodeStringHeader_writes (len b) w (len_nonneg b) Hw) as (w1 & -> & Hg & Ha).
  simpl. eexists. split; [done|]. destruct Hg as [Hg1 Hg2].
  split; [by split|]. rewrite len_app. pose proof (len_nonneg (header 128 183 (len b))). intros.
  eapply appended_trans; [apply Ha; lia|apply appended_data].
Qed.

Lemma writeBytes_writes b w : buf_ok w -> writes (Some (enc_string b)) w (writeBytes b w).
Proof.
  intros Hw. unfold writeBytes. destruct b as [|x [|y b]]; [by apply header_then_data| |by apply header_then_data].
  simpl enc_string. destruct (Z.ltb_spec x 128), (Z.leb_spec x 127); try lia.
  - by apply writes_data.
  - by apply (header_then_data 1 [x]).
Qed.

Lemma writeByteArray_writes b w : buf_ok w -> writes (Some (enc_string b)) w (writeByteArray b w).
Proof.
  intros Hw. unfold writeByteArray. destruct b as [|x [|y b]]; [by apply writes_data| |by apply header_then_data].
  simpl enc_string. destruct (Z.ltb_spec x 128), (Z.leb_spec x 127); try lia; by apply writes_data.
Qed.

Lemma writeUint64_writes i w :
  is_u64 i -> buf_ok w -> writes (Some (enc_string (minbe i))) w (writeUint64 i w).
Proof.
  intros Hi Hw. unfold is_u64 in Hi. rewrite <- (app_nil_l (enc_string (minbe i))), <- AppendUint64_enc by done.
  unfold writeUint64. destruct (Z.eqb_spec i 0) as [->|Hne]; [by apply writes_data|].
  destruct (Z.ltb_spec i 128) as [Hlt|Hge].
  { unfold AppendUint64. destruct (Z.eqb_spec i 0); [done|]. destruct (Z.ltb_spec i 128); [|lia].
    by apply writes_data. }
  destruct (appendTagged_writes 128 i w Hw) as (w' & -> & Hg & Ha). exists w'. split_and!; [done..|].
  intros _. assert (AppendUint64 [] i = (128 + len (minbe i)) :: minbe i) as ->; [|apply Ha; lia].
  rewrite <- putint_minbe by lia. unfold AppendUint64, putint_bytes. rewrite Z.shiftr_0_r.
  destruct (Z.eqb_spec i 0); [done|]. destruct (Z.ltb_spec i 128); [lia|]. by case_tests.
Qed.

(** ** Big integers *)

Lemma be_app a b z : be (a + b) z = be a (z / 256 ^ Z.of_nat b) ++ be b z.
Proof.
  revert z. induction b as [|b IH]; intros z.
  - by rewrite Nat.add_0_r, Z.div_1_r, app_nil_r.
  - rewrite Nat.add_succ_r. cbn [be]. rewrite IH, <- app_assoc. do 2 f_equal.
    rewrite Z.div_div by lia. f_equal. replace (Z.of_nat (S b)) with (1 + Z.of_nat b) by lia.
    by rewrite Z.pow_add_r by lia.
Qed.

Lemma be_mod n m z : (n <= m)%nat -> be n (z mod 256 ^ Z.of_nat m) = be n z.
Proof.
  revert m z. induction n as [|n IH]; intros m z Hm; [done|]. destruct m as [|m]; [lia|].
  cbn [be]. replace (Z.of_nat (S m)) with (1 + Z.of_nat m) by lia.
  rewrite Z.pow_add_r, Z.pow_1_r, Z.rem_mul_r by lia.
  pose proof (Z.mod_pos_bound z 256 ltac:(lia)).
  rewrite (Z.add_comm (z mod 256)), (Z.mul_comm 256), div_base, mod_base by lia. by rewrite IH by lia.
Qed.

Lemma wordBytesLoop_be j : forall index d pre done,
  length pre = index ->
  wordBytesLoop j index d (pre ++ done) =
    (index - Nat.min j index, take (index - Nat.min j index) pre ++ be (Nat.min j index) d ++ done)%nat.
Proof.
  induction j as [|j IH]; intros index d pre done Hp.
  - simpl. by rewrite Nat.sub_0_r, take_ge by lia.
  - destruct index as [|index]; [by destruct pre|]. cbn [wordBytesLoop].
    destruct (exists_last (l := pre)) as (pre' & x & ->); [by destruct pre|].
    rewrite length_app, Nat.add_1_r in Hp. injection Hp as Hp.
    rewrite <- app_assoc, insert_app_r_alt, Hp, Nat.sub_diag by lia. simpl app. cbn [insert list_insert].
    rewrite (IH index (Z.shiftr d 8) pre' (u8 d :: done) Hp). cbn [Nat.min Nat.sub be].
    rewrite take_app_le by lia. do 2 f_equal. rewrite Z.shiftr_div_pow2 by lia.
    by rewrite <- app_assoc.
Qed.

Lemma bigLoop_be m : forall n z pre done,
  length pre = n -> (n <= 8 * m)%nat -> bigLoop n (wordsOf m z) (pre ++ done) = be n z ++ done.
Proof.
  induction m as [|m IH]; intros n z pre done Hp Hn.
  - destruct n; [|lia]. by destruct pre.
  - unfold bigLoop. cbn [wordsOf fold_left]. rewrite wordBytesLoop_be by done.
    change (2 ^ 64) with (256 ^ Z.of_nat 8). rewrite be_mod by lia.
    fold (bigLoop (n - Nat.min 8 n) (wordsOf m (z / 256 ^ Z.of_nat 8))
      (take (n - Nat.min 8 n) pre ++ be (Nat.min 8 n) z ++ done)).
    rewrite IH by (rewrite ?length_take; lia). rewrite app_assoc. f_equal.
    destruct (decide (8 <= n)%nat) as [Hge|Hlt].
    + rewrite Nat.min_l by lia. rewrite <- be_app. f_equal. lia.
    + rewrite Nat.min_r, Nat.sub_diag by lia. done.
Qed.

Lemma big_length z :
  0 < z -> Z.shiftr (Z.land (Z.log2 z + 1 + 7) (-8)) 3 = Z.of_nat (nbytes z).
Proof.
  intros Hz. pose proof (Z.log2_nonneg z).
  assert (Z.shiftr (Z.land (Z.log2 z + 1 + 7) (-8)) 3 = Z.shiftr (Z.log2 z + 1 + 7) 3) as ->.
  { rewrite Z.shiftr_land. change (Z.shiftr (-8) 3) with (-1). by rewrite Z.land_m1_r. }
  rewrite Z.shiftr_div_pow2 by lia. unfold nbytes. change (2 ^ 3) with 8.
  replace (Z.log2 z + 1 + 7) with (Z.log2 z + 1 * 8) by lia. rewrite Z.div_add by lia.
  pose proof (Z.div_pos (Z.log2 z) 8). lia.
Qed.

Lemma writeBigInt_writes i w :
  0 <= i -> buf_ok w -> writes (Some (enc_string (minbe i))) w (writeBigInt i w).
Proof.
  intros Hi Hw. unfold writeBigInt. destruct (Z.leb_spec (BitLen i) 64) as [Hs|Hs].
  - assert (i < 2 ^ 64).
    { unfold BitLen in Hs. destruct (Z.eqb_spec i 0); [lia|]. rewrite Z.abs_eq in Hs by lia.
      apply Z.log2_lt_pow2; lia. }
    rewrite Z.abs_eq, u64_small by (unfold is_u64; lia). by apply writeUint64_writes.
  - assert (64 <= Z.log2 i /\ BitLen i = Z.log2 i + 1) as [Hl Hbl].
    { unfold BitLen in *. destruct (Z.eqb_spec i 0); [lia|]. rewrite Z.abs_eq in * by lia. lia. }
    assert (0 < i) as Hpos by (destruct (decide (i = 0)) as [->|]; [simpl in Hl; lia|lia]).
    rewrite Hbl, big_length by done. unfold Bits. rewrite Z.abs_eq, Nat2Z.id, Hbl by lia.
    rewrite <- (app_nil_r (replicate _ 0)), bigLoop_be, app_nil_r.
    + rewrite <- minbe_pos by done.
      assert (enc_string (minbe i) = header 128 183 (len (minbe i)) ++ minbe i) as ->.
      { assert (9 <= length (minbe i))%nat.
        { rewrite minbe_pos, be_length by done. unfold nbytes.
          pose proof (Z.div_le_mono 64 (Z.log2 i) 8 ltac:(lia) Hl) as Hd. change (64 / 8) with 8 in Hd. lia. }
        by destruct (minbe i) as [|x [|y c]]; [simpl in *; lia..|]. }
      apply header_then_data; [|done]. unfold len. by rewrite minbe_pos, be_length.
    + apply length_replicate.
    + unfold nbytes. pose proof (Z.div_mod (Z.log2 i) 8 ltac:(lia)).
      pose proof (Z.mod_pos_bound (Z.log2 i) 8 ltac:(lia)).
      pose proof (Z.div_mod (Z.log2 i + 1 + 63) 64 ltac:(lia)).
      pose proof (Z.mod_pos_bound (Z.log2 i + 1 + 63) 64 ltac:(lia)). lia.
Qed.

(** ** Lists *)

Lemma header_headsize n : 0 <= n < 2 ^ 63 -> len (header 192 247 n) = headsize n.
Proof.
  intros Hn. unfold header, headsize. destruct (Z.ltb_spec n 56); [done|].
  rewrite len_cons, intsize_nbytes, minbe_pos by lia. unfold len. by rewrite be_length.
Qed.

(** The content written between [list] and [listEnd] becomes the payload of a list. *)
Lemma list_writes o w (k : encBuffer -> W encBuffer) :
  buf_ok w -> (forall w', buf_ok w' -> writes o w' (k w')) ->
  writes (enc_list <$> o) w (let '(ix, w) := list_ w in w ← k w; listEnd ix w).
Proof.
  intros Hw Hk. unfold list_. cbn zeta iota. set (w1 := mkBuf _ _ _ _).
  specialize (Hk w1 Hw). destruct o as [out|]; simpl in *; [|by rewrite Hk].
  destruct Hk as (w2 & -> & [Hb2 [hs2 Hg2]] & Ha). simpl. unfold listEnd, index.
  rewrite Hg2. simpl. rewrite <- app_assoc. simpl app. rewrite list_lookup_middle by done. simpl.
  rewrite store_lt by (rewrite length_app; simpl; lia). simpl. eexists. split; [done|].
  rewrite insert_app_r_alt, Nat.sub_diag by lia. simpl. split; [split; [done|by eexists]|].
  intros Hl. pose proof (len_nonneg (header 192 247 (len out))) as Hh. unfold enc_list in Hl.
  rewrite len_app in Hl. destruct Ha as (s & hs & E & F & G & O & R); [lia|].
  unfold w1 in *. simpl in *. rewrite <- app_assoc in F.
  rewrite Hg2 in F. rewrite <- app_assoc in F. apply app_inv_head in F. simpl in F. injection F as <-.
  pose proof (len_nonneg out) as Ho.
  assert (Hsz : size w2 - len (eb_str w) - eb_lhsize w = len out).
  { unfold size. rewrite E, G, len_app. lia. }
  exists s, (mkHead (len (eb_str w)) (len out) :: hs2). simpl. rewrite Hsz, E, Z.sub_diag. simpl.
  pose proof (len_nonneg s). split_and!; try done; try lia.
  - rewrite G, u64_small by (unfold is_u64; lia). unfold enc_list. rewrite len_app, header_headsize by lia.
    unfold headsize. case_tests; lia.
  - unfold enc_list. change (Z.to_nat 0) with 0%nat. by rewrite drop_0, R.
Qed.

Lemma each_writes l : forall w,
  Forall (fun v => forall w, buf_ok w -> writes (gspec v) w (encode v w)) l ->
  buf_ok w -> writes (concat_map_opt gspec l) w (each encode l w).
Proof.
  induction l as [|v l IH]; intros w Hl Hw; simpl.
  - exists w. split_and!; [done|by apply grows_refl|intros; apply appended_refl].
  - inversion Hl; subst. apply writes_seq; [by auto|]. intros w' [? _]. by apply IH.
Qed.

Lemma eachField_writes l : forall n w,
  Forall (fun bv => forall w, buf_ok w -> writes (gspec bv.2) w (encode bv.2 w)) l ->
  buf_ok w -> writes (concat_fields gspec l n) w (eachField encode l n w).
Proof.
  assert (Hnil : forall w, buf_ok w -> writes (Some []) w (mret w)).
  { intros w Hw. exists w. split_and!; [done|by apply grows_refl|intros; apply appended_refl]. }
  induction l as [|[b v] l IH]; intros n w Hl Hw; [by apply Hnil|].
  destruct n as [|n]; [by apply Hnil|]. simpl. inversion Hl; subst.
  apply writes_seq; [by auto|]. intros w' [? _]. by apply IH.
Qed.

(** Induction on values through lists, fields and pointers. *)
Section gval_ind.
Context (P : gval -> Prop)
  (Hraw : forall b, P (GRaw b)) (Hbp : forall i, P (GBigPtr i)) (Hbig : forall i, P (GBig i))
  (Huint : forall i, P (GUint i)) (Hbool : forall b, P (GBool b)) (Hstr : forall s, P (GString s))
  (Hbytes : forall b, P (GBytes b)) (Harr : forall b, P (GByteArray b))
  (Hslice : forall t l, Forall P l -> P (GSlice t l))
  (Hstruct : forall f l, Forall (fun bv => P bv.2) l -> P (GStruct f l))
  (Hin : P (GInterface None)) (His : forall v, P v -> P (GInterface (Some v)))
  (Hpn : forall b, P (GPtr b None)) (Hps : forall b v, P v -> P (GPtr b (Some v))).
Fixpoint gval_ind' (v : gval) : P v :=
  match v with
  | GRaw b => Hraw b | GBigPtr i => Hbp i | GBig i => Hbig i | GUint i => Huint i
  | GBool b => Hbool b | GString s => Hstr s | GBytes b => Hbytes b | GByteArray b => Harr b
  | GSlice t l => Hslice t l ((fix all l : Forall P l :=
      match l with [] => Forall_nil_2 P | v :: l => Forall_cons_2 P v l (gval_ind' v) (all l) end) l)
  | GStruct f l => Hstruct f l ((fix all l : Forall (fun bv => P bv.2) l :=
      match l with
      | [] => Forall_nil_2 _
      | bv :: l => Forall_cons_2 (fun bv => P bv.2) bv l (gval_ind' bv.2) (all l)
      end) l)
  | GInterface None => Hin | GInterface (Some v) => His v (gval_ind' v)
  | GPtr b None => Hpn b | GPtr b (Some v) => Hps b v (gval_ind' v)
  end.
End gval_ind.

Lemma gwf_slice t l : gwf (GSlice t l) -> Forall gwf l.
Proof. simpl. induction l; simpl; [constructor|]. intros [? ?]. constructor; auto. Qed.

Lemma gwf_struct f l : gwf (GStruct f l) -> Forall (fun bv => gwf bv.2) l.
Proof. simpl. induction l as [|[b v] l IH]; simpl; [constructor|]. intros [? ?]. constructor; auto. Qed.

(** Every writer produces the reference encoding of its value. *)
Lemma encode_writes v : gwf v -> forall w, buf_ok w -> writes (gspec v) w (encode v w).
Proof.
  induction v as [b|i|i|i|b|s|b|b|t l IH|f l IH| |v IH|b|b v IH] using gval_ind'; intros Hwf w Hw.
  - by apply writes_data.
  - destruct i as [i|]; [|by apply writes_data]. simpl. unfold writeSignedBig.
    destruct (Z.ltb_spec i 0); [done|by apply writeBigInt_writes].
  - simpl. unfold writeSignedBig. destruct (Z.ltb_spec i 0); [done|by apply writeBigInt_writes].
  - by apply writeUint64_writes.
  - simpl. unfold writeBool. destruct b; by apply writes_data.
  - by apply writeBytes_writes.
  - by apply writeBytes_writes.
  - by apply writeByteArray_writes.
  - apply gwf_slice in Hwf. pose proof (proj2 (Forall_and _ _) (conj Hwf IH)) as Hl.
    assert (He : forall w, buf_ok w -> writes (concat_map_opt gspec l) w (each encode l w)).
    { intros. apply each_writes; [|done]. eapply Forall_impl; [exact Hl|]. simpl. intros v [? ?]. auto. }
    simpl. destruct t.
    + rewrite option_fmap_id. by apply He.
    + destruct l as [|v l]; [by apply writes_data|]. by apply list_writes.
  - apply gwf_struct in Hwf. pose proof (proj2 (Forall_and _ _) (conj Hwf IH)) as Hl. simpl.
    apply (list_writes _ w (eachField encode l (fieldCount f (length l) l))); [done|].
    intros. apply eachField_writes; [|done]. eapply Forall_impl; [exact Hl|]. simpl. intros v [? ?]. auto.
  - by apply writes_data.
  - by apply IH.
  - simpl. destruct b; by apply writes_data.
  - by apply IH.
Qed.

(** ** Weaving the headers into the output *)

Lemma header_length_le9 n : 0 <= n < 2 ^ 63 -> (length (header 192 247 n) <= 9)%nat.
Proof. intros. pose proof (header_len 192 247 n). unfold len in *. lia. Qed.

Lemma puthead_ok {E} buf n :
  0 <= n < 2 ^ 63 -> (length (header 192 247 n) <= length buf)%nat ->
  puthead (E:=E) buf 192 247 (u64 n) =
    Ok (header 192 247 n ++ drop (length (header 192 247 n)) buf, length (header 192 247 n)).
Proof.
  intros Hn Hl. rewrite u64_small by (unfold is_u64; lia). unfold puthead, header, overwrite in *.
  destruct (Z.ltb_spec n 56).
  - rewrite u8_tag by lia. simpl in *. rewrite decide_True by lia. done.
  - pose proof (minbe_len n ltac:(lia)). destruct buf as [|x buf]; [simpl in Hl; lia|]. simpl in Hl.
    unfold slice. rewrite decide_True by (simpl; lia). cbn [mbind res_bind drop].
    rewrite drop_0. replace (length (x :: buf) - 1)%nat with (length buf) by (simpl; lia).
    rewrite take_ge by lia. unfold putint, overwrite. rewrite putint_minbe by lia.
    rewrite decide_True by lia. cbn [mbind res_bind mret res_ret]. simpl. rewrite u8_tag by (unfold len in *; lia). 
    by rewrite drop_0.
Qed.

Lemma copyAt_full {E} out rest src :
  (length src <= length rest)%nat ->
  copyAt (E:=E) (out ++ rest) (length out) src =
    Ok (length src, (out ++ src) ++ drop (length src) rest).
Proof.
  intros Hl. unfold copyAt. rewrite length_app, decide_True by lia.
  replace (Nat.min (length out + length rest - length out) (length src)) with (length src) by lia.
  by rewrite take_app_length, (take_ge src), drop_app_add, app_assoc by lia.
Qed.

Lemma encodeAt_ok {E} h out rest :
  0 <= lh_size h < 2 ^ 63 -> (length (header 192 247 (lh_size h)) <= length rest)%nat ->
  encodeAt (E:=E) h (out ++ rest) (length out) =
    Ok (length (header 192 247 (lh_size h)),
        (out ++ header 192 247 (lh_size h)) ++ drop (length (header 192 247 (lh_size h))) rest).
Proof.
  intros Hs Hl. unfold encodeAt, slice. rewrite length_app, decide_True by lia. cbn [mbind res_bind].
  rewrite drop_app_length, (take_ge rest) by lia. rewrite puthead_ok by done. simpl.
  by rewrite take_app_length, app_assoc.
Qed.

Lemma copyLoop_render {E} str hs : forall p out rest,
  (p <= length str)%nat -> heads_ok (Z.of_nat p) (drop p str) hs ->
  length rest = length (render (Z.of_nat p) (drop p str) hs) ->
  copyLoop (E:=E) str hs p (length out) (out ++ rest) = Ok (out ++ render (Z.of_nat p) (drop p str) hs).
Proof.
  induction hs as [|h hs IH]; intros p out rest Hp Hok Hl; cbn [copyLoop render heads_ok] in *.
  - rewrite slice_ok by lia. cbn [mbind res_bind]. rewrite take_ge by (rewrite length_drop; lia).
    rewrite copyAt_full by lia. simpl. by rewrite (drop_ge rest), app_nil_r by lia.
  - destruct Hok as ((H1 & H2) & H3 & H4). unfold len in H2. rewrite length_drop in H2.
    set (d := Z.to_nat (lh_offset h - Z.of_nat p)) in *. rewrite !length_app in Hl.
    assert (Hd : (d <= length str - p)%nat) by (unfold d; lia).
    assert (Z.to_nat (lh_offset h) = p + d)%nat as Ho by (unfold d; lia).
    rewrite slice_ok by lia. cbn [mbind res_bind]. replace (Z.to_nat (lh_offset h) - p)%nat with d by lia.
    rewrite copyAt_full by lia. cbn [mbind res_bind].
    assert (Ht : length (take d (drop p str)) = d) by (rewrite length_take, length_drop; lia).
    replace (length out + length (take d (drop p str)))%nat with (length (out ++ take d (drop p str)))
      by (rewrite length_app; done).
    rewrite encodeAt_ok by (rewrite ?length_drop; lia). cbn [mbind res_bind].
    rewrite <- length_app, Ht, drop_drop.
    assert (Hdd : drop d (drop p str) = drop (p + d) str) by (by rewrite drop_drop).
    assert (Hzo : lh_offset h = Z.of_nat (p + d)) by lia. rewrite Hzo, Hdd in *.
    rewrite IH; [|lia|done|rewrite length_drop; lia]. by rewrite <- !app_assoc.
Qed.

(** A complete buffer: the headers are in place and the sizes agree. *)
Definition complete (w : encBuffer) (out : bytes) : Prop :=
  heads_ok 0 (eb_str w) (eb_lheads w) /\ render 0 (eb_str w) (eb_lheads w) = out /\ size w = len out.

Lemma appended_complete w w' out : appended (reset w) w' out -> complete w' out.
Proof.
  intros (s & hs & E & F & G & O & R). simpl in *. rewrite (@len_nil Z) in *. unfold complete, size.
  rewrite E, F, G. split_and!; [done..|]. simpl. lia.
Qed.

Lemma copyTo_complete {E} w out dst :
  complete w out -> length dst = length out -> copyTo (E:=E) w dst = Ok out.
Proof.
  intros (Ho & Hr & _) Hd. unfold copyTo.
  pose proof (copyLoop_render (E:=E) (eb_str w) (eb_lheads w) 0 [] dst) as H. rewrite drop_0 in H.
  change (Z.of_nat 0) with 0 in H. rewrite Hr in H. apply H; [lia|done|done].
Qed.

Lemma makeBytes_complete {E} w out : complete w out -> makeBytes (E:=E) w = Ok out.
Proof.
  intros Hc. apply copyTo_complete; [done|]. destruct Hc as (_ & _ & ->).
  rewrite length_replicate. unfold len. lia.
Qed.



(** ** Reading the output in pieces *)

(** What a reader still has to deliver. *)
Definition remaining (r : encReader) : bytes :=
  match er_buf r with
  | None => []
  | Some buf =>
      default [] (er_piece r) ++
      render (Z.of_nat (er_strpos r)) (drop (er_strpos r) (eb_str buf)) (drop (er_lhpos r) (eb_lheads buf))
  end.

Definition reader_ok (r : encReader) : Prop :=
  match er_buf r with
  | None => True
  | Some buf =>
      buf_ok buf /\ (er_strpos r <= length (eb_str buf))%nat /\ er_piece r <> Some [] /\
      heads_ok (Z.of_nat (er_strpos r)) (drop (er_strpos r) (eb_str buf)) (drop (er_lhpos r) (eb_lheads buf))
  end.

(** The fuel of [Read] covers what is left. *)
Definition reader_fuelled (r : encReader) : Prop := (length (remaining r) < readFuel r)%nat.

Definition set_piece (p : option bytes) (r : encReader) : encReader :=
  mkReader (er_buf r) (er_lhpos r) (er_strpos r) p.

Lemma header_cons n : exists x l, header 192 247 n = x :: l.
Proof. unfold header. case_tests; eauto. Qed.

(** One piece: it is a non-empty prefix of what remains, and the fuel is not affected. *)
Definition next_ok (r : encReader) : Prop :=
  (next r = Ok (None, r) /\ remaining r = []) \/
  exists p r', next r = Ok (Some p, r') /\ p <> [] /\ reader_ok (set_piece None r') /\
    readFuel r' = readFuel r /\ is_Some (er_buf r') /\ remaining r = p ++ remaining (set_piece None r').

Lemma next_string buf lhpos strpos h :
  reader_ok (mkReader (Some buf) lhpos strpos None) -> eb_lheads buf !! lhpos = Some h ->
  0 < lh_offset h - Z.of_nat strpos -> next_ok (mkReader (Some buf) lhpos strpos None).
Proof.
  intros (Hb & Hs & _ & Hh) Eh Hlt. simpl in *. right. unfold next, remaining. simpl. rewrite Eh.
  destruct (Z.ltb_spec 0 (lh_offset h - Z.of_nat strpos)); [|lia].
  rewrite (drop_S _ _ _ Eh) in *. cbn [render heads_ok] in *. destruct Hh as ((H1 & H2) & H3 & H4).
  unfold len in H2. rewrite length_drop in H2. rewrite slice_ok by lia. simpl. do 2 eexists. split; [done|].
  assert (Z.to_nat (lh_offset h) - strpos = Z.to_nat (lh_offset h - Z.of_nat strpos))%nat as -> by lia.
  set (d := Z.to_nat (lh_offset h - Z.of_nat strpos)) in *. simpl.
  assert (Hd : drop d (drop strpos (eb_str buf)) = drop (strpos + d) (eb_str buf)) by (by rewrite drop_drop).
  assert (Ho : Z.of_nat (strpos + d) = lh_offset h) by (unfold d; lia).
  rewrite Ho, (drop_S _ _ _ Eh), <- Hd. simpl. rewrite Z.sub_diag. simpl. rewrite drop_0.
  split_and!; try done.
  - intros E%(f_equal length). rewrite length_take, length_drop in E. simpl in E. unfold d in E. lia.
  - unfold reader_ok. simpl. rewrite Ho, (drop_S _ _ _ Eh), <- Hd. simpl.
    rewrite Z.sub_diag. simpl. rewrite drop_0.
    pose proof (len_nonneg (drop d (drop strpos (eb_str buf)))). split_and!; try done; first [lia|unfold d; lia].
Qed.

Lemma next_header buf lhpos strpos h :
  reader_ok (mkReader (Some buf) lhpos strpos None) -> eb_lheads buf !! lhpos = Some h ->
  lh_offset h - Z.of_nat strpos <= 0 -> next_ok (mkReader (Some buf) lhpos strpos None).
Proof.
  intros (Hb & Hs & _ & Hh) Eh Hle. simpl in *. right. unfold next, remaining. simpl. rewrite Eh.
  destruct (Z.ltb_spec 0 (lh_offset h - Z.of_nat strpos)); [lia|].
  rewrite (drop_S _ _ _ Eh) in *. cbn [render heads_ok] in *. destruct Hh as ((H1 & H2) & H3 & H4).
  assert (lh_offset h = Z.of_nat strpos) as Ho by lia. rewrite Ho, Z.sub_diag in *.
  change (Z.to_nat 0) with 0%nat in *. rewrite drop_0 in H4.
  rewrite puthead_ok by (try done; rewrite Hb; by apply header_length_le9). simpl. do 2 eexists. split; [done|].
  rewrite take_app_length, drop_0, Nat.add_1_r. simpl. split_and!; try done.
  - destruct (header_cons (lh_size h)) as (x & l & ->). done.
  - unfold reader_ok, buf_ok in *. simpl. split_and!; try done.
    rewrite length_app, length_drop, Hb. pose proof (header_length_le9 (lh_size h) H3). lia.
Qed.

Lemma next_tail buf lhpos strpos :
  reader_ok (mkReader (Some buf) lhpos strpos None) -> eb_lheads buf !! lhpos = None ->
  next_ok (mkReader (Some buf) lhpos strpos None).
Proof.
  intros (Hb & Hs & _ & Hh) Eh. simpl in *. unfold next_ok, next, remaining. simpl. rewrite Eh.
  apply lookup_ge_None in Eh. rewrite (drop_ge (eb_lheads buf)) by done. simpl. destruct (decide (strpos < length (eb_str buf))%nat).
  - right. rewrite slice_ok by lia. simpl. do 2 eexists. split; [done|].
    rewrite (take_ge (drop strpos (eb_str buf))) by (rewrite length_drop; lia). simpl. rewrite (drop_ge (eb_lheads buf)) by done.
    simpl. split_and!; try done.
    + intros E%(f_equal length). rewrite length_drop in E. simpl in E. lia.
    + unfold reader_ok. simpl. rewrite (drop_ge (eb_lheads buf)) by done. done.
    + by rewrite drop_all, app_nil_r.
  - left. split; [done|]. by rewrite drop_ge by lia.
Qed.

Lemma next_spec r : reader_ok r -> next_ok r.
Proof.
  destruct r as [[buf|] lhpos strpos piece]; intros Hr; [|by left].
  destruct piece as [p|].
  - right. destruct Hr as (Hb & Hs & Hp & Hh). exists p. eexists. split; [done|]. simpl in *.
    split_and!; try done. congruence.
  - destruct (eb_lheads buf !! lhpos) as [h|] eqn:Eh; [|by apply next_tail].
    destruct (decide (0 < lh_offset h - Z.of_nat strpos)); [by eapply next_string|].
    eapply next_header; [done..|lia].
Qed.

Lemma readLoop_spec fuel : forall r room got,
  reader_ok r -> (length (remaining r) < fuel)%nat ->
  exists r', readLoop fuel r room got =
      Ok (got ++ take room (remaining r), bool_decide (length (remaining r) <= room)%nat, r') /\
    reader_ok r' /\ remaining r' = drop room (remaining r) /\
    (reader_fuelled r -> reader_fuelled r').
Proof.
  induction fuel as [|fuel IH]; intros r room got Hr Hf; [lia|]. cbn [readLoop].
  destruct (next_spec r Hr) as [[-> Er]|(p & r1 & -> & Hp & Hr1 & Hfu & [b Hb] & Er)]; simpl.
  - eexists. rewrite Er, take_nil, drop_nil, app_nil_r. split; [done|].
    split_and!; try done. intros _. unfold reader_fuelled, readFuel. simpl. lia.
  - rewrite Er in *. rewrite length_app in *.
    assert (0 < length p)%nat by (destruct p; [done|simpl; lia]). destruct (decide (_ < length p)%nat) as [Hlt|Hge].
    + rewrite bool_decide_false by lia. replace (Nat.min room (length p)) with room by lia.
      eexists. split; [by rewrite take_app_le by lia|]. split_and!.
      * unfold reader_ok in *. simpl in *. rewrite Hb in *. destruct Hr1 as (? & ? & _ & ?). split_and!; try done.
        intros [= E]. apply (f_equal length) in E. rewrite length_drop in E. simpl in E. lia.
      * unfold remaining. simpl. rewrite Hb. by rewrite drop_app_le by lia.
      * unfold reader_fuelled. rewrite Er, length_app. unfold remaining, readFuel in *. simpl. rewrite Hb in *.
        rewrite length_app, length_drop. lia.
    + assert (Nat.min room (length p) = length p) as -> by lia.
      destruct (IH (set_piece None r1) (room - length p)%nat (got ++ p) Hr1) as (r' & E & Hr' & Hrem & Hfu'); [lia|].
      fold (set_piece None r1). rewrite E. exists r'. split.
      * rewrite <- app_assoc, take_app_ge by lia. do 3 f_equal. apply bool_decide_ext. lia.
      * split_and!; [done| |].
        -- by rewrite Hrem, drop_app_ge by lia.
        -- unfold reader_fuelled. rewrite Er, length_app. intros Hx. apply Hfu'. unfold reader_fuelled.
           change (readFuel (set_piece None r1)) with (readFuel r1). lia.
Qed.

Lemma reads_spec rooms : forall r,
  reader_ok r -> reader_fuelled r ->
  exists eofs, reads r rooms = Ok (take (sum_list rooms) (remaining r), eofs) /\
    length eofs = length rooms /\
    forall i, (i < length rooms)%nat ->
      eofs !! i = Some (bool_decide (length (remaining r) <= sum_list (take (S i) rooms))%nat).
Proof.
  induction rooms as [|room rooms IH]; intros r Hr Hf.
  - exists []. simpl. split_and!; [done|done|]. lia.
  - cbn [reads]. unfold Read.
    destruct (readLoop_spec (readFuel r) r room [] Hr Hf) as (r1 & -> & Hr1 & Hrem & Hf1). simpl.
    destruct (IH r1 Hr1 (Hf1 Hf)) as (eofs & -> & Hl & He). simpl.
    exists (bool_decide (length (remaining r) <= room)%nat :: eofs).
    split_and!; [by rewrite Hrem, take_take_drop|by simpl; rewrite Hl|].
    intros [|i] Hi; simpl; [by rewrite Nat.add_0_r|]. rewrite He by lia. f_equal.
    apply bool_decide_ext. rewrite Hrem, length_drop. lia.
Qed.

Lemma complete_reader w out :
  complete w out -> buf_ok w ->
  reader_ok (mkReader (Some w) 0 0 None) /\ reader_fuelled (mkReader (Some w) 0 0 None) /\
  remaining (mkReader (Some w) 0 0 None) = out.
Proof.
  intros (Ho & Hr & Hs) Hw. unfold reader_ok, reader_fuelled, readFuel, remaining. simpl. rewrite !drop_0.
  change (Z.of_nat 0) with 0. rewrite Hr, Hs. unfold len. split_and!; try done; lia.
Qed.

(** Reading the encoding piecewise delivers the encoding: the reported size is its
    length, and reads with buffers of any sizes, in any number, together deliver exactly
    the first bytes of it, as many as the buffers have room for; a read reports the end
    exactly when everything has been delivered.  No read panics or loops forever. *)
Theorem EncodeToReader_correct (pooled : encBuffer) (v : gval) (out : bytes) (rooms : list nat) :
  length (eb_sizebuf pooled) = 9%nat -> gwf v -> gspec v = Some out -> len out < 2 ^ 63 ->
  exists r eofs, EncodeToReader pooled v = Ok (len out, r) /\
    reads r rooms = Ok (take (sum_list rooms) out, eofs) /\
    forall i, (i < length rooms)%nat ->
      eofs !! i = Some (bool_decide (length out <= sum_list (take (S i) rooms))%nat).
Proof.
  intros Hb Hv Hs Hl. pose proof (encode_writes v Hv (reset pooled) Hb) as H. rewrite Hs in H.
  destruct H as (w & E & [Hw _] & Ha). pose proof (appended_complete _ _ _ (Ha Hl)) as Hc.
  destruct (complete_reader w out Hc Hw) as (Hr & Hf & Hrem).
  destruct (reads_spec rooms _ Hr Hf) as (eofs & Er & _ & He). rewrite Hrem in Er, He.
  unfold EncodeToReader. rewrite E. simpl. destruct Hc as (_ & _ & ->). eauto.
Qed.

Lemma EncodeToReader_correct_witness :
  exists r eofs, EncodeToReader (mkBuf [] [] 0 (replicate 9 0)) (GSlice false [GUint 5; GBytes [1; 2]]) = Ok (5, r) /\
    reads r [2; 1; 4]%nat = Ok ([196; 5; 130; 1; 2], eofs) /\
    forall i, (i < 3)%nat ->
      eofs !! i = Some (bool_decide (5 <= sum_list (take (S i) [2; 1; 4]))%nat).
Proof.
  apply (EncodeToReader_correct (mkBuf [] [] 0 (replicate 9 0)) (GSlice false [GUint 5; GBytes [1; 2]])
    [196; 5; 130; 1; 2] [2; 1; 4]%nat).
  - reflexivity.
  - simpl. unfold is_u64. lia.
  - reflexivity.
  - vm_compute. reflexivity.
Defined.

(** ** Writing the output *)

Section sink.
Context {S WE : Type} (write : S -> bytes -> S * (nat * option WE)) (contents : S -> bytes).

(** A destination that takes everything it is given and never fails. *)
Hypothesis write_all : forall s b, exists s', write s b = (s', (length b, None)) /\ contents s' = contents s ++ b.

Lemma writeHeads_render str hs : forall p sb s,
  length sb = 9%nat -> (p <= length str)%nat -> heads_ok (Z.of_nat p) (drop p str) hs ->
  exists s' p', writeHeads write str hs p sb s = Ok (s', (p', None)) /\ (p' <= length str)%nat /\
    contents s' ++ drop p' str = contents s ++ render (Z.of_nat p) (drop p str) hs.
Proof.
  induction hs as [|h hs IH]; intros p sb s Hsb Hp Hok; cbn [writeHeads render heads_ok] in *; [by eauto|].
  destruct Hok as ((H1 & H2) & H3 & H4). unfold len in H2. rewrite length_drop in H2.
  set (d := Z.to_nat (lh_offset h - Z.of_nat p)) in *.
  assert (Hdd : drop d (drop p str) = drop (p + d) str) by (by rewrite drop_drop).
  assert (Hzo : lh_offset h = Z.of_nat (p + d)) by lia.
  pose proof (header_length_le9 (lh_size h) H3).
  assert (Hhead : forall s, exists s' p',
    ('(buf, n) ← puthead sb 192 247 (u64 (lh_size h));
     let '(s, (_, e)) := write s (take n buf) in
     match e with
     | Some e => mret (s, ((p + d)%nat, Some e))
     | None => writeHeads write str hs (p + d) buf s
     end) = Ok (s', (p', None)) /\ (p' <= length str)%nat /\
    contents s' ++ drop p' str = contents s ++ header 192 247 (lh_size h) ++ render (lh_offset h) (drop d (drop p str)) hs).
  { intros s0. rewrite puthead_ok by lia. cbn [mbind res_bind]. rewrite take_app_length.
    destruct (write_all s0 (header 192 247 (lh_size h))) as (s1 & -> & Hc).
    rewrite Hzo, Hdd in *. destruct (IH (p + d)%nat
      (header 192 247 (lh_size h) ++ drop (length (header 192 247 (lh_size h))) sb) s1) as (s' & p' & E & Hp' & Ec);
      [rewrite length_app, length_drop; lia|lia|done|].
    exists s', p'. split; [done|]. split; [done|]. by rewrite Ec, Hc, <- app_assoc. }
  destruct (Z.ltb_spec 0 (lh_offset h - Z.of_nat p)).
  - rewrite slice_ok by lia. cbn [mbind res_bind]. replace (Z.to_nat (lh_offset h) - p)%nat with d by lia.
    destruct (write_all s (take d (drop p str))) as (s1 & -> & Hc).
    rewrite length_take, length_drop, Nat.min_l by lia.
    destruct (Hhead s1) as (s' & p' & E & Hp' & Ec). exists s', p'. split; [exact E|]. split; [done|].
    by rewrite Ec, Hc, <- app_assoc.
  - assert (d = 0)%nat as Hd0 by lia. rewrite Hd0, Nat.add_0_r in Hhead. rewrite Hd0. simpl app. apply Hhead.
Qed.

Lemma writeTo_render w out s :
  complete w out -> buf_ok w ->
  exists s', writeTo write w s = Ok (s', None) /\ contents s' = contents s ++ out.
Proof.
  intros (Ho & Hr & _) Hw. unfold writeTo.
  destruct (writeHeads_render (eb_str w) (eb_lheads w) 0 (eb_sizebuf w) s Hw) as (s1 & p & -> & Hp & Ec); [lia|done|].
  rewrite drop_0 in Ec. change (Z.of_nat 0) with 0 in Ec. rewrite Hr in Ec. cbn [mbind res_bind].
  destruct (decide (p < length (eb_str w))%nat).
  - rewrite slice_ok by lia. cbn [mbind res_bind]. rewrite take_ge by (rewrite length_drop; lia).
    destruct (write_all s1 (drop p (eb_str w))) as (s2 & -> & Hc). exists s2. split; [done|]. congruence.
  - rewrite drop_ge, app_nil_r in Ec by lia. eauto.
Qed.

(** Encoding to a writer hands the writer exactly the reference encoding, in order,
    when the writer takes what it is given; nothing is written when the value has no
    encoding. *)
Theorem Encode_correct (pooled : encBuffer) (s : S) (v : gval) :
  length (eb_sizebuf pooled) = 9%nat -> gwf v ->
  match gspec v with
  | Some out => len out < 2 ^ 63 ->
      exists s', Encode write pooled s v = Ok s' /\ contents s' = contents s ++ out
  | None => Encode write pooled s v = Err (inl ErrNegativeBigInt)
  end.
Proof.
  intros Hb Hv. pose proof (encode_writes v Hv (reset pooled) Hb) as H. unfold Encode.
  destruct (gspec v) as [out|]; simpl in H; [|by rewrite H].
  intros Hl. destruct H as (w & -> & [Hw _] & Ha).
  destruct (writeTo_render w out s) as (s' & -> & Hc); [by apply (appended_complete pooled), Ha|done|]. eauto.
Qed.
End sink.

Lemma Encode_correct_witness :
  exists s', Encode (fun s b => (s ++ b, (length b, @None unit))) (mkBuf [] [] 0 (replicate 9 0)) [7]
      (GSlice false [GUint 5; GBytes [1; 2]]) = Ok s' /\ s' = [7; 196; 5; 130; 1; 2].
Proof.
  apply (Encode_correct (fun s b => (s ++ b, (length b, @None unit))) (fun s => s)
    (fun s b => ex_intro _ (s ++ b) (conj eq_refl eq_refl)) (mkBuf [] [] 0 (replicate 9 0)) [7]
    (GSlice false [GUint 5; GBytes [1; 2]])).
  - reflexivity.
  - simpl. unfold is_u64. lia.
  - vm_compute. reflexivity.
Defined.

End EncBuffer.
