(* ===== verification/AccountKey.v ===== *)
(** * Account keys

    The package [blockchain/types/accountkey]: the six kinds of keys of an account, the
    validation of recovered signatures against them, the checks that a key can be installed or
    updated, and the update of an account's key ([AccountCommon.UpdateKey]).  The compression
    of curve points, the address of a public key and the fork schedule are parameters. *)

From S2P Require Import Prelude Rlp.

Module AccountKey.
Import RLP.

(** ** Data *)

(** [PublicKeySerializable], [WeightedPublicKey]. *)
Record PublicKey := mkPub { pk_X : Z; pk_Y : Z }.
Record WeightedPublicKey := mkWeighted { wk_Weight : Z; wk_Key : PublicKey }.
#[export] Instance PublicKey_eq_dec : EqDecision PublicKey.
Proof. solve_decision. Defined.
#[export] Instance WeightedPublicKey_eq_dec : EqDecision WeightedPublicKey.
Proof. solve_decision. Defined.

(** The implementations of [AccountKey]. *)
Inductive AccountKey :=
| AccountKeyNil
| AccountKeyLegacy
| AccountKeyPublic (pk : PublicKey)
| AccountKeyFail
| AccountKeyWeightedMultiSig (Threshold : Z) (Keys : list WeightedPublicKey)
| AccountKeyRoleBased (keys : list AccountKey).

(** [AccountKeyType]. *)
Definition Type_ (k : AccountKey) : Z :=
  match k with
  | AccountKeyNil => 0
  | AccountKeyLegacy => 1
  | AccountKeyPublic _ => 2
  | AccountKeyFail => 3
  | AccountKeyWeightedMultiSig _ _ => 4
  | AccountKeyRoleBased _ => 5
  end.
Definition IsCompositeType (k : AccountKey) : bool :=
  match k with AccountKeyRoleBased _ => true | _ => false end.

(** [RoleType]. *)
Definition RoleTransaction := 0%nat.
Definition RoleAccountUpdate := 1%nat.
Definition RoleFeePayer := 2%nat.
Definition RoleLast := 3%nat.

Definition MaxNumKeysForMultiSig := 10.
Definition TxAccountCreationGasPerKey := 20000.
Definition TxValidationGasPerKey := 15000.

Inductive keyError :=
| ErrZeroLength
| ErrLengthTooLong
| ErrMaxKeysExceed
| ErrMaxKeysExceedInValidation
| ErrZeroKeyWeight
| ErrUnserializableKey
| ErrDuplicatedKey
| ErrWeightedSumOverflow
| ErrUnsatisfiableThreshold
| ErrNotOnCurve
| ErrNestedCompositeType
| ErrDifferentAccountKeyType
| ErrAccountKeyNilUninitializable
| ErrAccountKeyFailNotUpdatable
| ErrAccountKeyNotModifiable
| errNotS256Curve
| errUndefinedAccountKeyType
| errInvalidSignature.
Abbreviation K := (res keyError).

(** [NewAccountKey]: an empty key of a type. *)
Definition NewAccountKey (t : Z) : K AccountKey :=
  if t =? 0 then mret AccountKeyNil
  else if t =? 1 then mret AccountKeyLegacy
  else if t =? 2 then mret (AccountKeyPublic (mkPub 0 0))
  else if t =? 3 then mret AccountKeyFail
  else if t =? 4 then mret (AccountKeyWeightedMultiSig 0 [])
  else if t =? 5 then mret (AccountKeyRoleBased [])
  else Err errUndefinedAccountKeyType.

(** ** Public keys *)

(** [BitCurve.IsOnCurve] for secp256k1. *)
Definition curveP : Z := 2 ^ 256 - 2 ^ 32 - 977.
Definition curveB : Z := 7.
Definition IsOnCurve (pk : PublicKey) : bool :=
  (pk_X pk * pk_X pk * pk_X pk + curveB) mod curveP =? (pk_Y pk * pk_Y pk) mod curveP.

(** [PublicKeySerializable.Equal] and [WeightedPublicKeys.Equal]. *)
Definition pubEqual (p q : PublicKey) : bool := (pk_X p =? pk_X q) && (pk_Y p =? pk_Y q).
Definition weightedEqual (w b : WeightedPublicKey) : bool :=
  (wk_Weight w =? wk_Weight b) && pubEqual (wk_Key w) (wk_Key b).
Fixpoint weightedKeysLoop (w b : list WeightedPublicKey) : bool :=
  match w, b with
  | wv :: w, bv :: b => if negb (weightedEqual wv bv) then false else weightedKeysLoop w b
  | _, _ => true
  end.
Definition weightedKeysEqual (w b : list WeightedPublicKey) : bool :=
  if negb (length w =? length b)%nat then false else weightedKeysLoop w b.

(** [IsContainedPubkey]. *)
Fixpoint IsContainedPubkey (w : list WeightedPublicKey) (b : PublicKey) : bool :=
  match w with
  | [] => false
  | wv :: w => if pubEqual b (wk_Key wv) then true else IsContainedPubkey w b
  end.

(** [AccountKey.Equal]; a fail key is not equal to itself. *)
Fixpoint Equal (a b : AccountKey) {struct a} : bool :=
  match a, b with
  | AccountKeyNil, AccountKeyNil => true
  | AccountKeyLegacy, AccountKeyLegacy => true
  | AccountKeyPublic p, AccountKeyPublic q => pubEqual p q
  | AccountKeyWeightedMultiSig t w, AccountKeyWeightedMultiSig t' w' => (t =? t') && weightedKeysEqual w w'
  | AccountKeyRoleBased a, AccountKeyRoleBased b =>
      if negb (length a =? length b)%nat then false
      else (fix loop (a b : list AccountKey) : bool :=
              match a, b with
              | k :: a, k' :: b => if negb (Equal k k') then false else loop a b
              | _, _ => true
              end) a b
  | _, _ => false
  end.

(** [AccountKey.DeepCopy]. *)
Fixpoint DeepCopy (k : AccountKey) : AccountKey :=
  match k with
  | AccountKeyNil => AccountKeyNil
  | AccountKeyLegacy => AccountKeyLegacy
  | AccountKeyPublic p => AccountKeyPublic (mkPub (pk_X p) (pk_Y p))
  | AccountKeyFail => AccountKeyFail
  | AccountKeyWeightedMultiSig t w =>
      AccountKeyWeightedMultiSig t (map (fun v => mkWeighted (wk_Weight v) (mkPub (pk_X (wk_Key v)) (pk_Y (wk_Key v)))) w)
  | AccountKeyRoleBased keys => AccountKeyRoleBased (map DeepCopy keys)
  end.

(** [AccountKey.AccountCreationGas]. *)
Fixpoint AccountCreationGas (k : AccountKey) : K Z :=
  match k with
  | AccountKeyPublic _ => mret TxAccountCreationGasPerKey
  | AccountKeyWeightedMultiSig _ w =>
      if MaxNumKeysForMultiSig <? len w then Err ErrMaxKeysExceed else mret (u64 (len w * TxAccountCreationGasPerKey))
  | AccountKeyRoleBased keys =>
      (fix loop (gas : Z) (keys : list AccountKey) : K Z :=
         match keys with
         | [] => mret gas
         | k :: keys => gasK ← AccountCreationGas k; loop (u64 (gas + gasK)) keys
         end) 0 keys
  | _ => mret 0
  end.

Section accountkey.
(** [crypto.CompressPubkey] panics when the coordinates are no point; [fork.Rules(num).IsIstanbul]. *)
Context (CompressPubkey : PublicKey -> go bytes) (PubkeyToAddress : PublicKey -> Address) (IsIstanbul : Z -> bool).

(** [rlp.EncodeToBytes] of a [PublicKeySerializable]. *)
Definition encodeKey (pk : PublicKey) : K bytes :=
  if negb (IsOnCurve pk) then Err errNotS256Curve
  else match CompressPubkey pk with
       | Ok b => mret (enc_string b)
       | _ => Panic
       end.

(** ** Validation of signatures *)

(** The set of recovered keys, by their encoding; keys that cannot be encoded are skipped. *)
Fixpoint recoveredSet (recovered : list PublicKey) (pMap : gset bytes) : go (gset bytes) :=
  match recovered with
  | [] => mret pMap
  | bk :: recovered =>
      match encodeKey bk with
      | Ok b => recoveredSet recovered ({[b]} ∪ pMap)
      | Err _ => recoveredSet recovered pMap
      | _ => Panic
      end
  end.

(** The registered keys among them: their weights, added in 64 bits, and their number. *)
Fixpoint weigh (keys : list WeightedPublicKey) (pMap : gset bytes) (weightedSum n : Z) : go (Z * Z) :=
  match keys with
  | [] => mret (weightedSum, n)
  | k :: keys =>
      match encodeKey (wk_Key k) with
      | Ok b => if bool_decide (b ∈ pMap) then weigh keys pMap (u64 (weightedSum + wk_Weight k)) (n + 1)
                else weigh keys pMap weightedSum n
      | Err _ => weigh keys pMap weightedSum n
      | _ => Panic
      end
  end.

(** [AccountKeyWeightedMultiSig.Validate]. *)
Definition validateMultiSig (threshold : Z) (keys : list WeightedPublicKey) (num : Z) (recovered : list PublicKey)
    : go bool :=
  if IsIstanbul num && (len keys <? len recovered) then mret false
  else
    pMap ← recoveredSet recovered ∅;
    '(weightedSum, n) ← weigh keys pMap 0 0;
    if IsIstanbul num && (n <? Z.of_nat (size pMap)) then mret false
    else if weightedSum <? threshold then mret false
    else mret true.

(** [AccountKey.Validate].  The keys of roles are tried by position; a role without a key
    falls back to the first one. *)
Fixpoint Validate (k : AccountKey) (num : Z) (r : nat) (recovered : list PublicKey) (from : Address) {struct k} : go bool :=
  match k with
  | AccountKeyNil | AccountKeyFail => mret false
  | AccountKeyLegacy =>
      match recovered with
      | [pk] => mret (bool_decide (from = PubkeyToAddress pk))
      | _ => mret false
      end
  | AccountKeyPublic p =>
      match recovered with
      | [pk] => mret (pubEqual p pk)
      | _ => mret false
      end
  | AccountKeyWeightedMultiSig t keys => validateMultiSig t keys num recovered
  | AccountKeyRoleBased keys =>
      let i := if (r <? length keys)%nat then r else RoleTransaction in
      valid ← index (map (fun k => Validate k num r recovered from) keys) i;
      valid
  end.

(** [AccountKey.ValidateMember]. *)
Fixpoint ValidateMember (k : AccountKey) (recovered : PublicKey) (from : Address) : bool :=
  match k with
  | AccountKeyNil | AccountKeyFail => false
  | AccountKeyLegacy => bool_decide (from = PubkeyToAddress recovered)
  | AccountKeyPublic p => pubEqual p recovered
  | AccountKeyWeightedMultiSig _ keys => IsContainedPubkey keys recovered
  | AccountKeyRoleBased keys =>
      (fix loop (keys : list AccountKey) : bool :=
         match keys with
         | [] => false
         | rk :: keys => if ValidateMember rk recovered from then true else loop keys
         end) keys
  end.

(** [ValidateAccountKey]. *)
Definition ValidateAccountKey (num : Z) (from : Address) (k : AccountKey) (recovered : list PublicKey) (r : nat)
    : K unit :=
  match Validate k num r recovered from with
  | Ok true => mret tt
  | Ok false => Err errInvalidSignature
  | _ => Panic
  end.

(** [AccountKey.SigValidationGas]. *)
Fixpoint SigValidationGas (k : AccountKey) (num : Z) (r : nat) (numSigs : Z) {struct k} : K Z :=
  match k with
  | AccountKeyWeightedMultiSig _ keys =>
      let numKeys := len keys in
      if MaxNumKeysForMultiSig <? numKeys then Err ErrMaxKeysExceedInValidation
      else if numKeys =? 0 then Err ErrZeroLength
      else if IsIstanbul num then mret (u64 (u64 (numSigs - 1) * TxValidationGasPerKey))
      else mret (u64 ((numKeys - 1) * TxValidationGasPerKey))
  | AccountKeyRoleBased keys =>
      let i := if (r <? length keys)%nat then r else RoleTransaction in
      gas ← index (map (fun k => SigValidationGas k num r numSigs) keys) i;
      gas
  | _ => mret 0
  end.

(** ** Installing and updating keys *)

(** The loop of [AccountKeyWeightedMultiSig.CheckInstallable]: the sum of the weights. *)
Fixpoint installLoop (keys : list WeightedPublicKey) (sum prevSum : Z) (keyMap : gset bytes) : K Z :=
  match keys with
  | [] => mret sum
  | k :: keys =>
      if wk_Weight k =? 0 then Err ErrZeroKeyWeight
      else
        let sum := u64 (sum + wk_Weight k) in
        match encodeKey (wk_Key k) with
        | Err _ => Err ErrUnserializableKey
        | Ok b =>
            if bool_decide (b ∈ keyMap) then Err ErrDuplicatedKey
            else if sum <? prevSum then Err ErrWeightedSumOverflow
            else installLoop keys sum sum ({[b]} ∪ keyMap)
        | _ => Panic
        end
  end.

(** [AccountKey.CheckInstallable]. *)
Fixpoint CheckInstallable (k : AccountKey) : K unit :=
  match k with
  | AccountKeyNil => Err ErrAccountKeyNilUninitializable
  | AccountKeyLegacy | AccountKeyFail => mret tt
  | AccountKeyPublic p => if negb (IsOnCurve p) then Err ErrNotOnCurve else mret tt
  | AccountKeyWeightedMultiSig t keys =>
      if len keys =? 0 then Err ErrZeroLength
      else if MaxNumKeysForMultiSig <? len keys then Err ErrMaxKeysExceed
      else
        sum ← installLoop keys 0 0 ∅;
        if sum <? t then Err ErrUnsatisfiableThreshold else mret tt
  | AccountKeyRoleBased keys =>
      if (length keys =? 0)%nat then Err ErrZeroLength
      else if (RoleLast <? length keys)%nat then Err ErrLengthTooLong
      else (fix loop (keys : list AccountKey) : K unit :=
              match keys with
              | [] => mret tt
              | k :: keys => if IsCompositeType k then Err ErrNestedCompositeType else CheckInstallable k ≫= fun _ => loop keys
              end) keys
  end.

(** The roles a new role-based key adds to a shorter one. *)
Fixpoint installRoles (keys : list AccountKey) : K unit :=
  match keys with
  | [] => mret tt
  | k :: keys => if IsCompositeType k then Err ErrNestedCompositeType else CheckInstallable k ≫= fun _ => installRoles keys
  end.

(** [AccountKey.CheckUpdatable]; the call of [CheckReplacable] for the keys of a role is
    written out. *)
Fixpoint CheckUpdatable (a newKey : AccountKey) {struct a} : K unit :=
  match a, newKey with
  | AccountKeyNil, _ => Err ErrAccountKeyNilUninitializable
  | AccountKeyFail, _ => Err ErrAccountKeyFailNotUpdatable
  | AccountKeyLegacy, AccountKeyLegacy => CheckInstallable AccountKeyLegacy
  | AccountKeyPublic _, AccountKeyPublic _ => CheckInstallable newKey
  | AccountKeyWeightedMultiSig _ _, AccountKeyWeightedMultiSig _ _ => CheckInstallable newKey
  | AccountKeyRoleBased old, AccountKeyRoleBased new =>
      if (length new =? 0)%nat then Err ErrZeroLength
      else if (RoleLast <? length new)%nat then Err ErrLengthTooLong
      else (fix loop (old new : list AccountKey) {struct old} : K unit :=
              match new, old with
              | [], _ => mret tt
              | n :: new, o :: old =>
                  if IsCompositeType n then Err ErrNestedCompositeType
                  else if Type_ n =? 0 then loop old new
                  else (if Type_ o =? Type_ n then CheckUpdatable o n else CheckInstallable n) ≫= fun _ => loop old new
              | _, [] => installRoles new
              end) old new
  | _, _ => Err ErrDifferentAccountKeyType
  end.

(** [CheckReplacable]. *)
Definition CheckReplacable (oldKey newKey : AccountKey) : K unit :=
  if Type_ oldKey =? Type_ newKey then CheckUpdatable oldKey newKey else CheckInstallable newKey.

(** The roles of a role-based key overwritten by those of [new] that are not nil. *)
Fixpoint overwriteRoles (i : nat) (new a : list AccountKey) : K (list AccountKey) :=
  match new with
  | [] => mret a
  | n :: new =>
      if Type_ n =? 0 then overwriteRoles (S i) new a
      else a ← store a i n; overwriteRoles (S i) new a
  end.

(** [AccountKey.Update]: the key after the update. *)
Definition Update (a newKey : AccountKey) : K AccountKey :=
  match a with
  | AccountKeyNil => Err ErrDifferentAccountKeyType
  | AccountKeyFail => Err ErrAccountKeyFailNotUpdatable
  | AccountKeyLegacy => CheckUpdatable a newKey ≫= fun _ => mret a
  | AccountKeyPublic _ | AccountKeyWeightedMultiSig _ _ => CheckUpdatable a newKey ≫= fun _ => mret newKey
  | AccountKeyRoleBased old =>
      _ ← CheckUpdatable a newKey;
      match newKey with
      | AccountKeyRoleBased new =>
          let a := if (length old <? length new)%nat then old ++ drop (length old) new else old in
          a ← overwriteRoles 0 new a;
          mret (AccountKeyRoleBased a)
      | _ => Panic
      end
  end.

(** [AccountCommon.ReplaceKey] and [AccountCommon.UpdateKey], on the key of the account. *)
Definition ReplaceKey (newKey : AccountKey) : K AccountKey := CheckInstallable newKey ≫= fun _ => mret newKey.
Definition UpdateKey (key newKey : AccountKey) : K AccountKey :=
  let newKey := DeepCopy newKey in
  if Type_ key =? Type_ newKey then Update key newKey else ReplaceKey newKey.

(** ** Public keys that can be encoded *)

(** A point with reduced coordinates. *)
Definition point (pk : PublicKey) : Prop :=
  IsOnCurve pk = true /\ 0 <= pk_X pk < curveP /\ 0 <= pk_Y pk < curveP.

(** Compression succeeds on the points of the curve, with a short string of bytes that
    determines the point. *)
Hypothesis compress_ok : forall pk, point pk -> exists b, CompressPubkey pk = Ok b /\ is_bytes b /\ len b < 256.
Hypothesis compress_inj : forall p q b, point p -> point q -> CompressPubkey p = Ok b -> CompressPubkey q = Ok b -> p = q.

Lemma enc_string_inj b b' : is_bytes b -> is_bytes b' -> len b < 256 -> len b' < 256 -> enc_string b = enc_string b' -> b = b'.
Proof.
  intros Hb Hb' Hl Hl' He. pose proof (Split_enc_string b []) as H. pose proof (Split_enc_string b' []) as H'.
  rewrite app_nil_r in H, H'. rewrite app_nil_r in H, H'. specialize (H Hb ltac:(lia)). specialize (H' Hb' ltac:(lia)).
  rewrite He, H' in H. by simplify_eq.
Qed.

Lemma encodeKey_ok pk : point pk -> exists b, encodeKey pk = Ok b.
Proof using compress_ok.
  intros Hp. destruct (compress_ok pk Hp) as (b & Hb & _). destruct Hp as (Hc & _).
  unfold encodeKey. rewrite Hc, Hb. simpl. by eexists.
Qed.

Lemma encodeKey_inj p q b : point p -> point q -> encodeKey p = Ok b -> encodeKey q = Ok b -> p = q.
Proof using compress_ok compress_inj.
  intros Hp Hq. pose proof (compress_ok p Hp) as (c & Hc & Bc & Lc). pose proof (compress_ok q Hq) as (d & Hd & Bd & Ld).
  unfold encodeKey. rewrite (proj1 Hp), (proj1 Hq), Hc, Hd. simpl. intros [= <-] [= He].
  apply enc_string_inj in He as ->; [|done..]. by eapply compress_inj.
Qed.

(** The encoding of a point, as a total function. *)
Definition code (pk : PublicKey) : bytes := match encodeKey pk with Ok b => b | _ => [] end.

Lemma encodeKey_code pk : point pk -> encodeKey pk = Ok (code pk).
Proof using compress_ok. intros [b Hb]%encodeKey_ok. unfold code. by rewrite Hb. Qed.
Lemma code_inj p q : point p -> point q -> code p = code q -> p = q.
Proof using compress_ok compress_inj.
  intros Hp Hq He. apply (encodeKey_inj p q (code p)); try done; [by apply encodeKey_code|].
  rewrite He. by apply encodeKey_code.
Qed.

(** A key all of whose public keys are points, and whose weights are 64-bit numbers: what
    decoding produces. *)
Definition weighted_ok (k : WeightedPublicKey) : Prop := point (wk_Key k) /\ is_u64 (wk_Weight k).
Fixpoint key_ok (k : AccountKey) : Prop :=
  match k with
  | AccountKeyPublic p => point p
  | AccountKeyWeightedMultiSig t keys => is_u64 t /\ Forall weighted_ok keys
  | AccountKeyRoleBased keys => (fix all (keys : list AccountKey) : Prop :=
                                   match keys with [] => True | k :: keys => key_ok k /\ all keys end) keys
  | _ => True
  end.

(** ** Multiple signatures *)

(** The weight of the keys that signed, without machine arithmetic. *)
Definition signedWeight (keys : list WeightedPublicKey) (recovered : list PublicKey) : Z :=
  foldr Z.add 0 (map wk_Weight (filter (fun k => wk_Key k ∈ recovered) keys)).
Definition totalWeight (keys : list WeightedPublicKey) : Z := foldr Z.add 0 (map wk_Weight keys).

(** What [CheckInstallable] establishes of a multi-signature key. *)
Record multisig_ok (t : Z) (keys : list WeightedPublicKey) : Prop := {
  mo_count : 0 < len keys <= MaxNumKeysForMultiSig;
  mo_weights : Forall (fun k => 0 < wk_Weight k) keys;
  mo_distinct : NoDup (map wk_Key keys);
  mo_sum : totalWeight keys < 2 ^ 64;
  mo_threshold : t <= totalWeight keys
}.

Lemma totalWeight_nonneg keys : Forall weighted_ok keys -> 0 <= totalWeight keys.
Proof. unfold totalWeight. induction 1 as [|k keys [_ Hk] _ IH]; simpl; [lia|]. unfold is_u64 in Hk. lia. Qed.

Lemma installLoop_iff keys : Forall weighted_ok keys -> forall sum m s, is_u64 sum ->
  installLoop keys sum sum m = Ok s <->
  Forall (fun k => 0 < wk_Weight k) keys /\ NoDup (map (fun k => code (wk_Key k)) keys) /\
  Forall (fun k => code (wk_Key k) ∉ m) keys /\ sum + totalWeight keys < 2 ^ 64 /\ s = sum + totalWeight keys.
Proof using compress_ok.
  induction 1 as [|k keys [Hk Hw] Hks IH]; intros sum m s Hs; unfold totalWeight in *; simpl.
  { rewrite Z.add_0_r. unfold is_u64 in Hs. split.
    - intros [= <-]. split_and!; try done; [constructor|lia].
    - by intros (_ & _ & _ & _ & ->). }
  rewrite encodeKey_code by done. unfold is_u64 in *.
  destruct (wk_Weight k =? 0) eqn:E0; bool_to_prop.
  { split; [done|]. intros ([? _]%Forall_cons & _). lia. }
  case_bool_decide as Hm.
  { split; [done|]. intros (_ & _ & [? _]%Forall_cons & _). done. }
  pose proof (totalWeight_nonneg keys Hks) as Ht. unfold totalWeight in Ht.
  rewrite Forall_cons, NoDup_cons, Forall_cons, list_elem_of_In, in_map_iff.
  destruct (_ <? sum) eqn:E1; bool_to_prop.
  { split; [done|]. intros (_ & _ & _ & Hlt & _). rewrite u64_small in E1 by (unfold is_u64; lia). lia. }
  assert (u64 (sum + wk_Weight k) = sum + wk_Weight k) as Hu.
  { unfold u64 in *. destruct (decide (sum + wk_Weight k < 2 ^ 64)); [apply Z.mod_small; lia|].
    rewrite <- (Z.mod_unique (sum + wk_Weight k) (2 ^ 64) 1 (sum + wk_Weight k - 2 ^ 64)) in E1; lia. }
  rewrite Hu, IH by (unfold u64 in Hu; pose proof (Z.mod_pos_bound (sum + wk_Weight k) (2 ^ 64)); lia).
  rewrite !Forall_forall, Z.add_assoc. split.
  - intros (H1 & H2 & H3 & H4 & ->). split_and!; try done; try lia.
    + intros (k' & He & Hin%list_elem_of_In). apply (H3 k' Hin). rewrite He. by apply elem_of_union_l, elem_of_singleton.
    + intros k' Hin Hm'. apply (H3 k' Hin). by apply elem_of_union_r.
  - intros ([? H1] & [H2 H2'] & [? H3] & H4 & ->). split_and!; try done.
    intros k' Hin [He%elem_of_singleton|?]%elem_of_union; [|by apply (H3 k')].
    apply H2. exists k'. split; [done|]. by apply list_elem_of_In.
Qed.

Lemma NoDup_codes keys : Forall weighted_ok keys ->
  NoDup (map (fun k => code (wk_Key k)) keys) <-> NoDup (map wk_Key keys).
Proof using compress_ok compress_inj.
  induction 1 as [|k keys [Hk _] Hks IH]; [by split; intros _; apply NoDup_nil_2|]. simpl. rewrite !NoDup_cons, IH.
  enough (code (wk_Key k) ∈ map (fun k => code (wk_Key k)) keys <-> wk_Key k ∈ map wk_Key keys) by tauto.
  rewrite !list_elem_of_In, !in_map_iff. split; intros (k' & He & Hin); exists k'; split; try done; [|by rewrite He].
  apply code_inj; [|done..]. apply list_elem_of_In in Hin. by apply (proj1 (Forall_forall _ _) Hks) in Hin as [? _].
Qed.

(** A multi-signature key is installable exactly when it has between one and ten different
    keys of positive weight, whose weights add up to at least the threshold without overflow. *)
Lemma multisig_installable t keys : Forall weighted_ok keys ->
  CheckInstallable (AccountKeyWeightedMultiSig t keys) = Ok tt <-> multisig_ok t keys.
Proof using compress_ok compress_inj.
  intros Hks. simpl. pose proof (len_nonneg keys) as Hl. unfold MaxNumKeysForMultiSig.
  assert (forall s, installLoop keys 0 0 ∅ = Ok s <->
            Forall (fun k => 0 < wk_Weight k) keys /\ NoDup (map wk_Key keys) /\ totalWeight keys < 2 ^ 64 /\ s = totalWeight keys) as Hi.
  { intros s. rewrite installLoop_iff, NoDup_codes, Z.add_0_l by (done || (unfold is_u64; lia)).
    split; [by intros (? & ? & _ & ? & ?)|]. intros (? & ? & ? & ?). split_and!; try done.
    apply Forall_true. intros ?. apply not_elem_of_empty. }
  split.
  - destruct (len keys =? 0) eqn:E0; [done|]. destruct (10 <? len keys) eqn:E1; [done|]. bool_to_prop.
    intros (s & (H1 & H2 & H3 & ->)%Hi & Hs)%bind_ok. destruct (_ <? t) eqn:E; [done|]. bool_to_prop.
    constructor; unfold MaxNumKeysForMultiSig; try done; lia.
  - intros [Hc H1 H2 H3 H4]. unfold MaxNumKeysForMultiSig in Hc.
    rewrite (proj2 (Z.eqb_neq _ _)), (proj2 (Z.ltb_ge _ _)) by lia.
    rewrite (proj2 (Hi (totalWeight keys))) by done. cbn [mbind res_bind].
    by rewrite (proj2 (Z.ltb_ge _ _)).
Qed.

Lemma recoveredSet_ok recovered m : Forall point recovered ->
  recoveredSet recovered m = Ok (list_to_set (map code recovered) ∪ m).
Proof using compress_ok.
  intros Hr. revert m. induction Hr as [|pk l Hp _ IH]; intros m; simpl; [by rewrite (left_id_L ∅ (∪))|].
  rewrite encodeKey_code, IH by done. f_equal. by rewrite (assoc_L (∪)), (comm_L (∪) {[code pk]}).
Qed.

Lemma weigh_ok keys (P : PublicKey -> Prop) `{!forall p, Decision (P p)} m : Forall weighted_ok keys ->
  (forall k, k ∈ keys -> code (wk_Key k) ∈ m <-> P (wk_Key k)) ->
  forall sum n, 0 <= sum -> sum + totalWeight keys < 2 ^ 64 ->
  weigh keys m sum n = Ok (sum + foldr Z.add 0 (map wk_Weight (filter (fun k => P (wk_Key k)) keys)),
                           n + len (filter (fun k => P (wk_Key k)) keys)).
Proof using compress_ok.
  intros Hks. induction Hks as [|k keys [Hk Hw] Hks IH]; intros HP sum n Hs Hlt; simpl.
  { by rewrite !Z.add_0_r. }
  pose proof (totalWeight_nonneg keys Hks). unfold totalWeight in *. simpl in Hlt. unfold is_u64 in Hw.
  rewrite encodeKey_code by done. pose proof (HP k (list_elem_of_here _ _)) as Hk'.
  assert (forall k', k' ∈ keys -> code (wk_Key k') ∈ m <-> P (wk_Key k')) as HP' by (intros; apply HP; by apply list_elem_of_further).
  rewrite filter_cons. case_bool_decide as Hm; [rewrite decide_True by (by apply Hk')|rewrite decide_False by (by rewrite <- Hk')].
  - rewrite u64_small by (unfold is_u64; lia). rewrite IH by (done || lia). simpl. do 2 f_equal; [lia|].
    rewrite len_cons. lia.
  - apply IH; done || lia.
Qed.

(** Signatures of registered keys only: as many keys signed as there are different ones among
    the recovered keys. *)
Lemma all_registered keys recovered : Forall weighted_ok keys -> Forall point recovered -> NoDup (map wk_Key keys) ->
  Z.of_nat (size (list_to_set (map code recovered) : gset bytes)) <= len (filter (fun k => wk_Key k ∈ recovered) keys)
  <-> Forall (fun p => p ∈ map wk_Key keys) recovered.
Proof using compress_ok compress_inj.
  intros Hks Hr Hn. rewrite (Forall_forall (fun p => p ∈ _)). set (signed := filter (fun k => wk_Key k ∈ recovered) keys).
  set (S := list_to_set (map (fun k => code (wk_Key k)) signed) : gset bytes).
  set (m := list_to_set (map code recovered) : gset bytes).
  assert (Hsz : size S = length signed).
  { unfold S. rewrite size_list_to_set, length_map; [done|]. apply NoDup_codes.
    - apply Forall_forall. intros k [_ Hk]%list_elem_of_filter. by apply (proj1 (Forall_forall _ _) Hks).
    - eapply selection_NoDup, Hn. apply (fmap_submseteq wk_Key), sublist_submseteq, sublist_filter. }
  assert (Hsub : S ⊆ m).
  { intros c. unfold S, m. rewrite !elem_of_list_to_set, !list_elem_of_In, !in_map_iff.
    intros (k & <- & [Hk _]%list_elem_of_In%list_elem_of_filter). exists (wk_Key k). by rewrite <- list_elem_of_In. }
  unfold len. rewrite <- Hsz. split.
  - intros Hle p Hp.
    assert (Hc : code p ∈ S).
    { rewrite (set_subseteq_size_eq S m Hsub) by lia. apply elem_of_list_to_set, list_elem_of_In, in_map, list_elem_of_In, Hp. }
    apply elem_of_list_to_set, list_elem_of_In, in_map_iff in Hc as (k & He & [_ Hk]%list_elem_of_In%list_elem_of_filter).
    apply list_elem_of_In, in_map_iff. exists k. split; [|by apply list_elem_of_In].
    apply code_inj; [|by apply (proj1 (Forall_forall _ _) Hr)|done]. by apply (proj1 (Forall_forall _ _) Hks) in Hk as [? _].
  - intros Hall. apply inj_le, subseteq_size. intros c. unfold S, m.
    rewrite !elem_of_list_to_set, !list_elem_of_In, !in_map_iff. intros (p & <- & Hp%list_elem_of_In).
    pose proof (Hall p Hp) as (k & <- & Hk)%list_elem_of_In%in_map_iff. exists k. split; [done|].
    apply list_elem_of_In, list_elem_of_filter. split; [done|]. by apply list_elem_of_In.
Qed.

Lemma signedWeight_le keys recovered : Forall weighted_ok keys -> signedWeight keys recovered <= totalWeight keys.
Proof.
  unfold signedWeight, totalWeight. induction 1 as [|k keys [_ Hk] _ IH]; [done|]. rewrite filter_cons. unfold is_u64 in Hk.
  case_decide; simpl; lia.
Qed.

Lemma validateMultiSig_ok t keys num recovered : Forall weighted_ok keys -> multisig_ok t keys -> Forall point recovered ->
  validateMultiSig t keys num recovered = Ok (bool_decide (
    t <= signedWeight keys recovered /\
    (IsIstanbul num = true -> len recovered <= len keys /\ Forall (fun p => p ∈ map wk_Key keys) recovered))).
Proof using compress_ok compress_inj.
  intros Hks Hm Hr. unfold validateMultiSig.
  pose proof (all_registered keys recovered Hks Hr (mo_distinct _ _ Hm)) as Hall.
  pose proof (mo_sum _ _ Hm) as Hsum.
  destruct (IsIstanbul num) eqn:Ei; cbn [andb].
  1: destruct (len keys <? len recovered) eqn:E1; bool_to_prop.
  1: { cbn. f_equal. symmetry. apply bool_decide_eq_false. intros [_ [? _]]; [done|lia]. }
  all: rewrite recoveredSet_ok by done; cbn [mbind res_bind]; rewrite (right_id_L ∅ (∪));
    rewrite (weigh_ok keys (fun p => p ∈ recovered)) by
      (first [done | lia | intros k Hk; rewrite elem_of_list_to_set, !list_elem_of_In, in_map_iff; split;
        [intros (p & He & Hp); apply code_inj in He as <-; [done|..];
          [by apply (proj1 (Forall_forall _ _) Hr), list_elem_of_In|by apply (proj1 (Forall_forall _ _) Hks) in Hk as [? _]]
        |intros Hp; by eexists]]);
    cbn [mbind res_bind]; rewrite !Z.add_0_l; fold (signedWeight keys recovered).
  - destruct (_ <? Z.of_nat _) eqn:E2; bool_to_prop.
    { cbn. f_equal. symmetry. apply bool_decide_eq_false. intros [_ [_ H]%(fun H => H eq_refl)]. apply Hall in H. lia. }
    destruct (_ <? t) eqn:E3; bool_to_prop; cbn; f_equal; symmetry.
    + apply bool_decide_eq_false. lia.
    + apply bool_decide_eq_true. split; [done|]. intros _. split; [done|]. by apply Hall.
  - destruct (_ <? t) eqn:E3; bool_to_prop; cbn; f_equal; symmetry.
    + apply bool_decide_eq_false. lia.
    + by apply bool_decide_eq_true.
Qed.

(** ** Roles *)

(** Induction over the keys of roles. *)
Lemma AccountKey_nested_ind (P : AccountKey -> Prop) :
  (forall k, IsCompositeType k = false -> P k) ->
  (forall keys, Forall P keys -> P (AccountKeyRoleBased keys)) -> forall k, P k.
Proof.
  intros H0 H1. fix IH 1. intros [| |p| |t w|keys]; try by apply H0.
  apply H1. induction keys as [|k keys IHk]; constructor; [apply IH|apply IHk].
Qed.

Lemma DeepCopy_id k : DeepCopy k = k.
Proof.
  induction k as [k Hk|keys IH] using AccountKey_nested_ind.
  - destruct k as [| |[]| |t w|]; try done. simpl. f_equal. induction w as [|[? []] w IHw]; [done|]. simpl. by rewrite IHw.
  - simpl. f_equal. induction IH as [|k keys Hk _ IHk]; [done|]. simpl. by rewrite Hk, IHk.
Qed.

Lemma CheckInstallable_roles keys : CheckInstallable (AccountKeyRoleBased keys) =
  if (length keys =? 0)%nat then Err ErrZeroLength
  else if (RoleLast <? length keys)%nat then Err ErrLengthTooLong else installRoles keys.
Proof. done. Qed.

(** The loop of [CheckUpdatable] over the roles. *)
Fixpoint updateRoles (old new : list AccountKey) : K unit :=
  match new, old with
  | [], _ => mret tt
  | n :: new, o :: old =>
      if IsCompositeType n then Err ErrNestedCompositeType
      else if Type_ n =? 0 then updateRoles old new
      else CheckReplacable o n ≫= fun _ => updateRoles old new
  | _, [] => installRoles new
  end.

Lemma CheckUpdatable_roles old new : CheckUpdatable (AccountKeyRoleBased old) (AccountKeyRoleBased new) =
  if (length new =? 0)%nat then Err ErrZeroLength
  else if (RoleLast <? length new)%nat then Err ErrLengthTooLong else updateRoles old new.
Proof. done. Qed.

Lemma installRoles_iff keys : installRoles keys = Ok tt <->
  Forall (fun k => IsCompositeType k = false /\ CheckInstallable k = Ok tt) keys.
Proof.
  induction keys as [|k keys IH]; simpl; [by split; [constructor|]|]. rewrite Forall_cons, <- IH.
  destruct (IsCompositeType k); [by split; [|intros [[? _] _]]|]. split.
  - intros ([] & -> & H)%bind_ok. done.
  - intros [[_ ->] H]. done.
Qed.

Lemma roles_installable keys : CheckInstallable (AccountKeyRoleBased keys) = Ok tt <->
  (0 < length keys <= RoleLast)%nat /\ Forall (fun k => IsCompositeType k = false /\ CheckInstallable k = Ok tt) keys.
Proof.
  rewrite CheckInstallable_roles, <- installRoles_iff.
  destruct (Nat.eqb_spec (length keys) 0); [split; [done|lia]|].
  destruct (Nat.ltb_spec RoleLast (length keys)); [split; [done|lia]|]. split; [split; [lia|done]|by intros [_ ?]].
Qed.

Lemma updatable_installable o n : IsCompositeType n = false -> CheckUpdatable o n = Ok tt -> CheckInstallable n = Ok tt.
Proof. by destruct o, n. Qed.

Lemma replacable_installable o n : IsCompositeType n = false -> CheckReplacable o n = Ok tt -> CheckInstallable n = Ok tt.
Proof. unfold CheckReplacable. destruct (_ =? _); [apply updatable_installable|done]. Qed.

(** What an accepted update of roles contains: installable keys, or nil for a role kept. *)
Lemma updateRoles_inv new : forall old, updateRoles old new = Ok tt -> forall i n, new !! i = Some n ->
  (Type_ n = 0 /\ (i < length old)%nat) \/ (Type_ n <> 0 /\ IsCompositeType n = false /\ CheckInstallable n = Ok tt).
Proof.
  induction new as [|n new IH]; intros old H i k Hi; [done|]. destruct old as [|o old].
  { apply installRoles_iff in H. right. apply (Forall_lookup_1 _ _ _ _ H) in Hi as [Hc Hk]. by destruct k. }
  cbn [updateRoles] in H. destruct (IsCompositeType n) eqn:Hc; [done|]. destruct (Type_ n =? 0) eqn:Ht; bool_to_prop.
  - destruct i as [|i]; simplify_eq/=; [left; lia|]. destruct (IH old H i k Hi) as [[? ?]|?]; [left; split; [done|lia]|by right].
  - apply bind_ok in H as ([] & Hr & H). destruct i as [|i]; simplify_eq/=.
    + right. split_and!; try done. by eapply replacable_installable.
    + destruct (IH old H i k Hi) as [[? ?]|?]; [left; split; [done|lia]|by right].
Qed.

(** The roles after an update. *)
Definition newRole (old new : list AccountKey) (i : nat) : option AccountKey :=
  match new !! i with
  | Some n => if Type_ n =? 0 then old !! i else Some n
  | None => old !! i
  end.

Lemma overwriteRoles_ok new : forall i a, (i + length new <= length a)%nat -> exists a', overwriteRoles i new a = Ok a' /\
  length a' = length a /\ forall j, a' !! j = if decide (i <= j)%nat then newRole (drop i a) new (j - i) else a !! j.
Proof.
  induction new as [|n new IH]; intros i a Hl; cbn [overwriteRoles length] in *.
  { exists a. split_and!; try done. intros j. unfold newRole. rewrite lookup_nil. case_decide; [|done].
    rewrite lookup_drop. f_equal. lia. }
  assert (forall b, length b = length a -> (forall j, j <> i -> b !! j = a !! j) ->
    b !! i = (if Type_ n =? 0 then a !! i else Some n) -> exists a', overwriteRoles (S i) new b = Ok a' /\
    length a' = length a /\ forall j, a' !! j = if decide (i <= j)%nat then newRole (drop i a) (n :: new) (j - i) else a !! j) as Hb.
  { intros b Hlb Hne Hi. destruct (IH (S i) b) as (a' & -> & Hla & Ha); [lia|]. exists a'. split; [done|]. split; [lia|].
    intros j. rewrite Ha. destruct (decide (j = i)) as [->|Hj].
    - rewrite decide_False, decide_True by lia. rewrite Nat.sub_diag. unfold newRole. simpl. rewrite lookup_drop, Nat.add_0_r. done.
    - destruct (decide (i <= j)%nat); [rewrite decide_True by lia|rewrite decide_False by lia; by apply Hne].
      replace (j - i)%nat with (S (j - S i)) by lia. unfold newRole. simpl. rewrite !lookup_drop.
      replace (i + S (j - S i))%nat with j by lia. replace (S i + (j - S i))%nat with j by lia. by rewrite Hne by lia. }
  destruct (Type_ n =? 0) eqn:Ht; [by apply Hb|]. rewrite store_lt by lia. cbn [mbind res_bind]. apply Hb.
  - by rewrite length_insert.
  - intros j Hj. by rewrite list_lookup_insert_ne.
  - rewrite list_lookup_insert_eq by lia. done.
Qed.

(** ** No panics *)

Definition returns {A} (r : K A) : Prop := match r with Ok _ | Err _ => True | _ => False end.

Lemma returns_bind {A B} (m : K A) (f : A -> K B) : returns m -> (forall a, returns (f a)) -> returns (m ≫= f).
Proof. destruct m; simpl; auto. Qed.

Lemma installLoop_returns keys : Forall weighted_ok keys -> forall sum prev m, returns (installLoop keys sum prev m).
Proof using compress_ok.
  induction 1 as [|k keys [Hk _] _ IH]; intros sum prev m; simpl; [done|]. rewrite encodeKey_code by done. by case_tests.
Qed.

Lemma simple_returns k : IsCompositeType k = false -> key_ok k -> returns (CheckInstallable k).
Proof using compress_ok.
  destruct k as [| |p| |t w|]; try done; intros _ Hk; simpl.
  - by destruct (negb _).
  - case_tests; try done. apply returns_bind; [by apply installLoop_returns, Hk|]. intros s. by case_tests.
Qed.

Lemma key_ok_roles keys : key_ok (AccountKeyRoleBased keys) <-> Forall key_ok keys.
Proof. simpl. induction keys as [|k keys IH]; [by split|]. by rewrite Forall_cons, IH. Qed.

Lemma installRoles_returns keys : Forall key_ok keys -> returns (installRoles keys).
Proof using compress_ok.
  induction 1 as [|k keys Hk _ IH]; [done|]. simpl. destruct (IsCompositeType k) eqn:E; [done|].
  apply returns_bind; [by apply simple_returns|]. done.
Qed.

Lemma installable_returns k : key_ok k -> returns (CheckInstallable k).
Proof using compress_ok.
  intros Hk. destruct (IsCompositeType k) eqn:E; [|by apply simple_returns]. destruct k; try done. apply key_ok_roles in Hk.
  rewrite CheckInstallable_roles. case_tests; try done. by apply installRoles_returns.
Qed.

Lemma updatable_returns a n : key_ok n -> returns (CheckUpdatable a n).
Proof using compress_ok.
  assert (Hs : forall a n, IsCompositeType n = false -> key_ok n -> returns (CheckUpdatable a n)).
  { intros a' n' Hc Hk. pose proof (simple_returns n' Hc Hk) as Hr. by destruct a', n'. }
  intros Hk. destruct (IsCompositeType n) eqn:E; [|by apply Hs]. destruct n as [| | | | |new]; try done.
  destruct a as [| | | | |old]; try done. rewrite CheckUpdatable_roles. destruct (_ =? _)%nat; [done|].
  destruct (_ <? _)%nat; [done|]. apply key_ok_roles in Hk. clear E. revert old. induction Hk as [|n new Hn Hnew IH]; intros [|o old]; try done.
  { by apply installRoles_returns; constructor. }
  cbn [updateRoles length]. destruct (IsCompositeType n) eqn:E; [done|].
  pose proof (IH old).
  destruct (Type_ n =? 0); [done|]. apply returns_bind; [|done]. unfold CheckReplacable.
  destruct (_ =? _); [by apply Hs|by apply simple_returns].
Qed.

(** ** The claims *)

(** The key that decides for a role. *)
Definition roleKey (k : AccountKey) (r : nat) : option AccountKey :=
  match k with
  | AccountKeyRoleBased keys => keys !! (if (r <? length keys)%nat then r else RoleTransaction)
  | _ => Some k
  end.

Lemma Validate_role k r rk : roleKey k r = Some rk -> forall num recovered from,
  Validate k num r recovered from = Validate rk num r recovered from.
Proof.
  destruct k as [| | | | |keys]; simpl; intros Hr num recovered from; try by simplify_eq.
  unfold index. rewrite list_lookup_fmap, Hr. done.
Qed.

Lemma roleKey_installable k r : CheckInstallable k = Ok tt -> exists rk, roleKey k r = Some rk /\
  IsCompositeType rk = false /\ CheckInstallable rk = Ok tt /\ (key_ok k -> key_ok rk).
Proof.
  intros Hi. destruct k as [| |p| |t w|keys]; try (by (eexists; split_and!; [reflexivity|done..])).
  pose proof Hi as [Hl Hk]%roles_installable. simpl.
  destruct (lookup_lt_is_Some_2 keys (if (r <? length keys)%nat then r else RoleTransaction)) as [rk Hrk].
  { destruct (Nat.ltb_spec r (length keys)); unfold RoleTransaction; lia. }
  exists rk. apply (Forall_lookup_1 _ _ _ _ Hk) in Hrk as Hrk'. destruct Hrk'. split_and!; try done.
  intros Hok%key_ok_roles. apply (Forall_lookup_1 _ _ _ _ Hok Hrk).
Qed.

(** C22. Signatures against an installed multi-signature key: the validation succeeds exactly
    when the weights of the registered keys that signed, added as integers, reach the
    threshold, and, since the Istanbul fork, there are no more signatures than keys and no
    signature of an unregistered key; repeated signatures count once, and the 64-bit sum of
    the code never wraps around. *)
Theorem multisig_validation t keys num r recovered from :
  key_ok (AccountKeyWeightedMultiSig t keys) -> CheckInstallable (AccountKeyWeightedMultiSig t keys) = Ok tt ->
  Forall point recovered ->
  Validate (AccountKeyWeightedMultiSig t keys) num r recovered from = Ok (bool_decide (
    t <= signedWeight keys recovered /\
    (IsIstanbul num = true -> len recovered <= len keys /\ Forall (fun p => p ∈ map wk_Key keys) recovered))).
Proof using compress_ok compress_inj.
  intros [_ Hk] Hi Hr. apply multisig_installable in Hi; [|done]. by apply validateMultiSig_ok.
Qed.

Lemma signedWeight_all keys : signedWeight keys (map wk_Key keys) = totalWeight keys.
Proof.
  unfold signedWeight, totalWeight. f_equal. f_equal.
  assert (forall l : list PublicKey, (forall k, k ∈ keys -> wk_Key k ∈ l) -> filter (fun k => wk_Key k ∈ l) keys = keys) as H.
  { intros l Hl. induction keys as [|k keys IH]; [done|]. rewrite filter_cons, decide_True by (apply Hl, list_elem_of_here).
    f_equal. apply IH. intros k' Hk'. by apply Hl, list_elem_of_further. }
  apply H. intros k Hk. by apply list_elem_of_In, in_map, list_elem_of_In.
Qed.

(** An installable key is not locked: for every role there is a key in charge, the role's
    own or the one for transactions, to which [Validate] delegates; unless it is the fail key
    or the legacy key (which wants the one signature of the address), some list of at most ten
    signers is accepted at every block. *)
Theorem installable_key_usable k r :
  key_ok k -> CheckInstallable k = Ok tt ->
  exists rk, roleKey k r = Some rk /\
    (forall num recovered from, Validate k num r recovered from = Validate rk num r recovered from) /\
    ((rk = AccountKeyFail /\ forall num recovered from, Validate k num r recovered from = Ok false) \/
     (rk = AccountKeyLegacy /\ forall num pk, Validate k num r [pk] (PubkeyToAddress pk) = Ok true) \/
     exists signers, Forall point signers /\ 0 < len signers <= MaxNumKeysForMultiSig /\
       forall num from, Validate k num r signers from = Ok true).
Proof using compress_ok compress_inj.
  intros Hk Hi. destruct (roleKey_installable k r Hi) as (rk & Hr & Hc & Hi' & Hk'). specialize (Hk' Hk).
  exists rk. pose proof (Validate_role k r rk Hr) as Hv. split; [done|]. split; [done|]. setoid_rewrite Hv.
  destruct rk as [| |p| |t keys|]; try done.
  - right; left. split; [done|]. intros num pk. simpl. by rewrite bool_decide_true.
  - right; right. exists [p]. split; [by constructor|]. split; [done|]. intros num from. simpl.
    unfold pubEqual. by rewrite !Z.eqb_refl.
  - by left.
  - right; right. pose proof Hi' as Hm%multisig_installable; [|apply Hk']. exists (map wk_Key keys).
    assert (Hp : Forall point (map wk_Key keys)).
    { apply Forall_map. eapply Forall_impl; [apply Hk'|]. by intros k' [? _]. }
    assert (Hl : len (map wk_Key keys) = len keys) by (unfold len; by rewrite length_map).
    split; [done|]. rewrite Hl. split; [apply (mo_count _ _ Hm)|]. intros num from. cbn [Validate].
    rewrite validateMultiSig_ok by (done || apply Hk'). f_equal. apply bool_decide_eq_true.
    rewrite signedWeight_all, Hl. split; [apply (mo_threshold _ _ Hm)|]. intros _. split; [done|]. by apply Forall_forall.
Qed.

(** Updating the key of an account: with an installed key and a decoded new one,
    [UpdateKey] succeeds exactly when [CheckReplacable] accepts the new key, and never panics;
    the result is again installable, it is the new key, or, when both are role-based, the old
    key with every role overwritten that the new key does not leave nil. *)
Theorem update_key_correct key newKey :
  CheckInstallable key = Ok tt -> key_ok newKey ->
  match UpdateKey key newKey with
  | Ok key' =>
      CheckReplacable key newKey = Ok tt /\ CheckInstallable key' = Ok tt /\
      match key, newKey with
      | AccountKeyRoleBased old, AccountKeyRoleBased new =>
          exists roles, key' = AccountKeyRoleBased roles /\ forall i, roles !! i = newRole old new i
      | _, _ => key' = newKey
      end
  | Err e => CheckReplacable key newKey = Err e
  | _ => False
  end.
Proof using compress_ok.
  intros Hi Hk. unfold UpdateKey, CheckReplacable. rewrite DeepCopy_id.
  destruct (Type_ key =? Type_ newKey) eqn:Et.
  2: { unfold ReplaceKey. pose proof (installable_returns newKey Hk) as Hr. destruct (CheckInstallable newKey) as [[]| | |] eqn:E; try done.
       cbn. split_and!; try done. by destruct key, newKey. }
  bool_to_prop. pose proof (updatable_returns key newKey Hk) as Hr.
  destruct key as [| |p| |t w|old], newKey as [| |p'| |t' w'|new]; try done; cbn [Update] in *;
    destruct (CheckUpdatable _ _) as [[]|e| |] eqn:E; try done; cbn [mbind res_bind mret res_ret].
  apply roles_installable in Hi as [Hl Ho]. rewrite CheckUpdatable_roles in E.
  destruct (Nat.eqb_spec (length new) 0) as [?|Hn0]; [done|]. destruct (Nat.ltb_spec RoleLast (length new)) as [?|Hn]; [done|].
  set (a := if (length old <? length new)%nat then old ++ drop (length old) new else old).
  assert (Ha : length a = (length old `max` length new)%nat).
  { unfold a. destruct (Nat.ltb_spec (length old) (length new)); [rewrite length_app, length_drop|]; lia. }
  destruct (overwriteRoles_ok new 0 a) as (roles & -> & Hlen & Hroles); [lia|]. cbn [mbind res_bind mret res_ret].
  assert (Hnew : forall i, roles !! i = newRole old new i).
  { intros i. rewrite Hroles, decide_True by lia. rewrite Nat.sub_0_r. unfold newRole. change (drop 0 a) with a.
    pose proof (updateRoles_inv new old E i) as Hinv. unfold a. destruct (new !! i) as [n|] eqn:Hi.
    - destruct (Type_ n =? 0) eqn:Ht; [|done]. bool_to_prop. destruct (Hinv n eq_refl) as [[_ ?]|[? _]]; [|done].
      destruct (_ <? _)%nat; [|done]. by rewrite lookup_app_l.
    - apply lookup_ge_None in Hi. destruct (Nat.ltb_spec (length old) (length new)); [|done].
      rewrite lookup_ge_None_2 by (rewrite length_app, length_drop; lia). symmetry. apply lookup_ge_None_2. lia. }
  split; [done|]. split; [|by eexists]. apply roles_installable. split; [lia|]. apply Forall_lookup. intros i k.
  rewrite Hnew. unfold newRole. pose proof (updateRoles_inv new old E i) as Hinv. destruct (new !! i) as [n|].
  - destruct (Type_ n =? 0) eqn:Ht; [apply (Forall_lookup_1 _ _ _ _ Ho)|]. intros [= <-]. bool_to_prop.
    destruct (Hinv n eq_refl) as [[? _]|(_ & ? & ?)]; done.
  - apply (Forall_lookup_1 _ _ _ _ Ho).
Qed.
End accountkey.

(** ** Witnesses *)

(** An injective encoding of points, and the point with x = 1. *)
Definition demo_compress (pk : PublicKey) : go bytes := Ok (be 32 (pk_X pk) ++ be 32 (pk_Y pk)).
Definition demo_point : PublicKey :=
  mkPub 1 29896722852569046015560700294576055776214335159245303116488692907525646231534.
Definition demo_point2 : PublicKey :=
  mkPub 1 (curveP - 29896722852569046015560700294576055776214335159245303116488692907525646231534).

Lemma demo_compress_ok pk : point pk -> exists b, demo_compress pk = Ok b /\ is_bytes b /\ len b < 256.
Proof.
  intros _. eexists. split; [done|]. split; [apply Forall_app; split; apply be_bytes|].
  rewrite len_app. unfold len. by rewrite !be_length.
Qed.

Lemma demo_compress_inj p q b : point p -> point q -> demo_compress p = Ok b -> demo_compress q = Ok b -> p = q.
Proof.
  unfold demo_compress. intros (_ & Hx & Hy) (_ & Hx' & Hy') Hp Hq.
  assert (be 32 (pk_X p) ++ be 32 (pk_Y p) = be 32 (pk_X q) ++ be 32 (pk_Y q)) as H by congruence.
  apply app_inj_1 in H as [H1 H2]; [|by rewrite !be_length].
  apply (f_equal from_be) in H1, H2. rewrite !from_be_be in H1, H2. unfold curveP in *.
  destruct p, q; simpl in *. rewrite !Z.mod_small in H1, H2 by lia. congruence.
Qed.

Lemma demo_points : point demo_point /\ point demo_point2.
Proof. unfold point. vm_compute. repeat split; congruence. Qed.

Definition demo_multisig : AccountKey :=
  AccountKeyWeightedMultiSig 5 [mkWeighted 3 demo_point; mkWeighted 2 demo_point2].
Definition demo_roles : AccountKey := AccountKeyRoleBased [demo_multisig; AccountKeyFail].

Lemma demo_multisig_ok : key_ok demo_multisig.
Proof. destruct demo_points. repeat (split || constructor); done. Qed.

Definition demo_addr (pk : PublicKey) : Address := be 20 (pk_X pk).

Lemma multisig_validation_witness :
  Validate demo_compress demo_addr (fun _ => true) demo_multisig 7 RoleTransaction [demo_point2; demo_point] [1] = Ok true.
Proof.
  etransitivity.
  - apply (multisig_validation demo_compress demo_addr (fun _ => true) demo_compress_ok demo_compress_inj).
    + apply demo_multisig_ok.
    + vm_compute. reflexivity.
    + destruct demo_points. repeat constructor; done.
  - vm_compute. reflexivity.
Defined.

Lemma installable_key_usable_witness :
  exists rk, roleKey demo_roles RoleFeePayer = Some rk.
Proof.
  destruct (installable_key_usable demo_compress demo_addr (fun _ => true) demo_compress_ok demo_compress_inj
              demo_roles RoleFeePayer) as (rk & H & _).
  - split; [apply demo_multisig_ok|]. by split.
  - vm_compute. reflexivity.
  - by exists rk.
Defined.

Lemma update_key_correct_witness :
  let old := [demo_multisig; AccountKeyFail] in
  let new := [AccountKeyNil; AccountKeyPublic demo_point] in
  match UpdateKey demo_compress (AccountKeyRoleBased old) (AccountKeyRoleBased new) with
  | Ok key' =>
      CheckReplacable demo_compress (AccountKeyRoleBased old) (AccountKeyRoleBased new) = Ok tt /\
      CheckInstallable demo_compress key' = Ok tt /\
      exists roles, key' = AccountKeyRoleBased roles /\ forall i, roles !! i = newRole old new i
  | Err e => CheckReplacable demo_compress (AccountKeyRoleBased old) (AccountKeyRoleBased new) = Err e
  | _ => False
  end.
Proof.
  intros old new. apply (update_key_correct demo_compress demo_compress_ok (AccountKeyRoleBased old) (AccountKeyRoleBased new)).
  - vm_compute. reflexivity.
  - split; [exact I|]. split; [apply demo_points|exact I].
Defined.
End AccountKey.
