(* ===== verification/StateDB.v ===== *)
(** * State database

    Accounts ([blockchain/types/account]) and the state database of [blockchain/state]: state
    objects with their caches, the journal, snapshots, access list, transient storage, and the
    flush into the account trie at the end of a transaction.

    The account trie and the storage tries are the maps they represent (see [SecureTrie]), with
    decoded accounts as the values of the former; reads of a complete database do not fail, so
    that [dbErr] stays nil.  Hashing, the code store and the opening of storage tries are
    parameters. *)

From S2P Require Import Prelude Rlp AccountKey.

Module Account.
Import AccountKey.

(** ** Accounts *)

(** [AccountCommon]. *)
Record AccountCommon := mkCommon {
  ac_nonce : Z;
  ac_balance : Z;
  ac_humanReadable : bool;
  ac_key : AccountKey
}.

(** The implementations of [Account]; the deprecated legacy account cannot be created and
    does not implement [ProgramAccount] any more. *)
Inductive Account :=
| ExternallyOwnedAccount (c : AccountCommon)
| SmartContractAccount (c : AccountCommon) (storageRoot : bytes) (codeHash : bytes) (codeInfo : Z).

Definition common (a : Account) : AccountCommon :=
  match a with ExternallyOwnedAccount c => c | SmartContractAccount c _ _ _ => c end.
Definition withCommon (a : Account) (c : AccountCommon) : Account :=
  match a with
  | ExternallyOwnedAccount _ => ExternallyOwnedAccount c
  | SmartContractAccount _ r h i => SmartContractAccount c r h i
  end.

Definition GetNonce (a : Account) : Z := ac_nonce (common a).
Definition GetBalance (a : Account) : Z := ac_balance (common a).
Definition SetNonce (a : Account) (n : Z) : Account :=
  let c := common a in withCommon a (mkCommon n (ac_balance c) (ac_humanReadable c) (ac_key c)).
Definition SetBalance (a : Account) (b : Z) : Account :=
  let c := common a in withCommon a (mkCommon (ac_nonce c) b (ac_humanReadable c) (ac_key c)).

(** The optional values of [NewAccountWithMap]. *)
Record accountValues := mkValues {
  v_Nonce : option Z;
  v_Balance : option Z;
  v_HumanReadable : option bool;
  v_AccountKey : option AccountKey;
  v_StorageRoot : option bytes;
  v_CodeHash : option bytes;
  v_CodeInfo : option Z
}.

(** [newAccountCommon] and [newAccountCommonWithMap]. *)
Definition newAccountCommon : AccountCommon := mkCommon 0 0 false AccountKeyLegacy.
Definition newAccountCommonWithMap (v : accountValues) : AccountCommon :=
  mkCommon (default 0 (v_Nonce v)) (default 0 (v_Balance v)) (default false (v_HumanReadable v))
    (default AccountKeyLegacy (v_AccountKey v)).

(** [common.ExtHash]: a hash with seven more bytes. *)
Definition emptyExtHash : bytes := replicate 39 0.

Section account.
Context (CompressPubkey : PublicKey -> go bytes) (emptyCodeHash : bytes).

(** [NewAccountWithType] and [NewAccountWithMap], for externally owned and contract accounts. *)
Definition newExternallyOwnedAccount : Account := ExternallyOwnedAccount newAccountCommon.
Definition newExternallyOwnedAccountWithMap (v : accountValues) : Account :=
  ExternallyOwnedAccount (newAccountCommonWithMap v).
Definition newSmartContractAccountWithMap (v : accountValues) : Account :=
  SmartContractAccount (newAccountCommonWithMap v) (default emptyExtHash (v_StorageRoot v))
    (default emptyCodeHash (v_CodeHash v)) (default 0 (v_CodeInfo v)).

(** [Account.Empty]. *)
Definition Empty (a : Account) : bool :=
  match a with
  | ExternallyOwnedAccount c =>
      (ac_nonce c =? 0) && (ac_balance c =? 0) && match ac_key c with AccountKeyLegacy => true | _ => false end
  | SmartContractAccount c _ codeHash _ =>
      (ac_nonce c =? 0) && (ac_balance c =? 0) && bool_decide (codeHash = emptyCodeHash)
  end.

(** [Account.UpdateKey]. *)
Definition updateKey (a : Account) (newKey : AccountKey) : K Account :=
  match a with
  | ExternallyOwnedAccount c =>
      k ← UpdateKey CompressPubkey (ac_key c) newKey;
      mret (ExternallyOwnedAccount (mkCommon (ac_nonce c) (ac_balance c) (ac_humanReadable c) k))
  | SmartContractAccount _ _ _ _ => Err ErrAccountKeyNotModifiable
  end.
End account.

(** [GetProgramAccount], and the parts of a program account. *)
Definition isProgram (a : Account) : bool := match a with SmartContractAccount _ _ _ _ => true | _ => false end.
Definition SetStorageRoot (a : Account) (r : bytes) : Account :=
  match a with SmartContractAccount c _ h i => SmartContractAccount c r h i | _ => a end.
Definition SetCodeHash (a : Account) (h : bytes) : Account :=
  match a with SmartContractAccount c r _ i => SmartContractAccount c r h i | _ => a end.

(** [NewCodeInfo] and [NewCodeInfoWithRules], with the two forks the latter asks for. *)
Definition NewCodeInfo (codeFormat vmVersion : Z) : Z := Z.lor (Z.land codeFormat 15) (u8 (Z.shiftl vmVersion 4)).
Definition NewCodeInfoWithRules (codeFormat : Z) (isIstanbul isLondon : bool) : Z :=
  NewCodeInfo codeFormat (if isLondon || isIstanbul then 1 else 0).
End Account.

Module State.
Import AccountKey Account RLP.

Definition zeroHash : Hash := replicate 32 0.
Definition ripemd : Address := replicate 19 0 ++ [3].
Abbreviation Storage := (gmap Hash Hash).

(** ** Access list *)

(** [accessList]: the index of the slots of an address, or -1. *)
Record accessList := mkAccessList { al_addresses : gmap Address Z; al_slots : list (gset Hash) }.
Definition newAccessList : accessList := mkAccessList ∅ [].

Definition ContainsAddress (al : accessList) (a : Address) : bool := bool_decide (is_Some (al_addresses al !! a)).
Definition Contains (al : accessList) (a : Address) (slot : Hash) : go (bool * bool) :=
  match al_addresses al !! a with
  | None => mret (false, false)
  | Some idx =>
      if idx =? -1 then mret (true, false)
      else slots ← index (al_slots al) (Z.to_nat idx); mret (true, bool_decide (slot ∈ slots))
  end.
Definition AddAddress (al : accessList) (a : Address) : bool * accessList :=
  match al_addresses al !! a with
  | Some _ => (false, al)
  | None => (true, mkAccessList (<[a := -1]> (al_addresses al)) (al_slots al))
  end.
Definition AddSlot (al : accessList) (a : Address) (slot : Hash) : go (bool * bool * accessList) :=
  let fresh addrChange :=
    (addrChange, true, mkAccessList (<[a := len (al_slots al)]> (al_addresses al)) (al_slots al ++ [{[slot]}])) in
  match al_addresses al !! a with
  | None => mret (fresh true)
  | Some idx =>
      if idx =? -1 then mret (fresh false)
      else
        slotmap ← index (al_slots al) (Z.to_nat idx);
        if bool_decide (slot ∈ slotmap) then mret (false, false, al)
        else
          slots ← store (al_slots al) (Z.to_nat idx) ({[slot]} ∪ slotmap);
          mret (false, true, mkAccessList (al_addresses al) slots)
  end.
Definition DeleteSlot (al : accessList) (a : Address) (slot : Hash) : go accessList :=
  match al_addresses al !! a with
  | None => Panic
  | Some idx =>
      slotmap ← (if idx <? 0 then Panic else index (al_slots al) (Z.to_nat idx));
      let slotmap := slotmap ∖ {[slot]} in
      slots ← store (al_slots al) (Z.to_nat idx) slotmap;
      if bool_decide (slotmap = ∅)
      then mret (mkAccessList (<[a := -1]> (al_addresses al)) (take (Z.to_nat idx) slots))
      else mret (mkAccessList (al_addresses al) slots)
  end.
Definition DeleteAddress (al : accessList) (a : Address) : accessList :=
  mkAccessList (delete a (al_addresses al)) (al_slots al).

(** ** State objects *)

(** [stateObject]; [None] is a nil trie or nil code.  The fake storage is left out: nothing
    reads it. *)
Record stateObject := mkObject {
  so_address : Address;
  so_account : Account;
  so_storageTrie : option (gmap Hash bytes);
  so_code : option bytes;
  so_originStorage : Storage;
  so_dirtyStorage : Storage;
  so_dirtyCode : bool;
  so_selfDestructed : bool;
  so_deleted : bool;
  so_created : bool
}.

Definition newObject (a : Address) (acc : Account) : stateObject := mkObject a acc None None ∅ ∅ false false false false.

Definition withAccount (acc : Account) (o : stateObject) : stateObject :=
  mkObject (so_address o) acc (so_storageTrie o) (so_code o) (so_originStorage o) (so_dirtyStorage o) (so_dirtyCode o)
    (so_selfDestructed o) (so_deleted o) (so_created o).
Definition withTrie (t : gmap Hash bytes) (o : stateObject) : stateObject :=
  mkObject (so_address o) (so_account o) (Some t) (so_code o) (so_originStorage o) (so_dirtyStorage o) (so_dirtyCode o)
    (so_selfDestructed o) (so_deleted o) (so_created o).
Definition withCode (c : option bytes) (dirty : bool) (o : stateObject) : stateObject :=
  mkObject (so_address o) (so_account o) (so_storageTrie o) c (so_originStorage o) (so_dirtyStorage o) dirty
    (so_selfDestructed o) (so_deleted o) (so_created o).
Definition withOrigin (m : Storage) (o : stateObject) : stateObject :=
  mkObject (so_address o) (so_account o) (so_storageTrie o) (so_code o) m (so_dirtyStorage o) (so_dirtyCode o)
    (so_selfDestructed o) (so_deleted o) (so_created o).
Definition withDirty (m : Storage) (o : stateObject) : stateObject :=
  mkObject (so_address o) (so_account o) (so_storageTrie o) (so_code o) (so_originStorage o) m (so_dirtyCode o)
    (so_selfDestructed o) (so_deleted o) (so_created o).
Definition withFlags (selfDestructed deleted created : bool) (o : stateObject) : stateObject :=
  mkObject (so_address o) (so_account o) (so_storageTrie o) (so_code o) (so_originStorage o) (so_dirtyStorage o)
    (so_dirtyCode o) selfDestructed deleted created.

(** [setBalance], [setNonce], [setState]. *)
Definition setBalance (b : Z) (o : stateObject) : stateObject := withAccount (SetBalance (so_account o) b) o.
Definition setNonce (n : Z) (o : stateObject) : stateObject := withAccount (SetNonce (so_account o) n) o.
Definition setState (key value : Hash) (o : stateObject) : stateObject := withDirty (<[key := value]> (so_dirtyStorage o)) o.

(** ** Journal *)

Inductive journalEntry :=
| createObjectChange (account : Address)
| resetObjectChange (prev : stateObject) (prevdestruct : bool)
| selfDestructChange (account : Address) (prev : bool) (prevbalance : Z)
| balanceChange (account : Address) (prev : Z)
| nonceChange (account : Address) (prev : Z)
| storageChange (account : Address) (key prevalue : Hash)
| codeChange (account : Address) (prevcode : option bytes) (prevhash : bytes)
| refundChange (prev : Z)
| addLogChange (txhash : Hash)
| addPreimageChange (hash : Hash)
| touchChange (account : Address)
| accessListAddAccountChange (address : Address)
| accessListAddSlotChange (address : Address) (slot : Hash)
| transientStorageChange (account : Address) (key prevalue : Hash).

(** [journalEntry.dirtied]. *)
Definition dirtied (e : journalEntry) : option Address :=
  match e with
  | createObjectChange a | selfDestructChange a _ _ | balanceChange a _ | nonceChange a _ | storageChange a _ _
  | codeChange a _ _ | touchChange a => Some a
  | _ => None
  end.

Record journal := mkJournal { j_entries : list journalEntry; j_dirties : gmap Address Z }.
Definition newJournal : journal := mkJournal [] ∅.

(** [journal.dirty], [journal.append]. *)
Definition dirtyAddr (a : Address) (j : journal) : journal :=
  mkJournal (j_entries j) (<[a := default 0 (j_dirties j !! a) + 1]> (j_dirties j)).
Definition append (e : journalEntry) (j : journal) : journal :=
  let j := mkJournal (j_entries j ++ [e]) (j_dirties j) in
  match dirtied e with Some a => dirtyAddr a j | None => j end.

(** The dirty counter of an entry that is dropped. *)
Definition undirty (e : journalEntry) (d : gmap Address Z) : gmap Address Z :=
  match dirtied e with
  | Some a => let n := default 0 (d !! a) - 1 in if n =? 0 then delete a d else <[a := n]> d
  | None => d
  end.

(** ** The state *)

Record Log := mkLog {
  lg_Address : Address;
  lg_Topics : list Hash;
  lg_Data : bytes;
  lg_TxHash : Hash;
  lg_TxIndex : Z;
  lg_BlockHash : Hash;
  lg_Index : Z
}.

(** A flat snapshot of the state: [None] when the read fails, for instance because the
    snapshot is being generated; an account or a slot that does not exist is [Some None]. *)
Record Snapshot_ := mkSnap {
  sn_Account : Hash -> option (option Account);
  sn_Storage : Hash -> Hash -> option bytes
}.

(** [StateDB]; a nil [stateObjectsDirtyStorage] is [None]. *)
Record StateDB := mkState {
  sd_trie : gmap Address Account;
  sd_snap : option Snapshot_;
  sd_snapDestructs : gset Hash;
  sd_snapAccounts : gmap Hash Account;
  sd_snapStorage : gmap Hash (gmap Hash bytes);
  sd_stateObjects : gmap Address stateObject;
  sd_stateObjectsDirty : gset Address;
  sd_stateObjectsDirtyStorage : option (gset Address);
  sd_refund : Z;
  sd_thash : Hash;
  sd_bhash : Hash;
  sd_txIndex : Z;
  sd_logs : gmap Hash (list Log);
  sd_logSize : Z;
  sd_preimages : gmap Hash bytes;
  sd_accessList : accessList;
  sd_transientStorage : gmap Address Storage;
  sd_journal : journal;
  sd_validRevisions : list (Z * nat);
  sd_nextRevisionId : Z
}.

(** [New] on a trie, with an optional snapshot. *)
Definition New (trie : gmap Address Account) (snap : option Snapshot_) : StateDB :=
  mkState trie snap ∅ ∅ ∅ ∅ ∅ (Some ∅) 0 zeroHash zeroHash 0 ∅ 0 ∅ newAccessList ∅ newJournal [] 0.

Definition setTrie (x : gmap Address Account) (s : StateDB) : StateDB :=
  mkState x (sd_snap s) (sd_snapDestructs s) (sd_snapAccounts s) (sd_snapStorage s) (sd_stateObjects s)
    (sd_stateObjectsDirty s) (sd_stateObjectsDirtyStorage s) (sd_refund s) (sd_thash s) (sd_bhash s) (sd_txIndex s)
    (sd_logs s) (sd_logSize s) (sd_preimages s) (sd_accessList s) (sd_transientStorage s) (sd_journal s)
    (sd_validRevisions s) (sd_nextRevisionId s).
Definition setDestructs (x : gset Hash) (s : StateDB) : StateDB :=
  mkState (sd_trie s) (sd_snap s) x (sd_snapAccounts s) (sd_snapStorage s) (sd_stateObjects s)
    (sd_stateObjectsDirty s) (sd_stateObjectsDirtyStorage s) (sd_refund s) (sd_thash s) (sd_bhash s) (sd_txIndex s)
    (sd_logs s) (sd_logSize s) (sd_preimages s) (sd_accessList s) (sd_transientStorage s) (sd_journal s)
    (sd_validRevisions s) (sd_nextRevisionId s).
Definition setSnapData (x : gmap Hash Account) (y : gmap Hash (gmap Hash bytes)) (s : StateDB) : StateDB :=
  mkState (sd_trie s) (sd_snap s) (sd_snapDestructs s) x y (sd_stateObjects s) (sd_stateObjectsDirty s)
    (sd_stateObjectsDirtyStorage s) (sd_refund s) (sd_thash s) (sd_bhash s) (sd_txIndex s) (sd_logs s) (sd_logSize s)
    (sd_preimages s) (sd_accessList s) (sd_transientStorage s) (sd_journal s) (sd_validRevisions s)
    (sd_nextRevisionId s).
Definition setObjects (x : gmap Address stateObject) (s : StateDB) : StateDB :=
  mkState (sd_trie s) (sd_snap s) (sd_snapDestructs s) (sd_snapAccounts s) (sd_snapStorage s) x
    (sd_stateObjectsDirty s) (sd_stateObjectsDirtyStorage s) (sd_refund s) (sd_thash s) (sd_bhash s) (sd_txIndex s)
    (sd_logs s) (sd_logSize s) (sd_preimages s) (sd_accessList s) (sd_transientStorage s) (sd_journal s)
    (sd_validRevisions s) (sd_nextRevisionId s).
Definition setDirty (x : gset Address) (s : StateDB) : StateDB :=
  mkState (sd_trie s) (sd_snap s) (sd_snapDestructs s) (sd_snapAccounts s) (sd_snapStorage s) (sd_stateObjects s) x
    (sd_stateObjectsDirtyStorage s) (sd_refund s) (sd_thash s) (sd_bhash s) (sd_txIndex s) (sd_logs s) (sd_logSize s)
    (sd_preimages s) (sd_accessList s) (sd_transientStorage s) (sd_journal s) (sd_validRevisions s)
    (sd_nextRevisionId s).
Definition setDirtyStorage (x : option (gset Address)) (s : StateDB) : StateDB :=
  mkState (sd_trie s) (sd_snap s) (sd_snapDestructs s) (sd_snapAccounts s) (sd_snapStorage s) (sd_stateObjects s)
    (sd_stateObjectsDirty s) x (sd_refund s) (sd_thash s) (sd_bhash s) (sd_txIndex s) (sd_logs s) (sd_logSize s)
    (sd_preimages s) (sd_accessList s) (sd_transientStorage s) (sd_journal s) (sd_validRevisions s)
    (sd_nextRevisionId s).
Definition setRefund (x : Z) (s : StateDB) : StateDB :=
  mkState (sd_trie s) (sd_snap s) (sd_snapDestructs s) (sd_snapAccounts s) (sd_snapStorage s) (sd_stateObjects s)
    (sd_stateObjectsDirty s) (sd_stateObjectsDirtyStorage s) x (sd_thash s) (sd_bhash s) (sd_txIndex s) (sd_logs s)
    (sd_logSize s) (sd_preimages s) (sd_accessList s) (sd_transientStorage s) (sd_journal s) (sd_validRevisions s)
    (sd_nextRevisionId s).
Definition setLogs (x : gmap Hash (list Log)) (y : Z) (s : StateDB) : StateDB :=
  mkState (sd_trie s) (sd_snap s) (sd_snapDestructs s) (sd_snapAccounts s) (sd_snapStorage s) (sd_stateObjects s)
    (sd_stateObjectsDirty s) (sd_stateObjectsDirtyStorage s) (sd_refund s) (sd_thash s) (sd_bhash s) (sd_txIndex s) x
    y (sd_preimages s) (sd_accessList s) (sd_transientStorage s) (sd_journal s) (sd_validRevisions s)
    (sd_nextRevisionId s).
Definition setPreimages (x : gmap Hash bytes) (s : StateDB) : StateDB :=
  mkState (sd_trie s) (sd_snap s) (sd_snapDestructs s) (sd_snapAccounts s) (sd_snapStorage s) (sd_stateObjects s)
    (sd_stateObjectsDirty s) (sd_stateObjectsDirtyStorage s) (sd_refund s) (sd_thash s) (sd_bhash s) (sd_txIndex s)
    (sd_logs s) (sd_logSize s) x (sd_accessList s) (sd_transientStorage s) (sd_journal s) (sd_validRevisions s)
    (sd_nextRevisionId s).
Definition setAccessList (x : accessList) (s : StateDB) : StateDB :=
  mkState (sd_trie s) (sd_snap s) (sd_snapDestructs s) (sd_snapAccounts s) (sd_snapStorage s) (sd_stateObjects s)
    (sd_stateObjectsDirty s) (sd_stateObjectsDirtyStorage s) (sd_refund s) (sd_thash s) (sd_bhash s) (sd_txIndex s)
    (sd_logs s) (sd_logSize s) (sd_preimages s) x (sd_transientStorage s) (sd_journal s) (sd_validRevisions s)
    (sd_nextRevisionId s).
Definition setTransient (x : gmap Address Storage) (s : StateDB) : StateDB :=
  mkState (sd_trie s) (sd_snap s) (sd_snapDestructs s) (sd_snapAccounts s) (sd_snapStorage s) (sd_stateObjects s)
    (sd_stateObjectsDirty s) (sd_stateObjectsDirtyStorage s) (sd_refund s) (sd_thash s) (sd_bhash s) (sd_txIndex s)
    (sd_logs s) (sd_logSize s) (sd_preimages s) (sd_accessList s) x (sd_journal s) (sd_validRevisions s)
    (sd_nextRevisionId s).
Definition setJournal (x : journal) (s : StateDB) : StateDB :=
  mkState (sd_trie s) (sd_snap s) (sd_snapDestructs s) (sd_snapAccounts s) (sd_snapStorage s) (sd_stateObjects s)
    (sd_stateObjectsDirty s) (sd_stateObjectsDirtyStorage s) (sd_refund s) (sd_thash s) (sd_bhash s) (sd_txIndex s)
    (sd_logs s) (sd_logSize s) (sd_preimages s) (sd_accessList s) (sd_transientStorage s) x (sd_validRevisions s)
    (sd_nextRevisionId s).
Definition setRevisions (x : list (Z * nat)) (y : Z) (s : StateDB) : StateDB :=
  mkState (sd_trie s) (sd_snap s) (sd_snapDestructs s) (sd_snapAccounts s) (sd_snapStorage s) (sd_stateObjects s)
    (sd_stateObjectsDirty s) (sd_stateObjectsDirtyStorage s) (sd_refund s) (sd_thash s) (sd_bhash s) (sd_txIndex s)
    (sd_logs s) (sd_logSize s) (sd_preimages s) (sd_accessList s) (sd_transientStorage s) (sd_journal s) x y.

(** [SetTxContext]. *)
Definition SetTxContext (thash bhash : Hash) (ti : Z) (s : StateDB) : StateDB :=
  mkState (sd_trie s) (sd_snap s) (sd_snapDestructs s) (sd_snapAccounts s) (sd_snapStorage s) (sd_stateObjects s)
    (sd_stateObjectsDirty s) (sd_stateObjectsDirtyStorage s) (sd_refund s) thash bhash ti (sd_logs s) (sd_logSize s)
    (sd_preimages s) (sd_accessList s) (sd_transientStorage s) (sd_journal s) (sd_validRevisions s)
    (sd_nextRevisionId s).

(** [setStateObject], [journal.append] on the state. *)
Definition setStateObject (o : stateObject) (s : StateDB) : StateDB :=
  setObjects (<[so_address o := o]> (sd_stateObjects s)) s.
Definition journalAppend (e : journalEntry) (s : StateDB) : StateDB := setJournal (append e (sd_journal s)) s.

(** What the state database relies on: Keccak-256, the contract codes of the database, the
    storage trie of a root ([None] when it cannot be opened), the root of a storage trie, and the
    compression of public keys. *)
Class StateEnv := {
  keccak : bytes -> Hash;
  contractCode : Hash -> option bytes;
  openStorageTrie : bytes -> option (gmap Hash bytes);
  hashExt : gmap Hash bytes -> bytes;
  compressPubkey : PublicKey -> go bytes
}.

Section statedb.
Context {env : StateEnv}.

Definition emptyCodeHash : bytes := keccak [].
Definition addrHash (o : stateObject) : Hash := keccak (so_address o).
Definition empty_ (o : stateObject) : bool := Empty emptyCodeHash (so_account o).

(** ** Reading an object *)

(** [CodeHash]. *)
Definition CodeHash (o : stateObject) : bytes :=
  match so_account o with SmartContractAccount _ _ h _ => h | _ => emptyCodeHash end.

(** [Code]: the code and the object with the code loaded. *)
Definition Code (o : stateObject) : option bytes * stateObject :=
  match so_code o with
  | Some c => (Some c, o)
  | None =>
      if bool_decide (CodeHash o = emptyCodeHash) then (None, o)
      else let code := contractCode (BytesToHash (CodeHash o)) in (code, withCode code (so_dirtyCode o) o)
  end.

(** [getStorageTrie]: the trie is opened on first access. *)
Definition openedTrie (o : stateObject) : gmap Hash bytes :=
  match so_storageTrie o with
  | Some t => t
  | None =>
      match so_account o with
      | SmartContractAccount _ root _ _ => default ∅ (openStorageTrie root)
      | _ => default ∅ (openStorageTrie emptyExtHash)
      end
  end.
Definition getStorageTrie (o : stateObject) : gmap Hash bytes * stateObject :=
  (openedTrie o, withTrie (openedTrie o) o).

(** The value stored in a trie or snapshot: an RLP string without leading zeros. *)
Definition decodeSlot (enc : option bytes) : Hash :=
  match enc with
  | None | Some [] => zeroHash
  | Some enc =>
      match Split enc with
      | Ok (_, content, _) => BytesToHash content
      | _ => zeroHash
      end
  end.

(** [stateObject.GetCommittedState]. *)
Definition objGetCommittedState (s : StateDB) (o : stateObject) (key : Hash) : Hash * stateObject :=
  match so_originStorage o !! key with
  | Some v => (v, o)
  | None =>
      let fromTrie :=
        let '(tr, o) := getStorageTrie o in
        let v := decodeSlot (tr !! key) in (v, withOrigin (<[key := v]> (so_originStorage o)) o) in
      match sd_snap s with
      | Some snap =>
          if bool_decide (addrHash o ∈ sd_snapDestructs s) then (zeroHash, o)
          else match sn_Storage snap (addrHash o) (keccak key) with
               | Some enc => let v := decodeSlot (Some enc) in (v, withOrigin (<[key := v]> (so_originStorage o)) o)
               | None => fromTrie
               end
      | None => fromTrie
      end
  end.
Definition objGetState (s : StateDB) (o : stateObject) (key : Hash) : Hash * stateObject :=
  match so_dirtyStorage o !! key with
  | Some v => (v, o)
  | None => objGetCommittedState s o key
  end.

(** ** Reading the state *)

(** The account of the database under an address: the snapshot's, or the trie's. *)
Definition readAccount (s : StateDB) (a : Address) : option Account :=
  match sd_snap s with
  | Some snap =>
      match sn_Account snap (keccak a) with
      | Some acc => acc
      | None => sd_trie s !! a
      end
  | None => sd_trie s !! a
  end.

(** [getDeletedStateObject] and [getStateObject]. *)
Definition getDeletedStateObject (a : Address) (s : StateDB) : option stateObject * StateDB :=
  match sd_stateObjects s !! a with
  | Some o => (Some o, s)
  | None =>
      match readAccount s a with
      | None => (None, s)
      | Some acc => let o := newObject a acc in (Some o, setStateObject o s)
      end
  end.
Definition getStateObject (a : Address) (s : StateDB) : option stateObject * StateDB :=
  let '(o, s) := getDeletedStateObject a s in
  match o with
  | Some o => (if so_deleted o then None else Some o, s)
  | None => (None, s)
  end.

(** The getters of [StateDB]. *)
Definition Exist (a : Address) (s : StateDB) : bool * StateDB :=
  let '(o, s) := getStateObject a s in (bool_decide (is_Some o), s).
Definition EmptyAt (a : Address) (s : StateDB) : bool * StateDB :=
  let '(o, s) := getStateObject a s in (match o with Some o => empty_ o | None => true end, s).
Definition GetBalanceAt (a : Address) (s : StateDB) : Z * StateDB :=
  let '(o, s) := getStateObject a s in (match o with Some o => GetBalance (so_account o) | None => 0 end, s).
Definition GetNonceAt (a : Address) (s : StateDB) : Z * StateDB :=
  let '(o, s) := getStateObject a s in (match o with Some o => GetNonce (so_account o) | None => 0 end, s).
Definition GetKeyAt (a : Address) (s : StateDB) : AccountKey * StateDB :=
  let '(o, s) := getStateObject a s in (match o with Some o => ac_key (common (so_account o)) | None => AccountKeyLegacy end, s).
Definition GetCodeHashAt (a : Address) (s : StateDB) : Hash * StateDB :=
  let '(o, s) := getStateObject a s in
  (BytesToHash (match o with Some o => CodeHash o | None => emptyCodeHash end), s).
Definition HasSelfDestructed (a : Address) (s : StateDB) : bool * StateDB :=
  let '(o, s) := getStateObject a s in (match o with Some o => so_selfDestructed o | None => false end, s).
Definition isContractAccount (o : stateObject) : bool :=
  isProgram (so_account o) && negb (bool_decide (CodeHash o = emptyCodeHash)).
Definition IsContractAccount (a : Address) (s : StateDB) : bool * StateDB :=
  let '(o, s) := getStateObject a s in (match o with Some o => isContractAccount o | None => false end, s).
Definition IsContractAvailable (a : Address) (s : StateDB) : bool * StateDB :=
  let '(o, s) := getStateObject a s in
  (match o with Some o => isContractAccount o && negb (so_selfDestructed o) | None => false end, s).
Definition IsProgramAccount (a : Address) (s : StateDB) : bool * StateDB :=
  let '(o, s) := getStateObject a s in (match o with Some o => isProgram (so_account o) | None => false end, s).
Definition GetCodeAt (a : Address) (s : StateDB) : option bytes * StateDB :=
  let '(o, s) := getStateObject a s in
  match o with
  | Some o => let '(c, o) := Code o in (c, setStateObject o s)
  | None => (None, s)
  end.
Definition GetStateAt (a : Address) (key : Hash) (s : StateDB) : Hash * StateDB :=
  let '(o, s) := getStateObject a s in
  match o with
  | Some o => let '(v, o) := objGetState s o key in (v, setStateObject o s)
  | None => (zeroHash, s)
  end.
Definition GetCommittedStateAt (a : Address) (key : Hash) (s : StateDB) : Hash * StateDB :=
  let '(o, s) := getStateObject a s in
  match o with
  | Some o => let '(v, o) := objGetCommittedState s o key in (v, setStateObject o s)
  | None => (zeroHash, s)
  end.
Definition GetTransientState (a : Address) (key : Hash) (s : StateDB) : Hash :=
  match sd_transientStorage s !! a with
  | None => zeroHash
  | Some m => default zeroHash (m !! key)
  end.
Definition GetLogs (h : Hash) (s : StateDB) : list Log := default [] (sd_logs s !! h).

(** ** Creating objects *)

(** The common part of [createObject] and [createObjectWithMap], with the account made by the
    caller: the new object and the one it replaces. *)
Definition createObjectWith (a : Address) (acc : Account) (s : StateDB) : stateObject * option stateObject * StateDB :=
  let '(prev, s) := getDeletedStateObject a s in
  let prevdestruct :=
    match sd_snap s, prev with
    | Some _, Some p => bool_decide (addrHash p ∈ sd_snapDestructs s)
    | _, _ => false
    end in
  let s := match sd_snap s, prev with
           | Some _, Some p => if prevdestruct then s else setDestructs ({[addrHash p]} ∪ sd_snapDestructs s) s
           | _, _ => s
           end in
  let newobj := setNonce 0 (newObject a acc) in
  let s := journalAppend (match prev with None => createObjectChange a | Some p => resetObjectChange p prevdestruct end) s in
  let newobj := withFlags (so_selfDestructed newobj) (so_deleted newobj) true newobj in
  let s := setStateObject newobj s in
  (newobj, match prev with Some p => if so_deleted p then None else Some p | None => None end, s).

Definition createObject (a : Address) (s : StateDB) := createObjectWith a newExternallyOwnedAccount s.
Definition createObjectWithMap (a : Address) (contract : bool) (v : accountValues) (s : StateDB) :=
  createObjectWith a (if contract then newSmartContractAccountWithMap emptyCodeHash v
                      else newExternallyOwnedAccountWithMap v) s.

(** [GetOrNewStateObject] and [GetOrNewSmartContract]. *)
Definition GetOrNewStateObject (a : Address) (s : StateDB) : stateObject * StateDB :=
  let '(o, s) := getStateObject a s in
  match o with
  | Some o => (o, s)
  | None => let '(o, _, s) := createObject a s in (o, s)
  end.
Definition GetOrNewSmartContract (a : Address) (s : StateDB) : stateObject * StateDB :=
  let '(o, s) := getStateObject a s in
  match o with
  | Some o => (o, s)
  | None =>
      let '(o, _, s) := createObjectWithMap a true (mkValues (Some 1) None (Some false) (Some AccountKeyFail) None None None) s in
      (o, s)
  end.

(** [CreateAccount], [CreateEOA] and [CreateSmartContractAccountWithKey]: the balance of the
    account that is replaced is carried over. *)
Definition carryBalance (r : stateObject * option stateObject * StateDB) : StateDB :=
  let '(o, prev, s) := r in
  match prev with
  | Some p => setStateObject (setBalance (GetBalance (so_account p)) o) s
  | None => s
  end.
Definition CreateAccount (a : Address) (s : StateDB) : StateDB := carryBalance (createObject a s).
Definition CreateEOA (a : Address) (humanReadable : bool) (key : AccountKey) (s : StateDB) : StateDB :=
  carryBalance (createObjectWithMap a false (mkValues None None (Some humanReadable) (Some key) None None None) s).
Definition CreateSmartContractAccountWithKey (a : Address) (humanReadable : bool) (key : AccountKey) (format : Z)
    (isIstanbul isLondon : bool) (s : StateDB) : StateDB :=
  carryBalance (createObjectWithMap a true
    (mkValues (Some 1) None (Some humanReadable) (Some key) None None
       (Some (NewCodeInfoWithRules format isIstanbul isLondon))) s).
Definition CreateSmartContractAccount (a : Address) (format : Z) (isIstanbul isLondon : bool) (s : StateDB) : StateDB :=
  CreateSmartContractAccountWithKey a false AccountKeyFail format isIstanbul isLondon s.

(** ** Changing objects *)

Definition objSetBalance (amount : Z) (o : stateObject) (s : StateDB) : StateDB :=
  setStateObject (setBalance amount o)
    (journalAppend (balanceChange (so_address o) (GetBalance (so_account o))) s).
Definition touch (o : stateObject) (s : StateDB) : StateDB :=
  let s := journalAppend (touchChange (so_address o)) s in
  if bool_decide (so_address o = ripemd) then setJournal (dirtyAddr (so_address o) (sd_journal s)) s else s.

Definition AddBalance (a : Address) (amount : Z) (s : StateDB) : StateDB :=
  let '(o, s) := GetOrNewStateObject a s in
  if amount =? 0 then (if empty_ o then touch o s else s)
  else objSetBalance (GetBalance (so_account o) + amount) o s.
Definition SubBalance (a : Address) (amount : Z) (s : StateDB) : StateDB :=
  let '(o, s) := GetOrNewStateObject a s in
  if amount =? 0 then s else objSetBalance (GetBalance (so_account o) - amount) o s.
Definition SetBalanceAt (a : Address) (amount : Z) (s : StateDB) : StateDB :=
  let '(o, s) := GetOrNewStateObject a s in objSetBalance amount o s.

Definition objSetNonce (nonce : Z) (o : stateObject) (s : StateDB) : StateDB :=
  setStateObject (setNonce nonce o) (journalAppend (nonceChange (so_address o) (GetNonce (so_account o))) s).
Definition IncNonce (a : Address) (s : StateDB) : StateDB :=
  let '(o, s) := GetOrNewStateObject a s in objSetNonce (u64 (GetNonce (so_account o) + 1)) o s.
Definition SetNonceAt (a : Address) (nonce : Z) (s : StateDB) : StateDB :=
  let '(o, s) := GetOrNewStateObject a s in objSetNonce nonce o s.

(** [stateObject.setCode]: an error, and no change, unless the account has a program. *)
Definition setCode (codeHash : Hash) (code : option bytes) (o : stateObject) : stateObject :=
  if isProgram (so_account o) then withCode code true (withAccount (SetCodeHash (so_account o) codeHash) o) else o.
Definition SetCode (a : Address) (code : option bytes) (s : StateDB) : bool * StateDB :=
  let '(o, s) := GetOrNewSmartContract a s in
  let '(prevcode, o) := Code o in
  let s := journalAppend (codeChange (so_address o) prevcode (CodeHash o)) s in
  (isProgram (so_account o), setStateObject (setCode (keccak (default [] code)) code o) s).

Definition SetState (a : Address) (key value : Hash) (s : StateDB) : StateDB :=
  let '(o, s) := GetOrNewSmartContract a s in
  let '(prev, o) := objGetState s o key in
  if bool_decide (prev = value) then setStateObject o s
  else setStateObject (setState key value o) (journalAppend (storageChange (so_address o) key prev) s).

(** [UpdateKey]: the key of the object changes without a journal entry. *)
Inductive stateError := errAccountDoesNotExist | errKey (e : keyError).
Definition UpdateKeyAt (a : Address) (newKey : AccountKey) (s : StateDB) : res stateError unit * StateDB :=
  let '(o, s) := getStateObject a s in
  match o with
  | None => (Err errAccountDoesNotExist, s)
  | Some o =>
      match updateKey compressPubkey (so_account o) newKey with
      | Ok acc => (Ok tt, setStateObject (withAccount acc o) s)
      | Err e => (Err (errKey e), s)
      | Panic => (Panic, s)
      | NoFuel => (NoFuel, s)
      end
  end.

Definition SelfDestruct (a : Address) (s : StateDB) : StateDB :=
  let '(o, s) := getStateObject a s in
  match o with
  | None => s
  | Some o =>
      let s := journalAppend (selfDestructChange a (so_selfDestructed o) (GetBalance (so_account o))) s in
      setStateObject (setBalance 0 (withFlags true (so_deleted o) (so_created o) o)) s
  end.
Definition SelfDestruct6780 (a : Address) (s : StateDB) : StateDB :=
  let '(o, s) := getStateObject a s in
  match o with
  | None => s
  | Some o => if so_created o then SelfDestruct a s else s
  end.

(** ** Other state *)

Definition setTransientState (a : Address) (key value : Hash) (s : StateDB) : StateDB :=
  setTransient (<[a := <[key := value]> (default ∅ (sd_transientStorage s !! a))]> (sd_transientStorage s)) s.
Definition SetTransientState (a : Address) (key value : Hash) (s : StateDB) : StateDB :=
  let prev := GetTransientState a key s in
  if bool_decide (prev = value) then s
  else setTransientState a key value (journalAppend (transientStorageChange a key prev) s).

(** [AddLog]; the log is completed with the transaction it belongs to. *)
Definition AddLog (log : Log) (s : StateDB) : StateDB :=
  let s := journalAppend (addLogChange (sd_thash s)) s in
  let log := mkLog (lg_Address log) (lg_Topics log) (lg_Data log) (sd_thash s) (u64 (sd_txIndex s)) (sd_bhash s) (sd_logSize s) in
  setLogs (<[sd_thash s := GetLogs (sd_thash s) s ++ [log]]> (sd_logs s)) (u64 (sd_logSize s + 1)) s.
Definition AddPreimage (hash : Hash) (preimage : bytes) (s : StateDB) : StateDB :=
  match sd_preimages s !! hash with
  | Some _ => s
  | None => let s := journalAppend (addPreimageChange hash) s in setPreimages (<[hash := preimage]> (sd_preimages s)) s
  end.
Definition AddRefund (gas : Z) (s : StateDB) : StateDB :=
  let s := journalAppend (refundChange (sd_refund s)) s in setRefund (u64 (sd_refund s + gas)) s.
Definition SubRefund (gas : Z) (s : StateDB) : go StateDB :=
  let s := journalAppend (refundChange (sd_refund s)) s in
  if sd_refund s <? gas then Panic else mret (setRefund (sd_refund s - gas) s).

Definition AddAddressToAccessList (a : Address) (s : StateDB) : StateDB :=
  let '(added, al) := AddAddress (sd_accessList s) a in
  let s := setAccessList al s in
  if added then journalAppend (accessListAddAccountChange a) s else s.
Definition AddSlotToAccessList (a : Address) (slot : Hash) (s : StateDB) : go StateDB :=
  r ← AddSlot (sd_accessList s) a slot;
  let '(addrMod, slotMod, al) := (r : bool * bool * accessList) in
  let s := setAccessList al s in
  let s := if addrMod then journalAppend (accessListAddAccountChange a) s else s in
  mret (if slotMod then journalAppend (accessListAddSlotChange a slot) s else s).

(** [Prepare]: the access list of a transaction. *)
Fixpoint addSlots (a : Address) (keys : list Hash) (s : StateDB) : go StateDB :=
  match keys with
  | [] => mret s
  | k :: keys => s ← AddSlotToAccessList a k s; addSlots a keys s
  end.
Fixpoint addTuples (l : list (Address * list Hash)) (s : StateDB) : go StateDB :=
  match l with
  | [] => mret s
  | (a, keys) :: l => s ← addSlots a keys (AddAddressToAccessList a s); addTuples l s
  end.
Definition Prepare (isKore isShanghai isCancun : bool) (sender feepayer coinbase : Address) (dst : option Address)
    (precompiles : list Address) (l : list (Address * list Hash)) (s : StateDB) : go StateDB :=
  let s := if isKore then
             let s := AddAddressToAccessList sender (setAccessList newAccessList s) in
             let s := if bool_decide (feepayer = replicate 20 0) then s else AddAddressToAccessList feepayer s in
             let s := match dst with Some d => AddAddressToAccessList d s | None => s end in
             foldl (fun s a => AddAddressToAccessList a s) s precompiles
           else s in
  let s := if isShanghai then AddAddressToAccessList coinbase s else s in
  s ← (if isCancun then addTuples l s else mret s);
  mret (setTransient ∅ s).

(** ** Snapshots *)

(** [journalEntry.revert]; a missing object is a nil dereference. *)
Definition onObject (a : Address) (f : stateObject -> stateObject) (s : StateDB) : go StateDB :=
  let '(o, s) := getStateObject a s in
  match o with Some o => mret (setStateObject (f o) s) | None => Panic end.
Definition revertEntry (e : journalEntry) (s : StateDB) : go StateDB :=
  match e with
  | createObjectChange a =>
      mret (setDirty (sd_stateObjectsDirty s ∖ {[a]}) (setObjects (delete a (sd_stateObjects s)) s))
  | resetObjectChange prev prevdestruct =>
      let s := setStateObject prev s in
      mret (if negb prevdestruct && bool_decide (is_Some (sd_snap s))
            then setDestructs (sd_snapDestructs s ∖ {[addrHash prev]}) s else s)
  | selfDestructChange a prev prevbalance =>
      let '(o, s) := getStateObject a s in
      match o with
      | Some o => mret (setStateObject (setBalance prevbalance (withFlags prev (so_deleted o) (so_created o) o)) s)
      | None => mret s
      end
  | touchChange _ => mret s
  | balanceChange a prev => onObject a (setBalance prev) s
  | nonceChange a prev => onObject a (setNonce prev) s
  | codeChange a prevcode prevhash => onObject a (setCode (BytesToHash prevhash) prevcode) s
  | storageChange a key prevalue => onObject a (setState key prevalue) s
  | transientStorageChange a key prevalue => mret (setTransientState a key prevalue s)
  | refundChange prev => mret (setRefund prev s)
  | addLogChange txhash =>
      let logs := GetLogs txhash s in
      if (length logs =? 1)%nat then mret (setLogs (delete txhash (sd_logs s)) (u64 (sd_logSize s - 1)) s)
      else if (length logs =? 0)%nat then Panic
      else mret (setLogs (<[txhash := take (length logs - 1) logs]> (sd_logs s)) (u64 (sd_logSize s - 1)) s)
  | addPreimageChange hash => mret (setPreimages (delete hash (sd_preimages s)) s)
  | accessListAddAccountChange a => mret (setAccessList (DeleteAddress (sd_accessList s) a) s)
  | accessListAddSlotChange a slot => al ← DeleteSlot (sd_accessList s) a slot; mret (setAccessList al s)
  end.

(** [journal.revert]: the entries from the last one down to [snapshot]. *)
Fixpoint revertLoop (entries : list journalEntry) (s : StateDB) : go StateDB :=
  match entries with
  | [] => mret s
  | e :: entries =>
      s ← revertEntry e s;
      revertLoop entries (setJournal (mkJournal (j_entries (sd_journal s)) (undirty e (j_dirties (sd_journal s)))) s)
  end.
Definition revertJournal (snapshot : nat) (s : StateDB) : go StateDB :=
  s ← revertLoop (reverse (drop snapshot (j_entries (sd_journal s)))) s;
  mret (setJournal (mkJournal (take snapshot (j_entries (sd_journal s))) (j_dirties (sd_journal s))) s).

(** [Snapshot] and [RevertToSnapshot]; [sort.Search] finds the first revision that is not
    smaller. *)
Definition Snapshot (s : StateDB) : Z * StateDB :=
  let id := sd_nextRevisionId s in
  (id, setRevisions (sd_validRevisions s ++ [(id, length (j_entries (sd_journal s)))]) (id + 1) s).
Fixpoint searchRevision (i : nat) (revid : Z) (l : list (Z * nat)) : nat :=
  match l with
  | [] => i
  | r :: l => if revid <=? r.1 then i else searchRevision (S i) revid l
  end.
Definition RevertToSnapshot (revid : Z) (s : StateDB) : go StateDB :=
  let idx := searchRevision 0 revid (sd_validRevisions s) in
  match sd_validRevisions s !! idx with
  | None => Panic
  | Some r =>
      if negb (r.1 =? revid) then Panic
      else
        s ← revertJournal r.2 s;
        mret (setRevisions (take idx (sd_validRevisions s)) (sd_nextRevisionId s) s)
  end.

(** ** The end of a transaction *)

(** [bytes.TrimLeft(value, "\x00")]. *)
Fixpoint trimLeft (b : bytes) : bytes :=
  match b with
  | x :: b' => if x =? 0 then trimLeft b' else b
  | [] => []
  end.

(** One entry of the loop of [updateStorageTrie]: the trie, the original storage and what the
    snapshot is told ([Some []] for a deleted slot). *)
Definition flushSlot (key value : Hash) (tr : gmap Hash bytes) (origin : Storage) (out : gmap Hash bytes)
    : gmap Hash bytes * Storage * gmap Hash bytes :=
  if bool_decide (value = default zeroHash (origin !! key)) then (tr, origin, out)
  else
    let origin := <[key := value]> origin in
    if bool_decide (value = zeroHash) then (delete key tr, origin, <[keccak key := []]> out)
    else
      let v := enc_string (trimLeft value) in
      (<[key := v]> tr, origin, <[keccak key := v]> out).
Fixpoint flushSlots (l : list (Hash * Hash)) (tr : gmap Hash bytes) (origin : Storage) (out : gmap Hash bytes)
    : gmap Hash bytes * Storage * gmap Hash bytes :=
  match l with
  | [] => (tr, origin, out)
  | (key, value) :: l =>
      let '(tr, origin, out) := flushSlot key value tr origin out in
      flushSlots l tr origin out
  end.

(** [updateStorageTrie]; the slots are visited in some order. *)
Definition updateStorageTrie (o : stateObject) (s : StateDB) : stateObject * StateDB :=
  let '(tr, o) := getStorageTrie o in
  let out := default ∅ (sd_snapStorage s !! addrHash o) in
  let '(tr, origin, out') := flushSlots (map_to_list (so_dirtyStorage o)) tr (so_originStorage o) out in
  let s := if bool_decide (is_Some (sd_snap s)) && negb (bool_decide (out' = out))
           then setSnapData (sd_snapAccounts s) (<[addrHash o := out']> (sd_snapStorage s)) s else s in
  (withTrie tr (withOrigin origin (withDirty ∅ o)), s).

(** [updateStorageRoot]: a nil storage trie is dereferenced. *)
Definition updateStorageRoot (o : stateObject) : go stateObject :=
  if isProgram (so_account o) then
    match so_storageTrie o with
    | Some tr => mret (withAccount (SetStorageRoot (so_account o) (hashExt tr)) o)
    | None => Panic
    end
  else mret o.

(** [setStorageRoot]: the root now, or a mark in a map that may be nil. *)
Definition setStorageRoot (now : bool) (o : stateObject) (s : StateDB) : go (stateObject * StateDB) :=
  if isProgram (so_account o) then
    if now then o ← updateStorageRoot o; mret (o, s)
    else match sd_stateObjectsDirtyStorage s with
         | Some m => mret (o, setDirtyStorage (Some ({[so_address o]} ∪ m)) s)
         | None => Panic
         end
  else mret (o, s).

(** [updateStateObject] and [deleteStateObject]. *)
Definition updateStateObject (o : stateObject) (s : StateDB) : StateDB :=
  let s := setTrie (<[so_address o := so_account o]> (sd_trie s)) s in
  if bool_decide (is_Some (sd_snap s))
  then setSnapData (<[addrHash o := so_account o]> (sd_snapAccounts s)) (sd_snapStorage s) s else s.
Definition deleteStateObject (o : stateObject) (s : StateDB) : stateObject * StateDB :=
  (withFlags (so_selfDestructed o) true (so_created o) o, setTrie (delete (so_address o) (sd_trie s)) s).

(** One dirty address of [Finalise]. *)
Definition finaliseAddr (deleteEmptyObjects now : bool) (a : Address) (s : StateDB) : go StateDB :=
  match sd_stateObjects s !! a with
  | None => mret s
  | Some o =>
      r ← (if so_selfDestructed o || (deleteEmptyObjects && empty_ o) then
             let '(o, s) := deleteStateObject o s in
             mret (o, if bool_decide (is_Some (sd_snap s))
                      then setSnapData (delete (addrHash o) (sd_snapAccounts s)) (delete (addrHash o) (sd_snapStorage s))
                             (setDestructs ({[addrHash o]} ∪ sd_snapDestructs s) s)
                      else s)
           else
             let '(o, s) := updateStorageTrie o s in
             r ← setStorageRoot now o s;
             mret (r.1, updateStateObject r.1 r.2));
      let '(o, s) := (r : stateObject * StateDB) in
      let s := setStateObject (withFlags (so_selfDestructed o) (so_deleted o) false o) s in
      mret (setDirty ({[a]} ∪ sd_stateObjectsDirty s) s)
  end.
Fixpoint finaliseLoop (deleteEmptyObjects now : bool) (l : list Address) (s : StateDB) : go StateDB :=
  match l with
  | [] => mret s
  | a :: l => s ← finaliseAddr deleteEmptyObjects now a s; finaliseLoop deleteEmptyObjects now l s
  end.

(** The storage roots that were left for later. *)
Fixpoint updateRoots (l : list Address) (s : StateDB) : go StateDB :=
  match l with
  | [] => mret s
  | a :: l =>
      s ← match sd_stateObjects s !! a with
          | None => mret s
          | Some o => o ← updateStorageRoot o; mret (updateStateObject o (setStateObject o s))
          end;
      updateRoots l s
  end.

(** [clearJournalAndRefund], [Finalise]. *)
Definition clearJournalAndRefund (s : StateDB) : StateDB :=
  setRefund 0 (setRevisions [] (sd_nextRevisionId s) (setJournal newJournal s)).
Definition Finalise (deleteEmptyObjects now : bool) (s : StateDB) : go StateDB :=
  s ← finaliseLoop deleteEmptyObjects now (elements (dom (j_dirties (sd_journal s)))) s;
  let s := clearJournalAndRefund s in
  let later := default ∅ (sd_stateObjectsDirtyStorage s) in
  if now && negb (bool_decide (later = ∅)) then
    s ← updateRoots (elements later) s;
    mret (setDirtyStorage (Some ∅) s)
  else mret s.

(** [IntermediateRoot]: the state is finalised with its storage roots; the root is the hash of
    the trie that is left. *)
Definition IntermediateRoot (deleteEmptyObjects : bool) (s : StateDB) : go StateDB := Finalise deleteEmptyObjects true s.

(** ** Commit *)

(** [CommitStorageTrie]; a trie commits to the root it hashes to. *)
Definition CommitStorageTrie (o : stateObject) (s : StateDB) : go (stateObject * StateDB) :=
  let '(o, s) := updateStorageTrie o s in o ← updateStorageRoot o; mret (o, s).

(** The code of a contract is written when it was set since the last commit. *)
Definition writeCode (o : stateObject) (codes : gmap Hash bytes) : stateObject * gmap Hash bytes :=
  match so_code o with
  | Some code => if so_dirtyCode o then (withCode (Some code) false o, <[BytesToHash (CodeHash o) := code]> codes) else (o, codes)
  | None => (o, codes)
  end.

(** One object of the loop of [Commit]: the codes written and the objects left to be written to
    the account trie. *)
Definition commitObject (deleteEmptyObjects : bool) (a : Address) (s : StateDB) (codes : gmap Hash bytes) (l : list Address)
    : go (StateDB * gmap Hash bytes * list Address) :=
  match sd_stateObjects s !! a with
  | None => mret (s, codes, l)
  | Some o =>
      let isDirty := bool_decide (a ∈ sd_stateObjectsDirty s) in
      r ← (if so_selfDestructed o || (isDirty && deleteEmptyObjects && empty_ o) then
             let '(o, s) := deleteStateObject o s in mret (setStateObject o s, codes, l)
           else if isDirty then
             if isProgram (so_account o) then
               let '(o, codes) := writeCode o codes in
               r ← CommitStorageTrie o s;
               mret (setStateObject r.1 r.2, codes, l ++ [a])
             else mret (s, codes, l ++ [a])
           else mret (s, codes, l));
      let '(s, codes, l) := (r : StateDB * gmap Hash bytes * list Address) in
      mret (setDirty (sd_stateObjectsDirty s ∖ {[a]}) s, codes, l)
  end.
Fixpoint commitObjects (deleteEmptyObjects : bool) (as_ : list Address) (s : StateDB) (codes : gmap Hash bytes) (l : list Address)
    : go (StateDB * gmap Hash bytes * list Address) :=
  match as_ with
  | [] => mret (s, codes, l)
  | a :: as_ =>
      r ← commitObject deleteEmptyObjects a s codes l;
      let '(s, codes, l) := (r : StateDB * gmap Hash bytes * list Address) in
      commitObjects deleteEmptyObjects as_ s codes l
  end.
Definition updateStateObjects (l : list Address) (s : StateDB) : StateDB :=
  foldl (fun s a => match sd_stateObjects s !! a with Some o => updateStateObject o s | None => s end) s l.

Definition dropSnap (s : StateDB) : StateDB :=
  mkState (sd_trie s) None ∅ ∅ ∅ (sd_stateObjects s)
    (sd_stateObjectsDirty s) (sd_stateObjectsDirtyStorage s) (sd_refund s) (sd_thash s) (sd_bhash s) (sd_txIndex s)
    (sd_logs s) (sd_logSize s) (sd_preimages s) (sd_accessList s) (sd_transientStorage s) (sd_journal s)
    (sd_validRevisions s) (sd_nextRevisionId s).

(** [Commit]: the state, whose trie is the one written, and the codes written to the database.
    What the snapshot tree is given is dropped from the state. *)
Definition Commit (deleteEmptyObjects : bool) (s : StateDB) : go (StateDB * gmap Hash bytes) :=
  let s := setDirty (dom (j_dirties (sd_journal s)) ∪ sd_stateObjectsDirty s) s in
  r ← commitObjects deleteEmptyObjects (map_to_list (sd_stateObjects s)).*1 s ∅ [];
  let '(s, codes, l) := (r : StateDB * gmap Hash bytes * list Address) in
  let s := updateStateObjects l s in
  let s := if bool_decide (is_Some (sd_snap s)) then dropSnap s else s in
  mret (clearJournalAndRefund s, codes).

(** ** Copies *)

(** [stateObject.deepCopy] and [StateDB.Copy]. *)
Definition deepCopy (o : stateObject) : stateObject :=
  mkObject (so_address o) (so_account o) (so_storageTrie o) (so_code o) (so_originStorage o) (so_dirtyStorage o)
    (so_dirtyCode o) (so_selfDestructed o) (so_deleted o) false.
Fixpoint copyDirties (l : list Address) (s : StateDB) (state : StateDB) : StateDB :=
  match l with
  | [] => state
  | a :: l =>
      copyDirties l s
        match sd_stateObjects s !! a with
        | Some o => setDirty ({[a]} ∪ sd_stateObjectsDirty state)
                      (setObjects (<[a := deepCopy o]> (sd_stateObjects state)) state)
        | None => state
        end
  end.
Fixpoint copyDirtyObjects (l : list Address) (s : StateDB) (state : StateDB) : go StateDB :=
  match l with
  | [] => mret state
  | a :: l =>
      state ← match sd_stateObjects state !! a with
              | Some _ => mret state
              | None =>
                  match sd_stateObjects s !! a with
                  | Some o => mret (setDirty ({[a]} ∪ sd_stateObjectsDirty state)
                                      (setObjects (<[a := deepCopy o]> (sd_stateObjects state)) state))
                  | None => Panic
                  end
              end;
      copyDirtyObjects l s state
  end.
Definition Copy (s : StateDB) : go StateDB :=
  let state := mkState (sd_trie s) (sd_snap s) (sd_snapDestructs s) (sd_snapAccounts s) (sd_snapStorage s) ∅ ∅ None
                 (sd_refund s) zeroHash zeroHash 0 (sd_logs s) (sd_logSize s) (sd_preimages s) (sd_accessList s)
                 (sd_transientStorage s) newJournal [] 0 in
  let state := copyDirties (elements (dom (j_dirties (sd_journal s)))) s state in
  copyDirtyObjects (elements (sd_stateObjectsDirty s)) s state.

(** [Reset] to a trie: the snapshot data and the marks of storage roots stay. *)
Definition Reset (trie : gmap Address Account) (s : StateDB) : StateDB :=
  let s := clearJournalAndRefund s in
  mkState trie (sd_snap s) (sd_snapDestructs s) (sd_snapAccounts s) (sd_snapStorage s) ∅ ∅ (sd_stateObjectsDirtyStorage s)
    (sd_refund s) zeroHash zeroHash 0 ∅ 0 ∅ newAccessList (sd_transientStorage s) (sd_journal s) (sd_validRevisions s)
    (sd_nextRevisionId s).
End statedb.
End State.
