(* ===== verification/StateRevert.v ===== *)
(** * Reverting the state

    What a snapshot of the state database promises: whatever is done after it, going back to it
    restores everything that can be read from the state.  Loading accounts, code and storage
    fills caches that a revert does not empty, so that states are compared by what can be read
    from them. *)

From S2P Require Import Prelude AccountKey StateDB.

Module Revert.
Import AccountKey Account State.

(** Reduce the fields of an updated state. *)
Ltac fields :=
  cbn [sd_trie sd_snap sd_snapDestructs sd_snapAccounts sd_snapStorage sd_stateObjects sd_stateObjectsDirty
       sd_stateObjectsDirtyStorage sd_refund sd_thash sd_bhash sd_txIndex sd_logs sd_logSize sd_preimages sd_accessList
       sd_transientStorage sd_journal sd_validRevisions sd_nextRevisionId setTrie setDestructs setSnapData setObjects setDirty
       setDirtyStorage setRefund setLogs setPreimages setAccessList setTransient setJournal setRevisions setStateObject
       journalAppend] in *.
Ltac objfields :=
  cbn [so_address so_account so_storageTrie so_code so_originStorage so_dirtyStorage so_dirtyCode so_selfDestructed so_deleted
       so_created withAccount withTrie withCode withOrigin withDirty withFlags setBalance setNonce setState newObject] in *.

Section revert.
Context {env : StateEnv}.

(** An address has twenty bytes. *)
Definition is_addr (a : Address) : Prop := length a = 20%nat.

(** ** What can be read *)

(** The object of an address, loaded or not. *)
Definition view (s : StateDB) (a : Address) : option stateObject :=
  match sd_stateObjects s !! a with
  | Some o => Some o
  | None => newObject a <$> readAccount s a
  end.

(** The parts of an object that loading does not change. *)
Definition codeOf (o : stateObject) : option bytes :=
  match so_code o with
  | Some c => Some c
  | None => if bool_decide (CodeHash o = emptyCodeHash) then None else contractCode (BytesToHash (CodeHash o))
  end.
Definition fresh (s : StateDB) (o : stateObject) (k : Hash) : Hash :=
  match sd_snap s with
  | Some sn =>
      if bool_decide (addrHash o ∈ sd_snapDestructs s) then zeroHash
      else match sn_Storage sn (addrHash o) (keccak k) with
           | Some enc => decodeSlot (Some enc)
           | None => decodeSlot (openedTrie o !! k)
           end
  | None => decodeSlot (openedTrie o !! k)
  end.
Definition committed (s : StateDB) (o : stateObject) (k : Hash) : Hash := default (fresh s o k) (so_originStorage o !! k).
Definition current (s : StateDB) (o : stateObject) (k : Hash) : Hash := default (committed s o k) (so_dirtyStorage o !! k).

Record objeq (s : StateDB) (o o' : stateObject) : Prop := {
  oe_address : so_address o = so_address o';
  oe_account : so_account o = so_account o';
  oe_selfDestructed : so_selfDestructed o = so_selfDestructed o';
  oe_deleted : so_deleted o = so_deleted o';
  oe_created : so_created o = so_created o';
  oe_code : codeOf o = codeOf o';
  oe_trie : openedTrie o = openedTrie o';
  oe_committed : forall k, committed s o k = committed s o' k;
  oe_current : forall k, current s o k = current s o' k
}.

(** The parts of the state that are restored as they were. *)
Definition rest (s : StateDB) :=
  (sd_snapAccounts s, sd_snapStorage s, sd_stateObjectsDirty s, sd_stateObjectsDirtyStorage s,
   (sd_refund s, sd_thash s, sd_bhash s, sd_txIndex s), (sd_logSize s, sd_preimages s, sd_accessList s)).

(** Two states from which the same can be read. *)
Record equiv (s t : StateDB) : Prop := {
  eq_trie : sd_trie s = sd_trie t;
  eq_snap : sd_snap s = sd_snap t;
  eq_destructs : sd_snapDestructs s = sd_snapDestructs t;
  eq_rest : rest s = rest t;
  eq_logs : forall h, GetLogs h s = GetLogs h t;
  eq_transient : forall a k, GetTransientState a k s = GetTransientState a k t;
  eq_objects : forall a, is_addr a -> option_Forall2 (objeq s) (view s a) (view t a)
}.

(** ** Equivalence *)

Lemma committed_ctx s t o k : sd_snap s = sd_snap t ->
  (addrHash o ∈ sd_snapDestructs s <-> addrHash o ∈ sd_snapDestructs t) -> committed s o k = committed t o k.
Proof.
  intros Hs Hd. unfold committed, fresh. rewrite Hs. destruct (sd_snap t); [|done].
  by rewrite (bool_decide_ext _ _ Hd).
Qed.

Lemma objeq_ctx s t o o' : sd_snap s = sd_snap t ->
  (addrHash o ∈ sd_snapDestructs s <-> addrHash o ∈ sd_snapDestructs t) -> objeq s o o' -> objeq t o o'.
Proof.
  intros Hs Hd [Ha H1 H2 H3 H4 H5 H6 Hc Hu].
  assert (Hd' : addrHash o' ∈ sd_snapDestructs s <-> addrHash o' ∈ sd_snapDestructs t) by (unfold addrHash in *; by rewrite <- Ha).
  pose proof (fun k => committed_ctx s t o k Hs Hd) as E. pose proof (fun k => committed_ctx s t o' k Hs Hd') as E'.
  split; try done; intros k.
  - by rewrite <- E, <- E'.
  - unfold current in *. by rewrite <- E, <- E'.
Qed.

Lemma objeqs_ctx s t x y : sd_snap s = sd_snap t -> sd_snapDestructs s = sd_snapDestructs t ->
  option_Forall2 (objeq s) x y -> option_Forall2 (objeq t) x y.
Proof. intros Hs Hd [o o' Ho|]; constructor. eapply objeq_ctx; [| |exact Ho]; [done|by rewrite Hd]. Qed.

#[export] Instance objeq_equivalence s : Equivalence (objeq s).
Proof.
  split.
  - by split.
  - intros o o' []. by split.
  - intros o1 o2 o3 [] []. split; congruence || (intros k; etransitivity; eauto).
Qed.

#[export] Instance equiv_equivalence : Equivalence equiv.
Proof.
  split.
  - intros s. split; done || (intros a; reflexivity).
  - intros s t [H1 H2 H3 H4 H5 H6 H7]. split; try done. intros a Ha. specialize (H7 a Ha).
    destruct H7 as [o o' Ho|]; constructor. symmetry. eapply objeq_ctx; [| |exact Ho]; [done|by rewrite H3].
  - intros s t u [H1 H2 H3 H4 H5 H6 H7] [K1 K2 K3 K4 K5 K6 K7]. split; try congruence.
    intros a Ha. specialize (H7 a Ha). specialize (K7 a Ha). destruct H7 as [o o' Ho|]; inversion K7 as [? o'' Ho''|]; subst; constructor.
    transitivity o'; [done|]. eapply objeq_ctx; [| |exact Ho'']; [done|by rewrite H3].
Qed.

(** Changing the journal or the revisions is not visible. *)
Lemma equiv_journal j s : equiv (setJournal j s) s.
Proof. split; done || (intros a; reflexivity). Qed.
Lemma equiv_revisions r n s : equiv (setRevisions r n s) s.
Proof. split; done || (intros a; reflexivity). Qed.

Lemma readAccount_same s t a : sd_trie s = sd_trie t -> sd_snap s = sd_snap t -> readAccount s a = readAccount t a.
Proof. unfold readAccount. by intros -> ->. Qed.

(** A state that differs in one object. *)
Lemma equiv_put s o o' : view s (so_address o) = Some o' -> objeq s o o' -> equiv (setStateObject o s) s.
Proof.
  intros Hv Ho. split; try done. intros a _. unfold view at 1. fields. destruct (decide (a = so_address o)) as [->|Hne].
  - rewrite lookup_insert_eq, Hv. constructor. eapply objeq_ctx; [| |exact Ho]; done.
  - rewrite lookup_insert_ne by done. fold (readAccount s a). change (option_Forall2 (objeq (setStateObject o s)) (view s a) (view s a)).
    reflexivity.
Qed.

(** ** Caches *)

Lemma trie_cached s o : objeq s (withTrie (openedTrie o) o) o.
Proof. split; done || (intros k; reflexivity). Qed.

Lemma origin_cached s o k : so_originStorage o !! k = None ->
  objeq s (withOrigin (<[k := fresh s o k]> (so_originStorage o)) o) o.
Proof.
  intros Hk. assert (Hc : forall k', committed s (withOrigin (<[k := fresh s o k]> (so_originStorage o)) o) k' = committed s o k').
  { intros k'. unfold committed. objfields. change (fresh s (withOrigin (<[k := fresh s o k]> (so_originStorage o)) o) k') with (fresh s o k').
    destruct (decide (k' = k)) as [->|Hne]; [by rewrite lookup_insert_eq, Hk|by rewrite lookup_insert_ne]. }
  split; try done. intros k'. unfold current. by rewrite Hc.
Qed.

Lemma objGetCommittedState_spec s o k : (objGetCommittedState s o k).1 = committed s o k /\
  objeq s (objGetCommittedState s o k).2 o.
Proof.
  unfold objGetCommittedState, committed. destruct (so_originStorage o !! k) as [v|] eqn:Hk; [by split|]. cbn [default].
  pose proof (origin_cached s o k Hk) as Ho.
  assert (objeq s (withOrigin (<[k := fresh s o k]> (so_originStorage o)) (withTrie (openedTrie o) o)) o) as Ht.
  { etransitivity; [|apply (trie_cached s o)]. apply (origin_cached s (withTrie (openedTrie o) o) k Hk). }
  revert Ho Ht. unfold fresh. unfold getStorageTrie. objfields. destruct (sd_snap s) as [sn|]; [|by intros].
  destruct (bool_decide _) eqn:Hd; [by split|]. destruct (sn_Storage sn _ _); by intros.
Qed.

Lemma objGetState_spec s o k : (objGetState s o k).1 = current s o k /\ objeq s (objGetState s o k).2 o.
Proof.
  unfold objGetState, current. destruct (so_dirtyStorage o !! k); [by split|]. apply objGetCommittedState_spec.
Qed.

Lemma Code_spec s o : (Code o).1 = codeOf o /\ objeq s (Code o).2 o.
Proof.
  unfold Code, codeOf. destruct (so_code o) as [c'|] eqn:Hc; [by split|]. destruct (bool_decide _) eqn:He; [by split|].
  split; [done|]. cbn [snd]. split; try done. unfold codeOf. objfields. rewrite Hc, He.
  destruct (contractCode (BytesToHash (CodeHash o))) eqn:Hcode; [done|].
  change (CodeHash (withCode None (so_dirtyCode o) o)) with (CodeHash o). by rewrite He, Hcode.
Qed.

(** ** Well-formed states *)

(** The addresses of an access list have no slots, or a non-empty set of them. *)
Definition al_ok (al : accessList) : Prop := forall a i, al_addresses al !! a = Some i ->
  i = -1 \/ (0 <= i /\ exists m, al_slots al !! Z.to_nat i = Some m /\ m <> ∅).

(** Objects are kept under their address, and only loaded objects are marked as dirty. *)
Record keyed (s : StateDB) : Prop := {
  ky_address : forall a o, sd_stateObjects s !! a = Some o -> so_address o = a;
  ky_dirty : forall a, a ∈ sd_stateObjectsDirty s -> is_Some (sd_stateObjects s !! a)
}.
Record wf (s : StateDB) : Prop := {
  wf_keyed : keyed s;
  wf_code : forall a o, is_addr a -> view s a = Some o -> length (CodeHash o) = 32%nat;
  wf_access : al_ok (sd_accessList s);
  wf_logSize : is_u64 (sd_logSize s)
}.

Lemma view_address s a o : keyed s -> view s a = Some o -> so_address o = a.
Proof.
  intros Hk. unfold view. destruct (sd_stateObjects s !! a) as [o'|] eqn:H.
  - intros [= <-]. by apply (ky_address s Hk).
  - destruct (readAccount s a); [|done]. by intros [= <-].
Qed.

Lemma objeq_CodeHash s o o' : objeq s o o' -> CodeHash o = CodeHash o'.
Proof. intros He. unfold CodeHash. by rewrite (oe_account _ _ _ He). Qed.

Lemma equiv_view s t a o : is_addr a -> equiv s t -> view s a = Some o -> exists o', view t a = Some o' /\ objeq s o o'.
Proof.
  intros Ha He Ho. pose proof (eq_objects _ _ He a Ha) as Hv. rewrite Ho in Hv. inversion Hv; subst. by eexists.
Qed.
Lemma equiv_view_none s t a : is_addr a -> equiv s t -> view s a = None -> view t a = None.
Proof. intros Ha He Ho. pose proof (eq_objects _ _ He a Ha) as Hv. rewrite Ho in Hv. by inversion Hv. Qed.

Lemma eq_access s t : equiv s t -> sd_accessList s = sd_accessList t.
Proof. intros He. pose proof (eq_rest _ _ He) as Hr. unfold rest in Hr. congruence. Qed.

(** States that can be read alike are well-formed alike. *)
Lemma wf_equiv s t : equiv t s -> keyed t -> wf s -> wf t.
Proof.
  intros He Hk [_ Hc Ha Hl]. split; [done| | |].
  - intros a o Hia Ho. destruct (equiv_view _ _ _ _ Hia He Ho) as (o' & Ho' & Heq).
    rewrite (objeq_CodeHash _ _ _ Heq). by apply (Hc a).
  - by rewrite (eq_access t s He).
  - pose proof (eq_rest _ _ He) as Hr. unfold rest in Hr. replace (sd_logSize t) with (sd_logSize s) by congruence. done.
Qed.

Lemma keyed_put s o : keyed s -> keyed (setStateObject o s).
Proof.
  intros [H1 H2]. split; fields.
  - intros a o'. destruct (decide (a = so_address o)) as [->|Hne]; [rewrite lookup_insert_eq; naive_solver|].
    rewrite lookup_insert_ne by done. apply H1.
  - intros a Ha. destruct (decide (a = so_address o)) as [->|Hne]; [by rewrite lookup_insert_eq|].
    rewrite lookup_insert_ne by done. by apply H2.
Qed.

(** ** Loading *)

Definition meta (s : StateDB) := (sd_journal s, sd_validRevisions s, sd_nextRevisionId s).

(** [getDeletedStateObject] reads the view and loads it. *)
Lemma getDeleted_spec a s : keyed s -> exists s', getDeletedStateObject a s = (view s a, s') /\ equiv s' s /\ keyed s' /\
  meta s' = meta s /\ sd_stateObjects s' !! a = view s a.
Proof.
  intros Hk. unfold getDeletedStateObject, view. destruct (sd_stateObjects s !! a) as [o|] eqn:Ho.
  { exists s. split_and!; try done. }
  destruct (readAccount s a) as [acc|] eqn:Hr; cbn [fmap option_fmap option_map].
  - eexists. split; [done|]. split_and!; try done.
    + apply (equiv_put s (newObject a acc) (newObject a acc)); [|done]. objfields. unfold view. by rewrite Ho, Hr.
    + by apply keyed_put.
    + fields. objfields. apply lookup_insert_eq.
  - exists s. split_and!; try done.
Qed.

Definition live (o : option stateObject) : option stateObject := o ≫= fun o => if so_deleted o then None else Some o.

Lemma getStateObject_spec a s : keyed s -> exists s', getStateObject a s = (live (view s a), s') /\ equiv s' s /\ keyed s' /\
  meta s' = meta s /\ sd_stateObjects s' !! a = view s a.
Proof.
  intros Hk. destruct (getDeleted_spec a s Hk) as (s' & H & ?). exists s'. split; [|done].
  unfold getStateObject, live. rewrite H. by destruct (view s a).
Qed.

(** ** Undoing *)

Definition entries (s : StateDB) : list journalEntry := j_entries (sd_journal s).
Definition dirties (s : StateDB) : gmap Address Z := j_dirties (sd_journal s).
Definition revisions (s : StateDB) := (sd_validRevisions s, sd_nextRevisionId s).

(** Reverting the entries [es] leads from [s'] back to [s], whatever was loaded since. *)
Definition undoes (es : list journalEntry) (s s' : StateDB) : Prop :=
  forall t, equiv t s' -> keyed t -> exists t', revertLoop (reverse es) t = Ok t' /\ equiv t' s /\ keyed t' /\
    entries t' = entries t /\ dirties t' = foldl (fun d e => undirty e d) (dirties t) (reverse es) /\ revisions t' = revisions t.

Lemma keyed_same s t : sd_stateObjects t = sd_stateObjects s -> sd_stateObjectsDirty t = sd_stateObjectsDirty s -> keyed s -> keyed t.
Proof. intros H1 H2 []. split; by rewrite ?H1, ?H2. Qed.

Lemma revertEntry_keyed e t t' : revertEntry e t = Ok t' -> keyed t -> keyed t' /\ meta t' = meta t.
Proof.
  intros H Hk.
  assert (forall a f, onObject a f t = Ok t' -> (forall o, so_address (f o) = so_address o) -> keyed t' /\ meta t' = meta t) as Hobj.
  { intros a f. unfold onObject. destruct (getStateObject_spec a t Hk) as (t1 & -> & _ & Hk1 & Hm & _).
    destruct (live _); [|done]. intros [= <-] _. split; [by apply keyed_put|done]. }
  destruct e; cbn [revertEntry] in H; try (by eapply Hobj; [exact H|]); try (by injection H as <-; split; [eapply keyed_same; [| |exact Hk]|]).
  - injection H as <-. split; [|done]. destruct Hk as [H1 H2]. split; fields.
    + intros a o [_ Ho]%lookup_delete_Some. by apply H1.
    + intros a [Ha Hn]%elem_of_difference. rewrite lookup_delete_ne by set_solver. by apply H2.
  - injection H as <-. destruct (_ && _); (split; [|done]); [|by apply keyed_put].
    eapply keyed_same; [| |apply (keyed_put _ prev Hk)]; done.
  - destruct (getStateObject_spec account t Hk) as (t1 & Hg & _ & Hk1 & Hm & _). rewrite Hg in H. destruct (live _); injection H as <-.
    + split; [by apply keyed_put|done].
    + done.
  - eapply Hobj; [exact H|]. intros o. unfold setCode. by destruct (isProgram _).
  - destruct (_ =? 1)%nat; [|destruct (_ =? 0)%nat; [done|]]; injection H as <-; (split; [eapply keyed_same; [| |exact Hk]|]; done).
  - apply bind_ok in H as (al & _ & H). injection H as <-. split; [eapply keyed_same; [| |exact Hk]|]; done.
Qed.

Lemma undoes_one e s s' :
  (forall t, equiv t s' -> keyed t -> exists t', revertEntry e t = Ok t' /\ equiv t' s) -> undoes [e] s s'.
Proof.
  intros H t Ht Hk. destruct (H t Ht Hk) as (t' & He & Heq). destruct (revertEntry_keyed e t t' He Hk) as [Hk' Hm].
  cbn [reverse rev_append revertLoop]. rewrite He. cbn [mbind res_bind]. eexists. split; [done|]. unfold meta in Hm.
  injection Hm as Hj Hv Hn. split_and!.
  - etransitivity; [apply equiv_journal|done].
  - eapply keyed_same; [| |exact Hk']; done.
  - unfold entries. fields. by rewrite Hj.
  - unfold dirties. fields. by rewrite Hj.
  - unfold revisions. fields. by rewrite Hv, Hn.
Qed.

Lemma undoes_equiv s s' : equiv s' s -> undoes [] s s'.
Proof. intros He t Ht Hk. exists t. split_and!; try done. by etransitivity. Qed.

Lemma revertLoop_app l k t : revertLoop (l ++ k) t = (t' ← revertLoop l t; revertLoop k t').
Proof.
  revert t. induction l as [|e l IH]; intros t; [done|]. cbn [app revertLoop]. destruct (revertEntry e t); try done. apply IH.
Qed.

Lemma undoes_trans es1 es2 s s1 s2 : undoes es1 s s1 -> undoes es2 s1 s2 -> undoes (es1 ++ es2) s s2.
Proof.
  intros H1 H2 t Ht Hk. destruct (H2 t Ht Hk) as (t1 & L1 & E1 & K1 & J1 & D1 & R1).
  destruct (H1 t1 E1 K1) as (t2 & L2 & E2 & K2 & J2 & D2 & R2). exists t2.
  rewrite reverse_app, revertLoop_app, L1. cbn [mbind res_bind]. rewrite L2, foldl_app, <- D1, <- D2.
  split_and!; try done; congruence.
Qed.

Lemma undoes_ext es s s' s'' : equiv s'' s' -> undoes es s s' -> undoes es s s''.
Proof. intros He H t Ht. apply H. by etransitivity. Qed.

(** ** Dirty counters *)

Definition changes (a : Address) (es : list journalEntry) : Z := len (filter (fun e => dirtied e = Some a) es).

(** The counter of an address is the number of entries that dirty it, with the exception of
    the precompiled contract whose touch is never forgotten. *)
Definition counted (s : StateDB) : Prop := forall a, a <> ripemd ->
  dirties s !! a = if changes a (entries s) =? 0 then None else Some (changes a (entries s)).

Lemma changes_app a l k : changes a (l ++ k) = changes a l + changes a k.
Proof. unfold changes. by rewrite filter_app, len_app. Qed.

Lemma changes_one a e : changes a [e] = if decide (dirtied e = Some a) then 1 else 0.
Proof. unfold changes. rewrite filter_cons. by case_decide. Qed.

Lemma counted_append e s : counted s -> counted (journalAppend e s).
Proof.
  intros Hc a Ha. specialize (Hc a Ha). unfold dirties, entries in *. fields. unfold append, dirtyAddr.
  pose proof (len_nonneg (filter (fun e => dirtied e = Some a) (j_entries (sd_journal s)))) as Hn. fold (changes a (j_entries (sd_journal s))) in Hn.
  destruct (dirtied e) as [b|] eqn:Hd; cbn [j_entries j_dirties]; rewrite changes_app, changes_one, Hd.
  - destruct (decide (b = a)) as [->|Hne]; [rewrite decide_True by done|rewrite decide_False by congruence].
    + rewrite lookup_insert_eq, Hc, (proj2 (Z.eqb_neq (changes a (j_entries (sd_journal s)) + 1) 0)) by lia. f_equal.
      destruct (Z.eqb_spec (changes a (j_entries (sd_journal s))) 0) as [E|E]; simpl; lia.
    + by rewrite lookup_insert_ne, Hc, Z.add_0_r.
  - rewrite decide_False by done. by rewrite Z.add_0_r.
Qed.

Lemma counted_revert s es t : counted t -> entries t = entries s ++ es ->
  forall a, a <> ripemd -> foldl (fun d e => undirty e d) (dirties t) (reverse es) !! a
    = if changes a (entries s) =? 0 then None else Some (changes a (entries s)).
Proof.
  intros Hc He a Ha. specialize (Hc a Ha). rewrite He in Hc. clear He. revert Hc. generalize (dirties t). generalize (entries s). clear s t.
  intros l. induction es as [|e es IH] using rev_ind; intros d Hc; [by rewrite app_nil_r in Hc|].
  rewrite reverse_app. cbn [reverse rev_append app foldl]. apply IH. rewrite app_assoc, changes_app, changes_one in Hc. unfold undirty.
  pose proof (len_nonneg (filter (fun e => dirtied e = Some a) (l ++ es))) as Hn. fold (changes a (l ++ es)) in Hn.
  destruct (dirtied e) as [b|] eqn:Hd; [|by rewrite decide_False, Z.add_0_r in Hc].
  destruct (decide (b = a)) as [->|Hne]; [rewrite decide_True in Hc by done|rewrite decide_False, Z.add_0_r in Hc by congruence].
  - rewrite (proj2 (Z.eqb_neq _ _)) in Hc by lia. rewrite Hc. cbn [from_option id]. rewrite Z.add_simpl_r.
    destruct (Z.eqb_spec (changes a (l ++ es)) 0) as [E|E]; [by rewrite lookup_delete_eq|by rewrite lookup_insert_eq].
  - destruct (default 0 (d !! b) - 1 =? 0); [by rewrite lookup_delete_ne|by rewrite lookup_insert_ne].
Qed.

(** ** Undoing one change *)

(** The parts of an account that code and storage depend on. *)
Definition program (acc : Account) : option (bytes * bytes) :=
  match acc with SmartContractAccount _ r h _ => Some (r, h) | _ => None end.

Lemma CodeHash_program o acc : program acc = program (so_account o) -> CodeHash (withAccount acc o) = CodeHash o.
Proof. unfold CodeHash. objfields. by destruct acc, (so_account o); intros; simplify_eq/=. Qed.

Lemma openedTrie_program o acc : program acc = program (so_account o) -> openedTrie (withAccount acc o) = openedTrie o.
Proof. unfold openedTrie. objfields. destruct (so_storageTrie o); [done|]. by destruct acc, (so_account o); intros; simplify_eq/=. Qed.

Lemma reads_program s o acc : program acc = program (so_account o) ->
  codeOf (withAccount acc o) = codeOf o /\ openedTrie (withAccount acc o) = openedTrie o /\
  (forall k, committed s (withAccount acc o) k = committed s o k) /\ (forall k, current s (withAccount acc o) k = current s o k).
Proof.
  intros Hp. assert (Hc : forall k, committed s (withAccount acc o) k = committed s o k).
  { intros k. unfold committed, fresh. by rewrite (openedTrie_program o acc Hp). }
  split_and!; [|by apply openedTrie_program|done|].
  - unfold codeOf. rewrite (CodeHash_program o acc Hp). done.
  - intros k. unfold current. by rewrite Hc.
Qed.

Lemma reads_trie s o o' : so_address o = so_address o' -> so_originStorage o = so_originStorage o' ->
  so_dirtyStorage o = so_dirtyStorage o' -> openedTrie o = openedTrie o' ->
  forall k, committed s o k = committed s o' k /\ current s o k = current s o' k.
Proof.
  intros Ha Ho Hd Ht k. assert (committed s o k = committed s o' k) as Hc.
  { unfold committed, fresh, addrHash. by rewrite Ha, Ho, Ht. }
  split; [done|]. unfold current. by rewrite Hd, Hc.
Qed.

(** A change of the account that [g] takes back. *)
Lemma account_undone s o ot acc g : objeq s ot (withAccount acc o) -> program acc = program (so_account o) ->
  g acc = so_account o -> objeq s (withAccount (g (so_account ot)) ot) o.
Proof.
  intros He Hp Hg. pose proof (oe_account _ _ _ He) as Ha. objfields.
  destruct (reads_program s o acc Hp) as (R1 & R2 & R3 & R4).
  assert (Hpt : program (g (so_account ot)) = program (so_account ot)) by (by rewrite Ha, Hg).
  destruct (reads_program s ot _ Hpt) as (T1 & T2 & T3 & T4). destruct He as [H1 H2 H3 H4 H5 H6 H7 H8 H9]. objfields.
  split; objfields; try done.
  - by rewrite Ha.
  - congruence.
  - congruence.
  - intros k. by rewrite T3, H8.
  - intros k. by rewrite T4, H9.
Qed.

Lemma state_undone s o ot k v : objeq s ot (setState k v o) -> objeq s (setState k (current s o k) ot) o.
Proof.
  intros [H1 H2 H3 H4 H5 H6 H7 H8 H9]. split; try done. intros k'. specialize (H9 k'). specialize (H8 k'). unfold current in *. objfields.
  destruct (decide (k' = k)) as [->|Hne].
  - by rewrite lookup_insert_eq.
  - rewrite lookup_insert_ne in * by done. exact H9.
Qed.

Lemma code_undone s o ot h c : length (CodeHash o) = 32%nat -> objeq s ot (setCode h c o) ->
  objeq s (setCode (BytesToHash (CodeHash o)) (codeOf o) ot) o.
Proof.
  intros Hl He. rewrite BytesToHash_32 by done. unfold setCode in *. destruct (isProgram (so_account o)) eqn:Hp.
  2: { by rewrite (oe_account _ _ _ He), Hp. }
  destruct He as [H1 H2 H3 H4 H5 H6 H7 H8 H9]. objfields.
  destruct (so_account o) as [|cm r h' i] eqn:Ho; [done|]. cbn [SetCodeHash] in H2. rewrite H2. cbn [isProgram SetCodeHash].
  assert (Hh : CodeHash o = h') by (unfold CodeHash; by rewrite Ho). rewrite Hh.
  assert (Ht : openedTrie (withCode (codeOf o) true (withAccount (SmartContractAccount cm r h' i) ot)) = openedTrie ot).
  { unfold openedTrie. objfields. by rewrite H2. }
  assert (Ht' : openedTrie (withCode c true (withAccount (SmartContractAccount cm r h i) o)) = openedTrie o).
  { unfold openedTrie. objfields. by rewrite Ho. }
  split; objfields; try done.
  - unfold codeOf at 1, CodeHash. objfields. destruct (codeOf o) eqn:Hc; [done|]. unfold codeOf in Hc. rewrite Hh in Hc.
    by destruct (so_code o).
  - rewrite Ht, H7. exact Ht'.
  - intros k. etransitivity; [apply (reads_trie s _ ot); done|]. rewrite H8. by apply reads_trie.
  - intros k. etransitivity; [apply (reads_trie s _ ot); done|]. rewrite H9. by apply reads_trie.
Qed.

(** Undoing a change of one object that is not deleted. *)
Lemma undo_object e a f s o o' : is_addr a -> keyed s -> sd_stateObjects s !! a = Some o -> so_address o' = a -> so_deleted o' = false ->
  (forall t ot t1, getStateObject a t = (Some ot, t1) -> revertEntry e t = Ok (setStateObject (f ot) t1)) ->
  (forall ot, objeq s ot o' -> objeq s (f ot) o) ->
  undoes [e] s (setStateObject o' (journalAppend e s)).
Proof.
  intros Hia Hk Ho Ha Hd Hr Hf. apply undoes_one. intros t Ht Hkt. subst a.
  set (s' := setStateObject o' (journalAppend e s)) in *.
  assert (Hv : view s' (so_address o') = Some o') by (unfold view, s'; fields; by rewrite lookup_insert_eq).
  symmetry in Ht. destruct (equiv_view _ _ _ _ Hia Ht Hv) as (ot & Hvt & Hot). symmetry in Ht. symmetry in Hot.
  assert (Hctx : forall x y, objeq s' x y -> objeq s x y) by (intros x y; by apply objeq_ctx).
  destruct (getStateObject_spec (so_address o') t Hkt) as (t1 & Hg & Ht1 & Hk1 & _ & Hl).
  rewrite Hvt in Hg, Hl. cbn [live mbind option_bind] in Hg. rewrite (oe_deleted _ _ _ Hot), Hd in Hg.
  rewrite (Hr t ot t1 Hg). eexists. split; [done|].
  assert (Hfo : objeq s (f ot) o) by (by apply Hf, Hctx).
  assert (Hsa : so_address o = so_address o') by (by apply (ky_address s Hk)).
  assert (Hts : equiv t1 s') by (by etransitivity).
  destruct Hts as [E1 E2 E3 E4 E5 E6 E7]. split; try done. intros b Hb.
  assert (Hfa : so_address (f ot) = so_address o') by (rewrite (oe_address _ _ _ Hfo); done).
  destruct (decide (b = so_address o')) as [->|Hne].
  - unfold view. fields. rewrite Hfa, lookup_insert_eq, Ho. constructor. eapply objeq_ctx; [| |exact Hfo]; [done|fields; by rewrite E3].
  - specialize (E7 b Hb). unfold view in *. unfold s' in E7. fields. rewrite Hfa, lookup_insert_ne by done. rewrite lookup_insert_ne in E7 by done.
    eapply objeqs_ctx; [| |exact E7]; done.
Qed.

(** ** Undoing the creation of an object *)

Lemma undo_create s a n : keyed s -> view s a = None -> so_address n = a ->
  undoes [createObjectChange a] s (setStateObject n (journalAppend (createObjectChange a) s)).
Proof.
  intros Hk Hv <-. apply undoes_one. intros t Ht Hkt. eexists. split; [done|]. destruct Ht as [E1 E2 E3 E4 E5 E6 E7].
  assert (Hs : sd_stateObjects s !! so_address n = None) by (unfold view in Hv; by destruct (sd_stateObjects s !! _)).
  assert (Hd : so_address n ∉ sd_stateObjectsDirty t).
  { intros Hin. assert (sd_stateObjectsDirty t = sd_stateObjectsDirty s) as Hds by (unfold rest in E4; fields; congruence).
    rewrite Hds in Hin. apply (ky_dirty s Hk) in Hin as [? Hin]. congruence. }
  split; try done.
  - unfold rest in *. fields. rewrite difference_disjoint_L by (by apply disjoint_singleton_r). exact E4.
  - intros b Hb. destruct (decide (b = so_address n)) as [->|Hne].
    + rewrite Hv. unfold view. fields. rewrite lookup_delete_eq. rewrite (readAccount_same _ s) by done.
      unfold view in Hv. rewrite Hs in Hv. destruct (readAccount s _); [done|constructor].
    + specialize (E7 b Hb). unfold view in *. fields. rewrite lookup_delete_ne by done. rewrite lookup_insert_ne in E7 by done.
      eapply objeqs_ctx; [| |exact E7]; done.
Qed.

(** The hash of addresses has no collisions. *)
Definition addresses_distinct : Prop := forall a b : Address, is_addr a -> is_addr b -> keccak a = keccak b -> a = b.

(** The destructed accounts after [a] was replaced. *)
Definition destructing (s : StateDB) (a : Address) : StateDB :=
  match sd_snap s with
  | Some _ => if bool_decide (keccak a ∈ sd_snapDestructs s) then s else setDestructs ({[keccak a]} ∪ sd_snapDestructs s) s
  | None => s
  end.
Definition destructed (s : StateDB) (a : Address) : bool :=
  match sd_snap s with Some _ => bool_decide (keccak a ∈ sd_snapDestructs s) | None => false end.

Lemma destructing_fields s a : sd_stateObjects (destructing s a) = sd_stateObjects s /\ sd_trie (destructing s a) = sd_trie s /\
  sd_snap (destructing s a) = sd_snap s /\ rest (destructing s a) = rest s /\ meta (destructing s a) = meta s /\
  sd_logs (destructing s a) = sd_logs s /\ sd_transientStorage (destructing s a) = sd_transientStorage s.
Proof. unfold destructing. destruct (sd_snap s) eqn:E; [destruct (bool_decide _)|]; by split_and!. Qed.

Lemma undo_reset s a p n : addresses_distinct -> is_addr a -> keyed s -> sd_stateObjects s !! a = Some p -> so_address n = a ->
  let e := resetObjectChange p (destructed s a) in
  undoes [e] s (setStateObject n (journalAppend e (destructing s a))).
Proof.
  intros Hinj Hia Hk Hp Hn e. apply undoes_one. intros t Ht Hkt.
  assert (Hpa : so_address p = a) by (by apply (ky_address s Hk)).
  destruct (destructing_fields s a) as (D1 & D2 & D3 & D4 & D5 & D6 & D7). destruct Ht as [E1 E2 E3 E4 E5 E6 E7].
  set (t' := if negb (destructed s a) && bool_decide (is_Some (sd_snap (setStateObject p t)))
             then setDestructs (sd_snapDestructs (setStateObject p t) ∖ {[addrHash p]}) (setStateObject p t) else setStateObject p t).
  exists t'. split; [done|].
  assert (Hd : sd_snapDestructs t' = sd_snapDestructs s).
  { unfold t', destructed, destructing, addrHash in *. rewrite Hpa. fields. rewrite E2, D3. destruct (sd_snap s) as [sn|]; [|done].
    case_bool_decide as Hin; cbn [negb andb]; [done|]. rewrite bool_decide_true by done. fields. rewrite E3. set_solver. }
  assert (Hf : sd_trie t' = sd_trie t /\ sd_snap t' = sd_snap t /\ rest t' = rest t /\ sd_logs t' = sd_logs t /\
               sd_transientStorage t' = sd_transientStorage t /\ sd_stateObjects t' = <[a := p]> (sd_stateObjects t)).
  { rewrite <- Hpa. unfold t'. clear Hd t'. by destruct (_ && _); split_and!. }
  destruct Hf as (F1 & F2 & F3 & F4 & F5 & F6). split.
  - rewrite F1, E1. exact D2.
  - rewrite F2, E2. exact D3.
  - done.
  - rewrite F3, E4. exact D4.
  - intros h. specialize (E5 h). unfold GetLogs in *. rewrite F4, E5. fields. by rewrite D6.
  - intros b k. specialize (E6 b k). unfold GetTransientState in *. rewrite F5, E6. fields. by rewrite D7.
  - intros b Hb. unfold view at 1. rewrite F6. destruct (decide (b = a)) as [->|Hne].
    { rewrite lookup_insert_eq. unfold view. rewrite Hp. by constructor. }
    rewrite lookup_insert_ne by done. rewrite (readAccount_same t' t) by done. fold (view t b). specialize (E7 b Hb).
    assert (Hvs : view (setStateObject n (journalAppend e (destructing s a))) b = view s b).
    { unfold view. fields. rewrite lookup_insert_ne, D1 by congruence. destruct (sd_stateObjects s !! b); [done|].
      f_equal. by apply readAccount_same. }
    rewrite Hvs in E7. destruct (view t b) as [ot|] eqn:Hot; inversion E7 as [? os Hos|]; subst; constructor.
    eapply objeq_ctx; [| |exact Hos]; [done|]. rewrite Hd, E3. fields. unfold destructing, addrHash.
    rewrite (view_address t b ot Hkt Hot). destruct (sd_snap s); [|done]. case_bool_decide; [done|]. fields.
    rewrite elem_of_union, elem_of_singleton. split; [intros [Heq|?]; [by apply (Hinj b _ Hb Hia) in Heq|done]|by right].
Qed.

(** ** Journalled steps *)

Record steps (es : list journalEntry) (s s' : StateDB) : Prop := {
  st_undo : undoes es s s';
  st_wf : wf s';
  st_entries : entries s' = entries s ++ es;
  st_counted : counted s -> counted s';
  st_revisions : revisions s' = revisions s
}.
Definition journalled (s s' : StateDB) : Prop := exists es, steps es s s'.

Lemma journalled_trans s1 s2 s3 : journalled s1 s2 -> journalled s2 s3 -> journalled s1 s3.
Proof.
  intros [es1 [U1 W1 E1 C1 R1]] [es2 [U2 W2 E2 C2 R2]]. exists (es1 ++ es2). split; auto.
  - by eapply undoes_trans.
  - by rewrite E2, E1, app_assoc.
  - congruence.
Qed.

Lemma journalled_silent s s' : wf s -> equiv s' s -> keyed s' -> meta s' = meta s -> journalled s s'.
Proof.
  intros Hw He Hk Hm. exists []. unfold meta in Hm. injection Hm as Hj Hv Hn. split.
  - by apply undoes_equiv.
  - by eapply wf_equiv.
  - unfold entries. by rewrite Hj, app_nil_r.
  - unfold counted, dirties, entries. by rewrite Hj.
  - unfold revisions. by rewrite Hv, Hn.
Qed.

Lemma journalled_refl s : wf s -> journalled s s.
Proof. intros Hw. apply journalled_silent; try done. apply Hw. Qed.

(** A step with one entry. *)
Lemma journalled_one e s s' : undoes [e] s s' -> wf s' -> sd_journal s' = append e (sd_journal s) -> revisions s' = revisions s ->
  journalled s s'.
Proof.
  intros Hu Hw Hj Hr. exists [e]. split; try done.
  - unfold entries. rewrite Hj. unfold append. by destruct (dirtied e).
  - intros Hc%(counted_append e). unfold counted, dirties, entries in *. by rewrite Hj.
Qed.

Lemma put_put o o' s : so_address o = so_address o' -> setStateObject o' (setStateObject o s) = setStateObject o' s.
Proof. intros Ha. unfold setStateObject, setObjects. cbn. by rewrite Ha, insert_insert_eq. Qed.

(** Replacing an object by one with a code hash of the right length. *)
Lemma wf_put s o : wf s -> length (CodeHash o) = 32%nat -> wf (setStateObject o s).
Proof.
  intros [Hk Hc Ha Hs] Hl. split; [by apply keyed_put| |done..]. intros b o' Hb. unfold view. fields.
  destruct (decide (b = so_address o)) as [->|Hne]; [rewrite lookup_insert_eq; by intros [= <-]|].
  rewrite lookup_insert_ne by done. by apply (Hc b).
Qed.

Lemma wf_append e s : wf s -> wf (journalAppend e s).
Proof. intros Hw. eapply wf_equiv; [apply equiv_journal| |done]. eapply keyed_same; [| |apply Hw]; done. Qed.

(** Loading an object. *)
Lemma load_spec a s : wf s -> exists s', getStateObject a s = (live (view s a), s') /\ journalled s s' /\ wf s' /\ equiv s' s /\
  sd_stateObjects s' !! a = view s a.
Proof.
  intros Hw. destruct (getStateObject_spec a s (wf_keyed s Hw)) as (s' & Hg & He & Hk & Hm & Hl).
  exists s'. split_and!; try done; [by apply journalled_silent|by eapply wf_equiv].
Qed.

(** A cache of the object at [a] is filled. *)
Lemma journalled_cache a s o o' : wf s -> sd_stateObjects s !! a = Some o -> objeq s o' o -> journalled s (setStateObject o' s).
Proof.
  intros Hw Ho He. assert (Ha : so_address o' = a) by (rewrite (oe_address _ _ _ He); by apply (ky_address s (wf_keyed s Hw))).
  apply journalled_silent; [done| |by apply keyed_put, Hw|done].
  apply (equiv_put s o' o); [|done]. unfold view. by rewrite Ha, Ho.
Qed.

(** A change of the object at [a]. *)
Lemma journalled_object e a f s o o' : is_addr a -> wf s -> sd_stateObjects s !! a = Some o -> so_address o' = so_address o ->
  so_deleted o' = false -> length (CodeHash o') = 32%nat ->
  (forall t ot t1, getStateObject a t = (Some ot, t1) -> revertEntry e t = Ok (setStateObject (f ot) t1)) ->
  (forall ot, objeq s ot o' -> objeq s (f ot) o) ->
  journalled s (setStateObject o' (journalAppend e s)).
Proof.
  intros Hia Hw Ho Ha Hd Hl Hr Hf. pose proof (ky_address s (wf_keyed s Hw) _ _ Ho) as Hoa. apply (journalled_one e); try done.
  - apply (undo_object e a f s o o'); try done; [apply Hw|congruence].
  - apply wf_put; [by apply wf_append|done].
Qed.

Lemma onObject_some a f t ot t1 : getStateObject a t = (Some ot, t1) -> onObject a f t = Ok (setStateObject (f ot) t1).
Proof. unfold onObject. by intros ->. Qed.

(** ** Changes of one object *)

Lemma program_SetBalance acc b : program (SetBalance acc b) = program acc.
Proof. by destruct acc. Qed.
Lemma program_SetNonce acc n : program (SetNonce acc n) = program acc.
Proof. by destruct acc. Qed.

Section object.
Context (a : Address) (s : StateDB) (o : stateObject).
Hypothesis Hia : is_addr a.
Hypothesis Hw : wf s.
Hypothesis Ho : sd_stateObjects s !! a = Some o.
Hypothesis Hd : so_deleted o = false.

Lemma object_address : so_address o = a.
Proof using Hw Ho. by apply (ky_address s (wf_keyed s Hw)). Qed.
Lemma object_code : length (CodeHash o) = 32%nat.
Proof using Hia Hw Ho. apply (wf_code s Hw a); [done|]. unfold view. by rewrite Ho. Qed.

Lemma objSetBalance_step b : journalled s (objSetBalance b o s).
Proof using Hia Hw Ho Hd.
  unfold objSetBalance. rewrite object_address.
  apply (journalled_object _ a (setBalance (GetBalance (so_account o))) s o); try done.
  - unfold setBalance. rewrite CodeHash_program by apply program_SetBalance. apply object_code.
  - intros t ot t1. apply onObject_some.
  - intros ot He. apply (account_undone s o ot (SetBalance (so_account o) b) (fun acc => SetBalance acc (GetBalance (so_account o)))); try done.
    + apply program_SetBalance.
    + by destruct (so_account o) as [[]|[]].
Qed.

Lemma objSetNonce_step n : journalled s (objSetNonce n o s).
Proof using Hia Hw Ho Hd.
  unfold objSetNonce. rewrite object_address.
  apply (journalled_object _ a (setNonce (GetNonce (so_account o))) s o); try done.
  - unfold setNonce. rewrite CodeHash_program by apply program_SetNonce. apply object_code.
  - intros t ot t1. apply onObject_some.
  - intros ot He. apply (account_undone s o ot (SetNonce (so_account o) n) (fun acc => SetNonce acc (GetNonce (so_account o)))); try done.
    + apply program_SetNonce.
    + by destruct (so_account o) as [[]|[]].
Qed.

Lemma setState_step k v :
  journalled s (setStateObject (setState k v o) (journalAppend (storageChange (so_address o) k (current s o k)) s)).
Proof using Hia Hw Ho Hd.
  rewrite object_address. apply (journalled_object _ a (setState k (current s o k)) s o); try done.
  - apply object_code.
  - intros t ot t1. apply onObject_some.
  - intros ot He. by apply (state_undone s o ot k v).
Qed.

Lemma setCode_step h c : length h = 32%nat ->
  journalled s (setStateObject (setCode h c o) (journalAppend (codeChange (so_address o) (codeOf o) (CodeHash o)) s)).
Proof using Hia Hw Ho Hd.
  intros Hh. rewrite object_address. apply (journalled_object _ a (setCode (BytesToHash (CodeHash o)) (codeOf o)) s o); try done.
  - unfold setCode. by destruct (isProgram _).
  - unfold setCode. by destruct (isProgram _).
  - unfold setCode. destruct (isProgram _) eqn:Hp; [|apply object_code]. unfold CodeHash. objfields. by destruct (so_account o).
  - intros t ot t1. apply onObject_some.
  - intros ot He. apply (code_undone s o ot h c); [apply object_code|done].
Qed.

Lemma selfDestruct_step :
  journalled s (setStateObject (setBalance 0 (withFlags true (so_deleted o) (so_created o) o))
                  (journalAppend (selfDestructChange a (so_selfDestructed o) (GetBalance (so_account o))) s)).
Proof using Hia Hw Ho Hd.
  apply (journalled_object _ a (fun ot => setBalance (GetBalance (so_account o)) (withFlags (so_selfDestructed o) (so_deleted ot) (so_created ot) ot)) s o); try done.
  - unfold setBalance. rewrite CodeHash_program by apply program_SetBalance. apply object_code.
  - intros t ot t1 Hg. cbn [revertEntry]. by rewrite Hg.
  - intros ot He.
    assert (Hf : objeq s (withFlags (so_selfDestructed o) (so_deleted ot) (so_created ot) ot) (setBalance 0 o)).
    { destruct He as [H1 H2 H3 H4 H5 H6 H7 H8 H9]. objfields. by split. }
    apply (account_undone s o _ (SetBalance (so_account o) 0) (fun acc => SetBalance acc (GetBalance (so_account o))) Hf).
    + apply program_SetBalance.
    + by destruct (so_account o) as [[]|[]].
Qed.

Lemma touch_step : journalled s (touch o s).
Proof using Hw Ho.
  assert (Ht : journalled s (journalAppend (touchChange (so_address o)) s)).
  { apply (journalled_one (touchChange (so_address o))); try done; [|by apply wf_append].
    apply undoes_one. intros t Ht _. exists t. split; [done|]. etransitivity; [exact Ht|]. apply equiv_journal. }
  unfold touch. case_bool_decide as Hr; [|done]. destruct Ht as [es [U W E C R]]. exists es.
  set (s1 := journalAppend (touchChange (so_address o)) s) in *. split; try done.
  - eapply undoes_ext; [apply equiv_journal|done].
  - eapply wf_equiv; [apply equiv_journal| |done]. eapply keyed_same; [| |apply W]; done.
  - intros Hc%C b Hb. specialize (Hc b Hb). unfold dirties, entries in *. fields. unfold dirtyAddr. cbn [j_dirties j_entries].
    rewrite Hr, lookup_insert_ne by done. exact Hc.
Qed.
End object.

(** ** Creating objects *)

Hypothesis keccak_len : forall b, length (keccak b) = 32%nat.
Hypothesis keccak_addresses : addresses_distinct.

(** The code hash of an account, in the length of a hash. *)
Definition hash_ok (acc : Account) : Prop := match acc with SmartContractAccount _ _ h _ => length h = 32%nat | _ => True end.

Lemma CodeHash_ok o : hash_ok (so_account o) -> length (CodeHash o) = 32%nat.
Proof using keccak_len. unfold CodeHash. destruct (so_account o); [intros _; apply keccak_len|done]. Qed.

Lemma create_spec a acc s : is_addr a -> wf s -> hash_ok acc -> exists newobj prev s1,
  createObjectWith a acc s = (newobj, prev, setStateObject newobj s1) /\
  so_address newobj = a /\ so_deleted newobj = false /\ hash_ok (so_account newobj) /\
  forall n, so_address n = a -> hash_ok (so_account n) -> journalled s (setStateObject n s1).
Proof using keccak_len keccak_addresses.
  intros Hia Hw Hh. destruct (getDeleted_spec a s (wf_keyed s Hw)) as (s0 & Hg & He & Hk & Hm & Hl).
  assert (Hw0 : wf s0) by (by eapply wf_equiv). assert (Hj0 : journalled s s0) by (by apply journalled_silent).
  unfold createObjectWith. rewrite Hg. cbv zeta.
  set (newobj := withFlags _ _ true _).
  assert (Hn : so_address newobj = a /\ so_deleted newobj = false /\ hash_ok (so_account newobj)).
  { split_and!; try done. unfold newobj. objfields. by destruct acc. }
  destruct (view s a) as [p|] eqn:Hv.
  - assert (Hpa : so_address p = a) by (by apply (ky_address s0 Hk)).
    replace (match sd_snap s0 with Some _ => bool_decide (addrHash p ∈ sd_snapDestructs s0) | None => false end) with (destructed s0 a)
      by (unfold destructed, addrHash; by rewrite Hpa).
    exists newobj, (if so_deleted p then None else Some p), (journalAppend (resetObjectChange p (destructed s0 a)) (destructing s0 a)).
    split; [|split; [apply Hn|split; [apply Hn|split; [apply Hn|]]]].
    { f_equal. do 2 f_equal. unfold destructing, destructed, addrHash. rewrite Hpa. destruct (sd_snap s0); [|done]. by case_bool_decide. }
    intros n Hna Hnh. eapply journalled_trans; [exact Hj0|].
    destruct (destructing_fields s0 a) as (D1 & D2 & D3 & D4 & D5 & D6 & D7).
    apply (journalled_one (resetObjectChange p (destructed s0 a))).
    + by apply undo_reset.
    + apply wf_put; [|by apply CodeHash_ok]. apply wf_append. destruct Hw0 as [K0 C0 A0 L0]. split.
      * eapply keyed_same; [| |exact K0]; [done|]. unfold rest in D4. congruence.
      * intros b o' Hib Hb. apply (C0 b); [done|]. unfold view in *. rewrite D1, (readAccount_same _ s0) in Hb by done. exact Hb.
      * replace (sd_accessList (destructing s0 a)) with (sd_accessList s0) by (unfold rest in D4; congruence). done.
      * replace (sd_logSize (destructing s0 a)) with (sd_logSize s0) by (unfold rest in D4; congruence). done.
    + fields. unfold meta in D5. congruence.
    + unfold revisions. fields. unfold meta in D5. congruence.
  - exists newobj, None, (journalAppend (createObjectChange a) s0).
    split; [|split; [apply Hn|split; [apply Hn|split; [apply Hn|]]]].
    { by destruct (sd_snap s0). }
    intros n Hna Hnh. eapply journalled_trans; [exact Hj0|]. apply (journalled_one (createObjectChange a)); try done.
    + apply undo_create; [done| |done]. symmetry in He. by apply (equiv_view_none s s0 a Hia).
    + apply wf_put; [by apply wf_append|by apply CodeHash_ok].
Qed.

Lemma hash_ok_values v : v_CodeHash v = None -> hash_ok (newSmartContractAccountWithMap emptyCodeHash v).
Proof using keccak_len. intros Hv. cbn. rewrite Hv. apply keccak_len. Qed.

(** An object that exists, or a new one. *)
Lemma getOrNew_spec a s acc : is_addr a -> wf s -> hash_ok acc -> exists o s',
  (let '(o, s) := getStateObject a s in
   match o with
   | Some o => (o, s)
   | None => let '(o, _, s) := createObjectWith a acc s in (o, s)
   end) = (o, s') /\
  journalled s s' /\ wf s' /\ sd_stateObjects s' !! a = Some o /\ so_deleted o = false.
Proof using keccak_len keccak_addresses.
  intros Hia Hw Hh. destruct (load_spec a s Hw) as (s1 & -> & Hj & Hw1 & He & Hl).
  destruct (live (view s a)) as [o|] eqn:Hlive.
  - exists o, s1. unfold live in Hlive. destruct (view s a) as [o'|] eqn:Hv; [|done]. cbn in Hlive.
    destruct (so_deleted o') eqn:Hd; [done|]. injection Hlive as <-. by split_and!.
  - destruct (create_spec a acc s1 Hia Hw1 Hh) as (o & prev & s2 & -> & Ha & Hd & Hh' & Hn). specialize (Hn o Ha Hh').
    exists o, (setStateObject o s2). split; [done|]. split; [by eapply journalled_trans|]. split; [by destruct Hn as [? []]|].
    split; [|done]. fields. rewrite Ha. apply lookup_insert_eq.
Qed.

Lemma GetOrNewStateObject_spec a s : is_addr a -> wf s -> exists o s', GetOrNewStateObject a s = (o, s') /\
  journalled s s' /\ wf s' /\ sd_stateObjects s' !! a = Some o /\ so_deleted o = false.
Proof using keccak_len keccak_addresses. intros Hia Hw. by apply (getOrNew_spec a s newExternallyOwnedAccount). Qed.

Lemma GetOrNewSmartContract_spec a s : is_addr a -> wf s -> exists o s', GetOrNewSmartContract a s = (o, s') /\
  journalled s s' /\ wf s' /\ sd_stateObjects s' !! a = Some o /\ so_deleted o = false.
Proof using keccak_len keccak_addresses.
  intros Hia Hw. apply (getOrNew_spec a s (newSmartContractAccountWithMap emptyCodeHash
    (mkValues (Some 1) None (Some false) (Some AccountKeyFail) None None None))); [done..|]. by apply hash_ok_values.
Qed.

Lemma carryBalance_step a s acc : is_addr a -> wf s -> hash_ok acc -> journalled s (carryBalance (createObjectWith a acc s)).
Proof using keccak_len keccak_addresses.
  intros Hia Hw Hh. destruct (create_spec a acc s Hia Hw Hh) as (o & prev & s1 & -> & Ha & Hd & Hh' & Hn). unfold carryBalance.
  destruct prev as [p|]; [|by apply Hn]. rewrite put_put by done. apply Hn; [done|].
  objfields. by destruct (so_account o).
Qed.

(** ** Other changes *)

Definition core (s : StateDB) := (sd_trie s, sd_snap s, sd_snapDestructs s, sd_stateObjects s).

Lemma view_core s t a : core s = core t -> view s a = view t a.
Proof. unfold core, view, readAccount. intros [= -> -> _ ->]. done. Qed.

(** States that differ outside the objects. *)
Lemma equiv_core s s' t t' : equiv t s' -> core t' = core t -> core s = core s' -> rest t' = rest s ->
  (forall h, GetLogs h t' = GetLogs h s) -> (forall a k, GetTransientState a k t' = GetTransientState a k s) -> equiv t' s.
Proof.
  intros [E1 E2 E3 E4 E5 E6 E7] Ht Hs Hr Hl Htr. pose proof Ht as Ht'. pose proof Hs as Hs'.
  unfold core in Ht', Hs'. injection Ht' as T1 T2 T3 T4. injection Hs' as S1 S2 S3 S4.
  split; try done; try congruence. intros a Ha. rewrite (view_core _ _ a Ht), (view_core _ _ a Hs).
  eapply objeqs_ctx; [| |apply (E7 a Ha)]; congruence.
Qed.

Lemma wf_core s s' : wf s -> core s' = core s -> sd_stateObjectsDirty s' = sd_stateObjectsDirty s -> al_ok (sd_accessList s') ->
  is_u64 (sd_logSize s') -> wf s'.
Proof.
  intros [K C A L] Hc Hd Ha Hl. split; [|intros a o; rewrite (view_core _ _ a Hc); apply C|done..].
  eapply keyed_same; [| |exact K]; [|done]. unfold core in Hc. congruence.
Qed.

(** A journalled change outside the objects, which its entry undoes. *)
Lemma journalled_other e s s' : wf s -> core s' = core s -> sd_stateObjectsDirty s' = sd_stateObjectsDirty s ->
  al_ok (sd_accessList s') -> is_u64 (sd_logSize s') -> sd_journal s' = append e (sd_journal s) -> revisions s' = revisions s ->
  (forall t, equiv t s' -> exists t', revertEntry e t = Ok t' /\ core t' = core t /\ rest t' = rest s /\
     (forall h, GetLogs h t' = GetLogs h s) /\ forall a k, GetTransientState a k t' = GetTransientState a k s) ->
  journalled s s'.
Proof.
  intros Hw Hc Hd Ha Hl Hj Hr Hu. apply (journalled_one e); try done; [|by eapply wf_core].
  apply undoes_one. intros t Ht _. destruct (Hu t Ht) as (t' & He & Hct & Hrt & Hlt & Htt). exists t'. split; [done|].
  by apply (equiv_core s s' t t').
Qed.

Ltac rest_eq := unfold rest in *; fields; congruence.

Lemma transient_get a k v a' k' s : GetTransientState a' k' (setTransientState a k v s) =
  if decide (a' = a /\ k' = k) then v else GetTransientState a' k' s.
Proof.
  unfold GetTransientState, setTransientState. fields. destruct (decide (a' = a)) as [->|Hne].
  - rewrite lookup_insert_eq. destruct (decide (k' = k)) as [->|Hk].
    + by rewrite lookup_insert_eq, decide_True.
    + rewrite lookup_insert_ne, decide_False by (congruence || by intros [_ ?]). by destruct (sd_transientStorage s !! a).
  - rewrite lookup_insert_ne, decide_False by (congruence || by intros [? _]). done.
Qed.

Lemma SetTransientState_step a k v s : wf s -> journalled s (SetTransientState a k v s).
Proof.
  intros Hw. unfold SetTransientState. case_bool_decide; [by apply journalled_refl|].
  apply (journalled_other (transientStorageChange a k (GetTransientState a k s))); try done; [apply Hw..|].
  intros t Ht. eexists. split; [done|]. destruct Ht as [E1 E2 E3 E4 E5 E6 E7]. split_and!; try done.
  intros a' k'. rewrite transient_get. case_decide as Hd; [by destruct Hd as [-> ->]|].
  rewrite E6, transient_get. by rewrite decide_False.
Qed.

Lemma AddRefund_step gas s : wf s -> journalled s (AddRefund gas s).
Proof.
  intros Hw. apply (journalled_other (refundChange (sd_refund s))); try done; [apply Hw..|].
  intros t [E1 E2 E3 E4 E5 E6 E7]. eexists. split; [done|]. split_and!; try done. unfold AddRefund in *. rest_eq.
Qed.

Lemma SubRefund_step gas s s' : wf s -> SubRefund gas s = Ok s' -> journalled s s'.
Proof.
  intros Hw. unfold SubRefund. fields. destruct (_ <? _); [done|]. intros [= <-].
  apply (journalled_other (refundChange (sd_refund s))); try done; [apply Hw..|].
  intros t [E1 E2 E3 E4 E5 E6 E7]. eexists. split; [done|]. split_and!; try done. rest_eq.
Qed.

Lemma AddPreimage_step h p s : wf s -> journalled s (AddPreimage h p s).
Proof.
  intros Hw. unfold AddPreimage. destruct (sd_preimages s !! h) eqn:Hh; [by apply journalled_refl|].
  apply (journalled_other (addPreimageChange h)); try done; [apply Hw..|].
  intros t [E1 E2 E3 E4 E5 E6 E7]. eexists. split; [done|]. split_and!; try done.
  assert (sd_preimages t = <[h := p]> (sd_preimages s)) as Hp by rest_eq.
  unfold rest in *. fields. rewrite Hp, delete_insert_id by done. congruence.
Qed.

Lemma AddLog_step log s : wf s -> journalled s (AddLog log s).
Proof.
  intros Hw. pose proof (wf_logSize s Hw) as Hsz. unfold is_u64 in Hsz. unfold AddLog. fields.
  change (GetLogs (sd_thash s) (journalAppend (addLogChange (sd_thash s)) s)) with (GetLogs (sd_thash s) s).
  set (l := mkLog _ _ _ _ _ _ _).
  apply (journalled_other (addLogChange (sd_thash s))); try done; [apply Hw|apply u64_range|].
  intros t [E1 E2 E3 E4 E5 E6 E7]. pose proof (E5 (sd_thash s)) as Hl. unfold GetLogs at 2 in Hl. fields.
  rewrite lookup_insert_eq in Hl. cbn [from_option id] in Hl. cbn [revertEntry]. rewrite Hl, length_app. cbn [length].
  assert (Hsize : u64 (sd_logSize t - 1) = sd_logSize s).
  { assert (sd_logSize t = u64 (sd_logSize s + 1)) as -> by rest_eq. unfold u64. rewrite Zminus_mod_idemp_l, Z.add_simpl_r.
    by apply Z.mod_small. }
  assert (Hother : forall h, h <> sd_thash s -> GetLogs h t = GetLogs h s).
  { intros h Hne. rewrite (E5 h). unfold GetLogs. fields. by rewrite lookup_insert_ne. }
  assert (Hr : forall m, rest (setLogs m (u64 (sd_logSize t - 1)) t) = rest s).
  { intros m. unfold rest in *. fields. rewrite Hsize. congruence. }
  destruct (Nat.eqb_spec (length (GetLogs (sd_thash s) s) + 1) 1) as [H1|H1].
  - eexists. split; [done|]. split_and!; try done. intros h. unfold GetLogs at 1. fields.
    destruct (decide (h = sd_thash s)) as [->|Hne]; [|rewrite lookup_delete_ne by done; by apply Hother].
    rewrite lookup_delete_eq. destruct (GetLogs (sd_thash s) s) eqn:E; [done|simpl in H1; lia].
  - rewrite (proj2 (Nat.eqb_neq _ 0)) by lia. eexists. split; [done|]. split_and!; try done.
    intros h. unfold GetLogs at 1. fields. destruct (decide (h = sd_thash s)) as [->|Hne]; [|rewrite lookup_insert_ne by done; by apply Hother].
    rewrite lookup_insert_eq. cbn [from_option id]. rewrite take_app_le by lia. rewrite take_ge by lia. done.
Qed.

(** ** The access list *)

Lemma AddAddressToAccessList_step a s : wf s -> journalled s (AddAddressToAccessList a s).
Proof.
  intros Hw. unfold AddAddressToAccessList, AddAddress. destruct (al_addresses (sd_accessList s) !! a) as [i|] eqn:Ha.
  { replace (setAccessList (sd_accessList s) s) with s by (by destruct s). by apply journalled_refl. }
  apply (journalled_other (accessListAddAccountChange a)); try done; try apply Hw.
  - fields. intros b i. cbn [al_addresses al_slots]. destruct (decide (b = a)) as [->|Hne]; [rewrite lookup_insert_eq; left; congruence|].
    rewrite lookup_insert_ne by done. apply (wf_access s Hw).
  - intros t [E1 E2 E3 E4 E5 E6 E7]. eexists. split; [done|]. split_and!; try done.
    assert (sd_accessList t = mkAccessList (<[a := -1]> (al_addresses (sd_accessList s))) (al_slots (sd_accessList s))) as Hal by rest_eq.
    unfold rest in *. fields. rewrite Hal. unfold DeleteAddress. cbn [al_addresses al_slots]. rewrite delete_insert_id by done.
    replace (mkAccessList (al_addresses (sd_accessList s)) (al_slots (sd_accessList s))) with (sd_accessList s) by (by destruct (sd_accessList s)).
    congruence.
Qed.

(** Adding a slot under an address that is present can be taken back. *)
Lemma AddSlot_present al a slot : al_ok al -> is_Some (al_addresses al !! a) ->
  AddSlot al a slot = Ok (false, false, al) \/
  exists al', AddSlot al a slot = Ok (false, true, al') /\ al_ok al' /\ DeleteSlot al' a slot = Ok al.
Proof.
  intros Hok [i Hi]. unfold AddSlot. rewrite Hi. destruct (Hok a i Hi) as [->|(Hi0 & m & Hm & Hne)].
  - right. eexists. split; [done|]. split.
    + intros b j. cbn [al_addresses al_slots]. destruct (decide (b = a)) as [->|Hb].
      * rewrite lookup_insert_eq. intros [= <-]. right. split; [apply len_nonneg|]. exists {[slot]}. unfold len.
        rewrite Nat2Z.id, list_lookup_middle by done. split; [done|]. apply non_empty_singleton_L.
      * rewrite lookup_insert_ne by done. intros Hj. destruct (Hok b j Hj) as [?|(? & m & Hm & ?)]; [by left|right].
        split; [done|]. exists m. split; [|done]. by apply lookup_app_l_Some.
    + unfold DeleteSlot. cbn [al_addresses al_slots]. rewrite lookup_insert_eq. pose proof (len_nonneg (al_slots al)).
      rewrite (proj2 (Z.ltb_ge _ _)) by done. unfold len. rewrite Nat2Z.id. unfold index. rewrite list_lookup_middle by done.
      cbn [mbind res_bind]. rewrite store_lt by (rewrite length_app; simpl; lia). cbn [mbind res_bind].
      rewrite difference_diag_L, bool_decide_true by done. rewrite insert_insert_eq, insert_id by done.
      rewrite take_insert_ge, take_app_length by done. by destruct al.
  - rewrite (proj2 (Z.eqb_neq _ _)) by lia. unfold index. rewrite Hm. cbn [mbind res_bind]. case_bool_decide as Hin; [by left|right].
    pose proof (lookup_lt_Some _ _ _ Hm) as Hlt. rewrite store_lt by done. cbn [mbind res_bind]. eexists. split; [done|]. split.
    + intros b j. cbn [al_addresses al_slots]. intros Hj. destruct (Hok b j Hj) as [?|(? & m' & Hm' & ?)]; [by left|right]. split; [done|].
      destruct (decide (Z.to_nat j = Z.to_nat i)) as [E|E].
      * rewrite E, list_lookup_insert_eq by done. eexists. split; [done|]. set_solver.
      * rewrite list_lookup_insert_ne by done. by exists m'.
    + unfold DeleteSlot. cbn [al_addresses al_slots]. rewrite Hi, (proj2 (Z.ltb_ge _ _)) by done. unfold index.
      rewrite list_lookup_insert_eq by done. cbn [mbind res_bind]. rewrite store_lt by (by rewrite length_insert). cbn [mbind res_bind].
      replace (({[slot]} ∪ m) ∖ {[slot]}) with m by set_solver. rewrite bool_decide_false by done.
      rewrite list_insert_insert_eq, list_insert_id by done. by destruct al.
Qed.

Lemma AddSlot_step_present a slot s : wf s -> is_Some (al_addresses (sd_accessList s) !! a) ->
  exists s', AddSlotToAccessList a slot s = Ok s' /\ journalled s s'.
Proof.
  intros Hw Ha. unfold AddSlotToAccessList. destruct (AddSlot_present _ a slot (wf_access s Hw) Ha) as [->|(al' & -> & Hok & Hdel)];
    cbn [mbind res_bind mret res_ret]; eexists; (split; [done|]).
  { replace (setAccessList (sd_accessList s) s) with s by (by destruct s). by apply journalled_refl. }
  apply (journalled_other (accessListAddSlotChange a slot)); try done; try apply Hw.
  intros t [E1 E2 E3 E4 E5 E6 E7]. cbn [revertEntry]. assert (sd_accessList t = al') as -> by rest_eq. rewrite Hdel.
  cbn [mbind res_bind mret res_ret]. eexists. split; [done|]. split_and!; try done. rest_eq.
Qed.

Lemma AddSlotToAccessList_step a slot s : wf s -> exists s', AddSlotToAccessList a slot s = Ok s' /\ journalled s s'.
Proof.
  intros Hw. destruct (al_addresses (sd_accessList s) !! a) as [i|] eqn:Ha; [by apply AddSlot_step_present|].
  pose proof (AddAddressToAccessList_step a s Hw) as Hj. pose proof Hj as [es [_ Hw1 _ _ _]].
  assert (AddSlotToAccessList a slot s = AddSlotToAccessList a slot (AddAddressToAccessList a s)) as ->.
  { unfold AddSlotToAccessList, AddAddressToAccessList, AddAddress, AddSlot. rewrite Ha. fields. cbn [al_addresses al_slots].
    rewrite lookup_insert_eq. cbn. by rewrite insert_insert_eq. }
  destruct (AddSlot_step_present a slot _ Hw1) as (s' & Hs & Hj').
  - unfold AddAddressToAccessList, AddAddress. rewrite Ha. fields. cbn [al_addresses]. by rewrite lookup_insert_eq.
  - exists s'. split; [done|]. by eapply journalled_trans.
Qed.

(** ** Commands *)

(** What a transaction can do to the state between its preparation and its end; [UpdateKey],
    which is not journalled, is left out. *)
Inductive cmd :=
| CAddBalance (a : Address) (amount : Z)
| CSubBalance (a : Address) (amount : Z)
| CSetBalance (a : Address) (amount : Z)
| CIncNonce (a : Address)
| CSetNonce (a : Address) (nonce : Z)
| CSetCode (a : Address) (code : option bytes)
| CSetState (a : Address) (key value : Hash)
| CSelfDestruct (a : Address)
| CSelfDestruct6780 (a : Address)
| CSetTransientState (a : Address) (key value : Hash)
| CCreateAccount (a : Address)
| CCreateEOA (a : Address) (humanReadable : bool) (key : AccountKey)
| CCreateSmartContract (a : Address) (humanReadable : bool) (key : AccountKey) (format : Z) (isIstanbul isLondon : bool)
| CAddLog (log : Log)
| CAddPreimage (hash : Hash) (preimage : bytes)
| CAddRefund (gas : Z)
| CSubRefund (gas : Z)
| CAddAddress (a : Address)
| CAddSlot (a : Address) (slot : Hash)
| CRead (a : Address)
| CGetCode (a : Address)
| CGetState (a : Address) (key : Hash)
| CGetCommittedState (a : Address) (key : Hash).

Definition run (c : cmd) (s : StateDB) : go StateDB :=
  match c with
  | CAddBalance a z => mret (AddBalance a z s)
  | CSubBalance a z => mret (SubBalance a z s)
  | CSetBalance a z => mret (SetBalanceAt a z s)
  | CIncNonce a => mret (IncNonce a s)
  | CSetNonce a n => mret (SetNonceAt a n s)
  | CSetCode a c => mret (SetCode a c s).2
  | CSetState a k v => mret (SetState a k v s)
  | CSelfDestruct a => mret (SelfDestruct a s)
  | CSelfDestruct6780 a => mret (SelfDestruct6780 a s)
  | CSetTransientState a k v => mret (SetTransientState a k v s)
  | CCreateAccount a => mret (CreateAccount a s)
  | CCreateEOA a h k => mret (CreateEOA a h k s)
  | CCreateSmartContract a h k f i l => mret (CreateSmartContractAccountWithKey a h k f i l s)
  | CAddLog log => mret (AddLog log s)
  | CAddPreimage h p => mret (AddPreimage h p s)
  | CAddRefund g => mret (AddRefund g s)
  | CSubRefund g => SubRefund g s
  | CAddAddress a => mret (AddAddressToAccessList a s)
  | CAddSlot a k => AddSlotToAccessList a k s
  | CRead a => mret (getStateObject a s).2
  | CGetCode a => mret (GetCodeAt a s).2
  | CGetState a k => mret (GetStateAt a k s).2
  | CGetCommittedState a k => mret (GetCommittedStateAt a k s).2
  end.

Lemma live_inv v o : live v = Some o -> v = Some o /\ so_deleted o = false.
Proof. destruct v as [o'|]; [|done]. cbn. destruct (so_deleted o') eqn:E; [done|]. by intros [= <-]. Qed.

Lemma SelfDestruct_step a s : is_addr a -> wf s -> journalled s (SelfDestruct a s).
Proof.
  intros Hia Hw. unfold SelfDestruct. destruct (load_spec a s Hw) as (s1 & -> & Hj & Hw1 & _ & Hl).
  destruct (live (view s a)) as [o|] eqn:Hv; [|done]. apply live_inv in Hv as [Hv Hd]. rewrite Hv in Hl.
  eapply journalled_trans; [exact Hj|]. by apply selfDestruct_step.
Qed.

Lemma SetCode_step a c s : is_addr a -> wf s -> journalled s (SetCode a c s).2.
Proof using keccak_len keccak_addresses.
  intros Hia Hw. unfold SetCode. destruct (GetOrNewSmartContract_spec a s Hia Hw) as (o & s1 & -> & Hj & Hw1 & Ho & Hd).
  destruct (Code_spec s1 o) as [Hc He]. destruct (Code o) as [prev o'] eqn:HC. cbn [fst snd] in *. subst prev.
  eapply journalled_trans; [exact Hj|]. eapply journalled_trans; [apply (journalled_cache a s1 o o'); done|].
  pose proof (oe_address _ _ _ He) as Ha. pose proof (ky_address s1 (wf_keyed s1 Hw1) _ _ Ho) as Hoa.
  set (s2 := setStateObject o' s1). assert (Hw2 : wf s2).
  { apply wf_put; [done|]. rewrite (objeq_CodeHash _ _ _ He). apply (object_code a s1 o); done. }
  assert (Ho2 : sd_stateObjects s2 !! a = Some o') by (unfold s2; fields; rewrite Ha, Hoa; apply lookup_insert_eq).
  assert (Hd2 : so_deleted o' = false) by (by rewrite (oe_deleted _ _ _ He)).
  rewrite <- (oe_code _ _ _ He).
  pose proof (setCode_step a s2 o' Hia Hw2 Ho2 Hd2 (keccak (default [] c)) c (keccak_len _)) as Hs.
  match type of Hs with journalled _ ?x => match goal with |- journalled _ ?y => replace y with x; [exact Hs|] end end.
  unfold s2. assert (Hsa : so_address (setCode (keccak (default [] c)) c o') = so_address o') by (unfold setCode; by destruct (isProgram _)).
  unfold setStateObject, journalAppend, setObjects, setJournal. cbn. by rewrite Hsa, insert_insert_eq.
Qed.

Lemma SetState_step a k v s : is_addr a -> wf s -> journalled s (SetState a k v s).
Proof using keccak_len keccak_addresses.
  intros Hia Hw. unfold SetState. destruct (GetOrNewSmartContract_spec a s Hia Hw) as (o & s1 & -> & Hj & Hw1 & Ho & Hd).
  destruct (objGetState_spec s1 o k) as [Hc He]. destruct (objGetState s1 o k) as [prev o'] eqn:HC. cbn [fst snd] in *. subst prev.
  eapply journalled_trans; [exact Hj|]. pose proof (journalled_cache a s1 o o' Hw1 Ho He) as Hjc.
  case_bool_decide; [done|]. eapply journalled_trans; [exact Hjc|].
  pose proof (oe_address _ _ _ He) as Ha. pose proof (ky_address s1 (wf_keyed s1 Hw1) _ _ Ho) as Hoa.
  set (s2 := setStateObject o' s1) in *. assert (Hw2 : wf s2) by (by destruct Hjc as [? []]).
  assert (Ho2 : sd_stateObjects s2 !! a = Some o') by (unfold s2; fields; rewrite Ha, Hoa; apply lookup_insert_eq).
  assert (Hd2 : so_deleted o' = false) by (by rewrite (oe_deleted _ _ _ He)).
  pose proof (setState_step a s2 o' Hia Hw2 Ho2 Hd2 k v) as Hs.
  assert (Hcur : current s2 o' k = current s1 o k).
  { rewrite <- (oe_current _ _ _ He). unfold current, committed, fresh. done. }
  rewrite Hcur in Hs.
  match type of Hs with journalled _ ?x => match goal with |- journalled _ ?y => replace y with x; [exact Hs|] end end.
  unfold s2, setStateObject, journalAppend, setObjects, setJournal. cbn. by rewrite insert_insert_eq.
Qed.

Lemma getter_step {A} a (f : StateDB -> stateObject -> A * stateObject) (d : A) s : wf s ->
  (forall s o, objeq s (f s o).2 o) ->
  journalled s (let '(o, s) := getStateObject a s in
                match o with Some o => let '(v, o) := f s o in (v, setStateObject o s) | None => (d, s) end).2.
Proof.
  intros Hw Hf. destruct (load_spec a s Hw) as (s1 & -> & Hj & Hw1 & _ & Hl).
  destruct (live (view s a)) as [o|] eqn:Hv; [|done]. apply live_inv in Hv as [Hv Hd]. rewrite Hv in Hl.
  specialize (Hf s1 o). destruct (f s1 o) as [v o']. eapply journalled_trans; [exact Hj|]. by apply (journalled_cache a s1 o o').
Qed.

(** The addresses of the objects a command changes. *)
Definition cmd_ok (c : cmd) : Prop :=
  match c with
  | CAddBalance a _ | CSubBalance a _ | CSetBalance a _ | CIncNonce a | CSetNonce a _ | CSetCode a _ | CSetState a _ _
  | CSelfDestruct a | CSelfDestruct6780 a | CCreateAccount a | CCreateEOA a _ _ | CCreateSmartContract a _ _ _ _ _ => is_addr a
  | _ => True
  end.

Lemma run_step c s s' : cmd_ok c -> wf s -> run c s = Ok s' -> journalled s s'.
Proof using keccak_len keccak_addresses.
  intros Hc Hw. destruct c; cbn [run cmd_ok] in *; intros H;
    first [apply (SubRefund_step _ _ _ Hw H) |
           destruct (AddSlotToAccessList_step a slot s Hw) as (s1 & H1 & ?); congruence | injection H as <-].
  - unfold AddBalance. destruct (GetOrNewStateObject_spec a s Hc Hw) as (o & s1 & -> & Hj & Hw1 & Ho & Hd).
    eapply journalled_trans; [exact Hj|]. case_tests; [by apply (touch_step a)|by apply journalled_refl|by apply (objSetBalance_step a)].
  - unfold SubBalance. destruct (GetOrNewStateObject_spec a s Hc Hw) as (o & s1 & -> & Hj & Hw1 & Ho & Hd).
    eapply journalled_trans; [exact Hj|]. case_tests; [by apply journalled_refl|by apply (objSetBalance_step a)].
  - unfold SetBalanceAt. destruct (GetOrNewStateObject_spec a s Hc Hw) as (o & s1 & -> & Hj & Hw1 & Ho & Hd).
    eapply journalled_trans; [exact Hj|]. by apply (objSetBalance_step a).
  - unfold IncNonce. destruct (GetOrNewStateObject_spec a s Hc Hw) as (o & s1 & -> & Hj & Hw1 & Ho & Hd).
    eapply journalled_trans; [exact Hj|]. by apply (objSetNonce_step a).
  - unfold SetNonceAt. destruct (GetOrNewStateObject_spec a s Hc Hw) as (o & s1 & -> & Hj & Hw1 & Ho & Hd).
    eapply journalled_trans; [exact Hj|]. by apply (objSetNonce_step a).
  - by apply SetCode_step.
  - by apply SetState_step.
  - by apply SelfDestruct_step.
  - unfold SelfDestruct6780. destruct (load_spec a s Hw) as (s1 & -> & Hj & Hw1 & _ & Hl).
    destruct (live (view s a)) as [o|]; [|done]. destruct (so_created o); [|done].
    eapply journalled_trans; [exact Hj|]. by apply SelfDestruct_step.
  - by apply SetTransientState_step.
  - by apply carryBalance_step.
  - by apply carryBalance_step.
  - apply carryBalance_step; [done..|]. by apply hash_ok_values.
  - by apply AddLog_step.
  - by apply AddPreimage_step.
  - by apply AddRefund_step.
  - by apply AddAddressToAccessList_step.
  - destruct (load_spec a s Hw) as (s1 & -> & Hj & _). done.
  - apply (getter_step a (fun _ => Code)); [done|]. intros s0 o. apply Code_spec.
  - apply (getter_step a (fun s o => objGetState s o key)); [done|]. intros s0 o. apply objGetState_spec.
  - apply (getter_step a (fun s o => objGetCommittedState s o key)); [done|]. intros s0 o. apply objGetCommittedState_spec.
Qed.

(** ** What is restored *)

(** Everything the getters of the state return. *)
Record same_reads (s t : StateDB) : Prop := {
  sr_exist : forall a, is_addr a -> (Exist a s).1 = (Exist a t).1;
  sr_empty : forall a, is_addr a -> (EmptyAt a s).1 = (EmptyAt a t).1;
  sr_balance : forall a, is_addr a -> (GetBalanceAt a s).1 = (GetBalanceAt a t).1;
  sr_nonce : forall a, is_addr a -> (GetNonceAt a s).1 = (GetNonceAt a t).1;
  sr_key : forall a, is_addr a -> (GetKeyAt a s).1 = (GetKeyAt a t).1;
  sr_codeHash : forall a, is_addr a -> (GetCodeHashAt a s).1 = (GetCodeHashAt a t).1;
  sr_code : forall a, is_addr a -> (GetCodeAt a s).1 = (GetCodeAt a t).1;
  sr_state : forall a, is_addr a -> forall k, (GetStateAt a k s).1 = (GetStateAt a k t).1;
  sr_committed : forall a, is_addr a -> forall k, (GetCommittedStateAt a k s).1 = (GetCommittedStateAt a k t).1;
  sr_selfDestructed : forall a, is_addr a -> (HasSelfDestructed a s).1 = (HasSelfDestructed a t).1;
  sr_transient : forall a k, GetTransientState a k s = GetTransientState a k t;
  sr_logs : forall h, GetLogs h s = GetLogs h t;
  sr_refund : sd_refund s = sd_refund t;
  sr_logSize : sd_logSize s = sd_logSize t;
  sr_preimages : sd_preimages s = sd_preimages t;
  sr_access : sd_accessList s = sd_accessList t;
  sr_destructs : sd_snapDestructs s = sd_snapDestructs t
}.

(** The object two equivalent states return for an address. *)
Lemma loads_alike s t a : is_addr a -> equiv s t -> keyed s -> keyed t -> exists s' t',
  getStateObject a s = (live (view s a), s') /\ getStateObject a t = (live (view t a), t') /\
  sd_snap s' = sd_snap s /\ sd_snapDestructs s' = sd_snapDestructs s /\ sd_snap t' = sd_snap s /\ sd_snapDestructs t' = sd_snapDestructs s /\
  option_Forall2 (objeq s) (live (view s a)) (live (view t a)).
Proof.
  intros Ha He Hs Ht. destruct (getStateObject_spec a s Hs) as (s' & Gs & Es & _). destruct (getStateObject_spec a t Ht) as (t' & Gt & Et & _).
  exists s', t'. split_and!; try done; try apply Es.
  - rewrite (eq_snap _ _ Et). symmetry. apply He.
  - rewrite (eq_destructs _ _ Et). symmetry. apply He.
  - destruct (eq_objects _ _ He a Ha) as [o o' Ho|]; [|constructor]. cbn. rewrite (oe_deleted _ _ _ Ho). destruct (so_deleted o'); by constructor.
Qed.

Lemma equiv_reads s t : equiv s t -> keyed s -> keyed t -> same_reads s t.
Proof.
  intros He Hs Ht. pose proof (eq_rest _ _ He) as Hr. unfold rest in Hr.
  split; try (by apply He); try congruence; intros a Ha;
    destruct (loads_alike s t a Ha He Hs Ht) as (s' & t' & Gs & Gt & N1 & N2 & N3 & N4 & Ho).
  - unfold Exist. rewrite Gs, Gt. by destruct Ho.
  - unfold EmptyAt, empty_. rewrite Gs, Gt. destruct Ho as [o o' Ho|]; [|done]. cbn. by rewrite (oe_account _ _ _ Ho).
  - unfold GetBalanceAt. rewrite Gs, Gt. destruct Ho as [o o' Ho|]; [|done]. cbn. by rewrite (oe_account _ _ _ Ho).
  - unfold GetNonceAt. rewrite Gs, Gt. destruct Ho as [o o' Ho|]; [|done]. cbn. by rewrite (oe_account _ _ _ Ho).
  - unfold GetKeyAt. rewrite Gs, Gt. destruct Ho as [o o' Ho|]; [|done]. cbn. by rewrite (oe_account _ _ _ Ho).
  - unfold GetCodeHashAt. rewrite Gs, Gt. destruct Ho as [o o' Ho|]; [|done]. cbn. by rewrite (objeq_CodeHash _ _ _ Ho).
  - unfold GetCodeAt. rewrite Gs, Gt. destruct Ho as [o o' Ho|]; [|done]. pose proof (Code_spec s o) as [C _].
    pose proof (Code_spec s o') as [C' _]. destruct (Code o), (Code o'). cbn in *. rewrite C, C'. apply Ho.
  - intros k. unfold GetStateAt. rewrite Gs, Gt. destruct Ho as [o o' Ho|]; [|done].
    pose proof (objGetState_spec s' o k) as [C _]. pose proof (objGetState_spec t' o' k) as [C' _].
    destruct (objGetState s' o k), (objGetState t' o' k). cbn in *. rewrite C, C'. unfold current.
    rewrite (committed_ctx s' s), (committed_ctx t' s) by (done || by rewrite ?N2, ?N4). apply (oe_current _ _ _ Ho).
  - intros k. unfold GetCommittedStateAt. rewrite Gs, Gt. destruct Ho as [o o' Ho|]; [|done].
    pose proof (objGetCommittedState_spec s' o k) as [C _]. pose proof (objGetCommittedState_spec t' o' k) as [C' _].
    destruct (objGetCommittedState s' o k), (objGetCommittedState t' o' k). cbn in *. rewrite C, C'.
    rewrite (committed_ctx s' s), (committed_ctx t' s) by (done || by rewrite ?N2, ?N4). apply (oe_committed _ _ _ Ho).
  - unfold HasSelfDestructed. rewrite Gs, Gt. destruct Ho as [o o' Ho|]; [|done]. cbn. apply Ho.
Qed.

(** ** Nested snapshots *)

(** The revisions of a journal with the states they were taken in: the entries after a
    revision undo what was done since. *)
Inductive chain : list (Z * nat) -> list StateDB -> list journalEntry -> StateDB -> Prop :=
| chain_nil l s : chain [] [] l s
| chain_snoc revs gs l es g s id : chain revs gs l g -> wf g -> counted g -> entries g = l -> undoes es g s ->
    chain (revs ++ [(id, length l)]) (gs ++ [g]) (l ++ es) s.

Lemma chain_more revs gs l s es s' : chain revs gs l s -> undoes es s s' -> chain revs gs (l ++ es) s'.
Proof.
  intros Hc Hu. destruct Hc as [l s|revs gs l es0 g s id Hc Hw Hn He Hu0]; [constructor|].
  rewrite <- app_assoc. constructor; try done. by eapply undoes_trans.
Qed.

Lemma chain_equiv revs gs l s s' : chain revs gs l s -> equiv s' s -> chain revs gs l s'.
Proof.
  intros Hc He. destruct Hc as [|revs gs l es g s id]; [constructor|]. constructor; try done. by eapply undoes_ext.
Qed.

Lemma chain_length revs gs l s : chain revs gs l s -> length revs = length gs.
Proof. induction 1; [done|]. rewrite !length_app. simpl. lia. Qed.

Lemma chain_bound revs gs l s : chain revs gs l s -> forall i id n, revs !! i = Some (id, n) -> (n <= length l)%nat.
Proof.
  induction 1 as [|revs gs l es g s id Hc IH Hw Hn He Hu]; intros i id' n Hi; [done|]. rewrite length_app.
  apply lookup_app_Some in Hi as [Hi|[_ Hi]]; [specialize (IH i id' n Hi); lia|].
  apply list_lookup_singleton_Some in Hi as [_ [= <- <-]]. lia.
Qed.

Lemma chain_lookup revs gs l s : chain revs gs l s -> forall i id n, revs !! i = Some (id, n) ->
  exists g es, gs !! i = Some g /\ l = take n l ++ es /\ entries g = take n l /\ undoes es g s /\ wf g /\ counted g /\
    chain (take i revs) (take i gs) (take n l) g.
Proof.
  induction 1 as [l s|revs gs l es g s id Hc IH Hw Hn He Hu]; intros i id' n Hi; [done|].
  pose proof (chain_length _ _ _ _ Hc) as Hlen.
  apply lookup_app_Some in Hi as [Hi|[Hge Hi]].
  - destruct (IH i id' n Hi) as (g' & es' & Hg & Hl & He' & Hu' & Hw' & Hn' & Hc'). pose proof (lookup_lt_Some _ _ _ Hi) as Hlt.
    pose proof (chain_bound _ _ _ _ Hc i id' n Hi) as Hlg.
    rewrite !take_app_le by (done || lia). exists g', (es' ++ es). split_and!; try done.
    + by apply lookup_app_l_Some.
    + by rewrite app_assoc, <- Hl.
    + by eapply undoes_trans.
  - apply list_lookup_singleton_Some in Hi as [Hi [= <- <-]]. replace i with (length revs) by lia.
    exists g, es. rewrite !take_app_length, Hlen, take_app_length. by rewrite list_lookup_middle.
Qed.

Lemma revertJournal_spec g es s n : undoes es g s -> keyed s -> entries s = take n (entries s) ++ es ->
  exists s', revertJournal n s = Ok s' /\ equiv s' g /\ keyed s' /\ entries s' = take n (entries s) /\
    dirties s' = foldl (fun d e => undirty e d) (dirties s) (reverse es) /\ revisions s' = revisions s.
Proof.
  intros Hu Hk He. destruct (Hu s (reflexivity s) Hk) as (t & Hr & Hg & Hkt & Hte & Htd & Htr).
  assert (Hd : drop n (entries s) = es).
  { rewrite <- (take_drop n (entries s)) in He at 1. by apply app_inv_head in He. }
  unfold revertJournal. fold (entries s). rewrite Hd, Hr. cbn [mbind res_bind mret res_ret]. eexists. split; [done|]. split_and!; try done.
  - etransitivity; [apply equiv_journal|done].
  - eapply keyed_same; [| |exact Hkt]; done.
  - unfold entries at 1. fields. cbn [j_entries]. fold (entries t). by rewrite Hte.
Qed.

(** ** Runs with snapshots *)

Inductive action := Do (c : cmd) | TakeSnapshot | RevertTo (id : Z).

(** A run that remembers the state under every snapshot. *)
Definition act (x : action) (s : StateDB) (G : gmap Z StateDB) : go (StateDB * gmap Z StateDB) :=
  match x with
  | Do c => s ← run c s; mret (s, G)
  | TakeSnapshot => let '(id, s') := Snapshot s in mret (s', <[id := s]> G)
  | RevertTo id => s ← RevertToSnapshot id s; mret (s, G)
  end.
Fixpoint exec (l : list action) (s : StateDB) (G : gmap Z StateDB) : go (StateDB * gmap Z StateDB) :=
  match l with
  | [] => mret (s, G)
  | x :: l => r ← act x s G; exec l r.1 r.2
  end.

Record inv (s : StateDB) (G : gmap Z StateDB) : Prop := {
  iv_wf : wf s;
  iv_counted : counted s;
  iv_chain : exists gs, chain (sd_validRevisions s) gs (entries s) s /\
               Forall2 (fun r g => G !! r.1 = Some g) (sd_validRevisions s) gs;
  iv_sorted : StronglySorted Z.lt (sd_validRevisions s).*1;
  iv_next : Forall (fun r => r.1 < sd_nextRevisionId s) (sd_validRevisions s)
}.

Lemma searchRevision_spec id l : forall i, exists j, searchRevision i id l = (i + j)%nat /\
  (forall k r, (k < j)%nat -> l !! k = Some r -> r.1 < id) /\ (forall r, l !! j = Some r -> id <= r.1).
Proof.
  induction l as [|r l IH]; intros i; cbn [searchRevision].
  - exists 0%nat. split; [lia|]. by split; [lia|].
  - destruct (id <=? r.1) eqn:E; bool_to_prop.
    + exists 0%nat. split; [lia|]. split; [lia|]. by intros r' [= <-].
    + destruct (IH (S i)) as (j & -> & H1 & H2). exists (S j). split; [lia|]. split; [|done].
      intros [|k] r' Hk Hr; simplify_eq/=; [done|]. apply (H1 k); [lia|done].
Qed.

Lemma StronglySorted_lookup {A} (R : A -> A -> Prop) l i j x y : StronglySorted R l -> (i < j)%nat ->
  l !! i = Some x -> l !! j = Some y -> R x y.
Proof.
  intros Hs. revert i j. induction Hs as [|z l Hs IH Hz]; intros i j Hij Hi Hj; [done|]. destruct j as [|j]; [lia|]. cbn in Hj.
  destruct i as [|i]; simplify_eq/=; [apply (Forall_lookup_1 _ _ _ _ Hz Hj)|]. apply (IH i j); [lia|done..].
Qed.

Lemma searchRevision_found id l : StronglySorted Z.lt l.*1 -> id ∈ l.*1 -> exists n, l !! searchRevision 0 id l = Some (id, n).
Proof.
  intros Hs Hin. destruct (searchRevision_spec id l 0) as (j & -> & H1 & H2). cbn [Nat.add].
  apply list_elem_of_lookup in Hin as [i Hi]. rewrite list_lookup_fmap in Hi. destruct (l !! i) as [[id' n]|] eqn:Hli; [|done].
  cbn in Hi. injection Hi as ->. assert (j <= i)%nat.
  { destruct (decide (j <= i)%nat); [done|]. specialize (H1 i (id, n)). cbn in H1. assert (id < id) by (apply H1; [lia|done]). lia. }
  destruct (decide (j = i)) as [->|Hne]; [by eexists|].
  destruct (lookup_lt_is_Some_2 l j) as [[idj nj] Hj]; [apply lookup_lt_Some in Hli; lia|]. specialize (H2 _ Hj). cbn in H2.
  assert (idj < id); [|lia].
  apply (StronglySorted_lookup Z.lt l.*1 j i); [done|lia|by rewrite list_lookup_fmap, Hj|by rewrite list_lookup_fmap, Hli].
Qed.

Lemma StronglySorted_take {A} (R : A -> A -> Prop) n l : StronglySorted R l -> StronglySorted R (take n l).
Proof.
  intros Hs. revert n. induction Hs as [|x l Hs IH Hx]; intros [|n]; try constructor; [apply IH|]. by apply Forall_take.
Qed.

(** Going back to a revision of a run. *)
Lemma RevertToSnapshot_spec id s G : inv s G -> id ∈ (sd_validRevisions s).*1 -> exists s' g,
  RevertToSnapshot id s = Ok s' /\ G !! id = Some g /\ equiv s' g /\ keyed g /\ keyed s' /\ entries s' = entries g /\
  (forall a, a <> ripemd -> dirties s' !! a = dirties g !! a) /\ inv s' G.
Proof.
  intros [Hw Hc (gs & Hch & HG) Hs Hn] Hin. destruct (searchRevision_found id _ Hs Hin) as [n Hi].
  destruct (chain_lookup _ _ _ _ Hch _ _ _ Hi) as (g & es & Hg & Hl & He & Hu & Hwg & Hcg & Hch').
  destruct (revertJournal_spec g es s n Hu (wf_keyed s Hw) Hl) as (s1 & Hr & Heq & Hk & Hes & Hds & Hrs).
  set (idx := searchRevision 0 id (sd_validRevisions s)) in *.
  unfold revisions in Hrs. injection Hrs as Hv Hx.
  exists (setRevisions (take idx (sd_validRevisions s)) (sd_nextRevisionId s) s1), g.
  assert (Hd : forall a, a <> ripemd -> dirties s1 !! a = dirties g !! a).
  { intros a Ha. rewrite Hds. rewrite (counted_revert g es s Hc) by (try done; by rewrite He). symmetry. by apply Hcg. }
  assert (Heq' : equiv (setRevisions (take idx (sd_validRevisions s)) (sd_nextRevisionId s) s1) g) by (etransitivity; [apply equiv_revisions|done]).
  assert (Hkr : keyed (setRevisions (take idx (sd_validRevisions s)) (sd_nextRevisionId s) s1)) by (eapply keyed_same; [| |exact Hk]; done).
  split_and!; try done.
  - unfold RevertToSnapshot. fold idx. rewrite Hi. cbn [fst snd]. rewrite Z.eqb_refl. cbn [negb]. rewrite Hr. cbn [mbind res_bind mret res_ret].
    by rewrite Hv, Hx.
  - destruct (Forall2_lookup_l _ _ _ _ _ HG Hi) as (g' & Hg' & HGi). cbn in HGi. congruence.
  - apply Hwg.
  - unfold entries in *. fields. congruence.
  - split; fields.
    + by eapply wf_equiv.
    + intros a Ha. unfold dirties, entries in *. fields. rewrite (Hd a Ha), Hes, <- He. by apply Hcg.
    + exists (take idx gs). split; [|by apply Forall2_take]. unfold entries. fields. fold (entries s1). rewrite Hes. by eapply chain_equiv.
    + rewrite fmap_take. by apply StronglySorted_take.
    + by apply Forall_take.
Qed.

Definition action_ok (x : action) : Prop := match x with Do c => cmd_ok c | _ => True end.

Lemma act_inv x s G s' G' : action_ok x -> inv s G -> act x s G = Ok (s', G') -> inv s' G'.
Proof using keccak_len keccak_addresses.
  intros Hok Hi. destruct x as [c| |id]; cbn [act action_ok] in *.
  - intros (s1 & Hr & Hm)%bind_ok. injection Hm as <- <-. destruct Hi as [Hw Hc (gs & Hch & HG) Hs Hn].
    destruct (run_step c s s1 Hok Hw Hr) as [es [U W E C R]]. unfold revisions in R. injection R as R1 R2.
    split; rewrite ?R1, ?R2; try done; [by apply C|]. exists gs. split; [|done]. rewrite E. by eapply chain_more.
  - destruct Hi as [Hw Hc (gs & Hch & HG) Hs Hn]. unfold Snapshot. intros Hm. injection Hm as <- <-.
    assert (Hlt : Forall (fun r => r.1 <> sd_nextRevisionId s) (sd_validRevisions s)) by (eapply Forall_impl; [exact Hn|]; intros r ?; simpl in *; lia).
    split; fields; try done.
    + eapply wf_equiv; [apply equiv_revisions| |done]. eapply keyed_same; [| |apply Hw]; done.
    + exists (gs ++ [s]). split.
      * rewrite <- (app_nil_r (entries _)). apply chain_snoc; try done. apply undoes_equiv. apply equiv_revisions.
      * apply Forall2_app; [|repeat constructor; by rewrite lookup_insert_eq]. apply Forall2_same_length_lookup in HG as [HL HG].
        apply Forall2_same_length_lookup. split; [done|]. intros i r g Hr Hg. rewrite lookup_insert_ne; [by eapply HG|].
        apply not_eq_sym. apply (Forall_lookup_1 _ _ _ _ Hlt Hr).
    + rewrite fmap_app. apply StronglySorted_app_2; [|done|repeat constructor]. intros x1 x2 Hx1 Hx2. cbn in Hx2. apply list_elem_of_singleton in Hx2 as ->.
      apply list_elem_of_fmap in Hx1 as (r & -> & Hr). apply (proj1 (Forall_forall _ _) Hn r Hr).
    + apply Forall_app. split; [|repeat constructor; simpl; lia]. eapply Forall_impl; [exact Hn|]. intros r ?. simpl in *. lia.
  - intros (s1 & Hr & Hm)%bind_ok. injection Hm as <- <-.
    destruct (decide (id ∈ (sd_validRevisions s).*1)) as [Hin|Hin].
    + destruct (RevertToSnapshot_spec id s G Hi Hin) as (s2 & g & H2 & _ & _ & _ & _ & _ & _ & Hinv). congruence.
    + exfalso. unfold RevertToSnapshot in Hr. destruct (_ !! _) as [r|] eqn:Hlk; [|done].
      destruct (Z.eqb_spec r.1 id) as [<-|]; [|done]. apply Hin, list_elem_of_fmap. exists r. split; [done|].
      by eapply list_elem_of_lookup_2.
Qed.

(** A state between transactions: nothing is journalled. *)
Record settled (s : StateDB) : Prop := {
  se_wf : wf s;
  se_journal : sd_journal s = newJournal;
  se_revisions : sd_validRevisions s = []
}.

Lemma settled_inv s G : settled s -> inv s G.
Proof.
  intros [Hw Hj Hr]. split; rewrite ?Hr; try done; try constructor.
  - intros a Ha. unfold dirties, entries. rewrite Hj. done.
  - exists []. split; [constructor|done].
Qed.

Lemma exec_inv l : Forall action_ok l -> forall s G s' G', inv s G -> exec l s G = Ok (s', G') -> inv s' G'.
Proof using keccak_len keccak_addresses.
  induction 1 as [|x l Hx _ IH]; intros s G s' G' Hi; cbn [exec].
  - intros Hm. injection Hm as <- <-. done.
  - intros ([s1 G1] & Ha & He)%bind_ok. eapply IH; [|exact He]. by eapply act_inv.
Qed.

End revert.

(** ** Witnesses *)


(** A hash without collisions on addresses, no contracts, and empty storage. *)
Definition demo_keccak (b : bytes) : Hash := take 32 (b ++ replicate 32 0).
#[local] Instance demo_env : StateEnv := {|
  keccak := demo_keccak;
  contractCode := fun _ => None;
  openStorageTrie := fun _ => None;
  hashExt := fun m => [Z.of_nat (size m)];
  compressPubkey := fun _ => Ok []
|}.

Lemma demo_keccak_len b : length (demo_keccak b) = 32%nat.
Proof. unfold demo_keccak. rewrite length_take, length_app, length_replicate. lia. Qed.

Lemma demo_distinct : addresses_distinct.
Proof.
  intros a b Ha Hb. cbn. unfold demo_keccak, is_addr in *. rewrite !take_app_ge by lia. rewrite Ha, Hb. apply app_inv_tail.
Qed.

(** A database of accounts with proper code hashes, without a snapshot. *)
Lemma wf_New `{!StateEnv} trie : (forall b, length (keccak b) = 32%nat) -> map_Forall (fun _ acc => hash_ok acc) trie -> settled (New trie None).
Proof.
  intros Hk Ht. split; try done. split; cbn.
  - split; [done|]. intros a. cbn. set_solver.
  - intros a o _. unfold view. cbn. rewrite lookup_empty. unfold readAccount. cbn. destruct (trie !! a) as [acc|] eqn:Ha; [|done].
    intros [= <-]. unfold CodeHash. objfields. specialize (Ht a acc Ha). destruct acc; [apply Hk|done].
  - intros a i. cbn. by rewrite lookup_empty.
  - unfold is_u64. lia.
Qed.

Definition demo_alice : Address := replicate 20 1.
Definition demo_bob : Address := replicate 20 2.
Definition demo_state : StateDB := New {[ demo_alice := ExternallyOwnedAccount (mkCommon 7 100 false AccountKeyLegacy) ]} None.
Definition demo_actions : list action :=
  [Do (CSubBalance demo_alice 30); Do (CAddBalance demo_bob 30); TakeSnapshot; Do (CSetState demo_bob [1] [2]);
   Do (CAddSlot demo_bob [1]); TakeSnapshot; Do (CCreateSmartContract demo_bob false AccountKeyFail 0 true true);
   Do (CSetCode demo_bob (Some [96])); RevertTo 1; Do (CSelfDestruct demo_alice)].
Definition demo_run : StateDB * gmap Z StateDB :=
  match exec demo_actions demo_state ∅ with Ok r => r | _ => (demo_state, ∅) end.

Lemma demo_settled : settled demo_state.
Proof. apply wf_New; [apply demo_keccak_len|]. intros a acc Ha. apply lookup_singleton_Some in Ha as [_ <-]. exact I. Qed.


(** The balances before and after the revert of the witness. *)
Example demo_balances :
  match RevertToSnapshot 0 demo_run.1 with
  | Ok s' => (GetBalanceAt demo_alice demo_run.1).1 = 0 /\ (GetBalanceAt demo_alice s').1 = 70 /\ (GetBalanceAt demo_bob s').1 = 30
  | _ => False
  end.
Proof. vm_compute. done. Qed.

Lemma GetKeyAt_core {env : StateEnv} a s t : core s = core t -> (GetKeyAt a s).1 = (GetKeyAt a t).1.
Proof.
  unfold core. intros [= H1 H2 _ H4]. unfold GetKeyAt, getStateObject, getDeletedStateObject. rewrite H4.
  destruct (sd_stateObjects t !! a); [done|]. rewrite (readAccount_same s t a H1 H2). by destruct (readAccount t a).
Qed.

(** A new account key survives a revert: [UpdateKey] changes the account without a journal
    entry, and going back to a snapshot taken before it keeps the key. *)
Theorem key_update_not_reverted {env : StateEnv} a newKey s id s1 s2 s3 :
  settled s -> Snapshot s = (id, s1) -> UpdateKeyAt a newKey s1 = (Ok tt, s2) -> RevertToSnapshot id s2 = Ok s3 ->
  (GetKeyAt a s3).1 = (GetKeyAt a s2).1.
Proof.
  intros [Hw Hj Hv] Hs Hu Hr. unfold Snapshot in Hs. injection Hs as <- <-. rewrite Hj, Hv in Hu. cbn [app newJournal j_entries length] in Hu.
  set (s1 := setRevisions [(sd_nextRevisionId s, 0%nat)] (sd_nextRevisionId s + 1) s) in *.
  assert (Hk1 : keyed s1) by (eapply keyed_same; [| |apply Hw]; done).
  assert (Hm : meta s2 = meta s1).
  { unfold UpdateKeyAt in Hu. destruct (getStateObject_spec a s1 Hk1) as (s' & Hg & _ & _ & Hm & _). rewrite Hg in Hu.
    destruct (live _) as [o|]; [|done]. destruct (updateKey _ _ _); [|done..]. injection Hu as <-. exact Hm. }
  unfold meta in Hm. injection Hm as Hj2 Hv2 Hn2. unfold RevertToSnapshot in Hr. rewrite Hv2 in Hr.
  unfold s1 in Hr. cbn [searchRevision sd_validRevisions setRevisions fst] in Hr. rewrite Z.leb_refl in Hr. cbn [lookup list_lookup fst snd] in Hr.
  rewrite Z.eqb_refl in Hr. cbn [negb] in Hr. unfold revertJournal in Hr. rewrite Hj2 in Hr. unfold s1 in Hr. cbn [sd_journal setRevisions] in Hr.
  rewrite Hj in Hr. cbn in Hr. injection Hr as <-. by apply GetKeyAt_core.
Qed.

Lemma key_update_not_reverted_witness :
  exists id s1 s2 s3, Snapshot demo_state = (id, s1) /\ UpdateKeyAt demo_alice AccountKeyFail s1 = (Ok tt, s2) /\
    RevertToSnapshot id s2 = Ok s3 /\ (GetKeyAt demo_alice s3).1 = (GetKeyAt demo_alice s2).1 /\
    (GetKeyAt demo_alice s3).1 = AccountKeyFail /\ (GetKeyAt demo_alice demo_state).1 = AccountKeyLegacy.
Proof.
  do 4 eexists. split; [reflexivity|]. split; [vm_compute; reflexivity|]. split; [vm_compute; reflexivity|]. split.
  - eapply (key_update_not_reverted (env:=demo_env) demo_alice AccountKeyFail demo_state).
    + apply demo_settled.
    + reflexivity.
    + vm_compute. reflexivity.
    + vm_compute. reflexivity.
  - split; vm_compute; reflexivity.
Defined.
End Revert.
