(* ===== verification/StateFinalise.v ===== *)
(** * Finalising and committing the state

    What is written at the end of a transaction and of a block: the storage of the contracts
    that changed goes to their storage tries, the accounts that changed go to the account trie,
    the accounts that were destroyed leave it, and what can be read from the trie afterwards is
    what could be read from the state before. *)

From S2P Require Import Prelude Rlp AccountKey StateDB StateRevert.

Module Finalised.
Import RLP AccountKey Account State Revert.

(** ** Storage slots *)

Definition is_hash (v : Hash) : Prop := length v = 32%nat /\ is_bytes v.

Lemma trimLeft_zeros b : exists n, b = replicate n 0 ++ trimLeft b.
Proof.
  induction b as [|x b [n IH]]; [by exists 0%nat|]. cbn [trimLeft]. destruct (Z.eqb_spec x 0) as [->|].
  - exists (S n). cbn. by rewrite <- IH.
  - by exists 0%nat.
Qed.

Lemma trimLeft_nil b : trimLeft b = [] -> exists n, b = replicate n 0.
Proof. intros E. destruct (trimLeft_zeros b) as [n Hn]. exists n. by rewrite Hn, E, app_nil_r at 1. Qed.

Lemma BytesToHash_trimLeft v : length v = 32%nat -> BytesToHash (trimLeft v) = v.
Proof.
  intros Hv. destruct (trimLeft_zeros v) as [n Hn]. assert (n + length (trimLeft v) = 32)%nat as Hl.
  { rewrite Hn, length_app, length_replicate in Hv. done. }
  unfold BytesToHash. replace (length (trimLeft v) - 32)%nat with 0%nat by lia. rewrite drop_0.
  replace (32 - length (trimLeft v))%nat with n by lia. done.
Qed.

(** A slot that was written reads back. *)
Lemma decodeSlot_encoded v : is_hash v -> decodeSlot (Some (enc_string (trimLeft v))) = v.
Proof.
  intros [Hl Hb]. destruct (trimLeft_zeros v) as [n Hn]. pose proof (Split_enc_string (trimLeft v) []) as HS.
  rewrite !app_nil_r in HS. unfold decodeSlot. destruct (enc_string (trimLeft v)) as [|x e] eqn:He.
  - by destruct (enc_nonempty (Str (trimLeft v))).
  - rewrite HS; [by apply BytesToHash_trimLeft| |].
    + unfold is_bytes in *. rewrite Hn in Hb. by apply Forall_app in Hb as [_ Hb].
    + assert (length (trimLeft v) <= 32)%nat by (rewrite Hn, length_app in Hl; lia). unfold len. lia.
Qed.

Section finalise.
Context {env : StateEnv}.

(** ** The storage of one object *)

(** The caches of an object agree with its storage trie: a slot is read before it is changed,
    and a changed slot holds a hash. *)
Record storage_ok (o : stateObject) : Prop := {
  so_origin : forall k v, so_originStorage o !! k = Some v -> decodeSlot (openedTrie o !! k) = v;
  so_cached : forall k v, so_dirtyStorage o !! k = Some v -> is_Some (so_originStorage o !! k) /\ is_hash v
}.

(** The value of a slot: the change, or what the trie has. *)
Definition slot (o : stateObject) (k : Hash) : Hash := default (decodeSlot (openedTrie o !! k)) (so_dirtyStorage o !! k).

Lemma current_slot s o k : sd_snap s = None -> storage_ok o -> current s o k = slot o k.
Proof.
  intros Hs [Ho _]. unfold current, committed, slot, fresh. rewrite Hs. destruct (so_dirtyStorage o !! k); [done|]. cbn.
  destruct (so_originStorage o !! k) as [v|] eqn:E; [|done]. symmetry. by apply Ho.
Qed.

Lemma committed_slot s o k : sd_snap s = None -> storage_ok o -> committed s o k = decodeSlot (openedTrie o !! k).
Proof.
  intros Hs [Ho _]. unfold committed, fresh. rewrite Hs. destruct (so_originStorage o !! k) as [v|] eqn:E; [|done].
  symmetry. by apply Ho.
Qed.

(** What the loop over the dirty slots leaves. *)
Lemma flushSlots_spec l : NoDup l.*1 -> forall tr origin out,
  (forall k v, origin !! k = Some v -> decodeSlot (tr !! k) = v) ->
  (forall k v, (k, v) ∈ l -> is_Some (origin !! k) /\ is_hash v) ->
  exists tr' origin' out', flushSlots l tr origin out = (tr', origin', out') /\
    (forall k v, origin' !! k = Some v -> decodeSlot (tr' !! k) = v) /\
    (forall k v, (k, v) ∈ l -> decodeSlot (tr' !! k) = v) /\
    (forall k, k ∉ l.*1 -> tr' !! k = tr !! k).
Proof.
  induction l as [|[k v] l IH]; intros Hnd tr origin out Ho Hl.
  { exists tr, origin, out. split_and!; try done. intros k v Hk. by apply elem_of_nil in Hk. }
  apply NoDup_cons in Hnd as [Hk Hnd]. cbn [flushSlots]. destruct (Hl k v (list_elem_of_here _ _)) as [[w Hw] Hv].
  assert (exists tr1 origin1 out1, flushSlot k v tr origin out = (tr1, origin1, out1) /\ decodeSlot (tr1 !! k) = v /\
    (forall k' v', origin1 !! k' = Some v' -> decodeSlot (tr1 !! k') = v') /\ (forall k', k' <> k -> tr1 !! k' = tr !! k') /\
    (forall k', is_Some (origin !! k') -> is_Some (origin1 !! k'))) as (tr1 & origin1 & out1 & -> & Hk1 & Ho1 & Ht1 & Hc1).
  { unfold flushSlot. rewrite Hw. cbn [default from_option id]. case_bool_decide as E.
    { subst w. exists tr, origin, out. split_and!; try done. by apply Ho. }
    case_bool_decide as Ez; do 3 eexists; (split; [reflexivity|]).
    - rewrite lookup_delete_eq. split; [by rewrite Ez|]. split_and!.
      + intros k' v'. destruct (decide (k' = k)) as [->|]; [rewrite lookup_insert_eq, lookup_delete_eq|rewrite lookup_insert_ne, lookup_delete_ne by done]; [intros [= <-]; by rewrite Ez|apply Ho].
      + intros k' ?. by rewrite lookup_delete_ne.
      + intros k'. destruct (decide (k' = k)) as [->|]; [by rewrite lookup_insert_eq|by rewrite lookup_insert_ne].
    - rewrite lookup_insert_eq. split; [by apply decodeSlot_encoded|]. split_and!.
      + intros k' v'. destruct (decide (k' = k)) as [->|]; [rewrite !lookup_insert_eq|rewrite !lookup_insert_ne by done]; [intros [= <-]; by apply decodeSlot_encoded|apply Ho].
      + intros k' ?. by rewrite lookup_insert_ne.
      + intros k'. destruct (decide (k' = k)) as [->|]; [by rewrite lookup_insert_eq|by rewrite lookup_insert_ne]. }
  destruct (IH Hnd tr1 origin1 out1 Ho1) as (tr2 & origin2 & out2 & -> & Ho2 & Hl2 & Ht2).
  { intros k' v' Hin. destruct (Hl k' v') as [Hs Hh]; [by apply list_elem_of_further|]. split; [by apply Hc1|done]. }
  do 3 eexists. split; [reflexivity|]. split_and!; [done| |].
  - intros k' v' [[= -> ->]|Hin]%elem_of_cons; [|by apply Hl2]. by rewrite Ht2.
  - intros k' [Hne Hn]%not_elem_of_cons. by rewrite Ht2, Ht1.
Qed.

(** The object with its storage written to its trie. *)
Definition flushed (o : stateObject) : stateObject := (updateStorageTrie o (New ∅ None)).1.

Lemma flushed_any o s : sd_snap s = None -> updateStorageTrie o s = (flushed o, s).
Proof.
  intros Hs. unfold flushed, updateStorageTrie, getStorageTrie. objfields. rewrite Hs. cbn [sd_snapStorage New].
  generalize (default ∅ (sd_snapStorage s !! addrHash (withTrie (openedTrie o) o))) as out1.
  generalize (default ∅ ((∅ : gmap Hash (gmap Hash bytes)) !! addrHash (withTrie (openedTrie o) o))) as out2.
  assert (forall l tr origin out1 out2, (flushSlots l tr origin out1).1 = (flushSlots l tr origin out2).1) as Hout.
  { induction l as [|[k v] l IH]; intros tr origin o1 o2; [done|]. cbn [flushSlots]. unfold flushSlot.
    repeat case_bool_decide; apply IH. }
  intros o2 o1. specialize (Hout (map_to_list (so_dirtyStorage o)) (openedTrie o) (so_originStorage o) o1 o2).
  destruct (flushSlots _ _ _ o1) as [[tr1 or1] ?], (flushSlots _ _ _ o2) as [[tr2 or2] ?]. cbn in Hout. injection Hout as -> ->.
  by rewrite bool_decide_eq_false_2 by (by intros [? ?]).
Qed.

Lemma flushed_spec o : storage_ok o ->
  exists tr origin, flushed o = withTrie tr (withOrigin origin (withDirty ∅ o)) /\
    (forall k v, origin !! k = Some v -> decodeSlot (tr !! k) = v) /\ (forall k, decodeSlot (tr !! k) = slot o k).
Proof.
  intros [Ho Hc]. unfold flushed, updateStorageTrie, getStorageTrie. objfields.
  destruct (flushSlots_spec (map_to_list (so_dirtyStorage o)) (NoDup_fst_map_to_list _) (openedTrie o) (so_originStorage o)
    (default ∅ (sd_snapStorage (New ∅ None) !! addrHash (withTrie (openedTrie o) o)))) as (tr & origin & out & -> & H1 & H2 & H3); [done| |].
  { intros k v Hin%elem_of_map_to_list. by apply Hc. }
  exists tr, origin. split_and!; try done. intros k. unfold slot. destruct (so_dirtyStorage o !! k) as [v|] eqn:E; cbn.
  - apply H2. by apply elem_of_map_to_list.
  - rewrite H3; [done|]. intros ([k' v] & -> & Hin)%list_elem_of_fmap. apply elem_of_map_to_list in Hin. cbn in *. congruence.
Qed.

(** ** The outcome of one object *)

Definition withRoot (o : stateObject) : stateObject :=
  if isProgram (so_account o) then withAccount (SetStorageRoot (so_account o) (hashExt (openedTrie o))) o else o.
Definition doomed (d : bool) (o : stateObject) : bool := so_selfDestructed o || (d && empty_ o).
Definition outcome (d now : bool) (o : stateObject) : stateObject :=
  let o := if doomed d o then withFlags (so_selfDestructed o) true (so_created o) o
           else if now then withRoot (flushed o) else flushed o in
  withFlags (so_selfDestructed o) (so_deleted o) false o.
Definition entry (o : stateObject) : option Account := if so_deleted o then None else Some (so_account o).
Definition marks (s : StateDB) : gset Address := default ∅ (sd_stateObjectsDirtyStorage s).

(** The parts of a state that finalising an object leaves alone. *)
Definition others (s : StateDB) :=
  (sd_snap s, sd_snapDestructs s, sd_snapAccounts s, sd_snapStorage s, sd_refund s, (sd_thash s, sd_bhash s, sd_txIndex s),
   (sd_logs s, sd_logSize s, sd_preimages s, sd_accessList s, sd_transientStorage s), (sd_journal s, sd_validRevisions s, sd_nextRevisionId s)).

Lemma flushed_frame o : so_address (flushed o) = so_address o /\ so_account (flushed o) = so_account o /\
  so_selfDestructed (flushed o) = so_selfDestructed o /\ so_deleted (flushed o) = so_deleted o /\
  so_storageTrie (flushed o) = Some (openedTrie (flushed o)) /\ so_code (flushed o) = so_code o /\ so_dirtyCode (flushed o) = so_dirtyCode o /\
  so_dirtyStorage (flushed o) = ∅.
Proof.
  unfold flushed, updateStorageTrie, getStorageTrie. destruct (flushSlots _ _ _ _) as [[tr origin] out]. cbn [fst]. by split_and!.
Qed.

Lemma withRoot_frame o : so_address (withRoot o) = so_address o /\ so_selfDestructed (withRoot o) = so_selfDestructed o /\
  so_deleted (withRoot o) = so_deleted o /\ so_storageTrie (withRoot o) = so_storageTrie o /\ so_code (withRoot o) = so_code o /\
  so_originStorage (withRoot o) = so_originStorage o /\ so_dirtyStorage (withRoot o) = so_dirtyStorage o /\
  isProgram (so_account (withRoot o)) = isProgram (so_account o).
Proof. unfold withRoot. destruct (so_account o) eqn:E; cbn; by rewrite ?E. Qed.

Lemma updateStorageRoot_spec o tr : so_storageTrie o = Some tr -> updateStorageRoot o = Ok (withRoot o).
Proof.
  intros Ht. unfold updateStorageRoot, withRoot, openedTrie. rewrite Ht. by destruct (isProgram _).
Qed.

(** ** The loop over the changed addresses *)

Definition to_mark (d now : bool) (o : stateObject) : Prop :=
  now = false /\ doomed d o = false /\ isProgram (so_account o) = true.

(** [s'] is [s] with the objects at the addresses of [l] finalised. *)
Record finalised_by (d now : bool) (l : list Address) (s s' : StateDB) : Prop := {
  fb_in : forall a o, a ∈ l -> sd_stateObjects s !! a = Some o ->
    sd_stateObjects s' !! a = Some (outcome d now o) /\ sd_trie s' !! a = entry (outcome d now o) /\ a ∈ sd_stateObjectsDirty s' /\
    (a ∈ marks s' <-> a ∈ marks s \/ to_mark d now o);
  fb_out : forall a, a ∉ l \/ sd_stateObjects s !! a = None ->
    sd_stateObjects s' !! a = sd_stateObjects s !! a /\ sd_trie s' !! a = sd_trie s !! a /\
    (a ∈ sd_stateObjectsDirty s' <-> a ∈ sd_stateObjectsDirty s) /\ (a ∈ marks s' <-> a ∈ marks s);
  fb_map : is_Some (sd_stateObjectsDirtyStorage s');
  fb_others : others s' = others s
}.

Lemma outcome_account d now o : doomed d o = false -> so_deleted o = false ->
  entry (outcome d now o) = Some (so_account (outcome d now o)).
Proof.
  intros Hd Hn. unfold entry, outcome. rewrite Hd. destruct (flushed_frame o) as (_ & _ & _ & Hf & _).
  destruct (withRoot_frame (flushed o)) as (_ & _ & Hr & _). destruct now; objfields; by rewrite ?Hr, Hf, Hn.
Qed.

Lemma finalised_put d now a s o m o' m' t' : sd_stateObjects s !! a = Some o -> sd_stateObjectsDirtyStorage s = Some m ->
  outcome d now o = o' -> so_address o' = a -> t' !! a = entry o' -> (forall b, b <> a -> t' !! b = sd_trie s !! b) ->
  (forall b, b <> a -> b ∈ m' <-> b ∈ m) -> (a ∈ m' <-> a ∈ m \/ to_mark d now o) ->
  finalised_by d now [a] s (setDirty ({[a]} ∪ sd_stateObjectsDirty s) (setStateObject o' (setTrie t' (setDirtyStorage (Some m') s)))).
Proof.
  intros Ho Hm Hout Ha' Ht Ht' Hm' Hma. split; try done.
  - intros b o1 ->%list_elem_of_singleton. rewrite Ho. intros [= <-]. unfold marks. fields. rewrite Ha', lookup_insert_eq, Hout, Hm. cbn.
    split_and!; try done. set_solver.
  - intros b Hb. assert (b <> a) as Hne. { intros ->. destruct Hb as [Hb|Hb]; [by apply Hb, list_elem_of_singleton|congruence]. }
    unfold marks. fields. rewrite Ha', lookup_insert_ne, Hm by done. cbn. split_and!; auto. set_solver.
Qed.

(** One object. *)
Lemma finalise_object d now a s o : sd_snap s = None -> is_Some (sd_stateObjectsDirtyStorage s) -> sd_stateObjects s !! a = Some o ->
  so_address o = a -> so_deleted o = false -> exists s', finaliseAddr d now a s = Ok s' /\ finalised_by d now [a] s s'.
Proof.
  intros Hs [m Hm] Ho Ha Hn. unfold finaliseAddr. rewrite Ho. fold (doomed d o).
  destruct (doomed d o) eqn:Hd.
  - unfold deleteStateObject. cbn [mbind res_bind mret res_ret]. fields. rewrite Hs.
    rewrite bool_decide_eq_false_2 by (by intros [? ?]). eexists. split; [reflexivity|]. objfields. fields.
    pose proof (finalised_put d now a s o m (withFlags (so_selfDestructed o) true false o) m (delete a (sd_trie s))) as H.
    replace (setDirtyStorage (Some m) s) with s in H by (rewrite <- Hm; by destruct s). rewrite Ha. apply H; try done.
    + unfold outcome. by rewrite Hd.
    + unfold entry. objfields. apply lookup_delete_eq.
    + intros b ?. by rewrite lookup_delete_ne.
    + unfold to_mark. rewrite Hd. naive_solver.
  - destruct (flushed_frame o) as (Fa & Fc & Fs & Fd & Ft & _). rewrite (flushed_any o s Hs). cbn [mbind res_bind mret res_ret].
    pose proof (outcome_account d now o Hd Hn) as He. unfold outcome in He. rewrite Hd in He.
    destruct (withRoot_frame (flushed o)) as (Ra & Rs & Rd & _ & _ & _ & _ & Rp).
    assert (setStorageRoot now (flushed o) s = Ok (if now then withRoot (flushed o) else flushed o,
       if negb now && isProgram (so_account o) then setDirtyStorage (Some ({[a]} ∪ m)) s else s)) as ->.
    { unfold setStorageRoot. rewrite (updateStorageRoot_spec _ _ Ft), Fc, Fa, Ha, Hm. unfold withRoot. rewrite Fc.
      by destruct now, (isProgram (so_account o)). }
    cbn [mbind res_bind mret res_ret fst snd]. eexists. split; [reflexivity|]. unfold updateStateObject.
    set (o1 := if now then withRoot (flushed o) else flushed o) in *.
    set (s1 := if negb now && isProgram (so_account o) then _ else s).
    assert (Hs1 : sd_snap s1 = None) by (unfold s1; by destruct (_ && _)). fields. rewrite Hs1. rewrite bool_decide_eq_false_2 by (by intros [? ?]).
    assert (Ha1 : so_address o1 = a) by (unfold o1; destruct now; congruence).
    pose proof (finalised_put d now a s o m (withFlags (so_selfDestructed o1) (so_deleted o1) false o1) (if negb now && isProgram (so_account o) then {[a]} ∪ m else m)
       (<[a := so_account o1]> (sd_trie s))) as H.
    replace (setDirty _ _) with (setDirty ({[a]} ∪ sd_stateObjectsDirty s)
        (setStateObject (withFlags (so_selfDestructed o1) (so_deleted o1) false o1)
           (setTrie (<[a:=so_account o1]> (sd_trie s))
              (setDirtyStorage (Some (if negb now && isProgram (so_account o) then {[a]} ∪ m else m)) s)))).
    2:{ unfold s1. rewrite Ha1. destruct (negb now && isProgram (so_account o)); [done|]. by destruct s; cbn in *; subst. }
    apply H; try done; clear H.
    + unfold outcome. by rewrite Hd.
    + rewrite He. apply lookup_insert_eq.
    + intros b ?. by rewrite lookup_insert_ne.
    + intros b ?. destruct (_ && _); set_solver.
    + unfold to_mark. rewrite Hd. clear. destruct now, (isProgram _); cbn; set_solver.
Qed.

Lemma finalised_trans d now l k s s1 s2 : (forall a, a ∈ l -> a ∉ k) -> finalised_by d now l s s1 -> finalised_by d now k s1 s2 ->
  finalised_by d now (l ++ k) s s2.
Proof.
  intros Hlk [I1 O1 M1 T1] [I2 O2 M2 T2]. split; [| |done|congruence].
  - intros a o [Hl|Hk]%elem_of_app Ho.
    + destruct (I1 a o Hl Ho) as (A1 & A2 & A3 & A4). destruct (O2 a (or_introl (Hlk a Hl))) as (B1 & B2 & B3 & B4).
      rewrite B1, B2, B3, B4. done.
    + assert (a ∉ l) as Hl by (intros Hl; by apply (Hlk a)). destruct (O1 a (or_introl Hl)) as (A1 & A2 & A3 & A4).
      rewrite <- A1 in Ho. destruct (I2 a o Hk Ho) as (B1 & B2 & B3 & B4). rewrite A4 in B4. done.
  - intros a Ha. assert (sd_stateObjects s1 !! a = sd_stateObjects s !! a /\ sd_trie s1 !! a = sd_trie s !! a /\
      (a ∈ sd_stateObjectsDirty s1 <-> a ∈ sd_stateObjectsDirty s) /\ (a ∈ marks s1 <-> a ∈ marks s)) as (A1 & A2 & A3 & A4).
    { apply O1. destruct Ha as [Ha|Ha]; [left|by right]. by intros H; apply Ha, elem_of_app; left. }
    destruct (O2 a) as (B1 & B2 & B3 & B4).
    { rewrite A1. destruct Ha as [Ha|Ha]; [left|by right]. by intros H; apply Ha, elem_of_app; right. }
    rewrite B1, B2, B3, B4. done.
Qed.

Lemma finaliseLoop_spec d now l : NoDup l -> forall s, sd_snap s = None -> is_Some (sd_stateObjectsDirtyStorage s) ->
  (forall a o, a ∈ l -> sd_stateObjects s !! a = Some o -> so_address o = a /\ so_deleted o = false) ->
  exists s', finaliseLoop d now l s = Ok s' /\ finalised_by d now l s s'.
Proof.
  induction l as [|a l IH]; intros Hnd s Hs Hm Hl.
  { exists s. split; [done|]. split; try done. intros a o Ha. by apply elem_of_nil in Ha. }
  apply NoDup_cons in Hnd as [Ha Hnd]. cbn [finaliseLoop].
  assert (exists s1, finaliseAddr d now a s = Ok s1 /\ finalised_by d now [a] s s1) as (s1 & -> & H1).
  { destruct (sd_stateObjects s !! a) as [o|] eqn:Ho.
    - destruct (Hl a o (list_elem_of_here _ _) Ho). by apply (finalise_object d now a s o).
    - exists s. unfold finaliseAddr. rewrite Ho. split; [done|]. split; try done. intros b o ->%list_elem_of_singleton. congruence. }
  cbn [mbind res_bind]. destruct (IH Hnd s1) as (s2 & -> & H2).
  - pose proof (fb_others _ _ _ _ _ H1) as E. unfold others in E. congruence.
  - apply H1.
  - intros b o Hb Ho. assert (b <> a) as Hne by (intros ->; done). rewrite (proj1 (fb_out _ _ _ _ _ H1 b ltac:(left; by rewrite list_elem_of_singleton))) in Ho.
    apply Hl; [by apply list_elem_of_further|done].
  - exists s2. split; [done|]. apply (finalised_trans d now [a] l s s1 s2); try done. by intros b ->%list_elem_of_singleton.
Qed.

(** ** The storage roots left for later *)

Record rooted_by (l : list Address) (s s' : StateDB) : Prop := {
  rb_in : forall a o, a ∈ l -> sd_stateObjects s !! a = Some o ->
    sd_stateObjects s' !! a = Some (withRoot o) /\ sd_trie s' !! a = Some (so_account (withRoot o));
  rb_out : forall a, a ∉ l \/ sd_stateObjects s !! a = None ->
    sd_stateObjects s' !! a = sd_stateObjects s !! a /\ sd_trie s' !! a = sd_trie s !! a;
  rb_dirty : sd_stateObjectsDirty s' = sd_stateObjectsDirty s;
  rb_others : others s' = others s
}.

Lemma root_object a s o tr : sd_snap s = None -> sd_stateObjects s !! a = Some o -> so_address o = a -> so_storageTrie o = Some tr ->
  exists s', updateRoots [a] s = Ok s' /\ rooted_by [a] s s'.
Proof.
  intros Hs Ho Ha Ht. cbn [updateRoots]. rewrite Ho, (updateStorageRoot_spec o tr Ht). cbn [mbind res_bind mret res_ret].
  destruct (withRoot_frame o) as (Hra & _). eexists. split; [reflexivity|]. unfold updateStateObject. fields. rewrite Hs.
  rewrite bool_decide_eq_false_2 by (by intros [? ?]). rewrite Hra, Ha. split; try done.
  - intros b o1 ->%list_elem_of_singleton. rewrite Ho. intros [= <-]. fields. by rewrite Hra, Ha, !lookup_insert_eq.
  - intros b Hb. assert (b <> a) as Hne. { intros ->. destruct Hb as [Hb|Hb]; [by apply Hb, list_elem_of_singleton|congruence]. }
    fields. by rewrite Hra, Ha, !lookup_insert_ne.
Qed.

Lemma updateRoots_cons a l s : updateRoots (a :: l) s = (s ← updateRoots [a] s; updateRoots l s).
Proof. cbn [updateRoots]. destruct (sd_stateObjects s !! a) as [o|]; [|done]. by destruct (updateStorageRoot o). Qed.

Lemma updateRoots_spec l : NoDup l -> forall s, sd_snap s = None ->
  (forall a o, a ∈ l -> sd_stateObjects s !! a = Some o -> so_address o = a /\ is_Some (so_storageTrie o)) ->
  exists s', updateRoots l s = Ok s' /\ rooted_by l s s'.
Proof.
  induction l as [|a l IH]; intros Hnd s Hs Hl.
  { exists s. split; [done|]. split; try done. intros a o Ha. by apply elem_of_nil in Ha. }
  apply NoDup_cons in Hnd as [Ha Hnd]. rewrite updateRoots_cons.
  assert (exists s1, updateRoots [a] s = Ok s1 /\ rooted_by [a] s s1) as (s1 & -> & [I1 O1 D1 T1]).
  { destruct (sd_stateObjects s !! a) as [o|] eqn:Ho.
    - destruct (Hl a o (list_elem_of_here _ _) Ho) as [Hoa [tr Htr]]. by apply (root_object a s o tr).
    - exists s. cbn [updateRoots]. rewrite Ho. split; [done|]. split; try done. intros b o ->%list_elem_of_singleton. congruence. }
  cbn [mbind res_bind]. destruct (IH Hnd s1) as (s2 & -> & [I2 O2 D2 T2]).
  { unfold others in T1. congruence. }
  { intros b o Hb Ho. assert (b <> a) as Hne by (intros ->; done). rewrite (proj1 (O1 b ltac:(left; by rewrite list_elem_of_singleton))) in Ho.
    apply Hl; [by apply list_elem_of_further|done]. }
  exists s2. split; [done|]. split; [| |congruence|congruence].
  - intros b o [->|Hb]%elem_of_cons Ho.
    + destruct (O2 a (or_introl Ha)) as [-> ->]. apply I1; [by apply list_elem_of_singleton|done].
    + assert (b <> a) as Hne by (intros ->; done). destruct (O1 b ltac:(left; by rewrite list_elem_of_singleton)) as [E _].
      apply I2; [done|]. by rewrite E.
  - intros b Hb. destruct (O1 b) as [E1 E2].
    { destruct Hb as [Hb|Hb]; [left|by right]. rewrite list_elem_of_singleton. by intros ->; apply Hb, list_elem_of_here. }
    destruct (O2 b) as [-> ->]; [|done]. rewrite E1. destruct Hb as [Hb|Hb]; [left|by right].
    by intros H; apply Hb, list_elem_of_further.
Qed.

(** ** States whose trie can be kept up to date *)

(** The object at [a] is what the trie has under [a]: the account, a storage trie that is the
    one of its root unless the root was left for later, and no changed slots. *)
Record clean (s : StateDB) (a : Address) (o : stateObject) : Prop := {
  cl_trie : sd_trie s !! a = entry o;
  cl_deleted : so_deleted o = true -> a ∈ sd_stateObjectsDirty s /\ doomed true o = true;
  cl_alive : so_deleted o = false -> so_selfDestructed o = false;
  cl_storage : so_deleted o = false -> forall k, slot o k = decodeSlot (openedTrie o !! k);
  cl_root : so_deleted o = false -> a ∉ marks s -> isProgram (so_account o) = true ->
    openedTrie o = openedTrie (newObject a (so_account o));
  cl_dirty : so_deleted o = false -> a ∈ sd_stateObjectsDirty s -> empty_ o = false /\ (a ∉ marks s -> so_account (withRoot o) = so_account o)
}.

(** Every loaded object has changed or is clean, apart from the ones at the addresses [X]. *)
Record tracked_but (X : gset Address) (s : StateDB) : Prop := {
  tk_snap : sd_snap s = None;
  tk_map : is_Some (sd_stateObjectsDirtyStorage s);
  tk_keyed : keyed s;
  tk_object : forall a o, sd_stateObjects s !! a = Some o -> storage_ok o;
  tk_changed : forall a o, sd_stateObjects s !! a = Some o -> is_Some (dirties s !! a) -> so_deleted o = false;
  tk_clean : forall a o, sd_stateObjects s !! a = Some o -> dirties s !! a = None -> a ∉ X -> clean s a o;
  tk_marks : forall a, a ∈ marks s -> exists o, sd_stateObjects s !! a = Some o /\ so_deleted o = false /\ is_Some (so_storageTrie o)
}.
Definition tracked : StateDB -> Prop := tracked_but ∅.

(** No contract whose root was left for later is to be deleted. *)
Definition roots_survive (s : StateDB) : Prop := forall a o, a ∈ marks s -> sd_stateObjects s !! a = Some o ->
  is_Some (dirties s !! a) -> doomed true o = false.

Lemma withRoot_idem o tr : so_storageTrie o = Some tr -> withRoot (withRoot o) = withRoot o.
Proof. intros Ht. unfold withRoot, openedTrie. destruct o as [? [] ? ? ? ? ? ? ? ?]; cbn in *; by subst. Qed.

Lemma withRoot_flags p q r o : withRoot (withFlags p q r o) = withFlags p q r (withRoot o).
Proof. unfold withRoot, openedTrie. destruct o as [? [] ? ? ? ? ? ? ? ?]; done. Qed.

(** A root that is computed twice. *)
Lemma withRoot_outcome o : doomed true o = false -> withRoot (outcome true true o) = outcome true true o.
Proof.
  intros Hd. unfold outcome. rewrite Hd. destruct (flushed_frame o) as (_ & _ & _ & _ & Ht & _).
  by rewrite withRoot_flags, (withRoot_idem _ _ Ht).
Qed.

Lemma outcome_frame now o : so_address (outcome true now o) = so_address o /\
  (doomed true o = false -> so_storageTrie (outcome true now o) = so_storageTrie (flushed o)).
Proof.
  destruct (flushed_frame o) as (Fa & _). destruct (withRoot_frame (flushed o)) as (Ra & _ & _ & Rt & _).
  unfold outcome. destruct (doomed true o), now; objfields; split; try done; congruence.
Qed.

(** [s'] is what finalising leaves of [s]. *)
Record finalised (now : bool) (s s' : StateDB) : Prop := {
  fi_changed : forall a o, sd_stateObjects s !! a = Some o -> is_Some (dirties s !! a) ->
    sd_stateObjects s' !! a = Some (outcome true now o) /\ sd_trie s' !! a = entry (outcome true now o) /\ a ∈ sd_stateObjectsDirty s' /\
    (a ∈ marks s' <-> now = false /\ (a ∈ marks s \/ to_mark true now o));
  fi_rooted : forall a o, sd_stateObjects s !! a = Some o -> dirties s !! a = None -> now = true -> a ∈ marks s ->
    sd_stateObjects s' !! a = Some (withRoot o) /\ sd_trie s' !! a = Some (so_account (withRoot o)) /\
    (a ∈ sd_stateObjectsDirty s' <-> a ∈ sd_stateObjectsDirty s) /\ a ∉ marks s';
  fi_same : forall a, sd_stateObjects s !! a = None \/ dirties s !! a = None /\ (now = false \/ a ∉ marks s) ->
    sd_stateObjects s' !! a = sd_stateObjects s !! a /\ sd_trie s' !! a = sd_trie s !! a /\
    (a ∈ sd_stateObjectsDirty s' <-> a ∈ sd_stateObjectsDirty s) /\ (a ∈ marks s' <-> now = false /\ a ∈ marks s);
  fi_snap : sd_snap s' = sd_snap s;
  fi_map : is_Some (sd_stateObjectsDirtyStorage s');
  fi_cleared : sd_journal s' = newJournal /\ sd_refund s' = 0 /\ sd_validRevisions s' = [];
  fi_logs : sd_logs s' = sd_logs s /\ sd_preimages s' = sd_preimages s
}.

Lemma others_clear s s1 : others s1 = others s ->
  sd_snap (clearJournalAndRefund s1) = sd_snap s /\
  (sd_journal (clearJournalAndRefund s1) = newJournal /\ sd_refund (clearJournalAndRefund s1) = 0 /\ sd_validRevisions (clearJournalAndRefund s1) = []) /\
  sd_logs (clearJournalAndRefund s1) = sd_logs s /\ sd_preimages (clearJournalAndRefund s1) = sd_preimages s.
Proof. unfold others, clearJournalAndRefund. intros E. fields. split_and!; congruence. Qed.

(** The roots that are due are computed, and none is due afterwards. *)
Lemma laterRoots s s1 : sd_snap s1 = None -> is_Some (sd_stateObjectsDirtyStorage s1) ->
  (forall a o, a ∈ marks s1 -> sd_stateObjects s1 !! a = Some o -> so_address o = a /\ is_Some (so_storageTrie o)) -> others s1 = others s ->
  exists s2 s3, (if negb (bool_decide (marks s1 = ∅)) then s ← updateRoots (elements (marks s1)) s1; mret (setDirtyStorage (Some ∅) s)
             else mret s1) = Ok s3 (E:=Empty_set) /\ rooted_by (elements (marks s1)) s1 s2 /\ marks s3 = ∅ /\ is_Some (sd_stateObjectsDirtyStorage s3) /\
    sd_stateObjects s3 = sd_stateObjects s2 /\ sd_trie s3 = sd_trie s2 /\ sd_stateObjectsDirty s3 = sd_stateObjectsDirty s2 /\ others s3 = others s.
Proof.
  intros Hs Hm Hl Ho. case_bool_decide as E; cbn [negb].
  - exists s1, s1. rewrite E, elements_empty. split; [done|]. split; [|by split_and!]. split; try done. intros a o Ha. by apply elem_of_nil in Ha.
  - destruct (updateRoots_spec (elements (marks s1)) (NoDup_elements _) s1 Hs) as (s2 & -> & H2).
    { intros a o Ha%elem_of_elements. by apply Hl. }
    cbn [mbind res_bind mret res_ret]. exists s2. eexists. split; [reflexivity|]. split; [done|]. split_and!; try done.
    rewrite <- Ho. apply H2.
Qed.

Lemma Finalise_roots s : tracked s -> roots_survive s -> exists s', Finalise true true s = Ok s' /\ finalised true s s'.
Proof.
  intros [Hs Hm Hk Hob Hch Hcl Hmk] Hr. unfold Finalise. set (l := elements (dom (j_dirties (sd_journal s)))).
  assert (Hin : forall a, a ∈ l <-> is_Some (dirties s !! a)) by (intros a; unfold l; by rewrite elem_of_elements, elem_of_dom).
  assert (Hno : forall a, dirties s !! a = None -> a ∉ l) by (intros a E; rewrite Hin, E; by intros [? ?]).
  destruct (finaliseLoop_spec true true l) with (s := s) as (s1 & -> & [HI HO HM HT]); [apply NoDup_elements|done|done| |].
  { intros a o Ha Ho. split; [by apply (ky_address s Hk)|]. apply (Hch a); [done|]. by apply Hin. }
  cbn [mbind res_bind andb]. destruct (others_clear s s1 HT) as (C1 & C2 & C3 & C4). cbv zeta.
  set (sc := clearJournalAndRefund s1) in *. change (default ∅ (sd_stateObjectsDirtyStorage sc)) with (marks sc).
  assert (Hmarks : forall a, a ∈ marks sc <-> a ∈ marks s).
  { intros a. change (marks sc) with (marks s1). destruct (sd_stateObjects s !! a) as [o|] eqn:Ho; [|by apply HO; right].
    destruct (decide (a ∈ l)) as [Ha|Ha]; [|by apply HO; left]. destruct (HI a o Ha Ho) as (_ & _ & _ & ->). unfold to_mark. naive_solver. }
  destruct (laterRoots sc sc) as (s2 & s3 & -> & [RI RO RD RT] & M1 & M2 & E1 & E2 & E3 & E4); [congruence|done| |done|].
  { intros a o Ha%Hmarks Ho. destruct (Hmk a Ha) as (o1 & Ho1 & Hd1 & Ht1). change (sd_stateObjects sc) with (sd_stateObjects s1) in Ho.
    pose proof (ky_address s Hk _ _ Ho1) as Hoa. destruct (decide (a ∈ l)) as [Hl|Hl].
    - destruct (HI a o1 Hl Ho1) as (I1 & _). rewrite I1 in Ho. injection Ho as <-. destruct (outcome_frame true o1) as [Fa Ft].
      rewrite Fa, Ft by (by apply (Hr a); [| |apply Hin]). split; [done|]. destruct (flushed_frame o1) as (_ & _ & _ & _ & -> & _). done.
    - destruct (HO a (or_introl Hl)) as (O1 & _). rewrite O1, Ho1 in Ho. by injection Ho as <-. }
  exists s3. split; [done|]. unfold others in E4. split.
  - intros a o Ho Ha. destruct (HI a o (proj2 (Hin a) Ha) Ho) as (I1 & I2 & I3 & I4). rewrite E1, E2, E3, RD, M1.
    assert (sd_stateObjects s2 !! a = Some (outcome true true o) /\ sd_trie s2 !! a = entry (outcome true true o)) as [-> ->].
    2:{ split_and!; try done. split; [set_solver|]. by intros [? _]. }
    destruct (decide (a ∈ marks s)) as [Hma|Hma].
    + pose proof (Hr a o Hma Ho Ha) as Hd. destruct (RI a (outcome true true o)) as [-> ->]; [by apply elem_of_elements, Hmarks|done|].
      rewrite withRoot_outcome, outcome_account by (done || by apply (Hch a)). done.
    + destruct (RO a) as [-> ->]; [left; by rewrite elem_of_elements, Hmarks|]. done.
  - intros a o Ho Ha _ Hma. destruct (HO a (or_introl (Hno a Ha))) as (O1 & O2 & O3 & O4). rewrite E1, E2, E3, RD, M1.
    destruct (RI a o) as [-> ->]; [by apply elem_of_elements, Hmarks|exact (eq_trans O1 Ho)|]. by split_and!.
  - intros a Ha. assert (a ∉ l \/ sd_stateObjects s !! a = None) as Hx by (destruct Ha as [|[]]; [by right|left; by apply Hno]).
    destruct (HO a Hx) as (O1 & O2 & O3 & O4). rewrite E1, E2, E3, RD, M1. destruct (RO a) as [-> ->].
    { destruct Ha as [Ha|[_ [?|Ha]]]; [right; exact (eq_trans O1 Ha)|done|left; by rewrite elem_of_elements, Hmarks]. }
    split_and!; try done. split; [set_solver|]. by intros [? _].
  - congruence.
  - done.
  - split_and!; destruct C2 as (? & ? & ?); congruence.
  - split; congruence.
Qed.

Lemma Finalise_later s : tracked s -> exists s', Finalise true false s = Ok s' /\ finalised false s s'.
Proof.
  intros [Hs Hm Hk Hob Hch Hcl Hmk]. unfold Finalise. set (l := elements (dom (j_dirties (sd_journal s)))).
  assert (Hin : forall a, a ∈ l <-> is_Some (dirties s !! a)) by (intros a; unfold l; by rewrite elem_of_elements, elem_of_dom).
  assert (Hno : forall a, dirties s !! a = None -> a ∉ l) by (intros a E; rewrite Hin, E; by intros [? ?]).
  destruct (finaliseLoop_spec true false l) with (s := s) as (s1 & -> & [HI HO HM HT]); [apply NoDup_elements|done|done| |].
  { intros a o Ha Ho. split; [by apply (ky_address s Hk)|]. apply (Hch a); [done|]. by apply Hin. }
  destruct (others_clear s s1 HT) as (C1 & C2 & C3). eexists. split; [reflexivity|]. split; try done.
  - intros a o Ho Ha. apply Hin in Ha. destruct (HI a o Ha Ho) as (I1 & I2 & I3 & I4). change (marks (clearJournalAndRefund s1)) with (marks s1).
    split_and!; try done. rewrite I4. naive_solver.
  - intros a Ha. change (marks (clearJournalAndRefund s1)) with (marks s1). destruct (HO a) as (O1 & O2 & O3 & O4).
    + destruct Ha as [|[]]; [by right|left; by apply Hno].
    + split_and!; try done. rewrite O4. naive_solver.
Qed.

(** ** Finalising keeps the trie up to date *)

(** The root of a storage trie is where it can be opened again. *)
Hypothesis reopen : forall tr, openStorageTrie (hashExt tr) = Some tr.

Lemma storage_ok_same o o' : openedTrie o' = openedTrie o -> so_originStorage o' = so_originStorage o ->
  so_dirtyStorage o' = so_dirtyStorage o -> storage_ok o -> storage_ok o'.
Proof. intros E1 E2 E3 [H1 H2]. split; by rewrite ?E1, ?E2, ?E3. Qed.

Lemma openedTrie_cached o tr : so_storageTrie o = Some tr -> openedTrie o = tr.
Proof. unfold openedTrie. by intros ->. Qed.

Lemma openedTrie_withRoot o : is_Some (so_storageTrie o) -> openedTrie (withRoot o) = openedTrie o.
Proof.
  intros [tr Ht]. destruct (withRoot_frame o) as (_ & _ & _ & Hr & _). rewrite Ht in Hr.
  by rewrite (openedTrie_cached _ tr Hr), (openedTrie_cached _ tr Ht).
Qed.

(** The trie of an object whose root was computed is the one a fresh object opens. *)
Lemma withRoot_reopens o a : is_Some (so_storageTrie o) -> isProgram (so_account o) = true ->
  openedTrie (newObject a (so_account (withRoot o))) = openedTrie (withRoot o).
Proof using reopen.
  intros Ht Hp. rewrite openedTrie_withRoot by done. unfold withRoot. rewrite Hp. destruct (so_account o); [done|].
  unfold openedTrie at 1. cbn. by rewrite reopen.
Qed.

Lemma Empty_withRoot o : empty_ (withRoot o) = empty_ o.
Proof. unfold empty_, withRoot. by destruct (so_account o) eqn:E; cbn; rewrite ?E. Qed.

Lemma withRoot_ok o : is_Some (so_storageTrie o) -> storage_ok o -> storage_ok (withRoot o).
Proof. intros Ht. destruct (withRoot_frame o) as (_ & _ & _ & _ & _ & H1 & H2 & _). by apply storage_ok_same; [apply openedTrie_withRoot| |]. Qed.

Lemma slot_withRoot o k : is_Some (so_storageTrie o) -> slot (withRoot o) k = slot o k.
Proof. intros Ht. unfold slot. destruct (withRoot_frame o) as (_ & _ & _ & _ & _ & _ & H2 & _). by rewrite H2, openedTrie_withRoot. Qed.

Lemma flushed_ok o : storage_ok o -> storage_ok (flushed o) /\ forall k, slot (flushed o) k = slot o k /\ decodeSlot (openedTrie (flushed o) !! k) = slot o k.
Proof.
  intros Ho. destruct (flushed_spec o Ho) as (tr & origin & -> & H1 & H2). split; [split; objfields; [exact H1|done]|].
  intros k. unfold slot. objfields. rewrite lookup_empty. cbn. split; apply H2.
Qed.

(** An object that is kept. *)
Definition kept (now : bool) (o : stateObject) : stateObject := if now then withRoot (flushed o) else flushed o.
Lemma outcome_kept now o : doomed true o = false -> outcome true now o = withFlags (so_selfDestructed (kept now o)) (so_deleted (kept now o)) false (kept now o).
Proof. intros Hd. unfold outcome, kept. by rewrite Hd. Qed.

Lemma kept_frame now o : is_Some (so_storageTrie (kept now o)) /\ so_deleted (kept now o) = so_deleted o /\
  so_selfDestructed (kept now o) = so_selfDestructed o /\ empty_ (kept now o) = empty_ o /\
  isProgram (so_account (kept now o)) = isProgram (so_account o) /\ (now = false -> so_account (kept now o) = so_account o).
Proof.
  destruct (flushed_frame o) as (Fa & Fc & Fs & Fd & Ft & _). destruct (withRoot_frame (flushed o)) as (Ra & Rs & Rd & Rt & _ & _ & _ & Rp).
  unfold kept. destruct now; rewrite ?Empty_withRoot; (split_and!; [|congruence..|unfold empty_; by rewrite Fc|congruence|done]).
  - by rewrite Rt, Ft.
  - by rewrite Ft.
Qed.

Lemma kept_ok now o : storage_ok o -> storage_ok (kept now o) /\
  forall k, slot (kept now o) k = slot o k /\ decodeSlot (openedTrie (kept now o) !! k) = slot o k.
Proof.
  intros Ho. destruct (flushed_ok o Ho) as [H1 H2]. destruct (flushed_frame o) as (_ & _ & _ & _ & Ft & _).
  unfold kept. destruct now; [|done]. split; [apply withRoot_ok; [by rewrite Ft|done]|]. intros k. rewrite slot_withRoot, openedTrie_withRoot by (by rewrite Ft). apply H2.
Qed.

Lemma outcome_clean now s s' a o : finalised now s s' -> sd_stateObjects s !! a = Some o -> is_Some (dirties s !! a) -> so_deleted o = false ->
  storage_ok o -> clean s' a (outcome true now o).
Proof using reopen.
  intros Hf Ho Hc Hd Hok. destruct (fi_changed _ _ _ Hf a o Ho Hc) as (_ & Ht & Hdi & Hm). destruct (doomed true o) eqn:Hdo.
  { assert (so_deleted (outcome true now o) = true) as Hdel by (unfold outcome; by rewrite Hdo).
    split; try done; try (intros E; congruence). intros _. split; [done|]. unfold outcome. by rewrite Hdo. }
  rewrite outcome_kept in * by done. destruct (kept_frame now o) as (Kt & Kd & Ks & Ke & Kp & Ka). destruct (kept_ok now o Hok) as [_ Ko].
  assert (Hmark : a ∉ marks s' -> isProgram (so_account o) = true -> now = true).
  { intros Hn Hp. destruct now; [done|]. destruct Hn. apply Hm. split; [done|]. right. by split_and!. }
  apply orb_false_iff in Hdo as [Hsd Hem]. split; objfields; try done.
  - intros E. congruence.
  - intros _. congruence.
  - intros _ k. destruct (Ko k) as [H1 H2]. exact (eq_trans H1 (eq_sym H2)).
  - intros _ Hn Hp. rewrite Kp in Hp. rewrite (Hmark Hn Hp) in *. symmetry. destruct (flushed_frame o) as (_ & Fc & _ & _ & Ft & _).
    apply (withRoot_reopens (flushed o) a); [by rewrite Ft|by rewrite Fc].
  - intros _ _. split; [exact (eq_trans Ke Hem)|]. intros Hn.
    rewrite withRoot_flags. objfields.
    destruct (isProgram (so_account o)) eqn:Hp; [|unfold withRoot at 1; by rewrite Kp].
    rewrite (Hmark Hn eq_refl). destruct (flushed_frame o) as (_ & _ & _ & _ & Ft & _). unfold kept. by rewrite (withRoot_idem _ _ Ft).
Qed.

Lemma rooted_clean now s s' a o : finalised now s s' -> sd_stateObjects s !! a = Some o -> dirties s !! a = None -> now = true ->
  a ∈ marks s -> so_deleted o = false -> is_Some (so_storageTrie o) -> clean s a o -> clean s' a (withRoot o).
Proof using reopen.
  intros Hf Ho Hc Hn Hm Hd [tr Htr] [C1 C2 C3 C4 C5 C6]. destruct (fi_rooted _ _ _ Hf a o Ho Hc Hn Hm) as (_ & Ht & Hdi & Hm').
  destruct (withRoot_frame o) as (Ra & Rs & Rd & Rt & _ & _ & Rdi & Rp). split; rewrite ?Rd, ?Rs, ?Rp.
  - rewrite Ht. unfold entry. by rewrite Rd, Hd.
  - intros E. congruence.
  - done.
  - intros _ k. rewrite slot_withRoot, openedTrie_withRoot by done. by apply C4.
  - intros _ _ Hp. symmetry. by apply withRoot_reopens.
  - intros _ Hdir%Hdi. rewrite Empty_withRoot. split; [by apply C6|]. intros _. by rewrite (withRoot_idem _ _ Htr).
Qed.

Lemma same_clean now s s' a o : finalised now s s' -> dirties s !! a = None -> now = false \/ a ∉ marks s -> clean s a o -> clean s' a o.
Proof.
  intros Hf Hc Hn [C1 C2 C3 C4 C5 C6]. destruct (fi_same _ _ _ Hf a (or_intror (conj Hc Hn))) as (_ & Ht & Hdi & Hm).
  assert (a ∉ marks s' -> a ∉ marks s) as Hmm by (rewrite Hm; destruct Hn; naive_solver).
  split; rewrite ?Ht, ?Hdi; auto. intros Hd Hdir. destruct (C6 Hd Hdir). auto.
Qed.

(** Where the objects of a finalised state come from. *)
Lemma finalised_objects now s s' a o' : tracked s -> finalised now s s' -> sd_stateObjects s' !! a = Some o' -> exists o,
  sd_stateObjects s !! a = Some o /\ clean s' a o' /\ storage_ok o' /\ so_address o' = a /\
  (is_Some (dirties s !! a) /\ o' = outcome true now o \/ dirties s !! a = None /\ (o' = o \/ now = true /\ a ∈ marks s /\ o' = withRoot o)).
Proof using reopen.
  intros [Hs Hm Hk Hob Hch Hcl Hmk] Hf Ho'. destruct (sd_stateObjects s !! a) as [o|] eqn:Ho.
  2:{ destruct (fi_same _ _ _ Hf a (or_introl Ho)) as (E & _). congruence. }
  exists o. split; [done|]. pose proof (ky_address s Hk _ _ Ho) as Ha. pose proof (Hob a o Ho) as Hst.
  destruct (dirties s !! a) as [n|] eqn:Hc.
  - assert (is_Some (dirties s !! a)) as Hi by done. destruct (fi_changed _ _ _ Hf a o Ho Hi) as (E & _). rewrite E in Ho'. injection Ho' as <-.
    split; [apply (outcome_clean now s); try done; by apply (Hch a)|]. destruct (outcome_frame now o) as [Fa _]. split; [|split; [congruence|by left]].
    destruct (doomed true o) eqn:Hd; [|rewrite outcome_kept by done; apply (storage_ok_same (kept now o)); try done; by apply kept_ok]. unfold outcome. rewrite Hd. by apply (storage_ok_same o).
  - pose proof (Hcl a o Ho Hc ltac:(set_solver)) as C. destruct (decide (now = true /\ a ∈ marks s)) as [[Hn Hma]|Hn].
    + destruct (fi_rooted _ _ _ Hf a o Ho Hc Hn Hma) as (E & _). rewrite E in Ho'. injection Ho' as <-.
      destruct (Hmk a Hma) as (o1 & Ho1 & Hd1 & Ht1). rewrite Ho in Ho1. injection Ho1 as <-.
      split; [by apply (rooted_clean now s)|]. split; [by apply withRoot_ok|]. split; [by rewrite (proj1 (withRoot_frame o))|]. right. naive_solver.
    + assert (now = false \/ a ∉ marks s) as Hn' by (destruct now; [right|by left]; naive_solver).
      destruct (fi_same _ _ _ Hf a (or_intror (conj Hc Hn'))) as (E & _). rewrite E, Ho in Ho'. injection Ho' as <-.
      split; [by apply (same_clean now s)|]. naive_solver.
Qed.

Lemma finalised_marks now s s' a : tracked s -> roots_survive s -> finalised now s s' -> a ∈ marks s' ->
  exists o', sd_stateObjects s' !! a = Some o' /\ so_deleted o' = false /\ is_Some (so_storageTrie o').
Proof.
  intros [Hs Hm Hk Hob Hch Hcl Hmk] Hr Hf Ha. destruct (sd_stateObjects s !! a) as [o|] eqn:Ho.
  2:{ destruct (fi_same _ _ _ Hf a (or_introl Ho)) as (E & _ & _ & [_ Hma]%proj1); [done|]. destruct (Hmk a Hma) as (? & ? & _). congruence. }
  destruct (dirties s !! a) as [n|] eqn:Hc.
  - assert (is_Some (dirties s !! a)) as Hi by done. destruct (fi_changed _ _ _ Hf a o Ho Hi) as (E & _ & _ & [_ Hx]%proj1); [done|].
    assert (Hd : doomed true o = false) by (destruct Hx as [Hx|(_ & ? & _)]; [by apply (Hr a)|done]).
    exists (outcome true now o). split; [done|]. rewrite outcome_kept by done. destruct (kept_frame now o) as (Kt & Kd & _). objfields.
    split; [|done]. rewrite Kd. by apply (Hch a).
  - destruct (decide (now = true /\ a ∈ marks s)) as [[Hn Hma]|Hn].
    + by destruct (fi_rooted _ _ _ Hf a o Ho Hc Hn Hma) as (_ & _ & _ & ?).
    + assert (now = false \/ a ∉ marks s) as Hn' by (destruct now; [right|by left]; naive_solver).
      destruct (fi_same _ _ _ Hf a (or_intror (conj Hc Hn'))) as (E & _ & _ & [_ Hma]%proj1); [done|]. rewrite E. by apply Hmk.
Qed.

Lemma finalised_tracked now s s' : tracked s -> roots_survive s -> finalised now s s' -> tracked s'.
Proof using reopen.
  intros Ht Hr Hf. pose proof (finalised_objects now s s') as Hobj. pose proof (finalised_marks now s s') as Hmk.
  pose proof (fi_cleared _ _ _ Hf) as (Hj & _). assert (Hnd : forall a, dirties s' !! a = None) by (intros a; unfold dirties; by rewrite Hj).
  split.
  - rewrite (fi_snap _ _ _ Hf). apply Ht.
  - apply Hf.
  - split.
    + intros a o Ho. by destruct (Hobj a o Ht Hf Ho) as (_ & _ & _ & _ & Ha & _).
    + intros a Ha. destruct (sd_stateObjects s !! a) as [o|] eqn:Ho.
      * destruct (dirties s !! a) as [n|] eqn:Hc.
        { assert (is_Some (dirties s !! a)) as Hi by done. destruct (fi_changed _ _ _ Hf a o Ho Hi) as (-> & _). done. }
        destruct (decide (now = true /\ a ∈ marks s)) as [[Hn Hma]|Hn].
        { destruct (fi_rooted _ _ _ Hf a o Ho Hc Hn Hma) as (-> & _). done. }
        assert (now = false \/ a ∉ marks s) as Hn' by (destruct now; [right|by left]; naive_solver).
        destruct (fi_same _ _ _ Hf a (or_intror (conj Hc Hn'))) as (-> & _). by rewrite Ho.
      * destruct (fi_same _ _ _ Hf a (or_introl Ho)) as (_ & _ & [Hx _] & _).
        destruct (ky_dirty s (tk_keyed _ _ Ht) a (Hx Ha)). congruence.
  - intros a o Ho. by destruct (Hobj a o Ht Hf Ho) as (_ & _ & _ & ? & _).
  - intros a o _. rewrite Hnd. by intros [? ?].
  - intros a o Ho _ _. by destruct (Hobj a o Ht Hf Ho) as (_ & _ & ? & _).
  - intros a Ha. by apply Hmk.
Qed.

(** ** What can be read from the trie *)

(** The account fields of an address. *)
Definition reads (a : Address) (s : StateDB) :=
  ((Exist a s).1, (EmptyAt a s).1, (GetBalanceAt a s).1, (GetNonceAt a s).1, (GetKeyAt a s).1, (GetCodeHashAt a s).1).
Definition readsOf (o : option stateObject) :=
  (bool_decide (is_Some o), match o with Some o => empty_ o | None => true end, match o with Some o => GetBalance (so_account o) | None => 0 end,
   match o with Some o => GetNonce (so_account o) | None => 0 end, match o with Some o => ac_key (common (so_account o)) | None => AccountKeyLegacy end,
   BytesToHash match o with Some o => CodeHash o | None => emptyCodeHash end).

Lemma reads_live a s : keyed s -> reads a s = readsOf (live (view s a)).
Proof.
  intros Hk. destruct (getStateObject_spec a s Hk) as (s' & Hg & _). unfold reads, Exist, EmptyAt, GetBalanceAt, GetNonceAt, GetKeyAt, GetCodeHashAt.
  by rewrite Hg.
Qed.

Lemma GetStateAt_live a k s : keyed s -> sd_snap s = None ->
  (GetStateAt a k s).1 = match live (view s a) with Some o => current s o k | None => zeroHash end.
Proof.
  intros Hk Hs. destruct (getStateObject_spec a s Hk) as (s' & Hg & He & _). unfold GetStateAt. rewrite Hg. destruct (live (view s a)) as [o|]; [|done].
  pose proof (objGetState_spec s' o k) as [E _]. destruct (objGetState s' o k) as [v o']. cbn in *. rewrite E. unfold current.
  rewrite (committed_ctx s' s); [done|by rewrite (eq_snap _ _ He)|by rewrite (eq_destructs _ _ He)].
Qed.

Lemma keyed_New trie : keyed (New trie None).
Proof. split; cbn; [done|]. intros a. cbn. set_solver. Qed.
Lemma view_New trie a : view (New trie None) a = newObject a <$> trie !! a.
Proof. unfold view, readAccount. cbn. by rewrite lookup_empty. Qed.

(** Two accounts that differ at most in their storage root. *)
Lemma readsOf_root o o' : so_account o' = so_account o \/ so_account o' = so_account (withRoot o) -> readsOf (Some o') = readsOf (Some o).
Proof.
  unfold readsOf, empty_, CodeHash. intros [->| ->]; [done|]. unfold withRoot. destruct (so_account o) eqn:E; cbn; by rewrite ?E.
Qed.

(** A state without pending changes: a state opened on its trie reads the same. *)
Lemma trie_reads s a : tracked s -> (forall b, dirties s !! b = None) -> marks s = ∅ ->
  reads a (New (sd_trie s) None) = reads a s /\
  forall k, (match live (view s a) with Some o => isProgram (so_account o) = true | None => True end) ->
    (GetStateAt a k (New (sd_trie s) None)).1 = (GetStateAt a k s).1.
Proof.
  intros [Hs Hm Hk Hob Hch Hcl Hmk] Hd Hma. rewrite !reads_live by (done || apply keyed_New).
  setoid_rewrite GetStateAt_live; try done; try apply keyed_New. rewrite view_New. unfold view.
  destruct (sd_stateObjects s !! a) as [o|] eqn:Ho.
  2:{ unfold readAccount. rewrite Hs. destruct (sd_trie s !! a) as [acc|]; [|done]. split; [done|]. intros k _. cbn. unfold current, committed, fresh. by rewrite Hs. }
  destruct (Hcl a o Ho (Hd a) ltac:(set_solver)) as [C1 C2 C3 C4 C5 C6]. rewrite C1. unfold entry, live. cbn.
  destruct (so_deleted o) eqn:Hde; [done|]. cbn. split; [by apply readsOf_root; left|]. intros k Hp. rewrite (current_slot s o k), C4 by (done || by apply (Hob a)).
  unfold current, committed, fresh. cbn. rewrite !lookup_empty. cbn. rewrite (C5 eq_refl); [done|set_solver|done].
Qed.

(** The object at [a] is deleted when the state is finalised. *)
Definition deleted_by (s : StateDB) (a : Address) : Prop :=
  exists o, sd_stateObjects s !! a = Some o /\ is_Some (dirties s !! a) /\ doomed true o = true.

(** A finalised object has the account and the slots it had. *)
Lemma finalised_object now s s' a o : tracked s -> finalised now s s' -> ~ deleted_by s a -> sd_stateObjects s !! a = Some o ->
  exists o', sd_stateObjects s' !! a = Some o' /\ so_deleted o' = so_deleted o /\
    (so_account o' = so_account o \/ so_account o' = so_account (withRoot (flushed o)) \/ so_account o' = so_account (withRoot o)) /\
    forall k, slot o' k = slot o k.
Proof.
  intros [Hs Hm Hk Hob Hch Hcl Hmk] Hf Hn Ho. destruct (dirties s !! a) as [n|] eqn:Hc.
  - assert (is_Some (dirties s !! a)) as Hi by done. destruct (fi_changed _ _ _ Hf a o Ho Hi) as (E & _).
    assert (doomed true o = false) as Hd by (destruct (doomed true o) eqn:?; [|done]; destruct Hn; by exists o).
    rewrite outcome_kept in E by done. eexists. split; [done|]. destruct (kept_frame now o) as (_ & Kd & _ & _ & _ & Ka). objfields.
    split; [done|]. split; [|intros k; by apply (kept_ok now o (Hob a o Ho))]. destruct now; [right; by left|left; by apply Ka].
  - destruct (decide (now = true /\ a ∈ marks s)) as [[Hnow Hma]|Hnow].
    + destruct (fi_rooted _ _ _ Hf a o Ho Hc Hnow Hma) as (E & _). destruct (Hmk a Hma) as (o1 & Ho1 & _ & Ht1). rewrite Ho in Ho1. injection Ho1 as <-.
      exists (withRoot o). split; [done|]. split; [by rewrite (proj1 (proj2 (proj2 (withRoot_frame o))))|]. split; [by right; right|].
      intros k. by apply slot_withRoot.
    + assert (now = false \/ a ∉ marks s) as Hn' by (destruct now; [right|by left]; naive_solver).
      destruct (fi_same _ _ _ Hf a (or_intror (conj Hc Hn'))) as (E & _). exists o. split; [by rewrite E|]. split; [done|]. split; [by left|done].
Qed.

Lemma finalised_reads now s s' a : tracked s -> roots_survive s -> finalised now s s' ->
  (deleted_by s a -> reads a s' = readsOf None) /\
  (~ deleted_by s a -> reads a s' = reads a s /\ forall k, (GetStateAt a k s').1 = (GetStateAt a k s).1).
Proof using reopen.
  intros Ht Hr Hf. pose proof (finalised_tracked now s s' Ht Hr Hf) as Ht'. rewrite !reads_live by apply Ht || apply Ht'. split.
  - intros (o & Ho & Hi & Hd). destruct (fi_changed _ _ _ Hf a o Ho Hi) as (E & _). unfold view. rewrite E. unfold outcome. by rewrite Hd.
  - intros Hn. setoid_rewrite GetStateAt_live; try apply Ht; try apply Ht'. unfold view. destruct (sd_stateObjects s !! a) as [o|] eqn:Ho.
    + destruct (finalised_object now s s' a o Ht Hf Hn Ho) as (o' & E & Hde & Hacc & Hsl). rewrite E. unfold live. cbn. rewrite Hde.
      destruct (so_deleted o); [done|]. destruct (flushed_frame o) as (_ & Fc & _). split.
      * destruct Hacc as [Hacc|[Hacc|Hacc]]; [by apply readsOf_root; left| |by apply readsOf_root; right].
        rewrite <- (readsOf_root o (flushed o)) by (by left). by apply readsOf_root; right.
      * intros k. rewrite !current_slot; [done|apply Ht|by apply (tk_object _ _ Ht a)|apply Ht'|by apply (tk_object _ _ Ht' a)].
    + destruct (fi_same _ _ _ Hf a (or_introl Ho)) as (E & E2 & _). rewrite E, Ho. unfold readAccount. rewrite (tk_snap _ _ Ht), (tk_snap _ _ Ht'), E2.
      split; [done|]. intros k. destruct (sd_trie s !! a); [|done]. cbn. unfold current, committed, fresh. by rewrite (tk_snap _ _ Ht), (tk_snap _ _ Ht').
Qed.

(** ** What a transaction does *)

Lemma clean_ctx s t a o : sd_trie t = sd_trie s -> sd_stateObjectsDirty t = sd_stateObjectsDirty s -> marks t = marks s -> clean s a o -> clean t a o.
Proof. intros E1 E2 E3 []. split; by rewrite ?E1, ?E2, ?E3. Qed.

(** A changed journal. *)
Lemma tracked_journal X Y s j : tracked_but X s -> (forall b, is_Some (dirties s !! b) -> is_Some (j_dirties j !! b)) ->
  (forall b, b ∈ X -> b ∉ Y -> is_Some (j_dirties j !! b)) ->
  (forall b o, sd_stateObjects s !! b = Some o -> is_Some (j_dirties j !! b) -> so_deleted o = false) -> tracked_but Y (setJournal j s).
Proof.
  intros [Hs Hm Hk Hob Hch Hcl Hmk] Hj HX Hd. split; try done.
  - eapply keyed_same; [| |exact Hk]; done.
  - intros a o Ho Hn HY. change (j_dirties j !! a = None) in Hn. apply (clean_ctx s); try done. apply Hcl; [done| |].
    + destruct (dirties s !! a) eqn:E; [|done]. destruct (Hj a); [done|congruence].
    + intros Hx. destruct (HX a Hx HY). congruence.
Qed.

Lemma append_dirties e j b : is_Some (j_dirties (append e j) !! b) <-> is_Some (j_dirties j !! b) \/ dirtied e = Some b.
Proof.
  unfold append. destruct (dirtied e) as [a|]; [|cbn; naive_solver]. cbn. destruct (decide (b = a)) as [->|Hne].
  - rewrite lookup_insert_eq. naive_solver.
  - rewrite lookup_insert_ne by done. naive_solver.
Qed.

Lemma tracked_append X s e : tracked_but X s ->
  (forall a o, dirtied e = Some a -> sd_stateObjects s !! a = Some o -> so_deleted o = false) ->
  tracked_but (match dirtied e with Some a => X ∖ {[a]} | None => X end) (journalAppend e s).
Proof.
  intros Ht Hd. unfold journalAppend. eapply tracked_journal; [exact Ht| | |]; intros b.
  - rewrite append_dirties. by left.
  - intros HX HY. rewrite append_dirties. right. destruct (dirtied e) as [a|]; [|done]. f_equal. destruct (decide (b = a)); [done|set_solver].
  - intros o Ho [Hi|Hi]%append_dirties; [by apply (tk_changed _ _ Ht b)|by apply (Hd b)].
Qed.

(** A changed object. *)
Lemma tracked_put X Y s o : tracked_but X s -> X ⊆ {[so_address o]} ∪ Y -> storage_ok o ->
  (is_Some (dirties s !! so_address o) -> so_deleted o = false) ->
  (dirties s !! so_address o = None -> so_address o ∉ Y -> clean s (so_address o) o) ->
  (so_address o ∈ marks s -> so_deleted o = false /\ is_Some (so_storageTrie o)) -> tracked_but Y (setStateObject o s).
Proof.
  intros [Hs Hm Hk Hob Hch Hcl Hmk] HX Hok Hd Hc Hma. split; try done.
  - by apply keyed_put.
  - intros b o'. fields. destruct (decide (b = so_address o)) as [->|Hne]; [rewrite lookup_insert_eq; by intros [= <-]|].
    rewrite lookup_insert_ne by done. apply Hob.
  - intros b o'. fields. destruct (decide (b = so_address o)) as [->|Hne]; [rewrite lookup_insert_eq; by intros [= <-]|].
    rewrite lookup_insert_ne by done. apply Hch.
  - intros b o'. fields. intros Ho' Hn HY. apply (clean_ctx s); try done.
    destruct (decide (b = so_address o)) as [->|Hne]; [rewrite lookup_insert_eq in Ho'; injection Ho' as <-; by apply Hc|].
    rewrite lookup_insert_ne in Ho' by done. apply Hcl; [done|done|set_solver].
  - intros b Hb. fields. destruct (decide (b = so_address o)) as [->|Hne]; [|rewrite lookup_insert_ne by done; by apply Hmk].
    rewrite lookup_insert_eq. exists o. split; [done|]. by apply Hma.
Qed.

(** A journalled change of the object at [a]. *)
Lemma tracked_change s e o o' a : tracked_but {[a]} s -> sd_stateObjects s !! a = Some o -> so_deleted o = false -> dirtied e = Some a ->
  so_address o' = a -> so_deleted o' = false -> storage_ok o' -> (is_Some (so_storageTrie o) -> is_Some (so_storageTrie o')) ->
  tracked (setStateObject o' (journalAppend e s)).
Proof.
  intros Ht Ho Hd He Ha Hd' Hok Htr. pose proof (tracked_append _ s e Ht) as Hap. rewrite He in Hap. apply (tracked_put ∅); try done.
  - replace ∅ with ({[a]} ∖ {[a]} : gset Address) by set_solver. apply Hap. intros a' o'' [= <-] ?. congruence.
  - rewrite Ha. intros Hn. exfalso. assert (is_Some (dirties (journalAppend e s) !! a)) as [? Hx] by (apply append_dirties; by right). congruence.
  - rewrite Ha. intros Hma. split; [done|]. destruct (tk_marks _ _ Ht a Hma) as (o1 & Ho1 & _ & Ht1). rewrite Ho in Ho1. injection Ho1 as <-. by apply Htr.
Qed.

(** A cache that is filled. *)
Record cached (o o' : stateObject) : Prop := {
  ca_address : so_address o' = so_address o;
  ca_account : so_account o' = so_account o;
  ca_destructed : so_selfDestructed o' = so_selfDestructed o;
  ca_deleted : so_deleted o' = so_deleted o;
  ca_dirty : so_dirtyStorage o' = so_dirtyStorage o;
  ca_trie : openedTrie o' = openedTrie o;
  ca_some : is_Some (so_storageTrie o) -> is_Some (so_storageTrie o')
}.

Lemma clean_cached s a o o' : cached o o' -> clean s a o -> clean s a o'.
Proof.
  intros [A1 A2 A3 A4 A5 A6 A7] [C1 C2 C3 C4 C5 C6]. split; rewrite ?A4.
  - by rewrite C1; unfold entry; rewrite A4, A2.
  - unfold doomed, empty_. rewrite A2, A3. exact C2.
  - by rewrite A3.
  - intros Hd k. unfold slot. rewrite A5, A6. by apply C4.
  - rewrite A2, A6. exact C5.
  - unfold empty_. rewrite A2. intros Hd Hdi. destruct (C6 Hd Hdi) as [E1 E2]. split; [done|]. intros Hn. specialize (E2 Hn).
    unfold withRoot in *. rewrite A2, A6. destruct (isProgram (so_account o)) eqn:Hp; [exact E2|done].
Qed.

Lemma tracked_cache X s a o o' : tracked_but X s -> sd_stateObjects s !! a = Some o -> cached o o' -> storage_ok o' ->
  tracked_but X (setStateObject o' s) /\ sd_stateObjects (setStateObject o' s) !! a = Some o'.
Proof.
  intros Ht Ho Hc Hok. pose proof (ky_address s (tk_keyed _ _ Ht) _ _ Ho) as Ha. assert (so_address o' = a) as Ha' by (rewrite <- Ha; apply Hc).
  split; [|fields; by rewrite Ha', lookup_insert_eq]. apply (tracked_put X); try done; rewrite ?Ha'.
  - set_solver.
  - rewrite (ca_deleted _ _ Hc). by apply (tk_changed _ _ Ht).
  - intros Hn HX. apply (clean_cached s a o); [done|]. by apply (tk_clean _ _ Ht).
  - intros Hma. destruct (tk_marks _ _ Ht a Hma) as (o1 & Ho1 & Hd1 & Ht1). rewrite Ho in Ho1. injection Ho1 as <-.
    rewrite (ca_deleted _ _ Hc). split; [done|by apply Hc].
Qed.

Lemma tracked_weaken X Y s : X ⊆ Y -> tracked_but X s -> tracked_but Y s.
Proof. intros HX []. split; try done. intros a o Ho Hn HY. apply tk_clean0; [done..|]. intros ?. by apply HY, HX. Qed.

Lemma newObject_ok a acc : storage_ok (newObject a acc).
Proof. by split. Qed.

(** Loading an object. *)
Lemma tracked_load X a s : tracked_but X s -> exists s', getStateObject a s = (live (view s a), s') /\
  getDeletedStateObject a s = (view s a, s') /\ tracked_but X s' /\
  sd_stateObjects s' !! a = view s a /\ dirties s' = dirties s /\ view s' a = view s a.
Proof.
  intros Ht. pose proof (tk_keyed _ _ Ht) as Hk. destruct (getDeleted_spec a s Hk) as (s' & Hg & He & Hk' & Hm & Hl). exists s'.
  split; [unfold getStateObject, live; rewrite Hg; by destruct (view s a)|]. split; [done|]. split_and!; try done.
  - revert Hg. unfold getDeletedStateObject, view. destruct (sd_stateObjects s !! a) as [o|] eqn:Ho; [by intros [= <-]|].
    unfold readAccount. rewrite (tk_snap _ _ Ht). destruct (sd_trie s !! a) as [acc|] eqn:Htr; [|by intros [= <-]]. intros [= <-].
    assert (a ∉ sd_stateObjectsDirty s) as Hnd by (intros Hx; destruct (ky_dirty s Hk a Hx); congruence).
    apply (tracked_put X); objfields; try done.
    + set_solver.
    + intros Hma. destruct (tk_marks _ _ Ht a Hma) as (? & ? & _). congruence.
  - unfold dirties. unfold meta in Hm. by injection Hm as -> _ _.
  - unfold view at 1. rewrite Hl. destruct (view s a) eqn:Hv; [done|]. unfold view in Hv. destruct (sd_stateObjects s !! a); [done|].
    destruct (readAccount s a) eqn:Hr; [done|]. rewrite (readAccount_same s' s), Hr; [done|apply He|apply He].
Qed.

(** An object that exists and is not deleted. *)
Lemma live_object X a s o : tracked_but X s -> live (view s a) = Some o -> exists s', getStateObject a s = (Some o, s') /\
  tracked_but X s' /\ sd_stateObjects s' !! a = Some o /\ so_deleted o = false /\ storage_ok o /\ so_address o = a.
Proof.
  intros Ht Hl. destruct (tracked_load X a s Ht) as (s' & Hg & _ & Ht' & Ho & _). rewrite Hl in Hg.
  apply live_inv in Hl as [Hv Hd]. rewrite Hv in Ho. exists s'. split_and!; try done.
  - by apply (tk_object _ _ Ht' a).
  - by apply (ky_address _ (tk_keyed _ _ Ht')).
Qed.

(** A new object at an address that has none. *)
Lemma tracked_create a acc s : tracked s -> live (view s a) = None -> exists o s', createObjectWith a acc s = (o, None, s') /\
  tracked_but {[a]} s' /\ (view s a = None -> tracked s') /\ sd_stateObjects s' !! a = Some o /\ so_deleted o = false /\ so_address o = a /\
  storage_ok o /\ so_account o = SetNonce acc 0.
Proof.
  intros Ht Hl. destruct (tracked_load ∅ a s Ht) as (s1 & _ & Hg & Ht1 & Ho1 & Hd1 & Hv1). unfold createObjectWith. rewrite Hg.
  rewrite (tk_snap _ _ Ht1). cbv zeta. set (n := withFlags _ _ true _).
  replace (match view s a with Some p => if so_deleted p then None else Some p | None => None end) with (live (view s a)) by (by destruct (view s a)).
  rewrite Hl. do 2 eexists. split; [reflexivity|].
  assert (Hma : a ∈ marks s1 -> False).
  { intros Hma. destruct (tk_marks _ _ Ht1 a Hma) as (o & Ho & Hd & _). rewrite Ho1 in Ho. rewrite Ho in Hl. cbn in Hl. by rewrite Hd in Hl. }
  assert (Hput : forall Y e, tracked_but Y (journalAppend e s1) -> (a ∈ Y \/ is_Some (dirties (journalAppend e s1) !! a)) ->
    tracked_but Y (setStateObject n (journalAppend e s1))).
  { intros Y e Hj Hor. apply (tracked_put Y); try done.
    - set_solver.
    - intros Hn HY. change (dirties (journalAppend e s1) !! a = None) in Hn. destruct Hor as [?|[? ?]]; [done|congruence]. }
  assert (Hap : forall p q, tracked_but {[a]} (journalAppend (resetObjectChange p q) s1)).
  { intros p q. pose proof (tracked_append ∅ s1 (resetObjectChange p q) Ht1) as H. apply (tracked_weaken ∅); [set_solver|]. by apply H. }
  split_and!; try done; [| |fields; by rewrite lookup_insert_eq].
  - destruct (view s a) as [p|] eqn:Hv.
    + apply Hput; [apply Hap|left; set_solver].
    + apply (tracked_weaken ∅); [set_solver|]. apply Hput; [|right; apply append_dirties; by right].
      replace ∅ with (∅ ∖ {[a]} : gset Address) by set_solver. apply (tracked_append ∅ s1 (createObjectChange a) Ht1). intros b o [= <-] Ho. congruence.
  - intros Hv. rewrite Hv. apply Hput; [|right; apply append_dirties; by right].
    replace ∅ with (∅ ∖ {[a]} : gset Address) by set_solver. apply (tracked_append ∅ s1 (createObjectChange a) Ht1). intros b o [= <-] Ho. congruence.
Qed.

(** The object of an address, made if needed. *)
Lemma tracked_getOrNew a acc s : tracked s -> exists o s',
  (let '(o, s) := getStateObject a s in
   match o with
   | Some o => (o, s)
   | None => let '(o, _, s) := createObjectWith a acc s in (o, s)
   end) = (o, s') /\
  tracked_but {[a]} s' /\ ((forall p, view s a = Some p -> so_deleted p = false) -> tracked s') /\
  sd_stateObjects s' !! a = Some o /\ so_deleted o = false /\ so_address o = a /\ storage_ok o /\
  (tracked s' \/ so_account o = SetNonce acc 0).
Proof.
  intros Ht. destruct (live (view s a)) as [o|] eqn:Hl.
  - destruct (live_object ∅ a s o Ht Hl) as (s' & -> & Ht' & Ho & Hd & Hok & Ha). exists o, s'. split_and!; try done; [|by left].
    apply (tracked_weaken ∅); [set_solver|done].
  - destruct (tracked_load ∅ a s Ht) as (s1 & -> & _ & Ht1 & Ho1 & Hd1 & Hv1). rewrite Hl.
    destruct (tracked_create a acc s1 Ht1) as (o & s' & -> & H1 & H2 & H3 & H4 & H5 & H6 & H7); [by rewrite Hv1|].
    exists o, s'. split_and!; try done; [|by right]. intros Hnd. apply H2. rewrite Hv1. destruct (view s a) as [p|] eqn:Hv; [|done].
    cbn in Hl. by rewrite (Hnd p eq_refl) in Hl.
Qed.

Lemma cached_refl o : cached o o.
Proof. by split. Qed.

Lemma committed_cached s o k : sd_snap s = None -> storage_ok o ->
  let o' := (objGetCommittedState s o k).2 in cached o o' /\ storage_ok o' /\ is_Some (so_originStorage o' !! k).
Proof.
  intros Hs [H1 H2]. unfold objGetCommittedState. destruct (so_originStorage o !! k) eqn:E; [by split_and!|]. rewrite Hs. cbn.
  split_and!; [|split|].
  - by split.
  - intros k' v'. objfields. destruct (decide (k' = k)) as [->|]; [rewrite lookup_insert_eq; by intros [= <-]|rewrite lookup_insert_ne by done; apply H1].
  - intros k' v'. objfields. intros Hd. destruct (H2 k' v' Hd) as [Hs' Hh]. split; [|done].
    destruct (decide (k' = k)) as [->|]; [by rewrite lookup_insert_eq|by rewrite lookup_insert_ne].
  - objfields. by rewrite lookup_insert_eq.
Qed.

Lemma state_cached s o k : sd_snap s = None -> storage_ok o ->
  let o' := (objGetState s o k).2 in cached o o' /\ storage_ok o' /\ is_Some (so_originStorage o' !! k).
Proof.
  intros Hs Hok. unfold objGetState. destruct (so_dirtyStorage o !! k) eqn:E; [|by apply committed_cached].
  cbn. split_and!; [apply cached_refl|done|]. by apply (so_cached _ Hok k) in E as [? _].
Qed.

Lemma code_cached o : storage_ok o -> cached o (Code o).2 /\ storage_ok (Code o).2.
Proof. intros Hok. unfold Code. destruct (so_code o); [done|]. destruct (bool_decide _); [done|]. split; [done|by apply (storage_ok_same o)]. Qed.

Lemma storage_ok_set k v o : storage_ok o -> is_Some (so_originStorage o !! k) -> is_hash v -> storage_ok (setState k v o).
Proof.
  intros [H1 H2] Hk Hv. split; objfields; [exact H1|]. intros k' v'.
  destruct (decide (k' = k)) as [->|]; [rewrite lookup_insert_eq; by intros [= <-]|rewrite lookup_insert_ne by done; apply H2].
Qed.

(** A change of the account that keeps its storage. *)
Lemma account_ok o acc : program acc = program (so_account o) -> storage_ok o -> storage_ok (withAccount acc o).
Proof. intros Hp. apply storage_ok_same; [by apply openedTrie_program|done..]. Qed.

(** Setters of the object at [a]. *)
Lemma objSetBalance_tracked a s o b : tracked_but {[a]} s -> sd_stateObjects s !! a = Some o -> so_deleted o = false -> so_address o = a ->
  storage_ok o -> tracked (objSetBalance b o s).
Proof.
  intros Ht Ho Hd Ha Hok. unfold objSetBalance. apply (tracked_change s _ o _ a); try done; [by cbn; f_equal|].
  apply account_ok; [apply program_SetBalance|done].
Qed.
Lemma objSetNonce_tracked a s o n : tracked_but {[a]} s -> sd_stateObjects s !! a = Some o -> so_deleted o = false -> so_address o = a ->
  storage_ok o -> tracked (objSetNonce n o s).
Proof.
  intros Ht Ho Hd Ha Hok. unfold objSetNonce. apply (tracked_change s _ o _ a); try done; [by cbn; f_equal|].
  apply account_ok; [apply program_SetNonce|done].
Qed.

Lemma touch_tracked a s o : tracked_but {[a]} s -> sd_stateObjects s !! a = Some o -> so_deleted o = false -> so_address o = a -> tracked (touch o s).
Proof.
  intros Ht Ho Hd Ha. unfold touch. rewrite Ha.
  assert (tracked (journalAppend (touchChange a) s)) as Ht1.
  { pose proof (tracked_append _ s (touchChange a) Ht) as H. cbn [dirtied] in H. unfold tracked.
    replace ∅ with ({[a]} ∖ {[a]} : gset Address) by set_solver. apply H. intros b o' [= <-] ?. congruence. }
  case_bool_decide; [|done]. eapply tracked_journal; [exact Ht1| | |].
  - intros b Hb. unfold dirtyAddr. cbn [j_dirties]. destruct (decide (b = a)) as [->|]; [by rewrite lookup_insert_eq|by rewrite lookup_insert_ne].
  - set_solver.
  - intros b o' Ho' Hb. change (sd_stateObjects s !! b = Some o') in Ho'. destruct (decide (b = a)) as [->|Hne]; [congruence|].
    unfold dirtyAddr in Hb. cbn [j_dirties] in Hb. rewrite lookup_insert_ne in Hb by done. by apply (tk_changed _ _ Ht1 b).
Qed.

(** The changes that leave accounts alone. *)
Lemma tracked_other s s' : tracked s -> core s' = core s -> sd_stateObjectsDirty s' = sd_stateObjectsDirty s ->
  sd_stateObjectsDirtyStorage s' = sd_stateObjectsDirtyStorage s -> dirties s' = dirties s -> tracked s'.
Proof.
  unfold core. intros [Hs Hm Hk Hob Hch Hcl Hmk] [= E1 E2 E3 E4] E5 E6 E7. assert (marks s' = marks s) as E8 by (unfold marks; by rewrite E6).
  split; rewrite ?E1, ?E2, ?E3, ?E4, ?E5, ?E6, ?E7, ?E8; try done.
  - by apply (keyed_same s).
  - intros a o Ho Hn HX. apply (clean_ctx s); try done. by apply Hcl.
Qed.

(** The commands that keep the trie recoverable: an account is created where there is none, a
    slot is given a hash, and an account that was deleted comes back by a change that is
    journalled. *)
Definition quiet (c : cmd) (s : StateDB) : Prop :=
  match c with
  | CCreateAccount a | CCreateEOA a _ _ | CCreateSmartContract a _ _ _ _ _ => view s a = None
  | CSubBalance a _ => forall o, view s a = Some o -> so_deleted o = false
  | CSetState a _ v => (forall o, view s a = Some o -> so_deleted o = false) /\ is_hash v
  | _ => True
  end.

Lemma SetCode_tracked a c s : tracked s -> tracked (SetCode a c s).2.
Proof.
  intros Ht. unfold SetCode, GetOrNewSmartContract, createObjectWithMap.
  edestruct (tracked_getOrNew a) as (o & s1 & -> & H1 & H2 & H3 & H4 & H5 & H6 & _); [exact Ht|].
  pose proof (code_cached o H6) as [Hc Hk]. destruct (Code o) as [prev o']. cbn [snd] in *.
  pose proof (ca_address _ _ Hc) as Ha. pose proof (ca_deleted _ _ Hc) as Hd. pose proof (ca_some _ _ Hc) as Hs.
  apply (tracked_change s1 _ o _ a); try done; try (cbn [dirtied]; congruence); unfold setCode; destruct (isProgram (so_account o')) eqn:Hp;
    objfields; try congruence; try done.
  apply (storage_ok_same o'); try done. unfold openedTrie. objfields. by destruct (so_storageTrie o'), (so_account o').
Qed.

Lemma SetState_tracked a k v s : tracked s -> quiet (CSetState a k v) s -> tracked (SetState a k v s).
Proof.
  intros Ht [Hnd Hv]. unfold SetState, GetOrNewSmartContract, createObjectWithMap.
  edestruct (tracked_getOrNew a) as (o & s1 & -> & H1 & H2 & H3 & H4 & H5 & H6 & _); [exact Ht|]. specialize (H2 Hnd).
  pose proof (state_cached s1 o k (tk_snap _ _ H1) H6) as (Hc & Hk & Hor). destruct (objGetState s1 o k) as [prev o']. cbn [snd] in *.
  case_bool_decide; [by apply (tracked_cache ∅ s1 a o o')|].
  apply (tracked_change s1 _ o _ a); try done; objfields.
  - cbn [dirtied]. f_equal. by rewrite (ca_address _ _ Hc).
  - by rewrite (ca_address _ _ Hc).
  - by rewrite (ca_deleted _ _ Hc).
  - by apply storage_ok_set.
  - apply Hc.
Qed.

Lemma SelfDestruct_tracked a s : tracked s -> tracked (SelfDestruct a s).
Proof.
  intros Ht. unfold SelfDestruct. destruct (live (view s a)) as [o|] eqn:Hl.
  - destruct (live_object ∅ a s o Ht Hl) as (s1 & -> & H1 & H2 & H3 & H4 & H5). apply (tracked_weaken ∅ {[a]}) in H1; [|set_solver].
    apply (tracked_change s1 _ o _ a); try done. apply (account_ok (withFlags true (so_deleted o) (so_created o) o)); [apply program_SetBalance|].
    by apply (storage_ok_same o).
  - destruct (tracked_load ∅ a s Ht) as (s1 & -> & _ & H1 & _). by rewrite Hl.
Qed.

Lemma carryBalance_tracked a acc s : tracked s -> view s a = None -> tracked (carryBalance (createObjectWith a acc s)).
Proof.
  intros Ht Hv. destruct (tracked_create a acc s Ht) as (o & s' & -> & _ & H & _); [by rewrite Hv|]. by apply H.
Qed.

Lemma getter_tracked {A} a (f : StateDB -> stateObject -> A * stateObject) (d : A) s : tracked s ->
  (forall s o, sd_snap s = None -> storage_ok o -> cached o (f s o).2 /\ storage_ok (f s o).2) ->
  tracked (let '(o, s) := getStateObject a s in
           match o with Some o => let '(v, o) := f s o in (v, setStateObject o s) | None => (d, s) end).2.
Proof.
  intros Ht Hf. destruct (live (view s a)) as [o|] eqn:Hl.
  - destruct (live_object ∅ a s o Ht Hl) as (s1 & -> & H1 & H2 & H3 & H4 & H5). destruct (Hf s1 o (tk_snap _ _ H1) H4) as [Hc Hk].
    destruct (f s1 o) as [v o']. by apply (tracked_cache ∅ s1 a o o').
  - destruct (tracked_load ∅ a s Ht) as (s1 & -> & _ & H1 & _). by rewrite Hl.
Qed.

Lemma run_tracked c s s' : quiet c s -> tracked s -> run c s = Ok s' -> tracked s'.
Proof.
  intros Hq Ht. destruct c; cbn [run] in *; intros H; try (injection H as <-).
  - unfold AddBalance, GetOrNewStateObject, createObject.
    destruct (tracked_getOrNew a newExternallyOwnedAccount s Ht) as (o & s1 & -> & H1 & H2 & H3 & H4 & H5 & H6 & H7).
    case_tests; [by apply (touch_tracked a)| |by apply (objSetBalance_tracked a)]. destruct H7 as [?|E]; [done|].
    exfalso. unfold empty_ in *. rewrite E in *. done.
  - unfold SubBalance, GetOrNewStateObject, createObject.
    destruct (tracked_getOrNew a newExternallyOwnedAccount s Ht) as (o & s1 & -> & H1 & H2 & H3 & H4 & H5 & H6 & H7).
    case_tests; [by apply H2|by apply (objSetBalance_tracked a)].
  - unfold SetBalanceAt, GetOrNewStateObject, createObject.
    destruct (tracked_getOrNew a newExternallyOwnedAccount s Ht) as (o & s1 & -> & H1 & H2 & H3 & H4 & H5 & H6 & H7). by apply (objSetBalance_tracked a).
  - unfold IncNonce, GetOrNewStateObject, createObject.
    destruct (tracked_getOrNew a newExternallyOwnedAccount s Ht) as (o & s1 & -> & H1 & H2 & H3 & H4 & H5 & H6 & H7). by apply (objSetNonce_tracked a).
  - unfold SetNonceAt, GetOrNewStateObject, createObject.
    destruct (tracked_getOrNew a newExternallyOwnedAccount s Ht) as (o & s1 & -> & H1 & H2 & H3 & H4 & H5 & H6 & H7). by apply (objSetNonce_tracked a).
  - by apply SetCode_tracked.
  - by apply SetState_tracked.
  - by apply SelfDestruct_tracked.
  - unfold SelfDestruct6780. destruct (tracked_load ∅ a s Ht) as (s1 & -> & _ & H1 & _). destruct (live (view s a)) as [o|]; [|done].
    destruct (so_created o); [by apply SelfDestruct_tracked|done].
  - unfold SetTransientState. case_bool_decide; [done|]. by apply (tracked_other s).
  - by apply carryBalance_tracked.
  - by apply carryBalance_tracked.
  - by apply carryBalance_tracked.
  - by apply (tracked_other s).
  - unfold AddPreimage. destruct (sd_preimages s !! hash); [done|]. by apply (tracked_other s).
  - by apply (tracked_other s).
  - unfold SubRefund in H. destruct (_ <? _); [done|]. injection H as <-. by apply (tracked_other s).
  - unfold AddAddressToAccessList. destruct (AddAddress _ _) as [[] al]; by apply (tracked_other s).
  - unfold AddSlotToAccessList in H. apply bind_ok in H as ([[[] []] al] & _ & H); injection H as <-; by apply (tracked_other s).
  - destruct (tracked_load ∅ a s Ht) as (s1 & -> & _ & H1 & _). done.
  - apply (getter_tracked a (fun _ => Code)); [done|]. intros s0 o _. apply code_cached.
  - apply (getter_tracked a (fun s o => objGetState s o key)); [done|]. intros s0 o Hs Hok. by destruct (state_cached s0 o key Hs Hok) as (? & ? & _).
  - apply (getter_tracked a (fun s o => objGetCommittedState s o key)); [done|]. intros s0 o Hs Hok. by destruct (committed_cached s0 o key Hs Hok) as (? & ? & _).
Qed.

(** ** Blocks of transactions *)

(** The states reached from a trie by commands and by the ends of transactions. *)
Inductive reach (trie : gmap Address Account) : StateDB -> Prop :=
| reach_new : reach trie (New trie None)
| reach_run c s s' : reach trie s -> quiet c s -> run c s = Ok s' -> reach trie s'
| reach_end now s s' : reach trie s -> roots_survive s -> Finalise true now s = Ok s' -> reach trie s'.

Lemma tracked_New trie : tracked (New trie None).
Proof. by split. Qed.

Lemma Finalise_finalised now s : tracked s -> roots_survive s -> exists s', Finalise true now s = Ok s' /\ finalised now s s'.
Proof. intros Ht Hr. destruct now; [by apply Finalise_roots|by apply Finalise_later]. Qed.

Lemma reach_tracked trie s : reach trie s -> tracked s.
Proof using reopen.
  induction 1 as [|c s s' _ IH Hq Hr|now s s' _ IH Hr Hf].
  - apply tracked_New.
  - by apply (run_tracked c s).
  - destruct (Finalise_finalised now s IH Hr) as (s1 & E & Hfi). rewrite Hf in E. injection E as <-. by apply (finalised_tracked now s).
Qed.

Lemma finalised_settled s s' : finalised true s s' -> (forall b, dirties s' !! b = None) /\ marks s' = ∅.
Proof.
  intros Hf. split; [intros b; unfold dirties; by rewrite (proj1 (fi_cleared _ _ _ Hf))|].
  apply set_eq. intros a. split; [|set_solver]. intros Ha. exfalso. destruct (sd_stateObjects s !! a) as [o|] eqn:Ho.
  2:{ destruct (fi_same _ _ _ Hf a (or_introl Ho)) as (_ & _ & _ & Hx). by destruct (proj1 Hx Ha). }
  destruct (dirties s !! a) as [n|] eqn:Hc.
  { assert (is_Some (dirties s !! a)) as Hi by done. destruct (fi_changed _ _ _ Hf a o Ho Hi) as (_ & _ & _ & Hx). by destruct (proj1 Hx Ha). }
  destruct (decide (a ∈ marks s)) as [Hma|Hma].
  - by destruct (fi_rooted _ _ _ Hf a o Ho Hc eq_refl Hma) as (_ & _ & _ & ?).
  - destruct (fi_same _ _ _ Hf a (or_intror (conj Hc (or_intror Hma)))) as (_ & _ & _ & Hx). by destruct (proj1 Hx Ha).
Qed.

Lemma IsProgramAccount_live a s : keyed s -> (IsProgramAccount a s).1 = match live (view s a) with Some o => isProgram (so_account o) | None => false end.
Proof. intros Hk. destruct (getStateObject_spec a s Hk) as (s' & Hg & _). unfold IsProgramAccount. by rewrite Hg. Qed.

Lemma finalised_program now s s' a : tracked s -> tracked s' -> finalised now s s' -> ~ deleted_by s a ->
  (IsProgramAccount a s').1 = (IsProgramAccount a s).1.
Proof.
  intros Ht Ht' Hf Hn. rewrite !IsProgramAccount_live by (apply Ht || apply Ht'). unfold view. destruct (sd_stateObjects s !! a) as [o|] eqn:Ho.
  - destruct (finalised_object now s s' a o Ht Hf Hn Ho) as (o' & E & Hde & Hacc & _). rewrite E. unfold live. cbn. rewrite Hde.
    destruct (so_deleted o); [done|]. destruct (flushed_frame o) as (_ & Fc & _).
    destruct (withRoot_frame o) as (_ & _ & _ & _ & _ & _ & _ & P1). destruct (withRoot_frame (flushed o)) as (_ & _ & _ & _ & _ & _ & _ & P2).
    destruct Hacc as [->|[->| ->]]; congruence.
  - destruct (fi_same _ _ _ Hf a (or_introl Ho)) as (E & E2 & _). rewrite E, Ho. unfold readAccount. by rewrite (tk_snap _ _ Ht), (tk_snap _ _ Ht'), E2.
Qed.


(** ** Commit *)

(** Slots that hold what the trie holds are not written. *)
Lemma flushed_clean o : storage_ok o -> (forall k, slot o k = decodeSlot (openedTrie o !! k)) -> openedTrie (flushed o) = openedTrie o.
Proof.
  intros [H1 H2] Hs. unfold flushed, updateStorageTrie, getStorageTrie. objfields.
  assert (forall l out, (forall k v, (k, v) ∈ l -> so_originStorage o !! k = Some v) ->
    flushSlots l (openedTrie o) (so_originStorage o) out = (openedTrie o, so_originStorage o, out)) as Hl.
  { induction l as [|[k v] l IH]; intros out Hl; [done|]. cbn [flushSlots]. unfold flushSlot.
    rewrite (Hl k v (list_elem_of_here _ _)). cbn [from_option default id]. rewrite bool_decide_eq_true_2 by done. apply IH.
    intros k' v' Hin. apply Hl. by apply list_elem_of_further. }
  rewrite Hl; [done|]. intros k v Hin%elem_of_map_to_list. destruct (H2 k v Hin) as [[w Hw] _]. rewrite Hw. f_equal.
  specialize (Hs k). unfold slot in Hs. rewrite Hin in Hs. cbn in Hs. rewrite Hs. symmetry. by apply H1.
Qed.

Lemma withRoot_account o o' : so_account o' = so_account o -> openedTrie o' = openedTrie o -> so_account (withRoot o') = so_account (withRoot o).
Proof. intros E1 E2. unfold withRoot. rewrite E1, E2. by destruct (isProgram (so_account o)). Qed.

(** The codes that are written: those of contracts that changed, each under its hash. *)
Definition codeDue (s : StateDB) (a : Address) (h : Hash) (c : bytes) : Prop :=
  exists o, sd_stateObjects s !! a = Some o /\ a ∈ sd_stateObjectsDirty s /\ so_deleted o = false /\ isProgram (so_account o) = true /\
    so_dirtyCode o = true /\ so_code o = Some c /\ h = BytesToHash (CodeHash o).

(** The loop over the objects [done_], from [s0]. *)
Record committing (done_ : list Address) (s0 s : StateDB) (codes : gmap Hash bytes) (l : list Address) : Prop := {
  co_trie : sd_trie s = sd_trie s0;
  co_others : others s = others s0;
  co_objects : forall a, a ∉ done_ -> sd_stateObjects s !! a = sd_stateObjects s0 !! a /\ (a ∈ sd_stateObjectsDirty s <-> a ∈ sd_stateObjectsDirty s0);
  co_list : forall a, a ∈ l -> a ∈ done_ /\ exists o, sd_stateObjects s !! a = Some o /\ so_address o = a /\ sd_trie s0 !! a = Some (so_account o);
  co_sound : forall h c, codes !! h = Some c -> exists a, codeDue s0 a h c;
  co_complete : forall a h c, a ∈ done_ -> codeDue s0 a h c -> is_Some (codes !! h)
}.

Lemma elem_of_rest (a b : Address) (X : gset Address) : b <> a -> b ∈ X ∖ {[a]} <-> b ∈ X.
Proof. intros Hne. rewrite elem_of_difference, elem_of_singleton. by split; [intros [? _]|]. Qed.

Lemma committing_step D s0 s codes l a s' codes' l' : committing D s0 s codes l -> a ∉ D -> sd_trie s' = sd_trie s -> others s' = others s ->
  (forall b, b <> a -> sd_stateObjects s' !! b = sd_stateObjects s !! b /\ (b ∈ sd_stateObjectsDirty s' <-> b ∈ sd_stateObjectsDirty s)) ->
  l' = l \/ l' = l ++ [a] /\ (exists o, sd_stateObjects s' !! a = Some o /\ so_address o = a /\ sd_trie s0 !! a = Some (so_account o)) ->
  (forall h c, codes' !! h = Some c -> codes !! h = Some c \/ codeDue s0 a h c) -> (forall h, is_Some (codes !! h) -> is_Some (codes' !! h)) ->
  (forall h c, codeDue s0 a h c -> is_Some (codes' !! h)) -> committing (a :: D) s0 s' codes' l'.
Proof.
  intros [C1 C2 C3 C4 C5 C6] Ha E1 E2 Hb Hl Hc Hm Hd. split; [congruence|congruence|..].
  - intros b [Hne Hn]%not_elem_of_cons. destruct (Hb b Hne) as [-> ->]. by apply C3.
  - assert (forall b, b ∈ l -> b ∈ a :: D /\ exists o, sd_stateObjects s' !! b = Some o /\ so_address o = b /\ sd_trie s0 !! b = Some (so_account o)) as Hold.
    { intros b Hbl. destruct (C4 b Hbl) as [HD Ho]. split; [by apply list_elem_of_further|]. rewrite (proj1 (Hb b ltac:(by intros ->))). done. }
    intros b. destruct Hl as [->|[-> Ho]]; [by apply Hold|]. intros [Hbl| ->%list_elem_of_singleton]%elem_of_app; [by apply Hold|].
    split; [apply list_elem_of_here|done].
  - intros h c [Hh|Hh]%Hc; [by apply C5|by exists a].
  - intros b h c [->|HD]%elem_of_cons; [apply Hd|]. intros Hx. by eapply Hm, C6.
Qed.

Lemma writeCode_spec o codes : exists o' codes', writeCode o codes = (o', codes') /\ so_account o' = so_account o /\ openedTrie o' = openedTrie o /\
  so_address o' = so_address o /\ so_originStorage o' = so_originStorage o /\ so_dirtyStorage o' = so_dirtyStorage o /\
  (forall h, is_Some (codes !! h) -> is_Some (codes' !! h)) /\
  (forall h c, codes' !! h = Some c -> codes !! h = Some c \/ h = BytesToHash (CodeHash o) /\ so_code o = Some c /\ so_dirtyCode o = true) /\
  (so_dirtyCode o = true -> is_Some (so_code o) -> is_Some (codes' !! BytesToHash (CodeHash o))).
Proof.
  unfold writeCode. destruct (so_code o) as [c|] eqn:Hc; [|exists o, codes; split_and!; try done; by left].
  destruct (so_dirtyCode o) eqn:Hd; [|exists o, codes; split_and!; try done; by left]. do 2 eexists. split; [reflexivity|]. split_and!; try done.
  - intros h Hh. destruct (decide (h = BytesToHash (CodeHash o))) as [->|]; [by rewrite lookup_insert_eq|by rewrite lookup_insert_ne].
  - intros h c'. destruct (decide (h = BytesToHash (CodeHash o))) as [->|]; [rewrite lookup_insert_eq; intros [= ->]; by right|].
    rewrite lookup_insert_ne by done. by left.
  - intros _ _. by rewrite lookup_insert_eq.
Qed.

Section commit.
Context (s0 : StateDB).
Hypothesis Hs0 : tracked s0.
Hypothesis Hnd : forall b, dirties s0 !! b = None.
Hypothesis Hma : marks s0 = ∅.

Lemma clean0 a o : sd_stateObjects s0 !! a = Some o -> clean s0 a o.
Proof using Hs0 Hnd. intros Ho. apply (tk_clean _ _ Hs0); [done|done|apply not_elem_of_empty]. Qed.

(** An object that is destroyed or empty has left the trie. *)
Lemma committed_away a o : sd_stateObjects s0 !! a = Some o ->
  so_selfDestructed o || (bool_decide (a ∈ sd_stateObjectsDirty s0) && empty_ o) = true <-> so_deleted o = true.
Proof using Hs0 Hnd.
  intros Ho. destruct (clean0 a o Ho) as [C1 C2 C3 C4 C5 C6]. split.
  - intros Hd. destruct (so_deleted o); [done|]. rewrite C3 in Hd by done. cbn in Hd. apply andb_true_iff in Hd as [Hdi%bool_decide_eq_true He].
    destruct (C6 eq_refl Hdi) as [? _]. congruence.
  - intros Hd. destruct (C2 Hd) as [Hdi Hx]. unfold doomed in Hx. by rewrite bool_decide_eq_true_2.
Qed.

(** A contract that was finalised is written as it is. *)
Lemma committed_same a o o1 : sd_stateObjects s0 !! a = Some o -> so_deleted o = false -> a ∈ sd_stateObjectsDirty s0 ->
  so_account o1 = so_account o -> openedTrie o1 = openedTrie o -> so_originStorage o1 = so_originStorage o -> so_dirtyStorage o1 = so_dirtyStorage o ->
  so_account (withRoot (flushed o1)) = so_account o.
Proof using Hs0 Hnd Hma.
  intros Ho Hd Hdi E1 E2 E3 E4. destruct (clean0 a o Ho) as [C1 C2 C3 C4 C5 C6]. destruct (C6 Hd Hdi) as [_ Hroot].
  rewrite <- Hroot by (rewrite Hma; apply not_elem_of_empty). destruct (flushed_frame o1) as (_ & Fc & _). apply withRoot_account; [congruence|].
  rewrite flushed_clean; [done| |].
  - apply (storage_ok_same o); try done. by apply (tk_object _ _ Hs0 a).
  - intros k. unfold slot. rewrite E2, E4. by apply C4.
Qed.

Lemma CommitStorageTrie_spec o s : sd_snap s = None -> CommitStorageTrie o s = Ok (withRoot (flushed o), s).
Proof.
  intros Hs. unfold CommitStorageTrie. rewrite flushed_any by done. destruct (flushed_frame o) as (_ & _ & _ & _ & Ft & _).
  by rewrite (updateStorageRoot_spec _ _ Ft).
Qed.

Lemma commitObject_spec D s codes l a : committing D s0 s codes l -> a ∉ D ->
  exists s' codes' l', commitObject true a s codes l = Ok (s', codes', l') /\ committing (a :: D) s0 s' codes' l'.
Proof using Hs0 Hnd Hma.
  intros Hc Ha. pose proof Hc as [C1 C2 C3 C4 C5 C6]. destruct (C3 a Ha) as [Eo Ed]. unfold commitObject. rewrite Eo.
  pose proof (committing_step D s0 s codes l a) as Hstep.
  assert (Hs : sd_snap s = None) by (unfold others in C2; pose proof (tk_snap _ _ Hs0); congruence).
  destruct (sd_stateObjects s0 !! a) as [o|] eqn:Ho.
  2:{ exists s, codes, l. split; [done|]. apply Hstep; try done; [by left|by left|]. intros h c (o & ? & _). congruence. }
  pose proof (ky_address s0 (tk_keyed _ _ Hs0) _ _ Ho) as Hoa. pose proof (committed_away a o Ho) as Haway. pose proof (cl_trie _ _ _ (clean0 a o Ho)) as Hen.
  rewrite (bool_decide_ext _ _ Ed), andb_true_r. destruct (so_selfDestructed o || _) eqn:Hd.
  - pose proof (proj1 Haway eq_refl) as Hdel. unfold entry in Hen. rewrite Hdel in Hen. unfold deleteStateObject. cbn [mbind res_bind mret res_ret].
    do 3 eexists. split; [reflexivity|]. apply Hstep; try done; fields; objfields; rewrite ?Hoa.
    + apply delete_id. by rewrite C1.
    + intros b Hb. rewrite lookup_insert_ne by done. split; [done|]. by apply elem_of_rest.
    + by left.
    + by left.
    + intros h c (o1 & Ho1 & _ & Hd1 & _). congruence.
  - assert (so_deleted o = false) as Hdel by (destruct (so_deleted o); [destruct (proj2 Haway eq_refl); congruence|done]).
    unfold entry in Hen. rewrite Hdel in Hen. case_bool_decide as Hdi.
    2:{ do 3 eexists. split; [reflexivity|]. apply Hstep; try done; fields.
        - intros b Hb. split; [done|]. by apply elem_of_rest.
        - by left.
        - by left.
        - intros h c (o1 & _ & Hx & _). done. }
    destruct (isProgram (so_account o)) eqn:Hp.
    + destruct (writeCode_spec o codes) as (o1 & codes1 & -> & W1 & W2 & W3 & W4 & W5 & W6 & W7 & W8). rewrite (CommitStorageTrie_spec o1 s Hs). cbn [mbind res_bind mret res_ret fst snd].
      pose proof (committed_same a o o1 Ho Hdel Hdi W1 W2 W4 W5) as Hacc. assert (so_address (withRoot (flushed o1)) = a) as Hxa.
      { rewrite (proj1 (withRoot_frame _)), (proj1 (flushed_frame _)). congruence. }
      do 3 eexists. split; [reflexivity|]. apply Hstep; try done; fields; rewrite ?Hxa.
      * intros b Hb. rewrite lookup_insert_ne by done. split; [done|]. by apply elem_of_rest.
      * right. split; [done|]. eexists. split; [apply lookup_insert_eq|]. split; [done|]. by rewrite Hen, Hacc.
      * intros h c [?|(-> & Hc1 & Hc2)]%W7; [by left|]. right. exists o. by split_and!.
      * intros h c (o2 & Ho2 & _ & _ & _ & Hc1 & Hc2 & ->). assert (o2 = o) as -> by congruence. apply W8; [done|by eexists].
    + cbn [mbind res_bind mret res_ret]. do 3 eexists. split; [reflexivity|]. apply Hstep; try done; fields.
      * intros b Hb. split; [done|]. by apply elem_of_rest.
      * right. split; [done|]. exists o. by rewrite Eo.
      * by left.
      * intros h c (o1 & Ho1 & _ & _ & Hp1 & _). congruence.
Qed.

Lemma commitObjects_spec l : NoDup l -> forall D s codes r, (forall a, a ∈ l -> a ∉ D) -> committing D s0 s codes r ->
  exists s' codes' r', commitObjects true l s codes r = Ok (s', codes', r') /\ committing (reverse l ++ D) s0 s' codes' r'.
Proof using Hs0 Hnd Hma.
  induction l as [|a l IH]; intros Hl D s codes r HD Hc; [by exists s, codes, r|].
  apply NoDup_cons in Hl as [Ha Hl]. cbn [commitObjects].
  destruct (commitObject_spec D s codes r a Hc (HD a (list_elem_of_here _ _))) as (s1 & codes1 & r1 & -> & Hc1). cbn [mbind res_bind].
  rewrite reverse_cons, <- app_assoc. apply IH; [done| |done].
  intros b Hb [->|HbD]%elem_of_cons; [done|]. by apply (HD b); [apply list_elem_of_further|].
Qed.

Lemma updateStateObjects_same l : forall s, sd_snap s = None ->
  (forall a, a ∈ l -> exists o, sd_stateObjects s !! a = Some o /\ so_address o = a /\ sd_trie s !! a = Some (so_account o)) ->
  sd_trie (updateStateObjects l s) = sd_trie s /\ sd_snap (updateStateObjects l s) = None.
Proof.
  unfold updateStateObjects. induction l as [|a l IH]; intros s Hs Hl; [done|]. cbn [foldl].
  destruct (Hl a (list_elem_of_here _ _)) as (o & Ho & Ha & Ht). rewrite Ho.
  assert (updateStateObject o s = s) as ->.
  { unfold updateStateObject. fields. rewrite Hs, Ha, (insert_id _ _ _ Ht). rewrite bool_decide_eq_false_2 by (by intros [? ?]).
    destruct s. cbn in *. by subst. }
  apply IH; [done|]. intros b Hb. apply Hl. by apply list_elem_of_further.
Qed.

(** A commit of a finalised state writes the trie it finds, and the codes that are due. *)
Lemma Commit_spec : sd_journal s0 = newJournal -> exists s codes, Commit true s0 = Ok (s, codes) /\ sd_trie s = sd_trie s0 /\
  (forall h c, codes !! h = Some c -> exists a, codeDue s0 a h c) /\ (forall a h c, codeDue s0 a h c -> is_Some (codes !! h)).
Proof using Hs0 Hnd Hma.
  intros Hj. unfold Commit. rewrite Hj. cbn [j_dirties newJournal]. rewrite dom_empty_L, union_empty_l_L.
  replace (setDirty (sd_stateObjectsDirty s0) s0) with s0 by (by destruct s0). set (l := (map_to_list (sd_stateObjects s0)).*1).
  destruct (commitObjects_spec l) with (D := @nil Address) (s := s0) (codes := ∅ : gmap Hash bytes) (r := @nil Address) as (s1 & codes & r & -> & [C1 C2 C3 C4 C5 C6]).
  - apply NoDup_fst_map_to_list.
  - intros a _. apply not_elem_of_nil.
  - split; try done; intros a; [by intros ?%elem_of_nil|by intros h c ?%elem_of_nil].
  - assert (Hs1 : sd_snap s1 = None) by (unfold others in C2; pose proof (tk_snap _ _ Hs0); congruence).
    destruct (updateStateObjects_same r s1 Hs1) as [U1 U2]; [rewrite C1; intros a Ha; by apply C4|].
    cbn [mbind res_bind mret res_ret]. rewrite U2, bool_decide_eq_false_2 by (by intros [? ?]). do 2 eexists. split; [reflexivity|].
    split; [unfold clearJournalAndRefund; fields; congruence|]. split; [done|]. intros a h c Hx. apply (C6 a h c); [|done].
    destruct Hx as (o & Ho & _). rewrite app_nil_r. apply elem_of_reverse, list_elem_of_fmap. exists (a, o). split; [done|]. by apply elem_of_map_to_list.
Qed.
End commit.


(** C36. A contract that is destroyed after an earlier transaction of the block left its root to be
    computed comes back: [IntermediateRoot] computes the root and writes the account of the
    destroyed contract to the trie, although the state reports that it does not exist. *)
Theorem destroyed_contract_returns s a o : tracked s -> a ∈ marks s -> sd_stateObjects s !! a = Some o -> is_Some (dirties s !! a) ->
  so_selfDestructed o = true ->
  exists s', IntermediateRoot true s = Ok s' /\ (Exist a s').1 = false /\ is_Some (sd_trie s' !! a) /\
    (Exist a (New (sd_trie s') None)).1 = true.
Proof.
  intros [Hs Hm Hk Hob Hch Hcl Hmk] Ha Ho Hi Hsd. unfold IntermediateRoot, Finalise. set (l := elements (dom (j_dirties (sd_journal s)))).
  assert (Hin : forall b, b ∈ l <-> is_Some (dirties s !! b)) by (intros b; unfold l; by rewrite elem_of_elements, elem_of_dom).
  destruct (finaliseLoop_spec true true l) with (s := s) as (s1 & -> & [HI HO HM HT]); [apply NoDup_elements|done|done| |].
  { intros b o1 Hb Hob1. split; [by apply (ky_address s Hk)|]. apply (Hch b); [done|]. by apply Hin. }
  cbn [mbind res_bind andb]. destruct (others_clear s s1 HT) as (C1 & _). cbv zeta. set (sc := clearJournalAndRefund s1) in *.
  change (default ∅ (sd_stateObjectsDirtyStorage sc)) with (marks sc). assert (Hd : doomed true o = true) by (unfold doomed; by rewrite Hsd).
  destruct (HI a o (proj2 (Hin a) Hi) Ho) as (I1 & _ & _ & I4).
  assert (Hframe : forall b o1, sd_stateObjects sc !! b = Some o1 -> b ∈ marks sc -> so_address o1 = b /\ is_Some (so_storageTrie o1)).
  { intros b o1 Ho1 Hb. change (sd_stateObjects s1 !! b = Some o1) in Ho1. change (b ∈ marks s1) in Hb. destruct (sd_stateObjects s !! b) as [o2|] eqn:Ho2.
    2:{ destruct (HO b (or_intror Ho2)) as (E & _). congruence. }
    pose proof (ky_address s Hk _ _ Ho2) as Hab. destruct (decide (b ∈ l)) as [Hbl|Hbl].
    - destruct (HI b o2 Hbl Ho2) as (E & _ & _ & Hx). rewrite E in Ho1. injection Ho1 as <-. destruct (outcome_frame true o2) as [F1 F2].
      split; [congruence|]. apply Hx in Hb as [Hb|[? _]]; [|done]. destruct (Hmk b Hb) as (o3 & Ho3 & _ & Ht3). rewrite Ho2 in Ho3. injection Ho3 as <-.
      destruct (doomed true o2) eqn:Hdo; [unfold outcome; by rewrite Hdo|]. rewrite F2 by done. destruct (flushed_frame o2) as (_ & _ & _ & _ & -> & _). done.
    - destruct (HO b (or_introl Hbl)) as (E & _ & _ & Hx). rewrite E, Ho2 in Ho1. injection Ho1 as <-. split; [done|].
      apply Hx in Hb. destruct (Hmk b Hb) as (o3 & Ho3 & _ & Ht3). congruence. }
  destruct (laterRoots sc sc) as (s2 & s3 & -> & [RI RO RD RT] & M1 & M2 & E1 & E2 & E3 & E4); [congruence|done|by intros; apply Hframe|done|].
  exists s3. split; [done|]. destruct (RI a (outcome true true o)) as [R1 R2]; [apply elem_of_elements, I4; by left|done|].
  unfold Exist, getStateObject, getDeletedStateObject, readAccount. cbn. rewrite lookup_empty, E1, E2, R1, R2. cbn.
  assert (so_deleted (withRoot (outcome true true o)) = true) as ->.
  { rewrite (proj1 (proj2 (proj2 (withRoot_frame _)))). unfold outcome. by rewrite Hd. }
  by split_and!.
Qed.
End finalise.

(** ** Witnesses *)

(** The root of a storage trie is an encoding of it. *)
Definition demo_root (tr : gmap Hash bytes) : bytes := [Zpos (encode tr)].
Definition demo_open (root : bytes) : option (gmap Hash bytes) := match root with [Zpos p] => decode p | _ => None end.
#[local] Instance demo_block_env : StateEnv := {|
  keccak := demo_keccak;
  contractCode := fun _ => None;
  openStorageTrie := demo_open;
  hashExt := demo_root;
  compressPubkey := fun _ => Ok []
|}.

Lemma demo_reopen (tr : gmap Hash bytes) : openStorageTrie (hashExt tr) = Some tr.
Proof. cbn. apply decode_encode. Qed.

(** An account that pays another one, and a contract whose storage changes. *)
Definition demo_contract : Address := replicate 20 7.
Definition demo_key : Hash := replicate 31 0 ++ [1].
Definition demo_value : Hash := replicate 30 0 ++ [1; 2].
Definition demo_trie : gmap Address Account :=
  {[ demo_alice := ExternallyOwnedAccount (mkCommon 7 100 false AccountKeyLegacy);
     demo_contract := SmartContractAccount (mkCommon 1 5 false AccountKeyFail) emptyExtHash (replicate 32 9) 0 ]}.
Definition demo_or (r : go StateDB) : StateDB := match r with Ok s => s | _ => New ∅ None end.
Definition demo_s1 : StateDB := demo_or (run (CSetState demo_contract demo_key demo_value) (New demo_trie None)).
Definition demo_s2 : StateDB := demo_or (Finalise true false demo_s1).
Definition demo_s3 : StateDB := demo_or (run (CSubBalance demo_alice 30) demo_s2).
Definition demo_s4 : StateDB := demo_or (run (CAddBalance demo_bob 30) demo_s3).
Definition demo_s5 : StateDB := demo_or (run (CSelfDestruct demo_contract) demo_s2).

Lemma demo_survive1 : roots_survive demo_s1.
Proof. intros a o Ha. change (a ∈ (∅ : gset Address)) in Ha. set_solver. Qed.

Lemma demo_marks4 : marks demo_s4 = {[ demo_contract ]}.
Proof. vm_compute. reflexivity. Qed.
Lemma demo_marks5 : marks demo_s5 = {[ demo_contract ]}.
Proof. vm_compute. reflexivity. Qed.

Lemma demo_reach2 : reach demo_trie demo_s2.
Proof.
  apply (reach_end _ false demo_s1); [|apply demo_survive1|vm_compute; reflexivity].
  apply (reach_run _ (CSetState demo_contract demo_key demo_value) (New demo_trie None)); [apply reach_new| |vm_compute; reflexivity]. split; [|split; [done|solve_bytes]].
  intros o. assert (view (New demo_trie None) demo_contract = Some (newObject demo_contract
    (SmartContractAccount (mkCommon 1 5 false AccountKeyFail) emptyExtHash (replicate 32 9) 0))) as -> by (vm_compute; reflexivity).
  by intros [= <-].
Qed.

Lemma demo_reach4 : reach demo_trie demo_s4.
Proof.
  apply (reach_run _ (CAddBalance demo_bob 30) demo_s3); [|done|vm_compute; reflexivity].
  apply (reach_run _ (CSubBalance demo_alice 30) demo_s2); [apply demo_reach2| |vm_compute; reflexivity].
  intros o. assert (view demo_s2 demo_alice = Some (newObject demo_alice (ExternallyOwnedAccount (mkCommon 7 100 false AccountKeyLegacy)))) as ->
    by (vm_compute; reflexivity). by intros [= <-].
Qed.

Lemma demo_survive4 : roots_survive demo_s4.
Proof.
  intros a o Ha _ [n Hn]. assert (a = demo_contract) as ->.
  { rewrite demo_marks4 in Ha. by apply elem_of_singleton in Ha. }
  vm_compute in Hn. done.
Qed.



Lemma demo_tracked5 : tracked demo_s5.
Proof.
  apply (reach_tracked demo_reopen demo_trie). apply (reach_run _ (CSelfDestruct demo_contract) demo_s2); [apply demo_reach2|done|].
  vm_compute. reflexivity.
Qed.

Lemma destroyed_contract_returns_witness : exists s', IntermediateRoot true demo_s5 = Ok s' /\ (Exist demo_contract s').1 = false /\
  is_Some (sd_trie s' !! demo_contract) /\ (Exist demo_contract (New (sd_trie s') None)).1 = true.
Proof.
  eapply (destroyed_contract_returns demo_s5 demo_contract).
  - exact demo_tracked5.
  - rewrite demo_marks5. by apply elem_of_singleton.
  - vm_compute. reflexivity.
  - vm_compute. by eexists.
  - vm_compute. reflexivity.
Defined.

(** The commit that follows removes the account again: the root of the header is not the one
    that is committed. *)
Definition demo_destroyed {env : StateEnv} : go StateDB :=
  s ← run (CSetState demo_contract demo_key demo_value) (New demo_trie None); s ← Finalise true false s;
  s ← run (CSelfDestruct demo_contract) s; IntermediateRoot true s.
Example destroyed_contract_commit : match demo_destroyed (env:=demo_env) with
  | Ok s => match Commit (env:=demo_env) true s with
            | Ok (s', _) => is_Some (sd_trie s !! demo_contract) /\ sd_trie s' !! demo_contract = None
            | _ => False
            end
  | _ => False
  end.
Proof. vm_compute. split; [by eexists|done]. Qed.
End Finalised.
