(* ===== verification/Kip71.v ===== *)
(** * The dynamic base fee (KIP-71)

    Model of [consensus/misc/kip71.go].  The code passes [*big.Int] objects around and
    updates some of them in place, so the model keeps track of which object a result is:
    one of the two bounds, the base fee object of the parent header, or a fresh one. *)

From S2P Require Import Prelude.

Module BaseFee.

(** [params.KIP71Config]: all fields are [uint64]. *)
Record KIP71Config := mkConfig {
  LowerBoundBaseFee : Z;
  UpperBoundBaseFee : Z;
  GasTarget : Z;
  MaxBlockGasUsedForBaseFee : Z;
  BaseFeeDenominator : Z
}.

(** The header fields the fee depends on; a nil base fee is [None]. *)
Record Header := mkHeader {
  h_Number : Z;
  h_GasUsed : Z;
  h_BaseFee : option Z
}.

Inductive magmaError :=
| ErrUnknownAncestor
| ErrMissingBaseFee
| ErrInvalidBaseFee (have want : Z).

Abbreviation M := (res magmaError).

(** [makeEvenByFloor] and [makeEvenByCeil]: the value left in the object. *)
Definition makeEvenByFloor (z : Z) : Z := if Z.testbit z 0 then z - 1 else z.
Definition makeEvenByCeil (z : Z) : Z := if Z.testbit z 0 then z + 1 else z.

(** [big.Int.Div]: division by zero panics. *)
Definition bigDiv (x y : Z) : M Z := if y =? 0 then Panic else Ok (x / y).

(** The object a call returns a pointer to. *)
Inductive feePtr :=
| LowerBound
| UpperBound
| ParentBaseFee
| Fresh (z : Z).

(** [nextBlockBaseFee]. *)
Definition nextBlockBaseFee (parentHeader : Header) (cfg : KIP71Config) (lower upper : Z) : M feePtr :=
  match h_BaseFee parentHeader with
  | None => mret LowerBound
  | Some parentFee =>
      if h_Number parentHeader =? 0 then mret LowerBound
      else
        let denominator := if BaseFeeDenominator cfg =? 0 then 64 else BaseFeeDenominator cfg in
        let gasTarget := GasTarget cfg in
        let upperGasLimit := MaxBlockGasUsedForBaseFee cfg in
        let '(parentPtr, parentBaseFee) :=
          if upper <=? parentFee then (UpperBound, upper)
          else if parentFee <=? lower then (LowerBound, lower)
          else (ParentBaseFee, parentFee) in
        let parentGasUsed :=
          if upperGasLimit <? h_GasUsed parentHeader then upperGasLimit else h_GasUsed parentHeader in
        if parentGasUsed =? gasTarget then mret parentPtr
        else if gasTarget <? parentGasUsed then
          if parentBaseFee =? upper then mret UpperBound
          else
            let gasUsedDelta := u64 (parentGasUsed - gasTarget) in
            y ← bigDiv (parentBaseFee * gasUsedDelta) gasTarget;
            d ← bigDiv y denominator;
            let baseFeeDelta := Z.max d 1 in
            let nextBaseFee := parentBaseFee + baseFeeDelta in
            if upper <? nextBaseFee then mret UpperBound else mret (Fresh nextBaseFee)
        else
          if parentBaseFee =? lower then mret LowerBound
          else
            let gasUsedDelta := u64 (gasTarget - parentGasUsed) in
            y ← bigDiv (parentBaseFee * gasUsedDelta) gasTarget;
            baseFeeDelta ← bigDiv y denominator;
            let nextBaseFee := parentBaseFee - baseFeeDelta in
            if nextBaseFee <? lower then mret LowerBound else mret (Fresh nextBaseFee)
  end.

(** [NextMagmaBlockBaseFee]: the fee returned and the parent header afterwards (the final
    [makeEvenByFloor] writes into the object it is given). *)
Definition NextMagmaBlockBaseFee (parentHeader : Header) (cfg : KIP71Config) : M (Z * Header) :=
  let lower := makeEvenByCeil (LowerBoundBaseFee cfg) in
  let upper := makeEvenByFloor (UpperBoundBaseFee cfg) in
  ptr ← nextBlockBaseFee parentHeader cfg lower upper;
  match ptr with
  | LowerBound => mret (makeEvenByFloor lower, parentHeader)
  | UpperBound => mret (makeEvenByFloor upper, parentHeader)
  | Fresh z => mret (makeEvenByFloor z, parentHeader)
  | ParentBaseFee =>
      let fee := makeEvenByFloor (default 0 (h_BaseFee parentHeader)) in
      mret (fee, mkHeader (h_Number parentHeader) (h_GasUsed parentHeader) (Some fee))
  end.

(** [VerifyMagmaHeader]. *)
Definition VerifyMagmaHeader (cfg : KIP71Config) (parentHeader : option Header) (header : Header)
    : M Header :=
  match parentHeader with
  | None => Err ErrUnknownAncestor
  | Some parent =>
      match h_BaseFee header with
      | None => Err ErrMissingBaseFee
      | Some fee =>
          '(expected, parent) ← NextMagmaBlockBaseFee parent cfg;
          if fee =? expected then mret parent else Err (ErrInvalidBaseFee fee expected)
      end
  end.

(** ** The fee as a function of the parent *)

Definition lowerBound (cfg : KIP71Config) : Z := makeEvenByCeil (LowerBoundBaseFee cfg).
Definition upperBound (cfg : KIP71Config) : Z := makeEvenByFloor (UpperBoundBaseFee cfg).

(** A usable configuration: 64-bit fields, a gas target, and bounds in order. *)
Definition config_ok (cfg : KIP71Config) : Prop :=
  is_u64 (LowerBoundBaseFee cfg) /\ is_u64 (UpperBoundBaseFee cfg) /\
  0 < GasTarget cfg < 2 ^ 64 /\ is_u64 (MaxBlockGasUsedForBaseFee cfg) /\
  is_u64 (BaseFeeDenominator cfg) /\ lowerBound cfg <= upperBound cfg.

Definition clamp (lo hi z : Z) : Z := Z.max lo (Z.min hi z).

(** The KIP-71 formula: the parent fee, brought within the bounds, moves with the distance
    of the gas used (cut off at the maximum) from the target. *)
Definition feeFormula (cfg : KIP71Config) (parentFee gasUsed : Z) : Z :=
  let lo := lowerBound cfg in
  let hi := upperBound cfg in
  let d := if BaseFeeDenominator cfg =? 0 then 64 else BaseFeeDenominator cfg in
  let fee := clamp lo hi parentFee in
  let gas := Z.min gasUsed (MaxBlockGasUsedForBaseFee cfg) in
  let target := GasTarget cfg in
  if target <? gas then clamp lo hi (fee + Z.max 1 (fee * (gas - target) / target / d))
  else clamp lo hi (fee - fee * (target - gas) / target / d).

Definition even (z : Z) : Prop := z mod 2 = 0.

Lemma makeEvenByFloor_mod z : makeEvenByFloor z = z - z mod 2.
Proof.
  unfold makeEvenByFloor. rewrite Z.bit0_odd.
  pose proof (Zmod_odd z) as E. destruct (Z.odd z); lia.
Qed.

Lemma makeEvenByCeil_mod z : makeEvenByCeil z = z + z mod 2.
Proof.
  unfold makeEvenByCeil. rewrite Z.bit0_odd. pose proof (Zmod_odd z) as E. destruct (Z.odd z); lia.
Qed.

(** Arithmetic on parity. *)
Ltac parity :=
  unfold even, lowerBound, upperBound in *; rewrite ?makeEvenByFloor_mod, ?makeEvenByCeil_mod in *;
  Z.to_euclidean_division_equations; lia.

Lemma floor_even z : even (makeEvenByFloor z).
Proof. parity. Qed.

Lemma ceil_even z : even (makeEvenByCeil z).
Proof. parity. Qed.

Lemma floor_of_even z : even z -> makeEvenByFloor z = z.
Proof. parity. Qed.

(** Rounding down to even stays above an even lower bound. *)
Lemma floor_within lo hi z : even lo -> lo <= z <= hi -> lo <= makeEvenByFloor z <= hi.
Proof. parity. Qed.

Lemma clamp_within lo hi z : lo <= hi -> lo <= clamp lo hi z <= hi.
Proof. unfold clamp. lia. Qed.

Lemma bounds_nonneg cfg : config_ok cfg -> 0 <= lowerBound cfg <= upperBound cfg.
Proof. intros (H1 & _ & _ & _ & _ & H2). unfold is_u64 in H1. split; [|done]. parity. Qed.

(** The value an object holds. *)
Definition ptrValue (cfg : KIP71Config) (parentFee : Z) (p : feePtr) : Z :=
  match p with
  | LowerBound => lowerBound cfg
  | UpperBound => upperBound cfg
  | ParentBaseFee => parentFee
  | Fresh z => z
  end.

(** The parent's fee object is returned only when the gas target was met exactly by a
    parent whose fee lies strictly within the bounds. *)
Definition returnsParent (cfg : KIP71Config) (h : Header) (parentFee : Z) : Prop :=
  lowerBound cfg < parentFee < upperBound cfg /\
  Z.min (h_GasUsed h) (MaxBlockGasUsedForBaseFee cfg) = GasTarget cfg.

Lemma nextBlockBaseFee_ok h cfg parentFee :
  config_ok cfg -> is_u64 (h_GasUsed h) -> h_Number h <> 0 -> h_BaseFee h = Some parentFee ->
  exists p, nextBlockBaseFee h cfg (lowerBound cfg) (upperBound cfg) = Ok p /\
    ptrValue cfg parentFee p = feeFormula cfg parentFee (h_GasUsed h) /\
    (p = ParentBaseFee <-> returnsParent cfg h parentFee).
Proof.
  intros Hc Hg Hn Hf. pose proof (bounds_nonneg cfg Hc) as Hb.
  destruct Hc as (_ & _ & Ht & Hm & Hd & _). unfold is_u64 in *.
  unfold nextBlockBaseFee, feeFormula, returnsParent. rewrite Hf.
  destruct (Z.eqb_spec (h_Number h) 0); [done|].
  set (lo := lowerBound cfg) in *. set (hi := upperBound cfg) in *. set (t := GasTarget cfg) in *.
  set (d := if BaseFeeDenominator cfg =? 0 then 64 else BaseFeeDenominator cfg).
  assert (Hd0 : 0 < d) by (unfold d; case_tests; lia).
  assert (Hgas : (if MaxBlockGasUsedForBaseFee cfg <? h_GasUsed h then MaxBlockGasUsedForBaseFee cfg
     else h_GasUsed h) = Z.min (h_GasUsed h) (MaxBlockGasUsedForBaseFee cfg)) by (case_tests; lia).
  rewrite Hgas. set (gas := Z.min _ _) in *. assert (0 <= gas < 2 ^ 64) by (unfold gas; lia).
  assert (exists pp, (if hi <=? parentFee then (UpperBound, hi) else if parentFee <=? lo
      then (LowerBound, lo) else (ParentBaseFee, parentFee)) = (pp, clamp lo hi parentFee) /\
      ptrValue cfg parentFee pp = clamp lo hi parentFee /\ (pp = ParentBaseFee <-> lo < parentFee < hi))
    as (pp & -> & Hpp & Hpi).
  { unfold clamp. destruct (Z.leb_spec hi parentFee), (Z.leb_spec parentFee lo); eexists;
      (split; [repeat f_equal; lia|]); (split; [simpl; lia|]); (split; [try done; lia|try done; lia]). }
  pose proof (clamp_within lo hi parentFee ltac:(lia)). set (fee := clamp lo hi parentFee) in *. cbn zeta iota.
  assert (Hdiv : forall x, 0 <= x -> 0 <= fee * x / t / d)
    by (intros; apply Z.div_pos; [apply Z.div_pos; nia|lia]).
  unfold bigDiv. destruct (Z.eqb_spec t 0); [lia|]. destruct (Z.eqb_spec d 0); [lia|].
  destruct (Z.eqb_spec gas t) as [->|Hne].
  { exists pp. split; [done|]. rewrite Hpp, Z.ltb_irrefl, Z.sub_diag, Z.mul_0_r, !Z.div_0_l by lia.
    split; [unfold clamp; lia|]. rewrite Hpi. by split; [|intros [? _]]. }
  destruct (Z.ltb_spec t gas).
  - rewrite u64_small by (unfold is_u64; lia). specialize (Hdiv (gas - t) ltac:(lia)).
    destruct (Z.eqb_spec fee hi) as [->|]; simpl; [|rewrite (Z.max_comm _ 1); destruct (Z.ltb_spec hi (fee + Z.max 1 (fee * (gas - t) / t / d)))];
      eexists; (split; [done|]); (split; [simpl; unfold clamp; fold hi; lia|]); (split; [done|]); intros [_ ?]; lia.
  - rewrite u64_small by (unfold is_u64; lia). specialize (Hdiv (t - gas) ltac:(lia)).
    destruct (Z.eqb_spec fee lo) as [->|]; simpl; [|destruct (Z.ltb_spec (fee - fee * (t - gas) / t / d) lo)];
      eexists; (split; [done|]); (split; [simpl; unfold clamp; fold lo; lia|]); (split; [done|]); intros [_ ?]; lia.
Qed.

Lemma NextMagma_ptr h cfg p ptr :
  nextBlockBaseFee h cfg (lowerBound cfg) (upperBound cfg) = Ok ptr -> h_BaseFee h = Some p ->
  NextMagmaBlockBaseFee h cfg =
    Ok (makeEvenByFloor (ptrValue cfg p ptr),
        match ptr with
        | ParentBaseFee => mkHeader (h_Number h) (h_GasUsed h) (Some (makeEvenByFloor p))
        | _ => h
        end).
Proof.
  intros E Hf. unfold NextMagmaBlockBaseFee. fold (lowerBound cfg) (upperBound cfg).
  rewrite E, Hf. by destruct ptr.
Qed.

Lemma NextMagma_lower h cfg :
  h_BaseFee h = None \/ h_Number h = 0 -> NextMagmaBlockBaseFee h cfg = Ok (lowerBound cfg, h).
Proof.
  intros H. assert (nextBlockBaseFee h cfg (lowerBound cfg) (upperBound cfg) = Ok LowerBound) as E.
  { unfold nextBlockBaseFee. destruct (h_BaseFee h); [|done]. destruct H as [?| ->]; done. }
  unfold NextMagmaBlockBaseFee. fold (lowerBound cfg) (upperBound cfg). rewrite E. cbn [mbind res_bind].
  by rewrite floor_of_even by apply ceil_even.
Qed.

Lemma feeFormula_within cfg p gas :
  config_ok cfg -> lowerBound cfg <= feeFormula cfg p gas <= upperBound cfg.
Proof. intros Hc%bounds_nonneg. unfold feeFormula. case_tests; apply clamp_within; lia. Qed.

Lemma next_fee_ok (cfg : KIP71Config) (h : Header) :
  config_ok cfg -> is_u64 (h_GasUsed h) ->
  exists fee h', NextMagmaBlockBaseFee h cfg = Ok (fee, h') /\
    even fee /\ lowerBound cfg <= fee <= upperBound cfg /\
    fee = match h_BaseFee h with
          | Some parentFee =>
              if h_Number h =? 0 then lowerBound cfg
              else makeEvenByFloor (feeFormula cfg parentFee (h_GasUsed h))
          | None => lowerBound cfg
          end.
Proof.
  intros Hc Hg. pose proof (bounds_nonneg cfg Hc) as Hb.
  assert (Hlo : even (lowerBound cfg)) by apply ceil_even.
  destruct (h_BaseFee h) as [p|] eqn:Hf.
  2: { rewrite NextMagma_lower by auto. do 2 eexists. split; [done|]. split_and!; [done|lia|lia|done]. }
  destruct (Z.eqb_spec (h_Number h) 0) as [E|Hn].
  { rewrite NextMagma_lower by auto. do 2 eexists. split; [done|]. split_and!; [done|lia|lia|done]. }
  destruct (nextBlockBaseFee_ok h cfg p Hc Hg Hn Hf) as (ptr & E & Hv & _).
  rewrite (NextMagma_ptr _ _ _ _ E Hf), Hv.
  destruct (floor_within _ _ _ Hlo (feeFormula_within cfg p (h_GasUsed h) Hc)).
  do 2 eexists. split; [done|]. split_and!; [apply floor_even|lia|lia|done].
Qed.

(** C31. The next base fee is the KIP-71 formula rounded down to an even number: for any
    usable configuration and any parent the call succeeds and returns it (the lower bound
    when the parent is the genesis block or has no base fee), and the result is always
    even and within the bounds, also when the bounds have just moved. *)
Theorem next_fee_correct (cfg : KIP71Config) (h : Header) :
  config_ok cfg -> is_u64 (h_GasUsed h) ->
  exists fee h', NextMagmaBlockBaseFee h cfg = Ok (fee, h') /\
    even fee /\ lowerBound cfg <= fee <= upperBound cfg /\
    fee = match h_BaseFee h with
          | Some parentFee =>
              if h_Number h =? 0 then lowerBound cfg
              else makeEvenByFloor (feeFormula cfg parentFee (h_GasUsed h))
          | None => lowerBound cfg
          end.
Proof. apply next_fee_ok. Qed.

(** Computing the fee leaves the parent header as it was whenever the parent's base
    fee is even; otherwise the parent's own base fee object may be returned, and rounding
    the result down then changes the parent header: this happens exactly when the odd fee
    lies strictly within the bounds and the gas target was met exactly. *)
Theorem next_fee_parent_effect (cfg : KIP71Config) (h : Header) (p fee : Z) (h' : Header) :
  config_ok cfg -> is_u64 (h_GasUsed h) -> h_Number h <> 0 -> h_BaseFee h = Some p ->
  NextMagmaBlockBaseFee h cfg = Ok (fee, h') ->
  (h' <> h <-> ~ even p /\ returnsParent cfg h p) /\
  (h' <> h -> h' = mkHeader (h_Number h) (h_GasUsed h) (Some (p - 1))).
Proof.
  intros Hc Hg Hn Hf E. destruct (nextBlockBaseFee_ok h cfg p Hc Hg Hn Hf) as (ptr & E' & _ & Hp).
  rewrite (NextMagma_ptr _ _ _ _ E' Hf) in E. injection E as _ <-. rewrite <- Hp.
  destruct ptr; try (split; [split; [done|by intros [_ ?]]|done]).
  assert (Hsame : even p -> mkHeader (h_Number h) (h_GasUsed h) (Some (makeEvenByFloor p)) = h).
  { intros He. rewrite floor_of_even by done. destruct h; simpl in *. by subst. }
  split; [split|].
  - intros Hne. split; [|done]. intros He. by apply Hne, Hsame.
  - intros [Ho _] E. apply Ho. apply (f_equal h_BaseFee) in E. simpl in E. rewrite Hf in E.
    injection E as <-. apply floor_even.
  - intros Hne. do 2 f_equal. assert (~ even p) by (intros He; by apply Hne, Hsame). parity.
Qed.

(** The fee moves with the load: when the parent's fee is even and within the bounds,
    a parent above the gas target never lowers the fee and one below never raises it, by
    at most the formula's step, and a parent exactly at the target keeps it. *)
Theorem next_fee_direction (cfg : KIP71Config) (h : Header) (p fee : Z) (h' : Header) :
  config_ok cfg -> is_u64 (h_GasUsed h) -> h_Number h <> 0 -> h_BaseFee h = Some p ->
  even p -> lowerBound cfg <= p <= upperBound cfg ->
  NextMagmaBlockBaseFee h cfg = Ok (fee, h') ->
  let gas := Z.min (h_GasUsed h) (MaxBlockGasUsedForBaseFee cfg) in
  let d := if BaseFeeDenominator cfg =? 0 then 64 else BaseFeeDenominator cfg in
  (GasTarget cfg < gas -> p <= fee <= p + Z.max 1 (p * (gas - GasTarget cfg) / GasTarget cfg / d)) /\
  (gas < GasTarget cfg -> p - p * (GasTarget cfg - gas) / GasTarget cfg / d - 1 <= fee <= p) /\
  (gas = GasTarget cfg -> fee = p).
Proof.
  intros Hc Hg Hn Hf He Hin E gas d. destruct (nextBlockBaseFee_ok h cfg p Hc Hg Hn Hf) as (ptr & E' & Hv & _).
  rewrite (NextMagma_ptr _ _ _ _ E' Hf), Hv in E. injection E as <- _.
  pose proof (bounds_nonneg cfg Hc). destruct Hc as (_ & _ & Ht & _ & Hd & _). unfold is_u64 in Hd.
  assert (0 < d) by (unfold d; case_tests; lia).
  assert (Hdiv : forall x, 0 <= x -> 0 <= p * x / GasTarget cfg / d)
    by (intros; apply Z.div_pos; [apply Z.div_pos; nia|lia]).
  unfold feeFormula. fold gas d.
  assert (clamp (lowerBound cfg) (upperBound cfg) p = p) as -> by (unfold clamp; lia).
  assert (Hf1 : forall z, z - 1 <= makeEvenByFloor z <= z) by (intros; parity).
  assert (Hf2 : forall z, p <= z -> p <= makeEvenByFloor z) by (intros; parity).
  split_and!; intros Hcmp.
  - destruct (Z.ltb_spec (GasTarget cfg) gas); [|lia]. specialize (Hdiv (gas - GasTarget cfg) ltac:(lia)).
    set (st := Z.max 1 _) in *. assert (1 <= st) by (unfold st; lia).
    split; [apply Hf2; unfold clamp; lia|]. etransitivity; [apply Hf1|]. unfold clamp. lia.
  - destruct (Z.ltb_spec (GasTarget cfg) gas); [lia|]. specialize (Hdiv (GasTarget cfg - gas) ltac:(lia)).
    set (st := p * _ / _ / _) in *. specialize (Hf1 (clamp (lowerBound cfg) (upperBound cfg) (p - st))).
    unfold clamp in *. lia.
  - rewrite Hcmp, Z.ltb_irrefl, Z.sub_diag, Z.mul_0_r, !Z.div_0_l, Z.sub_0_r by lia.
    assert (clamp (lowerBound cfg) (upperBound cfg) p = p) as -> by (unfold clamp; lia).
    by apply floor_of_even.
Qed.

(** ** Chains of verified headers *)

(** [chain_ok cfg p hs]: every header of [hs] passes [VerifyMagmaHeader] against the one
    before it, the first one against [p]. *)
Fixpoint chain_ok (cfg : KIP71Config) (parent : Header) (hs : list Header) : Prop :=
  match hs with
  | [] => True
  | h :: hs => (exists p', VerifyMagmaHeader cfg (Some parent) h = Ok p') /\ chain_ok cfg h hs
  end.

(** Along any chain of headers that pass [VerifyMagmaHeader], whatever the gas used
    by the blocks and whatever header the chain starts from, every base fee is present,
    even and within the bounds of the configuration. *)
Theorem verified_chain_fees (cfg : KIP71Config) (hs : list Header) (parent : Header) :
  config_ok cfg -> is_u64 (h_GasUsed parent) -> Forall (fun h => is_u64 (h_GasUsed h)) hs ->
  chain_ok cfg parent hs ->
  Forall (fun h => exists fee, h_BaseFee h = Some fee /\ even fee /\
                   lowerBound cfg <= fee <= upperBound cfg) hs.
Proof.
  intros Hc Hg Hgs. revert parent Hg. induction Hgs as [|h hs Hh Hgs IH]; intros parent Hg Hok; [constructor|].
  destruct Hok as [[p' Hv] Hok]. constructor; [|by apply (IH h)].
  unfold VerifyMagmaHeader in Hv. destruct (h_BaseFee h) as [fee|] eqn:Ef; [|done].
  apply bind_ok in Hv as ([expected p2] & En & Hv). destruct (Z.eqb_spec fee expected) as [->|]; [|done].
  exists expected. split; [done|]. destruct (next_fee_ok cfg parent Hc Hg) as (f & h2 & En' & He & Hin & _).
  rewrite En in En'. injection En' as -> _. done.
Qed.

(** A gas target of zero makes the fee computation panic with a division by zero:
    any parent after genesis that used gas and whose fee is below the upper bound.  (Only
    a zero denominator is guarded against.) *)
Theorem gas_target_zero_panics (cfg : KIP71Config) (h : Header) (p : Z) :
  GasTarget cfg = 0 -> 0 < MaxBlockGasUsedForBaseFee cfg -> lowerBound cfg < upperBound cfg ->
  h_Number h <> 0 -> 0 < h_GasUsed h -> h_BaseFee h = Some p -> p < upperBound cfg ->
  NextMagmaBlockBaseFee h cfg = Panic.
Proof.
  intros Ht Hm Hb Hn Hg Hf Hp. unfold NextMagmaBlockBaseFee. fold (lowerBound cfg) (upperBound cfg).
  assert (nextBlockBaseFee h cfg (lowerBound cfg) (upperBound cfg) = Panic) as ->; [|done].
  unfold nextBlockBaseFee. rewrite Hf, Ht. destruct (Z.eqb_spec (h_Number h) 0); [done|].
  destruct (Z.leb_spec (upperBound cfg) p); [lia|].
  destruct (Z.leb_spec p (lowerBound cfg)); destruct (Z.ltb_spec (MaxBlockGasUsedForBaseFee cfg) (h_GasUsed h));
    repeat (match goal with |- context [?a =? ?b] => destruct (Z.eqb_spec a b); [lia|] end);
    repeat (match goal with |- context [0 <? ?b] => destruct (Z.ltb_spec 0 b); [|lia] end);
    repeat (match goal with |- context [?a =? ?b] => destruct (Z.eqb_spec a b); [lia|] end); done.
Qed.

(** ** Witnesses, with the default parameters *)

Definition defaultConfig : KIP71Config := mkConfig 25000000000 750000000000 30000000 60000000 20.

Lemma defaultConfig_ok : config_ok defaultConfig.
Proof. repeat split; vm_compute; first [reflexivity|discriminate]. Qed.

Lemma next_fee_correct_witness :
  exists fee h', NextMagmaBlockBaseFee (mkHeader 7 45000000 (Some 100000000000)) defaultConfig = Ok (fee, h') /\
    even fee /\ lowerBound defaultConfig <= fee <= upperBound defaultConfig /\ fee = 102500000000.
Proof.
  apply (next_fee_correct defaultConfig (mkHeader 7 45000000 (Some 100000000000)) defaultConfig_ok).
  vm_compute. split; [discriminate|reflexivity].
Defined.

Lemma next_fee_parent_effect_witness :
  let h := mkHeader 7 30000000 (Some 100000000001) in
  let h' := mkHeader 7 30000000 (Some 100000000000) in
  NextMagmaBlockBaseFee h defaultConfig = Ok (100000000000, h') /\
  (h' <> h <-> ~ even 100000000001 /\ returnsParent defaultConfig h 100000000001) /\
  (h' <> h -> h' = mkHeader 7 30000000 (Some (100000000001 - 1))).
Proof.
  split; [reflexivity|].
  apply (next_fee_parent_effect defaultConfig (mkHeader 7 30000000 (Some 100000000001)) 100000000001 100000000000
    (mkHeader 7 30000000 (Some 100000000000)) defaultConfig_ok).
  - vm_compute. split; [discriminate|reflexivity].
  - discriminate.
  - reflexivity.
  - reflexivity.
Defined.

Lemma next_fee_direction_witness :
  (30000000 < 45000000 -> 100000000000 <= 102500000000 <=
     100000000000 + Z.max 1 (100000000000 * (45000000 - 30000000) / 30000000 / 20)) /\
  (45000000 < 30000000 ->
     100000000000 - 100000000000 * (30000000 - 45000000) / 30000000 / 20 - 1 <= 102500000000 <= 100000000000) /\
  (45000000 = 30000000 -> 102500000000 = 100000000000).
Proof.
  apply (next_fee_direction defaultConfig (mkHeader 7 45000000 (Some 100000000000)) 100000000000 102500000000
    (mkHeader 7 45000000 (Some 100000000000)) defaultConfig_ok).
  - vm_compute. split; [discriminate|reflexivity].
  - discriminate.
  - reflexivity.
  - reflexivity.
  - vm_compute. split; discriminate.
  - reflexivity.
Defined.

Lemma verified_chain_fees_witness :
  Forall (fun h => exists fee, h_BaseFee h = Some fee /\ even fee /\
           lowerBound defaultConfig <= fee <= upperBound defaultConfig)
    [mkHeader 8 0 (Some 102500000000); mkHeader 9 1 (Some 97375000000)].
Proof.
  apply (verified_chain_fees defaultConfig [mkHeader 8 0 (Some 102500000000); mkHeader 9 1 (Some 97375000000)]
    (mkHeader 7 45000000 (Some 100000000000)) defaultConfig_ok).
  - vm_compute. split; [discriminate|reflexivity].
  - repeat constructor; vm_compute; first [reflexivity|discriminate].
  - split; [eexists; vm_compute; reflexivity|]. split; [eexists; vm_compute; reflexivity|exact I].
Defined.

Lemma gas_target_zero_panics_witness :
  NextMagmaBlockBaseFee (mkHeader 7 45000000 (Some 100000000000))
    (mkConfig 25000000000 750000000000 0 60000000 20) = Panic.
Proof.
  apply (gas_target_zero_panics (mkConfig 25000000000 750000000000 0 60000000 20)
    (mkHeader 7 45000000 (Some 100000000000)) 100000000000); first [reflexivity|discriminate].
Defined.

End BaseFee.
