(* ===== verification/Validators.v ===== *)
(** * Validator sets with round-robin and sticky proposers

    Model of [consensus/istanbul/validator/default.go] and
    [consensus/istanbul/validator/validator.go]: the sorted validator list, proposer
    selection, committee selection and the fault bound.  The pseudo-random generator of
    the Go library is a parameter. *)

From S2P Require Import Prelude.

Module ValSet.

(** [common.Address]: twenty bytes. *)
Definition emptyAddress (addr : Address) : bool := bool_decide (addr = replicate 20 0).

(** [istanbul.ProposerPolicy]. *)
Inductive ProposerPolicy := RoundRobin | Sticky | WeightedRandom.

(** [istanbul.View]. *)
Record View := mkView { v_Sequence : Z; v_Round : Z }.

(** [strings.Compare] as a test of [a <= b]. *)
Fixpoint string_leb (a b : bytes) : bool :=
  match a, b with
  | [], _ => true
  | _ :: _, [] => false
  | x :: a, y :: b => if x <? y then true else if y <? x then false else string_leb a b
  end.

(** The random sources of the Go library, seeded: the [i]-th result of [Intn n], and the
    swaps that [Shuffle n] performs. *)
Record randSource := mkRand {
  rnd_Intn : Z -> nat -> nat -> nat;
  rnd_Shuffle : Z -> nat -> list (nat * nat)
}.

(** Results are within range, as documented. *)
Definition rand_ok (rnd : randSource) : Prop :=
  (forall seed i n, (0 < n)%nat -> (rnd_Intn rnd seed i n < n)%nat) /\
  (forall seed n, Forall (fun xy => xy.1 < n /\ xy.2 < n)%nat (rnd_Shuffle rnd seed n)).

(** ** Committees *)

Section committee.
Context {V : Type} (rnd : randSource).

(** [l[i], l[j] = l[j], l[i]]. *)
Definition swap {E A} (l : list A) (i j : nat) : res E (list A) :=
  x ← index l i;
  y ← index l j;
  l ← store l i y;
  store l j x.

(** The indices other than the two proposers'. *)
Definition otherIndexes (size proposerIdx nextProposerIdx : nat) : list nat :=
  filter (fun i => i <> proposerIdx /\ i <> nextProposerIdx) (seq 0 size).

(** [for i := 0; i < limit; i++ { swap(i, Intn(limit)) }], from [i] on. *)
Fixpoint shuffleLoop {A} (seed : Z) (limit : nat) (todo i : nat) (l : list A) : go (list A) :=
  match todo with
  | O => mret l
  | S todo =>
      l ← swap l i (rnd_Intn rnd seed i limit);
      shuffleLoop seed limit todo (S i) l
  end.

(** [SelectRandomCommittee]: [None] is the nil result. *)
Definition SelectRandomCommittee (validators : list V) (committeeSize : Z) (seed : Z)
    (proposerIdx nextProposerIdx : Z) : go (option (list V)) :=
  if (proposerIdx <? 0) || (nextProposerIdx <? 0) || (proposerIdx =? nextProposerIdx) then mret None
  else
    let validatorSize := len validators in
    if (validatorSize <? i64 committeeSize) || (validatorSize <=? proposerIdx)
       || (validatorSize <=? nextProposerIdx) then mret None
    else if committeeSize <? 2 then
      if committeeSize =? 0 then mret None
      else p ← index validators (Z.to_nat proposerIdx); mret (Some [p])
    else
      p ← index validators (Z.to_nat proposerIdx);
      q ← index validators (Z.to_nat nextProposerIdx);
      let pickSize := (length validators - 2)%nat in
      let indexs := otherIndexes (length validators) (Z.to_nat proposerIdx) (Z.to_nat nextProposerIdx) in
      indexs ← shuffleLoop seed pickSize pickSize 0 indexs;
      rest ← slice indexs 0 (Z.to_nat (committeeSize - 2));
      rest ← mapM (fun i => index validators i) rest;
      mret (Some (p :: q :: rest)).

(** [shuffleValidators]. *)
Definition shuffleValidators (validators : list V) (seed : Z) : go (list V) :=
  foldl (fun l xy => l ← l; swap l xy.1 xy.2) (mret validators)
    (rnd_Shuffle rnd seed (length validators)).

(** [int64(binary.BigEndian.Uint64(b))]: the signed reading of eight bytes. *)
Definition bigEndianInt64 (b : bytes) : Z := i64 (fold_left (fun acc x => acc * 256 + x) b 0).

(** [SelectRandaoCommittee]: [None] is the nil result. *)
Definition SelectRandaoCommittee (validators : list V) (committeeSize : Z) (mixHash : bytes)
    : go (option (list V)) :=
  if committeeSize <? 2 then
    if committeeSize =? 0 then mret None else mret (Some validators)
  else
    first8 ← slice mixHash 0 8;
    let seed := bigEndianInt64 first8 in
    let size := if len validators <? committeeSize then len validators else committeeSize in
    shuffled ← shuffleValidators validators seed;
    c ← slice shuffled 0 (Z.to_nat size);
    mret (Some c).

End committee.

(** [ConvertHashToSeed]: the first fifteen hex digits of the hash, as a number. *)
Definition hexDigits (hash : bytes) : list Z :=
  flat_map (fun b => [Z.shiftr b 4; Z.land b 15]) hash.
Definition ConvertHashToSeed (hash : bytes) : Z :=
  fold_left (fun acc d => acc * 16 + d) (take 15 (hexDigits hash)) 0.

(** ** The validator set *)

Section defaultSet.
(** [Address.String]: the checksummed hexadecimal form. *)
Context (addrString : Address -> bytes).

(** [Validators.Less], as the order [sort.Sort] sorts by. *)
Definition addr_le (a b : Address) : Prop := string_leb (addrString a) (addrString b) = true.
#[export] Instance addr_le_dec : RelDecision addr_le.
Proof. intros a b. unfold addr_le. apply _. Defined.

(** [sort.Sort]. *)
Definition sortAddrs (l : list Address) : list Address := merge_sort addr_le l.

(** [defaultSet]; a validator is its address. *)
Record defaultSet := mkSet {
  ds_subSize : Z;
  ds_validators : list Address;
  ds_policy : ProposerPolicy;
  ds_proposer : option Address
}.

(** [newDefaultSubSet] (and [newDefaultSet], with a sub-group size of 21). *)
Definition newDefaultSubSet (addrs : list Address) (policy : ProposerPolicy) (subSize : Z) : defaultSet :=
  let validators := sortAddrs addrs in
  mkSet subSize validators policy (validators !! 0%nat).

(** [Size]. *)
Definition Size (s : defaultSet) : Z := len (ds_validators s).

(** [SetSubGroupSize]. *)
Definition SetSubGroupSize (size : Z) (s : defaultSet) : defaultSet :=
  if size =? 0 then s else mkSet size (ds_validators s) (ds_policy s) (ds_proposer s).

(** [GetByIndex]. *)
Definition GetByIndex (s : defaultSet) (i : Z) : option Address :=
  if i <? len (ds_validators s) then ds_validators s !! Z.to_nat i else None.

(** [GetByAddress]: the first position, or -1. *)
Fixpoint findAddr (i : Z) (addr : Address) (l : list Address) : Z :=
  match l with
  | [] => -1
  | v :: l => if bool_decide (addr = v) then i else findAddr (i + 1) addr l
  end.
Definition GetByAddress (s : defaultSet) (addr : Address) : Z := findAddr 0 addr (ds_validators s).

(** [GetProposer] and [IsProposer]. *)
Definition GetProposer (s : defaultSet) : option Address := ds_proposer s.
Definition IsProposer (s : defaultSet) (addr : Address) : bool :=
  bool_decide (GetProposer s = if GetByAddress s addr <? 0 then None else Some addr).

(** [calcSeed]. *)
Definition calcSeed (s : defaultSet) (proposer : Address) (round : Z) : Z :=
  let idx := GetByAddress s proposer in
  let offset := if idx <? 0 then 0 else idx in
  u64 (offset + round).

(** [seed % uint64(valSet.Size())], then [GetByIndex]: an empty set divides by zero. *)
Definition pickBySeed (s : defaultSet) (seed : Z) : go (option Address) :=
  if Size s =? 0 then Panic else mret (GetByIndex s (seed mod Size s)).

(** [roundRobinProposer]. *)
Definition roundRobinProposer (s : defaultSet) (proposer : Address) (round : Z) : go (option Address) :=
  let seed := if emptyAddress proposer then round else u64 (calcSeed s proposer round + 1) in
  pickBySeed s seed.

(** [stickyProposer]. *)
Definition stickyProposer (s : defaultSet) (proposer : Address) (round : Z) : go (option Address) :=
  let seed := if emptyAddress proposer then round else calcSeed s proposer round in
  pickBySeed s seed.

(** The [selector] field. *)
Definition selector (s : defaultSet) : Address -> Z -> go (option Address) :=
  match ds_policy s with Sticky => stickyProposer s | _ => roundRobinProposer s end.

(** [CalcProposer]. *)
Definition CalcProposer (lastProposer : Address) (round : Z) (s : defaultSet) : go defaultSet :=
  match ds_validators s with
  | [] => mret s
  | _ => p ← selector s lastProposer round;
         mret (mkSet (ds_subSize s) (ds_validators s) (ds_policy s) p)
  end.

(** [AddValidator]. *)
Definition AddValidator (addr : Address) (s : defaultSet) : bool * defaultSet :=
  if bool_decide (addr ∈ ds_validators s) then (false, s)
  else (true, mkSet (ds_subSize s) (sortAddrs (ds_validators s ++ [addr])) (ds_policy s) (ds_proposer s)).

(** [RemoveValidator]: the proposer is left as it is. *)
Definition RemoveValidator (addr : Address) (s : defaultSet) : bool * defaultSet :=
  let i := GetByAddress s addr in
  if i <? 0 then (false, s)
  else (true, mkSet (ds_subSize s)
                (take (Z.to_nat i) (ds_validators s) ++ drop (S (Z.to_nat i)) (ds_validators s))
                (ds_policy s) (ds_proposer s)).

(** [Copy]. *)
Definition Copy (s : defaultSet) : defaultSet :=
  let c := newDefaultSubSet (ds_validators s) (ds_policy s) (ds_subSize s) in
  match GetProposer s with
  | Some p => if GetByAddress c p =? -1 then c
              else mkSet (ds_subSize c) (ds_validators c) (ds_policy c) (Some p)
  | None => c
  end.

(** [F]: [math.Ceil(float64(n) / 3)] is exact below 2^53. *)
Definition ceilDiv (a b : Z) : Z := (a + b - 1) / b.
Definition F (s : defaultSet) : Z :=
  if ds_subSize s <? Size s then ceilDiv (ds_subSize s) 3 - 1 else ceilDiv (Size s) 3 - 1.

(** [SubListWithProposer]; [isIstanbul] is [fork.Rules(view.Sequence).IsIstanbul]. *)
Definition SubListWithProposer (rnd : randSource) (isIstanbul : Z -> bool) (s : defaultSet)
    (prevHash : bytes) (proposerAddr : Address) (view : View) : go (list Address) :=
  let validators := ds_validators s in
  let committeeSize := ds_subSize s in
  if len validators <=? committeeSize then mret validators
  else
    let proposerIdx := GetByAddress s proposerAddr in
    if proposerIdx <? 0 then mret validators
    else if committeeSize =? 1 then mret [proposerAddr]
    else
      next ← selector s proposerAddr (u64 (v_Round view));
      match next with
      | None => Panic
      | Some nextProposer =>
          let nextProposerIdx := GetByAddress s nextProposer in
          if nextProposerIdx <? 0 then mret validators
          else
            let seed := ConvertHashToSeed prevHash in
            let seed := if isIstanbul (v_Sequence view) then i64 (seed + v_Round view) else seed in
            committee ← SelectRandomCommittee rnd validators committeeSize seed proposerIdx nextProposerIdx;
            mret (default validators committee)
      end.

(** [SubList] and [CheckInSubList]. *)
Definition SubList (rnd : randSource) (isIstanbul : Z -> bool) (s : defaultSet) (prevHash : bytes)
    (view : View) : go (list Address) :=
  match GetProposer s with
  | None => mret (ds_validators s)
  | Some p => SubListWithProposer rnd isIstanbul s prevHash p view
  end.
Definition CheckInSubList (rnd : randSource) (isIstanbul : Z -> bool) (s : defaultSet) (prevHash : bytes)
    (view : View) (addr : Address) : go bool :=
  l ← SubList rnd isIstanbul s prevHash view;
  mret (bool_decide (addr ∈ l)).

(** [IsSubSet]. *)
Definition IsSubSet (s : defaultSet) : bool := ds_subSize s <? Size s.

End defaultSet.

(** ** Swaps and shuffles are permutations *)

Lemma swap_ok {E A} (l : list A) i j :
  (i < length l)%nat -> (j < length l)%nat -> exists l', swap (E:=E) l i j = Ok l' /\ l' ≡ₚ l.
Proof.
  intros Hi Hj. destruct (lookup_lt_is_Some_2 l i Hi) as [x Hx], (lookup_lt_is_Some_2 l j Hj) as [y Hy].
  unfold swap, index. rewrite Hx, Hy. cbn [mbind res_bind].
  rewrite !store_lt by (rewrite ?length_insert; lia). cbn [mbind res_bind].
  rewrite store_lt by (rewrite length_insert; lia). eexists. split; [done|].
  apply Permutation_inj. rewrite !length_insert. split; [done|].
  exists (fun k => if decide (k = j) then i else if decide (k = i) then j else k).
  split; [intros a b; repeat case_decide; lia|]. intros k.
  rewrite !list_lookup_insert, length_insert. repeat case_decide; naive_solver.
Qed.

Lemma shuffleLoop_ok rnd {A} seed limit todo : forall i (l : list A),
  rand_ok rnd -> length l = limit -> (i + todo <= limit)%nat ->
  exists l', shuffleLoop rnd seed limit todo i l = Ok l' /\ l' ≡ₚ l.
Proof.
  induction todo as [|todo IH]; intros i l Hr Hl Hi; [by exists l|]. cbn [shuffleLoop].
  destruct (swap_ok (E:=Empty_set) l i (rnd_Intn rnd seed i limit)) as (l1 & -> & Hp); [lia| |].
  { destruct Hr as [Hr _]. specialize (Hr seed i limit). lia. }
  cbn [mbind res_bind]. destruct (IH (S i) l1) as (l2 & -> & Hp2); [done|by rewrite Hp|lia|].
  exists l2. split; [done|]. by rewrite Hp2.
Qed.

Lemma shuffleValidators_ok {V} rnd (validators : list V) seed :
  rand_ok rnd -> exists l, shuffleValidators rnd validators seed = Ok l /\ l ≡ₚ validators.
Proof.
  intros [_ Hs]. unfold shuffleValidators. specialize (Hs seed (length validators)).
  assert (forall sw l, Forall (fun xy => xy.1 < length validators /\ xy.2 < length validators)%nat sw ->
    l ≡ₚ validators -> exists l', foldl (fun (l : go (list V)) xy => l ← l; swap l xy.1 xy.2) (Ok l) sw = Ok l'
      /\ l' ≡ₚ validators) as H; [|by apply H].
  induction sw as [|[x y] sw IH]; intros l Hsw Hl; [by exists l|].
  inversion Hsw as [|? ? [Hx Hy] Hsw']; subst. simpl in *.
  destruct (swap_ok (E:=Empty_set) l x y) as (l1 & -> & Hp); [by rewrite Hl..|].
  apply IH; [done|]. by rewrite Hp.
Qed.

(** ** Picking members by index *)

Lemma picks_submseteq {A} (l c : list A) (ix : list nat) :
  NoDup ix -> Forall2 (fun i x => l !! i = Some x) ix c -> c ⊆+ l.
Proof.
  intros Hn Hf.
  assert (Hc : (l !!.) <$> ix = Some <$> c) by (induction Hf; simpl; [done|]; inversion Hn; subst; f_equal; auto).
  assert (Hl : (l !!.) <$> seq 0 (length l) = Some <$> l).
  { apply list_eq. intros i. rewrite !list_lookup_fmap. destruct (decide (i < length l)%nat).
    - rewrite lookup_seq_lt by done. simpl. by destruct (lookup_lt_is_Some_2 l i) as [x ->].
    - rewrite (lookup_ge_None_2 l), (lookup_ge_None_2 (seq _ _)) by (rewrite ?length_seq; lia). done. }
  assert (ix ⊆+ seq 0 (length l)) as Hs.
  { apply NoDup_submseteq; [done|]. intros i Hi. apply elem_of_seq. split; [lia|].
    apply list_elem_of_lookup in Hi as [k Hk]. destruct (Forall2_lookup_l _ _ _ _ _ Hf Hk) as (x & _ & Hx).
    by apply lookup_lt_Some in Hx. }
  apply (fmap_submseteq (l !!.)) in Hs. rewrite Hc, Hl in Hs.
  destruct l as [|x0 l0]; [by destruct Hf|]. apply (fmap_submseteq (default x0)) in Hs.
  rewrite <- !list_fmap_compose in Hs.
  assert (Hid : forall k : list A, (default x0 ∘ Some) <$> k = k) by (intros k; apply list_fmap_id).
  by rewrite !Hid in Hs.
Qed.

Lemma mapM_index {E A} (l : list A) (ix : list nat) :
  Forall (fun i => i < length l)%nat ix ->
  exists c, mapM (fun i => index (E:=E) l i) ix = Ok c /\ Forall2 (fun i x => l !! i = Some x) ix c.
Proof.
  induction 1 as [|i ix Hi _ (c & Hc & Hf)]; [by exists []|].
  destruct (lookup_lt_is_Some_2 l i Hi) as [x Hx]. exists (x :: c). simpl.
  rewrite (index_lookup l i x Hx). simpl. rewrite Hc. split; [done|by constructor].
Qed.

Lemma otherIndexes_length n p q :
  (p < n)%nat -> (q < n)%nat -> p <> q -> length (otherIndexes n p q) = (n - 2)%nat.
Proof.
  intros Hp Hq Hne.
  assert (p :: q :: otherIndexes n p q ≡ₚ seq 0 n) as Hperm.
  { apply NoDup_Permutation.
    - unfold otherIndexes. repeat constructor; rewrite ?not_elem_of_cons, ?list_elem_of_filter; try naive_solver.
      apply NoDup_filter, NoDup_seq.
    - apply NoDup_seq.
    - intros i. unfold otherIndexes. rewrite !elem_of_cons, list_elem_of_filter, elem_of_seq.
      destruct (decide (i = p)), (decide (i = q)); naive_solver lia. }
  apply Permutation_length in Hperm. rewrite length_seq in Hperm. simpl in Hperm. lia.
Qed.

(** ** Committee selection *)

(** The shuffled indices and the two proposers' are distinct and in range. *)
Lemma shuffled_indexes nv p q ix k :
  (p < nv)%nat -> (q < nv)%nat -> p <> q -> ix ≡ₚ otherIndexes nv p q ->
  NoDup (p :: q :: take k ix) /\ Forall (fun i => i < nv)%nat (take k ix).
Proof.
  intros Hp Hq Hne Hperm. split.
  - apply (sublist_NoDup _ (p :: q :: ix)); [|apply sublist_skip, sublist_skip, sublist_take].
    rewrite Hperm. unfold otherIndexes. repeat constructor; rewrite ?not_elem_of_cons, ?list_elem_of_filter.
    + split; [done|naive_solver].
    + naive_solver.
    + apply NoDup_filter, NoDup_seq.
  - apply Forall_take, Forall_forall. intros i Hi. rewrite Hperm in Hi. unfold otherIndexes in Hi.
    apply list_elem_of_filter in Hi as [_ Hi]. apply elem_of_seq in Hi. lia.
Qed.

Lemma SelectRandomCommittee_some {V} rnd (validators : list V) size seed p q :
  rand_ok rnd -> size < 2 ^ 63 ->
  0 <= p < len validators -> 0 <= q < len validators -> p <> q -> 2 <= size <= len validators ->
  exists c x y, SelectRandomCommittee rnd validators size seed p q = Ok (Some c) /\
    len c = size /\ validators !! Z.to_nat p = Some x /\ validators !! Z.to_nat q = Some y /\
    (exists rest, c = x :: y :: rest) /\ c ⊆+ validators.
Proof.
  intros Hr Hs Hp Hq Hne Hsz. unfold SelectRandomCommittee.
  replace (i64 size) with size by (unfold i64; rewrite Z.mod_small; lia).
  destruct (Z.ltb_spec p 0), (Z.ltb_spec q 0), (Z.eqb_spec p q); try lia. cbn [orb].
  destruct (Z.ltb_spec (len validators) size), (Z.leb_spec (len validators) p),
    (Z.leb_spec (len validators) q); try lia. cbn [orb].
  destruct (Z.ltb_spec size 2); [lia|]. unfold len in *.
  set (pn := Z.to_nat p). set (qn := Z.to_nat q). set (nv := length validators) in *.
  assert ((pn < nv)%nat /\ (qn < nv)%nat /\ pn <> qn) as (Hpn & Hqn & Hpq) by (unfold pn, qn; lia).
  destruct (lookup_lt_is_Some_2 validators pn Hpn) as [x Hx], (lookup_lt_is_Some_2 validators qn Hqn) as [y Hy].
  rewrite (index_lookup _ _ _ Hx), (index_lookup _ _ _ Hy). cbn [mbind res_bind].
  destruct (shuffleLoop_ok rnd seed (nv - 2) (nv - 2) 0 (otherIndexes nv pn qn)) as (ix & -> & Hperm);
    [done|by apply otherIndexes_length|lia|].
  assert (Hixl : length ix = (nv - 2)%nat) by (rewrite Hperm; by apply otherIndexes_length).
  cbn [mbind res_bind]. rewrite slice_ok by lia. rewrite drop_0, Nat.sub_0_r.
  set (k := Z.to_nat (size - 2)). cbn [mbind res_bind].
  destruct (shuffled_indexes nv pn qn ix k Hpn Hqn Hpq Hperm) as [Hnd Hlt].
  destruct (mapM_index (E:=Empty_set) validators (take k ix) Hlt) as (rest & -> & Hf). cbn [mbind res_bind].
  exists (x :: y :: rest), x, y. split; [done|]. split_and!; [|done|done|by eexists|].
  - apply Forall2_length in Hf. rewrite length_take in Hf. simpl. unfold k in Hf. lia.
  - apply (picks_submseteq _ _ (pn :: qn :: take k ix)); [done|by repeat constructor].
Qed.

Lemma SelectRandomCommittee_none {V} rnd (validators : list V) size seed p q :
  0 <= size < 2 ^ 63 ->
  ~ (0 <= p < len validators /\ 0 <= q < len validators /\ p <> q /\ 1 <= size <= len validators) ->
  SelectRandomCommittee rnd validators size seed p q = Ok None.
Proof.
  intros Hs Hn. unfold SelectRandomCommittee.
  replace (i64 size) with size by (unfold i64; rewrite Z.mod_small; lia).
  destruct (Z.ltb_spec p 0), (Z.ltb_spec q 0), (Z.eqb_spec p q); try done. cbn [orb].
  destruct (Z.ltb_spec (len validators) size), (Z.leb_spec (len validators) p),
    (Z.leb_spec (len validators) q); try done. cbn [orb].
  destruct (Z.ltb_spec size 2); [|lia]. destruct (Z.eqb_spec size 0); [done|lia].
Qed.

(** Committees are proper: given two different valid proposer indices and a size
    between two and the number of validators, [SelectRandomCommittee] returns a committee
    of exactly that size, headed by the proposer and the next proposer, with every member
    drawn from the validators and no validator drawn twice, whatever the random source
    returns; on any other arguments it returns nil and never panics. *)
Theorem SelectRandomCommittee_correct {V} (rnd : randSource) (validators : list V) (size seed p q : Z) :
  rand_ok rnd -> 0 <= size < 2 ^ 63 ->
  (0 <= p < len validators -> 0 <= q < len validators -> p <> q -> 2 <= size <= len validators ->
   exists c x y, SelectRandomCommittee rnd validators size seed p q = Ok (Some c) /\
     len c = size /\ validators !! Z.to_nat p = Some x /\ validators !! Z.to_nat q = Some y /\
     (exists rest, c = x :: y :: rest) /\ c ⊆+ validators) /\
  (~ (0 <= p < len validators /\ 0 <= q < len validators /\ p <> q /\ 1 <= size <= len validators) ->
   SelectRandomCommittee rnd validators size seed p q = Ok None).
Proof.
  intros Hr Hs. split; intros; [apply SelectRandomCommittee_some; done || lia|by apply SelectRandomCommittee_none].
Qed.

(** After the Randao fork the committee is a random selection of the wanted size. *)
Lemma SelectRandao_ok {V} rnd (vs : list V) size h :
  rand_ok rnd -> 2 <= size -> 8 <= len h -> exists k, SelectRandaoCommittee rnd vs size h = Ok (Some k) /\
    len k = Z.min size (len vs) /\ k ⊆+ vs.
Proof.
  intros Hr Hs Hh. unfold SelectRandaoCommittee. destruct (Z.ltb_spec size 2); [lia|].
  unfold len in Hh. rewrite slice_ok by lia. cbn [mbind res_bind].
  destruct (shuffleValidators_ok rnd vs (bigEndianInt64 (take (8 - 0) (drop 0 h))) Hr) as (l & -> & Hp).
  cbn [mbind res_bind]. set (k := Z.to_nat _).
  assert (Hk : (k <= length l)%nat).
  { rewrite Hp. unfold k, len. destruct (Z.ltb_spec (Z.of_nat (length vs)) size); lia. }
  rewrite slice_ok by lia. eexists. split; [done|]. rewrite drop_0. split.
  - unfold len. rewrite length_take, Nat.min_l by lia. unfold k, len.
    destruct (Z.ltb_spec (Z.of_nat (length vs)) size); lia.
  - rewrite <- Hp. apply sublist_submseteq, sublist_take.
Qed.

(** ** The sorted validator list *)

Lemma string_leb_total a b : string_leb a b = true \/ string_leb b a = true.
Proof.
  revert b. induction a as [|x a IH]; intros [|y b]; simpl; auto.
  destruct (Z.ltb_spec x y), (Z.ltb_spec y x); auto; lia.
Qed.

Lemma string_leb_trans a b c : string_leb a b = true -> string_leb b c = true -> string_leb a c = true.
Proof.
  revert b c. induction a as [|x a IH]; intros [|y b] [|z c]; simpl; try done.
  destruct (Z.ltb_spec x y), (Z.ltb_spec y x), (Z.ltb_spec y z), (Z.ltb_spec z y),
    (Z.ltb_spec x z), (Z.ltb_spec z x); try done; try lia. apply IH.
Qed.

Lemma string_leb_antisym a b : string_leb a b = true -> string_leb b a = true -> a = b.
Proof.
  revert b. induction a as [|x a IH]; intros [|y b]; simpl; try done.
  destruct (Z.ltb_spec x y), (Z.ltb_spec y x); try done; try lia.
  intros. f_equal; [lia|auto].
Qed.

Lemma findAddr_spec addr l : forall i,
  (addr ∉ l /\ findAddr i addr l = -1) \/
  exists k, l !! k = Some addr /\ findAddr i addr l = i + Z.of_nat k /\
    forall k', (k' < k)%nat -> l !! k' <> Some addr.
Proof.
  induction l as [|v l IH]; intros i; simpl; [left; by split; [apply not_elem_of_nil|]|].
  case_bool_decide as E.
  - subst. right. exists 0%nat. split_and!; [done|lia|lia].
  - destruct (IH (i + 1)) as [[Hn ->]|(k & Hk & -> & Hmin)].
    + left. rewrite not_elem_of_cons. done.
    + right. exists (S k). split_and!; [done|lia|]. intros [|k'] Hlt; simpl; [congruence|]. apply Hmin. lia.
Qed.

Section defaultSet_laws.
Context (addrString : Address -> bytes).
Hypothesis addrString_inj : forall a b, addrString a = addrString b -> a = b.

#[local] Instance addr_le_trans : Transitive (addr_le addrString).
Proof. intros a b c. apply string_leb_trans. Qed.
#[local] Instance addr_le_total : Total (addr_le addrString).
Proof. intros a b. apply string_leb_total. Qed.
#[local] Instance addr_le_antisym : AntiSymm (=) (addr_le addrString).
Proof. intros a b Hab Hba. by apply addrString_inj, string_leb_antisym. Qed.

(** The list is sorted by the address strings and has no duplicate. *)
Definition set_ok (s : defaultSet) : Prop :=
  NoDup (ds_validators s) /\ StronglySorted (addr_le addrString) (ds_validators s).

Lemma sortAddrs_ok l : NoDup l -> NoDup (sortAddrs addrString l) /\
  StronglySorted (addr_le addrString) (sortAddrs addrString l).
Proof.
  intros Hn. unfold sortAddrs. split; [by rewrite merge_sort_Permutation|]. apply StronglySorted_merge_sort; apply _.
Qed.

Lemma StronglySorted_delete {A} (R : relation A) (l k : list A) (x : A) :
  StronglySorted R (l ++ x :: k) -> StronglySorted R (l ++ k).
Proof.
  induction l as [|y l IH]; simpl; intros H; inversion H as [|? ? H1 H2]; subst; [done|].
  constructor; [by apply IH|]. apply Forall_app in H2 as [? H2]. apply Forall_app. split; [done|].
  by inversion H2.
Qed.

Lemma GetByAddress_neg s addr : GetByAddress s addr < 0 <-> addr ∉ ds_validators s.
Proof.
  unfold GetByAddress. destruct (findAddr_spec addr (ds_validators s) 0) as [[Hn ->]|(k & Hk & -> & _)]; split; try done.
  - lia.
  - intros Hn. destruct Hn. by eapply list_elem_of_lookup_2.
Qed.

Lemma AddValidator_ok addr s :
  set_ok s ->
  let '(ok, s') := AddValidator addrString addr s in
  set_ok s' /\ (ok = true <-> addr ∉ ds_validators s) /\
  forall a, a ∈ ds_validators s' <-> a = addr \/ a ∈ ds_validators s.
Proof.
  intros [Hnd Hst]. unfold AddValidator. case_bool_decide as E.
  - split; [done|]. split; [done|]. naive_solver.
  - split; [|split; [done|]].
    + apply sortAddrs_ok. apply NoDup_app. split; [done|]. split; [|apply NoDup_singleton].
      intros x Hx ->%list_elem_of_singleton. done.
    + intros a. simpl. unfold sortAddrs. rewrite merge_sort_Permutation, elem_of_app, list_elem_of_singleton.
      naive_solver.
Qed.

Lemma RemoveValidator_ok addr s :
  set_ok s ->
  let '(ok, s') := RemoveValidator addr s in
  set_ok s' /\ (ok = true <-> addr ∈ ds_validators s) /\
  forall a, a ∈ ds_validators s' <-> a <> addr /\ a ∈ ds_validators s.
Proof.
  intros [Hnd Hst]. unfold RemoveValidator. pose proof (GetByAddress_neg s addr) as Hneg.
  destruct (Z.ltb_spec (GetByAddress s addr) 0) as [Hlt|Hge].
  - apply Hneg in Hlt. split; [done|]. split; [done|]. intros a. split; [|by intros [_ ?]]. intros Ha.
    split; [by intros ->|done].
  - unfold GetByAddress in *. destruct (findAddr_spec addr (ds_validators s) 0) as [[Hn E]|(k & Hk & E & _)]; [lia|].
    rewrite E in *. rewrite Z.add_0_l, Nat2Z.id.
    pose proof (take_drop_middle _ _ _ Hk) as Em. set (l1 := take k _) in *. set (l2 := drop (S k) _) in *.
    rewrite <- Em in Hnd, Hst. pose proof Hnd as Hnd'. rewrite <- Permutation_middle in Hnd'.
    apply NoDup_cons in Hnd' as [Hna Hnd']. split; [|split].
    + split; simpl; [done|by eapply StronglySorted_delete].
    + split; [intros _; by eapply list_elem_of_lookup_2|done].
    + intros a. simpl. rewrite <- Em, !elem_of_app, elem_of_cons in *.
      destruct (decide (a = addr)) as [->|]; naive_solver.
Qed.

Lemma Copy_ok s : set_ok s -> ds_validators (Copy addrString s) = ds_validators s.
Proof.
  intros [Hnd Hst]. assert (sortAddrs addrString (ds_validators s) = ds_validators s) as E.
  { apply (StronglySorted_unique (addr_le addrString)); [by apply sortAddrs_ok|done|].
    apply merge_sort_Permutation. }
  unfold Copy. destruct (GetProposer s); [|done]. by case_tests.
Qed.

(** The validator list stays a sorted set: building a set, adding and removing
    validators keep the list sorted by address string and free of duplicates; adding
    reports failure exactly for a present address and removing exactly for an absent one,
    each changes membership of that address only, and copying keeps the list. *)
Theorem validator_set_ops (s : defaultSet) (addrs : list Address) (addr : Address) (policy : ProposerPolicy) (subSize : Z) :
  set_ok s ->
  (NoDup addrs -> set_ok (newDefaultSubSet addrString addrs policy subSize)) /\
  (let '(ok, s') := AddValidator addrString addr s in
   set_ok s' /\ (ok = true <-> addr ∉ ds_validators s) /\
   forall a, a ∈ ds_validators s' <-> a = addr \/ a ∈ ds_validators s) /\
  (let '(ok, s') := RemoveValidator addr s in
   set_ok s' /\ (ok = true <-> addr ∈ ds_validators s) /\
   forall a, a ∈ ds_validators s' <-> a <> addr /\ a ∈ ds_validators s) /\
  ds_validators (Copy addrString s) = ds_validators s.
Proof.
  intros Hs. split; [intros Hn; by apply sortAddrs_ok|]. split; [by apply AddValidator_ok|].
  split; [by apply RemoveValidator_ok|by apply Copy_ok].
Qed.
End defaultSet_laws.

(** ** Proposer rotation *)

Lemma GetByAddress_lookup s k p :
  NoDup (ds_validators s) -> ds_validators s !! k = Some p -> GetByAddress s p = Z.of_nat k.
Proof.
  intros Hn Hk. unfold GetByAddress.
  destruct (findAddr_spec p (ds_validators s) 0) as [[Hni _]|(k' & Hk' & -> & _)].
  - destruct Hni. by eapply list_elem_of_lookup_2.
  - rewrite (NoDup_lookup _ _ _ _ Hn Hk Hk'). lia.
Qed.

Lemma pickBySeed_ok s seed :
  ds_validators s <> [] -> 0 <= seed ->
  pickBySeed s seed = Ok (ds_validators s !! Z.to_nat (seed mod Size s)).
Proof.
  intros Hne Hs. unfold pickBySeed, GetByIndex, Size, len in *.
  assert (0 < Z.of_nat (length (ds_validators s))) by (destruct (ds_validators s); [done|simpl; lia]).
  destruct (Z.eqb_spec (Z.of_nat (length (ds_validators s))) 0); [lia|].
  pose proof (Z.mod_pos_bound seed (Z.of_nat (length (ds_validators s))) ltac:(lia)).
  destruct (Z.ltb_spec (seed mod Z.of_nat (length (ds_validators s))) (Z.of_nat (length (ds_validators s)))); [done|lia].
Qed.

(** The list starting from position [m]. *)
Definition rotate_list {A} (m : nat) (l : list A) : list A := drop m l ++ take m l.

Lemma rotate_list_perm {A} m (l : list A) : rotate_list m l ≡ₚ l.
Proof. unfold rotate_list. rewrite (Permutation_app_comm (drop m l)). by rewrite take_drop. Qed.

Lemma rotate_list_lookup {A} (m i : nat) (l : list A) :
  (m < length l)%nat -> (i < length l)%nat ->
  rotate_list m l !! i = l !! ((m + i) mod length l)%nat.
Proof.
  intros Hm Hi. unfold rotate_list. destruct (decide (i < length l - m)%nat).
  - rewrite lookup_app_l, lookup_drop by (rewrite length_drop; lia). by rewrite Nat.mod_small by lia.
  - rewrite lookup_app_r, lookup_take_lt by (rewrite length_drop; lia). f_equal. rewrite length_drop.
    apply (Nat.mod_unique _ _ 1); lia.
Qed.

(** Round robin is fair: over as many consecutive rounds as there are validators,
    starting from any round and any last proposer in the set, every validator is selected
    exactly once, in the order of the list and wrapping around at its end. *)
Theorem round_robin_fair (s : defaultSet) (p : Address) (k : nat) (round : Z) :
  NoDup (ds_validators s) -> ds_validators s !! k = Some p -> emptyAddress p = false ->
  0 <= round -> Z.of_nat k + round + Size s + 1 < 2 ^ 64 ->
  exists l, l ≡ₚ ds_validators s /\
    forall i, (i < length (ds_validators s))%nat ->
      roundRobinProposer s p (round + Z.of_nat i) = Ok (l !! i).
Proof.
  intros Hn Hk He Hr Hb. pose proof (lookup_lt_Some _ _ _ Hk) as Hlt. unfold Size, len in *.
  set (n := length (ds_validators s)) in *. assert (ds_validators s <> []) as Hne by (by intros E; rewrite E in Hk).
  set (m := Z.to_nat ((Z.of_nat k + 1 + round) mod Z.of_nat n)).
  pose proof (Z.mod_pos_bound (Z.of_nat k + 1 + round) (Z.of_nat n) ltac:(lia)) as Hmb.
  exists (rotate_list m (ds_validators s)). split; [apply rotate_list_perm|]. intros i Hi.
  unfold roundRobinProposer, calcSeed. rewrite He, (GetByAddress_lookup s k p Hn Hk).
  destruct (Z.ltb_spec (Z.of_nat k) 0); [lia|].
  rewrite !u64_small by (unfold is_u64; lia || rewrite ?u64_small by (unfold is_u64; lia); lia).
  rewrite pickBySeed_ok by (done || lia). f_equal. unfold Size, len. fold n.
  rewrite rotate_list_lookup by (fold n; unfold m; lia). fold n. f_equal.
  apply Nat2Z.inj. rewrite Nat2Z.inj_mod, Nat2Z.inj_add. unfold m.
  rewrite !Z2Nat.id by (try lia; apply Z.mod_pos_bound; lia).
  rewrite Zplus_mod_idemp_l. f_equal. lia.
Qed.

(** Under the sticky policy the committee of round 0 is the whole validator list
    whatever the committee size: the next proposer then is the proposer itself, so no
    committee can be composed and the fallback applies.  The fault bound [F] is still
    that of the committee size. *)
Lemma sticky_committee_is_everyone (rnd : randSource) (isIstanbul : Z -> bool) (s : defaultSet)
    (prevHash : bytes) (p : Address) (seq : Z) :
  NoDup (ds_validators s) -> p ∈ ds_validators s -> emptyAddress p = false ->
  ds_policy s = Sticky -> 2 <= ds_subSize s < Size s -> Size s < 2 ^ 63 ->
  SubListWithProposer rnd isIstanbul s prevHash p (mkView seq 0) = Ok (ds_validators s) /\
  F s = ceilDiv (ds_subSize s) 3 - 1.
Proof.
  intros Hn Hp He Hpol Hs Hsz. apply list_elem_of_lookup in Hp as [k Hk].
  pose proof (lookup_lt_Some _ _ _ Hk) as Hlt. unfold Size, len in Hs, Hsz.
  pose proof (GetByAddress_lookup s k p Hn Hk) as Eg. split.
  - unfold SubListWithProposer. rewrite Eg. unfold len.
    destruct (Z.leb_spec (Z.of_nat (length (ds_validators s))) (ds_subSize s)); [lia|].
    destruct (Z.ltb_spec (Z.of_nat k) 0); [lia|]. destruct (Z.eqb_spec (ds_subSize s) 1); [lia|].
    unfold selector. rewrite Hpol. unfold stickyProposer, calcSeed. rewrite He, Eg.
    destruct (Z.ltb_spec (Z.of_nat k) 0); [lia|]. cbn [v_Round]. change (u64 0) with 0. rewrite !Z.add_0_r.
    rewrite u64_small by (unfold is_u64; lia). rewrite pickBySeed_ok by (try lia; by intros E; rewrite E in Hk).
    unfold Size, len. rewrite Z.mod_small, Nat2Z.id, Hk by lia. cbn [mbind res_bind]. rewrite Eg.
    destruct (Z.ltb_spec (Z.of_nat k) 0); [lia|].
    rewrite SelectRandomCommittee_none by (lia || (intros (_ & _ & ? & _); done)). done.
  - unfold F, Size, len. destruct (Z.ltb_spec (ds_subSize s) (Z.of_nat (length (ds_validators s)))); [done|lia].
Qed.

(** ** Witnesses *)

Definition demo_rand : randSource :=
  mkRand (fun _ i n => (7 * i + 3) mod n)%nat
         (fun _ n => match n with S (S _) => [(0, 1)]%nat | _ => [] end).

Lemma demo_rand_ok : rand_ok demo_rand.
Proof.
  split.
  - intros seed i n Hn. apply Nat.mod_upper_bound. lia.
  - intros seed [|[|n]]; [apply Forall_nil_2..|]. apply Forall_cons_2; [simpl; lia|apply Forall_nil_2].
Qed.

Lemma SelectRandomCommittee_correct_witness :
  exists c x y, SelectRandomCommittee demo_rand [10; 11; 12; 13; 14] 3 0 1 4 = Ok (Some c) /\
    len c = 3 /\ [10; 11; 12; 13; 14] !! Z.to_nat 1 = Some x /\ [10; 11; 12; 13; 14] !! Z.to_nat 4 = Some y /\
    (exists rest, c = x :: y :: rest) /\ c ⊆+ [10; 11; 12; 13; 14].
Proof.
  apply (SelectRandomCommittee_correct demo_rand [10; 11; 12; 13; 14] 3 0 1 4 demo_rand_ok); unfold len; simpl; lia.
Defined.

Definition demo_set : defaultSet := mkSet 2 [[1]; [2]; [3]] Sticky (Some [1]).

Lemma demo_set_ok : set_ok (fun a => a) demo_set.
Proof.
  split.
  - apply (bool_decide_unpack _). vm_compute. exact I.
  - repeat constructor.
Qed.

Lemma validator_set_ops_witness :
  let '(ok, s') := AddValidator (fun a => a) [0] demo_set in
  set_ok (fun a => a) s' /\ (ok = true <-> [0] ∉ ds_validators demo_set) /\
  forall a, a ∈ ds_validators s' <-> a = [0] \/ a ∈ ds_validators demo_set.
Proof.
  apply (validator_set_ops (fun a => a) (fun a b H => H) demo_set [] [0] Sticky 2 demo_set_ok).
Defined.

Lemma round_robin_fair_witness :
  exists l, l ≡ₚ [[1]; [2]; [3]] /\
    forall i, (i < 3)%nat -> roundRobinProposer demo_set [2] (5 + Z.of_nat i) = Ok (l !! i).
Proof.
  apply (round_robin_fair demo_set [2] 1 5).
  - apply demo_set_ok.
  - reflexivity.
  - reflexivity.
  - lia.
  - vm_compute. reflexivity.
Defined.

End ValSet.
