(* ===== verification/Weighted.v ===== *)
(** * The weighted council

    Model of [consensus/istanbul/validator/weighted.go]: validators with stake-dependent
    weights, demotion below the minimum stake, the pre-shuffled proposer list used before
    the Randao fork and committee-based proposers after it.

    Staking amounts are whole tokens; the code keeps them in [float64], exact for the
    amounts at hand (below 2^53, and totals below 2^45 for the rounding of weights). *)

From S2P Require Import Prelude Staking Validators.

Module Council.
Import Staking.
Import ValSet.

(** [weightedValidator]. *)
Record weightedValidator := mkWV {
  wv_address : Address;
  wv_rewardAddress : Address;
  wv_votingPower : Z;
  wv_weight : Z
}.

#[export] Instance weightedValidator_eq_dec : EqDecision weightedValidator.
Proof. solve_decision. Defined.

(** [weightedCouncil]; [mixHash] may be nil. *)
Record weightedCouncil := mkCouncil {
  wc_subSize : Z;
  wc_demotedValidators : list weightedValidator;
  wc_validators : list weightedValidator;
  wc_policy : ProposerPolicy;
  wc_proposer : option weightedValidator;
  wc_proposers : list weightedValidator;
  wc_proposersBlockNum : Z;
  wc_blockNum : Z;
  wc_mixHash : option bytes
}.

(** [fork.Rules] and [params.ChainConfig.Rules] at a block number. *)
Record chainRules := mkRules {
  IsIstanbul : Z -> bool;
  IsKore : Z -> bool;
  IsRandao : Z -> bool;
  IsKaia : Z -> bool
}.

Definition zeroAddress : Address := replicate 20 0.

(** ** Block numbers *)

(** [params.IsProposerUpdateInterval] and [params.CalcProposerBlockNumber]. *)
Definition IsProposerUpdateInterval (interval blockNum : Z) : bool := blockNum mod interval =? 0.
Definition CalcProposerBlockNumber (interval blockNum : Z) : Z :=
  if IsProposerUpdateInterval interval blockNum then u64 (blockNum - interval)
  else u64 (blockNum - blockNum mod interval).

(** ** The council *)

Section council.
Context (addrString : Address -> bytes) (rnd : randSource) (rules : chainRules) (interval : Z).

(** [sort.Sort] on validators. *)
Definition val_le (a b : weightedValidator) : Prop :=
  string_leb (addrString (wv_address a)) (addrString (wv_address b)) = true.
#[export] Instance val_le_dec : RelDecision val_le.
Proof. intros a b. unfold val_le. apply _. Defined.
Definition sortVals (l : list weightedValidator) : list weightedValidator := merge_sort val_le l.

(** [getByAddress] on a list: the first position (or -1) and the validator. *)
Fixpoint findVal (i : Z) (addr : Address) (l : list weightedValidator) : Z * option weightedValidator :=
  match l with
  | [] => (-1, None)
  | v :: l => if bool_decide (addr = wv_address v) then (i, Some v) else findVal (i + 1) addr l
  end.
Definition getByAddress (c : weightedCouncil) (addr : Address) := findVal 0 addr (wc_validators c).
Definition getDemotedByAddress (c : weightedCouncil) (addr : Address) := findVal 0 addr (wc_demotedValidators c).

(** [Size], [SetSubGroupSize], [SetBlockNum], [SetMixHash]. *)
Definition Size (c : weightedCouncil) : Z := len (wc_validators c).
Definition SetSubGroupSize (size : Z) (c : weightedCouncil) : weightedCouncil :=
  if size =? 0 then c
  else mkCouncil size (wc_demotedValidators c) (wc_validators c) (wc_policy c) (wc_proposer c)
         (wc_proposers c) (wc_proposersBlockNum c) (wc_blockNum c) (wc_mixHash c).
Definition SetBlockNum (n : Z) (c : weightedCouncil) : weightedCouncil :=
  mkCouncil (wc_subSize c) (wc_demotedValidators c) (wc_validators c) (wc_policy c) (wc_proposer c)
    (wc_proposers c) (wc_proposersBlockNum c) n (wc_mixHash c).
Definition SetMixHash (h : option bytes) (c : weightedCouncil) : weightedCouncil :=
  mkCouncil (wc_subSize c) (wc_demotedValidators c) (wc_validators c) (wc_policy c) (wc_proposer c)
    (wc_proposers c) (wc_proposersBlockNum c) (wc_blockNum c) h.

(** Replacing the validator lists, the proposer and the proposer list. *)
Definition setLists (vs ds : list weightedValidator) (c : weightedCouncil) : weightedCouncil :=
  mkCouncil (wc_subSize c) ds vs (wc_policy c) (wc_proposer c)
    (wc_proposers c) (wc_proposersBlockNum c) (wc_blockNum c) (wc_mixHash c).
Definition setProposer (p : option weightedValidator) (c : weightedCouncil) : weightedCouncil :=
  mkCouncil (wc_subSize c) (wc_demotedValidators c) (wc_validators c) (wc_policy c) p
    (wc_proposers c) (wc_proposersBlockNum c) (wc_blockNum c) (wc_mixHash c).
Definition setProposers (ps : list weightedValidator) (n : Z) (c : weightedCouncil) : weightedCouncil :=
  mkCouncil (wc_subSize c) (wc_demotedValidators c) (wc_validators c) (wc_policy c) (wc_proposer c)
    ps n (wc_blockNum c) (wc_mixHash c).

(** [NewWeightedCouncil]: a nil list of rewards, voting powers or weights is filled with
    defaults; a council with the wrong policy or with lists of different lengths is not
    built. *)
Definition NewWeightedCouncil (addrs demotedAddrs : list Address) (rewards : option (list Address))
    (votingPowers weights : option (list Z)) (policy : ProposerPolicy)
    (committeeSize blockNum proposersBlockNum : Z) : option weightedCouncil :=
  match policy with
  | WeightedRandom =>
      let rewards := default (map (fun _ => zeroAddress) addrs) rewards in
      let weights := default (map (fun _ => 0) addrs) weights in
      let votingPowers := default (map (fun _ => 1000) addrs) votingPowers in
      if bool_decide (length addrs = length rewards /\ length addrs = length votingPowers
                      /\ length addrs = length weights) then
        let vs := sortVals (zip_with (fun '(a, r) '(p, w) => mkWV a r p w)
                              (zip addrs rewards) (zip votingPowers weights)) in
        let ds := sortVals (map (fun a => mkWV a zeroAddress 1000 0) demotedAddrs) in
        Some (SetSubGroupSize committeeSize
                (mkCouncil 0 ds vs policy (vs !! 0%nat) vs proposersBlockNum blockNum None))
      else None
  | _ => None
  end.

(** [RecoverWeightedCouncilProposer]: an address that is not a validator is logged as an
    error, and the trace line after it calls a method on the nil result. *)
Fixpoint recoverLoop (c : weightedCouncil) (addrs : list Address) (ps : list weightedValidator)
    : go (list weightedValidator) :=
  match addrs with
  | [] => mret ps
  | a :: addrs =>
      match (getByAddress c a).2 with
      | None => Panic
      | Some v => recoverLoop c addrs (ps ++ [v])
      end
  end.
Definition RecoverWeightedCouncilProposer (c : weightedCouncil) (addrs : list Address) : go weightedCouncil :=
  ps ← recoverLoop c addrs [];
  mret (setProposers ps (wc_proposersBlockNum c) c).

(** [GetWeightedCouncilData]: what is stored. *)
Definition GetWeightedCouncilData (c : weightedCouncil) :=
  (map wv_address (wc_validators c), map wv_address (wc_demotedValidators c),
   map wv_rewardAddress (wc_validators c), map wv_votingPower (wc_validators c),
   map wv_weight (wc_validators c), map wv_address (wc_proposers c),
   wc_proposersBlockNum c, wc_mixHash c).

(** ** Proposers *)

(** [weightedRandomProposer]: [None] is the nil result. *)
Definition weightedRandomProposer (c : weightedCouncil) (lastProposer : Address) (round : Z)
    : go (option weightedValidator) :=
  if IsRandao rules (u64 (wc_blockNum c + 1)) then
    match wc_mixHash c with
    | None => mret None
    | Some mixHash =>
        committee ← SelectRandaoCommittee rnd (wc_validators c) (wc_subSize c) mixHash;
        let committee := default [] committee in
        match committee with
        | [] => Panic
        | _ => mret (committee !! Z.to_nat (round mod len committee))
        end
    end
  else
    match wc_proposers c with
    | [] => mret None
    | ps =>
        let picker := u64 (u64 (wc_blockNum c + round)
                           - CalcProposerBlockNumber interval (u64 (wc_blockNum c + 1))) mod len ps in
        mret (ps !! Z.to_nat picker)
    end.

(** [chooseProposerByRoundRobin]. *)
Definition chooseProposerByRoundRobin (c : weightedCouncil) (lastProposer : Address) (round : Z)
    : go weightedValidator :=
  let seed :=
    if emptyAddress lastProposer then round
    else let '(idx, val) := getByAddress c lastProposer in
         u64 ((match val with Some _ => idx | None => 0 end) + round) in
  match wc_validators c with
  | [] => Panic
  | vs => index vs (Z.to_nat (seed mod len vs))
  end.

(** [CalcProposer]. *)
Definition CalcProposer (lastProposer : Address) (round : Z) (c : weightedCouncil) : go weightedCouncil :=
  p ← weightedRandomProposer c lastProposer round;
  match p with
  | Some p => mret (setProposer (Some p) c)
  | None =>
      match wc_validators c with
      | [] => mret (setProposer (Some (mkWV lastProposer zeroAddress 0 0)) c)
      | _ => p ← chooseProposerByRoundRobin c lastProposer round;
             mret (setProposer (Some p) c)
      end
  end.

(** ** Membership *)

(** [AddValidator]. *)
Definition AddValidator (addr : Address) (c : weightedCouncil) : bool * weightedCouncil :=
  match (getByAddress c addr).2, (getDemotedByAddress c addr).2 with
  | None, None =>
      (true, setLists (sortVals (wc_validators c ++ [mkWV addr zeroAddress 1000 0])) (wc_demotedValidators c) c)
  | _, _ => (false, c)
  end.

(** [removeValidatorFromProposers]. *)
Definition removeValidatorFromProposers (addr : Address) (c : weightedCouncil) : weightedCouncil :=
  setProposers (filter (fun v => wv_address v <> addr) (wc_proposers c)) (wc_proposersBlockNum c) c.

Definition removeAt {A} (i : nat) (l : list A) : list A := take i l ++ drop (S i) l.

(** [RemoveValidator]. *)
Definition RemoveValidator (addr : Address) (c : weightedCouncil) : bool * weightedCouncil :=
  match getByAddress c addr with
  | (i, Some _) =>
      (true, removeValidatorFromProposers addr
               (setLists (removeAt (Z.to_nat i) (wc_validators c)) (wc_demotedValidators c) c))
  | (_, None) =>
      match getDemotedByAddress c addr with
      | (i, Some _) => (true, setLists (wc_validators c) (removeAt (Z.to_nat i) (wc_demotedValidators c)) c)
      | (_, None) => (false, c)
      end
  end.

(** [ReplaceValidators]. *)
Definition ReplaceValidators (vals : list weightedValidator) (c : weightedCouncil) : weightedCouncil :=
  setLists vals (wc_demotedValidators c) c.

(** [Copy]: a nil [mixHash] becomes an empty one. *)
Definition Copy (c : weightedCouncil) : weightedCouncil :=
  SetMixHash (Some (default [] (wc_mixHash c))) c.

(** [F]. *)
Definition F (c : weightedCouncil) : Z :=
  if wc_subSize c <? Size c then ceilDiv (wc_subSize c) 3 - 1 else ceilDiv (Size c) 3 - 1.

(** ** Staking, demotion and weights *)

(** The sum of the amounts staked with the given reward address. *)
Fixpoint stakedWith (reward : Address) (rewards : list Address) (rIdx : nat) (amounts : list Z) : go Z :=
  match rewards with
  | [] => mret 0
  | r :: rewards =>
      if bool_decide (r = reward) then
        a ← index amounts rIdx;
        rest ← stakedWith reward rewards (S rIdx) amounts;
        mret (a + rest)
      else stakedWith reward rewards (S rIdx) amounts
  end.

(** [getStakingAmountsOfValidators]: each validator, with the reward address now known,
    and the amount staked for it (zero when it is not in the staking information). *)
Definition stakingAmount (si : StakingInfo) (v : weightedValidator) : go (weightedValidator * Z) :=
  match GetIndexByNodeAddress si (wv_address v) with
  | None => mret (v, 0)
  | Some cIdx =>
      r ← index (si_CouncilRewardAddrs si) cIdx;
      a ← stakedWith r (si_CouncilRewardAddrs si) 0 (si_CouncilStakingAmounts si);
      mret (mkWV (wv_address v) r (wv_votingPower v) (wv_weight v), a)
  end.
Definition getStakingAmountsOfValidators (vs : list weightedValidator) (si : StakingInfo)
    : go (list (weightedValidator * Z)) := mapM (stakingAmount si) vs.

(** [filterValidators], on validators paired with their staking: the validators kept and
    the demoted ones; the governing node is a nil pointer when it is not a candidate. *)
Definition filterValidators (isSingleMode : bool) (govNodeAddr : Address)
    (vs : list (weightedValidator * Z)) (minStaking : Z)
    : list (option weightedValidator * Z) * list (option weightedValidator * Z) :=
  let isGov v := isSingleMode && bool_decide (govNodeAddr = wv_address v.1) in
  let '(vals, demoted, gov) :=
    fold_left (fun '(vals, demoted, gov) v =>
        if isGov v then (vals, demoted, (Some v.1, v.2))
        else if minStaking <=? v.2 then (vals ++ [(Some v.1, v.2)], demoted, gov)
        else (vals, demoted ++ [(Some v.1, v.2)], gov))
      vs ([], [], (None, 0)) in
  let '(vals, demoted) :=
    match vals with
    | [] => if negb isSingleMode || (gov.2 <? minStaking) then (demoted, []) else (vals, demoted)
    | _ => (vals, demoted)
    end in
  (if isSingleMode then vals ++ [gov] else vals, demoted).

(** [calcTotalAmount]; [giniAdjust] is the floating-point power applied to the amounts
    when [UseGini] is set. *)
Definition calcTotalAmount (giniAdjust : list Z -> list Z) (si : StakingInfo) (amounts : list Z) : Z * list Z :=
  match si_CouncilNodeAddrs si with
  | [] => (0, amounts)
  | _ => let amounts := if si_UseGini si then giniAdjust amounts else amounts in
         (foldr Z.add 0 amounts, amounts)
  end.

Definition setWeight (w : Z) (v : weightedValidator) : weightedValidator :=
  mkWV (wv_address v) (wv_rewardAddress v) (wv_votingPower v) w.

(** [uint64(math.Round(amount * 100 / total))], and the minimum weight. *)
Definition roundedShare (amount total : Z) : Z := (200 * amount + total) / (2 * total).
Definition weightOf (amount total : Z) : Z :=
  let w := roundedShare amount total in if w <=? 0 then 1 else w.

(** [setZeroWeight] and [calcWeight]. *)
Definition setZeroWeight (vs : list weightedValidator) : list weightedValidator := map (setWeight 0) vs.
Definition calcWeight (vs : list weightedValidator) (amounts : list Z) (total : Z) : list weightedValidator :=
  if 0 <? total then zip_with (fun v a => setWeight (weightOf a total) v) vs amounts
  else map (setWeight 0) vs.

Inductive councilError := ErrNoValidator | ErrNoStakingInfo.

(** Dereferencing the validators of a list: a nil pointer panics. *)
Definition derefAll {E} (l : list (option weightedValidator * Z)) : res E (list (weightedValidator * Z)) :=
  mapM (fun v => match v.1 with Some w => Ok (w, v.2) | None => Panic end) l.

Definition toGo {E A} (r : go A) : res E A :=
  match r with Ok a => Ok a | Err e => match e with end | Panic => Panic | NoFuel => NoFuel end.

(** [RefreshValSet]; [getStakingInfo] is [reward.GetStakingInfo].  The reward addresses
    and the weights are written into the validator objects, so they survive the sorting
    and also change when the lists themselves are not replaced. *)
Definition RefreshValSet (getStakingInfo : Z -> option StakingInfo) (giniAdjust : list Z -> list Z)
    (blockNum : Z) (isSingle : bool) (governingNode : Address) (minStaking : Z) (c : weightedCouncil)
    : res councilError weightedCouncil :=
  if len (wc_validators c) =? 0 then Err ErrNoValidator
  else
    let stakingBlockNum :=
      if IsKaia rules blockNum then blockNum else u64 (CalcProposerBlockNumber interval blockNum + 1) in
    match getStakingInfo stakingBlockNum with
    | None => Err ErrNoStakingInfo
    | Some si =>
        let reweigh vs :=
          if IsKore rules blockNum then setZeroWeight (map fst vs)
          else let '(total, amounts) := calcTotalAmount giniAdjust si (map snd vs) in
               calcWeight (map fst vs) amounts total in
        cands ← toGo (getStakingAmountsOfValidators (wc_validators c ++ wc_demotedValidators c) si);
        if IsIstanbul rules blockNum then
          let '(vals, demoted) := filterValidators isSingle governingNode cands minStaking in
          vals ← derefAll vals;
          demoted ← derefAll demoted;
          mret (setLists (sortVals (reweigh vals)) (sortVals (map fst demoted)) c)
        else
          let cands := reweigh cands in
          let n := length (wc_validators c) in
          mret (setLists (take n cands) (drop n cands) c)
    end.

(** [refreshProposers]: as many entries per validator as its weight, shuffled; all
    validators once when every weight is zero. *)
Definition candidateIndexes (vs : list weightedValidator) : list nat :=
  let ix := flat_map (fun iv => replicate (Z.to_nat (wv_weight iv.2)) iv.1) (zip (seq 0 (length vs)) vs) in
  match ix with [] => seq 0 (length vs) | _ => ix end.
Definition refreshProposers (seed blockNum : Z) (c : weightedCouncil) : go weightedCouncil :=
  let ix := candidateIndexes (wc_validators c) in
  ix ← shuffleLoop rnd seed (length ix) (length ix) 0 ix;
  ps ← mapM (fun i => index (wc_validators c) i) ix;
  mret (setProposers ps blockNum c).

(** [RefreshProposers]. *)
Definition RefreshProposers (hash : bytes) (blockNum : Z) (c : weightedCouncil) : res councilError weightedCouncil :=
  if len (wc_validators c) =? 0 then Err ErrNoValidator
  else
    let seed := ConvertHashToSeed hash in
    if wc_proposersBlockNum c =? blockNum then mret c
    else toGo (refreshProposers seed blockNum c).

(** ** Committees *)

(** The search for a next proposer different from the proposer: at most [interval]
    rounds ahead. *)
Fixpoint nextProposerLoop (fuel : nat) (idx : Z) (c : weightedCouncil) (proposerAddr : Address) (round : Z)
    : go (option weightedValidator) :=
  match fuel with
  | O => mret None
  | S fuel =>
      np ← weightedRandomProposer c proposerAddr (u64 (u64 round + idx));
      match np with
      | None => Panic
      | Some v => if bool_decide (proposerAddr = wv_address v)
                  then nextProposerLoop fuel (idx + 1) c proposerAddr round
                  else mret (Some v)
      end
  end.

(** [SubListWithProposer]: [None] is the nil list returned when the mix hash is missing. *)
Definition SubListWithProposer (c : weightedCouncil) (prevHash : bytes) (proposerAddr : Address) (view : View)
    : go (option (list weightedValidator)) :=
  let validators := wc_validators c in
  let committeeSize := wc_subSize c in
  if len validators <=? committeeSize then mret (Some validators)
  else
    match getByAddress c proposerAddr with
    | (_, None) => mret (Some validators)
    | (proposerIdx, Some proposer) =>
        if committeeSize =? 1 then mret (Some [proposer])
        else if IsRandao rules (v_Sequence view) then
          match wc_mixHash c with
          | None => mret None
          | Some h => SelectRandaoCommittee rnd validators committeeSize h
          end
        else
          next ← nextProposerLoop (Z.to_nat interval) 1 c proposerAddr (v_Round view);
          match next with
          | None => mret (Some validators)
          | Some nextProposer =>
              match getByAddress c (wv_address nextProposer) with
              | (_, None) => mret (Some validators)
              | (nextProposerIdx, Some _) =>
                  let seed := ConvertHashToSeed prevHash in
                  let seed := if IsIstanbul rules (v_Sequence view) then i64 (seed + v_Round view) else seed in
                  committee ← SelectRandomCommittee rnd validators committeeSize seed proposerIdx nextProposerIdx;
                  mret (Some (default validators committee))
              end
          end
    end.

(** [GetProposer] panics when no proposer is set; [IsProposer] compares the validators
    themselves. *)
Definition GetProposer (c : weightedCouncil) : go weightedValidator :=
  match wc_proposer c with Some p => Ok p | None => Panic end.
Definition IsProposer (c : weightedCouncil) (addr : Address) : go bool :=
  p ← GetProposer c;
  mret (bool_decide ((getByAddress c addr).2 = Some p)).

(** [SubList] and [CheckInSubList]. *)
Definition SubList (c : weightedCouncil) (prevHash : bytes) (view : View) : go (option (list weightedValidator)) :=
  p ← GetProposer c;
  SubListWithProposer c prevHash (wv_address p) view.
Definition CheckInSubList (c : weightedCouncil) (prevHash : bytes) (view : View) (addr : Address) : go bool :=
  l ← SubList c prevHash view;
  mret (bool_decide (addr ∈ map wv_address (default [] l))).

(** [IsSubSet]. *)
Definition IsSubSet (c : weightedCouncil) : bool := wc_subSize c <? Size c.

End council.

(** ** Demotion *)

Definition inj (v : weightedValidator * Z) : option weightedValidator * Z := (Some v.1, v.2).

Definition isGov (isSingle : bool) (gov : Address) (v : weightedValidator * Z) : bool :=
  isSingle && bool_decide (gov = wv_address v.1).

(** The loop of [filterValidators] separates the candidates. *)
Lemma filter_loop isSingle gov minStaking vs : forall vals demoted g,
  fold_left (fun '(vals, demoted, g) v =>
      if isGov isSingle gov v then (vals, demoted, (Some v.1, v.2))
      else if minStaking <=? v.2 then (vals ++ [(Some v.1, v.2)], demoted, g)
      else (vals, demoted ++ [(Some v.1, v.2)], g)) vs (vals, demoted, g) =
  (vals ++ map inj (filter (fun v => isGov isSingle gov v = false /\ minStaking <= v.2) vs),
   demoted ++ map inj (filter (fun v => isGov isSingle gov v = false /\ v.2 < minStaking) vs),
   default g (last (map inj (filter (fun v => isGov isSingle gov v = true) vs)))).
Proof.
  induction vs as [|v vs IH]; intros vals demoted g; cbn [fold_left]; [by rewrite !app_nil_r|].
  rewrite !filter_cons. destruct (isGov isSingle gov v) eqn:E.
  - rewrite IH. rewrite !(decide_False (P := true = false /\ _)), decide_True by (done || by intros [? _]).
    f_equal. cbn [map]. rewrite last_cons. by destruct (last (map inj _)).
  - rewrite (decide_False (P := false = true)) by done. destruct (Z.leb_spec minStaking v.2); rewrite IH.
    + rewrite decide_True, decide_False by (try done; intros [_ ?]; lia). simpl. by rewrite <- app_assoc.
    + rewrite decide_False, decide_True by (try done; intros [_ ?]; lia). simpl. by rewrite <- app_assoc.
Qed.

(** The three groups make up the candidates. *)
Lemma filter_split isSingle gov minStaking vs :
  filter (fun v => isGov isSingle gov v = false /\ minStaking <= v.2) vs ++
  filter (fun v => isGov isSingle gov v = true) vs ++
  filter (fun v => isGov isSingle gov v = false /\ v.2 < minStaking) vs ≡ₚ vs.
Proof.
  induction vs as [|v vs IH]; [done|]. rewrite !filter_cons. destruct (isGov isSingle gov v) eqn:E.
  - rewrite !(decide_False (P := true = false /\ _)), decide_True by (done || by intros [? _]).
    simpl. rewrite <- Permutation_middle. by rewrite IH.
  - rewrite (decide_False (P := false = true)) by done. destruct (decide (minStaking <= v.2)).
    + rewrite decide_True, decide_False by (try done; intros [_ ?]; lia). simpl. by rewrite IH.
    + rewrite decide_False, decide_True by (try (split; [done|]); try intros [_ ?]; lia).
      rewrite <- !Permutation_middle. by rewrite IH.
Qed.

Lemma gov_group (isSingle : bool) gov (vs : list (weightedValidator * Z)) :
  (isSingle = true -> NoDup (map (fun v => wv_address v.1) vs) /\ gov ∈ map (fun v => wv_address v.1) vs) ->
  if isSingle then exists g, filter (fun v => isGov isSingle gov v = true) vs = [g] /\ isGov isSingle gov g = true
  else filter (fun v => isGov isSingle gov v = true) vs = [].
Proof.
  destruct isSingle; intros H.
  - destruct H as [Hn Hin]; [done|]. unfold isGov. simpl. induction vs as [|v vs IH]; [by apply not_elem_of_nil in Hin|].
    simpl in *. apply NoDup_cons in Hn as [Hv Hn]. rewrite filter_cons.
    destruct (decide (gov = wv_address v.1)) as [E|E].
    + exists v. rewrite decide_True by (by apply bool_decide_eq_true). split; [|by apply bool_decide_eq_true]. f_equal.
      apply elem_of_nil_inv. intros w [Hw%bool_decide_eq_true Hi]%list_elem_of_filter. destruct Hv.
      rewrite <- E, Hw. apply list_elem_of_fmap. eauto.
    + rewrite decide_False by (by rewrite bool_decide_eq_true). apply elem_of_cons in Hin as [->|Hin]; [done|]. by apply IH.
  - clear H. apply elem_of_nil_inv. intros w [Hw _]%list_elem_of_filter. done.
Qed.

(** Demotion splits the candidates: with the governing node among them in single
    mode, every candidate ends up on exactly one of the two lists, somebody remains a
    validator, only candidates below the minimum stake are demoted and never the governing
    node, and a validator below the minimum is the governing node unless nobody at all was
    demoted. *)
Theorem filterValidators_partition (isSingle : bool) (gov : Address) (vs : list (weightedValidator * Z)) (minStaking : Z) :
  vs <> [] ->
  (isSingle = true -> NoDup (map (fun v => wv_address v.1) vs) /\ gov ∈ map (fun v => wv_address v.1) vs) ->
  exists vals demoted,
    filterValidators isSingle gov vs minStaking = (map inj vals, map inj demoted) /\
    vals ++ demoted ≡ₚ vs /\ vals <> [] /\
    Forall (fun v => v.2 < minStaking /\ isGov isSingle gov v = false) demoted /\
    (Forall (fun v => minStaking <= v.2 \/ isGov isSingle gov v = true) vals \/ demoted = []).
Proof.
  intros Hne Hg. pose proof (filter_split isSingle gov minStaking vs) as Hs.
  unfold filterValidators. pose proof (filter_loop isSingle gov minStaking vs [] [] (None, 0)) as Hl.
  match goal with |- context [fold_left ?f vs ?a] => match type of Hl with _ = ?r => change (fold_left f vs a = r) in Hl end end.
  rewrite Hl. clear Hl. cbn [app].
  apply gov_group in Hg.
  set (hi := filter (fun v => isGov isSingle gov v = false /\ minStaking <= v.2) vs) in *.
  set (lo := filter (fun v => isGov isSingle gov v = false /\ v.2 < minStaking) vs) in *.
  assert (Hlo : Forall (fun v => v.2 < minStaking /\ isGov isSingle gov v = false) lo).
  { apply Forall_forall. intros v [[? ?] _]%list_elem_of_filter. done. }
  assert (Hhi : Forall (fun v => minStaking <= v.2 \/ isGov isSingle gov v = true) hi).
  { apply Forall_forall. intros v [[? ?] _]%list_elem_of_filter. auto. }
  clearbody hi lo. destruct isSingle.
  - destruct Hg as (g & Eg & Hgov). rewrite Eg in *. simpl map. simpl last. simpl default.
    assert (Hlast : Forall (fun v => minStaking <= v.2 \/ isGov true gov v = true) (hi ++ [g])).
    { apply Forall_app. split; [done|]. apply Forall_singleton. by right. }
    assert (Hkeep : exists vals demoted, (map inj hi ++ [inj g], map inj lo) = (map inj vals, map inj demoted) /\
      vals ++ demoted ≡ₚ vs /\ vals <> [] /\
      Forall (fun v => v.2 < minStaking /\ isGov true gov v = false) demoted /\
      (Forall (fun v => minStaking <= v.2 \/ isGov true gov v = true) vals \/ demoted = [])).
    { exists (hi ++ [g]), lo. rewrite map_app, <- app_assoc. split_and!; auto. by destruct hi. }
    destruct hi as [|h hi]; [|exact Hkeep]. simpl map at 1. cbn iota.
    destruct (negb true || ((inj g).2 <? minStaking)); [|exact Hkeep].
    exists (lo ++ [g]), []. rewrite map_app, app_nil_r. simpl in Hs. split_and!; auto.
    + by rewrite <- Hs, Permutation_app_comm.
    + by destruct lo.
  - rewrite Hg in *. simpl in Hs. destruct hi as [|h hi]; simpl map; cbn iota.
    + exists lo, []. simpl. rewrite app_nil_r. simpl in Hs. split_and!; auto.
      intros ->. by apply Hne, Permutation_nil.
    + exists (h :: hi), lo. split_and!; auto.
Qed.

(** ** Proposer shares *)

(** What the shuffled list must hold: every validator as often as its weight, or once each
    when all weights are zero. *)
Definition shares (vs : list weightedValidator) : list weightedValidator :=
  match flat_map (fun v => replicate (Z.to_nat (wv_weight v)) v) vs with [] => vs | l => l end.

Lemma weighted_indexes (l vs : list weightedValidator) (o : nat) :
  (forall i v, vs !! i = Some v -> l !! (o + i)%nat = Some v) ->
  Forall2 (fun i v => l !! i = Some v)
    (flat_map (fun iv => replicate (Z.to_nat (wv_weight iv.2)) iv.1) (zip (seq o (length vs)) vs))
    (flat_map (fun v => replicate (Z.to_nat (wv_weight v)) v) vs).
Proof.
  revert o. induction vs as [|v vs IH]; intros o H; [constructor|]. simpl. apply Forall2_app.
  - apply Forall2_replicate. specialize (H 0%nat v eq_refl). by rewrite Nat.add_0_r in H.
  - apply IH. intros i w Hi. rewrite Nat.add_succ_comm. by apply H.
Qed.

Lemma candidateIndexes_picks vs :
  Forall2 (fun i v => vs !! i = Some v) (candidateIndexes vs) (shares vs).
Proof.
  unfold candidateIndexes, shares. pose proof (weighted_indexes vs vs 0 ltac:(done)) as H.
  destruct H as [|i v ix l Hi H]; [|by constructor].
  apply Forall2_same_length_lookup_2; [by rewrite length_seq|]. intros i x y [-> Hi]%lookup_seq Hy. done.
Qed.

Lemma picks_perm {A} (l : list A) ix ix' c c' :
  ix ≡ₚ ix' -> Forall2 (fun i x => l !! i = Some x) ix c -> Forall2 (fun i x => l !! i = Some x) ix' c' -> c ≡ₚ c'.
Proof.
  intros Hp Hc Hc'.
  assert (H : forall ix c, Forall2 (fun i x => l !! i = Some x) ix c -> omap (l !!.) ix = c).
  { induction 1 as [|i x ix0 c0 Hi _ IH]; [done|]. csimpl. by rewrite Hi, IH. }
  rewrite <- (H _ _ Hc), <- (H _ _ Hc'). by rewrite Hp.
Qed.

Lemma refreshProposers_ok rnd seed n c :
  rand_ok rnd -> exists ps, refreshProposers rnd seed n c = Ok (setProposers ps n c) /\ ps ≡ₚ shares (wc_validators c).
Proof.
  intros Hr. unfold refreshProposers. pose proof (candidateIndexes_picks (wc_validators c)) as Hc.
  set (ix := candidateIndexes _) in *.
  destruct (shuffleLoop_ok rnd seed (length ix) (length ix) 0 ix Hr eq_refl (Nat.le_refl _)) as (ix' & -> & Hp).
  cbn [mbind res_bind]. destruct (mapM_index (E:=Empty_set) (wc_validators c) ix') as (ps & -> & Hps).
  { rewrite Hp. eapply Forall2_Forall_l; [exact Hc|]. apply Forall_true. intros v i Hi. by eapply lookup_lt_Some. }
  exists ps. split; [done|]. by eapply picks_perm.
Qed.

Lemma CalcProposerBlockNumber_le interval n :
  0 < interval -> 0 < n < 2 ^ 64 -> 0 <= CalcProposerBlockNumber interval n < n.
Proof.
  intros Hi Hn. unfold CalcProposerBlockNumber, IsProposerUpdateInterval.
  pose proof (Z.mod_pos_bound n interval Hi). pose proof (Z.mod_le n interval ltac:(lia) Hi).
  destruct (Z.eqb_spec (n mod interval) 0) as [E|E].
  - apply Z.mod_divide in E as [k ->]; [|lia].
    assert (1 <= k) by nia. assert (interval <= k * interval) by nia. rewrite u64_small; [lia|]. split; lia.
  - rewrite u64_small; [lia|]. split; lia.
Qed.

Lemma proposer_rotation rnd rules interval c last round :
  IsRandao rules (u64 (wc_blockNum c + 1)) = false -> wc_proposers c <> [] -> 0 < interval ->
  0 <= wc_blockNum c -> 0 <= round -> wc_blockNum c + round + len (wc_proposers c) + 1 < 2 ^ 64 ->
  exists l, l ≡ₚ wc_proposers c /\ forall i, (i < length l)%nat ->
    weightedRandomProposer rnd rules interval c last (round + Z.of_nat i) = Ok (l !! i).
Proof.
  intros Hra Hne Hi Hb Hr Hov. unfold weightedRandomProposer. rewrite Hra.
  assert (Hlen : 0 < len (wc_proposers c)) by (destruct (wc_proposers c); [done|]; rewrite len_cons; pose proof (len_nonneg l); lia).
  pose proof (CalcProposerBlockNumber_le interval (u64 (wc_blockNum c + 1)) Hi) as Hc.
  rewrite u64_small in Hc by (split; lia). rewrite (u64_small (wc_blockNum c + 1)) by (split; lia).
  specialize (Hc ltac:(lia)). set (pb := CalcProposerBlockNumber _ _) in *.
  set (ps := wc_proposers c) in *. set (m := Z.to_nat ((wc_blockNum c + round - pb) mod len ps)).
  pose proof (Z.mod_pos_bound (wc_blockNum c + round - pb) (len ps) Hlen) as Hm.
  exists (rotate_list m ps). split; [apply rotate_list_perm|]. intros i Hlt.
  rewrite (Permutation_length (rotate_list_perm m ps)) in Hlt. unfold len in *.
  rewrite rotate_list_lookup by lia. destruct ps as [|p0 ps0] eqn:Eps; [done|]. rewrite <- Eps in *.
  unfold mret, res_ret. do 2 f_equal. rewrite (u64_small (_ + (_ + _))) by (split; lia). rewrite u64_small by (split; lia).
  unfold m. rewrite <- Eps. rewrite <- (Nat2Z.id ((_ + _) mod _)). f_equal. rewrite Nat2Z.inj_mod, Nat2Z.inj_add, Z2Nat.id by lia.
  rewrite Zplus_mod_idemp_l. f_equal. lia.
Qed.

(** C32. Proposers get their shares: refreshing the proposer list puts each validator on it
    exactly as often as its weight says, or once each when all weights are zero, and over
    as many consecutive rounds as the list is long, starting anywhere, the council selects
    each validator exactly that many times. *)
Theorem weighted_proposer_shares (rnd : randSource) (rules : chainRules) (interval : Z) (c : weightedCouncil)
    (hash : bytes) (blockNum : Z) (last : Address) (round : Z) :
  rand_ok rnd -> wc_validators c <> [] -> wc_proposersBlockNum c <> blockNum ->
  IsRandao rules (u64 (wc_blockNum c + 1)) = false -> 0 < interval -> 0 <= wc_blockNum c -> 0 <= round ->
  wc_blockNum c + round + len (shares (wc_validators c)) + 1 < 2 ^ 64 ->
  exists c', RefreshProposers rnd hash blockNum c = Ok c' /\
    wc_proposers c' ≡ₚ shares (wc_validators c) /\
    exists l, l ≡ₚ shares (wc_validators c) /\ forall i, (i < length l)%nat ->
      weightedRandomProposer rnd rules interval c' last (round + Z.of_nat i) = Ok (l !! i).
Proof.
  intros Hrnd Hv Hn Hra Hi Hb Hr Hov. unfold RefreshProposers.
  destruct (Z.eqb_spec (len (wc_validators c)) 0) as [E|_].
  { destruct (wc_validators c) as [|v l]; [done|]. rewrite len_cons in E. pose proof (len_nonneg l). lia. }
  destruct (Z.eqb_spec (wc_proposersBlockNum c) blockNum) as [?|_]; [done|].
  destruct (refreshProposers_ok rnd (ConvertHashToSeed hash) blockNum c Hrnd) as (ps & -> & Hps).
  exists (setProposers ps blockNum c). split; [done|]. split; [exact Hps|].
  destruct (proposer_rotation rnd rules interval (setProposers ps blockNum c) last round) as (l & Hl & Hrot); simpl; try done.
  - intros ->. apply Permutation_nil in Hps. unfold shares in Hps. by destruct (flat_map _ _).
  - unfold len in *. rewrite (Permutation_length Hps). done.
  - exists l. split; [|done]. by rewrite Hl.
Qed.

(** ** Committees after the Randao fork *)

Lemma findVal_spec addr l : forall i,
  (addr ∉ map wv_address l /\ findVal i addr l = (-1, None)) \/
  exists k v, l !! k = Some v /\ wv_address v = addr /\ findVal i addr l = (i + Z.of_nat k, Some v).
Proof.
  induction l as [|v l IH]; intros i; simpl; [left; split; [apply not_elem_of_nil|done]|].
  case_bool_decide as E.
  - right. exists 0%nat, v. split_and!; [done|done|]. by rewrite Z.add_0_r.
  - destruct (IH (i + 1)) as [[Hn ->]|(k & w & Hk & Hw & ->)].
    + left. by rewrite not_elem_of_cons.
    + right. exists (S k), w. split_and!; [done|done|]. f_equal. lia.
Qed.

(** After the Randao fork proposers and committee agree: with a mix hash of at least
    eight bytes and a committee of two or more, the committee is chosen from the
    validators without repetition, and the proposer of every round is one of its members. *)
Theorem randao_proposer_in_committee (rnd : randSource) (rules : chainRules) (interval : Z) (c : weightedCouncil)
    (prevHash mixHash : bytes) (proposer last : Address) (view : View) (round : Z) :
  rand_ok rnd -> wc_validators c <> [] -> 2 <= wc_subSize c -> wc_mixHash c = Some mixHash -> 8 <= len mixHash ->
  IsRandao rules (u64 (wc_blockNum c + 1)) = true -> IsRandao rules (v_Sequence view) = true -> 0 <= round ->
  exists committee p,
    SubListWithProposer rnd rules interval c prevHash proposer view = Ok (Some committee) /\
    committee ⊆+ wc_validators c /\
    (proposer ∈ map wv_address (wc_validators c) -> len committee = Z.min (wc_subSize c) (Size c)) /\
    weightedRandomProposer rnd rules interval c last round = Ok (Some p) /\ p ∈ committee.
Proof.
  intros Hr Hne Hs Hm Hh Hra1 Hra2 Hrd.
  destruct (SelectRandao_ok rnd (wc_validators c) (wc_subSize c) mixHash Hr Hs Hh) as (k & Ek & Hk & Hsub).
  assert (Hk0 : 0 < len k).
  { rewrite Hk. destruct (wc_validators c) as [|v l]; [done|]. rewrite len_cons. pose proof (len_nonneg l). lia. }
  pose proof (Z.mod_pos_bound round (len k) Hk0) as Hb. unfold len in Hb.
  destruct (lookup_lt_is_Some_2 k (Z.to_nat (round mod len k))) as [p Hp]; [unfold len; lia|].
  assert (Hprop : weightedRandomProposer rnd rules interval c last round = Ok (Some p) /\ p ∈ k).
  { unfold weightedRandomProposer. rewrite Hra1, Hm, Ek. cbn [mbind res_bind default from_option id].
    split; [|by eapply list_elem_of_lookup_2]. destruct k; [done|]. cbn. by rewrite <- Hp. }
  destruct Hprop as [Hprop Hin]. assert (Hv : p ∈ wc_validators c) by (by eapply elem_of_submseteq).
  unfold SubListWithProposer, Size in *. destruct (Z.leb_spec (len (wc_validators c)) (wc_subSize c)).
  { exists (wc_validators c), p. split_and!; auto. intros _. lia. }
  unfold getByAddress. destruct (findVal_spec proposer (wc_validators c) 0) as [[Hn ->]|(i & v & Hi & Hw & ->)].
  { exists (wc_validators c), p. split_and!; auto. by intros ?. }
  destruct (Z.eqb_spec (wc_subSize c) 1); [lia|]. rewrite Hra2, Hm, Ek. exists k, p. split_and!; auto.
Qed.

(** With a committee size of one the Randao proposer does not depend on the mix hash:
    the proposer of round [r] is the validator at position [r] modulo the number of
    validators, while the committee is just the given proposer. *)
Lemma randao_single_committee (rnd : randSource) (rules : chainRules) (interval : Z) (c : weightedCouncil)
    (prevHash mixHash : bytes) (v : weightedValidator) (last : Address) (view : View) (round : Z) :
  wc_subSize c = 1 -> wc_mixHash c = Some mixHash -> IsRandao rules (u64 (wc_blockNum c + 1)) = true ->
  1 < Size c -> v ∈ wc_validators c -> NoDup (map wv_address (wc_validators c)) ->
  weightedRandomProposer rnd rules interval c last round = Ok (wc_validators c !! Z.to_nat (round mod Size c)) /\
  SubListWithProposer rnd rules interval c prevHash (wv_address v) view = Ok (Some [v]).
Proof.
  intros Hs Hm Hra Hn Hv Hnd. unfold Size in Hn. split.
  - unfold weightedRandomProposer, SelectRandaoCommittee, Size. rewrite Hra, Hm, Hs. cbn -[len].
    by destruct (wc_validators c).
  - unfold SubListWithProposer, getByAddress. rewrite Hs. destruct (Z.leb_spec (len (wc_validators c)) 1); [lia|].
    destruct (findVal_spec (wv_address v) (wc_validators c) 0) as [[Hni _]|(i & w & Hi & Hw & ->)].
    { destruct Hni. apply list_elem_of_fmap. eauto. }
    apply list_elem_of_lookup in Hv as [j Hj].
    assert (i = j) as -> by (eapply NoDup_lookup; [exact Hnd|rewrite list_lookup_fmap, Hi; simpl; by rewrite Hw|by rewrite list_lookup_fmap, Hj]).
    by simplify_eq.
Qed.

(** A copied council forgets that its mix hash was missing: after the Randao fork a
    council without a mix hash yields no proposer, so that round robin takes over, but
    the same query on its copy panics when the committee has two or more members. *)
Theorem copy_loses_missing_mixhash (rnd : randSource) (rules : chainRules) (interval : Z) (c : weightedCouncil)
    (last : Address) (round : Z) :
  wc_mixHash c = None -> IsRandao rules (u64 (wc_blockNum c + 1)) = true -> 2 <= wc_subSize c ->
  wc_validators c <> [] ->
  (exists p, CalcProposer rnd rules interval last round c = Ok (setProposer (Some p) c) /\ p ∈ wc_validators c) /\
  CalcProposer rnd rules interval last round (Copy c) = Panic.
Proof.
  intros Hm Hra Hs Hne. unfold CalcProposer, weightedRandomProposer. cbn [Copy SetMixHash wc_blockNum wc_mixHash wc_validators wc_subSize].
  rewrite Hra, Hm. split.
  - cbn [mbind res_bind mret res_ret]. unfold chooseProposerByRoundRobin.
    destruct (wc_validators c) as [|v vs] eqn:Ev; [done|]. rewrite <- Ev in *.
    match goal with |- context [?s mod len _] => set (seed := s) end.
    assert (Hl : 0 < len (wc_validators c)) by (rewrite Ev, len_cons; pose proof (len_nonneg vs); lia).
    pose proof (Z.mod_pos_bound seed _ Hl). unfold len in *.
    destruct (lookup_lt_is_Some_2 (wc_validators c) (Z.to_nat (seed mod Z.of_nat (length (wc_validators c))))) as [p Hp]; [lia|].
    exists p. rewrite (index_lookup _ _ _ Hp). split; [done|]. by eapply list_elem_of_lookup_2.
  - unfold SelectRandaoCommittee. destruct (Z.ltb_spec (wc_subSize c) 2); [lia|]. done.
Qed.

(** ** Storing and restoring

    [backend/snapshot.go] for the weighted policy: what [toJSONStruct] keeps of the council
    and what [UnmarshalJSON] rebuilds.  An empty mix hash is omitted from the JSON text. *)

Record snapshotJSON := mkJSON {
  j_Number : Z;
  j_Validators : list Address;
  j_Policy : ProposerPolicy;
  j_SubGroupSize : Z;
  j_RewardAddrs : list Address;
  j_VotingPowers : list Z;
  j_Weights : list Z;
  j_Proposers : list Address;
  j_ProposersBlockNum : Z;
  j_DemotedValidators : list Address;
  j_MixHash : option bytes
}.

(** [Snapshot.toJSONStruct]. *)
Definition toJSONStruct (number committeeSize : Z) (c : weightedCouncil) : snapshotJSON :=
  let '(vs, ds, rs, vps, ws, ps, pbn, mix) := GetWeightedCouncilData c in
  mkJSON number vs (wc_policy c) committeeSize rs vps ws ps pbn ds
    (match mix with Some [] => None | m => m end).

(** [Snapshot.UnmarshalJSON]: a council that was not built is a nil pointer. *)
Definition UnmarshalJSON (addrString : Address -> bytes) (j : snapshotJSON) : go weightedCouncil :=
  match NewWeightedCouncil addrString (j_Validators j) (j_DemotedValidators j) (Some (j_RewardAddrs j))
          (Some (j_VotingPowers j)) (Some (j_Weights j)) (j_Policy j) (j_SubGroupSize j) (j_Number j)
          (j_ProposersBlockNum j) with
  | None => Panic
  | Some c =>
      c ← RecoverWeightedCouncilProposer c (j_Proposers j);
      mret (SetMixHash (j_MixHash j) c)
  end.

Section restore.
Context (addrString : Address -> bytes) (addrString_inj : Inj (=) (=) addrString).

(** A council in order: sorted validators with different addresses. *)
Definition council_ok (c : weightedCouncil) : Prop :=
  wc_policy c = WeightedRandom /\ NoDup (map wv_address (wc_validators c)) /\
  StronglySorted (val_le addrString) (wc_validators c).

#[local] Instance val_le_total : Total (val_le addrString).
Proof. intros a b. apply string_leb_total. Qed.
#[local] Instance val_le_trans : Transitive (val_le addrString).
Proof. intros a b c. apply string_leb_trans. Qed.

Lemma zip_fields (vs : list weightedValidator) :
  zip_with (fun '(a, r) '(p, w) => mkWV a r p w)
    (zip (map wv_address vs) (map wv_rewardAddress vs)) (zip (map wv_votingPower vs) (map wv_weight vs)) = vs.
Proof. induction vs as [|[] vs IH]; simpl; [done|]. by rewrite IH. Qed.

Lemma sortVals_sorted vs :
  NoDup (map wv_address vs) -> StronglySorted (val_le addrString) vs -> sortVals addrString vs = vs.
Proof using addrString_inj.
  intros Hn Hs. apply (StronglySorted_unique_strong (val_le addrString)).
  - unfold sortVals. intros a b Ha Hb Hab Hba. rewrite merge_sort_Permutation in Ha.
    pose proof (string_leb_antisym _ _ Hab Hba) as He%addrString_inj.
    apply list_elem_of_lookup in Ha as [i Hi], Hb as [j Hj].
    assert (i = j) as -> by (eapply NoDup_lookup; [exact Hn|by rewrite list_lookup_fmap, Hi|rewrite list_lookup_fmap, Hj; simpl; by rewrite He]).
    by simplify_eq.
  - apply StronglySorted_merge_sort; apply _.
  - done.
  - apply merge_sort_Permutation.
Qed.

Lemma recoverLoop_ok c addrs : forall ps,
  Forall (fun a => a ∈ map wv_address (wc_validators c)) addrs ->
  exists qs, recoverLoop c addrs ps = Ok (ps ++ qs) /\ map wv_address qs = addrs /\ Forall (fun v => v ∈ wc_validators c) qs.
Proof.
  induction addrs as [|a addrs IH]; intros ps H; [exists []; by rewrite app_nil_r|].
  apply Forall_cons in H as [Ha H]. simpl. unfold getByAddress.
  destruct (findVal_spec a (wc_validators c) 0) as [[Hn _]|(k & v & Hk & Hv & ->)]; [done|]. simpl.
  destruct (IH (ps ++ [v]) H) as (qs & -> & Hm & Hf). exists (v :: qs). rewrite <- app_assoc. simpl.
  split_and!; [done|by rewrite Hv, Hm|]. apply Forall_cons. split; [by eapply list_elem_of_lookup_2|done].
Qed.

Lemma recoverLoop_panic c addrs : forall ps,
  Exists (fun a => a ∉ map wv_address (wc_validators c)) addrs -> recoverLoop c addrs ps = Panic.
Proof.
  induction addrs as [|a addrs IH]; intros ps H; [by inversion H|]. simpl. unfold getByAddress.
  destruct (findVal_spec a (wc_validators c) 0) as [[Hn ->]|(k & v & Hk & Hv & ->)]; [done|]. simpl.
  apply IH. apply Exists_cons in H as [Hn|H]; [|done]. destruct Hn. subst a. apply list_elem_of_fmap.
  exists v. split; [done|]. by eapply list_elem_of_lookup_2.
Qed.

(** The council [NewWeightedCouncil] rebuilds from the stored fields. *)
Lemma UnmarshalJSON_eq c number size :
  council_ok c ->
  UnmarshalJSON addrString (toJSONStruct number size c) =
    (let c0 := SetSubGroupSize size (mkCouncil 0
       (sortVals addrString (map (fun a => mkWV a zeroAddress 1000 0) (map wv_address (wc_demotedValidators c))))
       (wc_validators c) WeightedRandom (wc_validators c !! 0%nat) (wc_validators c) (wc_proposersBlockNum c) number None) in
     c1 ← RecoverWeightedCouncilProposer c0 (map wv_address (wc_proposers c));
     mret (SetMixHash (match wc_mixHash c with Some [] => None | m => m end) c1)).
Proof using addrString_inj.
  intros (Hp & Hn & Hs). unfold UnmarshalJSON, toJSONStruct, NewWeightedCouncil. 
  cbn [GetWeightedCouncilData j_Validators j_Policy j_SubGroupSize j_RewardAddrs j_VotingPowers j_Weights j_Proposers
    j_ProposersBlockNum j_DemotedValidators j_MixHash j_Number default from_option id].
  rewrite Hp, zip_fields, (sortVals_sorted (wc_validators c)) by done.
  rewrite bool_decide_eq_true_2; [by destruct (wc_mixHash c) as [[]|]|]. by rewrite !length_map.
Qed.

(** Storing and restoring: a council whose proposers are all among its validators
    comes back with the same validators, the same proposers in the same order, the same
    demoted addresses and the same proposer block, whatever the weights. *)
Theorem council_store_roundtrip (c : weightedCouncil) (number size : Z) :
  council_ok c -> Forall (fun p => p ∈ wc_validators c) (wc_proposers c) ->
  exists c', UnmarshalJSON addrString (toJSONStruct number size c) = Ok c' /\
    wc_validators c' = wc_validators c /\ wc_proposers c' = wc_proposers c /\
    map wv_address (wc_demotedValidators c') ≡ₚ map wv_address (wc_demotedValidators c) /\
    wc_proposersBlockNum c' = wc_proposersBlockNum c /\ wc_blockNum c' = number /\
    default [] (wc_mixHash c') = default [] (wc_mixHash c).
Proof using addrString_inj.
  intros Hok Hps. rewrite UnmarshalJSON_eq by done. set (c0 := SetSubGroupSize _ _).
  assert (Hc0 : wc_validators c0 = wc_validators c /\ wc_proposersBlockNum c0 = wc_proposersBlockNum c /\
    wc_blockNum c0 = number /\ map wv_address (wc_demotedValidators c0) ≡ₚ map wv_address (wc_demotedValidators c)).
  { unfold c0, SetSubGroupSize. destruct (size =? 0); simpl; (split_and!; [done..|]);
      unfold sortVals; rewrite merge_sort_Permutation, map_map; simpl; by rewrite map_id. }
  destruct Hc0 as (Hv & Hb & Hnum & Hd). unfold RecoverWeightedCouncilProposer.
  destruct (recoverLoop_ok c0 (map wv_address (wc_proposers c)) []) as (qs & -> & Hm & Hq).
  { rewrite Hv. apply Forall_map. eapply Forall_impl; [exact Hps|]. intros p Hp. apply list_elem_of_fmap. eauto. }
  eexists. split; [reflexivity|]. simpl. rewrite Hv in *. split_and!; try done; [|by destruct (wc_mixHash c) as [[]|]].
  destruct Hok as (_ & Hn & _). clear - Hn Hps Hm Hq. revert qs Hm Hq.
  induction (wc_proposers c) as [|p ps IH]; intros [|q qs] Hm Hq; try done.
  simpl in Hm. injection Hm as He Hm. apply Forall_cons in Hq as [Hq Hqs], Hps as [Hp Hps]. f_equal; [|by apply IH].
  apply list_elem_of_lookup in Hp as [i Hi], Hq as [j Hj].
  assert (i = j) as -> by (eapply NoDup_lookup; [exact Hn|by rewrite list_lookup_fmap, Hi|rewrite list_lookup_fmap, Hj; simpl; by rewrite He]).
  by simplify_eq.
Qed.

(** A stale proposer cannot be restored: once the list of proposers holds somebody who
    is no longer a validator (demotion does not touch the proposers), the stored council
    can be written but reading it back panics. *)
Theorem stale_proposer_panics (rules : chainRules) (interval : Z) (getStakingInfo : Z -> option StakingInfo)
    (giniAdjust : list Z -> list Z) (blockNum : Z) (isSingle : bool) (gov : Address) (minStaking : Z)
    (c c' : weightedCouncil) (p : weightedValidator) (number size : Z) :
  RefreshValSet addrString rules interval getStakingInfo giniAdjust blockNum isSingle gov minStaking c = Ok c' ->
  council_ok c' -> p ∈ wc_proposers c -> wv_address p ∉ map wv_address (wc_validators c') ->
  UnmarshalJSON addrString (toJSONStruct number size c') = Panic.
Proof using addrString_inj.
  intros Href Hok Hp Hnv. assert (Hps : wc_proposers c' = wc_proposers c).
  { unfold RefreshValSet in Href. destruct (_ =? 0); [done|]. destruct (getStakingInfo _) as [si|]; [|done].
    apply bind_ok in Href as (cands & _ & Href). destruct (IsIstanbul rules blockNum); [|by inversion Href].
    destruct (filterValidators _ _ _ _). apply bind_ok in Href as (vals & _ & Href).
    apply bind_ok in Href as (dem & _ & Href). by inversion Href. }
  rewrite UnmarshalJSON_eq by done. unfold RecoverWeightedCouncilProposer. rewrite recoverLoop_panic; [done|].
  rewrite Hps. apply Exists_exists. exists (wv_address p). split; [apply list_elem_of_fmap; eauto|].
  unfold SetSubGroupSize. by destruct (size =? 0).
Qed.

End restore.

(** ** Examples *)

Definition wv (a w : Z) : weightedValidator := mkWV [a] [a + 100] 1000 w.
Definition demo_council : weightedCouncil :=
  mkCouncil 2 [] [wv 1 1; wv 2 2; wv 3 0] WeightedRandom None [wv 2 2; wv 1 1; wv 2 2] 0 7 (Some (replicate 32 9)).
Definition demo_rules : chainRules := mkRules (fun _ => true) (fun _ => true) (fun n => 8 <=? n) (fun n => 8 <=? n).
Definition late_rules : chainRules := mkRules (fun _ => true) (fun _ => true) (fun _ => false) (fun _ => false).
Definition demo_staking (_ : Z) : option StakingInfo :=
  Some (mkStaking 0 [[1]; [2]; [3]] [[11]; [12]; [13]] [[101]; [102]; [103]] [201] [202] false [500; 20; 700]).

Lemma demo_council_ok : council_ok (fun a => a) demo_council.
Proof.
  split; [done|]. split; [apply (bool_decide_unpack _); vm_compute; exact I|]. repeat constructor.
Qed.

Lemma filterValidators_partition_witness :
  exists vals demoted, filterValidators true [2] [(wv 1 0, 500); (wv 2 0, 20); (wv 3 0, 30)] 100 =
      (map inj vals, map inj demoted) /\
    vals ++ demoted ≡ₚ [(wv 1 0, 500); (wv 2 0, 20); (wv 3 0, 30)] /\ vals <> [] /\
    Forall (fun v => v.2 < 100 /\ isGov true [2] v = false) demoted /\
    (Forall (fun v => 100 <= v.2 \/ isGov true [2] v = true) vals \/ demoted = []).
Proof.
  apply filterValidators_partition; [discriminate|]. intros _. split; apply (bool_decide_unpack _); vm_compute; exact I.
Defined.

Lemma weighted_proposer_shares_witness :
  exists c', RefreshProposers demo_rand (replicate 32 5) 3 demo_council = Ok c' /\
    wc_proposers c' ≡ₚ [wv 1 1; wv 2 2; wv 2 2] /\
    exists l, l ≡ₚ [wv 1 1; wv 2 2; wv 2 2] /\ forall i, (i < length l)%nat ->
      weightedRandomProposer demo_rand late_rules 4 c' [1] (6 + Z.of_nat i) = Ok (l !! i).
Proof.
  apply (weighted_proposer_shares demo_rand late_rules 4 demo_council (replicate 32 5) 3 [1] 6);
    [apply demo_rand_ok|discriminate|discriminate|reflexivity|lia|simpl; lia|lia|vm_compute; reflexivity].
Defined.

Lemma randao_proposer_in_committee_witness :
  exists committee p,
    SubListWithProposer demo_rand demo_rules 4 demo_council (replicate 32 5) [3] (mkView 8 1) = Ok (Some committee) /\
    committee ⊆+ wc_validators demo_council /\
    ([3] ∈ map wv_address (wc_validators demo_council) -> len committee = 2) /\
    weightedRandomProposer demo_rand demo_rules 4 demo_council [1] 5 = Ok (Some p) /\ p ∈ committee.
Proof.
  apply (randao_proposer_in_committee demo_rand demo_rules 4 demo_council (replicate 32 5) (replicate 32 9) [3] [1] (mkView 8 1) 5);
    [apply demo_rand_ok|discriminate|simpl; lia|reflexivity|vm_compute; discriminate|reflexivity|reflexivity|lia].
Defined.

Lemma copy_loses_missing_mixhash_witness :
  (exists p, CalcProposer demo_rand demo_rules 4 [1] 0 (SetMixHash None demo_council) =
      Ok (setProposer (Some p) (SetMixHash None demo_council)) /\ p ∈ wc_validators demo_council) /\
  CalcProposer demo_rand demo_rules 4 [1] 0 (Copy (SetMixHash None demo_council)) = Panic.
Proof.
  apply (copy_loses_missing_mixhash demo_rand demo_rules 4 (SetMixHash None demo_council) [1] 0);
    [reflexivity|reflexivity|simpl; lia|discriminate].
Defined.

Lemma council_store_roundtrip_witness :
  exists c', UnmarshalJSON (fun a => a) (toJSONStruct 7 2 demo_council) = Ok c' /\
    wc_validators c' = wc_validators demo_council /\ wc_proposers c' = wc_proposers demo_council /\
    map wv_address (wc_demotedValidators c') ≡ₚ map wv_address (wc_demotedValidators demo_council) /\
    wc_proposersBlockNum c' = 0 /\ wc_blockNum c' = 7 /\ default [] (wc_mixHash c') = replicate 32 9.
Proof.
  apply (council_store_roundtrip (fun a => a) ltac:(intros a b ?; done) demo_council 7 2 demo_council_ok).
  repeat apply Forall_cons_2; try apply Forall_nil_2; set_solver.
Defined.

(** The second validator is demoted while its entry stays on the proposer list. *)
Definition demoted_council : weightedCouncil :=
  setLists [mkWV [1] [101] 1000 0; mkWV [3] [103] 1000 0] [mkWV [2] [102] 1000 2] demo_council.

Lemma demoted_council_ok : council_ok (fun a => a) demoted_council.
Proof.
  split; [done|]. split; [apply (bool_decide_unpack _); vm_compute; exact I|]. repeat constructor.
Qed.

Lemma stale_proposer_panics_witness :
  UnmarshalJSON (fun a => a) (toJSONStruct 8 2 demoted_council) = Panic.
Proof.
  apply (stale_proposer_panics (fun a => a) ltac:(intros a b ?; done) demo_rules 4 demo_staking (fun l => l) 9 false [] 100
           demo_council demoted_council (wv 2 2) 8 2);
    [vm_compute; reflexivity|apply demoted_council_ok|set_solver|apply (bool_decide_unpack _); vm_compute; exact I].
Defined.

End Council.
