(* ===== verification/Prque.v ===== *)
(** * The priority queue

    Model of [common/prque] (the block-allocated stack of [sstack.go] and the queue of
    [prque.go]) and of [container/heap], which works on it through [heap.Interface].  The
    heap operations are proved against that interface, and the stack implements it. *)

From S2P Require Import Prelude.

Module Heap.

(** ** [heap.Interface] *)

Class HeapInterface (S A : Type) := {
  h_Len : S -> nat;
  h_Less : S -> nat -> nat -> go bool;
  h_Swap : S -> nat -> nat -> go S;
  h_Push : S -> A -> go S;
  h_Pop : S -> go (A * S)
}.

Section heap.
Context {S A : Type} `{HeapInterface S A}.

(** [heap.up]: the parent of the root is the root, as [(0-1)/2 = 0]. *)
Fixpoint up (fuel : nat) (h : S) (j : nat) : go S :=
  match fuel with
  | O => NoFuel
  | Datatypes.S fuel =>
      let i := ((j - 1) / 2)%nat in
      if (i =? j)%nat then mret h
      else lt ← h_Less h j i;
           if lt : bool then h ← h_Swap h i j; up fuel h i else mret h
  end.

(** [heap.down]. *)
Fixpoint down (fuel : nat) (h : S) (i n : nat) : go S :=
  match fuel with
  | O => NoFuel
  | Datatypes.S fuel =>
      let j1 := (2 * i + 1)%nat in
      if (n <=? j1)%nat then mret h
      else
        let j2 := (j1 + 1)%nat in
        right ← (if (j2 <? n)%nat then h_Less h j2 j1 else mret false);
        let j := if right : bool then j2 else j1 in
        lt ← h_Less h j i;
        if lt : bool then h ← h_Swap h i j; down fuel h j n else mret h
  end.

(** [heap.Push] and [heap.Pop]. *)
Definition Push (h : S) (x : A) : go S :=
  h ← h_Push h x;
  up (h_Len h) h (h_Len h - 1).
Definition Pop (h : S) : go (A * S) :=
  match h_Len h with
  | O => Panic
  | Datatypes.S n =>
      h ← h_Swap h 0 n;
      h ← down (Datatypes.S n) h 0 n;
      h_Pop h
  end.

End heap.

(** ** What an implementation promises *)

(** Exchanging two positions of a list. *)
Definition exchange {A} (l : list A) (i j : nat) : list A :=
  match l !! i, l !! j with
  | Some a, Some b => <[j := a]> (<[i := b]> l)
  | _, _ => l
  end.

Class HeapLaws (S A : Type) (I : HeapInterface S A) (prio : A -> Z) := {
  wf : S -> Prop;
  contents : S -> list A;
  h_Len_law : forall s, wf s -> h_Len s = length (contents s);
  h_Less_law : forall s i j a b, wf s -> contents s !! i = Some a -> contents s !! j = Some b ->
    h_Less s i j = Ok (bool_decide (prio b < prio a));
  h_Swap_law : forall s i j, wf s -> (i < length (contents s))%nat -> (j < length (contents s))%nat ->
    exists s', h_Swap s i j = Ok s' /\ wf s' /\ contents s' = exchange (contents s) i j;
  h_Push_law : forall s x, wf s -> - 2 ^ 62 <= prio x < 2 ^ 62 ->
    exists s', h_Push s x = Ok s' /\ wf s' /\ contents s' = contents s ++ [x];
  h_Pop_law : forall s l x, wf s -> contents s = l ++ [x] ->
    exists s', h_Pop s = Ok (x, s') /\ wf s' /\ contents s' = l
}.

(** ** Exchanges *)

Lemma exchange_lookup {A} (l : list A) i j k :
  (i < length l)%nat -> (j < length l)%nat ->
  exchange l i j !! k = if decide (k = j) then l !! i else if decide (k = i) then l !! j else l !! k.
Proof.
  intros Hi Hj. unfold exchange. destruct (lookup_lt_is_Some_2 l i Hi) as [a Ha], (lookup_lt_is_Some_2 l j Hj) as [b Hb].
  rewrite Ha, Hb, !list_lookup_insert, length_insert. repeat case_decide; naive_solver.
Qed.

Lemma exchange_length {A} (l : list A) i j : length (exchange l i j) = length l.
Proof. unfold exchange. destruct (l !! i), (l !! j); rewrite ?length_insert; done. Qed.

Lemma exchange_perm {A} (l : list A) i j : (i < length l)%nat -> (j < length l)%nat -> exchange l i j ≡ₚ l.
Proof.
  intros Hi Hj. apply Permutation_inj. split; [apply exchange_length|].
  exists (fun k => if decide (k = j) then i else if decide (k = i) then j else k).
  split; [intros a b; repeat case_decide; lia|]. intros k. rewrite exchange_lookup by done.
  repeat case_decide; done.
Qed.

(** ** Heap order *)

Section order.
Context {S A : Type} {I : HeapInterface S A} {prio : A -> Z} {L : HeapLaws S A I prio}.

Abbreviation par k := ((k - 1) / 2)%nat.

Lemma par_spec k : (0 < k)%nat -> (2 * par k + 1 = k \/ 2 * par k + 2 = k)%nat.
Proof.
  intros. pose proof (Nat.div_mod (k - 1) 2 ltac:(lia)). pose proof (Nat.mod_upper_bound (k - 1) 2 ltac:(lia)). lia.
Qed.

Lemma par_of k i : (k = 2 * i + 1 \/ k = 2 * i + 2)%nat -> par k = i.
Proof. intros. pose proof (par_spec k ltac:(lia)). lia. Qed.

Definition key (l : list A) (i : nat) : Z := from_option prio 0 (l !! i).

Lemma key_exchange l i j k : (i < length l)%nat -> (j < length l)%nat ->
  key (exchange l i j) k = if decide (k = j) then key l i else if decide (k = i) then key l j else key l k.
Proof. intros. unfold key. rewrite exchange_lookup by done. by repeat case_decide. Qed.

(** Every element of the first [n] is at most its parent. *)
Definition heap_ok (n : nat) (l : list A) : Prop :=
  forall k, (0 < k < n)%nat -> key l k <= key l (par k).

Lemma heap_ok_root n l k : heap_ok n l -> (k < n)%nat -> key l k <= key l 0.
Proof.
  intros Hh. induction k as [k IH] using lt_wf_ind. intros Hk. destruct (decide (k = 0%nat)) as [->|]; [done|].
  pose proof (par_spec k ltac:(lia)). pose proof (Hh k ltac:(lia)). specialize (IH (par k) ltac:(lia) ltac:(lia)). lia.
Qed.

Lemma h_Less_key s i j : wf s -> (i < length (contents s))%nat -> (j < length (contents s))%nat ->
  h_Less s i j = Ok (bool_decide (key (contents s) j < key (contents s) i)).
Proof.
  intros Hwf Hi Hj. destruct (lookup_lt_is_Some_2 _ _ Hi) as [a Ha], (lookup_lt_is_Some_2 _ _ Hj) as [b Hb].
  unfold key. rewrite Ha, Hb. simpl. by apply h_Less_law.
Qed.

Lemma up_ok fuel : forall s j, wf s -> (j < length (contents s))%nat -> (j < fuel)%nat ->
  (forall k, (0 < k < length (contents s))%nat -> k <> j -> key (contents s) k <= key (contents s) (par k)) ->
  (forall k, (0 < k < length (contents s))%nat -> par k = j -> (0 < j)%nat -> key (contents s) k <= key (contents s) (par j)) ->
  exists s', up fuel s j = Ok s' /\ wf s' /\ contents s' ≡ₚ contents s /\ heap_ok (length (contents s')) (contents s').
Proof.
  induction fuel as [|fuel IH]; intros s j Hwf Hj Hf H1 H2; [lia|]. cbn [up].
  destruct (Nat.eqb_spec (par j) j) as [E|E].
  { exists s. split_and!; try done. intros k Hk. apply H1; [done|]. intros ->. pose proof (par_spec j ltac:(lia)). lia. }
  assert (0 < j)%nat by (destruct j; [done|lia]). pose proof (par_spec j ltac:(lia)) as Hp.
  rewrite h_Less_key by (done || lia). cbn [mbind res_bind]. case_bool_decide as Hlt; cbn [mbind res_bind].
  - destruct (h_Swap_law s (par j) j Hwf) as (s1 & -> & Hwf1 & Hc); [lia|lia|]. cbn [mbind res_bind].
    destruct (IH s1 (par j)) as (s' & -> & Hwf' & Hp' & Hh'); try done; rewrite ?Hc, ?exchange_length; [lia|lia|..].
    + intros k Hk Hne. pose proof (par_spec k ltac:(lia)). rewrite !key_exchange by lia.
      pose proof (H1 k Hk). pose proof (H2 k Hk). repeat case_decide; subst; try lia.
      all: replace (par k) with (par j) in * by lia; lia.
    + intros k Hk Hpk H0. pose proof (par_spec (par j) ltac:(lia)). pose proof (par_spec k ltac:(lia)). rewrite !key_exchange by lia.
      pose proof (H1 (par j) ltac:(lia) ltac:(lia)). pose proof (H1 k ltac:(lia)). rewrite Hpk in *.
      repeat case_decide; subst; try lia.
    + exists s'. split_and!; try done. rewrite Hp', Hc. apply exchange_perm; lia.
  - exists s. split_and!; try done. intros k Hk. destruct (decide (k = j)) as [->|]; [lia|]. by apply H1.
Qed.

(** The larger child of [i] among the first [n]. *)
Lemma larger_child s i n : wf s -> (n <= length (contents s))%nat -> (2 * i + 1 < n)%nat ->
  exists right : bool, (if (2 * i + 1 + 1 <? n)%nat then h_Less s (2 * i + 1 + 1) (2 * i + 1) else mret false) = Ok right /\
    let j := if right then (2 * i + 1 + 1)%nat else (2 * i + 1)%nat in
    (j < n)%nat /\ par j = i /\ forall k, (0 < k < n)%nat -> par k = i -> key (contents s) k <= key (contents s) j.
Proof.
  intros Hwf Hn Hi. destruct (Nat.ltb_spec (2 * i + 1 + 1) n) as [Hlt|Hge].
  - rewrite h_Less_key by (done || lia). eexists. split; [done|]. case_bool_decide as Hk.
    + split; [lia|]. split; [apply par_of; lia|]. intros k Hkn Hp. pose proof (par_spec k ltac:(lia)) as [E|E]; rewrite Hp in E.
      * subst k. lia.
      * replace k with (2 * i + 1 + 1)%nat by lia. lia.
    + split; [lia|]. split; [apply par_of; lia|]. intros k Hkn Hp. pose proof (par_spec k ltac:(lia)) as [E|E]; rewrite Hp in E.
      * subst k. lia.
      * replace k with (2 * i + 1 + 1)%nat by lia. lia.
  - exists false. split; [done|]. split; [lia|]. split; [apply par_of; lia|]. intros k Hkn Hp.
    pose proof (par_spec k ltac:(lia)) as [E|E]; rewrite Hp in E; [subst k|]; lia.
Qed.

Lemma down_ok fuel : forall s i n, wf s -> (n <= length (contents s))%nat -> (n - i < fuel)%nat ->
  (forall k, (0 < k < n)%nat -> par k <> i -> key (contents s) k <= key (contents s) (par k)) ->
  (forall k, (0 < k < n)%nat -> par k = i -> (0 < i)%nat -> key (contents s) k <= key (contents s) (par i)) ->
  exists s', down fuel s i n = Ok s' /\ wf s' /\ contents s' ≡ₚ contents s /\ heap_ok n (contents s') /\
    forall k, (n <= k)%nat -> contents s' !! k = contents s !! k.
Proof.
  induction fuel as [|fuel IH]; intros s i n Hwf Hn Hf H1 H2; [lia|]. cbn [down].
  destruct (Nat.leb_spec n (2 * i + 1)) as [Hge|Hlt].
  { exists s. split_and!; try done. intros k Hk. apply H1; [done|]. intros E. pose proof (par_spec k ltac:(lia)). lia. }
  destruct (larger_child s i n Hwf Hn Hlt) as (right & -> & Hj & Hpj & Hmax). cbn [mbind res_bind].
  set (j := if right then _ else _) in *. pose proof (par_spec j ltac:(destruct right; lia)) as Hij.
  rewrite Hpj in Hij. clearbody j.
  rewrite h_Less_key by (done || lia). cbn [mbind res_bind]. case_bool_decide as Hlt2; cbn [mbind res_bind].
  - destruct (h_Swap_law s i j Hwf) as (s1 & -> & Hwf1 & Hc); [lia|lia|]. cbn [mbind res_bind].
    destruct (IH s1 j n) as (s' & -> & Hwf' & Hp' & Hh' & Hrest); try done; rewrite ?Hc, ?exchange_length; [lia|lia|..].
    + intros k Hk Hne. pose proof (par_spec k ltac:(lia)). rewrite !key_exchange by lia.
      pose proof (H1 k Hk). pose proof (H2 j ltac:(lia) Hpj). pose proof (Hmax k Hk). repeat case_decide; subst; try lia.
    + intros k Hk Hpk H0. pose proof (par_spec k ltac:(lia)). rewrite !key_exchange by lia.
      pose proof (H1 k Hk ltac:(lia)) as Hk1. rewrite Hpk in *. rewrite Hpj. repeat case_decide; subst; try lia.
    + exists s'. split_and!; try done.
      * rewrite Hp', Hc. apply exchange_perm; lia.
      * intros k Hk. rewrite Hrest, Hc, exchange_lookup by lia. by rewrite !decide_False by lia.
  - exists s. split_and!; try done. intros k Hk. destruct (decide (par k = i)) as [E|]; [|by apply H1].
    pose proof (Hmax k Hk E). rewrite E. lia.
Qed.

Lemma Push_ok s x : wf s -> heap_ok (length (contents s)) (contents s) -> - 2 ^ 62 <= prio x < 2 ^ 62 ->
  exists s', Push s x = Ok s' /\ wf s' /\ contents s' ≡ₚ x :: contents s /\ heap_ok (length (contents s')) (contents s').
Proof.
  intros Hwf Hh Hx. unfold Push. destruct (h_Push_law s x Hwf Hx) as (s1 & -> & Hwf1 & Hc). cbn [mbind res_bind].
  rewrite h_Len_law by done. assert (Hl : length (contents s1) = Datatypes.S (length (contents s))) by (rewrite Hc, length_app; simpl; lia).
  assert (Hkey : forall k, (k < length (contents s))%nat -> key (contents s1) k = key (contents s) k).
  { intros k Hk. unfold key. by rewrite Hc, lookup_app_l. }
  destruct (up_ok (length (contents s1)) s1 (length (contents s1) - 1)) as (s' & -> & Hwf' & Hp & Hh'); try done; try lia.
  - intros k Hk Hne. pose proof (par_spec k ltac:(lia)). rewrite !Hkey by lia. apply Hh. lia.
  - intros k Hk Hpar. pose proof (par_spec k ltac:(lia)). lia.
  - exists s'. split_and!; try done. by rewrite Hp, Hc, Permutation_app_comm.
Qed.

Lemma Pop_ok s : wf s -> heap_ok (length (contents s)) (contents s) -> contents s <> [] ->
  exists x s', Pop s = Ok (x, s') /\ wf s' /\ x :: contents s' ≡ₚ contents s /\
    heap_ok (length (contents s')) (contents s') /\ Forall (fun y => prio y <= prio x) (contents s').
Proof.
  intros Hwf Hh Hne. unfold Pop. rewrite h_Len_law by done.
  destruct (length (contents s)) as [|n] eqn:El; [by apply nil_length_inv in El|].
  destruct (lookup_lt_is_Some_2 (contents s) 0 ltac:(lia)) as [x Hx].
  destruct (h_Swap_law s 0 n Hwf) as (s1 & -> & Hwf1 & Hc1); [lia|lia|]. cbn [mbind res_bind].
  assert (Hl1 : length (contents s1) = Datatypes.S n) by (by rewrite Hc1, exchange_length).
  destruct (down_ok (Datatypes.S n) s1 0 n) as (s2 & -> & Hwf2 & Hp2 & Hh2 & Hrest); try done; try lia.
  { intros k Hk Hpar. pose proof (par_spec k ltac:(lia)). rewrite Hc1, !key_exchange by lia.
    rewrite !decide_False by lia. apply Hh. lia. }
  cbn [mbind res_bind]. assert (Hl2 : length (contents s2) = Datatypes.S n) by (by rewrite Hp2).
  assert (Hlast : contents s2 !! n = Some x).
  { rewrite Hrest, Hc1, exchange_lookup by lia. rewrite decide_True by done. done. }
  destruct (h_Pop_law s2 (take n (contents s2)) x Hwf2) as (s3 & -> & Hwf3 & Hc3).
  { rewrite <- (take_S_r _ _ _ Hlast). symmetry. apply take_ge. lia. }
  assert (Hperm : x :: contents s3 ≡ₚ contents s).
  { rewrite Hc3, Permutation_cons_append, <- (take_S_r _ _ _ Hlast), take_ge by lia.
    rewrite Hp2, Hc1. apply exchange_perm; lia. }
  exists x, s3. split_and!; try done.
  - rewrite Hc3, length_take, Nat.min_l by lia. intros k Hk. pose proof (par_spec k ltac:(lia)).
    unfold key. rewrite !lookup_take_lt by lia. by apply Hh2.
  - apply Forall_forall. intros y Hy. assert (Hy' : y ∈ contents s) by (rewrite <- Hperm; by right).
    apply list_elem_of_lookup in Hy' as [k Hk]. pose proof (lookup_lt_Some _ _ _ Hk).
    pose proof (heap_ok_root _ _ k Hh ltac:(lia)) as Hroot. unfold key in Hroot. by rewrite Hk, Hx in Hroot.
Qed.

End order.
End Heap.

(** ** The stack and the queue *)

Module PriorityQueue.
Import Heap.

Definition blockSize : nat := Z.to_nat 4096.
Lemma blockSize_pos : (0 < blockSize)%nat.
Proof. unfold blockSize. lia. Qed.
Opaque blockSize.

Section sstack.
Context {V : Type}.

(** [item]: a value and its [int64] priority. *)
Abbreviation item := (V * Z)%type.
Abbreviation block := (list (option item)).

(** [sstack]; [active] is one of the blocks, given by its number. *)
Record sstack := mkStack {
  st_size : nat;
  st_capacity : nat;
  st_offset : Z;
  st_blocks : list block;
  st_active : nat
}.

(** [newSstack] (and [Reset]). *)
Definition newSstack : sstack :=
  mkStack 0 blockSize 0 [replicate blockSize None] 0.

(** Reading and writing [blocks[j][o]]. *)
Definition getCell (bl : list block) (j o : nat) : go (option item) :=
  b ← index bl j; index b o.
Definition setCell (bl : list block) (j o : nat) (x : option item) : go (list block) :=
  b ← index bl j; b ← store b o x; store bl j b.

(** A nil item: reading its fields is a nil dereference. *)
Definition deref (x : option item) : go item := match x with Some x => Ok x | None => Panic end.

(** [sstack.Push]. *)
Definition stackPush (s : sstack) (x : item) : go sstack :=
  '(capacity, offset, blocks, active) ←
    (if (st_size s =? st_capacity s)%nat then
       mret ((st_capacity s + blockSize)%nat, 0, st_blocks s ++ [replicate blockSize None], length (st_blocks s))
     else if st_offset s =? Z.of_nat blockSize then
       _ ← index (st_blocks s) (st_size s / blockSize);
       mret (st_capacity s, 0, st_blocks s, (st_size s / blockSize)%nat)
     else mret (st_capacity s, st_offset s, st_blocks s, st_active s));
  blocks ← setCell blocks active (Z.to_nat offset) (Some x);
  mret (mkStack (S (st_size s)) capacity (offset + 1) blocks active).

(** [sstack.Pop]. *)
Definition stackPop (s : sstack) : go (item * sstack) :=
  match st_size s with
  | O => Panic
  | S size =>
      let offset := st_offset s - 1 in
      '(offset, active) ←
        (if offset <? 0 then
           _ ← index (st_blocks s) (size / blockSize);
           mret (Z.of_nat blockSize - 1, (size / blockSize)%nat)
         else mret (offset, st_active s));
      x ← getCell (st_blocks s) active (Z.to_nat offset);
      blocks ← setCell (st_blocks s) active (Z.to_nat offset) None;
      x ← deref x;
      mret (x, mkStack size (st_capacity s) offset blocks active)
  end.

(** [sstack.Less]: the difference of the priorities is a 64-bit integer. *)
Definition stackLess (s : sstack) (i j : nat) : go bool :=
  a ← getCell (st_blocks s) (i / blockSize) (i mod blockSize); a ← deref a;
  b ← getCell (st_blocks s) (j / blockSize) (j mod blockSize); b ← deref b;
  mret (0 <? i64 (a.2 - b.2)).

(** [sstack.Swap]. *)
Definition stackSwap (s : sstack) (i j : nat) : go sstack :=
  let ib := (i / blockSize)%nat in let io := (i mod blockSize)%nat in
  let jb := (j / blockSize)%nat in let jo := (j mod blockSize)%nat in
  b ← getCell (st_blocks s) jb jo;
  a ← getCell (st_blocks s) ib io;
  bl ← setCell (st_blocks s) ib io b;
  bl ← setCell bl jb jo a;
  mret (mkStack (st_size s) (st_capacity s) (st_offset s) bl (st_active s)).

#[export] Instance sstack_heap : HeapInterface sstack item := {
  h_Len := st_size;
  h_Less := stackLess;
  h_Swap := stackSwap;
  h_Push := stackPush;
  h_Pop := stackPop
}.

(** [Prque]: [New], [Push], [Pop] ([PopItem] drops the priority), [Empty], [Size]. *)
Definition New : sstack := newSstack.
Definition PushItem (q : sstack) (data : V) (priority : Z) : go sstack := Push q (data, priority).
Definition PopItem (q : sstack) : go (item * sstack) := Pop q.
Definition Empty (q : sstack) : bool := (st_size q =? 0)%nat.
Definition Size (q : sstack) : nat := st_size q.

(** ** The stack implements the interface *)

Definition cell (bl : list block) (i : nat) : option item :=
  mjoin ((bl !! (i / blockSize)%nat) ≫= fun b => b !! (i mod blockSize)%nat).

Record stack_ok (s : sstack) : Prop := {
  ok_blocks : Forall (fun b => length b = blockSize) (st_blocks s);
  ok_capacity : st_capacity s = (blockSize * length (st_blocks s))%nat;
  ok_size : (st_size s <= st_capacity s)%nat;
  ok_active : (st_active s < length (st_blocks s))%nat;
  ok_offset : 0 <= st_offset s <= Z.of_nat blockSize;
  ok_top : Z.of_nat (st_size s) = Z.of_nat blockSize * Z.of_nat (st_active s) + st_offset s;
  ok_cells : forall i, (i < st_size s)%nat ->
    exists x, cell (st_blocks s) i = Some x /\ - 2 ^ 62 <= x.2 < 2 ^ 62
}.

Definition stack_contents (s : sstack) : list item := omap (cell (st_blocks s)) (seq 0 (st_size s)).

Lemma omap_seq_lookup {B} (f : nat -> option B) n o i :
  (forall k, (k < n)%nat -> is_Some (f (o + k)%nat)) ->
  omap f (seq o n) !! i = if decide (i < n)%nat then f (o + i)%nat else None.
Proof.
  revert o i. induction n as [|n IH]; intros o i Hf; [by rewrite decide_False by lia|].
  cbn [seq]. csimpl. pose proof (Hf 0%nat ltac:(lia)) as [x Hx]. rewrite Nat.add_0_r in Hx. rewrite Hx.
  destruct i as [|i].
  - rewrite decide_True, Nat.add_0_r, Hx by lia. done.
  - cbn [lookup list_lookup]. rewrite IH by (intros k Hk; rewrite Nat.add_succ_comm; apply Hf; lia).
    rewrite Nat.add_succ_comm. by repeat case_decide; try lia.
Qed.

Lemma stack_lookup s i : stack_ok s ->
  stack_contents s !! i = if decide (i < st_size s)%nat then cell (st_blocks s) i else None.
Proof.
  intros Hs. unfold stack_contents. rewrite omap_seq_lookup; [done|]. intros k Hk.
  destruct (ok_cells s Hs k Hk) as (x & Hx & _). simpl. by rewrite Hx.
Qed.

Lemma stack_length s : stack_ok s -> length (stack_contents s) = st_size s.
Proof.
  intros Hs. apply Nat.le_antisymm; apply Nat.le_ngt; intros Hlt.
  - destruct (lookup_lt_is_Some_2 _ _ Hlt) as [x Hx]. rewrite stack_lookup in Hx by done. by rewrite decide_False in Hx by lia.
  - pose proof (stack_lookup s (length (stack_contents s)) Hs) as Hx. rewrite decide_True, lookup_ge_None_2 in Hx by lia.
    destruct (ok_cells s Hs _ Hlt) as (x & Hc & _). congruence.
Qed.

Lemma getCell_ok bl j o b :
  bl !! j = Some b -> length b = blockSize -> (o < blockSize)%nat ->
  getCell bl j o = Ok (cell bl (blockSize * j + o)).
Proof.
  intros Hb Hl Ho. pose proof blockSize_pos. unfold getCell, cell. rewrite (index_lookup _ _ _ Hb). cbn [mbind res_bind].
  destruct (lookup_lt_is_Some_2 b o ltac:(lia)) as [x Hx]. rewrite (index_lookup _ _ _ Hx).
  assert (E1 : ((blockSize * j + o) / blockSize)%nat = j) by (rewrite Nat.mul_comm, Nat.div_add_l, Nat.div_small; lia).
  assert (E2 : ((blockSize * j + o) mod blockSize)%nat = o) by (rewrite Nat.add_comm, Nat.mul_comm, Nat.Div0.mod_add, Nat.mod_small; lia).
  rewrite E1, E2, Hb. simpl. by rewrite Hx.
Qed.

Lemma setCell_ok bl j o x :
  Forall (fun b => length b = blockSize) bl -> (j < length bl)%nat -> (o < blockSize)%nat ->
  exists bl', setCell bl j o x = Ok bl' /\ Forall (fun b => length b = blockSize) bl' /\ length bl' = length bl /\
    forall i, cell bl' i = if decide (i = blockSize * j + o)%nat then x else cell bl i.
Proof.
  intros Hf Hj Ho. pose proof blockSize_pos. destruct (lookup_lt_is_Some_2 bl j Hj) as [b Hb].
  pose proof (Forall_lookup_1 _ _ _ _ Hf Hb) as Hl. simpl in Hl.
  unfold setCell. rewrite (index_lookup _ _ _ Hb). cbn [mbind res_bind].
  rewrite store_lt by lia. cbn [mbind res_bind]. rewrite store_lt by lia. eexists. split; [done|].
  split; [apply Forall_insert; [done|by rewrite length_insert]|]. split; [apply length_insert|].
  intros i. unfold cell. pose proof (Nat.div_mod i blockSize ltac:(lia)) as Hi.
  pose proof (Nat.mod_upper_bound i blockSize ltac:(lia)). rewrite list_lookup_insert.
  destruct (decide (j = (i / blockSize)%nat /\ (j < length bl)%nat)) as [[-> _]|Hne].
  - rewrite Hb. cbn [mbind option_bind]. rewrite list_lookup_insert.
    destruct (decide (o = (i mod blockSize)%nat /\ (o < length b)%nat)) as [[E _]|].
    + by rewrite decide_True by lia.
    + by rewrite decide_False by lia.
  - rewrite decide_False; [done|]. intros ->. destruct Hne. rewrite Nat.mul_comm, Nat.div_add_l, Nat.div_small by lia. lia.
Qed.

Lemma block_of s i : stack_ok s -> (i < st_capacity s)%nat ->
  exists b, st_blocks s !! (i / blockSize)%nat = Some b /\ length b = blockSize /\ (i mod blockSize < blockSize)%nat /\
    i = (blockSize * (i / blockSize) + i mod blockSize)%nat.
Proof.
  intros Hs Hi. pose proof blockSize_pos. rewrite (ok_capacity s Hs) in Hi.
  destruct (lookup_lt_is_Some_2 (st_blocks s) (i / blockSize)%nat) as [b Hb]; [apply Nat.Div0.div_lt_upper_bound; lia|].
  exists b. split_and!; [done|exact (Forall_lookup_1 _ _ _ _ (ok_blocks s Hs) Hb)|apply Nat.mod_upper_bound; lia|apply Nat.div_mod; lia].
Qed.

Lemma getCell_pos s i : stack_ok s -> (i < st_capacity s)%nat ->
  getCell (st_blocks s) (i / blockSize) (i mod blockSize) = Ok (cell (st_blocks s) i).
Proof.
  intros Hs Hi. destruct (block_of s i Hs Hi) as (b & Hb & Hl & Hm & E). rewrite (getCell_ok _ _ _ _ Hb Hl Hm). by rewrite <- E.
Qed.

Lemma i64_sub a b : - 2 ^ 62 <= a < 2 ^ 62 -> - 2 ^ 62 <= b < 2 ^ 62 -> i64 (a - b) = a - b.
Proof. intros. unfold i64. rewrite Z.mod_small; lia. Qed.

Lemma stackLess_ok s i j a b : stack_ok s -> stack_contents s !! i = Some a -> stack_contents s !! j = Some b ->
  stackLess s i j = Ok (bool_decide (b.2 < a.2)).
Proof.
  intros Hs Ha Hb. rewrite stack_lookup in Ha, Hb by done. pose proof (ok_size s Hs).
  destruct (decide (i < st_size s)%nat) as [Hi|]; [|done]. destruct (decide (j < st_size s)%nat) as [Hj|]; [|done].
  unfold stackLess. rewrite !getCell_pos by (done || lia). rewrite Ha, Hb. cbn [mbind res_bind deref mret res_ret].
  destruct (ok_cells s Hs i) as (a' & Ea & Hra); [done|]. destruct (ok_cells s Hs j) as (b' & Eb & Hrb); [done|].
  simplify_eq. rewrite i64_sub by done. f_equal. case_bool_decide; [apply Z.ltb_lt|apply Z.ltb_ge]; lia.
Qed.

Lemma stackSwap_ok s i j : stack_ok s -> (i < length (stack_contents s))%nat -> (j < length (stack_contents s))%nat ->
  exists s', stackSwap s i j = Ok s' /\ stack_ok s' /\ stack_contents s' = exchange (stack_contents s) i j.
Proof.
  intros Hs Hi Hj. rewrite !stack_length in * by done. pose proof (ok_size s Hs).
  destruct (block_of s i Hs ltac:(lia)) as (bi & Hbi & _ & Hmi & Ei), (block_of s j Hs ltac:(lia)) as (bj & Hbj & _ & Hmj & Ej).
  unfold stackSwap. rewrite !getCell_pos by (done || lia). cbn [mbind res_bind].
  destruct (setCell_ok (st_blocks s) (i / blockSize) (i mod blockSize) (cell (st_blocks s) j)) as (bl1 & -> & Hf1 & Hl1 & Hc1);
    [apply Hs|by eapply lookup_lt_Some|done|]. cbn [mbind res_bind].
  destruct (setCell_ok bl1 (j / blockSize) (j mod blockSize) (cell (st_blocks s) i)) as (bl2 & -> & Hf2 & Hl2 & Hc2);
    [done|rewrite Hl1; by eapply lookup_lt_Some|done|]. cbn [mbind res_bind mret res_ret]. rewrite <- Ei in Hc1. rewrite <- Ej in Hc2.
  eexists. split; [done|]. set (s' := mkStack _ _ _ _ _).
  assert (Hok : stack_ok s').
  { destruct Hs as [? Hcap ? ? ? ? Hcells]. constructor; simpl; try done; rewrite ?Hl2, ?Hl1; try done.
    intros k Hk. rewrite Hc2, Hc1. repeat case_decide; auto. }
  split; [done|]. apply list_eq. intros k. rewrite exchange_lookup by (by rewrite stack_length).
  rewrite !stack_lookup by done. simpl. rewrite Hc2, Hc1. by repeat case_decide; try lia.
Qed.

Lemma stack_extend s s' x : stack_ok s -> stack_ok s' -> st_size s' = S (st_size s) ->
  (forall i, (i < st_size s)%nat -> cell (st_blocks s') i = cell (st_blocks s) i) -> cell (st_blocks s') (st_size s) = Some x ->
  stack_contents s' = stack_contents s ++ [x].
Proof.
  intros Hs Hs' Hsz Hc Hx. apply list_eq. intros k. rewrite lookup_app, !stack_lookup by done. rewrite Hsz.
  destruct (decide (k < st_size s)%nat).
  - rewrite decide_True, Hc by lia. destruct (ok_cells s Hs k) as (y & -> & _); done.
  - rewrite stack_length by done. destruct (decide (k = st_size s)) as [->|].
    + by rewrite decide_True, Nat.sub_diag, Hx by lia.
    + rewrite decide_False by lia. by rewrite lookup_ge_None_2 by (simpl; lia).
Qed.

Lemma cell_app bl bl' i : (i < blockSize * length bl)%nat -> cell (bl ++ bl') i = cell bl i.
Proof. intros Hi. pose proof blockSize_pos. unfold cell. rewrite lookup_app_l; [done|]. apply Nat.Div0.div_lt_upper_bound; lia. Qed.

(** Where [sstack.Push] writes. *)
Lemma stackPush_room s : stack_ok s -> exists capacity offset blocks active,
  (if (st_size s =? st_capacity s)%nat then
     mret ((st_capacity s + blockSize)%nat, 0, st_blocks s ++ [replicate blockSize None], length (st_blocks s))
   else if st_offset s =? Z.of_nat blockSize then
     _ ← index (st_blocks s) (st_size s / blockSize);
     mret (st_capacity s, 0, st_blocks s, (st_size s / blockSize)%nat)
   else mret (st_capacity s, st_offset s, st_blocks s, st_active s)) = Ok (capacity, offset, blocks, active) :> go _ /\
  Forall (fun b => length b = blockSize) blocks /\ capacity = (blockSize * length blocks)%nat /\ (st_size s < capacity)%nat /\
  (active < length blocks)%nat /\ 0 <= offset < Z.of_nat blockSize /\
  Z.of_nat (st_size s) = Z.of_nat blockSize * Z.of_nat active + offset /\
  (forall i, (i < st_size s)%nat -> cell blocks i = cell (st_blocks s) i).
Proof.
  intros Hs. pose proof blockSize_pos as Hpos. destruct Hs as [Hf Hcap Hsz Hact Hoff Htop Hc].
  destruct (Nat.eqb_spec (st_size s) (st_capacity s)) as [E|E]; [|destruct (Z.eqb_spec (st_offset s) (Z.of_nat blockSize)) as [Eo|Eo]].
  - do 4 eexists. split; [done|]. rewrite length_app. simpl. split_and!; try lia.
    + apply Forall_app. split; [done|]. apply Forall_singleton. apply length_replicate.
    + intros i Hi. apply cell_app. lia.
  - assert (Hd : (st_size s / blockSize)%nat = S (st_active s)).
    { rewrite (Nat.div_unique (st_size s) blockSize (S (st_active s)) 0); lia. }
    assert (Hlt : (S (st_active s) < length (st_blocks s))%nat) by nia.
    rewrite Hd. destruct (lookup_lt_is_Some_2 _ _ Hlt) as [b Hb]. rewrite (index_lookup _ _ _ Hb).
    do 4 eexists. split; [done|]. split_and!; try done; lia.
  - do 4 eexists. split; [done|]. split_and!; try done; lia.
Qed.

Lemma stackPush_ok s x : stack_ok s -> - 2 ^ 62 <= x.2 < 2 ^ 62 ->
  exists s', stackPush s x = Ok s' /\ stack_ok s' /\ stack_contents s' = stack_contents s ++ [x].
Proof.
  intros Hs Hx. unfold stackPush. destruct (stackPush_room s Hs) as (cap & off & bl & act & -> & Hf & Hcap & Hsz & Hact & Hoff & Htop & Hc).
  cbn [mbind res_bind]. destruct (setCell_ok bl act (Z.to_nat off) (Some x)) as (bl' & -> & Hf' & Hl' & Hc'); [done|done|lia|].
  cbn [mbind res_bind]. replace (blockSize * act + Z.to_nat off)%nat with (st_size s) in Hc' by lia.
  eexists. split; [done|]. set (s' := mkStack _ _ _ _ _).
  assert (Hok : stack_ok s').
  { constructor; simpl; rewrite ?Hl'; try done; try lia. intros i Hi. rewrite Hc'. case_decide; [eauto|].
    rewrite Hc by lia. apply Hs. lia. }
  split; [done|]. apply stack_extend; try done; simpl.
  - intros i Hi. rewrite Hc', decide_False by lia. by apply Hc.
  - by rewrite Hc', decide_True.
Qed.

(** Where [sstack.Pop] reads. *)
Lemma stackPop_room s size : stack_ok s -> st_size s = S size -> exists offset active,
  (if st_offset s - 1 <? 0 then
     _ ← index (st_blocks s) (size / blockSize);
     mret (Z.of_nat blockSize - 1, (size / blockSize)%nat)
   else mret (st_offset s - 1, st_active s)) = Ok (offset, active) :> go _ /\
  (active < length (st_blocks s))%nat /\ 0 <= offset < Z.of_nat blockSize /\
  Z.of_nat size = Z.of_nat blockSize * Z.of_nat active + offset.
Proof.
  intros Hs Hsz. pose proof blockSize_pos as Hpos. destruct Hs as [Hf Hcap Hsz' Hact Hoff Htop Hc]. rewrite Hsz in *.
  destruct (Z.ltb_spec (st_offset s - 1) 0).
  - destruct (st_active s) as [|a] eqn:Ea; [lia|]. assert (Hq : size = (blockSize * a + (blockSize - 1))%nat) by nia.
    assert (Hd : (size / blockSize)%nat = a) by (symmetry; apply (Nat.div_unique size blockSize _ (blockSize - 1)); lia).
    rewrite Hd. destruct (lookup_lt_is_Some_2 (st_blocks s) a ltac:(lia)) as [b Hb].
    rewrite (index_lookup _ _ _ Hb). do 2 eexists. split; [done|]. split_and!; lia.
  - do 2 eexists. split; [done|]. split_and!; lia.
Qed.

Lemma stackPop_ok s l x : stack_ok s -> stack_contents s = l ++ [x] ->
  exists s', stackPop s = Ok (x, s') /\ stack_ok s' /\ stack_contents s' = l.
Proof.
  intros Hs Hl. pose proof (stack_length s Hs) as Hlen. rewrite Hl, length_app in Hlen. simpl in Hlen. unfold stackPop.
  destruct (st_size s) as [|size] eqn:Hsz; [lia|].
  destruct (stackPop_room s size Hs Hsz) as (off & act & -> & Hact & Hoff & Htop). cbn [mbind res_bind].
  destruct (lookup_lt_is_Some_2 _ _ Hact) as [b Hb].
  rewrite (getCell_ok _ _ _ _ Hb) by (exact (Forall_lookup_1 _ _ _ _ (ok_blocks s Hs) Hb) || lia). cbn [mbind res_bind].
  destruct (setCell_ok (st_blocks s) act (Z.to_nat off) None) as (bl' & -> & Hf' & Hl' & Hc'); [apply Hs|done|lia|].
  cbn [mbind res_bind]. replace (blockSize * act + Z.to_nat off)%nat with size in * by lia.
  assert (Hx : cell (st_blocks s) size = Some x).
  { pose proof (stack_lookup s size Hs) as E. rewrite decide_True in E by lia. rewrite <- E, Hl. apply list_lookup_middle. lia. }
  rewrite Hx. cbn [mbind res_bind deref mret res_ret]. eexists. split; [done|]. set (s' := mkStack _ _ _ _ _).
  assert (Hok : stack_ok s').
  { destruct Hs as [? ? ? ? ? ? Hcells]. constructor; simpl; rewrite ?Hl'; try done; try lia.
    intros i Hi. rewrite Hc', decide_False by lia. apply Hcells. lia. }
  split; [done|]. apply (app_inj_1 _ _ [x] [x]); [rewrite stack_length by done; simpl; lia|].
  rewrite <- Hl. symmetry. apply stack_extend; try done. simpl. intros i Hi. by rewrite Hc', decide_False by lia.
Qed.

#[export] Instance sstack_laws : HeapLaws sstack item sstack_heap snd := {
  wf := stack_ok;
  contents := stack_contents;
  h_Len_law := fun s Hs => eq_sym (stack_length s Hs);
  h_Less_law := stackLess_ok;
  h_Swap_law := stackSwap_ok;
  h_Push_law := stackPush_ok;
  h_Pop_law := stackPop_ok
}.

Lemma newSstack_ok : stack_ok newSstack.
Proof.
  constructor; simpl; try lia. apply Forall_singleton. apply length_replicate.
Qed.

(** ** The queue *)

(** A queue in order, and what it holds. *)
Definition queue_ok (q : sstack) : Prop := stack_ok q /\ heap_ok (prio := snd) (length (stack_contents q)) (stack_contents q).

Lemma PushItem_ok q v p : queue_ok q -> - 2 ^ 62 <= p < 2 ^ 62 ->
  exists q', PushItem q v p = Ok q' /\ queue_ok q' /\ stack_contents q' ≡ₚ (v, p) :: stack_contents q.
Proof.
  intros [Hs Hh] Hp. destruct (Push_ok (L := sstack_laws) q (v, p) Hs Hh Hp) as (q' & E & Hwf & Hperm & Hh').
  exists q'. split; [exact E|]. split; [by split|exact Hperm].
Qed.

Lemma PopItem_ok q : queue_ok q -> stack_contents q <> [] ->
  exists x q', PopItem q = Ok (x, q') /\ queue_ok q' /\ x :: stack_contents q' ≡ₚ stack_contents q /\
    Forall (fun y => y.2 <= x.2) (stack_contents q').
Proof.
  intros [Hs Hh] Hne. destruct (Pop_ok (L := sstack_laws) q Hs Hh Hne) as (x & q' & E & Hwf & Hperm & Hh' & Hmax).
  exists x, q'. split; [exact E|]. split; [by split|]. split; [exact Hperm|exact Hmax].
Qed.

Lemma New_queue : queue_ok New /\ stack_contents New = [].
Proof. split; [|done]. split; [apply newSstack_ok|]. intros k Hk. simpl in Hk. lia. Qed.

(** Pushing a list of items, and popping until the queue is empty. *)
Fixpoint pushAll (q : sstack) (l : list item) : go sstack :=
  match l with
  | [] => mret q
  | x :: l => q ← PushItem q x.1 x.2; pushAll q l
  end.
Fixpoint popAll (fuel : nat) (q : sstack) : go (list item) :=
  if Empty q then mret []
  else match fuel with
       | O => NoFuel
       | S fuel => '(x, q) ← PopItem q; l ← popAll fuel q; mret (x :: l)
       end.

Lemma pushAll_ok l : forall q, queue_ok q -> Forall (fun x => - 2 ^ 62 <= x.2 < 2 ^ 62) l ->
  exists q', pushAll q l = Ok q' /\ queue_ok q' /\ stack_contents q' ≡ₚ l ++ stack_contents q.
Proof.
  induction l as [|[v p] l IH]; intros q Hq Hl; [by exists q|]. apply Forall_cons in Hl as [Hp Hl]. simpl.
  destruct (PushItem_ok q v p Hq Hp) as (q1 & -> & Hq1 & Hp1). cbn [mbind res_bind].
  destruct (IH q1 Hq1 Hl) as (q' & -> & Hq' & Hp'). exists q'. split_and!; [done|done|].
  rewrite Hp', Hp1. by rewrite Permutation_middle.
Qed.

Lemma popAll_ok fuel : forall q, queue_ok q -> (length (stack_contents q) <= fuel)%nat ->
  exists l, popAll fuel q = Ok l /\ l ≡ₚ stack_contents q /\ StronglySorted (fun x y => y.2 <= x.2) l.
Proof.
  induction fuel as [|fuel IH]; intros q Hq Hl; cbn [popAll]; unfold Empty; rewrite <- (stack_length q (proj1 Hq)).
  - rewrite (proj2 (Nat.eqb_eq _ _)) by lia. exists []. split_and!; [done| |constructor].
    by rewrite (nil_length_inv (stack_contents q)) by lia.
  - destruct (Nat.eqb_spec (length (stack_contents q)) 0) as [E|E].
    { exists []. split_and!; [done| |constructor]. by rewrite (nil_length_inv (stack_contents q)). }
    destruct (PopItem_ok q Hq) as (x & q' & -> & Hq' & Hp & Hmax); [by intros Hn; rewrite Hn in E|]. cbn [mbind res_bind].
    destruct (IH q' Hq') as (l & -> & Hpl & Hs). { apply Permutation_length in Hp. simpl in Hp. lia. }
    exists (x :: l). split_and!; [done|by rewrite Hpl|]. constructor; [done|]. by rewrite Hpl.
Qed.

End sstack.

(** ** What the operations move around

    Whatever the priorities, the operations only move items: nothing is on the queue that
    was not pushed. *)

Section members.
Context {V : Type}.

Definition member (x : V * Z) (q : sstack) : Prop :=
  exists j b o, st_blocks q !! j = Some b /\ b !! o = Some (Some x).

Lemma getCell_member (q : sstack) j o x : getCell (st_blocks q) j o = Ok (Some x) -> member x q.
Proof.
  unfold getCell, index. destruct (st_blocks q !! j) as [b|] eqn:Hb; [|done]. cbn [mbind res_bind].
  destruct (b !! o) as [y|] eqn:Ho; [|done]. intros [= ->]. by exists j, b, o.
Qed.

Lemma setCell_member (bl bl' : list (list (option (V * Z)))) j o y :
  setCell bl j o y = Ok bl' -> forall j' b' o' x, bl' !! j' = Some b' -> b' !! o' = Some (Some x) ->
  y = Some x \/ exists b, bl !! j' = Some b /\ b !! o' = Some (Some x).
Proof.
  unfold setCell, index, store. destruct (bl !! j) as [b|] eqn:Hb; [|done]. cbn [mbind res_bind].
  destruct (decide (o < length b)%nat); [|done]. cbn [mbind res_bind].
  destruct (decide (j < length bl)%nat); [|done]. intros [= <-] j' b' o' x Hb' Ho'.
  rewrite list_lookup_insert in Hb'. case_decide as Hj; [|eauto]. destruct Hj as [-> _]. simplify_eq.
  rewrite list_lookup_insert in Ho'. case_decide as Hox; [|eauto]. destruct Hox as [-> _]. left. by simplify_eq.
Qed.

Lemma stackSwap_member (q q' : sstack) i j x : stackSwap q i j = Ok q' -> member x q' -> member x q.
Proof.
  unfold stackSwap. intros H (jb & b & o & Hb & Ho).
  apply bind_ok in H as (cj & Hcj & H). apply bind_ok in H as (ci & Hci & H).
  apply bind_ok in H as (bl1 & H1 & H). apply bind_ok in H as (bl2 & H2 & H). injection H as <-. simpl in Hb.
  destruct (setCell_member _ _ _ _ _ H2 _ _ _ _ Hb Ho) as [->|(b1 & Hb1 & Ho1)]; [by eapply getCell_member|].
  destruct (setCell_member _ _ _ _ _ H1 _ _ _ _ Hb1 Ho1) as [->|(b2 & Hb2 & Ho2)]; [by eapply getCell_member|].
  by exists jb, b2, o.
Qed.

Lemma up_member fuel : forall (q q' : sstack) j x, up fuel q j = Ok q' -> member x q' -> member x q.
Proof.
  induction fuel as [|fuel IH]; intros q q' j x; cbn [up]; [done|]. destruct (_ =? _)%nat; [by intros [= <-]|].
  intros H Hx. apply bind_ok in H as (lt & _ & H). destruct lt; [|by injection H as <-].
  apply bind_ok in H as (q1 & Hs & H). eapply stackSwap_member; [exact Hs|]. by eapply IH.
Qed.

Lemma down_member fuel : forall (q q' : sstack) i n x, down fuel q i n = Ok q' -> member x q' -> member x q.
Proof.
  induction fuel as [|fuel IH]; intros q q' i n x; cbn [down]; [done|]. destruct (_ <=? _)%nat; [by intros [= <-]|].
  intros H Hx. apply bind_ok in H as (r & _ & H). apply bind_ok in H as (lt & _ & H). destruct lt; [|by injection H as <-].
  apply bind_ok in H as (q1 & Hs & H). eapply stackSwap_member; [exact Hs|]. by eapply IH.
Qed.

Lemma PushItem_member (q q' : sstack) v p x : PushItem q v p = Ok q' -> member x q' -> x = (v, p) \/ member x q.
Proof.
  unfold PushItem, Push. intros H Hx. apply bind_ok in H as (q1 & Hp & H). eapply up_member in Hx; [|exact H]. clear H.
  cbn [h_Push sstack_heap] in Hp. unfold stackPush in Hp. apply bind_ok in Hp as ([[[cap off] bl] act] & Hr & Hp).
  apply bind_ok in Hp as (bl' & Hs & Hp). injection Hp as <-. destruct Hx as (j & b & o & Hb & Ho). simpl in Hb.
  destruct (setCell_member _ _ _ _ _ Hs _ _ _ _ Hb Ho) as [[= <-]|(b1 & Hb1 & Ho1)]; [by left|]. right.
  destruct (_ =? _)%nat.
  - injection Hr as <- <- <- <-. rewrite lookup_app in Hb1. destruct (st_blocks q !! j) as [b2|] eqn:Eb; [simplify_eq; by exists j, b1, o|].
    apply list_lookup_singleton_Some in Hb1 as [_ <-]. apply lookup_replicate in Ho1 as [? _]. done.
  - destruct (_ =? _).
    + apply bind_ok in Hr as (? & _ & Hr). injection Hr as <- <- <- <-. by exists j, b1, o.
    + injection Hr as <- <- <- <-. by exists j, b1, o.
Qed.

Lemma PopItem_member (q q' : sstack) x : PopItem q = Ok (x, q') -> member x q /\ forall y, member y q' -> member y q.
Proof.
  unfold PopItem, Pop. intros H. destruct (h_Len q) as [|n]; [done|].
  apply bind_ok in H as (q1 & Hs & H). apply bind_ok in H as (q2 & Hd & H).
  assert (Hback : forall y, member y q2 -> member y q).
  { intros y Hy. eapply stackSwap_member; [exact Hs|]. by eapply down_member. }
  cbn [h_Pop sstack_heap] in H. unfold stackPop in H. destruct (st_size q2) as [|sz]; [done|].
  apply bind_ok in H as ([off act] & _ & H). apply bind_ok in H as (cx & Hc & H). apply bind_ok in H as (bl & Hset & H).
  apply bind_ok in H as (x' & Hx' & H). injection H as -> <-. destruct cx as [z|]; [|done]. injection Hx' as ->.
  split; [apply Hback; by eapply getCell_member|]. intros y (j & b & o & Hb & Ho). simpl in Hb. apply Hback.
  destruct (setCell_member _ _ _ _ _ Hset _ _ _ _ Hb Ho) as [?|(b1 & Hb1 & Ho1)]; [done|]. by exists j, b1, o.
Qed.

Lemma New_member (x : V * Z) : ~ member x New.
Proof.
  intros (j & b & o & Hb & Ho). apply list_lookup_singleton_Some in Hb as [_ <-]. apply lookup_replicate in Ho as [? _]. done.
Qed.

End members.

(** The queue is a priority queue: items pushed in any number and order, with
    priorities within 62 bits, come out again, each exactly once, by decreasing priority. *)
Theorem prque_sorts {V : Type} (l : list (V * Z)) :
  Forall (fun x => - 2 ^ 62 <= x.2 < 2 ^ 62) l ->
  exists q out, pushAll New l = Ok q /\ popAll (length l) q = Ok out /\
    out ≡ₚ l /\ StronglySorted (fun x y => y.2 <= x.2) out.
Proof.
  intros Hl. destruct (New_queue (V := V)) as [Hq He].
  destruct (pushAll_ok l New Hq Hl) as (q & Hpush & Hq' & Hp). rewrite He, app_nil_r in Hp.
  destruct (popAll_ok (length l) q Hq') as (out & Hpop & Ho & Hs); [by rewrite Hp|].
  exists q, out. split_and!; try done. by rewrite Ho.
Qed.

Lemma prque_sorts_witness :
  exists q out, pushAll New [(10, -7); (11, 5); (12, 5); (13, 0)] = Ok q /\ popAll 4 q = Ok out /\
    out ≡ₚ [(10, -7); (11, 5); (12, 5); (13, 0)] /\ StronglySorted (fun x y => y.2 <= x.2) out.
Proof.
  apply (prque_sorts [(10, -7); (11, 5); (12, 5); (13, 0)]). repeat apply Forall_cons_2; try apply Forall_nil_2; simpl; lia.
Defined.

(** The documented limit on priorities is needed: for two items more than 63 bits apart the
    difference in [Less] wraps around, and the one with the smaller priority is popped first. *)
Example prque_overflow :
  (q ← pushAll New [(1, 2 ^ 62); (2, - 2 ^ 62 - 1)]; '(x, _) ← PopItem q; mret x) = Ok (2, - 2 ^ 62 - 1) :> go (Z * Z).
Proof. vm_compute. reflexivity. Qed.

End PriorityQueue.
