(* ===== verification/Istanbul.v ===== *)
(** * The Istanbul consensus core

    Model of [consensus/istanbul/core]: the round state and its message sets, the four
    message handlers, requests, backlogs, round changes, timeouts and the event loop.
    Every handler is a state transformer; what it sends, posts or schedules is recorded in
    the log of the state.  The validator set and the backend are interfaces in the code
    and here: a class of operations for the first, a record of answers for the second. *)

From S2P Require Import Prelude Validators Prque.

Module Core.
Import ValSet PriorityQueue.

Abbreviation Hash := bytes.

(** ** Data *)

(** [istanbul.Proposal]: a block, through its number, its hash, the hash of its parent
    and the round byte of its header.  The hash is that of the header with the round byte
    cleared ([types.IstanbulFilteredHeader]), so setting the round keeps it. *)
Record Proposal := mkProposal {
  p_Number : Z;
  p_Hash : Hash;
  p_ParentHash : Hash;
  p_Round : Z
}.

(** [types.SetRoundToHeader] and [WithSeal]. *)
Definition withRound (p : Proposal) (round : Z) : Proposal :=
  mkProposal (p_Number p) (p_Hash p) (p_ParentHash p) (u8 round).

(** [istanbul.Preprepare], [istanbul.Subject] and [istanbul.Request]. *)
Record Preprepare := mkPreprepare { pp_View : View; pp_Proposal : Proposal }.
Record Subject := mkSubject { s_View : View; s_Digest : Hash; s_PrevHash : Hash }.
Record Request := mkRequest { r_Proposal : Proposal }.

(** [View.Cmp]. *)
Definition viewCmp (v y : View) : comparison :=
  match v_Sequence v ?= v_Sequence y with
  | Eq => v_Round v ?= v_Round y
  | c => c
  end.

(** [Subject.Equal]. *)
Definition subjectEqual (a b : option Subject) : bool :=
  match a, b with
  | None, None => true
  | Some a, Some b =>
      bool_decide (s_Digest a = s_Digest b) && bool_decide (s_PrevHash a = s_PrevHash b)
      && match viewCmp (s_View a) (s_View b) with Eq => true | _ => false end
  | _, _ => false
  end.

(** [msgPreprepare] ... [msgAll] are the message codes 0 to 4. *)
Definition msgPreprepare := 0.
Definition msgPrepare := 1.
Definition msgCommit := 2.
Definition msgRoundChange := 3.
Definition msgAll := 4.

(** What the bytes of a message decode to: a PRE-PREPARE, a subject, or neither. *)
Inductive msgBody :=
| BodyPreprepare (p : Preprepare)
| BodySubject (s : Subject)
| BodyMalformed.

(** [message]. *)
Record message := mkMessage {
  m_Hash : Hash;
  m_Code : Z;
  m_Msg : msgBody;
  m_Address : Address;
  m_Signature : bytes;
  m_CommittedSeal : bytes
}.

(** [message.Decode]. *)
Definition decodePreprepare (m : message) : option Preprepare :=
  match m_Msg m with BodyPreprepare p => Some p | _ => None end.
Definition decodeSubject (m : message) : option Subject :=
  match m_Msg m with BodySubject s => Some s | _ => None end.

(** [message.GetView]. *)
Definition GetView (m : message) : option View :=
  if m_Code m =? msgPreprepare then pp_View <$> decodePreprepare m
  else if (m_Code m =? msgPrepare) || (m_Code m =? msgCommit) || (m_Code m =? msgRoundChange)
  then s_View <$> decodeSubject m
  else None.

(** [State]. *)
Inductive State := StateAcceptRequest | StatePreprepared | StatePrepared | StateCommitted.
#[export] Instance State_eq_dec : EqDecision State.
Proof. solve_decision. Defined.
Definition stateNumber (s : State) : Z :=
  match s with StateAcceptRequest => 0 | StatePreprepared => 1 | StatePrepared => 2 | StateCommitted => 3 end.

(** The errors of the package, and those the backend and the decoder return. *)
Inductive coreError :=
| errInconsistentSubject | errNotFromProposer | errNotFromCommittee | errIgnored
| errFutureMessage | errOldMessage | errInvalidMessage | errInvalidSigner
| ErrUnauthorizedAddress | errDecode | errSignature | ErrFutureBlock | errVerification.
#[export] Instance coreError_eq_dec : EqDecision coreError.
Proof. solve_decision. Defined.

(** ** Interfaces *)

(** [istanbul.ValidatorSet], as far as the core uses it: [vs_Has] says whether
    [GetByAddress] finds a validator. *)
Class ValidatorSet (V : Type) := {
  vs_Has : V -> Address -> bool;
  vs_IsProposer : V -> Address -> go bool;
  vs_CheckInSubList : V -> Hash -> View -> Address -> go bool;
  vs_CalcProposer : V -> Address -> Z -> go V;
  vs_Copy : V -> V;
  vs_F : V -> Z;
  vs_Size : V -> Z;
  vs_SubGroupSize : V -> Z;
  vs_IsSubSet : V -> bool
}.

(** The outcome of [Backend.Verify]. *)
Inductive verifyResult := VerifyOk | VerifyFuture (duration : Z) | VerifyFailed.

(** [istanbul.Backend]: what it answers while one event is handled.  [b_NodeType] says
    whether the node is a consensus node, [b_sigAddress] is the address recovered from the
    signature of a message ([GetSignatureAddress] on its payload without signature). *)
Record Backend (V : Type) := mkBackend {
  b_LastProposal : option Proposal * Address;
  b_Validators : Proposal -> V;
  b_ParentValidators : Proposal -> V;
  b_GetProposer : Z -> Address;
  b_HasBadProposal : Hash -> bool;
  b_HasPropsal : Hash -> Z -> bool;
  b_Verify : Proposal -> verifyResult;
  b_Commit : Proposal -> list bytes -> bool;
  b_Sign : bytes -> option bytes;
  b_payloadNoSig : message -> bytes;
  b_sigAddress : message -> option Address;
  b_NodeType : bool;
  b_Timeout : Z
}.
Arguments b_LastProposal {V}.
Arguments b_Validators {V}.
Arguments b_ParentValidators {V}.
Arguments b_GetProposer {V}.
Arguments b_HasBadProposal {V}.
Arguments b_HasPropsal {V}.
Arguments b_Verify {V}.
Arguments b_Commit {V}.
Arguments b_Sign {V}.
Arguments b_payloadNoSig {V}.
Arguments b_sigAddress {V}.
Arguments b_NodeType {V}.
Arguments b_Timeout {V}.
Arguments mkBackend {V}.

(** ** State *)

(** [messageSet]: the last message of each sender.  Its validator set is the one of the
    core, which is replaced only together with the sets. *)
Abbreviation messageSet := (gmap Address message).

(** [roundState]. *)
Record roundState := mkRoundState {
  rs_round : Z;
  rs_sequence : Z;
  rs_Preprepare : option Preprepare;
  rs_Prepares : messageSet;
  rs_Commits : messageSet;
  rs_lockedHash : Hash;
  rs_pendingRequest : option Request
}.

(** What a handler does besides changing the state: signing and posting a message to the
    node's own event queue ([Broadcast]), passing a message on to the other members of the
    committee ([GossipSubPeer]), delivering a block, posting internal events, publishing
    the view and setting timers. *)
Inductive action :=
| ABroadcast (m : message)
| AGossip (prevHash : Hash) (m : message)
| ACommit (p : Proposal) (seals : list bytes)
| APostBacklog (src : Address) (m : message) (prevHash : Hash)
| APostRequest (p : Proposal)
| ASetCurrentView (v : View)
| ARoundChangeTimer (timeout : Z) (nextView : View)
| AFuturePreprepareTimer (duration : Z) (src : Address) (m : message) (prevHash : Hash)
| AStopFuturePreprepareTimer.

(** [core]. *)
Record core (V : Type) := mkCore {
  c_address : Address;
  c_state : State;
  c_valSet : option V;
  c_waitingForRoundChange : bool;
  c_backlogs : gmap Address (sstack (V := message));
  c_current : option roundState;
  c_roundChangeSet : gmap Z messageSet;
  c_pendingRequests : sstack (V := Request);
  c_log : list action
}.
Arguments mkCore {V}.
Arguments c_address {V}.
Arguments c_state {V}.
Arguments c_valSet {V}.
Arguments c_waitingForRoundChange {V}.
Arguments c_backlogs {V}.
Arguments c_current {V}.
Arguments c_roundChangeSet {V}.
Arguments c_pendingRequests {V}.
Arguments c_log {V}.

(** ** State transformers *)

Definition M (V A : Type) : Type := core V -> go (A * core V).
#[export] Instance M_ret {V} : MRet (M V) := fun A a c => Ok (a, c).
#[export] Instance M_bind {V} : MBind (M V) := fun A B k m c =>
  match m c with
  | Ok (a, c) => k a c
  | Err e => Err e
  | Panic => Panic
  | NoFuel => NoFuel
  end.

Section monad.
Context {V : Type}.

Definition lift {A} (r : go A) : M V A := fun c =>
  match r with Ok a => Ok (a, c) | Err e => Err e | Panic => Panic | NoFuel => NoFuel end.
Definition gets {A} (f : core V -> A) : M V A := fun c => Ok (f c, c).
Definition modify (f : core V -> core V) : M V unit := fun c => Ok (tt, f c).

(** Reading [c.current] and [c.valSet]: the code dereferences them. *)
Definition getCurrent : M V roundState :=
  cur ← gets c_current; lift (match cur with Some cur => Ok cur | None => Panic end).
Definition getValSet : M V V :=
  v ← gets c_valSet; lift (match v with Some v => Ok v | None => Panic end).

(** Assignments to the fields of the core. *)
Definition putState (s : State) : M V unit := modify (fun c =>
  mkCore (c_address c) s (c_valSet c) (c_waitingForRoundChange c) (c_backlogs c) (c_current c)
    (c_roundChangeSet c) (c_pendingRequests c) (c_log c)).
Definition putValSet (v : V) : M V unit := modify (fun c =>
  mkCore (c_address c) (c_state c) (Some v) (c_waitingForRoundChange c) (c_backlogs c) (c_current c)
    (c_roundChangeSet c) (c_pendingRequests c) (c_log c)).
Definition putWaiting (b : bool) : M V unit := modify (fun c =>
  mkCore (c_address c) (c_state c) (c_valSet c) b (c_backlogs c) (c_current c)
    (c_roundChangeSet c) (c_pendingRequests c) (c_log c)).
Definition putBacklogs (b : gmap Address (sstack (V := message))) : M V unit := modify (fun c =>
  mkCore (c_address c) (c_state c) (c_valSet c) (c_waitingForRoundChange c) b (c_current c)
    (c_roundChangeSet c) (c_pendingRequests c) (c_log c)).
Definition putCurrent (cur : roundState) : M V unit := modify (fun c =>
  mkCore (c_address c) (c_state c) (c_valSet c) (c_waitingForRoundChange c) (c_backlogs c) (Some cur)
    (c_roundChangeSet c) (c_pendingRequests c) (c_log c)).
Definition putRoundChangeSet (r : gmap Z messageSet) : M V unit := modify (fun c =>
  mkCore (c_address c) (c_state c) (c_valSet c) (c_waitingForRoundChange c) (c_backlogs c) (c_current c)
    r (c_pendingRequests c) (c_log c)).
Definition putPendingRequests (q : sstack (V := Request)) : M V unit := modify (fun c =>
  mkCore (c_address c) (c_state c) (c_valSet c) (c_waitingForRoundChange c) (c_backlogs c) (c_current c)
    (c_roundChangeSet c) q (c_log c)).

(** Doing something outside. *)
Definition emit (a : action) : M V unit := modify (fun c =>
  mkCore (c_address c) (c_state c) (c_valSet c) (c_waitingForRoundChange c) (c_backlogs c) (c_current c)
    (c_roundChangeSet c) (c_pendingRequests c) (c_log c ++ [a])).

End monad.

(** ** The round state *)

Definition emptyHash : Hash := replicate 32 0.

(** [newRoundState]. *)
Definition newRoundState (view : View) (lockedHash : Hash) (preprepare : option Preprepare)
    (pendingRequest : option Request) : roundState :=
  mkRoundState (v_Round view) (v_Sequence view) preprepare ∅ ∅ lockedHash pendingRequest.

(** [GetPrepareOrCommitSize]: both sizes, less the senders counted twice. *)
Definition GetPrepareOrCommitSize (s : roundState) : Z :=
  foldl (fun result m => match rs_Commits s !! m_Address m with Some _ => result - 1 | None => result end)
    (Z.of_nat (size (rs_Prepares s)) + Z.of_nat (size (rs_Commits s)))
    (map snd (map_to_list (rs_Prepares s))).

(** [roundState.Subject] and [roundState.Proposal]. *)
Definition stateView (s : roundState) : View := mkView (rs_sequence s) (rs_round s).
Definition stateSubject (s : roundState) : option Subject :=
  pp ← rs_Preprepare s;
  Some (mkSubject (stateView s) (p_Hash (pp_Proposal pp)) (p_ParentHash (pp_Proposal pp))).
Definition stateProposal (s : roundState) : option Proposal := pp_Proposal <$> rs_Preprepare s.

(** [SetPreprepare], [LockHash], [UnlockHash]; a message added to a set; a new request. *)
Definition SetPreprepare (pp : Preprepare) (s : roundState) : roundState :=
  mkRoundState (rs_round s) (rs_sequence s) (Some pp) (rs_Prepares s) (rs_Commits s) (rs_lockedHash s) (rs_pendingRequest s).
Definition LockHash (s : roundState) : roundState :=
  match rs_Preprepare s with
  | Some pp => mkRoundState (rs_round s) (rs_sequence s) (rs_Preprepare s) (rs_Prepares s) (rs_Commits s)
                 (p_Hash (pp_Proposal pp)) (rs_pendingRequest s)
  | None => s
  end.
Definition UnlockHash (s : roundState) : roundState :=
  mkRoundState (rs_round s) (rs_sequence s) (rs_Preprepare s) (rs_Prepares s) (rs_Commits s) emptyHash (rs_pendingRequest s).
Definition setPrepares (ms : messageSet) (s : roundState) : roundState :=
  mkRoundState (rs_round s) (rs_sequence s) (rs_Preprepare s) ms (rs_Commits s) (rs_lockedHash s) (rs_pendingRequest s).
Definition setCommits (ms : messageSet) (s : roundState) : roundState :=
  mkRoundState (rs_round s) (rs_sequence s) (rs_Preprepare s) (rs_Prepares s) ms (rs_lockedHash s) (rs_pendingRequest s).
Definition setPendingRequest (r : option Request) (s : roundState) : roundState :=
  mkRoundState (rs_round s) (rs_sequence s) (rs_Preprepare s) (rs_Prepares s) (rs_Commits s) (rs_lockedHash s) r.

(** [messageSet.Add]: [verify], then [addVerifiedMessage]. *)
Definition messageSetAdd `{ValidatorSet V} (v : V) (m : message) (ms : messageSet) : messageSet + coreError :=
  if vs_Has v (m_Address m) then inl (<[m_Address m := m]> ms) else inr ErrUnauthorizedAddress.

(** [RequiredMessageCount]: [math.Ceil(float64(2*size) / 3)], exact below 2^52. *)
Definition RequiredMessageCount `{ValidatorSet V} (v : V) : Z :=
  let size := if vs_IsSubSet v then vs_SubGroupSize v else vs_Size v in
  if size <? 4 then size else ceilDiv (2 * size) 3.

(** [PrepareCommittedSeal]. *)
Definition PrepareCommittedSeal (h : Hash) : bytes := h ++ [msgCommit].

(** [toPriority], in 64-bit arithmetic. *)
Definition msgPriority (code : Z) : Z :=
  if code =? msgPreprepare then 1 else if code =? msgCommit then 2 else if code =? msgPrepare then 3 else 0.
Definition toPriority (code : Z) (v : View) : Z :=
  if code =? msgRoundChange then i64 (- i64 (u64 (v_Sequence v) * 1000))
  else i64 (- i64 (u64 (v_Sequence v) * 1000 + u64 (v_Round v) * 10 + msgPriority code)).

(** The duration [newRoundChangeTimer] waits, in nanoseconds, for rounds below 63. *)
Definition roundTimeout (base round : Z) : Z :=
  i64 (base * 1000000 + (if 0 <? round then i64 (2 ^ round * 1000000000) else 0)).

Section operations.
Context {V : Type} `{ValidatorSet V} (b : Backend V).

(** ** Views, locks and messages *)

(** [currentView], [isProposer], [IsHashLocked]. *)
Definition currentView : M V View := cur ← getCurrent; mret (stateView cur).
Definition isProposer : M V bool :=
  v ← gets c_valSet;
  match v with
  | None => mret false
  | Some v => addr ← gets c_address; lift (vs_IsProposer v addr)
  end.
Definition IsHashLocked (s : roundState) : bool :=
  if bool_decide (rs_lockedHash s = emptyHash) then false else negb (b_HasBadProposal b (rs_lockedHash s)).

(** [finalizeMessage]: address, committed seal and signature; [None] is an error. *)
Definition finalizeMessage (m : message) : M V (option message) :=
  addr ← gets c_address;
  seal ← (if m_Code m =? msgCommit then
            cur ← getCurrent;
            mret (match stateProposal cur with
                  | Some p => b_Sign b (PrepareCommittedSeal (p_Hash p))
                  | None => Some []
                  end)
          else mret (Some []));
  match seal with
  | None => mret None
  | Some seal =>
      let m := mkMessage (m_Hash m) (m_Code m) (m_Msg m) addr (m_Signature m) seal in
      mret (sig ← b_Sign b (b_payloadNoSig b m);
            Some (mkMessage (m_Hash m) (m_Code m) (m_Msg m) addr sig seal))
  end.

(** [broadcast]: signed, and posted to the node's own queue. *)
Definition broadcast (hash : Hash) (code : Z) (body : msgBody) : M V unit :=
  m ← finalizeMessage (mkMessage hash code body [] [] []);
  match m with
  | Some m => emit (ABroadcast m)
  | None => mret tt
  end.

(** [newRoundChangeTimer], with [stopTimer]. *)
Definition newRoundChangeTimer : M V unit :=
  _ ← emit AStopFuturePreprepareTimer;
  cur ← getCurrent;
  emit (ARoundChangeTimer (roundTimeout (b_Timeout b) (rs_round cur)) (mkView (rs_sequence cur) (rs_round cur + 1))).

(** [checkMessage]. *)
Definition checkMessage (code : Z) (view : option View) : M V (option coreError) :=
  match view with
  | None => mret (Some errInvalidMessage)
  | Some view =>
      cv ← currentView;
      if code =? msgRoundChange then
        if v_Sequence cv <? v_Sequence view then mret (Some errFutureMessage)
        else match viewCmp view cv with
             | Lt => mret (Some errOldMessage)
             | _ => mret None
             end
      else
        match viewCmp view cv with
        | Gt => mret (Some errFutureMessage)
        | Lt => mret (Some errOldMessage)
        | Eq =>
            waiting ← gets c_waitingForRoundChange;
            if waiting : bool then mret (Some errFutureMessage)
            else
              st ← gets c_state;
              if bool_decide (st = StateAcceptRequest) && (msgPreprepare <? code)
              then mret (Some errFutureMessage) else mret None
        end
  end.

(** ** Requests *)

(** [checkRequestMsg], on a request with a proposal. *)
Definition checkRequestMsg (r : Request) : M V (option coreError) :=
  cur ← getCurrent;
  mret (match rs_sequence cur ?= p_Number (r_Proposal r) with
        | Gt => Some errOldMessage
        | Lt => Some errFutureMessage
        | Eq => None
        end).

(** [storeRequestMsg]. *)
Definition storeRequestMsg (r : Request) : M V unit :=
  q ← gets c_pendingRequests;
  q ← lift (PushItem q r (i64 (- i64 (p_Number (r_Proposal r)))));
  putPendingRequests q.

(** [processPendingRequests]: the loop ends with the queue, or at a future request, which
    is put back. *)
Fixpoint pendingLoop (fuel : nat) (q : sstack (V := Request)) : M V (sstack (V := Request)) :=
  if Empty q then mret q
  else match fuel with
       | O => lift NoFuel
       | S fuel =>
           '((r, prio), q) ← lift (PopItem q);
           err ← checkRequestMsg r;
           match err with
           | Some errFutureMessage => lift (PushItem q r prio)
           | Some _ => pendingLoop fuel q
           | None => _ ← emit (APostRequest (r_Proposal r)); pendingLoop fuel q
           end
       end.
Definition processPendingRequests : M V unit :=
  q ← gets c_pendingRequests;
  q ← pendingLoop (Size q) q;
  putPendingRequests q.

(** ** Backlogs *)

(** The view and the parent hash of a stored message; [None] when it does not decode. *)
Definition backlogView (m : message) : option (View * Hash) :=
  if m_Code m =? msgPreprepare
  then (fun p => (pp_View p, p_ParentHash (pp_Proposal p))) <$> decodePreprepare m
  else (fun s => (s_View s, s_PrevHash s)) <$> decodeSubject m.

(** [storeBacklog]: messages of the node itself are not stored. *)
Definition storeBacklog (m : message) (src : Address) : M V unit :=
  addr ← gets c_address;
  if bool_decide (src = addr) then mret tt
  else
    backlogs ← gets c_backlogs;
    let backlog := default New (backlogs !! src) in
    backlog ← lift (match backlogView m with
                    | Some (view, _) => PushItem backlog m (toPriority (m_Code m) view)
                    | None => Ok backlog
                    end);
    putBacklogs (<[src := backlog]> backlogs).

(** [processBacklog]: for each sender, the loop ends with the queue, or at a future
    message, which is put back.  A stored message always decodes; using one that does not
    is a nil dereference. *)
Fixpoint backlogLoop (fuel : nat) (src : Address) (q : sstack (V := message)) : M V (sstack (V := message)) :=
  if Empty q then mret q
  else match fuel with
       | O => lift NoFuel
       | S fuel =>
           '((m, prio), q) ← lift (PopItem q);
           match backlogView m with
           | None => lift Panic
           | Some (view, prevHash) =>
               err ← checkMessage (m_Code m) (Some view);
               match err with
               | Some errFutureMessage => lift (PushItem q m prio)
               | Some _ => backlogLoop fuel src q
               | None => _ ← emit (APostBacklog src m prevHash); backlogLoop fuel src q
               end
           end
       end.
Fixpoint processBacklogs (l : list (Address * sstack (V := message))) : M V unit :=
  match l with
  | [] => mret tt
  | (src, q) :: l =>
      q ← backlogLoop (Size q) src q;
      backlogs ← gets c_backlogs;
      _ ← putBacklogs (<[src := q]> backlogs);
      processBacklogs l
  end.
Definition processBacklog : M V unit :=
  backlogs ← gets c_backlogs;
  processBacklogs (map_to_list backlogs).

(** [setState]. *)
Definition setState (s : State) : M V unit :=
  _ ← putState s;
  _ ← (if bool_decide (s = StateAcceptRequest) then processPendingRequests else mret tt);
  processBacklog.

(** ** Round changes *)

(** [updateRoundState]. *)
Definition updateRoundState (view : View) (roundChange : bool) : M V unit :=
  cur ← gets c_current;
  match cur, roundChange with
  | Some cur, true =>
      if IsHashLocked cur
      then putCurrent (newRoundState view (rs_lockedHash cur) (rs_Preprepare cur) (rs_pendingRequest cur))
      else putCurrent (newRoundState view emptyHash None (rs_pendingRequest cur))
  | _, _ => putCurrent (newRoundState view emptyHash None None)
  end.

(** [roundChangeSet.Add], [Clear] and [MaxRound]; rounds are [uint64] keys. *)
Definition roundChangeAdd (round : Z) (m : message) : M V (Z + coreError) :=
  rcs ← gets c_roundChangeSet;
  v ← getValSet;
  let ms := default ∅ (rcs !! u64 round) in
  match messageSetAdd v m ms with
  | inr e => _ ← putRoundChangeSet (<[u64 round := ms]> rcs); mret (inr e)
  | inl ms => _ ← putRoundChangeSet (<[u64 round := ms]> rcs); mret (inl (Z.of_nat (size ms)))
  end.
Definition roundChangeClear (round : Z) : M V unit :=
  rcs ← gets c_roundChangeSet;
  putRoundChangeSet (filter (fun kv => size kv.2 <> 0%nat /\ u64 round <= kv.1) rcs).
Definition MaxRound (num : Z) (rcs : gmap Z messageSet) : option Z :=
  foldl (fun acc kv =>
      if Z.of_nat (size kv.2) <? num then acc
      else match acc with
           | Some r => if r <? i64 kv.1 then Some (i64 kv.1) else acc
           | None => Some (i64 kv.1)
           end) None (map_to_list rcs).

(** [catchUpRound]. *)
Definition catchUpRound (view : View) : M V unit :=
  _ ← getCurrent;
  _ ← putWaiting true;
  _ ← updateRoundState view true;
  _ ← roundChangeClear (v_Round view);
  newRoundChangeTimer.

(** [sendRoundChange] and [sendNextRoundChange]. *)
Definition sendRoundChange (round : Z) : M V unit :=
  cv ← currentView;
  if round <=? v_Round cv then mret tt
  else
    _ ← catchUpRound (mkView (v_Sequence cv) round);
    cv ← currentView;
    match (b_LastProposal b).1 with
    | None => lift Panic
    | Some last =>
        broadcast (p_Hash last) msgRoundChange (BodySubject (mkSubject cv emptyHash (p_Hash last)))
    end.
Definition sendNextRoundChange : M V unit :=
  if b_NodeType b then cv ← currentView; sendRoundChange (v_Round cv + 1) else mret tt.

(** ** Sending *)

(** [sendPreprepare]: the proposal of the request is replaced, with the round set. *)
Definition sendPreprepare (r : Request) : M V Request :=
  cv ← currentView;
  let p := withRound (r_Proposal r) (v_Round cv) in
  cur ← getCurrent;
  send ← (if rs_sequence cur =? p_Number p then isProposer else mret false);
  _ ← (if send : bool then broadcast (p_ParentHash p) msgPreprepare (BodyPreprepare (mkPreprepare cv p)) else mret tt);
  mret (mkRequest p).

(** [sendPrepare]: without a proposal, [Proposal().ParentHash()] is a nil dereference. *)
Definition sendPrepare : M V unit :=
  cur ← getCurrent;
  match stateSubject cur with
  | None => lift Panic
  | Some sub =>
      v ← getValSet;
      addr ← gets c_address;
      member ← lift (vs_CheckInSubList v (s_PrevHash sub) (s_View sub) addr);
      if member : bool then broadcast (s_PrevHash sub) msgPrepare (BodySubject sub) else mret tt
  end.

(** [broadcastCommit], [sendCommit] and [sendCommitForOldBlock]. *)
Definition broadcastCommit (sub : Subject) : M V unit :=
  broadcast (s_PrevHash sub) msgCommit (BodySubject sub).
Definition sendCommit : M V unit :=
  cur ← getCurrent;
  match stateSubject cur with
  | None => mret tt
  | Some sub =>
      v ← getValSet;
      addr ← gets c_address;
      member ← lift (vs_CheckInSubList v (s_PrevHash sub) (s_View sub) addr);
      if member : bool then broadcastCommit sub else mret tt
  end.
Definition sendCommitForOldBlock (view : View) (digest prevHash : Hash) : M V unit :=
  broadcastCommit (mkSubject view digest prevHash).

(** [handleRequest]; the stored request is the one whose proposal [sendPreprepare]
    replaces. *)
Definition handleRequest (r : Request) : M V (option coreError) :=
  err ← checkRequestMsg r;
  match err with
  | Some e => mret (Some e)
  | None =>
      cur ← getCurrent;
      _ ← putCurrent (setPendingRequest (Some r) cur);
      st ← gets c_state;
      _ ← (if bool_decide (st = StateAcceptRequest) then
             r ← sendPreprepare r;
             cur ← getCurrent;
             putCurrent (setPendingRequest (Some r) cur)
           else mret tt);
      mret None
  end.

(** ** New rounds *)

(** The view [startNewRound] moves to, and whether it is a round change; [None] when it
    returns at once. *)
Definition newRoundView (last : Proposal) (cur : option roundState) (round : Z) : option (View * bool) :=
  match cur with
  | None => Some (mkView (p_Number last + 1) 0, false)
  | Some cur =>
      if rs_sequence cur <=? p_Number last then Some (mkView (p_Number last + 1) 0, false)
      else if p_Number last =? i64 (i64 (rs_sequence cur) - 1) then
        if round =? 0 then None
        else if round <? rs_round cur then None
        else Some (mkView (rs_sequence cur) round, true)
      else None
  end.

(** [startNewRound]. *)
Definition startNewRound (round : Z) : M V unit :=
  cur ← gets c_current;
  match b_LastProposal b with
  | (None, _) => lift Panic
  | (Some last, lastProposer) =>
      match newRoundView last cur round with
      | None => mret tt
      | Some (view, roundChange) =>
          _ ← (if roundChange : bool then mret tt else putValSet (b_Validators b last));
          _ ← emit (ASetCurrentView view);
          _ ← putRoundChangeSet ∅;
          _ ← updateRoundState view roundChange;
          v ← getValSet;
          v ← lift (vs_CalcProposer v lastProposer (u64 (v_Round view)));
          _ ← putValSet v;
          _ ← putWaiting false;
          _ ← setState StateAcceptRequest;
          proposer ← isProposer;
          _ ← (if roundChange && proposer then
                 cur ← getCurrent;
                 if IsHashLocked cur then
                   match stateProposal cur with
                   | None => lift Panic
                   | Some p => _ ← sendPreprepare (mkRequest p); mret tt
                   end
                 else
                   match rs_pendingRequest cur with
                   | None => mret tt
                   | Some r =>
                       r ← sendPreprepare r;
                       cur ← getCurrent;
                       putCurrent (setPendingRequest (Some r) cur)
                   end
               else mret tt);
          newRoundChangeTimer
      end
  end.

(** ** Committing *)

(** A committed seal, copied into 65 bytes. *)
Definition sealBytes (s : bytes) : bytes := take 65 (s ++ replicate 65 0).

(** [commit]. *)
Definition commit : M V unit :=
  _ ← setState StateCommitted;
  cur ← getCurrent;
  match stateProposal cur with
  | Some p =>
      let seals := map (fun am => sealBytes (m_CommittedSeal am.2)) (map_to_list (rs_Commits cur)) in
      _ ← emit (ACommit p seals);
      if b_Commit b p seals then mret tt
      else _ ← putCurrent (UnlockHash cur); sendNextRoundChange
  | None => _ ← putCurrent (UnlockHash cur); sendNextRoundChange
  end.

(** ** Handlers *)

(** The COMMIT for an existing block that answers an old PRE-PREPARE from the proposer of
    its view. *)
Definition handleOldPreprepare (pp : Preprepare) (src : Address) : M V (option coreError) :=
  let p := pp_Proposal pp in
  let previousProposer := b_GetProposer b (u64 (p_Number p - 1)) in
  v ← lift (vs_CalcProposer (vs_Copy (b_ParentValidators b p)) previousProposer (u64 (v_Round (pp_View pp))));
  fromProposer ← lift (vs_IsProposer v src);
  if fromProposer && b_HasPropsal b (p_Hash p) (p_Number p) then
    _ ← sendCommitForOldBlock (pp_View pp) (p_Hash p) (p_ParentHash p);
    mret None
  else mret (Some errOldMessage).

(** The end of [handlePreprepare]: the proposal is accepted, unless the node is locked on
    another one.  The locked proposal gets the round of the current view first. *)
Definition acceptProposal (pp : Preprepare) : M V unit :=
  cur ← getCurrent;
  if IsHashLocked cur then
    match rs_Preprepare cur with
    | None => lift Panic
    | Some old =>
        let cur := SetPreprepare (mkPreprepare (pp_View old) (withRound (pp_Proposal old) (rs_round cur))) cur in
        _ ← putCurrent cur;
        if bool_decide (p_Hash (pp_Proposal pp) = rs_lockedHash cur) then
          _ ← putCurrent (SetPreprepare pp cur);
          _ ← setState StatePrepared;
          sendCommit
        else sendNextRoundChange
    end
  else
    _ ← putCurrent (SetPreprepare pp cur);
    _ ← setState StatePreprepared;
    sendPrepare.

(** [handlePreprepare]. *)
Definition handlePreprepare (m : message) (src : Address) : M V (option coreError) :=
  match decodePreprepare m with
  | None => mret (Some errInvalidMessage)
  | Some pp =>
      err ← checkMessage msgPreprepare (Some (pp_View pp));
      match err with
      | Some errOldMessage => handleOldPreprepare pp src
      | Some e => mret (Some e)
      | None =>
          v ← getValSet;
          fromProposer ← lift (vs_IsProposer v src);
          if negb fromProposer then mret (Some errNotFromProposer)
          else
            match b_Verify b (pp_Proposal pp) with
            | VerifyFuture duration =>
                _ ← emit AStopFuturePreprepareTimer;
                _ ← emit (AFuturePreprepareTimer duration src m (m_Hash m));
                mret (Some ErrFutureBlock)
            | VerifyFailed => _ ← sendNextRoundChange; mret (Some errVerification)
            | VerifyOk =>
                st ← gets c_state;
                _ ← (if bool_decide (st = StateAcceptRequest) then acceptProposal pp else mret tt);
                mret None
            end
      end
  end.

(** [verifyPrepare] and [verifyCommit]. *)
Definition verifySubject (sub : Subject) : M V (option coreError) :=
  cur ← getCurrent;
  mret (if subjectEqual (Some sub) (stateSubject cur) then None else Some errInconsistentSubject).

(** [acceptPrepare] and [acceptCommit]: an error of the set is only logged. *)
Definition acceptPrepare (m : message) : M V unit :=
  v ← getValSet;
  cur ← getCurrent;
  match messageSetAdd v m (rs_Prepares cur) with
  | inl ms => putCurrent (setPrepares ms cur)
  | inr _ => mret tt
  end.
Definition acceptCommit (m : message) : M V unit :=
  v ← getValSet;
  cur ← getCurrent;
  match messageSetAdd v m (rs_Commits cur) with
  | inl ms => putCurrent (setCommits ms cur)
  | inr _ => mret tt
  end.

(** The step to the Prepared state, shared by [handlePrepare] and [handleCommit]. *)
Definition tryPrepared (digest : Hash) : M V unit :=
  st ← gets c_state;
  if stateNumber st <? stateNumber StatePrepared then
    cur ← getCurrent;
    v ← getValSet;
    if IsHashLocked cur && bool_decide (digest = rs_lockedHash cur) then
      _ ← setState StatePrepared; sendCommit
    else if RequiredMessageCount v <=? GetPrepareOrCommitSize cur then
      _ ← putCurrent (LockHash cur); _ ← setState StatePrepared; sendCommit
    else mret tt
  else mret tt.

(** The step to the Committed state in [handleCommit]. *)
Definition tryCommitted : M V unit :=
  st ← gets c_state;
  cur ← getCurrent;
  v ← getValSet;
  if (stateNumber st <? stateNumber StateCommitted) && (RequiredMessageCount v <=? Z.of_nat (size (rs_Commits cur))) then
    _ ← putCurrent (LockHash cur); commit
  else mret tt.

(** What [handlePrepare] and [handleCommit] check first. *)
Definition checkSubject (code : Z) (m : message) (src : Address) (k : Subject -> M V (option coreError)) : M V (option coreError) :=
  match decodeSubject m with
  | None => mret (Some errInvalidMessage)
  | Some sub =>
      err ← checkMessage code (Some (s_View sub));
      match err with
      | Some e => mret (Some e)
      | None =>
          err ← verifySubject sub;
          match err with
          | Some e => mret (Some e)
          | None =>
              v ← getValSet;
              member ← lift (vs_CheckInSubList v (m_Hash m) (s_View sub) src);
              if negb member then mret (Some errNotFromCommittee) else k sub
          end
      end
  end.

(** [handlePrepare] and [handleCommit]. *)
Definition handlePrepare (m : message) (src : Address) : M V (option coreError) :=
  checkSubject msgPrepare m src (fun sub =>
    _ ← acceptPrepare m;
    _ ← tryPrepared (s_Digest sub);
    mret None).
Definition handleCommit (m : message) (src : Address) : M V (option coreError) :=
  checkSubject msgCommit m src (fun sub =>
    _ ← acceptCommit m;
    _ ← tryPrepared (s_Digest sub);
    _ ← tryCommitted;
    mret None).

(** [handleRoundChange]. *)
Definition handleRoundChange (m : message) (src : Address) : M V (option coreError) :=
  match decodeSubject m with
  | None => mret (Some errInvalidMessage)
  | Some rc =>
      err ← checkMessage msgRoundChange (Some (s_View rc));
      match err with
      | Some e => mret (Some e)
      | None =>
          cv ← currentView;
          let round := v_Round (s_View rc) in
          num ← roundChangeAdd round m;
          match num with
          | inr e => mret (Some e)
          | inl num =>
              v ← getValSet;
              waiting ← gets c_waitingForRoundChange;
              if (num =? RequiredMessageCount v) && (waiting || (v_Round cv <? round)) then
                _ ← startNewRound round; mret None
              else if waiting && (num =? vs_F v + 1) then
                _ ← (if v_Round cv <? round then sendRoundChange round else mret tt); mret None
              else if v_Round cv <? round then mret (Some errIgnored)
              else mret None
          end
      end
  end.

(** [handleCheckedMsg]: future messages are stored. *)
Definition handleCheckedMsg (m : message) (src : Address) : M V (option coreError) :=
  let testBacklog (r : M V (option coreError)) : M V (option coreError) :=
    err ← r;
    _ ← (if bool_decide (err = Some errFutureMessage) then storeBacklog m src else mret tt);
    mret err in
  if m_Code m =? msgPreprepare then testBacklog (handlePreprepare m src)
  else if m_Code m =? msgPrepare then testBacklog (handlePrepare m src)
  else if m_Code m =? msgCommit then testBacklog (handleCommit m src)
  else if m_Code m =? msgRoundChange then testBacklog (handleRoundChange m src)
  else mret (Some errInvalidMessage).

(** [message.FromPayload] with [checkValidatorSignature] on a decoded message. *)
Definition checkSignature (v : V) (m : message) : option coreError :=
  match b_sigAddress b m with
  | None => Some errSignature
  | Some signer =>
      if negb (vs_Has v signer) then Some ErrUnauthorizedAddress
      else if bool_decide (signer = m_Address m) then None else Some errInvalidSigner
  end.

(** [handleMsg]; [None] is a payload that does not decode. *)
Definition handleMsg (payload : option message) : M V (option coreError) :=
  match payload with
  | None => mret (Some errDecode)
  | Some m =>
      v ← getValSet;
      match checkSignature v m with
      | Some e => mret (Some e)
      | None =>
          if vs_Has v (m_Address m) then handleCheckedMsg m (m_Address m)
          else mret (Some ErrUnauthorizedAddress)
      end
  end.

(** [handleTimeoutMsg]. *)
Definition handleTimeoutMsg (nextView : View) : M V unit :=
  if negb (b_NodeType b) then mret tt
  else
    match (b_LastProposal b).1 with
    | None => mret tt
    | Some last =>
        if v_Sequence nextView <=? p_Number last then mret tt
        else
          waiting ← gets c_waitingForRoundChange;
          rcs ← gets c_roundChangeSet;
          v ← getValSet;
          cur ← getCurrent;
          let late := if negb waiting then
                        match MaxRound (vs_F v + 1) rcs with
                        | Some r => if rs_round cur <? r then Some r else None
                        | None => None
                        end
                      else None in
          match late with
          | Some r => sendRoundChange r
          | None =>
              if rs_sequence cur <=? p_Number last then startNewRound 0
              else sendRoundChange (v_Round nextView)
          end
    end.

(** [handleFinalCommitted]. *)
Definition handleFinalCommitted : M V unit := startNewRound 0.

(** ** The event loop *)

Inductive event :=
| RequestEvent (p : Proposal)
| MessageEvent (hash : Hash) (payload : option message)
| BacklogEvent (src : Address) (m : message) (hash : Hash)
| TimeoutEvent (nextView : View)
| FinalCommittedEvent.

(** [Start]: the first round. *)
Definition Start : M V unit := startNewRound 0.

(** One iteration of [handleEvents]. *)
Definition handleEvent (ev : event) : M V unit :=
  match ev with
  | RequestEvent p =>
      err ← handleRequest (mkRequest p);
      if bool_decide (err = Some errFutureMessage) then storeRequestMsg (mkRequest p) else mret tt
  | MessageEvent hash payload =>
      err ← handleMsg payload;
      match err, payload with
      | None, Some m => emit (AGossip hash m)
      | _, _ => mret tt
      end
  | BacklogEvent src m hash =>
      v ← getValSet;
      if vs_Has v src then
        err ← handleCheckedMsg m src;
        match err with None => emit (AGossip hash m) | Some _ => mret tt end
      else mret tt
  | TimeoutEvent nextView => handleTimeoutMsg nextView
  | FinalCommittedEvent => handleFinalCommitted
  end.

End operations.

(** [New]: the core before [Start]. *)
Definition NewCore {V} (address : Address) : core V :=
  mkCore address StateAcceptRequest None false ∅ None ∅ PriorityQueue.New [].

(** Internal events are those the core posted itself, at once or through a timer. *)
Definition genuine {V} (c : core V) (ev : event) : Prop :=
  match ev with
  | BacklogEvent src m hash =>
      APostBacklog src m hash ∈ c_log c \/ exists d, AFuturePreprepareTimer d src m hash ∈ c_log c
  | TimeoutEvent v => exists d, ARoundChangeTimer d v ∈ c_log c
  | _ => True
  end.

(** One step of the node: an event, handled while the backend answers as given.  [Env] is
    what is known of the backend throughout the run. *)
Inductive step `{ValidatorSet V} (Env : Backend V -> Prop) : core V -> core V -> Prop :=
| step_event (b : Backend V) ev c c' :
    Env b -> genuine c ev -> handleEvent b ev c = Ok (tt, c') -> step Env c c'.

(** The states of a running node. *)
Inductive reachable `{ValidatorSet V} (Env : Backend V -> Prop) (addr : Address) : core V -> Prop :=
| reach_start (b : Backend V) c : Env b -> Start b (NewCore addr) = Ok (tt, c) -> reachable Env addr c
| reach_step c c' : reachable Env addr c -> step Env c c' -> reachable Env addr c'.

End Core.
