(* ===== verification/IstanbulInv.v ===== *)
(** * Invariants of the consensus core

    Which parts of the state each operation leaves alone, and what stays true in every
    state of a running node: the votes collected in a view are for its proposal and from
    its committee, nothing is collected before a proposal is accepted, a committed block
    has a quorum, and the votes passed on in one view all agree. *)

From S2P Require Import Prelude Validators Prque Istanbul.

Module CoreInv.
Import ValSet PriorityQueue Core.

(** ** Operations and relations on states *)

Definition keeps {V A} (R : core V -> core V -> Prop) (m : M V A) : Prop :=
  forall c a c', m c = Ok (a, c') -> R c c'.

Lemma M_bind_inv {V A B} (m : M V A) (k : A -> M V B) c b c'' :
  (m ≫= k) c = Ok (b, c'') -> exists a c', m c = Ok (a, c') /\ k a c' = Ok (b, c'').
Proof. unfold mbind, M_bind. destruct (m c) as [[a c']|?| |] eqn:E; try done. eauto. Qed.

Section keeps.
Context {V : Type} (R : core V -> core V -> Prop) {pre : PreOrder R}.

Lemma keeps_bind {A B} (m : M V A) (k : A -> M V B) : keeps R m -> (forall a, keeps R (k a)) -> keeps R (m ≫= k).
Proof. intros Hm Hk c b c'' (a & c' & H1 & H2)%M_bind_inv. etrans; [by eapply Hm|by eapply Hk]. Qed.
Lemma keeps_ret {A} (a : A) : keeps R (mret a : M V A).
Proof. intros c a' c' [= <- <-]. done. Qed.
Lemma keeps_gets {A} (f : core V -> A) : keeps R (gets f).
Proof. intros c a' c' [= <- <-]. done. Qed.
Lemma keeps_lift {A} (r : go A) : keeps R (lift r).
Proof. intros c a' c'. unfold lift. destruct r; try done. by intros [= <- <-]. Qed.
Lemma keeps_getCurrent : keeps R (getCurrent (V := V)).
Proof. apply keeps_bind; [apply keeps_gets|intros; apply keeps_lift]. Qed.
Lemma keeps_getValSet : keeps R (getValSet (V := V)).
Proof. apply keeps_bind; [apply keeps_gets|intros; apply keeps_lift]. Qed.
Lemma keeps_currentView : keeps R (currentView (V := V)).
Proof. apply keeps_bind; [apply keeps_getCurrent|intros; apply keeps_ret]. Qed.
End keeps.

Create HintDb keeps.
#[export] Hint Resolve keeps_ret keeps_gets keeps_lift keeps_getCurrent keeps_getValSet keeps_currentView : keeps.

(** Follow the structure of an operation. *)
Ltac keeps_step :=
  match goal with
  | |- keeps _ (mbind _ _) => apply keeps_bind; [apply _| |intros]
  | |- keeps _ (match ?x with _ => _ end) => destruct x
  | |- keeps _ (if ?x then _ else _) => destruct x
  | |- keeps _ _ => solve [eauto with keeps typeclass_instances]
  end.
Ltac keeps_tac := repeat keeps_step.

(** ** Frames *)

(** Actions that put nothing on the network; internal posts under the sender's name. *)
Definition quiet (a : action) : Prop := match a with AGossip _ _ => False | _ => True end.
Definition posted (a : action) : Prop :=
  match a with
  | APostBacklog src m _ | AFuturePreprepareTimer _ src m _ => m_Address m = src
  | _ => True
  end.

(** Backlogs and posts are filed under the sender of the message. *)
Definition filed {V} (c : core V) : Prop :=
  Forall posted (c_log c) /\
  forall src q x, c_backlogs c !! src = Some q -> member x q -> m_Address x.1 = src.

(** Everything but queues and log is left alone, and nothing is sent. *)
Record frame {V} (c c' : core V) : Prop := mkFrame {
  fr_address : c_address c' = c_address c;
  fr_state : c_state c' = c_state c;
  fr_valSet : c_valSet c' = c_valSet c;
  fr_waiting : c_waitingForRoundChange c' = c_waitingForRoundChange c;
  fr_current : c_current c' = c_current c;
  fr_log : exists l, c_log c' = c_log c ++ l /\ Forall quiet l;
  fr_filed : filed c -> filed c'
}.

#[export] Instance frame_preorder {V} : PreOrder (frame (V := V)).
Proof.
  split.
  - intros c. constructor; try done. exists []. by rewrite app_nil_r.
  - intros c1 c2 c3 [? ? ? ? ? (l1 & E1 & Q1) ?] [? ? ? ? ? (l2 & E2 & Q2) ?].
    constructor; try congruence; auto. exists (l1 ++ l2). rewrite E2, E1, app_assoc. split; [done|]. by apply Forall_app.
Qed.

Section frames.
Context {V : Type} `{ValidatorSet V} (b : Backend V).

Lemma frame_emit a : quiet a -> posted a -> keeps frame (emit (V := V) a).
Proof.
  intros Hq Hp c x c' [= <- <-]. constructor; try done.
  - exists [a]. split; [done|]. by apply Forall_singleton.
  - intros [Hl Hb]. split; [|done]. apply Forall_app. split; [done|]. by apply Forall_singleton.
Qed.
Lemma frame_putPendingRequests q : keeps frame (putPendingRequests (V := V) q).
Proof. intros c x c' [= <- <-]. constructor; try done. exists []. by rewrite app_nil_r. Qed.
Lemma frame_putRoundChangeSet q : keeps frame (putRoundChangeSet (V := V) q).
Proof. intros c x c' [= <- <-]. constructor; try done. exists []. by rewrite app_nil_r. Qed.
Hint Resolve frame_emit frame_putPendingRequests frame_putRoundChangeSet : keeps.
Hint Extern 1 (quiet _) => exact I : keeps.
Hint Extern 1 (posted _) => exact I : keeps.

Lemma frame_isProposer : keeps frame (isProposer (V := V)).
Proof. unfold isProposer. keeps_tac. Qed.
Lemma frame_finalizeMessage m : keeps frame (finalizeMessage b m).
Proof. unfold finalizeMessage. keeps_tac. Qed.
Hint Resolve frame_isProposer frame_finalizeMessage : keeps.
Lemma frame_broadcast h code body : keeps frame (broadcast b h code body).
Proof. unfold broadcast. keeps_tac. Qed.
Lemma frame_newRoundChangeTimer : keeps frame (newRoundChangeTimer b).
Proof. unfold newRoundChangeTimer. keeps_tac. Qed.
Lemma frame_checkMessage code v : keeps frame (checkMessage (V := V) code v).
Proof. unfold checkMessage. keeps_tac. Qed.
Lemma frame_checkRequestMsg r : keeps frame (checkRequestMsg (V := V) r).
Proof. unfold checkRequestMsg. keeps_tac. Qed.
Lemma frame_storeRequestMsg r : keeps frame (storeRequestMsg (V := V) r).
Proof. unfold storeRequestMsg. keeps_tac. Qed.
Hint Resolve frame_broadcast frame_newRoundChangeTimer frame_checkMessage frame_checkRequestMsg frame_storeRequestMsg : keeps.
Lemma frame_pendingLoop fuel : forall q, keeps frame (pendingLoop (V := V) fuel q).
Proof. induction fuel; intros q; simpl; keeps_tac. Qed.
Hint Resolve frame_pendingLoop : keeps.
Lemma frame_processPendingRequests : keeps frame (processPendingRequests (V := V)).
Proof. unfold processPendingRequests. keeps_tac. Qed.
Hint Resolve frame_processPendingRequests : keeps.

Definition of_sender (src : Address) (q : sstack (V := message)) : Prop :=
  forall x, member x q -> m_Address x.1 = src.

Lemma backlogLoop_ok fuel src : forall q c q' c', of_sender src q ->
  backlogLoop (V := V) fuel src q c = Ok (q', c') -> frame c c' /\ of_sender src q'.
Proof.
  induction fuel as [|fuel IH]; intros q c q' c' Hq; cbn [backlogLoop]; destruct (Empty q);
    try (by intros [= <- <-]).
  intros ([[m prio] q1] & c1 & H1 & Hr)%M_bind_inv. unfold lift in H1.
  destruct (PopItem q) as [[x1 q2]|?| |] eqn:Hp; try done. injection H1 as -> -> <-.
  apply PopItem_member in Hp as [Hm Hsub]. assert (Hq1 : of_sender src q1) by (intros x Hx; by apply Hq, Hsub).
  destruct (backlogView m) as [[view prev]|]; [|done].
  apply M_bind_inv in Hr as (err & c2 & Hc & Hr). pose proof (frame_checkMessage _ _ _ _ _ Hc) as Hf.
  assert (Hgo : forall c3, backlogLoop fuel src q1 c3 = Ok (q', c') -> frame c c3 -> frame c c' /\ of_sender src q').
  { intros c3 H3 Hf3. destruct (IH _ _ _ _ Hq1 H3). split; [by etrans|done]. }
  destruct err as [[]|]; try (by eapply Hgo).
  - unfold lift in Hr. destruct (PushItem q1 m prio) as [q3|?| |] eqn:Hpush; try done. injection Hr as <- <-.
    split; [done|]. intros x Hx. destruct (PushItem_member _ _ _ _ _ Hpush Hx) as [->|Hx']; [by apply (Hq (m, prio))|by apply Hq1].
  - apply M_bind_inv in Hr as ([] & c3 & He & Hr). eapply Hgo; [exact Hr|]. etrans; [exact Hf|].
    eapply frame_emit; [..|exact He]; [done|]. simpl. by apply (Hq (m, prio)).
Qed.

Lemma frame_putBacklogs src q c u c' : of_sender src q ->
  putBacklogs (<[src := q]> (c_backlogs c)) c = Ok (u, c') -> frame (V := V) c c'.
Proof.
  intros Hq [= <- <-]. constructor; try done; [exists []; by rewrite app_nil_r|]. intros [Hl Hb]. split; [done|].
  intros src' q' x. simpl. destruct (decide (src = src')) as [->|Hne].
  - rewrite lookup_insert_eq. intros [= <-]. apply Hq.
  - rewrite lookup_insert_ne by done. apply Hb.
Qed.

Lemma processBacklogs_ok l : forall c c', (forall src q, (src, q) ∈ l -> of_sender src q) ->
  processBacklogs (V := V) l c = Ok (tt, c') -> frame c c'.
Proof.
  induction l as [|[src q] l IH]; intros c c' Hl; cbn [processBacklogs]; [by intros [= <-]|].
  intros (q' & c1 & H1 & Hr)%M_bind_inv. apply backlogLoop_ok in H1 as [Hf Hq']; [|apply Hl; left].
  apply M_bind_inv in Hr as (bl & c2 & [= <- <-] & Hr). apply M_bind_inv in Hr as (u & c3 & Hput & Hr).
  apply frame_putBacklogs in Hput; [|done]. etrans; [exact Hf|]. etrans; [exact Hput|].
  apply (IH _ _ ltac:(intros; apply Hl; by right) Hr).
Qed.

(** With the backlogs filed by sender, processing them and changing the state is quiet. *)
Lemma processBacklog_ok c u c' : filed c -> processBacklog (V := V) c = Ok (u, c') -> frame c c'.
Proof.
  intros [_ Hb] Hr. destruct u. unfold processBacklog in Hr. apply M_bind_inv in Hr as (bl & c1 & [= <- <-] & Hr).
  eapply processBacklogs_ok; [|exact Hr]. intros src q Hin x Hx. apply elem_of_map_to_list in Hin. by eapply Hb.
Qed.

Lemma storeBacklog_ok m c u c' : filed c -> storeBacklog (V := V) m (m_Address m) c = Ok (u, c') -> frame c c'.
Proof.
  intros [_ Hb] Hr. unfold storeBacklog in Hr. apply M_bind_inv in Hr as (addr & c1 & [= <- <-] & Hr).
  case_bool_decide; [by injection Hr as <- <-|]. apply M_bind_inv in Hr as (bl & c1 & [= <- <-] & Hr).
  apply M_bind_inv in Hr as (q & c1 & Hq & Hr).
  assert (Hold : of_sender (m_Address m) (default New (c_backlogs c !! m_Address m))).
  { intros x Hx. destruct (c_backlogs c !! m_Address m) as [q0|] eqn:E; [by eapply Hb|]. by apply New_member in Hx. }
  unfold lift in Hq. destruct (backlogView m) as [[view prev]|]; [|injection Hq as <- <-; by eapply frame_putBacklogs].
  destruct (PushItem _ m _) as [q1|?| |] eqn:Hp; try done. injection Hq as <- <-. eapply frame_putBacklogs; [|exact Hr].
  intros x Hx. destruct (PushItem_member _ _ _ _ _ Hp Hx) as [->|Hx']; [done|by apply Hold].
Qed.

(** [setState] only sets the state. *)
Definition withState (s : State) (c : core V) : core V :=
  mkCore (c_address c) s (c_valSet c) (c_waitingForRoundChange c) (c_backlogs c) (c_current c)
    (c_roundChangeSet c) (c_pendingRequests c) (c_log c).

Lemma setState_ok s c u c' : filed c -> setState (V := V) s c = Ok (u, c') -> frame (withState s c) c'.
Proof.
  intros Hf Hr. unfold setState in Hr. apply M_bind_inv in Hr as (u1 & c1 & [= _ <-] & Hr).
  apply M_bind_inv in Hr as (u2 & c2 & Hp & Hr). assert (Hf2 : frame (withState s c) c2).
  { destruct (bool_decide _); [by apply frame_processPendingRequests in Hp|by injection Hp as _ <-]. }
  etrans; [exact Hf2|]. eapply processBacklog_ok; [|exact Hr]. by apply (fr_filed _ _ Hf2).
Qed.

Lemma frame_sendPreprepare r : keeps frame (sendPreprepare b r).
Proof. unfold sendPreprepare. keeps_tac. Qed.
Lemma frame_sendPrepare : keeps frame (sendPrepare b).
Proof. unfold sendPrepare. keeps_tac. Qed.
Lemma frame_sendCommit : keeps frame (sendCommit b).
Proof. unfold sendCommit, broadcastCommit. keeps_tac. Qed.
Lemma frame_handleOldPreprepare pp src : keeps frame (handleOldPreprepare b pp src).
Proof. unfold handleOldPreprepare, sendCommitForOldBlock, broadcastCommit. keeps_tac. Qed.
Lemma frame_roundChangeAdd round m : keeps frame (roundChangeAdd (V := V) round m).
Proof. unfold roundChangeAdd. keeps_tac. Qed.
Lemma frame_roundChangeClear round : keeps frame (roundChangeClear (V := V) round).
Proof. unfold roundChangeClear. keeps_tac. Qed.

End frames.

(** ** The invariant *)

Definition view_le (v w : View) : Prop :=
  v_Sequence v < v_Sequence w \/ (v_Sequence v = v_Sequence w /\ v_Round v <= v_Round w).

#[export] Instance view_le_preorder : PreOrder view_le.
Proof. split; [intros v; right; lia|]. intros u v w. unfold view_le. lia. Qed.
#[export] Instance view_le_antisymm : AntiSymm (=) view_le.
Proof. intros [s r] [s' r']. unfold view_le. simpl. intros. f_equal; lia. Qed.

Lemma viewCmp_eq v w : viewCmp v w = Eq -> v = w.
Proof.
  unfold viewCmp. destruct v as [s r], w as [s' r']. simpl. destruct (Z.compare_spec s s'); try done.
  intros ?%Z.compare_eq. congruence.
Qed.

Lemma viewCmp_lt v w : viewCmp v w = Lt -> view_le v w /\ v <> w.
Proof.
  unfold viewCmp, view_le. destruct v as [s r], w as [s' r']. simpl. destruct (Z.compare_spec s s'); try done.
  - intros Hlt. rewrite Z.compare_lt_iff in Hlt. split; [lia|]. intros E. injection E. lia.
  - intros _. split; [lia|]. intros E. injection E. lia.
Qed.

Section invariant.
Context {V : Type} `{ValidatorSet V}.
Implicit Types (c : core V) (cur : roundState).

(** No proposal of the current view has been accepted. *)
Definition idle c : Prop := c_state c = StateAcceptRequest \/ c_waitingForRoundChange c = true.

(** A collected vote: from a committee member, by the check the handlers make, and for the
    subject of the round. *)
Definition is_vote (m : message) : Prop := m_Code m = msgPrepare \/ m_Code m = msgCommit.
Definition supported (v : option V) cur (a : Address) (m : message) : Prop :=
  m_Address m = a /\ is_vote m /\ exists sub w, decodeSubject m = Some sub /\ stateSubject cur = Some sub /\ v = Some w /\
    vs_CheckInSubList w (m_Hash m) (s_View sub) a = Ok true.

Record round_ok c cur : Prop := mkRoundOk {
  ro_prepares : map_Forall (supported (c_valSet c) cur) (rs_Prepares cur);
  ro_commits : map_Forall (supported (c_valSet c) cur) (rs_Commits cur);
  ro_idle : idle c -> rs_Prepares cur = ∅ /\ rs_Commits cur = ∅;
  ro_quorum : c_state c = StateCommitted -> c_waitingForRoundChange c = false ->
    exists v, c_valSet c = Some v /\ RequiredMessageCount v <= Z.of_nat (size (rs_Commits cur))
}.

Definition inv c : Prop := filed c /\ exists cur, c_current c = Some cur /\ round_ok c cur.

(** Nothing is sent, the view never goes back, and within one view the accepted subject
    stays. *)
Definition advances c c' : Prop :=
  (exists l, c_log c' = c_log c ++ l /\ Forall quiet l) /\
  forall cur, c_current c = Some cur -> exists cur', c_current c' = Some cur' /\
    view_le (stateView cur) (stateView cur') /\
    (stateView cur' = stateView cur -> ~ idle c -> ~ idle c' /\ stateSubject cur' = stateSubject cur).

Definition safe c c' : Prop := inv c -> inv c' /\ advances c c'.

#[export] Instance advances_preorder : PreOrder advances.
Proof.
  split.
  - intros c. split; [exists []; by rewrite app_nil_r|]. intros cur Hc. exists cur. done.
  - intros c1 c2 c3 [(l1 & E1 & Q1) H12] [(l2 & E2 & Q2) H23]. split.
    { exists (l1 ++ l2). rewrite E2, E1, app_assoc. split; [done|]. by apply Forall_app. }
    intros cur Hc. destruct (H12 cur Hc) as (cur2 & Hc2 & Hle & Hs). destruct (H23 cur2 Hc2) as (cur3 & Hc3 & Hle' & Hs').
    exists cur3. split; [done|]. split; [by etrans|]. intros Heq Hid.
    assert (E : stateView cur2 = stateView cur) by (apply (anti_symm view_le); [rewrite <- Heq|]; done).
    destruct (Hs E Hid) as [Hid2 Es]. destruct (Hs' ltac:(congruence) Hid2) as [Hid3 Es']. split; [done|congruence].
Qed.

#[export] Instance safe_preorder : PreOrder safe.
Proof.
  split; [intros c Hc; done|]. intros c1 c2 c3 H12 H23 H1. destruct (H12 H1) as [H2 A]. destruct (H23 H2) as [H3 B].
  split; [done|]. by etrans.
Qed.

Lemma frame_safe c c' : frame c c' -> safe c c'.
Proof.
  intros [Ha Hs Hv Hw Hc Hl Hf] [Hfiled (cur & Hcur & Hro)]. split.
  - split; [by apply Hf|]. exists cur. split; [congruence|]. destruct Hro as [H1 H2 H3 H4].
    constructor; unfold idle; rewrite ?Hv, ?Hs, ?Hw; done.
  - split; [done|]. intros cur0 E. exists cur0. split; [congruence|]. split; [done|]. intros _ Hid.
    unfold idle in *. rewrite Hs, Hw. done.
Qed.

Lemma keeps_frame_safe {A} (m : M V A) : keeps frame m -> keeps safe m.
Proof. intros Hm c a c' E. by eapply frame_safe, Hm. Qed.

(** ** Elementary changes *)

Definition withCurrent cur c : core V :=
  mkCore (c_address c) (c_state c) (c_valSet c) (c_waitingForRoundChange c) (c_backlogs c) (Some cur)
    (c_roundChangeSet c) (c_pendingRequests c) (c_log c).

Lemma supported_subject (v : option V) cur cur' (ms : messageSet) : stateSubject cur' = stateSubject cur ->
  map_Forall (supported v cur) ms -> map_Forall (supported v cur') ms.
Proof. intros E Hm a m Hl. destruct (Hm a m Hl) as (Ha & Hv & sub & w & ? & ? & ?). split; [done|]. split; [done|]. exists sub, w. by rewrite E. Qed.

(** A change of the round state that keeps the view and the votes, and the subject unless
    the node still waits for a proposal. *)
Lemma safe_withCurrent c cur cur' : c_current c = Some cur ->
  rs_Prepares cur' = rs_Prepares cur -> rs_Commits cur' = rs_Commits cur -> stateView cur' = stateView cur ->
  stateSubject cur' = stateSubject cur \/ c_state c = StateAcceptRequest ->
  safe c (withCurrent cur' c).
Proof.
  intros Hc Ep Ec Ev Hsub [Hfiled (cur0 & Hc0 & [H1 H2 H3 H4])]. rewrite Hc in Hc0. injection Hc0 as <-. split.
  - split; [done|]. exists cur'. split; [done|]. destruct Hsub as [E|Hacc].
    + constructor; simpl; rewrite ?Ep, ?Ec; try (by eapply supported_subject); [done|].
      done.
    + destruct (H3 (or_introl Hacc)) as [E1 E2].
      constructor; simpl; rewrite ?Ep, ?Ec, ?E1, ?E2; try apply map_Forall_empty; [done|]. congruence.
  - split; [exists []; by rewrite app_nil_r|]. intros cur0 E0. rewrite Hc in E0. injection E0 as <-. exists cur'. split; [done|].
    split; [by rewrite Ev|]. intros _ Hid. split; [done|]. destruct Hsub; [done|]. destruct Hid. by left.
Qed.

(** A vote is added. *)
Lemma safe_addVote c cur cur' m : c_current c = Some cur -> ~ idle c -> supported (c_valSet c) cur (m_Address m) m ->
  stateView cur' = stateView cur -> stateSubject cur' = stateSubject cur ->
  (rs_Prepares cur' = <[m_Address m := m]> (rs_Prepares cur) /\ rs_Commits cur' = rs_Commits cur) \/
  (rs_Prepares cur' = rs_Prepares cur /\ rs_Commits cur' = <[m_Address m := m]> (rs_Commits cur)) ->
  safe c (withCurrent cur' c).
Proof.
  intros Hc Hid Hm Ev Es Hsets [Hfiled (cur0 & Hc0 & [H1 H2 H3 H4])]. rewrite Hc in Hc0. injection Hc0 as <-. split.
  - split; [done|]. exists cur'. split; [done|]. pose proof (supported_subject _ cur cur' _ Es H1) as H1'. pose proof (supported_subject _ cur cur' _ Es H2) as H2'.
    assert (Hm' : supported (c_valSet c) cur' (m_Address m) m).
    { destruct Hm as (Ha & Hv & sub & w & ? & ? & ?). split; [done|]. split; [done|]. exists sub, w. by rewrite Es. }
    constructor; simpl.
    + destruct Hsets as [[-> _]|[-> _]]; [by apply map_Forall_insert_2|done].
    + destruct Hsets as [[_ ->]|[_ ->]]; [done|by apply map_Forall_insert_2].
    + done.
    + intros Hs Hw. destruct (H4 Hs Hw) as (v & ? & Hq). exists v. split; [done|].
      destruct Hsets as [[_ ->]|[_ ->]]; [done|]. etrans; [exact Hq|]. apply Nat2Z.inj_le.
      rewrite map_size_insert. destruct (rs_Commits cur !! m_Address m); simpl; lia.
  - split; [exists []; by rewrite app_nil_r|]. intros cur1 E0. rewrite Hc in E0. injection E0 as <-. exists cur'. split; [done|].
    split; [by rewrite Ev|]. done.
Qed.

(** The state moves forward. *)
Lemma safe_withState s c cur : c_current c = Some cur -> s <> StateAcceptRequest ->
  (s = StateCommitted -> c_waitingForRoundChange c = false ->
    exists v, c_valSet c = Some v /\ RequiredMessageCount v <= Z.of_nat (size (rs_Commits cur))) ->
  safe c (withState s c).
Proof.
  intros Hc Hs Hq [Hfiled (cur0 & Hc0 & [H1 H2 H3 H4])]. rewrite Hc in Hc0. injection Hc0 as <-. split.
  - split; [done|]. exists cur. split; [done|]. constructor; simpl; try done.
    intros [?|?]; [done|]. apply H3. by right.
  - split; [exists []; by rewrite app_nil_r|]. intros cur1 E0. rewrite Hc in E0. injection E0 as <-. exists cur. split; [done|]. split; [done|].
    intros _ Hid. split; [|done]. intros [?|?]; [done|]. apply Hid. by right.
Qed.

End invariant.

(** ** Every operation is safe *)

Section operations.
Context {V : Type} `{ValidatorSet V} (b : Backend V).
Implicit Types (c : core V) (cur : roundState).

Lemma getCurrent_inv c cur c' : getCurrent c = Ok (cur, c') -> c_current c = Some cur /\ c' = c.
Proof.
  intros (o & c1 & [= <- <-] & Hr)%M_bind_inv. unfold lift in Hr. destruct (c_current c); [|done]. by injection Hr as -> ->.
Qed.
Lemma getValSet_inv c v c' : getValSet c = Ok (v, c') -> c_valSet c = Some v /\ c' = c.
Proof.
  intros (o & c1 & [= <- <-] & Hr)%M_bind_inv. unfold lift in Hr. destruct (c_valSet c); [|done]. by injection Hr as -> ->.
Qed.
Lemma currentView_inv c v c' : currentView c = Ok (v, c') -> exists cur, c_current c = Some cur /\ v = stateView cur /\ c' = c.
Proof. intros (cur & c1 & (Hc & ->)%getCurrent_inv & Hr)%M_bind_inv. injection Hr as <- <-. eauto. Qed.
Lemma lift_inv {A} (r : go A) c a c' : lift r c = Ok (a, c') -> r = Ok a /\ c' = c.
Proof. unfold lift. destruct r; try done. by intros [= <- <-]. Qed.
Lemma putCurrent_eq cur c : putCurrent cur c = Ok (tt, withCurrent cur c).
Proof. done. Qed.

Lemma inv_filed c : inv c -> filed c.
Proof. by intros [? _]. Qed.

Lemma setState_safe s c u c' cur : c_current c = Some cur -> s <> StateAcceptRequest ->
  (s = StateCommitted -> c_waitingForRoundChange c = false ->
    exists v, c_valSet c = Some v /\ RequiredMessageCount v <= Z.of_nat (size (rs_Commits cur))) ->
  setState s c = Ok (u, c') -> safe c c'.
Proof.
  intros Hc Hs Hq Hr Hi. assert (Hw : safe c (withState s c)) by by eapply safe_withState.
  apply setState_ok in Hr; [|by apply inv_filed]. by apply (transitivity Hw (frame_safe _ _ Hr)).
Qed.

(** A fresh round at a later view, or at the same view when no proposal of it was accepted. *)
Lemma fresh_round c c1 cur' :
  filed c1 -> c_current c1 = Some cur' -> rs_Prepares cur' = ∅ -> rs_Commits cur' = ∅ -> idle c1 ->
  (c_state c1 = StateCommitted -> c_waitingForRoundChange c1 = true) ->
  (exists l, c_log c1 = c_log c ++ l /\ Forall quiet l) ->
  (forall cur, c_current c = Some cur -> view_le (stateView cur) (stateView cur') /\ (stateView cur' = stateView cur -> idle c)) ->
  inv c1 /\ advances c c1.
Proof.
  intros Hf Hc Hp Hcm Hid Hst Hlog Hview. split.
  - split; [done|]. exists cur'. split; [done|]. constructor; rewrite ?Hp, ?Hcm; try apply map_Forall_empty; [done|].
    intros Hs Hw. rewrite (Hst Hs) in Hw. done.
  - split; [done|]. intros cur Hcur. destruct (Hview cur Hcur) as [Hle He]. exists cur'. split; [done|]. split; [done|].
    intros E Hn. destruct Hn. by apply He.
Qed.

Lemma updateRoundState_inv view rc c u c' : updateRoundState b view rc c = Ok (u, c') ->
  exists lh pp pr, c' = withCurrent (newRoundState view lh pp pr) c.
Proof.
  intros (o & c1 & [= <- <-] & Hr)%M_bind_inv.
  destruct (c_current c) as [cur|], rc; try destruct (IsHashLocked b cur); injection Hr as _ <-; eauto.
Qed.

Lemma catchUpRound_safe c cur view u c' : c_current c = Some cur -> v_Sequence view = rs_sequence cur ->
  rs_round cur < v_Round view -> catchUpRound b view c = Ok (u, c') -> safe c c'.
Proof.
  intros Hc Hseq Hround Hr. unfold catchUpRound in Hr.
  apply M_bind_inv in Hr as (cur0 & c0 & (_ & ->)%getCurrent_inv & Hr).
  apply M_bind_inv in Hr as (u1 & c1 & [= _ <-] & Hr).
  apply M_bind_inv in Hr as (u2 & c2 & (lh & pp & pr & ->)%updateRoundState_inv & Hr).
  apply M_bind_inv in Hr as (u3 & c3 & H3%frame_roundChangeClear & Hr). apply frame_newRoundChangeTimer in Hr.
  assert (Hfr : frame _ c') by (etrans; [exact H3|exact Hr]).
  etrans; [|exact (frame_safe _ _ Hfr)]. intros Hi.
  eapply fresh_round; simpl; try done; [by apply inv_filed in Hi|by right|exists []; by rewrite app_nil_r|].
  intros cur1 E1. rewrite Hc in E1. injection E1 as <-. split; [right; simpl; lia|].
  intros E. unfold stateView in E. simpl in E. injection E. intros. lia.
Qed.

Lemma sendRoundChange_safe round : keeps safe (sendRoundChange b round).
Proof.
  intros c u c' Hr. unfold sendRoundChange in Hr. apply M_bind_inv in Hr as (cv & c0 & (cur & Hc & -> & ->)%currentView_inv & Hr).
  simpl in Hr. destruct (Z.leb_spec round (rs_round cur)); [by injection Hr as _ <-|].
  apply M_bind_inv in Hr as (u1 & c1 & H1 & Hr). eapply catchUpRound_safe in H1; [|done|done|simpl; lia].
  etrans; [exact H1|]. apply frame_safe. revert Hr. apply (keeps_bind frame); [apply keeps_currentView; apply _|]. intros cv.
  destruct ((b_LastProposal b).1); [apply frame_broadcast|apply keeps_lift; apply _].
Qed.

Lemma sendNextRoundChange_safe : keeps safe (sendNextRoundChange b).
Proof.
  unfold sendNextRoundChange. destruct (b_NodeType b); [|apply keeps_ret; apply _].
  apply keeps_bind; [apply _|apply keeps_currentView; apply _|]. intros. apply sendRoundChange_safe.
Qed.

(** Storing the request back does not matter. *)
Lemma putPending_safe r : keeps safe (cur ← getCurrent; putCurrent (setPendingRequest r cur) : M V unit).
Proof.
  intros c u c' (cur & c0 & (Hc & ->)%getCurrent_inv & Hr)%M_bind_inv. injection Hr as _ <-.
  change (safe c (withCurrent (setPendingRequest r cur) c)). by apply (safe_withCurrent _ cur); auto.
Qed.

Lemma newRoundView_later last cur round view rc : newRoundView last (Some cur) round = Some (view, rc) ->
  v_Sequence view > rs_sequence cur \/
  (rc = true /\ round <> 0 /\ v_Sequence view = rs_sequence cur /\ v_Round view = round /\ rs_round cur <= round).
Proof.
  unfold newRoundView. destruct (Z.leb_spec (rs_sequence cur) (p_Number last)).
  { intros [= <- <-]. simpl. left. lia. }
  destruct (_ =? _); [|done]. destruct (Z.eqb_spec round 0); [done|]. destruct (Z.ltb_spec round (rs_round cur)); [done|].
  intros [= <- <-]. simpl. right. split_and!; (done || lia).
Qed.

(** The part of [startNewRound] after the new round is set up. *)
Lemma propose_safe rc : keeps safe (
  proposer ← isProposer;
  _ ← (if rc && proposer then
         cur ← getCurrent;
         if IsHashLocked b cur then
           match stateProposal cur with
           | None => lift Panic
           | Some p => _ ← sendPreprepare b (mkRequest p); mret tt
           end
         else
           match rs_pendingRequest cur with
           | None => mret tt
           | Some r =>
               r ← sendPreprepare b r;
               cur ← getCurrent;
               putCurrent (setPendingRequest (Some r) cur)
           end
       else mret tt);
  newRoundChangeTimer b).
Proof.
  apply keeps_bind; [apply _|apply keeps_frame_safe, frame_isProposer|intros proposer].
  apply keeps_bind; [apply _| |intros; apply keeps_frame_safe, frame_newRoundChangeTimer].
  destruct (rc && proposer); [|apply keeps_ret; apply _].
  apply keeps_bind; [apply _|apply keeps_getCurrent; apply _|intros cur].
  destruct (IsHashLocked b cur).
  - destruct (stateProposal cur); [|apply keeps_lift; apply _].
    apply keeps_bind; [apply _|apply keeps_frame_safe, frame_sendPreprepare|intros; apply keeps_ret; apply _].
  - destruct (rs_pendingRequest cur); [|apply keeps_ret; apply _].
    apply keeps_bind; [apply _|apply keeps_frame_safe, frame_sendPreprepare|intros; apply putPending_safe].
Qed.

Lemma startNewRound_ok c round u c' : filed c ->
  (forall cur, c_current c = Some cur -> c_waitingForRoundChange c = true \/ rs_round cur < round \/ round = 0) ->
  startNewRound b round c = Ok (u, c') -> inv c \/ c_current c = None -> inv c' /\ advances c c'.
Proof.
  intros Hf Hcond Hr Hi. unfold startNewRound in Hr. apply M_bind_inv in Hr as (o & c0 & [= <- <-] & Hr).
  destruct (b_LastProposal b) as [[last|] lastProposer]; [|done].
  destruct (newRoundView last (c_current c) round) as [[view rc]|] eqn:Hnv.
  2:{ injection Hr as _ <-. destruct Hi as [Hi|Hn]; [done|]. by rewrite Hn in Hnv. }
  apply M_bind_inv in Hr as (u1 & c1 & H1 & Hr). apply M_bind_inv in Hr as (u2 & c2 & [= _ <-] & Hr).
  apply M_bind_inv in Hr as (u3 & c3 & [= _ <-] & Hr).
  apply M_bind_inv in Hr as (u4 & c4 & (lh & pp & pr & ->)%updateRoundState_inv & Hr).
  apply M_bind_inv in Hr as (v & c5 & (_ & ->)%getValSet_inv & Hr).
  apply M_bind_inv in Hr as (v' & c5 & (_ & ->)%lift_inv & Hr). apply M_bind_inv in Hr as (u5 & c5 & [= _ <-] & Hr).
  apply M_bind_inv in Hr as (u6 & c6 & [= _ <-] & Hr). apply M_bind_inv in Hr as (u7 & c7 & H7 & Hr).
  assert (H1' : c_log c1 = c_log c /\ c_backlogs c1 = c_backlogs c).
  { destruct rc; injection H1 as _ <-; done. } destruct H1' as [El Eb].
  assert (Hf1 : Forall posted (c_log c1 ++ [ASetCurrentView view]) /\
    forall src q x, c_backlogs c1 !! src = Some q -> member x q -> m_Address x.1 = src).
  { rewrite El, Eb. destruct Hf as [Hf1 Hf2]. split; [|done]. apply Forall_app. split; [done|]. by apply Forall_singleton. }
  apply setState_ok in H7; [|exact Hf1]. apply propose_safe in Hr.
  match type of H7 with frame ?x _ => assert (Hfresh : inv x /\ advances c x) end.
  { eapply (fresh_round c); [exact Hf1|reflexivity|done|done|by left|done|simpl; exists [ASetCurrentView view]; rewrite El; split; [done|by apply Forall_singleton]|].
    intros cur Hc. rewrite Hc in Hnv. apply newRoundView_later in Hnv as [Hlt|(-> & Hr0 & Hs & Hrd & Hle)]; simpl.
    - split; [left; simpl; lia|]. intros E. injection E. lia.
    - split; [right; simpl; lia|]. intros E. injection E as _ E. destruct (Hcond cur Hc) as [?|[?|?]]; [by right|lia|done]. }
  destruct Hfresh as [Hi' Ha']. destruct (frame_safe _ _ H7 Hi') as [Hi7 Ha7]. destruct (Hr Hi7) as [Hi8 Ha8].
  split; [done|]. etrans; [exact Ha'|]. by etrans.
Qed.

(** ** Handlers *)

Lemma handleRequest_safe r : keeps safe (handleRequest b r).
Proof.
  unfold handleRequest. apply keeps_bind; [apply _|apply keeps_frame_safe, frame_checkRequestMsg|intros [e|]; [apply keeps_ret; apply _|]].
  intros c u c' (cur & c0 & (Hc & ->)%getCurrent_inv & Hr)%M_bind_inv. apply M_bind_inv in Hr as (u1 & c1 & H1 & Hr).
  assert (Hs1 : safe c c1). { injection H1 as _ <-. by apply (safe_withCurrent _ cur); auto. }
  etrans; [exact Hs1|]. revert Hr. apply keeps_bind; [apply _|apply keeps_gets; apply _|intros st].
  apply keeps_bind; [apply _| |intros; apply keeps_ret; apply _]. destruct (bool_decide _); [|apply keeps_ret; apply _].
  apply keeps_bind; [apply _|apply keeps_frame_safe, frame_sendPreprepare|intros; apply putPending_safe].
Qed.

Lemma commit_safe c cur u c' : c_current c = Some cur ->
  (c_waitingForRoundChange c = false ->
    exists v, c_valSet c = Some v /\ RequiredMessageCount v <= Z.of_nat (size (rs_Commits cur))) ->
  commit b c = Ok (u, c') -> safe c c'.
Proof.
  intros Hc Hq (u1 & c1 & H1 & Hr)%M_bind_inv. eapply setState_safe in H1; [|done|done|done].
  etrans; [exact H1|]. clear H1. apply M_bind_inv in Hr as (cur1 & c2 & (Hc1 & ->)%getCurrent_inv & Hr).
  assert (Hunlock : forall c2 c3 u, c_current c2 = Some cur1 ->
    (_ ← putCurrent (UnlockHash cur1); sendNextRoundChange b) c2 = Ok (u, c3) -> safe c2 c3).
  { intros c2 c3 u2 Hc2 (u3 & c4 & [= _ <-] & Hr2)%M_bind_inv. apply sendNextRoundChange_safe in Hr2.
    etrans; [|exact Hr2]. change (safe c2 (withCurrent (UnlockHash cur1) c2)). by apply (safe_withCurrent _ cur1); auto. }
  destruct (stateProposal cur1) as [p|]; [|by eapply Hunlock].
  apply M_bind_inv in Hr as (u2 & c2 & He & Hr). pose proof (frame_emit (ACommit p _) I I _ _ _ He) as Hfr.
  etrans; [exact (frame_safe _ _ Hfr)|]. destruct (b_Commit b p _); [by injection Hr as _ <-|].
  eapply Hunlock; [|exact Hr]. by rewrite (fr_current _ _ Hfr).
Qed.

Lemma setState_sendCommit_safe c cur u c' : c_current c = Some cur ->
  (_ ← setState StatePrepared; sendCommit b) c = Ok (u, c') -> safe c c'.
Proof.
  intros Hc (u1 & c1 & H1 & Hr)%M_bind_inv. eapply setState_safe in H1; [|done|done|done].
  etrans; [exact H1|]. by apply frame_sendCommit, frame_safe in Hr.
Qed.

Lemma LockHash_safe c cur : c_current c = Some cur -> safe c (withCurrent (LockHash cur) c).
Proof. intros Hc. unfold LockHash. destruct (rs_Preprepare cur) eqn:E; apply (safe_withCurrent _ cur); simpl; try done; left; unfold stateSubject; simpl; by rewrite ?E. Qed.

Lemma tryPrepared_safe digest : keeps safe (tryPrepared b digest).
Proof.
  intros c u c' (st & c0 & [= <- <-] & Hr)%M_bind_inv. destruct (_ <? _); [|by injection Hr as _ <-].
  apply M_bind_inv in Hr as (cur & c0 & (Hc & ->)%getCurrent_inv & Hr). apply M_bind_inv in Hr as (v & c0 & (Hv & ->)%getValSet_inv & Hr).
  destruct (_ && _); [by eapply setState_sendCommit_safe|]. destruct (_ <=? _); [|by injection Hr as _ <-].
  apply M_bind_inv in Hr as (u1 & c1 & [= _ <-] & Hr). etrans; [exact (LockHash_safe c cur Hc)|].
  by eapply setState_sendCommit_safe in Hr.
Qed.

Lemma tryCommitted_safe : keeps safe (tryCommitted b).
Proof.
  intros c u c' (st & c0 & [= <- <-] & Hr)%M_bind_inv.
  apply M_bind_inv in Hr as (cur & c0 & (Hc & ->)%getCurrent_inv & Hr). apply M_bind_inv in Hr as (v & c0 & (Hv & ->)%getValSet_inv & Hr).
  destruct (_ && _) eqn:Hq; [|by injection Hr as _ <-]. bool_to_prop.
  apply M_bind_inv in Hr as (u1 & c1 & [= _ <-] & Hr). etrans; [exact (LockHash_safe c cur Hc)|].
  eapply commit_safe in Hr; [exact Hr|done|]. intros _. exists v. split; [done|].
  unfold LockHash. by destruct (rs_Preprepare cur).
Qed.

Lemma acceptProposal_safe pp c u c' : c_state c = StateAcceptRequest -> acceptProposal b pp c = Ok (u, c') -> safe c c'.
Proof.
  intros Hst (cur & c0 & (Hc & ->)%getCurrent_inv & Hr)%M_bind_inv.
  assert (Hset : forall c1 cur1 pp1, c_current c1 = Some cur1 -> c_state c1 = StateAcceptRequest ->
    safe c1 (withCurrent (SetPreprepare pp1 cur1) c1)).
  { intros c1 cur1 pp1 H1 H2. by apply (safe_withCurrent _ cur1); auto. }
  destruct (IsHashLocked b cur).
  - destruct (rs_Preprepare cur) as [old|]; [|done]. apply M_bind_inv in Hr as (u1 & c1 & [= _ <-] & Hr).
    etrans; [by apply (Hset c cur)|]. case_bool_decide; [|by apply sendNextRoundChange_safe in Hr].
    apply M_bind_inv in Hr as (u2 & c2 & [= _ <-] & Hr). etrans; [by apply (Hset (withCurrent _ c))|].
    by eapply setState_sendCommit_safe in Hr.
  - apply M_bind_inv in Hr as (u1 & c1 & [= _ <-] & Hr). etrans; [by apply (Hset c cur)|].
    apply M_bind_inv in Hr as (u2 & c2 & H2 & Hr). eapply setState_safe in H2; [|done|done|done].
    etrans; [exact H2|]. by apply frame_sendPrepare, frame_safe in Hr.
Qed.

(** What a passed check says. *)
Lemma checkMessage_inv code view c err c' : checkMessage (V := V) code (Some view) c = Ok (err, c') ->
  c' = c /\ exists cur, c_current c = Some cur /\
    (err = None -> code <> msgRoundChange -> view = stateView cur /\ c_waitingForRoundChange c = false /\
      (c_state c = StateAcceptRequest -> code <= msgPreprepare)) /\
    (err = Some errOldMessage -> view_le view (stateView cur) /\ view <> stateView cur).
Proof.
  intros (cv & c0 & (cur & Hc & -> & ->)%currentView_inv & Hr)%M_bind_inv. destruct (Z.eqb_spec code msgRoundChange) as [Ec|Ec].
  { destruct (v_Sequence (stateView cur) <? v_Sequence view); [injection Hr as <- <-; split; [done|]; by exists cur|].
    destruct (viewCmp view (stateView cur)) eqn:Hv; injection Hr as <- <-; (split; [done|]); exists cur; [done| |done].
    split; [done|]. split; [done|]. intros _. by apply viewCmp_lt. }
  destruct (viewCmp view (stateView cur)) eqn:Hv.
  - apply viewCmp_eq in Hv. apply M_bind_inv in Hr as (w & c0 & [= <- <-] & Hr). destruct (c_waitingForRoundChange c) eqn:Hw.
    { injection Hr as <- <-. split; [done|]. exists cur. done. }
    apply M_bind_inv in Hr as (st & c0 & [= <- <-] & Hr). destruct (_ && _) eqn:Ht; injection Hr as <- <-; (split; [done|]); exists cur; [done|].
    split; [done|]. split; [|done]. intros _ _. split_and!; try done. intros Hs.
    apply andb_false_iff in Ht as [Ht|Ht]; bool_to_prop; [done|lia].
  - injection Hr as <- <-. split; [done|]. exists cur. split; [done|]. split; [done|]. intros _. by apply viewCmp_lt.
  - injection Hr as <- <-. split; [done|]. exists cur. done.
Qed.

Lemma handlePreprepare_safe m src : src = m_Address m -> keeps safe (handlePreprepare b m src).
Proof.
  intros Hsrc. unfold handlePreprepare. destruct (decodePreprepare m) as [pp|]; [|apply keeps_ret; apply _].
  apply keeps_bind; [apply _|apply keeps_frame_safe, frame_checkMessage|intros err].
  destruct err as [[]|]; try (apply keeps_ret; apply _); [apply keeps_frame_safe, frame_handleOldPreprepare|].
  apply keeps_bind; [apply _|apply keeps_getValSet; apply _|intros v].
  apply keeps_bind; [apply _|apply keeps_lift; apply _|intros p]. destruct (negb p); [apply keeps_ret; apply _|].
  destruct (b_Verify b (pp_Proposal pp)).
  - intros c u c' (st & c0 & [= <- <-] & Hr)%M_bind_inv. apply M_bind_inv in Hr as (u1 & c1 & H1 & [= _ <-]).
    case_bool_decide; [by eapply acceptProposal_safe|by injection H1 as _ <-].
  - apply keeps_frame_safe. apply keeps_bind; [apply _|by apply frame_emit|intros].
    apply keeps_bind; [apply _|apply frame_emit; simpl; auto|intros; apply keeps_ret; apply _].
  - apply keeps_bind; [apply _|apply sendNextRoundChange_safe|intros; apply keeps_ret; apply _].
Qed.

Lemma subjectEqual_true s o : subjectEqual (Some s) o = true -> o = Some s.
Proof.
  destruct o as [s'|]; [|done]. simpl. intros Hs. bool_to_prop. destruct (viewCmp _ _) eqn:E; [|done..].
  apply viewCmp_eq in E. destruct s, s'. simpl in *. congruence.
Qed.

Lemma verifySubject_inv sub c e c' : verifySubject (V := V) sub c = Ok (e, c') ->
  c' = c /\ exists cur, c_current c = Some cur /\ (e = None -> stateSubject cur = Some sub).
Proof.
  intros (cur & c0 & (Hc & ->)%getCurrent_inv & Hr)%M_bind_inv. destruct (subjectEqual (Some sub) (stateSubject cur)) eqn:Hs;
    injection Hr as <- <-; (split; [done|]); exists cur; (split; [done|]); [|done]. intros _. by apply subjectEqual_true.
Qed.

(** A vote that reaches the sets, and the state it reaches them in. *)
Definition ready c (m : message) (src : Address) (sub : Subject) : Prop :=
  exists cur v, decodeSubject m = Some sub /\ c_current c = Some cur /\ ~ idle c /\
    stateSubject cur = Some sub /\ s_View sub = stateView cur /\ c_valSet c = Some v /\
    vs_CheckInSubList v (m_Hash m) (s_View sub) src = Ok true.

Lemma checkSubject_inv code m src k c err c' : code = msgPrepare \/ code = msgCommit ->
  checkSubject code m src k c = Ok (err, c') ->
  (c' = c /\ err <> None) \/ exists sub, ready c m src sub /\ k sub c = Ok (err, c').
Proof.
  intros Hcode Hr. unfold checkSubject in Hr. destruct (decodeSubject m) as [sub|] eqn:Hd; [|injection Hr as <- <-; by left].
  apply M_bind_inv in Hr as (e1 & c1 & (-> & cur & Hc & Hok & _)%checkMessage_inv & Hr).
  destruct e1 as [e|]; [injection Hr as <- <-; by left|].
  destruct (Hok eq_refl) as (Hview & Hw & Hst); [destruct Hcode as [-> | ->]; done|].
  apply M_bind_inv in Hr as (e2 & c2 & (-> & cur2 & Hc2 & Hs)%verifySubject_inv & Hr). destruct e2 as [e|]; [injection Hr as <- <-; by left|].
  rewrite Hc in Hc2. injection Hc2 as <-. specialize (Hs eq_refl). apply M_bind_inv in Hr as (v & c3 & (Hv & ->)%getValSet_inv & Hr).
  apply M_bind_inv in Hr as (mem & c3 & (Hm & ->)%lift_inv & Hr). destruct mem; [|injection Hr as <- <-; by left].
  right. exists sub. split; [|exact Hr]. exists cur, v. split_and!; try done. intros [Ha|Ha]; [|congruence].
  apply Hst in Ha. unfold msgPreprepare, msgPrepare, msgCommit in *. lia.
Qed.

Lemma acceptPrepare_safe m sub c u c' : m_Code m = msgPrepare -> ready c m (m_Address m) sub -> acceptPrepare m c = Ok (u, c') -> safe c c'.
Proof.
  intros Hcode (cur & v & Hd & Hc & Hid & Hsub & Hview & Hv & Hin) (v0 & c0 & (Hv0 & ->)%getValSet_inv & Hr)%M_bind_inv.
  apply M_bind_inv in Hr as (cur0 & c0 & (Hc0 & ->)%getCurrent_inv & Hr). simplify_eq. unfold messageSetAdd in Hr.
  destruct (vs_Has _ _); [|by injection Hr as _ <-]. injection Hr as _ <-.
  change (safe c (withCurrent (setPrepares (<[m_Address m := m]> (rs_Prepares cur)) cur) c)).
  apply (safe_addVote c cur _ m); auto. split; [done|]. split; [unfold is_vote; auto|]. by exists sub, v.
Qed.
Lemma acceptCommit_safe m sub c u c' : m_Code m = msgCommit -> ready c m (m_Address m) sub -> acceptCommit m c = Ok (u, c') -> safe c c'.
Proof.
  intros Hcode (cur & v & Hd & Hc & Hid & Hsub & Hview & Hv & Hin) (v0 & c0 & (Hv0 & ->)%getValSet_inv & Hr)%M_bind_inv.
  apply M_bind_inv in Hr as (cur0 & c0 & (Hc0 & ->)%getCurrent_inv & Hr). simplify_eq. unfold messageSetAdd in Hr.
  destruct (vs_Has _ _); [|by injection Hr as _ <-]. injection Hr as _ <-.
  change (safe c (withCurrent (setCommits (<[m_Address m := m]> (rs_Commits cur)) cur) c)).
  apply (safe_addVote c cur _ m); auto. split; [done|]. split; [unfold is_vote; auto|]. by exists sub, v.
Qed.

Lemma handlePrepare_ok m c err c' : m_Code m = msgPrepare -> handlePrepare b m (m_Address m) c = Ok (err, c') ->
  safe c c' /\ (err = None -> exists sub, ready c m (m_Address m) sub).
Proof.
  intros Hcode [[-> He]|(sub & Hrd & Hr)]%checkSubject_inv; [done| |by left]. split; [|eauto].
  apply M_bind_inv in Hr as (u1 & c1 & H1 & Hr). eapply acceptPrepare_safe in H1; [|done|done].
  apply M_bind_inv in Hr as (u2 & c2 & H2%tryPrepared_safe & [= _ <-]). by etrans.
Qed.
Lemma handleCommit_ok m c err c' : m_Code m = msgCommit -> handleCommit b m (m_Address m) c = Ok (err, c') ->
  safe c c' /\ (err = None -> exists sub, ready c m (m_Address m) sub).
Proof.
  intros Hcode [[-> He]|(sub & Hrd & Hr)]%checkSubject_inv; [done| |by right]. split; [|eauto].
  apply M_bind_inv in Hr as (u1 & c1 & H1 & Hr). eapply acceptCommit_safe in H1; [|done|done].
  apply M_bind_inv in Hr as (u2 & c2 & H2%tryPrepared_safe & Hr).
  apply M_bind_inv in Hr as (u3 & c3 & H3%tryCommitted_safe & [= _ <-]). etrans; [exact H1|]. by etrans.
Qed.

Lemma startNewRound_safe c round u c' :
  (forall cur, c_current c = Some cur -> c_waitingForRoundChange c = true \/ rs_round cur < round \/ round = 0) ->
  startNewRound b round c = Ok (u, c') -> safe c c'.
Proof. intros Hcond Hr Hi. eapply startNewRound_ok; [by apply inv_filed|done|done|by left]. Qed.

Lemma handleRoundChange_safe m src : keeps safe (handleRoundChange b m src).
Proof.
  intros c err c' Hr. unfold handleRoundChange in Hr. destruct (decodeSubject m) as [rc|]; [|by injection Hr as _ <-].
  apply M_bind_inv in Hr as (e & c0 & (-> & _)%checkMessage_inv & Hr). destruct e; [by injection Hr as _ <-|].
  apply M_bind_inv in Hr as (cv & c0 & (cur & Hc & -> & ->)%currentView_inv & Hr).
  apply M_bind_inv in Hr as (num & c1 & Hf%frame_roundChangeAdd & Hr). etrans; [exact (frame_safe _ _ Hf)|].
  destruct num as [num|]; [|by injection Hr as _ <-].
  apply M_bind_inv in Hr as (v & c0 & (Hv & ->)%getValSet_inv & Hr). apply M_bind_inv in Hr as (w & c0 & [= <- <-] & Hr).
  destruct (_ && _) eqn:Hq.
  - apply M_bind_inv in Hr as (u & c2 & H2 & [= _ <-]). eapply startNewRound_safe; [|exact H2].
    intros cur1 Hc1. rewrite (fr_current _ _ Hf), Hc in Hc1. injection Hc1 as <-. bool_to_prop.
    match goal with Ho : (_ || _) = true |- _ => apply orb_true_iff in Ho as [?|?] end; [by left|]. bool_to_prop. right. left. done.
  - clear Hq. destruct (_ && _); [|by destruct (_ <? _); injection Hr as _ <-].
    apply M_bind_inv in Hr as (u & c2 & H2 & [= _ <-]). destruct (_ <? _); [by apply sendRoundChange_safe in H2|by injection H2 as _ <-].
Qed.

(** What [handleCheckedMsg] does to a node, and what a vote it accepts was. *)
Lemma handleCheckedMsg_ok m c err c' : handleCheckedMsg b m (m_Address m) c = Ok (err, c') ->
  safe c c' /\ (err = None -> is_vote m ->
    exists sub, ready c m (m_Address m) sub).
Proof.
  assert (Hback : forall r : M V (option coreError), forall c err c',
    (err0 ← r; _ ← (if bool_decide (err0 = Some errFutureMessage) then storeBacklog m (m_Address m) else mret tt); mret err0) c = Ok (err, c') ->
    exists c1, r c = Ok (err, c1) /\ safe c1 c').
  { intros r c1 e1 c1' (e2 & c2 & H2 & Hr)%M_bind_inv. apply M_bind_inv in Hr as (u & c3 & H3 & [= <- <-]).
    exists c2. split; [done|]. intros Hi. revert Hi. change (safe c2 c3).
    destruct (bool_decide _); [|by injection H3 as _ <-]. intros Hi. apply storeBacklog_ok in H3; [|by apply inv_filed].
    by apply frame_safe. }
  unfold handleCheckedMsg. destruct (Z.eqb_spec (m_Code m) msgPreprepare) as [E|E].
  { intros (c1 & H1%handlePreprepare_safe & Hs)%Hback; [|done]. split; [by etrans|]. unfold is_vote, msgPreprepare, msgPrepare, msgCommit in *. lia. }
  destruct (Z.eqb_spec (m_Code m) msgPrepare).
  { intros (c1 & [H1 H2]%handlePrepare_ok & Hs)%Hback; [|done]. split; [by etrans|]. intros He _. destruct (H2 He). eauto. }
  destruct (Z.eqb_spec (m_Code m) msgCommit).
  { intros (c1 & [H1 H2]%handleCommit_ok & Hs)%Hback; [|done]. split; [by etrans|]. intros He _. destruct (H2 He). eauto. }
  destruct (Z.eqb_spec (m_Code m) msgRoundChange).
  { intros (c1 & H1%handleRoundChange_safe & Hs)%Hback. split; [by etrans|]. intros _ [?|?]; done. }
  intros [= <- <-]. split; [done|]. by intros.
Qed.

Lemma handleTimeoutMsg_safe v : keeps safe (handleTimeoutMsg b v).
Proof.
  intros c u c' Hr. unfold handleTimeoutMsg in Hr. destruct (negb _); [by injection Hr as _ <-|].
  destruct ((b_LastProposal b).1) as [last|]; [|by injection Hr as _ <-]. destruct (_ <=? _); [by injection Hr as _ <-|].
  apply M_bind_inv in Hr as (w & c0 & [= <- <-] & Hr). apply M_bind_inv in Hr as (rcs & c0 & [= <- <-] & Hr).
  apply M_bind_inv in Hr as (vs & c0 & (Hv & ->)%getValSet_inv & Hr). apply M_bind_inv in Hr as (cur & c0 & (Hc & ->)%getCurrent_inv & Hr).
  match type of Hr with context [match ?x with Some r => sendRoundChange b r | None => _ end] => destruct x end;
    [by apply sendRoundChange_safe in Hr|]. destruct (_ <=? _); [|by apply sendRoundChange_safe in Hr].
  eapply startNewRound_safe; [|exact Hr]. auto.
Qed.

End operations.

(** ** Votes on the network *)

Section votes.
Context {V : Type} `{ValidatorSet V}.
Implicit Types (c : core V) (cur : roundState).

(** The PREPARE and COMMIT messages a node passes on. *)
Definition vote_of (a : action) : option Subject :=
  match a with
  | AGossip _ m => if bool_decide (is_vote m) then decodeSubject m else None
  | _ => None
  end.

Definition votes_ok c : Prop := forall a s, a ∈ c_log c -> vote_of a = Some s ->
  exists cur, c_current c = Some cur /\ view_le (s_View s) (stateView cur) /\
    (s_View s = stateView cur -> ~ idle c /\ stateSubject cur = Some s).
Definition votes_agree c : Prop := forall a1 a2 s1 s2, a1 ∈ c_log c -> a2 ∈ c_log c ->
  vote_of a1 = Some s1 -> vote_of a2 = Some s2 -> s_View s1 = s_View s2 -> s1 = s2.

Record good c : Prop := mkGood { g_inv : inv c; g_votes : votes_ok c; g_agree : votes_agree c }.

Lemma quiet_votes c c' a s : (exists l, c_log c' = c_log c ++ l /\ Forall quiet l) ->
  a ∈ c_log c' -> vote_of a = Some s -> a ∈ c_log c.
Proof.
  intros (l & -> & Hq) [?|Hl]%elem_of_app Hv; [done|]. rewrite Forall_forall in Hq. specialize (Hq a Hl). by destruct a.
Qed.

Lemma good_safe c c' : good c -> safe c c' -> good c'.
Proof.
  intros [Hi Hv Ha] Hs. destruct (Hs Hi) as [Hi' [Hl Hadv]]. split; [done| |].
  - intros a s Hin Hvo. eapply quiet_votes in Hin; [|done..]. destruct (Hv a s Hin Hvo) as (cur & Hc & Hle & Heq).
    destruct (Hadv cur Hc) as (cur' & Hc' & Hle' & Heq'). exists cur'. split; [done|]. split; [by etrans|].
    intros E. assert (E1 : s_View s = stateView cur).
    { apply (anti_symm view_le); [done|]. by rewrite E. }
    destruct (Heq E1) as [Hid Hsub]. destruct (Heq' ltac:(congruence) Hid) as [Hid' Es]. split; [done|congruence].
  - intros a1 a2 s1 s2 H1 H2 Hv1 Hv2. apply (quiet_votes c c') with (s := s1) in H1; [|done..].
    apply (quiet_votes c c') with (s := s2) in H2; [|done..]. by apply (Ha a1 a2).
Qed.

(** A message handled without error is passed on. *)
Lemma good_gossip c c' h m u c2 : good c -> safe c c' -> (is_vote m -> exists sub, ready c m (m_Address m) sub) ->
  emit (AGossip h m) c' = Ok (u, c2) -> good c2.
Proof.
  intros Hg Hs Hrd He. pose proof (good_safe _ _ Hg Hs) as [Hi' Hv' Ha']. destruct Hg as [Hi Hv Ha].
  destruct (Hs Hi) as [_ [Hl Hadv]]. injection He as _ <-. split.
  - destruct Hi' as [[Hf1 Hf2] (cur & Hc & [? ? ? ?])]. split.
    + split; [|done]. apply Forall_app. split; [done|]. by apply Forall_singleton.
    + exists cur. split; [done|]. by constructor.
  - intros a s [Hin|E%list_elem_of_singleton]%elem_of_app Hvo; [by apply (Hv' a s)|]. subst a. simpl in Hvo.
    case_bool_decide as Hvote; [|done]. destruct (Hrd Hvote) as (sub & cur & v & Hd & Hc & Hid & Hsub & Hview & _). simplify_eq.
    destruct (Hadv cur Hc) as (cur' & Hc' & Hle & Heq). exists cur'. split; [done|]. rewrite Hview. split; [done|].
    intros E. destruct (Heq (eq_sym E) Hid) as [Hid' Es]. split; [done|congruence].
  - assert (Hnew : forall a s s', a ∈ c_log c' -> vote_of a = Some s -> vote_of (AGossip h m) = Some s' -> s_View s = s_View s' -> s = s').
    { intros a s s' Hin Hvo Hvo' E. simpl in Hvo'. case_bool_decide as Hvote; [|done].
      destruct (Hrd Hvote) as (sub & cur & v & Hd & Hc & Hid & Hsub & Hview & _). simplify_eq.
      eapply quiet_votes in Hin; [|done..]. destruct (Hv a s Hin Hvo) as (cur0 & Hc0 & _ & Heq). simplify_eq.
      destruct (Heq ltac:(congruence)). congruence. }
    intros a1 a2 s1 s2 [H1|E1%list_elem_of_singleton]%elem_of_app [H2|E2%list_elem_of_singleton]%elem_of_app Hv1 Hv2 E; subst.
    + by eapply (Ha' a1 a2).
    + by eapply Hnew.
    + symmetry. by eapply Hnew.
    + congruence.
Qed.

Lemma handleEvent_good (b : Backend V) ev c c' : good c -> genuine c ev -> handleEvent b ev c = Ok (tt, c') -> good c'.
Proof.
  intros Hg Hev Hr. destruct ev as [p|h payload|src m h|v|]; simpl in Hr.
  - apply M_bind_inv in Hr as (e & c1 & H1%handleRequest_safe & Hr). eapply good_safe; [exact Hg|]. etrans; [exact H1|].
    destruct (bool_decide _); [by apply frame_storeRequestMsg, frame_safe in Hr|by injection Hr as <-].
  - apply M_bind_inv in Hr as (e & c1 & H1 & Hr). unfold handleMsg in H1. destruct payload as [m|].
    2:{ injection H1 as <- <-. by injection Hr as <-. }
    apply M_bind_inv in H1 as (v & c2 & (_ & ->)%getValSet_inv & H1).
    destruct (checkSignature b v m); [injection H1 as <- <-; by injection Hr as <-|].
    destruct (vs_Has v (m_Address m)); [|injection H1 as <- <-; by injection Hr as <-].
    apply handleCheckedMsg_ok in H1 as [Hs Hrd]. destruct e; [injection Hr as <-; by eapply good_safe|].
    eapply good_gossip; eauto.
  - apply M_bind_inv in Hr as (v & c0 & (_ & ->)%getValSet_inv & Hr). destruct (vs_Has v src); [|by injection Hr as <-].
    assert (src = m_Address m) as ->.
    { destruct (g_inv _ Hg) as [[Hf _] _]. rewrite Forall_forall in Hf. destruct Hev as [Hin|[d Hin]]; by apply Hf in Hin. }
    apply M_bind_inv in Hr as (e & c1 & [Hs Hrd]%handleCheckedMsg_ok & Hr).
    destruct e; [injection Hr as <-; by eapply good_safe|]. eapply good_gossip; eauto.
  - apply handleTimeoutMsg_safe in Hr. by eapply good_safe.
  - eapply good_safe; [exact Hg|]. eapply startNewRound_safe; [|exact Hr]. auto.
Qed.

Lemma Start_good (b : Backend V) addr c : Start b (NewCore addr) = Ok (tt, c) -> good c.
Proof.
  intros Hr. assert (Hf : filed (NewCore (V := V) addr)) by (split; [apply Forall_nil_2|done]).
  destruct (startNewRound_ok b _ 0 _ _ Hf ltac:(done) Hr ltac:(by right)) as [Hi [Hl _]]. split; [done|..].
  - intros a s Hin Hv. eapply quiet_votes in Hin; [|done..]. by apply not_elem_of_nil in Hin.
  - intros a1 a2 s1 s2 H1 _ Hv. eapply quiet_votes in H1; [|done..]. by apply not_elem_of_nil in H1.
Qed.

Lemma reachable_good (Env : Backend V -> Prop) addr c : reachable Env addr c -> good c.
Proof. induction 1 as [b c He Hs|c c' _ IH Hst]; [by eapply Start_good|]. destruct Hst. by eapply handleEvent_good. Qed.

End votes.
End CoreInv.
