(* ===== verification/IstanbulSafety.v ===== *)
(** * Safety of the consensus core

    Quorums of one committee intersect in more than the tolerated number of faulty
    members, the votes a node passes on in one view are all for one proposal, and so two
    nodes that commit in the same view commit the same block. *)

From S2P Require Import Prelude Validators Weighted Prque Istanbul IstanbulInv.

Module Safety.
Import ValSet PriorityQueue Core CoreInv.

(** ** Counting *)

(** Each sender of a PREPARE or a COMMIT counts once. *)
Lemma twice_counted (cs : messageSet) (l : list (Address * message)) (acc : Z) :
  Forall (fun am => m_Address am.2 = am.1) l ->
  foldl (fun result m => match cs !! m_Address m with Some _ => result - 1 | None => result end) acc (map snd l) =
  acc - Z.of_nat (length (filter (fun am => is_Some (cs !! am.1)) l)).
Proof.
  revert acc. induction l as [|[a m] l IH]; intros acc Hl; [simpl; lia|]. apply Forall_cons in Hl as [Hm Hl]. simpl in *.
  rewrite IH by done. rewrite Hm, filter_cons. simpl. destruct (cs !! a) eqn:E.
  - rewrite decide_True by (by eexists). simpl. lia.
  - rewrite decide_False by (by intros []). done.
Qed.

Lemma size_union_inter (X Y : gset Address) : (size (X ∪ Y) + size (X ∩ Y) = size X + size Y)%nat.
Proof.
  rewrite size_union_alt. assert (E : size Y = (size (X ∩ Y) + size (Y ∖ X))%nat); [|lia].
  rewrite <- size_union by set_solver. f_equal. apply leibniz_equiv. intros a. destruct (decide (a ∈ X)); set_solver.
Qed.

Lemma PrepareOrCommitSize_union cur :
  map_Forall (fun a m => m_Address m = a) (rs_Prepares cur) ->
  GetPrepareOrCommitSize cur = Z.of_nat (size (dom (rs_Prepares cur) ∪ dom (rs_Commits cur) : gset Address)).
Proof.
  intros Hp. unfold GetPrepareOrCommitSize. set (ps := rs_Prepares cur) in *. set (cs := rs_Commits cur).
  rewrite twice_counted by (apply map_Forall_to_list in Hp; eapply Forall_impl; [exact Hp|]; by intros []).
  assert (Hf : length (filter (fun am : Address * message => is_Some (cs !! am.1)) (map_to_list ps)) =
    size (dom ps ∩ dom cs : gset Address)).
  { set (l := filter _ _). rewrite <- (length_fmap fst l). rewrite <- (size_list_to_set (C := gset Address)).
    - f_equal. apply leibniz_equiv. intros a. rewrite elem_of_list_to_set, list_elem_of_fmap, elem_of_intersection, !elem_of_dom.
      split.
      + intros ([a' m] & -> & [Hs Hin%elem_of_map_to_list]%list_elem_of_filter). simpl in *. eauto.
      + intros [[m Hm] Hs]. exists (a, m). split; [done|]. apply list_elem_of_filter. split; [done|]. by apply elem_of_map_to_list.
    - unfold l. eapply sublist_NoDup; [apply (NoDup_fst_map_to_list ps)|]. apply fmap_sublist, sublist_filter. }
  rewrite Hf. pose proof (size_union_inter (dom ps) (dom cs)) as Hu. rewrite !size_dom in Hu. lia.
Qed.

(** ** Quorums *)

Section quorum.
Context {V : Type} `{ValidatorSet V}.

(** The number of voters a validator set is configured for. *)
Definition voters (v : V) : Z := if vs_IsSubSet v then vs_SubGroupSize v else vs_Size v.

(** [C] is the committee of the view: as large as configured, with the fault bound derived
    from its size, and only its members pass the committee check, whatever hash is given. *)
Record committee_ok (v : V) (view : View) (C : list Address) : Prop := {
  co_nodup : NoDup C;
  co_size : len C = voters v;
  co_faults : vs_F v = ceilDiv (voters v) 3 - 1;
  co_check : forall h a, vs_CheckInSubList v h view a = Ok true -> a ∈ C
}.

Lemma required_range (v : V) : 0 < voters v ->
  ceilDiv (voters v) 3 + voters v <= 2 * RequiredMessageCount v /\ RequiredMessageCount v <= voters v.
Proof.
  intros Hn. unfold RequiredMessageCount. fold (voters v). unfold ceilDiv. destruct (Z.ltb_spec (voters v) 4).
  - pose proof (Z.div_lt_upper_bound (voters v + 3 - 1) 3 (voters v + 1)). lia.
  - Z.to_euclidean_division_equations. lia.
Qed.

(** Two sets of members, each as large as a quorum, share more members than may fail. *)
Lemma quorums_meet (v : V) (view : View) (C : list Address) (Q1 Q2 : gset Address) :
  committee_ok v view C -> Q1 ⊆ list_to_set C -> Q2 ⊆ list_to_set C ->
  RequiredMessageCount v <= Z.of_nat (size Q1) -> RequiredMessageCount v <= Z.of_nat (size Q2) -> 0 < voters v ->
  vs_F v + 1 <= Z.of_nat (size (Q1 ∩ Q2)).
Proof.
  intros [Hn Hs Hf _] H1 H2 S1 S2 Hpos. pose proof (required_range v Hpos) as [Hreq _].
  pose proof (size_union_inter Q1 Q2). assert (Hu : (size (Q1 ∪ Q2) <= length C)%nat).
  { rewrite <- (size_list_to_set (C := gset Address) C Hn). apply subseteq_size. set_solver. }
  unfold len in Hs. lia.
Qed.

(** ** Theorems *)

(** C2. Every state of a running node is sound: each collected PREPARE or COMMIT comes from
    a sender that passed the committee check and is for the subject of the round; before a
    proposal is accepted nothing is collected; each sender of a PREPARE or a COMMIT is
    counted once; and a node in the Committed state of a view holds a quorum of COMMITs. *)
Theorem running_node_invariant (Env : Backend V -> Prop) (addr : Address) (c : core V) :
  reachable Env addr c -> exists cur, c_current c = Some cur /\
    (forall a m, rs_Prepares cur !! a = Some m \/ rs_Commits cur !! a = Some m -> supported (c_valSet c) cur a m) /\
    (idle c -> rs_Prepares cur = ∅ /\ rs_Commits cur = ∅) /\
    GetPrepareOrCommitSize cur = Z.of_nat (size (dom (rs_Prepares cur) ∪ dom (rs_Commits cur) : gset Address)) /\
    (c_state c = StateCommitted -> c_waitingForRoundChange c = false ->
      exists v, c_valSet c = Some v /\ RequiredMessageCount v <= Z.of_nat (size (rs_Commits cur))).
Proof.
  intros Hr. destruct (reachable_good Env addr c Hr) as [[_ (cur & Hc & [Hp Hcm Hi Hq])] _ _]. exists cur. split; [done|].
  split; [intros a m [Hm|Hm]; [by apply Hp|by apply Hcm]|]. split; [done|]. split; [|done].
  apply PrepareOrCommitSize_union. intros a m Hm. by destruct (Hp a m Hm).
Qed.

(** C25. A node does not equivocate: all PREPARE and COMMIT messages it passes on to the
    network for one view, its own included, are for the same proposal and parent. *)
Theorem network_votes_agree (Env : Backend V -> Prop) (addr : Address) (c : core V)
    (h1 h2 : Hash) (m1 m2 : message) (s1 s2 : Subject) :
  reachable Env addr c -> AGossip h1 m1 ∈ c_log c -> AGossip h2 m2 ∈ c_log c -> is_vote m1 -> is_vote m2 ->
  decodeSubject m1 = Some s1 -> decodeSubject m2 = Some s2 -> s_View s1 = s_View s2 -> s1 = s2.
Proof.
  intros Hr H1 H2 Hv1 Hv2 Hd1 Hd2. apply (g_agree _ (reachable_good Env addr c Hr) _ _ _ _ H1 H2); simpl; by rewrite bool_decide_eq_true_2.
Qed.

Lemma commit_quorum (Env : Backend V -> Prop) addr c cur v view C :
  reachable Env addr c -> c_state c = StateCommitted -> c_waitingForRoundChange c = false ->
  c_current c = Some cur -> stateView cur = view -> c_valSet c = Some v -> committee_ok v view C ->
  dom (rs_Commits cur) ⊆ (list_to_set C : gset Address) /\
  RequiredMessageCount v <= Z.of_nat (size (dom (rs_Commits cur) : gset Address)) /\
  forall a m, rs_Commits cur !! a = Some m -> exists sub, is_vote m /\ decodeSubject m = Some sub /\ stateSubject cur = Some sub.
Proof.
  intros Hr Hs Hw Hc Hview Hv Hco. destruct (reachable_good Env addr c Hr) as [[_ (cur0 & Hc0 & [_ Hcm _ Hq])] _ _].
  rewrite Hc in Hc0. injection Hc0 as <-. split; [|split].
  - intros a [m Hm]%elem_of_dom. destruct (Hcm a m Hm) as (_ & _ & sub & w & _ & Hsub & Ev & Hin). rewrite Hv in Ev. injection Ev as <-.
    apply elem_of_list_to_set. eapply (co_check _ _ _ Hco). rewrite <- Hview, <- Hin. f_equal.
    unfold stateSubject in Hsub. destruct (rs_Preprepare cur); [|done]. by injection Hsub as <-.
  - destruct (Hq Hs Hw) as (v0 & Ev & Hle). rewrite Hv in Ev. injection Ev as <-. by rewrite size_dom.
  - intros a m Hm. destruct (Hcm a m Hm) as (_ & ? & sub & w & ? & ? & _). eauto.
Qed.

(** More than [F] members in a set of members include an honest one. *)
Lemma honest_member (honest : Address -> Prop) `{!forall a, Decision (honest a)} (C : list Address) (f : Z) (Q : gset Address) :
  Q ⊆ list_to_set C -> f + 1 <= Z.of_nat (size Q) ->
  (forall bad : list Address, NoDup bad -> Forall (fun a => a ∈ C /\ ~ honest a) bad -> len bad <= f) ->
  exists a, a ∈ Q /\ honest a.
Proof.
  intros Hq Hsz Hbad. destruct (decide (Exists honest (elements Q))) as [He|He].
  - apply Exists_exists in He as (a & Hin%elem_of_elements & Ha). eauto.
  - exfalso. specialize (Hbad (elements Q) (NoDup_elements Q)). unfold len in Hbad. change (size Q) with (length (elements Q)) in Hsz.
    assert (Z.of_nat (length (elements Q)) <= f); [|lia]. apply Hbad. apply Forall_forall. intros a Ha. split.
    + apply elem_of_elements in Ha. apply Hq in Ha. by apply elem_of_list_to_set in Ha.
    + intros Hh. apply He. apply Exists_exists. eauto.
Qed.

(** C1. Agreement within a view: two nodes in the Committed state of the same view, with the
    same committee of which at most [F] members are faulty, have committed the same block.
    Honest members are running nodes, and a COMMIT in the name of an honest member was
    passed on by it (signatures). *)
Theorem view_agreement (Env : Backend V -> Prop) (honest : Address -> Prop) `{!forall a, Decision (honest a)}
    (final : Address -> core V) (n1 n2 : Address) (c1 c2 : core V) (cur1 cur2 : roundState) (v1 v2 : V)
    (p1 p2 : Proposal) (view : View) (C : list Address) :
  (forall a, honest a -> reachable Env a (final a)) ->
  reachable Env n1 c1 -> reachable Env n2 c2 ->
  c_state c1 = StateCommitted -> c_waitingForRoundChange c1 = false ->
  c_state c2 = StateCommitted -> c_waitingForRoundChange c2 = false ->
  c_current c1 = Some cur1 -> c_current c2 = Some cur2 -> stateView cur1 = view -> stateView cur2 = view ->
  c_valSet c1 = Some v1 -> c_valSet c2 = Some v2 -> committee_ok v1 view C -> committee_ok v2 view C -> 0 < len C ->
  (forall bad : list Address, NoDup bad -> Forall (fun a => a ∈ C /\ ~ honest a) bad -> len bad <= vs_F v1) ->
  (forall a m, honest a -> rs_Commits cur1 !! a = Some m \/ rs_Commits cur2 !! a = Some m ->
     exists h, AGossip h m ∈ c_log (final a)) ->
  stateProposal cur1 = Some p1 -> stateProposal cur2 = Some p2 -> p_Hash p1 = p_Hash p2.
Proof.
  intros Hfin R1 R2 S1 W1 S2 W2 Hc1 Hc2 Hw1 Hw2 Hv1 Hv2 K1 K2 Hpos Hbad Hauth Hp1 Hp2.
  destruct (commit_quorum Env _ _ _ _ _ _ R1 S1 W1 Hc1 Hw1 Hv1 K1) as (D1 & Q1 & V1).
  destruct (commit_quorum Env _ _ _ _ _ _ R2 S2 W2 Hc2 Hw2 Hv2 K2) as (D2 & Q2 & V2).
  assert (En : voters v2 = voters v1) by (rewrite <- (co_size _ _ _ K1), <- (co_size _ _ _ K2); done).
  assert (Eq : RequiredMessageCount v2 = RequiredMessageCount v1).
  { unfold RequiredMessageCount. fold (voters v1). fold (voters v2). by rewrite En. }
  rewrite Eq in Q2. rewrite (co_size _ _ _ K1) in Hpos. pose proof (quorums_meet v1 view C _ _ K1 D1 D2 Q1 Q2 Hpos) as Hmeet.
  destruct (honest_member honest C (vs_F v1) (dom (rs_Commits cur1) ∩ dom (rs_Commits cur2))) as (a & Ha & Hh); [set_solver|done|done|].
  apply elem_of_intersection in Ha as [[m1 Hm1]%elem_of_dom [m2 Hm2]%elem_of_dom].
  destruct (V1 a m1 Hm1) as (s1 & Hi1 & Hd1 & Hs1), (V2 a m2 Hm2) as (s2 & Hi2 & Hd2 & Hs2).
  destruct (Hauth a m1 Hh (or_introl Hm1)) as [h1 Hg1], (Hauth a m2 Hh (or_intror Hm2)) as [h2 Hg2].
  assert (E : s1 = s2).
  { apply (g_agree _ (reachable_good Env a _ (Hfin a Hh)) _ _ _ _ Hg1 Hg2); simpl; rewrite ?bool_decide_eq_true_2 by done; try done.
    unfold stateSubject in Hs1, Hs2. destruct (rs_Preprepare cur1), (rs_Preprepare cur2); try done.
    injection Hs1 as <-. injection Hs2 as <-. simpl. congruence. }
  unfold stateSubject, stateProposal in *. destruct (rs_Preprepare cur1), (rs_Preprepare cur2); try done. simpl in *.
  injection Hs1 as <-. injection Hs2 as <-. injection Hp1 as <-. injection Hp2 as <-. by injection E.
Qed.

End quorum.

End Safety.
