(* ===== verification/IstanbulSteps.v ===== *)
(** * Single steps of the consensus core

    What particular events lead to: a quorum of COMMITs delivers the block, and an old
    PRE-PREPARE is answered with a COMMIT that nobody else gets to see. *)

From S2P Require Import Prelude Validators Prque Istanbul IstanbulInv.

Module Steps.
Import ValSet PriorityQueue Core CoreInv.

Section steps.
Context {V : Type} `{ValidatorSet V} (b : Backend V).
Implicit Types (c : core V) (cur : roundState).

(** ** Evaluating operations *)

Lemma getCurrent_eq c cur : c_current c = Some cur -> getCurrent c = Ok (cur, c).
Proof. intros Hc. unfold getCurrent, gets, mbind, M_bind. by rewrite Hc. Qed.
Lemma getValSet_eq c v : c_valSet c = Some v -> getValSet c = Ok (v, c).
Proof. intros Hc. unfold getValSet, gets, mbind, M_bind. by rewrite Hc. Qed.
Lemma currentView_eq c cur : c_current c = Some cur -> currentView c = Ok (stateView cur, c).
Proof. intros Hc. unfold currentView. unfold mbind, M_bind. by rewrite (getCurrent_eq c cur Hc). Qed.
Lemma bind_eq {A B} (m : M V A) (k : A -> M V B) c a c' : m c = Ok (a, c') -> (m ≫= k) c = k a c'.
Proof. intros E. unfold mbind, M_bind. by rewrite E. Qed.

Lemma viewCmp_refl v : viewCmp v v = Eq.
Proof. unfold viewCmp. by rewrite !Z.compare_refl. Qed.
Lemma subjectEqual_refl s : subjectEqual (Some s) (Some s) = true.
Proof. simpl. by rewrite !bool_decide_eq_true_2, viewCmp_refl by done. Qed.

(** Without backlogs, leaving the first state only sets the state. *)
Lemma setState_eq s c : s <> StateAcceptRequest -> c_backlogs c = ∅ -> setState s c = Ok (tt, withState s c).
Proof.
  intros Hs Hb. unfold setState. rewrite (bind_eq _ _ _ tt (withState s c)) by done.
  rewrite bool_decide_eq_false_2 by done. rewrite (bind_eq _ _ _ tt (withState s c)) by done.
  unfold processBacklog. rewrite (bind_eq _ _ _ (c_backlogs c) (withState s c)) by done. by rewrite Hb, map_to_list_empty.
Qed.

(** A vote that is ready passes the checks. *)
Lemma checkSubject_eq code m src sub k c : code = msgPrepare \/ code = msgCommit -> ready c m src sub ->
  checkSubject code m src k c = k sub c.
Proof.
  intros Hcode (cur & v & Hd & Hc & Hid & Hsub & Hview & Hv & Hin). unfold checkSubject. rewrite Hd.
  assert (Hck : checkMessage code (Some (s_View sub)) c = Ok (None, c)).
  { unfold checkMessage. rewrite (bind_eq _ _ _ _ _ (currentView_eq c cur Hc)). rewrite Hview, viewCmp_refl.
    destruct (Z.eqb_spec code msgRoundChange) as [->|_]; [by destruct Hcode|].
    rewrite (bind_eq _ _ _ (c_waitingForRoundChange c) c) by done.
    destruct (c_waitingForRoundChange c) eqn:Hw; [destruct Hid; by right|].
    rewrite (bind_eq _ _ _ (c_state c) c) by done. rewrite bool_decide_eq_false_2; [done|]. intros Hs. destruct Hid. by left. }
  rewrite (bind_eq _ _ _ _ _ Hck). assert (Hvs : verifySubject sub c = Ok (None, c)).
  { unfold verifySubject. rewrite (bind_eq _ _ _ _ _ (getCurrent_eq c cur Hc)). rewrite Hsub, subjectEqual_refl. done. }
  rewrite (bind_eq _ _ _ _ _ Hvs), (bind_eq _ _ _ _ _ (getValSet_eq c v Hv)).
  rewrite (bind_eq _ _ _ true c); [done|]. unfold lift. by rewrite Hin.
Qed.

(** ** Delivery *)

(** A quorum delivers: in the Prepared state, the COMMIT that completes a quorum is
    accepted, the node locks the proposal and moves to the Committed state, and the block is
    delivered to the backend with one seal per collected COMMIT. *)
Theorem commit_on_quorum (m : message) (sub : Subject) (c : core V) (cur : roundState) (v : V) (p : Proposal) :
  ready c m (m_Address m) sub -> c_current c = Some cur -> stateProposal cur = Some p -> c_valSet c = Some v ->
  vs_Has v (m_Address m) = true -> c_state c = StatePrepared -> c_backlogs c = ∅ ->
  RequiredMessageCount v <= Z.of_nat (size (<[m_Address m := m]> (rs_Commits cur))) ->
  (forall p seals, b_Commit b p seals = true) ->
  exists c' cur' seals, handleCommit b m (m_Address m) c = Ok (None, c') /\
    c_log c' = c_log c ++ [ACommit p seals] /\ RequiredMessageCount v <= len seals /\
    c_state c' = StateCommitted /\ c_current c' = Some cur' /\ rs_lockedHash cur' = p_Hash p.
Proof.
  intros Hrd Hc Hp Hv Hhas Hst Hbl Hq Hok. unfold handleCommit. rewrite (checkSubject_eq _ _ _ sub) by (auto; done).
  set (cur1 := setCommits (<[m_Address m := m]> (rs_Commits cur)) cur). set (c1 := withCurrent cur1 c).
  assert (Ha : acceptCommit m c = Ok (tt, c1)).
  { unfold acceptCommit. rewrite (bind_eq _ _ _ _ _ (getValSet_eq c v Hv)), (bind_eq _ _ _ _ _ (getCurrent_eq c cur Hc)).
    unfold messageSetAdd. by rewrite Hhas. }
  rewrite (bind_eq _ _ _ _ _ Ha). assert (Ht : tryPrepared b (s_Digest sub) c1 = Ok (tt, c1)).
  { unfold tryPrepared. rewrite (bind_eq _ _ _ (c_state c) c1) by done. by rewrite Hst. }
  rewrite (bind_eq _ _ _ _ _ Ht). set (seals := map (fun am => sealBytes (m_CommittedSeal am.2)) (map_to_list (rs_Commits cur1))).
  set (cur2 := LockHash cur1). set (c2 := withState StateCommitted (withCurrent cur2 c1)).
  destruct (rs_Preprepare cur) as [pp|] eqn:Hpp; [|unfold stateProposal in Hp; by rewrite Hpp in Hp].
  assert (Hpe : pp_Proposal pp = p) by (unfold stateProposal in Hp; rewrite Hpp in Hp; by injection Hp).
  assert (E2 : rs_Commits cur2 = rs_Commits cur1 /\ stateProposal cur2 = Some p /\ rs_lockedHash cur2 = p_Hash p).
  { unfold cur2, LockHash, stateProposal. simpl. rewrite ?Hpp. simpl. by rewrite ?Hpp, <- ?Hpe. }
  destruct E2 as (Ecm & Epr & Elk). assert (Hcm : commit b (withCurrent cur2 c1) = emit (ACommit p seals) c2).
  { unfold commit. rewrite (bind_eq _ _ _ _ _ (setState_eq StateCommitted (withCurrent cur2 c1) ltac:(done) Hbl)).
    rewrite (bind_eq _ _ _ _ _ (getCurrent_eq c2 cur2 eq_refl)). rewrite Epr, Ecm. fold seals.
    unfold mbind, M_bind. simpl. by rewrite Hok. }
  assert (Htc : tryCommitted b c1 = emit (ACommit p seals) c2).
  { unfold tryCommitted. rewrite (bind_eq _ _ _ (c_state c1) c1) by done.
    rewrite (bind_eq _ _ _ _ _ (getCurrent_eq c1 cur1 eq_refl)), (bind_eq _ _ _ _ _ (getValSet_eq c1 v Hv)).
    change (c_state c1) with (c_state c). rewrite Hst. rewrite (proj2 (Z.leb_le _ _)) by exact Hq.
    change ((stateNumber StatePrepared <? stateNumber StateCommitted) && true) with true. cbv iota.
    rewrite (bind_eq _ _ _ tt (withCurrent cur2 c1)) by done. exact Hcm. }
  eexists _, cur2, seals. split.
  - unfold mbind at 1, M_bind at 1. rewrite Htc. reflexivity.
  - split_and!; try done. unfold seals, len. rewrite length_map, length_map_to_list. exact Hq.
Qed.

(** ** Old proposals *)

(** The answer to an old PRE-PREPARE is lost, and its seal is not for the block it names:
    when the proposer of an earlier view sends a block the node already has, the node signs
    a COMMIT for that view and block, but the committed seal inside is for the proposal of
    the current round; and the node's own event loop, the only receiver, rejects the message
    as old, so that it is not passed on. *)
Theorem old_preprepare_answer (m : message) (pp : Preprepare) (src : Address) (c : core V) (cur : roundState)
    (p : Proposal) (v : V) (sign : bytes -> bytes) :
  c_current c = Some cur -> stateProposal cur = Some p -> decodePreprepare m = Some pp ->
  viewCmp (pp_View pp) (stateView cur) = Lt -> (forall d, b_Sign b d = Some (sign d)) ->
  vs_CalcProposer (vs_Copy (b_ParentValidators b (pp_Proposal pp)))
    (b_GetProposer b (u64 (p_Number (pp_Proposal pp) - 1))) (u64 (v_Round (pp_View pp))) = Ok v ->
  vs_IsProposer v src = Ok true -> b_HasPropsal b (p_Hash (pp_Proposal pp)) (p_Number (pp_Proposal pp)) = true ->
  exists c' answer, handlePreprepare b m src c = Ok (None, c') /\ c_log c' = c_log c ++ [ABroadcast answer] /\
    m_Code answer = msgCommit /\
    decodeSubject answer = Some (mkSubject (pp_View pp) (p_Hash (pp_Proposal pp)) (p_ParentHash (pp_Proposal pp))) /\
    m_CommittedSeal answer = sign (PrepareCommittedSeal (p_Hash p)) /\
    handleCheckedMsg b answer (m_Address answer) c' = Ok (Some errOldMessage, c').
Proof.
  intros Hc Hp Hd Hlt Hsign Hcalc Hprop Hhas. unfold handlePreprepare. rewrite Hd.
  assert (Hck : forall code c1, code <> msgRoundChange -> c_current c1 = Some cur ->
    checkMessage code (Some (pp_View pp)) c1 = Ok (Some errOldMessage, c1)).
  { intros code c1 Hcode Hc1. unfold checkMessage. rewrite (bind_eq _ _ _ _ _ (currentView_eq c1 cur Hc1)).
    destruct (Z.eqb_spec code msgRoundChange); [done|]. by rewrite Hlt. }
  rewrite (bind_eq _ _ _ _ _ (Hck msgPreprepare c ltac:(done) Hc)). unfold handleOldPreprepare.
  rewrite (bind_eq _ _ _ v c) by (unfold lift; by rewrite Hcalc). rewrite (bind_eq _ _ _ true c) by (unfold lift; by rewrite Hprop).
  rewrite Hhas. cbn [andb]. unfold sendCommitForOldBlock, broadcastCommit, broadcast. set (sub := mkSubject _ _ _). cbn [s_PrevHash].
  set (seal := sign (PrepareCommittedSeal (p_Hash p))). set (m0 := mkMessage (s_PrevHash sub) msgCommit (BodySubject sub) [] [] []).
  set (m1 := mkMessage (s_PrevHash sub) msgCommit (BodySubject sub) (c_address c) [] seal).
  set (answer := mkMessage (s_PrevHash sub) msgCommit (BodySubject sub) (c_address c) (sign (b_payloadNoSig b m1)) seal).
  assert (Hf : finalizeMessage b m0 c = Ok (Some answer, c)).
  { unfold finalizeMessage. rewrite (bind_eq _ _ _ (c_address c) c) by done. rewrite (bind_eq _ _ _ (Some seal) c).
    - cbv beta iota zeta. by rewrite Hsign.
    - change (m_Code m0 =? msgCommit) with true. cbv iota. rewrite (bind_eq _ _ _ _ _ (getCurrent_eq c cur Hc)). by rewrite Hp, Hsign. }
  eexists _, answer. split; [unfold mbind, M_bind; rewrite Hf; reflexivity|]. split_and!; try done.
  unfold handleCheckedMsg. cbn -[handleCommit storeBacklog]. set (c' := mkCore _ _ _ _ _ _ _ _ _).
  assert (Hh : handleCommit b answer (c_address c) c' = Ok (Some errOldMessage, c')).
  { unfold handleCommit, checkSubject. change (decodeSubject answer) with (Some sub). cbv iota beta.
    by rewrite (bind_eq _ _ _ _ _ (Hck msgCommit c' ltac:(done) Hc)). }
  by rewrite (bind_eq _ _ _ _ _ Hh).
Qed.

End steps.
End Steps.
