(* ===== verification/IstanbulSets.v ===== *)
(** * Validator sets for the consensus core

    The two validator sets as implementations of the interface the core uses, with the
    committees they promise and where they do not keep the promise; and a run of four
    nodes that commit a block. *)

From S2P Require Import Prelude Validators Weighted Prque Istanbul IstanbulInv IstanbulSafety IstanbulSteps.

Module Sets.
Import ValSet Core CoreInv Safety Steps.

(** [defaultSet] implements [istanbul.ValidatorSet]. *)
Definition default_set (addrString : Address -> bytes) (rnd : randSource) (isIstanbul : Z -> bool) : ValidatorSet defaultSet := {|
  vs_Has s a := bool_decide (a ∈ ds_validators s);
  vs_IsProposer s a := Ok (ValSet.IsProposer s a);
  vs_CheckInSubList s h view a := ValSet.CheckInSubList rnd isIstanbul s h view a;
  vs_CalcProposer s last round := ValSet.CalcProposer last round s;
  vs_Copy := ValSet.Copy addrString;
  vs_F := ValSet.F;
  vs_Size := ValSet.Size;
  vs_SubGroupSize := ds_subSize;
  vs_IsSubSet := ValSet.IsSubSet
|}.

(** [weightedCouncil] implements [istanbul.ValidatorSet]. *)
Definition weighted_council (rnd : randSource) (rules : Council.chainRules) (interval : Z) : ValidatorSet Council.weightedCouncil := {|
  vs_Has c a := bool_decide (is_Some (Council.getByAddress c a).2);
  vs_IsProposer := Council.IsProposer;
  vs_CheckInSubList := Council.CheckInSubList rnd rules interval;
  vs_CalcProposer c last round := Council.CalcProposer rnd rules interval last round c;
  vs_Copy := Council.Copy;
  vs_F := Council.F;
  vs_Size := Council.Size;
  vs_SubGroupSize := Council.wc_subSize;
  vs_IsSubSet := Council.IsSubSet
|}.

(** ** Committees *)

Lemma sub_list_full rnd isIstanbul s h view : ds_subSize s >= ValSet.Size s ->
  ValSet.SubList rnd isIstanbul s h view = Ok (ds_validators s).
Proof.
  intros Hs. unfold ValSet.SubList, ValSet.SubListWithProposer, ValSet.Size in *.
  destruct (ValSet.GetProposer s); [|done]. by rewrite (proj2 (Z.leb_le _ _)) by lia.
Qed.

(** When the sub-group is not smaller than the set, the committee of a [defaultSet] is
    the set itself in every view. *)
Lemma default_committee (addrString : Address -> bytes) (rnd : randSource) (isIstanbul : Z -> bool)
    (s : defaultSet) (view : View) :
  NoDup (ds_validators s) -> ds_subSize s >= ValSet.Size s ->
  committee_ok (H := default_set addrString rnd isIstanbul) s view (ds_validators s).
Proof.
  intros Hn Hs. assert (E : (ds_subSize s <? ValSet.Size s) = false) by (apply Z.ltb_ge; lia).
  split; unfold voters; simpl; unfold ValSet.IsSubSet, ValSet.F; rewrite ?E; try done.
  intros h a. unfold ValSet.CheckInSubList. rewrite sub_list_full by done. cbn [mbind res_bind mret res_ret].
  intros [= Hb]. by apply bool_decide_eq_true in Hb.
Qed.


(** ** A run *)

(** Handling external events one after the other. *)
Fixpoint run `{ValidatorSet V} (b : Backend V) (evs : list event) (c : core V) : go (core V) :=
  match evs with
  | [] => mret c
  | ev :: evs => '(_, c) ← handleEvent b ev c; run b evs c
  end.

Definition external (ev : event) : Prop :=
  match ev with BacklogEvent _ _ _ | TimeoutEvent _ => False | _ => True end.

Lemma run_reachable `{ValidatorSet V} (Env : Backend V -> Prop) (b : Backend V) addr evs : Env b ->
  Forall external evs -> forall c c', reachable Env addr c -> run b evs c = Ok c' -> reachable Env addr c'.
Proof.
  intros Henv. induction 1 as [|ev evs Hev _ IH]; intros c c' Hc; [by intros [= <-]|]. cbn [run].
  intros ([[] c1] & H1 & Hr)%bind_ok. eapply IH; [|exact Hr]. eapply reach_step; [exact Hc|].
  eapply step_event; [exact Henv| |exact H1]. by destruct ev.
Qed.

(** The state after starting and handling some events. *)
Definition after `{ValidatorSet V} (b : Backend V) (addr : Address) (evs : list event) : core V :=
  match Start b (NewCore addr) with
  | Ok (_, c) => match run b evs c with Ok c => c | _ => NewCore addr end
  | _ => NewCore addr
  end.

Lemma after_reachable `{ValidatorSet V} (Env : Backend V -> Prop) (b : Backend V) addr evs : Env b -> Forall external evs ->
  c_current (after b addr evs) <> None -> reachable Env addr (after b addr evs).
Proof.
  intros Henv Hext. unfold after. destruct (Start b (NewCore addr)) as [[[] c]|?| |] eqn:Hs; try done.
  destruct (run b evs c) as [c'|?| |] eqn:Hr; try done. intros _. eapply run_reachable; try done. by eapply reach_start.
Qed.

(** Four validators, a block to agree on, and a backend that accepts everything; the
    signature of a message is a single byte. *)
Definition demo_sets : ValidatorSet defaultSet := default_set (fun a => a) demo_rand (fun _ => true).
#[local] Existing Instance demo_sets.
Definition four : defaultSet := mkSet 21 [[1]; [2]; [3]; [4]] RoundRobin None.
Definition genesis : Proposal := mkProposal 0 (replicate 32 9) (replicate 32 0) 0.
Definition block1 : Proposal := mkProposal 1 (replicate 32 5) (replicate 32 9) 0.
Definition demo_backend : Backend defaultSet :=
  mkBackend (Some genesis, replicate 20 0) (fun _ => four) (fun _ => four) (fun _ => replicate 20 0)
    (fun _ => false) (fun _ _ => true) (fun _ => VerifyOk) (fun _ _ => true) (fun d => Some [len d])
    (fun _ => []) (fun m => Some (m_Address m)) true 10000.
Definition subject1 : Subject := mkSubject (mkView 1 0) (replicate 32 5) (replicate 32 9).
Definition vote (code : Z) (a : Z) : event :=
  MessageEvent (replicate 32 9) (Some (mkMessage (replicate 32 9) code (BodySubject subject1) [a] [] [a])).
Definition propose1 : event :=
  MessageEvent (replicate 32 9) (Some (mkMessage (replicate 32 9) msgPreprepare
    (BodyPreprepare (mkPreprepare (mkView 1 0) block1)) [1] [] [])).

(** A proposal, three PREPAREs and three COMMITs. *)
Definition demo_events : list event :=
  [propose1; vote msgPrepare 2; vote msgPrepare 3; vote msgPrepare 4;
   vote msgCommit 2; vote msgCommit 3; vote msgCommit 4].
Definition demo_core (a : Address) : core defaultSet := after demo_backend a demo_events.
Definition any_backend (_ : Backend defaultSet) : Prop := True.

Lemma demo_external : Forall external demo_events.
Proof. repeat (apply Forall_cons_2; [exact I|]). apply Forall_nil_2. Qed.

Lemma demo_reachable a : c_current (demo_core a) <> None -> reachable any_backend a (demo_core a).
Proof. unfold demo_core. exact (after_reachable any_backend demo_backend a demo_events I demo_external). Qed.

Ltac compute_decide := apply (bool_decide_unpack _); vm_compute; exact I.

#[export] Instance action_eq_dec : EqDecision action.
Proof.
  assert (EqDecision View) by solve_decision. assert (EqDecision Proposal) by solve_decision.
  assert (EqDecision Preprepare) by solve_decision. assert (EqDecision Subject) by solve_decision.
  assert (EqDecision msgBody) by solve_decision. assert (EqDecision message) by solve_decision. solve_decision.
Defined.

Lemma running_node_invariant_witness :
  exists cur, c_current (demo_core [2]) = Some cur /\
    (forall a m, rs_Prepares cur !! a = Some m \/ rs_Commits cur !! a = Some m -> supported (c_valSet (demo_core [2])) cur a m) /\
    (idle (demo_core [2]) -> rs_Prepares cur = ∅ /\ rs_Commits cur = ∅) /\
    GetPrepareOrCommitSize cur = Z.of_nat (size (dom (rs_Prepares cur) ∪ dom (rs_Commits cur) : gset Address)) /\
    (c_state (demo_core [2]) = StateCommitted -> c_waitingForRoundChange (demo_core [2]) = false ->
      exists v, c_valSet (demo_core [2]) = Some v /\ RequiredMessageCount v <= Z.of_nat (size (rs_Commits cur))).
Proof. apply (running_node_invariant any_backend [2]). apply demo_reachable. vm_compute. discriminate. Defined.

Definition demo_vote (code a : Z) : message := mkMessage (replicate 32 9) code (BodySubject subject1) [a] [] [a].

Lemma network_votes_agree_witness : subject1 = subject1.
Proof.
  apply (network_votes_agree any_backend [2] (demo_core [2]) (replicate 32 9) (replicate 32 9)
           (demo_vote msgPrepare 3) (demo_vote msgCommit 4)).
  - apply demo_reachable. vm_compute. discriminate.
  - compute_decide.
  - compute_decide.
  - by left.
  - by right.
  - reflexivity.
  - reflexivity.
  - reflexivity.
Defined.

Definition demo_honest (a : Address) : Prop := a = [2] \/ a = [3] \/ a = [4].
#[local] Instance demo_honest_dec a : Decision (demo_honest a).
Proof. unfold demo_honest. apply _. Defined.

Definition current_of (c : core defaultSet) : roundState :=
  default (mkRoundState 0 0 None ∅ ∅ [] None) (c_current c).
Definition valSet_of (c : core defaultSet) : defaultSet := default four (c_valSet c).

Lemma demo_bad (bad : list Address) : NoDup bad -> Forall (fun a => a ∈ [[1]; [2]; [3]; [4]] /\ ~ demo_honest a) bad -> len bad <= 1.
Proof.
  intros Hn Hb. assert (Hall : Forall (fun a => a = [1]) bad).
  { eapply Forall_impl; [exact Hb|]. unfold demo_honest. intros a [Hin Hh]. set_solver. }
  destruct bad as [|x [|y l]]; [vm_compute; discriminate|vm_compute; discriminate|].
  inversion Hall as [|? ? -> Hall']. inversion Hall' as [|? ? -> _]. subst. by apply NoDup_cons in Hn as [Hx _]; set_solver.
Qed.

Lemma demo_commits (n a : Address) (m : message) : n = [2] \/ n = [3] ->
  rs_Commits (current_of (demo_core n)) !! a = Some m -> AGossip (replicate 32 9) m ∈ c_log (demo_core a).
Proof.
  intros Hnode Hm. apply elem_of_map_to_list in Hm.
  assert (Hall : Forall (fun am => AGossip (replicate 32 9) am.2 ∈ c_log (demo_core am.1)) (map_to_list (rs_Commits (current_of (demo_core n))))).
  { destruct Hnode as [-> | ->]; compute_decide. }
  rewrite Forall_forall in Hall. by apply (Hall (a, m)).
Qed.

Lemma demo_committee n : n = [2] \/ n = [3] -> committee_ok (valSet_of (demo_core n)) (mkView 1 0) [[1]; [2]; [3]; [4]].
Proof.
  intros Hnode. assert (E : valSet_of (demo_core n) = mkSet 21 [[1]; [2]; [3]; [4]] RoundRobin (Some [1])).
  { destruct Hnode as [-> | ->]; vm_compute; reflexivity. }
  rewrite E. apply (default_committee (fun a => a) demo_rand (fun _ => true)); [compute_decide|vm_compute; discriminate].
Qed.

Lemma view_agreement_witness : p_Hash block1 = p_Hash block1.
Proof.
  apply (view_agreement any_backend demo_honest demo_core [2] [3] (demo_core [2]) (demo_core [3])
           (current_of (demo_core [2])) (current_of (demo_core [3])) (valSet_of (demo_core [2])) (valSet_of (demo_core [3]))
           block1 block1 (mkView 1 0) [[1]; [2]; [3]; [4]]).
  - intros a [-> | [-> | ->]]; apply demo_reachable; vm_compute; discriminate.
  - apply demo_reachable. vm_compute. discriminate.
  - apply demo_reachable. vm_compute. discriminate.
  - vm_compute. reflexivity.
  - vm_compute. reflexivity.
  - vm_compute. reflexivity.
  - vm_compute. reflexivity.
  - vm_compute. reflexivity.
  - vm_compute. reflexivity.
  - vm_compute. reflexivity.
  - vm_compute. reflexivity.
  - vm_compute. reflexivity.
  - vm_compute. reflexivity.
  - apply demo_committee. by left.
  - apply demo_committee. by right.
  - vm_compute. reflexivity.
  - exact demo_bad.
  - intros a m _ [Hm|Hm]; eexists; eapply demo_commits; [left|exact Hm|right|exact Hm]; reflexivity.
  - vm_compute. reflexivity.
  - vm_compute. reflexivity.
Defined.

(** ** Single steps *)

(** Node 2 just before the COMMIT that completes the quorum. *)
Definition prepared_core : core defaultSet := after demo_backend [2] (take 6 demo_events).

Lemma prepared_ready : ready prepared_core (demo_vote msgCommit 4) [4] subject1.
Proof.
  exists (current_of prepared_core), (valSet_of prepared_core). split; [reflexivity|].
  split; [vm_compute; reflexivity|]. split; [intros [E|E]; vm_compute in E; discriminate|].
  split; [vm_compute; reflexivity|]. split; [vm_compute; reflexivity|]. split; vm_compute; reflexivity.
Qed.

Lemma commit_on_quorum_witness :
  exists c' cur' seals, handleCommit demo_backend (demo_vote msgCommit 4) [4] prepared_core = Ok (None, c') /\
    c_log c' = c_log prepared_core ++ [ACommit block1 seals] /\ RequiredMessageCount (valSet_of prepared_core) <= len seals /\
    c_state c' = StateCommitted /\ c_current c' = Some cur' /\ rs_lockedHash cur' = p_Hash block1.
Proof.
  apply (commit_on_quorum demo_backend (demo_vote msgCommit 4) subject1 prepared_core (current_of prepared_core)
           (valSet_of prepared_core) block1 prepared_ready);
    [vm_compute; reflexivity|vm_compute; reflexivity|vm_compute; reflexivity|vm_compute; reflexivity
    |vm_compute; reflexivity|vm_compute; reflexivity|vm_compute; discriminate|reflexivity].
Defined.

(** A node at block 2 that has accepted a proposal, asked about block 1. *)
Definition block2 : Proposal := mkProposal 2 (replicate 32 6) (replicate 32 5) 0.
Definition late_backend : Backend defaultSet :=
  mkBackend (Some block1, replicate 20 0) (fun _ => four) (fun _ => four) (fun _ => replicate 20 0)
    (fun _ => false) (fun _ _ => true) (fun _ => VerifyOk) (fun _ _ => true) (fun d => Some [len d])
    (fun _ => []) (fun m => Some (m_Address m)) true 10000.
Definition preprepare2 : message :=
  mkMessage (replicate 32 5) msgPreprepare (BodyPreprepare (mkPreprepare (mkView 2 0) block2)) [1] [] [].
Definition old_preprepare : message :=
  mkMessage (replicate 32 9) msgPreprepare (BodyPreprepare (mkPreprepare (mkView 1 0) block1)) [1] [] [].
Definition late_core : core defaultSet := after late_backend [2] [MessageEvent (replicate 32 5) (Some preprepare2)].

Lemma old_preprepare_answer_witness :
  exists c' answer, handlePreprepare late_backend old_preprepare [1] late_core = Ok (None, c') /\
    c_log c' = c_log late_core ++ [ABroadcast answer] /\ m_Code answer = msgCommit /\
    decodeSubject answer = Some subject1 /\
    m_CommittedSeal answer = [len (PrepareCommittedSeal (p_Hash block2))] /\
    handleCheckedMsg late_backend answer (m_Address answer) c' = Ok (Some errOldMessage, c').
Proof.
  apply (old_preprepare_answer late_backend old_preprepare (mkPreprepare (mkView 1 0) block1) [1] late_core
           (current_of late_core) block2 (mkSet 21 [[1]; [2]; [3]; [4]] RoundRobin (Some [1])) (fun d => [len d]));
    [vm_compute; reflexivity|vm_compute; reflexivity|reflexivity|vm_compute; reflexivity|reflexivity
    |vm_compute; reflexivity|vm_compute; reflexivity|reflexivity].
Defined.

(** ** Committees that are not *)

(** C40. Under the sticky policy quorums need not meet: with a sub-group smaller than the set,
    every validator passes the committee check of round 0, while the number of messages
    required is that of the sub-group; as soon as two such numbers fit into the set, there
    are two disjoint groups that each form a quorum. *)
Theorem sticky_quorums_disjoint (addrString : Address -> bytes) (rnd : randSource) (isIstanbul : Z -> bool)
    (s : defaultSet) (p : Address) (h : Hash) (seq : Z) :
  NoDup (ds_validators s) -> p ∈ ds_validators s -> emptyAddress p = false -> ds_policy s = Sticky -> ds_proposer s = Some p ->
  2 <= ds_subSize s < ValSet.Size s -> ValSet.Size s < 2 ^ 63 ->
  2 * RequiredMessageCount (H := default_set addrString rnd isIstanbul) s <= ValSet.Size s ->
  exists Q1 Q2, NoDup (Q1 ++ Q2) /\
    len Q1 = RequiredMessageCount (H := default_set addrString rnd isIstanbul) s /\
    len Q2 = RequiredMessageCount (H := default_set addrString rnd isIstanbul) s /\
    forall a, a ∈ Q1 ++ Q2 -> ValSet.CheckInSubList rnd isIstanbul s h (mkView seq 0) a = Ok true.
Proof.
  intros Hn Hp He Hpol Hpr Hs Hsz Hreq. set (q := RequiredMessageCount (H := default_set addrString rnd isIstanbul) s) in *.
  destruct (sticky_committee_is_everyone rnd isIstanbul s h p seq Hn Hp He Hpol Hs Hsz) as [Hall _].
  assert (Hq : 0 <= q).
  { unfold q, RequiredMessageCount. cbn [vs_IsSubSet vs_SubGroupSize vs_Size default_set]. unfold ValSet.IsSubSet.
    rewrite (proj2 (Z.ltb_lt (ds_subSize s) (ValSet.Size s))) by lia. unfold ceilDiv. destruct (_ <? _); [lia|]. apply Z.div_pos; lia. }
  set (k := Z.to_nat q). unfold ValSet.Size, len in *. exists (take k (ds_validators s)), (take k (drop k (ds_validators s))).
  assert (Hsub : take k (ds_validators s) ++ take k (drop k (ds_validators s)) ⊆+ ds_validators s).
  { rewrite <- (take_drop k (ds_validators s)) at 3. apply submseteq_skips_l, sublist_submseteq, sublist_take. }
  split_and!.
  - by eapply selection_NoDup.
  - rewrite length_take. unfold k. lia.
  - rewrite length_take, length_drop. unfold k. lia.
  - intros a Ha. unfold ValSet.CheckInSubList, ValSet.SubList, ValSet.GetProposer. rewrite Hpr, Hall. cbn [mbind res_bind mret res_ret].
    f_equal. apply bool_decide_eq_true. by eapply elem_of_submseteq.
Qed.

Definition sticky_ten : defaultSet :=
  mkSet 4 [[1]; [2]; [3]; [4]; [5]; [6]; [7]; [8]; [9]; [10]] Sticky (Some [1]).

Lemma sticky_quorums_disjoint_witness :
  exists Q1 Q2, NoDup (Q1 ++ Q2) /\ len Q1 = 3 /\ len Q2 = 3 /\
    forall a, a ∈ Q1 ++ Q2 -> ValSet.CheckInSubList demo_rand (fun _ => true) sticky_ten (replicate 32 9) (mkView 5 0) a = Ok true.
Proof.
  apply (sticky_quorums_disjoint (fun a => a) demo_rand (fun _ => true) sticky_ten [1] (replicate 32 9) 5);
    [compute_decide|compute_decide|reflexivity|reflexivity|reflexivity|split; vm_compute; (discriminate || reflexivity)|vm_compute; reflexivity|vm_compute; discriminate].
Defined.

(** A random source that follows its seed, and a committee of three out of five. *)
Definition seed_rand : randSource := mkRand (fun seed _ n => Z.to_nat (seed mod Z.of_nat n)) (fun _ _ => []).
Definition five : defaultSet := mkSet 3 [[1]; [2]; [3]; [4]; [5]] RoundRobin None.
Definition seed_sets : ValidatorSet defaultSet := default_set (fun a => a) seed_rand (fun _ => false).
Definition five_backend : Backend defaultSet :=
  mkBackend (Some genesis, replicate 20 0) (fun _ => five) (fun _ => five) (fun _ => replicate 20 0)
    (fun _ => false) (fun _ _ => true) (fun _ => VerifyOk) (fun _ _ => true) (fun d => Some [len d])
    (fun _ => []) (fun m => Some (m_Address m)) true 10000.
Definition other_hash : Hash := [0; 0; 0; 0; 0; 0; 0; 16] ++ replicate 24 0.
Definition five_core : core defaultSet := after (H := seed_sets) five_backend [2] [propose1].
Definition stray_vote : message := mkMessage other_hash msgPrepare (BodySubject subject1) [4] [] [].

(** Before the Randao fork the committee check trusts the sender: it looks up the
    committee for the hash the message carries in its envelope, which is not compared with
    the parent of the proposal voted on.  A validator outside the committee of the
    proposal gets its PREPARE accepted and counted by naming another hash. *)
Theorem committee_check_trusts_sender :
  rand_ok seed_rand /\
  reachable (H := seed_sets) any_backend [2] five_core /\
  ValSet.CheckInSubList seed_rand (fun _ => false) (valSet_of five_core) (s_PrevHash subject1) (s_View subject1) [4] = Ok false /\
  exists c', handleMsg (H := seed_sets) five_backend (Some stray_vote) five_core = Ok (None, c') /\
    rs_Prepares (current_of c') !! ([4] : Address) = Some stray_vote.
Proof.
  split; [split|].
  - intros seed i n Hn. simpl. pose proof (Z.mod_pos_bound seed (Z.of_nat n) ltac:(lia)). lia.
  - intros. apply Forall_nil_2.
  - split; [|split].
    + unfold five_core. apply (after_reachable (H := seed_sets) any_backend five_backend [2] [propose1] I); [|vm_compute; discriminate].
      apply Forall_cons_2; [exact I|apply Forall_nil_2].
    + vm_compute. reflexivity.
    + eexists. split; [vm_compute; reflexivity|]. vm_compute. reflexivity.
Qed.

(** A council of three after the Randao fork. *)
Definition randao_council : Council.weightedCouncil :=
  Council.setProposer (Some (Council.wv 1 1)) Council.demo_council.


End Sets.
