(* ===== verification/Reward.v ===== *)
(** * Block rewards

    [reward/reward_distributor.go]: the fees of a block, the part of them that is burnt, and
    the split of fees and minted coins between the proposer, the stakers and the two funds;
    with the ratio checks of [governance/handler.go] and [params/governance_paramset.go].
    The staking information is the one of [Staking]; the signature of the header, which
    gives the proposer, is a parameter. *)

From S2P Require Import Prelude Staking.
From stdpp Require Import strings.
From Stdlib Require Import Ascii.

Module Reward.
Import Staking.
Local Open Scope Z_scope.
Local Open Scope list_scope.

(** ** Strings and numbers of the Go library *)

(** The bytes of a string literal. *)
Definition codes (s : string) : bytes := map (fun c => Z.of_nat (nat_of_ascii c)) (String.list_ascii_of_string s).

(** [strings.Split] at a separator of one byte: there is always a first part. *)
Fixpoint splitAt (sep : Z) (s : bytes) : list bytes :=
  match s with
  | [] => [[]]
  | c :: s =>
      if c =? sep then [] :: splitAt sep s
      else match splitAt sep s with
           | p :: ps => (c :: p) :: ps
           | [] => [[c]]
           end
  end.

(** [strconv.ParseUint(s, 10, 64)]; [None] is a syntax or range error. *)
Fixpoint digitsValue (acc : Z) (s : bytes) : option Z :=
  match s with
  | [] => Some acc
  | c :: s => if (48 <=? c) && (c <=? 57) then digitsValue (10 * acc + (c - 48)) s else None
  end.
Definition ParseUint (s : bytes) : option Z :=
  match s with
  | [] => None
  | _ => n ← digitsValue 0 s; if n <? 2 ^ 64 then Some n else None
  end.

(** [strconv.ParseInt(s, 10, 64)], which [strconv.Atoi] agrees with. *)
Definition ParseInt (s : bytes) : option Z :=
  match s with
  | 45 :: s => n ← ParseUint s; if n <=? 2 ^ 63 then Some (- n) else None
  | 43 :: s => n ← ParseUint s; if n <? 2 ^ 63 then Some n else None
  | _ => n ← ParseUint s; if n <? 2 ^ 63 then Some n else None
  end.

(** [big.Int.Div], Euclidean division. *)
Definition bigDiv {E} (x y : Z) : res E Z :=
  if y =? 0 then Panic else if 0 <? y then Ok (x / y) else Ok (- (x / - y)).

(** ** Data *)

Inductive rewardError := errInvalidFormat | errParsingRatio | errSignature.
Abbreviation R := (res rewardError).

(** The fork rules in force at a block. *)
Record Rules := mkRules { IsMagma : bool; IsKore : bool; IsKaia : bool }.

(** The values of a [GovParamSet] used here; [ps_Policy] is the proposer policy, of which 2
    is [WeightedRandom]. *)
Record GovParamSet := mkParams {
  ps_Ratio : bytes;
  ps_Kip82Ratio : bytes;
  ps_MintingAmount : Z;
  ps_MinimumStake : Z;
  ps_DeferredTxFee : bool;
  ps_UnitPrice : Z;
  ps_Policy : Z
}.

(** The parts of headers, transactions and receipts that matter: a transaction is its fee
    cap and its tip cap, a receipt the gas it used. *)
Record Header := mkHeader {
  h_Number : Z;
  h_GasUsed : Z;
  h_BaseFee : option Z;
  h_Rewardbase : Address
}.
Record Transaction := mkTx { tx_GasFeeCap : Z; tx_GasTipCap : Z }.

(** [rewardConfig]. *)
Record rewardConfig := mkConfig {
  rc_rules : Rules;
  rc_totalFee : Z;
  rc_mintingAmount : Z;
  rc_minimumStake : Z;
  rc_deferredTxFee : bool;
  rc_cnRatio : Z;
  rc_kifRatio : Z;
  rc_kefRatio : Z;
  rc_totalRatio : Z;
  rc_cnProposerRatio : Z;
  rc_cnStakingRatio : Z;
  rc_cnTotalRatio : Z
}.

(** [RewardSpec] and [TotalReward]. *)
Abbreviation rewardsMap := (gmap Address Z).
Record RewardSpec := mkSpec {
  Minted : Z;
  TotalFee : Z;
  BurntFee : Z;
  Proposer : Z;
  Stakers : Z;
  KIF : Z;
  KEF : Z;
  Rewards : rewardsMap
}.
Record TotalReward := mkTotal { tr_Minted : Z; tr_BurntFee : Z }.

(** [incrementRewardsMap]. *)
Definition incrementRewardsMap (m : rewardsMap) (addr : Address) (amount : Z) : rewardsMap :=
  <[addr := default 0 (m !! addr) + amount]> m.

(** The loop of [incrementRewardsMap] over another map. *)
Definition incrementAll (m : rewardsMap) (l : list (Address * Z)) : rewardsMap :=
  foldl (fun m aa => incrementRewardsMap m aa.1 aa.2) m l.

(** [NewRewardSpec] and [RewardSpec.Add]. *)
Definition NewRewardSpec : RewardSpec := mkSpec 0 0 0 0 0 0 0 ∅.
Definition specAdd (spec delta : RewardSpec) : RewardSpec :=
  mkSpec (Minted spec + Minted delta) (TotalFee spec + TotalFee delta) (BurntFee spec + BurntFee delta)
    (Proposer spec + Proposer delta) (Stakers spec + Stakers delta) (KIF spec + KIF delta) (KEF spec + KEF delta)
    (incrementAll (Rewards spec) (map_to_list (Rewards delta))).

(** ** Ratios *)

(** [parseRewardRatio]: three parts and their sum, in [int64]. *)
Definition parseRewardRatio (ratio : bytes) : R (Z * Z * Z * Z) :=
  match splitAt 47 ratio with
  | [s0; s1; s2] =>
      match ParseInt s0, ParseInt s1, ParseInt s2 with
      | Some cn, Some kif, Some kef => mret (cn, kif, kef, i64 (i64 (cn + kif) + kef))
      | _, _, _ => Err errParsingRatio
      end
  | _ => Err errInvalidFormat
  end.

(** [parseRewardKip82Ratio]. *)
Definition parseRewardKip82Ratio (ratio : bytes) : R (Z * Z * Z) :=
  match splitAt 47 ratio with
  | [s0; s1] =>
      match ParseInt s0, ParseInt s1 with
      | Some proposer, Some stakers => mret (proposer, stakers, i64 (proposer + stakers))
      | _, _ => Err errParsingRatio
      end
  | _ => Err errInvalidFormat
  end.

(** [checkRatio] and [checkKip82Ratio] of the governance votes: [n] parts. *)
Fixpoint uintSum (sum : Z) (parts : list bytes) : option Z :=
  match parts with
  | [] => Some sum
  | p :: parts => v ← ParseUint p; uintSum (u64 (sum + v)) parts
  end.
Definition checkRatioOf (n : nat) (v : bytes) : bool :=
  let x := splitAt 47 v in
  if negb (length x =? n)%nat then false
  else match uintSum 0 x with Some sum => sum =? 100 | None => false end.
Definition checkRatio := checkRatioOf 3.
Definition checkKip82Ratio := checkRatioOf 2.

(** The validators of [govParamTypeRatio] and [govParamTypeKip82Ratio]. *)
Fixpoint intSum (sum : Z) (parts : list bytes) : option Z :=
  match parts with
  | [] => Some sum
  | p :: parts => n ← ParseInt p; if n <? 0 then None else intSum (i64 (sum + n)) parts
  end.
Definition validateRatioOf (n : nat) (v : bytes) : bool :=
  let strs := splitAt 47 v in
  if negb (length strs =? n)%nat then false
  else match intSum 0 strs with Some sum => sum =? 100 | None => false end.
Definition govParamTypeRatio := validateRatioOf 3.
Definition govParamTypeKip82Ratio := validateRatioOf 2.

(** ** Fees *)

(** [Transaction.EffectiveGasTip]. *)
Definition EffectiveGasTip (tx : Transaction) (baseFee : option Z) : Z :=
  match baseFee with
  | Some baseFee => Z.min (tx_GasTipCap tx) (Z.max 0 (tx_GasFeeCap tx - baseFee))
  | None => tx_GasTipCap tx
  end.

(** The tips of the transactions, each times the gas of its receipt. *)
Definition tips (baseFee : option Z) (txs : list Transaction) (receipts : list Z) : Z :=
  sumZ (zip_with (fun tx gasUsed => i64 gasUsed * EffectiveGasTip tx baseFee) txs receipts).

(** [GetTotalTxFee]: a nil slice counts as an empty one, which adds no tips either.  A
    missing base fee is a nil dereference after Magma. *)
Definition GetTotalTxFee (header : Header) (txs : list Transaction) (receipts : list Z) (rules : Rules)
    (pset : GovParamSet) : R Z :=
  totalFee ← (if IsMagma rules then
                match h_BaseFee header with
                | Some baseFee => mret (h_GasUsed header * baseFee)
                | None => Panic
                end
              else mret (h_GasUsed header * ps_UnitPrice pset));
  if negb (IsKaia rules) then mret totalFee
  else if negb (length txs =? length receipts)%nat then mret totalFee
  else mret (totalFee + tips (h_BaseFee header) txs receipts).

(** [NewRewardConfig]. *)
Definition NewRewardConfig (header : Header) (txs : list Transaction) (receipts : list Z) (rules : Rules)
    (pset : GovParamSet) : R rewardConfig :=
  '(cn, kif, kef, total) ← parseRewardRatio (ps_Ratio pset);
  '(cnProposer, cnStaking, cnTotal) ←
    (if IsKore rules then parseRewardKip82Ratio (ps_Kip82Ratio pset) else mret (0, 0, 0));
  totalFee ← GetTotalTxFee header txs receipts rules pset;
  mret (mkConfig rules totalFee (ps_MintingAmount pset) (ps_MinimumStake pset) (ps_DeferredTxFee pset)
          cn kif kef total cnProposer cnStaking cnTotal).

(** [IsRewardSimple] and [CalcRewardParamBlock]. *)
Definition IsRewardSimple (pset : GovParamSet) : bool := negb (ps_Policy pset =? 2).
Definition CalcRewardParamBlock (num epoch : Z) (rules : Rules) : R Z :=
  if negb (IsKore rules) then
    if epoch =? 0 then Panic else if num mod epoch =? 0 then mret (u64 (num - epoch)) else mret num
  else mret num.

(** [splitByRatio] and [splitByKip82Ratio]. *)
Definition splitByRatio (rc : rewardConfig) (source : Z) : R (Z * Z * Z) :=
  cn ← bigDiv (source * rc_cnRatio rc) (rc_totalRatio rc);
  kif ← bigDiv (source * rc_kifRatio rc) (rc_totalRatio rc);
  kef ← bigDiv (source * rc_kefRatio rc) (rc_totalRatio rc);
  mret (cn, kif, kef).
Definition splitByKip82Ratio (rc : rewardConfig) (source : Z) : R (Z * Z) :=
  proposer ← bigDiv (source * rc_cnProposerRatio rc) (rc_cnTotalRatio rc);
  stakers ← bigDiv (source * rc_cnStakingRatio rc) (rc_cnTotalRatio rc);
  mret (proposer, stakers).

(** [getBurnAmountMagma] and [getBurnAmountKore]. *)
Definition getBurnAmountMagma (fee : Z) : Z := fee / 2.
Definition getBurnAmountKore (rc : rewardConfig) (fee : Z) : R Z :=
  '(cn, _, _) ← splitByRatio rc (rc_mintingAmount rc);
  '(proposer, _) ← splitByKip82Ratio rc cn;
  mret (if proposer <=? fee then proposer else fee).

(** [calcDeferredFee]: total, rewarded and burnt fee. *)
Definition calcDeferredFee (rc : rewardConfig) : R (Z * Z * Z) :=
  if negb (rc_deferredTxFee rc) then mret (0, 0, 0)
  else
    let totalFee := rc_totalFee rc in
    let '(rewardFee, burntFee) :=
      if IsMagma (rc_rules rc) then (totalFee - getBurnAmountMagma totalFee, getBurnAmountMagma totalFee)
      else (totalFee, 0) in
    if IsKore (rc_rules rc) then
      burnt ← getBurnAmountKore rc rewardFee;
      mret (totalFee, rewardFee - burnt, burntFee + burnt)
    else mret (totalFee, rewardFee, burntFee).

(** [calcSplit]: proposer, stakers, the two funds and the remainder. *)
Definition calcSplit (rc : rewardConfig) (minted fee : Z) : R (Z * Z * Z * Z * Z) :=
  let totalResource := minted + fee in
  if IsKore (rc_rules rc) then
    '(cn, kif, kef) ← splitByRatio rc minted;
    '(proposer, stakers) ← splitByKip82Ratio rc cn;
    let proposer := proposer + fee in
    mret (proposer, stakers, kif, kef, totalResource - kif - kef - proposer - stakers)
  else
    '(cn, kif, kef) ← splitByRatio rc totalResource;
    mret (cn, 0, kif, kef, totalResource - kif - kef - cn).

(** The stake above the minimum of the consolidated nodes, in [uint64]. *)
Fixpoint totalStakes (minStake : Z) (nodes : list consolidatedNode) (acc : Z) : Z :=
  match nodes with
  | [] => acc
  | node :: nodes =>
      totalStakes minStake nodes
        (if minStake <? cn_StakingAmount node then u64 (acc + (cn_StakingAmount node - minStake)) else acc)
  end.

(** The second loop of [calcShares]. *)
Fixpoint sharesLoop (stakeReward minStake total : Z) (nodes : list consolidatedNode) (shares : rewardsMap) (remaining : Z)
    : R (rewardsMap * Z) :=
  match nodes with
  | [] => mret (shares, remaining)
  | node :: nodes =>
      if minStake <? cn_StakingAmount node then
        rewardAmount ← bigDiv (stakeReward * (cn_StakingAmount node - minStake)) total;
        sharesLoop stakeReward minStake total nodes
          (if 0 <? rewardAmount then <[cn_RewardAddr node := rewardAmount]> shares else shares)
          (remaining - rewardAmount)
      else sharesLoop stakeReward minStake total nodes shares remaining
  end.

Definition liftGo {A} (r : go A) : R A :=
  match r with Ok a => Ok a | Err e => match e with end | Panic => Panic | NoFuel => NoFuel end.

(** [calcShares]. *)
Definition calcShares (stakingInfo : option StakingInfo) (stakeReward minStake : Z) : R (rewardsMap * Z) :=
  match stakingInfo with
  | None => mret (∅, stakeReward)
  | Some si =>
      cns ← liftGo (GetConsolidatedStakingInfo si);
      let total := totalStakes minStake (cs_nodes cns) 0 in
      sharesLoop stakeReward minStake total (cs_nodes cns) ∅ stakeReward
  end.

(** ** The reward of a block *)

(** [CalcDeferredRewardSimple]. *)
Definition CalcDeferredRewardSimple (header : Header) (txs : list Transaction) (receipts : list Z) (rules : Rules)
    (pset : GovParamSet) : R RewardSpec :=
  rc ← NewRewardConfig header txs receipts rules pset;
  let minted := rc_mintingAmount rc in
  if negb (rc_deferredTxFee rc) && IsMagma (rc_rules rc) then
    mret (mkSpec minted 0 0 minted 0 0 0 (incrementRewardsMap ∅ (h_Rewardbase header) minted))
  else
    let totalFee := rc_totalFee rc in
    let burntFee := if IsMagma (rc_rules rc) then getBurnAmountMagma totalFee else 0 in
    let proposer := minted + (totalFee - burntFee) in
    mret (mkSpec minted totalFee burntFee proposer 0 0 0 (incrementRewardsMap ∅ (h_Rewardbase header) proposer)).

(** The address of a fund, when it is set. *)
Definition fundAddr (f : StakingInfo -> Address) (stakingInfo : option StakingInfo) : option Address :=
  match stakingInfo with
  | None => None
  | Some si => if bool_decide (f si = emptyAddr) then None else Some (f si)
  end.
Definition payFund (addr : option Address) (amount : Z) (m : rewardsMap) : rewardsMap :=
  match addr with Some a => incrementRewardsMap m a amount | None => m end.

(** [CalcDeferredReward]; [stakingInfo] is what [GetStakingInfo] returns for the block. *)
Definition CalcDeferredReward (stakingInfo : option StakingInfo) (header : Header) (txs : list Transaction)
    (receipts : list Z) (rules : Rules) (pset : GovParamSet) : R RewardSpec :=
  rc ← NewRewardConfig header txs receipts rules pset;
  let minted := rc_mintingAmount rc in
  '(totalFee, rewardFee, burntFee) ← calcDeferredFee rc;
  '(proposer, stakers, kif, kef, splitRem) ← calcSplit rc minted rewardFee;
  '(shares, shareRem) ← calcShares stakingInfo stakers (u64 (rc_minimumStake rc));
  let kif := kif + splitRem in
  let proposer := proposer + shareRem in
  let stakers := stakers - shareRem in
  let kifAddr := fundAddr si_KIFAddr stakingInfo in
  let kefAddr := fundAddr si_KEFAddr stakingInfo in
  let '(proposer, kif) := match kifAddr with None => (proposer + kif, 0) | Some _ => (proposer, kif) end in
  let '(proposer, kef) := match kefAddr with None => (proposer + kef, 0) | Some _ => (proposer, kef) end in
  let rewards := payFund kefAddr kef (payFund kifAddr kif (incrementRewardsMap ∅ (h_Rewardbase header) proposer)) in
  mret (mkSpec minted totalFee burntFee proposer stakers kif kef (incrementAll rewards (map_to_list shares))).

(** [GetTotalReward]. *)
Definition GetTotalReward (header : Header) (txs : list Transaction) (receipts : list Z) (rules : Rules)
    (pset : GovParamSet) : R TotalReward :=
  rc ← NewRewardConfig header txs receipts rules pset;
  total ← (if IsRewardSimple pset then
             spec ← CalcDeferredRewardSimple header txs receipts rules pset;
             mret (mkTotal (Minted spec) (BurntFee spec))
           else
             '(_, _, burntFee) ← calcDeferredFee rc;
             mret (mkTotal (rc_mintingAmount rc) burntFee));
  if negb (rc_deferredTxFee rc) && IsMagma rules then
    txFee ← GetTotalTxFee header txs receipts rules pset;
    mret (mkTotal (tr_Minted total) (tr_BurntFee total + getBurnAmountMagma txFee))
  else mret total.

(** [GetBlockReward]; [signer] is the address [ecrecover] finds in the header. *)
Definition GetBlockReward (signer : option Address) (stakingInfo : option StakingInfo) (header : Header)
    (txs : list Transaction) (receipts : list Z) (rules : Rules) (pset : GovParamSet) : R RewardSpec :=
  spec ← (if IsRewardSimple pset then CalcDeferredRewardSimple header txs receipts rules pset
          else CalcDeferredReward stakingInfo header txs receipts rules pset);
  if negb (ps_DeferredTxFee pset) then
    if IsMagma rules then
      txFee ← GetTotalTxFee header txs receipts rules pset;
      let txFeeBurn := getBurnAmountMagma txFee in
      let txFeeRemained := txFee - txFeeBurn in
      mret (mkSpec (Minted spec) (TotalFee spec + txFee) txFeeBurn (Proposer spec + txFeeRemained) (Stakers spec)
              (KIF spec) (KEF spec) (incrementRewardsMap (Rewards spec) (h_Rewardbase header) txFeeRemained))
    else
      txFee ← GetTotalTxFee header [] [] rules pset;
      match signer with
      | None => Err errSignature
      | Some proposer =>
          mret (mkSpec (Minted spec) (TotalFee spec + txFee) (BurntFee spec) (Proposer spec + txFee) (Stakers spec)
                  (KIF spec) (KEF spec) (incrementRewardsMap (Rewards spec) proposer txFee))
      end
  else mret spec.

(** [DistributeBlockReward]: the balances after the rewards are added. *)
Definition DistributeBlockReward (balance : rewardsMap) (rewards : rewardsMap) : rewardsMap :=
  incrementAll balance (map_to_list rewards).

(** ** Sums over reward maps *)

(** The sum of all amounts of a map. *)
Definition total (m : rewardsMap) : Z := map_fold (fun _ v acc => v + acc) 0 m.

Lemma total_empty : total ∅ = 0.
Proof. apply map_fold_empty. Qed.

Lemma total_insert (m : rewardsMap) a v : m !! a = None -> total (<[a := v]> m) = v + total m.
Proof.
  intros Ha. unfold total. rewrite map_fold_insert_L; [done| |done]. intros. lia.
Qed.

Lemma total_increment (m : rewardsMap) a x : total (incrementRewardsMap m a x) = total m + x.
Proof.
  unfold incrementRewardsMap. destruct (m !! a) as [y|] eqn:Ha; simpl.
  - rewrite <- insert_delete_eq, total_insert by apply lookup_delete_eq.
    rewrite <- (insert_delete_id m a y Ha) at 2. rewrite total_insert by apply lookup_delete_eq. lia.
  - rewrite total_insert by done. lia.
Qed.

Lemma total_incrementAll (l : list (Address * Z)) : forall m, total (incrementAll m l) = total m + sumZ (map snd l).
Proof.
  induction l as [|[a x] l IH]; intros m; simpl; [unfold sumZ; simpl; lia|].
  unfold incrementAll in *. simpl. rewrite IH, total_increment. unfold sumZ. simpl. lia.
Qed.

Lemma total_to_list (m : rewardsMap) : sumZ (map snd (map_to_list m)) = total m.
Proof.
  unfold total. rewrite map_fold_foldr. unfold sumZ. induction (map_to_list m) as [|[a v] l IH]; [done|].
  simpl. by rewrite IH.
Qed.

(** Amounts of a map that are not negative. *)
Definition all_nonneg (m : rewardsMap) : Prop := map_Forall (fun _ v => 0 <= v) m.

Lemma nonneg_increment (m : rewardsMap) a x : all_nonneg m -> 0 <= x -> all_nonneg (incrementRewardsMap m a x).
Proof.
  intros Hm Hx. unfold incrementRewardsMap. apply map_Forall_insert_2; [|done].
  destruct (m !! a) as [y|] eqn:Ha; simpl; [|lia]. apply Hm in Ha. lia.
Qed.

Lemma nonneg_incrementAll (l : list (Address * Z)) : forall m,
  all_nonneg m -> Forall (fun ax => 0 <= ax.2) l -> all_nonneg (incrementAll m l).
Proof.
  induction l as [|[a x] l IH]; intros m Hm Hl; [done|]. apply Forall_cons in Hl as [Hx Hl].
  apply (IH (incrementRewardsMap m a x)); [|done]. by apply nonneg_increment.
Qed.

Lemma nonneg_to_list (m : rewardsMap) : all_nonneg m -> Forall (fun ax => 0 <= ax.2) (map_to_list m).
Proof. intros Hm. apply Forall_forall. intros [a v] Hv%elem_of_map_to_list. by apply Hm in Hv. Qed.

(** ** Splitting amounts *)

Lemma div_parts a b c t : 0 < t -> a / t + b / t + c / t <= (a + b + c) / t.
Proof.
  intros Ht. apply Z.div_le_lower_bound; [done|].
  pose proof (Z.mul_div_le a t Ht). pose proof (Z.mul_div_le b t Ht). pose proof (Z.mul_div_le c t Ht). lia.
Qed.

(** Ratios that add up, as the code means them to. *)
Record ratios_ok (rc : rewardConfig) : Prop := {
  ro_cn : 0 <= rc_cnRatio rc;
  ro_kif : 0 <= rc_kifRatio rc;
  ro_kef : 0 <= rc_kefRatio rc;
  ro_total : rc_totalRatio rc = rc_cnRatio rc + rc_kifRatio rc + rc_kefRatio rc;
  ro_pos : 0 < rc_totalRatio rc;
  ro_kore : IsKore (rc_rules rc) = true ->
    0 <= rc_cnProposerRatio rc /\ 0 <= rc_cnStakingRatio rc /\
    rc_cnTotalRatio rc = rc_cnProposerRatio rc + rc_cnStakingRatio rc /\ 0 < rc_cnTotalRatio rc
}.

Lemma bigDiv_pos {E} x y : 0 < y -> bigDiv (E := E) x y = Ok (x / y).
Proof.
  intros Hy. unfold bigDiv. rewrite (proj2 (Z.eqb_neq y 0)) by lia. by rewrite (proj2 (Z.ltb_lt 0 y)).
Qed.

Lemma splitByRatio_ok rc source : ratios_ok rc -> 0 <= source ->
  exists cn kif kef, splitByRatio rc source = Ok (cn, kif, kef) /\
    0 <= cn /\ 0 <= kif /\ 0 <= kef /\ cn + kif + kef <= source.
Proof.
  intros [H1 H2 H3 H4 H5 _] Hs. unfold splitByRatio. rewrite !bigDiv_pos by done. cbn [mbind res_bind].
  eexists _, _, _. split; [done|]. split_and!; try (apply Z.div_pos; [nia|done]).
  etransitivity; [by apply div_parts|]. rewrite <- !Z.mul_add_distr_l, <- H4, Z.div_mul by lia. done.
Qed.

Lemma splitByKip82Ratio_ok rc source : ratios_ok rc -> IsKore (rc_rules rc) = true -> 0 <= source ->
  exists proposer stakers, splitByKip82Ratio rc source = Ok (proposer, stakers) /\
    0 <= proposer /\ 0 <= stakers /\ proposer + stakers <= source.
Proof.
  intros Hr Hk Hs. destruct (ro_kore rc Hr Hk) as (H1 & H2 & H3 & H4).
  unfold splitByKip82Ratio. rewrite !bigDiv_pos by done. cbn [mbind res_bind].
  eexists _, _. split; [done|]. split_and!; try (apply Z.div_pos; [nia|done]).
  pose proof (div_parts (source * rc_cnProposerRatio rc) (source * rc_cnStakingRatio rc) 0 _ H4) as Hd.
  rewrite Z.div_0_l, !Z.add_0_r, <- Z.mul_add_distr_l, <- H3, Z.div_mul in Hd by lia. done.
Qed.

(** Fees: what is not burnt is rewarded. *)
Lemma calcDeferredFee_ok rc : ratios_ok rc -> 0 <= rc_totalFee rc -> 0 <= rc_mintingAmount rc ->
  exists t r b, calcDeferredFee rc = Ok (t, r, b) /\ t = r + b /\ 0 <= r /\ 0 <= b.
Proof.
  intros Hr Hf Hm. unfold calcDeferredFee. destruct (rc_deferredTxFee rc); simpl; [|by eexists _, _, _].
  set (rb := if IsMagma (rc_rules rc) then _ else _).
  assert (Hrb : rc_totalFee rc = rb.1 + rb.2 /\ 0 <= rb.1 /\ 0 <= rb.2).
  { unfold rb, getBurnAmountMagma. destruct (IsMagma _); simpl; [|lia].
    pose proof (Z.div_pos (rc_totalFee rc) 2 Hf). pose proof (Z.mul_div_le (rc_totalFee rc) 2). lia. }
  destruct rb as [r b]. simpl in Hrb. destruct (IsKore (rc_rules rc)) eqn:Hk; [|eexists _, _, _; split; [done|lia]].
  unfold getBurnAmountKore. destruct (splitByRatio_ok rc (rc_mintingAmount rc) Hr Hm) as (cn & kif & kef & -> & Hcn & _).
  cbn [mbind res_bind]. destruct (splitByKip82Ratio_ok rc cn Hr Hk Hcn) as (p & st & -> & Hp & _).
  cbn [mbind res_bind]. eexists _, _, _. split; [done|]. case_tests; lia.
Qed.

(** The five parts of the split add up to what was split. *)
Lemma calcSplit_ok rc minted fee : ratios_ok rc -> 0 <= minted -> 0 <= fee ->
  exists p st kif kef rem, calcSplit rc minted fee = Ok (p, st, kif, kef, rem) /\
    p + st + kif + kef + rem = minted + fee /\ 0 <= p /\ 0 <= st /\ 0 <= kif /\ 0 <= kef /\ 0 <= rem.
Proof.
  intros Hr Hm Hf. unfold calcSplit. destruct (IsKore (rc_rules rc)) eqn:Hk.
  - destruct (splitByRatio_ok rc minted Hr Hm) as (cn & kif & kef & -> & Hcn & ? & ? & ?). cbn [mbind res_bind].
    destruct (splitByKip82Ratio_ok rc cn Hr Hk Hcn) as (p & st & -> & ? & ? & ?). cbn [mbind res_bind].
    eexists _, _, _, _, _. split; [done|]. lia.
  - destruct (splitByRatio_ok rc (minted + fee) Hr) as (cn & kif & kef & -> & ? & ? & ? & ?); [lia|].
    cbn [mbind res_bind]. eexists _, _, _, _, _. split; [done|]. lia.
Qed.

(** ** Shares of the stakers *)

(** The stake above the minimum, without wrapping. *)
Definition effective (minStake : Z) (nodes : list consolidatedNode) : Z :=
  sumZ (map (fun node => Z.max 0 (cn_StakingAmount node - minStake)) nodes).

Lemma effective_cons minStake node nodes :
  effective minStake (node :: nodes) = Z.max 0 (cn_StakingAmount node - minStake) + effective minStake nodes.
Proof. done. Qed.

Lemma effective_range minStake (nodes : list consolidatedNode) :
  0 <= minStake -> Forall (fun node => 0 <= cn_StakingAmount node) nodes ->
  0 <= effective minStake nodes <= sumZ (map cn_StakingAmount nodes).
Proof.
  intros Hm. induction 1 as [|node nodes Hn _ IH]; [done|]. rewrite effective_cons.
  change (sumZ (map cn_StakingAmount (node :: nodes))) with (cn_StakingAmount node + sumZ (map cn_StakingAmount nodes)). lia.
Qed.

Lemma totalStakes_ok minStake (nodes : list consolidatedNode) : 0 <= minStake ->
  Forall (fun node => 0 <= cn_StakingAmount node) nodes -> forall acc,
  0 <= acc -> acc + effective minStake nodes < 2 ^ 64 -> totalStakes minStake nodes acc = acc + effective minStake nodes.
Proof.
  intros Hm. induction 1 as [|node nodes Hn Hns IH]; intros acc Ha Hb; simpl; [unfold effective, sumZ; simpl; lia|].
  rewrite effective_cons in *. pose proof (effective_range minStake nodes Hm Hns).
  destruct (minStake <? cn_StakingAmount node) eqn:E; bool_to_prop.
  - rewrite u64_small by (unfold is_u64; lia). rewrite IH; lia.
  - rewrite IH; lia.
Qed.

(** Shares are paid out of the reward, each at most its part of the stake. *)
Lemma sharesLoop_ok reward minStake t (nodes : list consolidatedNode) : 0 <= reward -> 0 <= t ->
  NoDup (map cn_RewardAddr nodes) -> (t = 0 -> effective minStake nodes = 0) -> forall shares rem,
  Forall (fun node => shares !! cn_RewardAddr node = None) nodes -> all_nonneg shares ->
  exists shares' rem', sharesLoop reward minStake t nodes shares rem = Ok (shares', rem') /\
    total shares' = total shares + (rem - rem') /\ all_nonneg shares' /\
    0 <= rem - rem' /\ t * (rem - rem') <= reward * effective minStake nodes /\
    (effective minStake nodes = 0 -> rem' = rem).
Proof.
  intros Hr Ht. induction nodes as [|node nodes IH]; intros Hn H0 shares rem Hs Hp; simpl.
  - exists shares, rem. split_and!; [done|lia|done|lia| |done]. unfold effective, sumZ. simpl. lia.
  - apply NoDup_cons in Hn as [Hnode Hn]. apply Forall_cons in Hs as [Hs Hss]. rewrite effective_cons in *.
    assert (He : 0 <= effective minStake nodes).
    { clear. unfold effective. apply sumZ_nonneg. apply Forall_fmap, Forall_forall. intros n _. simpl. lia. }
    destruct (minStake <? cn_StakingAmount node) eqn:E; bool_to_prop.
    + assert (Htp : 0 < t) by (destruct (decide (t = 0)); [rewrite e in H0; specialize (H0 eq_refl)|]; lia).
      rewrite bigDiv_pos by done. cbn [mbind res_bind].
      set (a := reward * (cn_StakingAmount node - minStake) / t).
      assert (Ha : 0 <= a) by (apply Z.div_pos; [nia|done]).
      assert (Hta : t * a <= reward * (cn_StakingAmount node - minStake)) by (by apply Z.mul_div_le).
      destruct (IH Hn ltac:(lia) (if 0 <? a then <[cn_RewardAddr node := a]> shares else shares) (rem - a))
        as (shares' & rem' & -> & H1 & H2 & H3 & H4 & H5).
      * destruct (0 <? a); [|done]. apply Forall_forall. intros n Hin. rewrite lookup_insert_ne.
        -- by eapply Forall_forall in Hss.
        -- intros Heq. apply Hnode. rewrite Heq. by apply list_elem_of_fmap_2.
      * destruct (0 <? a); [|done]. by apply map_Forall_insert_2.
      * exists shares', rem'. split_and!; [done| |done|lia|nia|lia].
        rewrite H1. destruct (0 <? a) eqn:Ea; bool_to_prop; [rewrite total_insert by done|]; lia.
    + destruct (IH Hn ltac:(lia) shares rem Hss Hp) as (shares' & rem' & -> & H1 & H2 & H3 & H4 & H5).
      exists shares', rem'. rewrite Z.max_l by lia. split_and!; [done|done|done|lia|lia|]. intros. apply H5. lia.
Qed.

(** Staking information that can be used: none, or a well-formed one. *)
Definition usable (stakingInfo : option StakingInfo) : Prop :=
  forall si, stakingInfo = Some si -> staking_ok si /\ sumZ (si_CouncilStakingAmounts si) < 2 ^ 64.

Lemma calcShares_ok stakingInfo reward minStake : usable stakingInfo -> 0 <= reward -> 0 <= minStake ->
  exists shares rem, calcShares stakingInfo reward minStake = Ok (shares, rem) /\
    total shares + rem = reward /\ 0 <= rem <= reward /\ all_nonneg shares.
Proof.
  intros Hu Hr Hm. destruct stakingInfo as [si|]; simpl.
  - destruct (Hu si eq_refl) as [Hs Hsum].
    destruct (consolidation_total si Hs Hsum) as (c & -> & Hn & Hpos & Htot). cbn [liftGo mbind res_bind].
    pose proof (effective_range minStake (cs_nodes c) Hm Hpos) as He.
    rewrite totalStakes_ok by (done || lia). rewrite Z.add_0_l.
    destruct (sharesLoop_ok reward minStake (effective minStake (cs_nodes c)) (cs_nodes c) Hr (proj1 He) Hn
      (fun H => H) ∅ reward) as (shares & rem & -> & H1 & H2 & H3 & H4 & H5).
    { apply Forall_forall. intros. apply lookup_empty. }
    { apply map_Forall_empty. }
    exists shares, rem. rewrite total_empty in H1. split_and!; [done|lia| |lia|done].
    destruct (decide (effective minStake (cs_nodes c) = 0)) as [Hz|Hz]; [|nia].
    rewrite (H5 Hz). lia.
  - exists ∅, reward. rewrite total_empty. split_and!; [done|lia|lia|lia|apply map_Forall_empty].
Qed.

(** ** Blocks *)

(** Parameters whose ratios parse and add up; amounts are not negative. *)
Record params_ok (rules : Rules) (pset : GovParamSet) : Prop := {
  po_ratio : exists cn kif kef, parseRewardRatio (ps_Ratio pset) = Ok (cn, kif, kef, cn + kif + kef) /\
    0 <= cn /\ 0 <= kif /\ 0 <= kef /\ 0 < cn + kif + kef;
  po_kip82 : IsKore rules = true ->
    exists p st, parseRewardKip82Ratio (ps_Kip82Ratio pset) = Ok (p, st, p + st) /\ 0 <= p /\ 0 <= st /\ 0 < p + st;
  po_minting : 0 <= ps_MintingAmount pset;
  po_price : 0 <= ps_UnitPrice pset
}.

(** Blocks: gas and fees are not negative, gas is within [int64], and there is a base fee
    after Magma. *)
Record block_ok (header : Header) (txs : list Transaction) (receipts : list Z) (rules : Rules) : Prop := {
  bo_gas : 0 <= h_GasUsed header;
  bo_base : forall fee, h_BaseFee header = Some fee -> 0 <= fee;
  bo_magma : IsMagma rules = true -> is_Some (h_BaseFee header);
  bo_txs : Forall (fun tx => 0 <= tx_GasTipCap tx) txs;
  bo_receipts : Forall (fun g => 0 <= g < 2 ^ 63) receipts
}.

Lemma tips_nonneg baseFee txs : Forall (fun tx => 0 <= tx_GasTipCap tx) txs -> forall receipts,
  Forall (fun g => 0 <= g < 2 ^ 63) receipts -> 0 <= tips baseFee txs receipts.
Proof.
  induction 1 as [|tx txs Htx _ IH]; intros receipts Hr; [done|].
  destruct Hr as [|g receipts Hg Hr]; [done|].
  specialize (IH _ Hr). unfold tips, sumZ in *. csimpl.
  assert (i64 g = g) as ->. { unfold i64. rewrite Z.mod_small; lia. }
  assert (0 <= EffectiveGasTip tx baseFee) by (unfold EffectiveGasTip; destruct baseFee; lia). nia.
Qed.

Lemma GetTotalTxFee_ok header txs receipts rules pset :
  block_ok header txs receipts rules -> 0 <= ps_UnitPrice pset ->
  exists fee, GetTotalTxFee header txs receipts rules pset = Ok fee /\ 0 <= fee.
Proof.
  intros [Hg Hb Hm Ht Hr] Hp. unfold GetTotalTxFee.
  assert (exists f, (if IsMagma rules then match h_BaseFee header with Some baseFee => mret (h_GasUsed header * baseFee)
      | None => Panic end else mret (h_GasUsed header * ps_UnitPrice pset)) = Ok (E := rewardError) f /\ 0 <= f) as (f & -> & Hf).
  { destruct (IsMagma rules); [|eexists; split; [done|nia]].
    destruct (Hm eq_refl) as [bf Hbf]. rewrite Hbf. eexists. split; [done|]. specialize (Hb _ Hbf). nia. }
  cbn [mbind res_bind]. pose proof (tips_nonneg (h_BaseFee header) txs Ht receipts Hr).
  destruct (negb (IsKaia rules)); [by eexists|]. destruct (negb _); eexists; (split; [done|]); lia.
Qed.

(** The configuration of a usable block. *)
Lemma NewRewardConfig_ok header txs receipts rules pset :
  params_ok rules pset -> block_ok header txs receipts rules ->
  exists rc, NewRewardConfig header txs receipts rules pset = Ok rc /\ ratios_ok rc /\ 0 <= rc_totalFee rc /\
    rc_rules rc = rules /\ rc_mintingAmount rc = ps_MintingAmount pset /\ rc_deferredTxFee rc = ps_DeferredTxFee pset /\
    GetTotalTxFee header txs receipts rules pset = Ok (rc_totalFee rc).
Proof.
  intros [(cn & kif & kef & Hr & ? & ? & ? & ?) Hk Hm Hp] Hb. unfold NewRewardConfig. rewrite Hr. cbn [mbind res_bind].
  destruct (GetTotalTxFee_ok header txs receipts rules pset Hb Hp) as (fee & Hfee & Hf). rewrite Hfee.
  destruct (IsKore rules) eqn:E.
  - destruct (Hk eq_refl) as (p & st & Hkip & ? & ? & ?). rewrite Hkip. cbn [mbind res_bind].
    eexists. split; [done|]. split_and!; try done.
  - cbn [mbind res_bind mret res_ret]. eexists. split; [done|]. split_and!; try done. split; simpl; try done.
    rewrite E. done.
Qed.

(** What the fields of a reward must satisfy: everything minted and not burnt is paid out,
    to the recipients the fields say, and no amount is negative. *)
Record conserved (spec : RewardSpec) : Prop := {
  cv_fields : Minted spec + TotalFee spec - BurntFee spec = Proposer spec + Stakers spec + KIF spec + KEF spec;
  cv_rewards : total (Rewards spec) = Proposer spec + Stakers spec + KIF spec + KEF spec;
  cv_nonneg : 0 <= Proposer spec /\ 0 <= Stakers spec /\ 0 <= KIF spec /\ 0 <= KEF spec;
  cv_amounts : all_nonneg (Rewards spec);
  cv_burnt : 0 <= BurntFee spec <= TotalFee spec
}.

Lemma CalcDeferredRewardSimple_ok header txs receipts rules pset :
  params_ok rules pset -> block_ok header txs receipts rules ->
  exists spec, CalcDeferredRewardSimple header txs receipts rules pset = Ok spec /\ conserved spec /\
    Minted spec = ps_MintingAmount pset /\
    (ps_DeferredTxFee pset = false -> IsMagma rules = true -> TotalFee spec = 0 /\ BurntFee spec = 0).
Proof.
  intros Hp Hb. destruct (NewRewardConfig_ok _ _ _ _ _ Hp Hb) as (rc & Hrc & _ & Hf & Hru & Hm & Hd & _).
  unfold CalcDeferredRewardSimple. rewrite Hrc. cbn [mbind res_bind]. rewrite Hru, Hd, Hm.
  pose proof (po_minting _ _ Hp) as Hmint.
  destruct (negb (ps_DeferredTxFee pset) && IsMagma rules) eqn:E.
  - eexists. split; [done|]. split; [|done]. split; simpl; try lia.
    + rewrite total_increment, total_empty. lia.
    + apply nonneg_increment; [apply map_Forall_empty|done].
  - pose proof (Z.div_pos (rc_totalFee rc) 2 Hf). pose proof (Z.mul_div_le (rc_totalFee rc) 2).
    set (burnt := if IsMagma rules then getBurnAmountMagma (rc_totalFee rc) else 0).
    assert (0 <= burnt <= rc_totalFee rc) by (unfold burnt, getBurnAmountMagma; destruct (IsMagma rules); lia).
    eexists. split; [done|]. split.
    + split; simpl; try lia; [rewrite total_increment, total_empty; lia|].
      apply nonneg_increment; [apply map_Forall_empty|lia].
    + split; [done|]. intros Hd' Hm'. by rewrite Hd', Hm' in E.
Qed.

Lemma payFund_total addr amount m :
  total (payFund addr amount m) = total m + (match addr with Some _ => amount | None => 0 end).
Proof. destruct addr; simpl; [apply total_increment|lia]. Qed.

Lemma payFund_nonneg addr amount m : all_nonneg m -> 0 <= amount -> all_nonneg (payFund addr amount m).
Proof. destruct addr; simpl; [apply nonneg_increment|done]. Qed.

Lemma CalcDeferredReward_ok stakingInfo header txs receipts rules pset :
  params_ok rules pset -> block_ok header txs receipts rules -> usable stakingInfo ->
  exists spec, CalcDeferredReward stakingInfo header txs receipts rules pset = Ok spec /\ conserved spec /\
    Minted spec = ps_MintingAmount pset /\
    (ps_DeferredTxFee pset = false -> TotalFee spec = 0 /\ BurntFee spec = 0).
Proof.
  intros Hp Hb Hu. destruct (NewRewardConfig_ok _ _ _ _ _ Hp Hb) as (rc & Hrc & Hr & Hf & Hru & Hm & Hd & _).
  unfold CalcDeferredReward. rewrite Hrc. cbn [mbind res_bind]. pose proof (po_minting _ _ Hp) as Hmint. rewrite <- Hm in Hmint.
  assert (Hdef : rc_deferredTxFee rc = false -> calcDeferredFee rc = Ok (0, 0, 0)) by (unfold calcDeferredFee; by intros ->).
  destruct (calcDeferredFee_ok rc Hr Hf Hmint) as (t & r & b & Hfee & Ht & Hr0 & Hb0). rewrite Hfee in Hdef |- *. cbn [mbind res_bind].
  destruct (calcSplit_ok rc (rc_mintingAmount rc) r Hr Hmint Hr0) as (p & st & kif & kef & rem & -> & Hsum & ? & ? & ? & ? & ?).
  cbn [mbind res_bind].
  destruct (calcShares_ok stakingInfo st (u64 (rc_minimumStake rc)) Hu) as (shares & srem & -> & Hsh & ? & Hns); [done|apply u64_range|].
  cbn [mbind res_bind].
  destruct (fundAddr si_KIFAddr stakingInfo) as [kifA|]; destruct (fundAddr si_KEFAddr stakingInfo) as [kefA|];
    (eexists; split; [done|]; split; [|split; [done|intros Hfalse; rewrite Hd in Hdef; specialize (Hdef Hfalse); simpl; split; congruence]]);
    (split; simpl; try lia;
      [rewrite total_incrementAll, total_to_list, ?payFund_total, !total_increment, total_empty; lia
      |apply nonneg_incrementAll; [repeat (apply payFund_nonneg || apply nonneg_increment); try lia; apply map_Forall_empty
                                  |by apply nonneg_to_list]]).
Qed.


Lemma GetTotalReward_ok header txs receipts rules pset :
  params_ok rules pset -> block_ok header txs receipts rules ->
  exists t, GetTotalReward header txs receipts rules pset = Ok t /\ 0 <= tr_Minted t /\ 0 <= tr_BurntFee t.
Proof.
  intros Hp Hb. destruct (NewRewardConfig_ok _ _ _ _ _ Hp Hb) as (rc & Hrc & Hr & Hf & Hru & Hm & Hd & Hfee).
  pose proof (po_minting _ _ Hp) as Hmint. unfold GetTotalReward. rewrite Hrc. cbn [mbind res_bind].
  set (calc := if IsRewardSimple pset then _ else _).
  assert (exists t, calc = Ok t /\ 0 <= tr_Minted t /\ 0 <= tr_BurntFee t) as (t & -> & H1 & H2).
  { unfold calc. destruct (IsRewardSimple pset).
    - destruct (CalcDeferredRewardSimple_ok _ _ _ _ _ Hp Hb) as (spec & -> & [_ _ _ _ Hbt] & Hmt & _). eexists.
      split; [done|]. simpl. lia.
    - rewrite <- Hm in Hmint. destruct (calcDeferredFee_ok rc Hr Hf Hmint) as (t & r & b & -> & _ & _ & ?). by eexists. }
  cbn [mbind res_bind]. destruct (negb (rc_deferredTxFee rc) && IsMagma rules); [|by eexists].
  rewrite Hfee. cbn [mbind res_bind]. eexists. split; [done|]. simpl. unfold getBurnAmountMagma.
  pose proof (Z.div_pos (rc_totalFee rc) 2 Hf). lia.
Qed.

(** The short computation used for the total supply agrees with the full one: whenever
    the reward of a block can be computed, [GetTotalReward] succeeds and reports the same
    minted amount and the same burnt fees. *)
Theorem total_reward_agrees (signer : option Address) (stakingInfo : option StakingInfo) (header : Header)
    (txs : list Transaction) (receipts : list Z) (rules : Rules) (pset : GovParamSet) (spec : RewardSpec) :
  GetBlockReward signer stakingInfo header txs receipts rules pset = Ok spec ->
  GetTotalReward header txs receipts rules pset = Ok (mkTotal (Minted spec) (BurntFee spec)).
Proof.
  unfold GetBlockReward, GetTotalReward. intros (sp & Hcalc & Hrest)%bind_ok.
  unfold CalcDeferredRewardSimple, CalcDeferredReward in *.
  destruct (NewRewardConfig header txs receipts rules pset) as [rc| | |] eqn:Hrc; [|by destruct (IsRewardSimple pset)..].
  assert (Hf : rc_rules rc = rules /\ rc_deferredTxFee rc = ps_DeferredTxFee pset).
  { unfold NewRewardConfig in Hrc. apply bind_ok in Hrc as ([[[cn kif] kef] t] & _ & Hrc).
    apply bind_ok in Hrc as ([[p st] ct] & _ & Hrc). apply bind_ok in Hrc as (fee & _ & Hrc).
    by injection Hrc as <-. }
  destruct Hf as [Hru Hd]. cbn [mbind res_bind] in *. rewrite Hru, Hd in *.
  assert (Hsp : (if IsRewardSimple pset then
      mret (mkTotal (Minted sp) (BurntFee sp)) else
      '(_, _, burntFee) ← calcDeferredFee rc; mret (mkTotal (rc_mintingAmount rc) burntFee)) =
      Ok (E := rewardError) (mkTotal (Minted sp) (BurntFee sp)) /\
      (ps_DeferredTxFee pset = false -> IsMagma rules = true -> BurntFee sp = 0)).
  { destruct (IsRewardSimple pset).
    - split; [done|]. intros Hd0 Hmg. rewrite Hd0, Hmg in Hcalc. by injection Hcalc as <-.
    - apply bind_ok in Hcalc as ([[t r] b] & Hfee & Hcalc). rewrite Hfee. cbn [mbind res_bind].
      apply bind_ok in Hcalc as ([[[[p st] kif] kef] rem] & _ & Hcalc). apply bind_ok in Hcalc as ([sh srem] & _ & Hcalc).
      assert (Minted sp = rc_mintingAmount rc /\ BurntFee sp = b) as [-> ->].
      { by destruct (fundAddr si_KIFAddr stakingInfo), (fundAddr si_KEFAddr stakingInfo); injection Hcalc as <-. }
      split; [done|]. intros Hd0 _. unfold calcDeferredFee in Hfee. rewrite Hd, Hd0 in Hfee. by injection Hfee as <- <- <-. }
  destruct Hsp as [Hsp Hz]. destruct (IsRewardSimple pset).
  all: try rewrite Hcalc; cbn [mbind res_bind]; rewrite ?Hsp; cbn [mbind res_bind mret res_ret].
  all: destruct (ps_DeferredTxFee pset); cbn [negb andb] in *; [by injection Hrest as <-|].
  all: destruct (IsMagma rules); apply bind_ok in Hrest as (fee & Hfee & Hrest);
    [rewrite Hfee; injection Hrest as <-; cbn [mbind res_bind mret res_ret]; simpl; by rewrite Hz
    |destruct signer; [by injection Hrest as <-|done]].
Qed.

(** ** Accepted ratios *)

Lemma digitsValue_nonneg s : forall acc n, 0 <= acc -> digitsValue acc s = Some n -> 0 <= n.
Proof.
  induction s as [|c s IH]; simpl; intros acc n Ha H; [by injection H as <-|].
  destruct ((48 <=? c) && (c <=? 57)) eqn:E; [|done]. bool_to_prop. apply IH in H; lia.
Qed.

Lemma ParseUint_range s n : ParseUint s = Some n -> 0 <= n < 2 ^ 64.
Proof.
  unfold ParseUint. destruct s as [|c s]; [done|]. destruct (digitsValue 0 (c :: s)) as [m|] eqn:E; [|done].
  simpl. destruct (m <? 2 ^ 64) eqn:Hm; [|done]. intros [= <-]. bool_to_prop. split; [|done].
  by apply digitsValue_nonneg in E.
Qed.

Lemma ParseInt_range s n : ParseInt s = Some n -> - 2 ^ 63 <= n < 2 ^ 63.
Proof.
  assert (Hpos : forall t m, (n ← ParseUint t; if n <? 2 ^ 63 then Some n else None) = Some m -> - 2 ^ 63 <= m < 2 ^ 63).
  { intros t m. destruct (ParseUint t) as [k|] eqn:E; [|done]. simpl. destruct (k <? 2 ^ 63) eqn:Hk; [|done].
    intros [= <-]. bool_to_prop. apply ParseUint_range in E. lia. }
  assert (Hneg : forall t m, (n ← ParseUint t; if n <=? 2 ^ 63 then Some (- n) else None) = Some m -> - 2 ^ 63 <= m < 2 ^ 63).
  { intros t m. destruct (ParseUint t) as [k|] eqn:E; [|done]. simpl. destruct (k <=? 2 ^ 63) eqn:Hk; [|done].
    intros [= <-]. bool_to_prop. apply ParseUint_range in E. lia. }
  unfold ParseInt. intros H. repeat case_match; first [by eapply Hpos|by eapply Hneg].
Qed.

Lemma i64_add x y : i64 (i64 x + y) = i64 (x + y).
Proof.
  unfold i64. f_equal. replace ((x + 2 ^ 63) mod 2 ^ 64 - 2 ^ 63 + y + 2 ^ 63) with ((x + 2 ^ 63) mod 2 ^ 64 + y) by lia.
  rewrite Zplus_mod_idemp_l. f_equal. lia.
Qed.

Lemma i64_hundred x : 0 <= x < 3 * 2 ^ 63 -> i64 x = 100 -> x = 100 \/ x = 2 ^ 64 + 100.
Proof.
  intros Hx H. unfold i64 in H. assert (Hm : (x + 2 ^ 63) mod 2 ^ 64 = 2 ^ 63 + 100) by lia.
  pose proof (Z.div_mod (x + 2 ^ 63) (2 ^ 64) ltac:(lia)) as Hd. rewrite Hm in Hd.
  assert (0 <= (x + 2 ^ 63) / 2 ^ 64 < 3) by (split; [apply Z.div_pos; lia|apply Z.div_lt_upper_bound; lia]). lia.
Qed.

(** What the parameter check accepts: a ratio string that passes the validation of
    parameter sets parses into three parts, none of them negative and with the wrapped sum
    100; the true sum is 100, or 2^64 + 100 when the addition overflowed. *)
Theorem accepted_ratio (r : bytes) :
  govParamTypeRatio r = true ->
  exists cn kif kef, parseRewardRatio r = Ok (cn, kif, kef, 100) /\ 0 <= cn /\ 0 <= kif /\ 0 <= kef /\
    (cn + kif + kef = 100 \/ cn + kif + kef = 2 ^ 64 + 100).
Proof.
  unfold govParamTypeRatio, validateRatioOf, parseRewardRatio.
  destruct (splitAt 47 r) as [|a [|b [|c [|d l]]]]; try done. cbn [length Nat.eqb negb intSum].
  destruct (ParseInt a) as [cn|] eqn:Ha; [|done]. destruct (ParseInt b) as [kif|] eqn:Hb; [|simpl; by destruct (cn <? 0)].
  destruct (ParseInt c) as [kef|] eqn:Hc; [|simpl; by destruct (cn <? 0), (kif <? 0)]. simpl.
  destruct (cn <? 0) eqn:E1; [done|]. destruct (kif <? 0) eqn:E2; [done|]. destruct (kef <? 0) eqn:E3; [done|].
  bool_to_prop. intros Hs. bool_to_prop.
  assert (Hi : i64 (i64 (i64 cn + kif) + kef) = i64 (cn + kif + kef)) by (rewrite i64_add, <- Z.add_assoc, i64_add; f_equal; lia).
  rewrite Z.add_0_l, Hi in Hs. rewrite i64_add.
  apply ParseInt_range in Ha, Hb, Hc. exists cn, kif, kef. rewrite Hs. split_and!; try done. apply i64_hundred; [lia|done].
Qed.


(** ** Witnesses *)

Definition demo_params : GovParamSet :=
  mkParams (codes "34/54/12") (codes "20/80") 9600000000000000000 5000000 false 25000000000 2.
Definition demo_rules : Rules := mkRules true true true.
Definition demo_header : Header := mkHeader 77 21000 (Some 25000000000) [9].

Lemma demo_params_ok : params_ok demo_rules demo_params.
Proof.
  split; try (vm_compute; discriminate).
  - exists 34, 54, 12. by split_and!.
  - intros _. exists 20, 80. by split_and!.
Qed.

Lemma demo_block_ok : block_ok demo_header [mkTx 50000000000 1] [21000] demo_rules.
Proof.
  split; simpl; first [done|by intros fee [= <-]|intros _; by eexists|by repeat constructor].
Qed.

Lemma demo_usable : usable (Some demo_staking).
Proof. intros si [= <-]. split; [apply demo_staking_ok|vm_compute; reflexivity]. Qed.


Lemma total_reward_agrees_witness :
  exists spec, GetTotalReward demo_header [mkTx 50000000000 1] [21000] demo_rules demo_params =
    Ok (mkTotal (Minted spec) (BurntFee spec)) /\ 0 < BurntFee spec.
Proof.
  destruct (GetBlockReward (Some [8]) (Some demo_staking) demo_header [mkTx 50000000000 1] [21000] demo_rules demo_params)
    as [spec| | |] eqn:E; [|vm_compute in E; discriminate..].
  exists spec. split; [apply (total_reward_agrees (Some [8]) (Some demo_staking)); exact E|].
  vm_compute in E. injection E as <-. reflexivity.
Defined.

Lemma accepted_ratio_witness :
  exists cn kif kef, parseRewardRatio (codes "34/54/12") = Ok (cn, kif, kef, 100).
Proof.
  destruct (accepted_ratio (codes "34/54/12")) as (cn & kif & kef & H & _); [vm_compute; reflexivity|]. eauto.
Defined.

End Reward.
