(* ===== verification/Supply.v ===== *)
(** * Total supply

    [reward/supply_manager.go]: the background task that accumulates minted coins and burnt
    fees block by block, stores the sums at checkpoints, and answers queries for the total
    supply.  The chain is a parameter of each step, so are the balances of the burn
    addresses and the memos of the rebalancing contracts. *)

From S2P Require Import Prelude Staking Reward.

Module Supply.
Import Staking Reward.

(** ** Data *)

(** [database.AccReward]; big integers are stored as their magnitude. *)
Record AccReward := mkAcc { ar_Minted : Z; ar_BurntFee : Z }.
Definition storedAcc (a : AccReward) : AccReward := mkAcc (Z.abs (ar_Minted a)) (Z.abs (ar_BurntFee a)).

Inductive supplyError :=
| errSupplyManagerQuit
| errNoAccReward
| errNoCanonicalBurn
| errNoRebalanceBurn
| errNoParams
| errGenesis
| errReward (e : rewardError).

(** What the manager reads from the chain at a block number, and whether it was told to
    quit before that block. *)
Record Chain := mkChain {
  ch_header : Z -> option Header;
  ch_txs : Z -> list Transaction;
  ch_receipts : Z -> list Z;
  ch_rules : Z -> Rules;
  ch_params : Z -> option GovParamSet;
  ch_genesisSupply : option Z;
  ch_quit : Z -> bool
}.

(** [supplyManager]: the database, the caches, and the variables [lastNum] and
    [lastAccReward] of [catchup] while it runs. *)
Record supplyManager := mkManager {
  sm_checkpointInterval : Z;
  sm_db : gmap Z AccReward;
  sm_dbLast : Z;
  sm_accRewardCache : gmap Z AccReward;
  sm_memoCache : gmap Address (option Z);
  sm_loop : option (Z * AccReward)
}.

Definition setDb (db : gmap Z AccReward) (last : Z) (sm : supplyManager) : supplyManager :=
  mkManager (sm_checkpointInterval sm) db last (sm_accRewardCache sm) (sm_memoCache sm) (sm_loop sm).
Definition setCache (c : gmap Z AccReward) (sm : supplyManager) : supplyManager :=
  mkManager (sm_checkpointInterval sm) (sm_db sm) (sm_dbLast sm) c (sm_memoCache sm) (sm_loop sm).
Definition setMemo (c : gmap Address (option Z)) (sm : supplyManager) : supplyManager :=
  mkManager (sm_checkpointInterval sm) (sm_db sm) (sm_dbLast sm) (sm_accRewardCache sm) c (sm_loop sm).
Definition setLoop (l : option (Z * AccReward)) (sm : supplyManager) : supplyManager :=
  mkManager (sm_checkpointInterval sm) (sm_db sm) (sm_dbLast sm) (sm_accRewardCache sm) (sm_memoCache sm) l.

(** [WriteAccReward] and [WriteLastAccRewardBlockNumber]. *)
Definition WriteAccReward (num : Z) (a : AccReward) (sm : supplyManager) : supplyManager :=
  setDb (<[num := storedAcc a]> (sm_db sm)) (sm_dbLast sm) sm.
Definition WriteLastAccRewardBlockNumber (num : Z) (sm : supplyManager) : supplyManager :=
  setDb (sm_db sm) num sm.

(** ** Accumulation *)

(** The rewards of one block. *)
Definition blockTotal (ch : Chain) (num : Z) : res supplyError TotalReward :=
  match ch_header ch num with
  | None => Panic
  | Some header =>
      match ch_params ch num with
      | None => Err errNoParams
      | Some pset =>
          match GetTotalReward header (ch_txs ch num) (ch_receipts ch num) (ch_rules ch num) pset with
          | Ok t => Ok t
          | Err e => Err (errReward e)
          | Panic => Panic
          | NoFuel => NoFuel
          end
      end
  end.

(** One block of [accumulateReward]: the sums, stored in the cache and at checkpoints in the
    database.  An interval of zero is a division by zero. *)
Definition accumulateBlock (ch : Chain) (num : Z) (acc : AccReward) (sm : supplyManager)
    : res supplyError (AccReward * supplyManager) :=
  if ch_quit ch num then Err errSupplyManagerQuit
  else
    t ← blockTotal ch num;
    let acc := mkAcc (ar_Minted acc + tr_Minted t) (ar_BurntFee acc + tr_BurntFee t) in
    let sm := setCache (<[num := acc]> (sm_accRewardCache sm)) sm in
    if sm_checkpointInterval sm =? 0 then Panic
    else mret (acc, if num mod sm_checkpointInterval sm =? 0
                    then WriteLastAccRewardBlockNumber num (WriteAccReward num acc sm) else sm).

(** The loop of [accumulateReward] over [n] blocks from [num] on: what was stored before an
    error stays stored. *)
Fixpoint accumulateLoop (ch : Chain) (n : nat) (num : Z) (acc : AccReward) (sm : supplyManager)
    : res supplyError AccReward * supplyManager :=
  match n with
  | O => (Ok acc, sm)
  | S n =>
      match accumulateBlock ch num acc sm with
      | Ok (acc, sm) => accumulateLoop ch n (num + 1) acc sm
      | Err e => (Err e, sm)
      | Panic => (Panic, sm)
      | NoFuel => (NoFuel, sm)
      end
  end.
Definition accumulateReward (ch : Chain) (from to : Z) (fromAcc : AccReward) (sm : supplyManager)
    : res supplyError AccReward * supplyManager :=
  accumulateLoop ch (Z.to_nat (to - from)) (from + 1) fromAcc sm.

(** ** [catchup] *)

(** The start of [catchup]: a missing entry for the last block resets to genesis, the
    genesis supply is stored, and the loop variables are read back. *)
Definition catchupStart (ch : Chain) (sm : supplyManager) : res supplyError supplyManager :=
  let sm := if (0 <? sm_dbLast sm) && bool_decide (sm_db sm !! sm_dbLast sm = None)
            then WriteLastAccRewardBlockNumber 0 sm else sm in
  sm ← (if sm_dbLast sm =? 0 then
          match ch_genesisSupply ch with
          | None => Err errGenesis
          | Some g => mret (WriteLastAccRewardBlockNumber 0 (WriteAccReward 0 (mkAcc g 0) sm))
          end
        else mret sm);
  match sm_db sm !! sm_dbLast sm with
  | Some a => mret (setLoop (Some (sm_dbLast sm, a)) sm)
  | None => Panic
  end.

(** One round of the first loop, towards the head as it is now; the loop ends the task on an
    error. *)
Definition bigStep (ch : Chain) (headNum : Z) (sm : supplyManager) : supplyManager :=
  match sm_loop sm with
  | None => sm
  | Some (lastNum, lastAcc) =>
      if lastNum <? headNum then
        let '(r, sm) := accumulateReward ch lastNum headNum lastAcc sm in
        match r with
        | Ok acc => setLoop (Some (headNum, acc)) sm
        | _ => setLoop None sm
        end
      else sm
  end.

(** One chain head event in the second loop. *)
Definition headEvent (ch : Chain) (headNum : Z) (sm : supplyManager) : supplyManager :=
  match sm_loop sm with
  | None => sm
  | Some (lastNum, lastAcc) =>
      let '(r, sm) := accumulateReward ch lastNum headNum lastAcc sm in
      match r with
      | Ok acc => setLoop (Some (headNum, acc)) sm
      | _ => setLoop None sm
      end
  end.

(** ** Queries *)

(** [GetAccReward]. *)
Definition GetAccReward (num : Z) (sm : supplyManager) : res supplyError AccReward * supplyManager :=
  match sm_accRewardCache sm !! num with
  | Some a => (Ok a, sm)
  | None =>
      if sm_dbLast sm <? num then (Err errNoAccReward, sm)
      else match sm_db sm !! num with
           | None => (Err errNoAccReward, sm)
           | Some a => (Ok a, setCache (<[num := a]> (sm_accRewardCache sm)) sm)
           end
  end.

(** The state of the chain a query reads: the balances of the two burn addresses, and the
    amount in the memo of a rebalancing contract ([None] when there is no readable memo,
    [Some None] when the memo has no amount). *)
Record BurnView := mkBurnView {
  bv_canonical : Z -> option (Z * Z);
  bv_memo : Address -> option (option Z);
  bv_kip103 : option Z * Address;
  bv_kip160 : option Z * Address
}.

(** [GetRebalanceBurn]. *)
Definition GetRebalanceBurn (bv : BurnView) (num : Z) (fork : option Z * Address) (sm : supplyManager)
    : res supplyError (option Z) * supplyManager :=
  let configured := match fork.1 with
                    | None => false
                    | Some n => negb (n =? 0) && negb (bool_decide (fork.2 = emptyAddr)) && (n <=? num)
                    end in
  if negb configured then (Ok (Some 0), sm)
  else match sm_memoCache sm !! fork.2 with
       | Some burnt => (Ok burnt, sm)
       | None =>
           match bv_memo bv fork.2 with
           | None => (Err errNoRebalanceBurn, sm)
           | Some burnt => (Ok burnt, setMemo (<[fork.2 := burnt]> (sm_memoCache sm)) sm)
           end
       end.

(** [TotalSupply]; nil amounts are [None]. *)
Record TotalSupply := mkSupply {
  ts_TotalSupply : option Z;
  ts_TotalMinted : Z;
  ts_TotalBurnt : option Z;
  ts_BurntFee : Z;
  ts_ZeroBurn : option Z;
  ts_DeadBurn : option Z;
  ts_Kip103Burn : option Z;
  ts_Kip160Burn : option Z
}.

(** [GetTotalSupply]: the supply and the errors joined to it. *)
Definition GetTotalSupply (bv : BurnView) (num : Z) (sm : supplyManager)
    : res supplyError (TotalSupply * list supplyError) * supplyManager :=
  let '(r, sm) := GetAccReward num sm in
  match r with
  | Ok acc =>
      let '(zero, dead, errs) := match bv_canonical bv num with
                                 | Some (z, d) => (Some z, Some d, [])
                                 | None => (None, None, [errNoCanonicalBurn])
                                 end in
      let '(r103, sm) := GetRebalanceBurn bv num (bv_kip103 bv) sm in
      let '(r160, sm) := GetRebalanceBurn bv num (bv_kip160 bv) sm in
      let amount r := match r with Ok b => b | _ => None end in
      let errors r := match r with Err e => [e] | _ => [] end in
      let burnt := z ← zero; d ← dead; b103 ← amount r103; b160 ← amount r160;
                   Some (ar_BurntFee acc + z + d + b103 + b160) in
      (Ok (mkSupply ((fun b => ar_Minted acc - b) <$> burnt) (ar_Minted acc) burnt (ar_BurntFee acc) zero dead
             (amount r103) (amount r160),
           errs ++ errors r103 ++ errors r160), sm)
  | Err e => (Err e, sm)
  | Panic => (Panic, sm)
  | NoFuel => (NoFuel, sm)
  end.

(** ** Runs *)

(** [NewSupplyManager] on an existing database. *)
Definition NewSupplyManager (interval : Z) (db : gmap Z AccReward) (last : Z) : supplyManager :=
  mkManager interval db last ∅ ∅ None.

(** A run of the manager on a chain whose head does not go back: the start of [catchup], its
    loops, queries, evictions from the cache, and a restart of the node (only the database
    survives). *)
Inductive step (ch : Chain) : supplyManager -> supplyManager -> Prop :=
| step_start sm sm' : catchupStart ch sm = Ok sm' -> step ch sm sm'
| step_big headNum sm : step ch sm (bigStep ch headNum sm)
| step_head headNum sm : (forall n a, sm_loop sm = Some (n, a) -> n <= headNum) -> step ch sm (headEvent ch headNum sm)
| step_query bv num sm r sm' : GetTotalSupply bv num sm = (r, sm') -> step ch sm sm'
| step_evict num sm : step ch sm (setCache (base.delete num (sm_accRewardCache sm)) sm)
| step_restart sm : step ch sm (NewSupplyManager (sm_checkpointInterval sm) (sm_db sm) (sm_dbLast sm)).

Inductive reachable (ch : Chain) (interval : Z) : supplyManager -> Prop :=
| reach_new : reachable ch interval (NewSupplyManager interval ∅ 0)
| reach_step sm sm' : reachable ch interval sm -> step ch sm sm' -> reachable ch interval sm'.

(** ** What the sums should be *)

(** The genesis supply and the rewards of the first [n] blocks; [None] when the reward of
    one of them cannot be computed. *)
Fixpoint supplyAt (ch : Chain) (genesis : Z) (n : nat) : option AccReward :=
  match n with
  | O => Some (mkAcc genesis 0)
  | S m =>
      a ← supplyAt ch genesis m;
      match blockTotal ch (Z.of_nat n) with
      | Ok t => Some (mkAcc (ar_Minted a + tr_Minted t) (ar_BurntFee a + tr_BurntFee t))
      | _ => None
      end
  end.

Section runs.
Context (ch : Chain) (genesis interval : Z).
Hypothesis genesis_supply : ch_genesisSupply ch = Some genesis.
Hypothesis genesis_nonneg : 0 <= genesis.
Hypothesis blocks_ok : forall num header pset, ch_header ch num = Some header -> ch_params ch num = Some pset ->
  params_ok (ch_rules ch num) pset /\ block_ok header (ch_txs ch num) (ch_receipts ch num) (ch_rules ch num).

(** [a] is the sum at block [n]. *)
Definition right (n : Z) (a : AccReward) : Prop := 0 <= n /\ supplyAt ch genesis (Z.to_nat n) = Some a.

Lemma blockTotal_nonneg num t : blockTotal ch num = Ok t -> 0 <= tr_Minted t /\ 0 <= tr_BurntFee t.
Proof using blocks_ok.
  unfold blockTotal. destruct (ch_header ch num) as [h|] eqn:Hh; [|done].
  destruct (ch_params ch num) as [pset|] eqn:Hp; [|done]. destruct (blocks_ok _ _ _ Hh Hp) as [Hpo Hbo].
  destruct (GetTotalReward_ok h _ _ _ _ Hpo Hbo) as (t' & -> & ? & ?). by intros [= <-].
Qed.

Lemma right_nonneg n a : right n a -> storedAcc a = a.
Proof using genesis_nonneg blocks_ok.
  intros [_ Ha]. assert (Hn : forall k b, supplyAt ch genesis k = Some b -> 0 <= ar_Minted b /\ 0 <= ar_BurntFee b).
  { clear -genesis_nonneg blocks_ok. induction k as [|k IH]; intros b; cbn [supplyAt]; [by intros [= <-]|].
    destruct (supplyAt ch genesis k) as [a|]; [|done]. cbn [mbind option_bind].
    destruct (blockTotal ch _) as [t| | |] eqn:Ht; try done. apply blockTotal_nonneg in Ht. destruct (IH a eq_refl).
    intros [= <-]. simpl. lia. }
  destruct (Hn _ _ Ha) as [H1 H2]. destruct a. unfold storedAcc. simpl in *. by rewrite !Z.abs_eq.
Qed.

Lemma right_next n a t : right n a -> blockTotal ch (n + 1) = Ok t ->
  right (n + 1) (mkAcc (ar_Minted a + tr_Minted t) (ar_BurntFee a + tr_BurntFee t)).
Proof using Type.
  intros [Hn Ha] Ht. split; [lia|]. replace (Z.to_nat (n + 1)) with (S (Z.to_nat n)) by lia. cbn [supplyAt].
  rewrite Ha. cbn [mbind option_bind]. replace (Z.of_nat (S (Z.to_nat n))) with (n + 1) by lia. by rewrite Ht.
Qed.

(** Every stored sum is right. *)
Record sound (sm : supplyManager) : Prop := {
  so_cache : forall n a, sm_accRewardCache sm !! n = Some a -> right n a;
  so_db : forall n a, sm_db sm !! n = Some a -> right n a;
  so_loop : forall n a, sm_loop sm = Some (n, a) -> right n a;
  so_last : 0 <= sm_dbLast sm
}.

Lemma sound_cache n a sm : sound sm -> right n a -> sound (setCache (<[n := a]> (sm_accRewardCache sm)) sm).
Proof using Type.
  intros [H1 H2 H3 H4] Ha. split; simpl; try done. intros m b. rewrite lookup_insert. case_decide; [|apply H1].
  intros [= <-]. by subst.
Qed.

Lemma sound_write n a sm : sound sm -> right n a -> sound (WriteLastAccRewardBlockNumber n (WriteAccReward n a sm)).
Proof using genesis_nonneg blocks_ok.
  intros [H1 H2 H3 H4] Ha. split; simpl; try done.
  - intros m b. rewrite lookup_insert. case_decide; [|apply H2]. intros [= <-]. subst. by rewrite (right_nonneg _ _ Ha).
  - apply Ha.
Qed.

Lemma sound_setLoop l sm : sound sm -> (forall n a, l = Some (n, a) -> right n a) -> sound (setLoop l sm).
Proof using Type. intros [H1 H2 H3 H4] Hl. by split. Qed.

Lemma accumulateBlock_sound n acc sm acc' sm' : sound sm -> right n acc ->
  accumulateBlock ch (n + 1) acc sm = Ok (acc', sm') -> sound sm' /\ right (n + 1) acc'.
Proof using genesis_nonneg blocks_ok.
  intros Hs Ha. unfold accumulateBlock. destruct (ch_quit ch (n + 1)); [done|].
  intros (t & Ht & H)%bind_ok. pose proof (right_next _ _ _ Ha Ht) as Hr.
  set (acc1 := mkAcc _ _) in *. pose proof (sound_cache _ _ sm Hs Hr) as Hs1.
  destruct (_ =? 0); [done|]. injection H as <- <-. split; [|done].
  destruct (_ =? 0); [by apply sound_write|done].
Qed.

Lemma accumulateLoop_sound k : forall n acc sm r sm', sound sm -> right n acc ->
  accumulateLoop ch k (n + 1) acc sm = (r, sm') ->
  sound sm' /\ forall a, r = Ok a -> right (n + Z.of_nat k) a.
Proof using genesis_nonneg blocks_ok.
  induction k as [|k IH]; intros n acc sm r sm' Hs Ha H; cbn [accumulateLoop] in H.
  - injection H as <- <-. split; [done|]. intros a [= <-]. by rewrite Z.add_0_r.
  - destruct (accumulateBlock ch (n + 1) acc sm) as [[acc1 sm1]| | |] eqn:E; try (injection H as <- <-; by split).
    destruct (accumulateBlock_sound _ _ _ _ _ Hs Ha E) as [Hs1 Ha1].
    destruct (IH _ _ _ _ _ Hs1 Ha1 H) as [Hs' Hr]. split; [done|]. intros a Hra.
    replace (n + Z.of_nat (S k)) with (n + 1 + Z.of_nat k) by lia. by apply Hr.
Qed.

Lemma advance_sound n acc headNum sm r sm' : sound sm -> sm_loop sm = Some (n, acc) -> n <= headNum ->
  accumulateReward ch n headNum acc sm = (r, sm') ->
  sound (match r with Ok a => setLoop (Some (headNum, a)) sm' | _ => setLoop None sm' end).
Proof using genesis_nonneg blocks_ok.
  intros Hs Hl Hle H. unfold accumulateReward in H.
  destruct (accumulateLoop_sound _ _ _ _ _ _ Hs (so_loop _ Hs _ _ Hl) H) as [Hs' Hr].
  destruct r; apply sound_setLoop; try done. intros m b [= <- <-].
  replace headNum with (n + Z.of_nat (Z.to_nat (headNum - n))) by lia. by apply Hr.
Qed.

Lemma GetAccReward_sound num sm r sm' : sound sm -> GetAccReward num sm = (r, sm') ->
  sound sm' /\ forall a, r = Ok a -> right num a.
Proof using Type.
  intros Hs. unfold GetAccReward. destruct (sm_accRewardCache sm !! num) as [a|] eqn:Ha.
  - intros [= <- <-]. split; [done|]. intros b [= <-]. by apply (so_cache _ Hs).
  - destruct (sm_dbLast sm <? num); [by intros [= <- <-]|].
    destruct (sm_db sm !! num) as [a|] eqn:Hd; [|by intros [= <- <-]]. apply (so_db _ Hs) in Hd.
    intros [= <- <-]. split; [by apply sound_cache|]. by intros b [= <-].
Qed.

Lemma GetRebalanceBurn_sound bv num fork sm r sm' : sound sm -> GetRebalanceBurn bv num fork sm = (r, sm') -> sound sm'.
Proof using Type.
  intros [H1 H2 H3 H4]. unfold GetRebalanceBurn. destruct (negb _); [by intros [= <- <-]|].
  destruct (sm_memoCache sm !! fork.2); [by intros [= <- <-]|].
  destruct (bv_memo bv fork.2); intros [= <- <-]; by split.
Qed.

Lemma GetTotalSupply_sound bv num sm r sm' : sound sm -> GetTotalSupply bv num sm = (r, sm') -> sound sm'.
Proof using Type.
  intros Hs. unfold GetTotalSupply. destruct (GetAccReward num sm) as [ra sm1] eqn:E1.
  destruct (GetAccReward_sound _ _ _ _ Hs E1) as [Hs1 _].
  destruct ra as [acc|e| |]; [|by intros [= <- <-]..].
  destruct (match bv_canonical bv num with Some (z, d) => _ | None => _ end) as [[zero dead] errs].
  destruct (GetRebalanceBurn bv num (bv_kip103 bv) sm1) as [r103 sm2] eqn:E2.
  destruct (GetRebalanceBurn bv num (bv_kip160 bv) sm2) as [r160 sm3] eqn:E3.
  intros [= <- <-]. eapply GetRebalanceBurn_sound; [|done]. by eapply GetRebalanceBurn_sound.
Qed.

Lemma catchupStart_sound sm sm' : sound sm -> catchupStart ch sm = Ok sm' -> sound sm'.
Proof using genesis_supply genesis_nonneg blocks_ok.
  intros Hs. unfold catchupStart. rewrite genesis_supply.
  set (sm1 := if _ && _ then _ else sm). assert (Hs1 : sound sm1).
  { unfold sm1. destruct (_ && _); [|done]. destruct Hs as [H1 H2 H3 H4]. by split. }
  assert (H0 : right 0 (mkAcc genesis 0)) by done.
  intros (sm2 & H2 & H)%bind_ok. assert (Hs2 : sound sm2).
  { destruct (sm_dbLast sm1 =? 0); injection H2 as <-; [by apply sound_write|done]. }
  destruct (sm_db sm2 !! sm_dbLast sm2) as [a|] eqn:Ha; [|done]. injection H as <-.
  apply sound_setLoop; [done|]. intros n b [= <- <-]. by apply (so_db _ Hs2).
Qed.

Lemma step_sound sm sm' : sound sm -> step ch sm sm' -> sound sm'.
Proof using genesis_supply genesis_nonneg blocks_ok.
  intros Hs Hst. revert Hs. destruct Hst as [sm0 sm1 H|headNum sm0|headNum sm0 Hle|bv num sm0 r sm1 H|num sm0|sm0]; intros Hs.
  - by apply (catchupStart_sound sm0).
  - unfold bigStep. destruct (sm_loop sm0) as [[n acc]|] eqn:Hl; [|done].
    destruct (n <? headNum) eqn:E; [|done]. bool_to_prop.
    destruct (accumulateReward ch n headNum acc sm0) as [r sm1] eqn:Ha. eapply advance_sound; try done. lia.
  - unfold headEvent. destruct (sm_loop sm0) as [[n acc]|] eqn:Hl; [|done].
    destruct (accumulateReward ch n headNum acc sm0) as [r sm1] eqn:Ha. eapply advance_sound; try done. by eapply Hle.
  - by eapply GetTotalSupply_sound.
  - destruct Hs as [H1 H2 H3 H4]. split; simpl; try done. intros n a [_ Hn]%lookup_delete_Some. by apply H1.
  - destruct Hs as [H1 H2 H3 H4]. split; simpl; try done.
Qed.

Lemma reachable_sound sm : reachable ch interval sm -> sound sm.
Proof using genesis_supply genesis_nonneg blocks_ok. induction 1; [by split|]. by eapply step_sound. Qed.

(** ** Progress *)

(** What adding the blocks between two sums to [acc] gives. *)
Definition shift (acc a0 a : AccReward) : AccReward :=
  mkAcc (ar_Minted acc + (ar_Minted a - ar_Minted a0)) (ar_BurntFee acc + (ar_BurntFee a - ar_BurntFee a0)).

Lemma shift_id a0 a : shift a0 a0 a = a.
Proof using Type. destruct a. unfold shift. simpl. f_equal; lia. Qed.

Lemma supplyAt_prefix k : forall n a, (n <= k)%nat -> supplyAt ch genesis k = Some a -> is_Some (supplyAt ch genesis n).
Proof using Type.
  induction k as [|k IH]; intros n a Hn Ha; [assert (n = 0%nat) as -> by lia; eauto|].
  destruct (decide (n = S k)) as [->|]; [eauto|]. cbn [supplyAt] in Ha.
  destruct (supplyAt ch genesis k) as [b|] eqn:Hb; [|done]. apply (IH n b); [lia|done].
Qed.

(** The loop over blocks that can be computed: it ends with their sum, and has cached each
    partial sum. *)
Lemma accumulateLoop_runs k : forall n acc sm a0 a,
  right n a0 -> right (n + Z.of_nat k) a -> sm_checkpointInterval sm <> 0 -> (forall m, ch_quit ch m = false) ->
  exists sm', accumulateLoop ch k (n + 1) acc sm = (Ok (shift acc a0 a), sm') /\
    (forall i ai, n < i <= n + Z.of_nat k -> right i ai -> sm_accRewardCache sm' !! i = Some (shift acc a0 ai)) /\
    (forall i, i <= n -> sm_accRewardCache sm' !! i = sm_accRewardCache sm !! i) /\
    sm_checkpointInterval sm' = sm_checkpointInterval sm.
Proof using Type.
  induction k as [|k IH]; intros n acc sm a0 a Ha0 Ha Hi Hq; cbn [accumulateLoop].
  - exists sm. rewrite Z.add_0_r in Ha. destruct Ha0 as [_ Ha0], Ha as [_ Ha]. rewrite Ha0 in Ha. injection Ha as <-.
    split_and!; try done; [|intros; lia]. f_equal. f_equal. unfold shift. destruct acc. f_equal; simpl; lia.
  - destruct Ha0 as [Hn Ha0]. destruct Ha as [_ Ha].
    destruct (supplyAt_prefix (Z.to_nat (n + Z.of_nat (S k))) (Z.to_nat (n + 1)) a ltac:(lia) Ha) as [a1 Ha1].
    assert (Hr1 : right (n + 1) a1) by (split; [lia|done]). replace (Z.to_nat (n + 1)) with (S (Z.to_nat n)) in Ha1 by lia.
    cbn [supplyAt] in Ha1. rewrite Ha0 in Ha1. cbn [mbind option_bind] in Ha1.
    replace (Z.of_nat (S (Z.to_nat n))) with (n + 1) in Ha1 by lia.
    destruct (blockTotal ch (n + 1)) as [t| | |] eqn:Ht; try done. injection Ha1 as Ha1.
    unfold accumulateBlock. rewrite Hq, Ht. cbn [mbind res_bind]. set (acc1 := mkAcc _ _).
    rewrite (proj2 (Z.eqb_neq (sm_checkpointInterval (setCache (<[n + 1 := acc1]> (sm_accRewardCache sm)) sm)) 0) Hi).
    set (sm1 := if _ =? 0 then _ else _). cbn [mret res_ret].
    assert (Hc1 : sm_accRewardCache sm1 = <[n + 1 := acc1]> (sm_accRewardCache sm) /\
                  sm_checkpointInterval sm1 = sm_checkpointInterval sm) by (unfold sm1; by destruct (_ =? 0)).
    destruct Hc1 as [Hc1 Hi1].
    assert (Hsh : forall b, shift acc1 a1 b = shift acc a0 b).
    { intros b. unfold shift, acc1. rewrite <- Ha1. simpl. f_equal; lia. }
    assert (Ha1s : shift acc a0 a1 = acc1) by (unfold shift, acc1; rewrite <- Ha1; simpl; f_equal; lia).
    destruct (IH (n + 1) acc1 sm1 a1 a Hr1) as (sm' & -> & H1 & H2 & H3); [|congruence|done|].
    { split; [lia|]. by replace (n + 1 + Z.of_nat k) with (n + Z.of_nat (S k)) by lia. }
    exists sm'. rewrite Hsh. split_and!; [done| | |congruence].
    + intros i ai Hrange Hai. destruct (decide (i = n + 1)) as [->|].
      * rewrite H2, Hc1, lookup_insert_eq by lia. destruct Hai as [_ Hai], Hr1 as [_ Hr1].
        rewrite Hr1 in Hai. injection Hai as <-. by rewrite Ha1s.
      * rewrite (H1 i ai) by (done || lia). by rewrite Hsh.
    + intros i Hle. rewrite H2, Hc1, lookup_insert_ne by lia. done.
Qed.

(** C12. Answers are right: in every run of the manager on a chain whose head does not go
    back, through restarts, evictions and interrupted catch-ups, a query that is answered
    reports as minted and burnt exactly the genesis supply and the sums of the rewards of
    all blocks up to the one asked for, and the total supply, when there is one, is the
    minted amount less all burnt amounts. *)
Theorem supply_correct (sm : supplyManager) (bv : BurnView) (num : Z) (ts : TotalSupply) (errs : list supplyError)
    (sm' : supplyManager) :
  reachable ch interval sm -> GetTotalSupply bv num sm = (Ok (ts, errs), sm') ->
  supplyAt ch genesis (Z.to_nat num) = Some (mkAcc (ts_TotalMinted ts) (ts_BurntFee ts)) /\
  (forall total, ts_TotalSupply ts = Some total ->
     exists z d b103 b160, bv_canonical bv num = Some (z, d) /\ ts_Kip103Burn ts = Some b103 /\ ts_Kip160Burn ts = Some b160 /\
       total = ts_TotalMinted ts - (ts_BurntFee ts + z + d + b103 + b160)).
Proof using genesis_supply genesis_nonneg blocks_ok.
  intros Hs%reachable_sound. unfold GetTotalSupply. destruct (GetAccReward num sm) as [ra sm1] eqn:E1.
  destruct (GetAccReward_sound _ _ _ _ Hs E1) as [_ Ha]. destruct ra as [acc|e| |]; try done.
  destruct (Ha acc eq_refl) as [_ Hacc].
  destruct (bv_canonical bv num) as [[z d]|];
  destruct (GetRebalanceBurn bv num (bv_kip103 bv) sm1) as [r103 sm2];
  destruct (GetRebalanceBurn bv num (bv_kip160 bv) sm2) as [r160 sm3]; intros [= <- <- <-]; simpl.
  - split; [rewrite Hacc; by destruct acc|]. intros total.
    destruct (match r103 with Ok b => b | _ => None end) as [b103|]; [|done].
    destruct (match r160 with Ok b => b | _ => None end) as [b160|]; [|done].
    intros [= <-]. by exists z, d, b103, b160.
  - split; [rewrite Hacc; by destruct acc|done].
Qed.


(** A head that goes back is counted twice: after a chain head event below the last
    accumulated block (the chain was rewound), the blocks in between are added a second
    time when the chain grows again. *)
Theorem rewound_head_double_counts (sm : supplyManager) (n h : Z) (a ah : AccReward) :
  sm_loop sm = Some (n, a) -> h < n -> right n a -> right h ah ->
  sm_checkpointInterval sm <> 0 -> (forall m, ch_quit ch m = false) ->
  sm_loop (headEvent ch n (headEvent ch h sm)) =
    Some (n, mkAcc (ar_Minted a + (ar_Minted a - ar_Minted ah)) (ar_BurntFee a + (ar_BurntFee a - ar_BurntFee ah))).
Proof using Type.
  intros Hl Hlt Ha Hah Hi Hq. unfold headEvent at 2. rewrite Hl. unfold accumulateReward.
  replace (Z.to_nat (h - n)) with 0%nat by lia. cbn [accumulateLoop]. unfold headEvent. simpl. unfold accumulateReward.
  destruct (accumulateLoop_runs (Z.to_nat (n - h)) h a (setLoop (Some (h, a)) sm) ah a Hah) as (sm2 & -> & _); [|done|done|done].
  by replace (h + Z.of_nat (Z.to_nat (n - h))) with n by lia.
Qed.

End runs.

(** ** Witnesses *)

Definition demo_chain : Chain :=
  mkChain (fun n => if (0 <? n) && (n <=? 3) then Some demo_header else None) (fun _ => []) (fun _ => [])
    (fun _ => demo_rules) (fun _ => Some demo_params) (Some 1000) (fun _ => false).

Lemma demo_blocks_ok num header pset : ch_header demo_chain num = Some header -> ch_params demo_chain num = Some pset ->
  params_ok (ch_rules demo_chain num) pset /\ block_ok header (ch_txs demo_chain num) (ch_receipts demo_chain num) (ch_rules demo_chain num).
Proof.
  simpl. destruct (_ && _); [|done]. intros [= <-] [= <-]. split; [apply demo_params_ok|].
  destruct demo_block_ok as [H1 H2 H3 _ _]. by split.
Qed.

(** The manager after the start of [catchup], and at block 3. *)
Definition demo_started : supplyManager :=
  match catchupStart demo_chain (NewSupplyManager 2 ∅ 0) with Ok sm => sm | _ => NewSupplyManager 2 ∅ 0 end.
Definition demo_caught_up : supplyManager := bigStep demo_chain 3 demo_started.

Lemma demo_supply_reachable : reachable demo_chain 2 demo_caught_up.
Proof.
  eapply reach_step; [|apply step_big]. eapply reach_step; [apply reach_new|]. apply step_start. reflexivity.
Qed.

Definition demo_burns : BurnView := mkBurnView (fun _ => Some (7, 5)) (fun _ => None) (None, []) (None, []).

Lemma supply_correct_witness :
  exists ts sm', GetTotalSupply demo_burns 3 demo_caught_up = (Ok (ts, []), sm') /\
    supplyAt demo_chain 1000 3 = Some (mkAcc (ts_TotalMinted ts) (ts_BurntFee ts)).
Proof.
  destruct (GetTotalSupply demo_burns 3 demo_caught_up) as [[[ts errs]| | |] sm'] eqn:E; [|vm_compute in E; discriminate..].
  assert (errs = []) as -> by (vm_compute in E; by injection E).
  exists ts, sm'. split; [done|].
  exact (proj1 (supply_correct demo_chain 1000 2 eq_refl ltac:(lia) demo_blocks_ok demo_caught_up demo_burns 3 ts [] sm' demo_supply_reachable E)).
Defined.


Lemma rewound_head_double_counts_witness :
  exists a ah, sm_loop (headEvent demo_chain 3 (headEvent demo_chain 1 demo_caught_up)) =
    Some (3, mkAcc (ar_Minted a + (ar_Minted a - ar_Minted ah)) (ar_BurntFee a + (ar_BurntFee a - ar_BurntFee ah))) /\
    ar_Minted ah < ar_Minted a.
Proof.
  destruct (supplyAt demo_chain 1000 3) as [a|] eqn:E3; [|vm_compute in E3; discriminate].
  destruct (supplyAt demo_chain 1000 1) as [ah|] eqn:E1; [|vm_compute in E1; discriminate].
  exists a, ah. split; [|vm_compute in E3, E1; injection E3 as <-; injection E1 as <-; reflexivity].
  apply (rewound_head_double_counts demo_chain 1000 demo_caught_up 3 1 a ah).
  - vm_compute in E3 |- *. by injection E3 as <-.
  - reflexivity.
  - by split.
  - by split.
  - vm_compute. discriminate.
  - done.
Defined.

End Supply.
