(* ===== verification/EvmWord.v ===== *)
(** * 256-bit words

    The words of the virtual machine are values of a third-party package ([holiman/uint256]).
    [Uint256] is the interface of that package as the machine uses it, [Uint256Spec] its
    documented behaviour in terms of the number a word stands for, and [ZWord] an instance that
    meets it. *)

From S2P Require Import Prelude Rlp.
From Stdlib Require Import Zpow_facts.

Module Word.
Import RLP.

Definition u256 (z : Z) : Z := z mod 2 ^ 256.
(** The two's complement reading of 256 bits. *)
Definition s256 (z : Z) : Z := if z <? 2 ^ 255 then z else z - 2 ^ 256.

(** The methods of [uint256.Int]; [uv] is [ToBig].  Methods that set their receiver return the
    new value.  Offsets that do not fit 64 bits are reported by [uUint64WithOverflow]. *)
Class Uint256 := {
  W : Type;
  uv : W -> Z;
  uClear : W;
  uSetOne : W;
  uSetAllOne : W;
  uSetUint64 : Z -> W;
  uFromBig : Z -> W;
  uSetBytes : bytes -> W;
  uAdd : W -> W -> W;
  uSub : W -> W -> W;
  uMul : W -> W -> W;
  uDiv : W -> W -> W;
  uSDiv : W -> W -> W;
  uMod : W -> W -> W;
  uSMod : W -> W -> W;
  uExp : W -> W -> W;
  uExtendSign : W -> W -> W;
  uAddMod : W -> W -> W -> W;
  uMulMod : W -> W -> W -> W;
  uNot : W -> W;
  uAnd : W -> W -> W;
  uOr : W -> W -> W;
  uXor : W -> W -> W;
  uByte : W -> W -> W;
  uLsh : W -> Z -> W;
  uRsh : W -> Z -> W;
  uSRsh : W -> Z -> W;
  uLt : W -> W -> bool;
  uGt : W -> W -> bool;
  uSlt : W -> W -> bool;
  uSgt : W -> W -> bool;
  uEq : W -> W -> bool;
  uIsZero : W -> bool;
  uLtUint64 : W -> Z -> bool;
  uGtUint64 : W -> Z -> bool;
  uSign : W -> Z;
  uCmp : W -> W -> Z;
  uBitLen : W -> Z;
  uIsUint64 : W -> bool;
  uUint64 : W -> Z;
  uUint64WithOverflow : W -> Z * bool;
  uBytes20 : W -> bytes;
  uBytes32 : W -> bytes
}.

(** The documented behaviour. *)
Class Uint256Spec `{Uint256} := {
  uv_range x : 0 <= uv x < 2 ^ 256;
  uClear_spec : uv uClear = 0;
  uSetOne_spec : uv uSetOne = 1;
  uSetAllOne_spec : uv uSetAllOne = 2 ^ 256 - 1;
  uSetUint64_spec z : is_u64 z -> uv (uSetUint64 z) = z;
  uFromBig_spec z : uv (uFromBig z) = u256 z;
  uSetBytes_spec b : is_bytes b -> uv (uSetBytes b) = u256 (from_be b);
  uAdd_spec x y : uv (uAdd x y) = u256 (uv x + uv y);
  uSub_spec x y : uv (uSub x y) = u256 (uv x - uv y);
  uMul_spec x y : uv (uMul x y) = u256 (uv x * uv y);
  uDiv_spec x y : uv (uDiv x y) = if uv y =? 0 then 0 else uv x / uv y;
  uMod_spec x y : uv (uMod x y) = if uv y =? 0 then 0 else uv x mod uv y;
  uSDiv_spec x y : uv (uSDiv x y) = if uv y =? 0 then 0 else u256 (Z.quot (s256 (uv x)) (s256 (uv y)));
  uSMod_spec x y : uv (uSMod x y) = if uv y =? 0 then 0 else u256 (Z.rem (s256 (uv x)) (s256 (uv y)));
  uExp_spec x y : uv (uExp x y) = u256 (uv x ^ uv y);
  uAddMod_spec x y m : uv (uAddMod x y m) = if uv m =? 0 then 0 else (uv x + uv y) mod uv m;
  uMulMod_spec x y m : uv (uMulMod x y m) = if uv m =? 0 then 0 else (uv x * uv y) mod uv m;
  uNot_spec x : uv (uNot x) = 2 ^ 256 - 1 - uv x;
  uAnd_spec x y : uv (uAnd x y) = Z.land (uv x) (uv y);
  uOr_spec x y : uv (uOr x y) = Z.lor (uv x) (uv y);
  uXor_spec x y : uv (uXor x y) = Z.lxor (uv x) (uv y);
  uByte_spec x n : uv (uByte x n) = if uv n <? 32 then (uv x / 256 ^ (31 - uv n)) mod 256 else 0;
  uLsh_spec x n : 0 <= n -> uv (uLsh x n) = u256 (uv x * 2 ^ n);
  uRsh_spec x n : 0 <= n -> uv (uRsh x n) = uv x / 2 ^ n;
  uSRsh_spec x n : 0 <= n -> uv (uSRsh x n) = u256 (s256 (uv x) / 2 ^ n);
  uLt_spec x y : uLt x y = (uv x <? uv y);
  uGt_spec x y : uGt x y = (uv y <? uv x);
  uSlt_spec x y : uSlt x y = (s256 (uv x) <? s256 (uv y));
  uSgt_spec x y : uSgt x y = (s256 (uv y) <? s256 (uv x));
  uEq_spec x y : uEq x y = (uv x =? uv y);
  uIsZero_spec x : uIsZero x = (uv x =? 0);
  uLtUint64_spec x n : uLtUint64 x n = (uv x <? n);
  uGtUint64_spec x n : uGtUint64 x n = (n <? uv x);
  uSign_spec x : uSign x = Z.sgn (s256 (uv x));
  uCmp_spec x y : uCmp x y = Z.sgn (uv x - uv y);
  uBitLen_spec x : uBitLen x = if uv x =? 0 then 0 else Z.log2 (uv x) + 1;
  uIsUint64_spec x : uIsUint64 x = (uv x <? 2 ^ 64);
  uUint64_spec x : uUint64 x = u64 (uv x);
  uUint64WithOverflow_spec x : uUint64WithOverflow x = (u64 (uv x), negb (uv x <? 2 ^ 64));
  uExtendSign_spec x n : uv (uExtendSign x n) =
    if uv n <? 31 then let k := 8 * (uv n + 1) in
      let low := uv x mod 2 ^ k in u256 (if Z.testbit (uv x) (k - 1) then low - 2 ^ k else low)
    else uv x;
  uBytes20_spec x : uBytes20 x = be 20 (uv x);
  uBytes32_spec x : uBytes32 x = be 32 (uv x)
}.

(** An instance: integers read modulo 2^256. *)
Definition ofZ (z : Z) : Z := u256 z.
#[export] Instance ZWord : Uint256 := {|
  W := Z; uv := u256; uClear := 0; uSetOne := 1; uSetAllOne := 2 ^ 256 - 1;
  uSetUint64 := ofZ; uFromBig := ofZ; uSetBytes b := ofZ (from_be b);
  uAdd x y := ofZ (u256 x + u256 y);
  uSub x y := ofZ (u256 x - u256 y);
  uMul x y := ofZ (u256 x * u256 y);
  uDiv x y := if u256 y =? 0 then 0 else u256 x / u256 y;
  uSDiv x y := if u256 y =? 0 then 0 else ofZ (Z.quot (s256 (u256 x)) (s256 (u256 y)));
  uMod x y := if u256 y =? 0 then 0 else u256 x mod u256 y;
  uSMod x y := if u256 y =? 0 then 0 else ofZ (Z.rem (s256 (u256 x)) (s256 (u256 y)));
  uExp x y := Zpow_mod (u256 x) (u256 y) (2 ^ 256);
  uExtendSign x n :=
    if u256 n <? 31 then let k := 8 * (u256 n + 1) in
      let low := u256 x mod 2 ^ k in ofZ (if Z.testbit (u256 x) (k - 1) then low - 2 ^ k else low)
    else u256 x;
  uAddMod x y m := if u256 m =? 0 then 0 else (u256 x + u256 y) mod u256 m;
  uMulMod x y m := if u256 m =? 0 then 0 else (u256 x * u256 y) mod u256 m;
  uNot x := 2 ^ 256 - 1 - u256 x;
  uAnd x y := Z.land (u256 x) (u256 y);
  uOr x y := Z.lor (u256 x) (u256 y);
  uXor x y := Z.lxor (u256 x) (u256 y);
  uByte x n := if u256 n <? 32 then (u256 x / 256 ^ (31 - u256 n)) mod 256 else 0;
  uLsh x n := ofZ (u256 x * 2 ^ n);
  uRsh x n := u256 x / 2 ^ n;
  uSRsh x n := ofZ (s256 (u256 x) / 2 ^ n);
  uLt x y := u256 x <? u256 y;
  uGt x y := u256 y <? u256 x;
  uSlt x y := s256 (u256 x) <? s256 (u256 y);
  uSgt x y := s256 (u256 y) <? s256 (u256 x);
  uEq x y := u256 x =? u256 y;
  uIsZero x := u256 x =? 0;
  uLtUint64 x n := u256 x <? n;
  uGtUint64 x n := n <? u256 x;
  uSign x := Z.sgn (s256 (u256 x));
  uCmp x y := Z.sgn (u256 x - u256 y);
  uBitLen x := if u256 x =? 0 then 0 else Z.log2 (u256 x) + 1;
  uIsUint64 x := u256 x <? 2 ^ 64;
  uUint64 x := u64 (u256 x);
  uUint64WithOverflow x := (u64 (u256 x), negb (u256 x <? 2 ^ 64));
  uBytes20 x := be 20 (u256 x);
  uBytes32 x := be 32 (u256 x)
|}.

(** ** Ranges *)

Lemma u256_range z : 0 <= u256 z < 2 ^ 256.
Proof. apply Z.mod_pos_bound. lia. Qed.
Lemma u256_small z : 0 <= z < 2 ^ 256 -> u256 z = z.
Proof. apply Z.mod_small. Qed.
Lemma u256_twice z : u256 (u256 z) = u256 z.
Proof. apply u256_small, u256_range. Qed.

Lemma log2_land_small k x y : 0 <= k -> 0 <= x < 2 ^ k -> 0 <= y < 2 ^ k ->
  0 <= Z.land x y < 2 ^ k /\ 0 <= Z.lor x y < 2 ^ k /\ 0 <= Z.lxor x y < 2 ^ k.
Proof.
  intros Hk Hx Hy.
  assert (forall z, 0 <= z -> (forall n, k <= n -> Z.testbit z n = false) -> 0 <= z < 2 ^ k) as Hz.
  { intros z H0 Hz. assert (z mod 2 ^ k = z) as <-; [|apply Z.mod_pos_bound; lia]. apply Z.bits_inj'. intros n Hn.
    destruct (decide (n < k)); [by rewrite Z.mod_pow2_bits_low|]. rewrite Z.mod_pow2_bits_high by lia.
    symmetry. apply Hz. lia. }
  split_and!; apply Hz; try (apply Z.land_nonneg || apply Z.lor_nonneg || apply Z.lxor_nonneg); try lia;
    intros n Hn; rewrite ?Z.land_spec, ?Z.lor_spec, ?Z.lxor_spec, (testbit_small x k n), (testbit_small y k n); done || lia.
Qed.

Lemma mod_le_u256 x m : 0 < m < 2 ^ 256 -> u256 (x mod m) = x mod m.
Proof. intros Hm. apply u256_small. pose proof (Z.mod_pos_bound x m). lia. Qed.

(** The instance meets the documented behaviour. *)
#[export] Instance ZWordSpec : @Uint256Spec ZWord.
Proof.
  split; cbn [uv uClear uSetOne uSetAllOne uSetUint64 uFromBig uSetBytes uAdd uSub uMul uDiv uSDiv uMod uSMod uExp
    uExtendSign uAddMod uMulMod uNot uAnd uOr uXor uByte uLsh uRsh uSRsh uLt uGt uSlt uSgt uEq uIsZero uLtUint64
    uGtUint64 uSign uCmp uBitLen uIsUint64 uUint64 uUint64WithOverflow uBytes20 uBytes32 ZWord]; intros;
    unfold ofZ; try done; try apply u256_twice;
    repeat match goal with x : W |- _ => change Z in (type of x); pose proof (u256_range x); generalize dependent x end; intros.
  - apply u256_range.
  - rewrite u256_twice. apply u256_small. unfold is_u64 in *. lia.
  - destruct (Z.eqb_spec (u256 y) 0); [done|]. apply u256_small. split; [apply Z.div_pos; lia|].
    apply Z.div_lt_upper_bound; nia.
  - destruct (Z.eqb_spec (u256 y) 0); [done|]. apply mod_le_u256. lia.
  - destruct (Z.eqb_spec (u256 y) 0); [done|]. apply u256_twice.
  - destruct (Z.eqb_spec (u256 y) 0); [done|]. apply u256_twice.
  - rewrite Zpow_mod_correct by lia. apply u256_twice.
  - destruct (Z.eqb_spec (u256 m) 0); [done|]. apply mod_le_u256. lia.
  - destruct (Z.eqb_spec (u256 m) 0); [done|]. apply mod_le_u256. lia.
  - apply u256_small. lia.
  - apply u256_small, log2_land_small; lia.
  - apply u256_small, log2_land_small; lia.
  - apply u256_small, log2_land_small; lia.
  - destruct (u256 n <? 32); [|done]. apply mod_le_u256. lia.
  - apply u256_small. split; [apply Z.div_pos; lia|]. apply Z.div_lt_upper_bound; [lia|].
    assert (0 < 2 ^ n) by lia. nia.
  - destruct (u256 n <? 31); apply u256_twice.
Qed.

(** ** Numbers below 2^64 *)

Section words.
Context `{Uint256Spec}.

Lemma uUint64_small x : uv x < 2 ^ 64 -> uUint64 x = uv x.
Proof. intros Hx. rewrite uUint64_spec. apply u64_small. pose proof (uv_range x). unfold is_u64. lia. Qed.

Lemma uUint64_range x : is_u64 (uUint64 x).
Proof. rewrite uUint64_spec. apply u64_range. Qed.

Lemma uBitLen_bound x : 0 <= uBitLen x <= 256.
Proof.
  rewrite uBitLen_spec. pose proof (uv_range x). destruct (Z.eqb_spec (uv x) 0); [lia|].
  pose proof (Z.log2_nonneg (uv x)). assert (Z.log2 (uv x) < 256) by (apply Z.log2_lt_pow2; lia). lia.
Qed.

Lemma uBytes20_length x : length (uBytes20 x) = 20%nat.
Proof. rewrite uBytes20_spec. apply be_length. Qed.
Lemma uBytes32_length x : length (uBytes32 x) = 32%nat.
Proof. rewrite uBytes32_spec. apply be_length. Qed.
End words.
End Word.
