(* ===== verification/EvmCode.v ===== *)
(** * Jump destination analysis

    Model of [blockchain/vm/analysis.go]: the bit vector that marks the bytes of a contract that
    are the operands of PUSH instructions, and the proof that the others are exactly the bytes
    where an instruction starts. *)

From S2P Require Import Prelude.

Module Code.

(** ** Opcodes the analysis looks at *)

Definition JUMPDEST : Z := 91.
Definition PUSH1 : Z := 96.
Definition PUSH32 : Z := 127.

(** ** Bit vectors *)

Abbreviation bitvec := bytes (only parsing).

(** [set]: one bit, the most significant of a byte first. *)
Definition set {E} (bits : bitvec) (pos : Z) : res E bitvec :=
  b ← index bits (Z.to_nat (pos / 8));
  store bits (Z.to_nat (pos / 8)) (Z.lor b (Z.shiftr 128 (pos mod 8))).

(** [set8]: eight bits from [pos] on, over two bytes. *)
Definition set8 {E} (bits : bitvec) (pos : Z) : res E bitvec :=
  b ← index bits (Z.to_nat (pos / 8));
  bits ← store bits (Z.to_nat (pos / 8)) (Z.lor b (Z.shiftr 255 (pos mod 8)));
  b ← index bits (Z.to_nat (pos / 8 + 1));
  store bits (Z.to_nat (pos / 8 + 1)) (Z.lor b (Z.lxor 255 (Z.shiftr 255 (pos mod 8)))).

Definition codeSegment {E} (bits : bitvec) (pos : Z) : res E bool :=
  b ← index bits (Z.to_nat (pos / 8));
  mret (Z.land b (Z.shiftr 128 (pos mod 8)) =? 0).

(** The two loops that mark the operand of a PUSH. *)
Fixpoint mark8 {E} (fuel : nat) (numbits pc : Z) (bits : bitvec) : res E (Z * Z * bitvec) :=
  match fuel with
  | O => NoFuel
  | S fuel =>
      if 8 <=? numbits then bits ← set8 bits pc; mark8 fuel (numbits - 8) (u64 (pc + 8)) bits
      else mret (numbits, pc, bits)
  end.
Fixpoint mark1 {E} (fuel : nat) (numbits pc : Z) (bits : bitvec) : res E (Z * bitvec) :=
  match fuel with
  | O => NoFuel
  | S fuel =>
      if 0 <? numbits then bits ← set bits pc; mark1 fuel (numbits - 1) (u64 (pc + 1)) bits
      else mret (pc, bits)
  end.

Fixpoint bitmapLoop {E} (fuel : nat) (code : bytes) (pc : Z) (bits : bitvec) : res E bitvec :=
  match fuel with
  | O => NoFuel
  | S fuel =>
      if pc <? u64 (len code) then
        op ← index code (Z.to_nat pc);
        if (PUSH1 <=? op) && (op <=? PUSH32) then
          r ← mark8 5 (op - PUSH1 + 1) (u64 (pc + 1)) bits;
          let '(numbits, pc, bits) := (r : Z * Z * bitvec) in
          r ← mark1 8 numbits pc bits;
          let '(pc, bits) := (r : Z * bitvec) in
          bitmapLoop fuel code pc bits
        else bitmapLoop fuel code (u64 (pc + 1)) bits
      else mret bits
  end.

(** [codeBitmap]: four bytes more than needed, for a PUSH32 at the end. *)
Definition codeBitmap {E} (code : bytes) : res E bitvec :=
  bitmapLoop (S (length code)) code 0 (replicate (Z.to_nat (len code / 8 + 1 + 4)) 0).

(** ** Where instructions start *)

(** The operand bytes of an instruction. *)
Definition operand (op : Z) : Z := if (PUSH1 <=? op) && (op <=? PUSH32) then op - PUSH1 + 1 else 0.

(** The positions reached from the start by going from each instruction to the next. *)
Inductive starts (code : bytes) : Z -> Prop :=
| starts_first : starts code 0
| starts_next p op : starts code p -> code !! Z.to_nat p = Some op -> starts code (p + 1 + operand op).

(** ** Bits of a vector *)

Definition bit (bits : bitvec) (p : Z) : bool :=
  match bits !! Z.to_nat (p / 8) with Some b => Z.testbit b (7 - p mod 8) | None => false end.
Definition covers (bits : bitvec) (p : Z) : Prop := 0 <= p /\ p / 8 < len bits.

Lemma covers_lookup bits p : covers bits p -> exists b, bits !! Z.to_nat (p / 8) = Some b.
Proof. intros [H0 H1]. apply lookup_lt_is_Some. unfold len in H1. pose proof (Z.div_pos p 8). lia. Qed.

Lemma testbit_128 k m : 0 <= k <= 7 -> 0 <= m <= 7 -> Z.testbit (Z.shiftr 128 k) (7 - m) = (k =? m).
Proof.
  intros Hk Hm. rewrite Z.shiftr_spec by lia. change 128 with (2 ^ 7). rewrite Z.pow2_bits_eqb by lia.
  destruct (Z.eqb_spec k m), (Z.eqb_spec 7 (7 - m + k)); done || lia.
Qed.
Lemma testbit_255 k m : 0 <= k <= 7 -> 0 <= m <= 7 -> Z.testbit (Z.shiftr 255 k) (7 - m) = (k <=? m).
Proof.
  intros Hk Hm. rewrite Z.shiftr_spec by lia. change 255 with (Z.ones 8).
  destruct (Z.leb_spec k m); [apply Z.ones_spec_low; lia|apply Z.ones_spec_high; lia].
Qed.

Lemma codeSegment_bit {E} bits p : covers bits p -> codeSegment (E:=E) bits p = Ok (negb (bit bits p)).
Proof.
  intros Hc. pose proof (Z.mod_pos_bound p 8 ltac:(lia)) as Hm. destruct (covers_lookup bits p Hc) as [b Hb].
  unfold codeSegment, bit. rewrite (index_lookup _ _ _ Hb), Hb. cbn [mbind res_bind mret res_ret]. f_equal.
  destruct (Z.testbit b (7 - p mod 8)) eqn:Ht; cbn [negb].
  - apply Z.eqb_neq. intros Hz. apply (f_equal (fun z => Z.testbit z (7 - p mod 8))) in Hz. revert Hz.
    rewrite Z.land_spec, Ht, testbit_128, Z.eqb_refl, Z.bits_0 by lia. done.
  - apply Z.eqb_eq. apply Z.bits_inj'. intros n Hn. rewrite Z.land_spec, Z.bits_0.
    destruct (decide (n <= 7)) as [Hn7|].
    + replace n with (7 - (7 - n)) by lia. rewrite testbit_128 by lia. destruct (Z.eqb_spec (p mod 8) (7 - n)) as [He|]; [|apply andb_false_r].
      rewrite <- He. by rewrite Ht.
    + rewrite Z.shiftr_spec by lia. change 128 with (2 ^ 7). rewrite Z.pow2_bits_false by lia. apply andb_false_r.
Qed.

(** Writing one byte of the vector. *)
Lemma bit_insert bits i b p : (i < length bits)%nat -> 0 <= p ->
  bit (<[i:=b]> bits) p = if p / 8 =? Z.of_nat i then Z.testbit b (7 - p mod 8) else bit bits p.
Proof.
  intros Hi Hp. pose proof (Z.div_pos p 8). unfold bit. destruct (Z.eqb_spec (p / 8) (Z.of_nat i)) as [->|Hne].
  - by rewrite Nat2Z.id, list_lookup_insert_eq.
  - rewrite list_lookup_insert_ne by lia. done.
Qed.

(** [set] sets the bit and no other. *)
Lemma set_spec {E} bits pos : covers bits pos -> exists bits', set (E:=E) bits pos = Ok bits' /\ length bits' = length bits /\
  forall p, 0 <= p -> bit bits' p = bit bits p || (p =? pos).
Proof.
  intros Hc. destruct (covers_lookup bits pos Hc) as [b Hb]. destruct Hc as [H0 Hc]. unfold len in Hc.
  unfold set. rewrite (index_lookup _ _ _ Hb). cbn [mbind res_bind]. pose proof (Z.div_pos pos 8).
  rewrite store_lt by lia. eexists. split; [done|]. split; [by rewrite length_insert|]. intros p Hp.
  rewrite bit_insert by lia. rewrite Z2Nat.id by lia.
  pose proof (Z.mod_pos_bound p 8 ltac:(lia)). pose proof (Z.mod_pos_bound pos 8 ltac:(lia)).
  pose proof (Z.div_mod p 8 ltac:(lia)). pose proof (Z.div_mod pos 8 ltac:(lia)).
  destruct (Z.eqb_spec (p / 8) (pos / 8)) as [He|Hne].
  - rewrite Z.lor_spec, testbit_128 by lia. unfold bit. rewrite He, Hb. f_equal.
    destruct (Z.eqb_spec (pos mod 8) (p mod 8)), (Z.eqb_spec p pos); done || lia.
  - destruct (Z.eqb_spec p pos) as [->|]; [done|]. by rewrite orb_false_r.
Qed.

(** [set8] sets eight bits and no other. *)
Lemma set8_spec {E} bits pos : 0 <= pos -> pos / 8 + 1 < len bits -> exists bits', set8 (E:=E) bits pos = Ok bits' /\
  length bits' = length bits /\ forall p, 0 <= p -> bit bits' p = bit bits p || ((pos <=? p) && (p <? pos + 8)).
Proof.
  intros H0 Hc. unfold len in Hc. pose proof (Z.div_pos pos 8). unfold set8.
  destruct (lookup_lt_is_Some_2 bits (Z.to_nat (pos / 8))) as [b Hb]; [lia|]. rewrite (index_lookup _ _ _ Hb). cbn [mbind res_bind].
  rewrite store_lt by lia. cbn [mbind res_bind]. set (bits1 := <[_ := _]> bits).
  destruct (lookup_lt_is_Some_2 bits1 (Z.to_nat (pos / 8 + 1))) as [c Hcl]; [unfold bits1; rewrite length_insert; lia|].
  rewrite (index_lookup _ _ _ Hcl). cbn [mbind res_bind]. unfold bits1 in *. rewrite list_lookup_insert_ne in Hcl by lia.
  rewrite store_lt by (rewrite length_insert; lia). eexists. split; [done|]. split; [by rewrite !length_insert|]. intros p Hp.
  rewrite bit_insert, bit_insert by (rewrite ?length_insert; lia). rewrite !Z2Nat.id by lia.
  pose proof (Z.mod_pos_bound p 8 ltac:(lia)). pose proof (Z.mod_pos_bound pos 8 ltac:(lia)).
  pose proof (Z.div_mod p 8 ltac:(lia)). pose proof (Z.div_mod pos 8 ltac:(lia)).
  destruct (Z.eqb_spec (p / 8) (pos / 8 + 1)) as [He|Hne]; [|destruct (Z.eqb_spec (p / 8) (pos / 8)) as [He|Hne']].
  - rewrite Z.lor_spec, Z.lxor_spec, testbit_255 by lia. unfold bit. rewrite He, Hcl. f_equal.
    change 255 with (Z.ones 8). rewrite Z.ones_spec_low by lia.
    destruct (Z.leb_spec (pos mod 8) (p mod 8)), (Z.leb_spec pos p), (Z.ltb_spec p (pos + 8)); done || lia.
  - rewrite Z.lor_spec, testbit_255 by lia. unfold bit. rewrite He, Hb. f_equal.
    destruct (Z.leb_spec (pos mod 8) (p mod 8)), (Z.leb_spec pos p), (Z.ltb_spec p (pos + 8)); done || lia.
  - replace ((pos <=? p) && (p <? pos + 8)) with false; [by rewrite orb_false_r|]. symmetry. apply andb_false_iff.
    destruct (Z.leb_spec pos p), (Z.ltb_spec p (pos + 8)); try (by left); try (by right). nia.
Qed.

(** ** The marking loops *)

Lemma mark8_spec {E} fuel : forall numbits pc bits, 0 <= numbits < 8 * Z.of_nat fuel -> 0 <= pc ->
  pc + numbits < 8 * len bits -> pc + numbits < 2 ^ 64 ->
  exists n' pc' bits', mark8 (E:=E) fuel numbits pc bits = Ok (n', pc', bits') /\ 0 <= n' < 8 /\ pc <= pc' /\
    pc' + n' = pc + numbits /\ length bits' = length bits /\
    forall p, 0 <= p -> bit bits' p = bit bits p || ((pc <=? p) && (p <? pc')).
Proof.
  induction fuel as [|fuel IH]; intros numbits pc bits Hn Hpc Hb Hu; [lia|]. cbn [mark8].
  destruct (Z.leb_spec 8 numbits) as [H8|H8].
  - destruct (set8_spec (E:=E) bits pc) as (b1 & -> & Hl1 & Hb1); [done| |].
    { assert (pc / 8 + 1 = (pc + 8) / 8) as -> by (symmetry; apply (Z.div_add pc 1 8); lia). apply Z.div_lt_upper_bound; lia. }
    cbn [mbind res_bind]. rewrite u64_small by (unfold is_u64; lia).
    destruct (IH (numbits - 8) (pc + 8) b1) as (n' & pc' & b' & -> & Hn' & Hle & Heq & Hl & Hb'); try lia.
    { unfold len in *. rewrite Hl1. lia. }
    exists n', pc', b'. split_and!; try done; try lia. intros p Hp. rewrite Hb', Hb1 by done. rewrite <- orb_assoc. f_equal.
    destruct (Z.leb_spec pc p), (Z.leb_spec (pc + 8) p), (Z.ltb_spec p (pc + 8)), (Z.ltb_spec p pc'); done || lia.
  - eexists _, _, _. split; [done|]. split_and!; try done; try lia. intros p Hp.
    destruct (Z.leb_spec pc p), (Z.ltb_spec p pc); rewrite ?orb_false_r; done || lia.
Qed.

Lemma mark1_spec {E} fuel : forall numbits pc bits, 0 <= numbits < Z.of_nat fuel -> 0 <= pc ->
  pc + numbits < 8 * len bits -> pc + numbits < 2 ^ 64 ->
  exists bits', mark1 (E:=E) fuel numbits pc bits = Ok (pc + numbits, bits') /\ length bits' = length bits /\
    forall p, 0 <= p -> bit bits' p = bit bits p || ((pc <=? p) && (p <? pc + numbits)).
Proof.
  induction fuel as [|fuel IH]; intros numbits pc bits Hn Hpc Hb Hu; [lia|]. cbn [mark1].
  destruct (Z.ltb_spec 0 numbits) as [H0|H0].
  - destruct (set_spec (E:=E) bits pc) as (b1 & -> & Hl1 & Hb1); [split; [done|apply Z.div_lt_upper_bound; lia]|].
    cbn [mbind res_bind]. rewrite u64_small by (unfold is_u64; lia).
    destruct (IH (numbits - 1) (pc + 1) b1) as (b' & -> & Hl & Hb'); try lia.
    { unfold len in *. rewrite Hl1. lia. }
    exists b'. replace (pc + 1 + (numbits - 1)) with (pc + numbits) in * by lia. split_and!; try done; try lia.
    intros p Hp. rewrite Hb', Hb1 by done. rewrite <- orb_assoc. f_equal.
    destruct (Z.eqb_spec p pc), (Z.leb_spec pc p), (Z.leb_spec (pc + 1) p), (Z.ltb_spec p (pc + numbits)); done || lia.
  - replace (pc + numbits) with pc by lia. eexists. split; [done|]. split; [done|]. intros p Hp.
    destruct (Z.leb_spec pc p), (Z.ltb_spec p pc); rewrite ?orb_false_r; done || lia.
Qed.

(** ** The order of the starts *)

(** The [n]-th instruction. *)
Fixpoint nth_start (code : bytes) (n : nat) : option Z :=
  match n with
  | O => Some 0
  | S n => p ← nth_start code n; op ← code !! Z.to_nat p; Some (p + 1 + operand op)
  end.

Lemma operand_range op : 0 <= operand op <= 32.
Proof. unfold operand, PUSH1, PUSH32. case_tests; lia. Qed.

Lemma starts_nth code p : starts code p <-> exists n, nth_start code n = Some p.
Proof.
  split.
  - induction 1 as [|p op _ [n Hn] Hop]; [by exists 0%nat|]. exists (S n). cbn [nth_start]. by rewrite Hn; cbn [mbind option_bind]; rewrite Hop.
  - intros [n Hn]. revert p Hn. induction n as [|n IH]; intros p; cbn [nth_start]; [intros [= <-]; constructor|].
    destruct (nth_start code n) as [q|]; [|done]. cbn [mbind option_bind]. destruct (code !! Z.to_nat q) as [op|] eqn:Hop; [|done].
    intros [= <-]. by apply starts_next; [apply IH|].
Qed.

Lemma nth_start_mono code n p : nth_start code n = Some p -> 0 <= p /\ forall m q, (n < m)%nat -> nth_start code m = Some q ->
  exists op, code !! Z.to_nat p = Some op /\ p + 1 + operand op <= q.
Proof.
  intros Hn. split.
  - revert p Hn. induction n as [|n IH]; intros p; cbn [nth_start]; [by intros [= <-]|].
    destruct (nth_start code n) as [q|]; [|done]. cbn [mbind option_bind]. destruct (code !! _) as [op|]; [|done].
    intros [= <-]. pose proof (IH q eq_refl). pose proof (operand_range op). lia.
  - induction m as [|m IH]; intros q Hm; [lia|]. cbn [nth_start]. destruct (nth_start code m) as [r|] eqn:Hr; [|done].
    cbn [mbind option_bind]. destruct (code !! Z.to_nat r) as [op|] eqn:Hop; [|done]. intros [= <-].
    destruct (decide (n = m)) as [->|]; [exists op; split; [congruence|]; assert (r = p) as -> by congruence; lia|].
    destruct (IH r) as (op' & ? & ?); [lia|done|]. exists op'. split; [done|]. pose proof (operand_range op). lia.
Qed.

Lemma starts_nonneg code p : starts code p -> 0 <= p.
Proof. intros [n Hn]%starts_nth. by apply nth_start_mono in Hn as [? _]. Qed.

Lemma nth_start_ge code n p : nth_start code n = Some p -> Z.of_nat n <= p.
Proof.
  revert p. induction n as [|n IH]; intros p; cbn [nth_start]; [by intros [= <-]|].
  destruct (nth_start code n) as [q|]; [|done]. cbn [mbind option_bind]. destruct (code !! _) as [op|]; [|done].
  intros [= <-]. specialize (IH q eq_refl). pose proof (operand_range op). lia.
Qed.

#[export] Instance starts_decision code p : Decision (starts code p).
Proof.
  refine (cast_if (decide (Exists (fun n => nth_start code n = Some p) (seq 0 (S (Z.to_nat p)))))).
  - apply starts_nth. match goal with H : Exists _ _ |- _ => apply Exists_exists in H as (k & _ & Hk) end. by exists k.
  - intros [k Hk]%starts_nth. match goal with H : ~ Exists _ _ |- _ => apply H end. apply Exists_exists. exists k.
    split; [|done]. apply elem_of_seq. pose proof (nth_start_ge code k p Hk). lia.
Defined.

(** No instruction starts inside the operand of another. *)
Lemma starts_apart code p q op : starts code p -> starts code q -> code !! Z.to_nat p = Some op -> p < q -> p + 1 + operand op <= q.
Proof.
  intros [n Hn]%starts_nth [m Hm]%starts_nth Hop Hlt. destruct (decide (n = m)) as [->|]; [assert (p = q) by congruence; lia|].
  destruct (decide (n < m)%nat).
  - destruct (nth_start_mono _ _ _ Hn) as [_ H]. destruct (H m q) as (op' & ? & ?); [done..|]. congruence.
  - destruct (nth_start_mono _ _ _ Hm) as [_ H]. destruct (H n p) as (op' & ? & ?); [lia|done|].
    pose proof (operand_range op'). lia.
Qed.

(** ** The bit map *)

Definition marked (code : bytes) (pc : Z) (bits : bitvec) : Prop :=
  forall p, 0 <= p -> bit bits p = true <-> p < pc /\ ~ starts code p.

Lemma marked_next code pc op bits bits' : starts code pc -> code !! Z.to_nat pc = Some op -> marked code pc bits ->
  (forall p, 0 <= p -> bit bits' p = bit bits p || ((pc + 1 <=? p) && (p <? pc + 1 + operand op))) ->
  marked code (pc + 1 + operand op) bits'.
Proof.
  intros Hs Hop Hm Hb p Hp. rewrite Hb, orb_true_iff, (Hm p Hp), andb_true_iff, Z.leb_le, Z.ltb_lt by done.
  pose proof (operand_range op). split.
  - intros [[? ?]|[? ?]]; (split; [lia|]); [done|]. intros Hsp. pose proof (starts_apart code pc p op Hs Hsp Hop). lia.
  - intros [Hlt Hns]. destruct (decide (p < pc)); [by left|]. right. destruct (decide (p = pc)) as [->|]; [done|]. lia.
Qed.

Lemma bitmapLoop_spec {E} code fuel : forall pc bits, len code < 2 ^ 63 -> starts code pc -> pc <= len code + 32 ->
  Z.max 0 (len code - pc) < Z.of_nat fuel -> len code + 32 < 8 * len bits -> marked code pc bits ->
  exists bits' pc', bitmapLoop (E:=E) fuel code pc bits = Ok bits' /\ length bits' = length bits /\ len code <= pc' /\
    marked code pc' bits'.
Proof.
  induction fuel as [|fuel IH]; intros pc bits Hc Hs Hpc Hf Hb Hm; [lia|]. cbn [bitmapLoop].
  pose proof (starts_nonneg code pc Hs) as H0. pose proof (len_nonneg code) as Hl.
  rewrite (u64_small (len code)) by (unfold is_u64; lia).
  destruct (Z.ltb_spec pc (len code)) as [Hlt|Hge]; [|by eexists _, pc].
  destruct (lookup_lt_is_Some_2 code (Z.to_nat pc)) as [op Hop]; [unfold len in *; lia|].
  rewrite (index_lookup _ _ _ Hop). cbn [mbind res_bind]. rewrite u64_small by (unfold is_u64; lia).
  pose proof (starts_next code pc op Hs Hop) as Hs'. pose proof (operand_range op) as Hr.
  pose proof (fun b' => marked_next code pc op bits b' Hs Hop Hm) as Hm'. revert Hs' Hr Hm'. unfold operand.
  destruct ((PUSH1 <=? op) && (op <=? PUSH32)) eqn:Hpush; intros Hs' Hr Hm'.
  - set (n := op - PUSH1 + 1) in *.
    destruct (mark8_spec (E:=E) 5 n (pc + 1) bits) as (n1 & pc1 & b1 & -> & Hn1 & Hle1 & Heq1 & Hl1 & Hb1); try lia.
    cbn [mbind res_bind].
    destruct (mark1_spec (E:=E) 8 n1 pc1 b1) as (b2 & -> & Hl2 & Hb2); try lia; [unfold len in *; rewrite Hl1; lia|].
    cbn [mbind res_bind]. rewrite Heq1. destruct (IH (pc + 1 + n) b2) as (b' & pc' & -> & Hl' & ? & ?); try done; try lia.
    { unfold len in *. rewrite Hl2, Hl1. lia. }
    { apply Hm'. intros p Hp. rewrite Hb2, Hb1 by done. rewrite <- orb_assoc. f_equal.
      destruct (Z.leb_spec (pc + 1) p), (Z.ltb_spec p pc1), (Z.leb_spec pc1 p), (Z.ltb_spec p (pc1 + n1)), (Z.ltb_spec p (pc + 1 + n));
        done || lia. }
    exists b', pc'. split_and!; congruence || done.
  - rewrite Z.add_0_r in Hs', Hm'. apply IH; try done; try lia. apply Hm'. intros p Hp.
    destruct (Z.leb_spec (pc + 1) p), (Z.ltb_spec p (pc + 1)); rewrite ?orb_false_r; done || lia.
Qed.

Lemma bit_zeroes n p : bit (replicate n 0) p = false.
Proof.
  unfold bit. destruct (replicate n 0 !! Z.to_nat (p / 8)) as [b|] eqn:Hb; [|done].
  apply lookup_replicate in Hb as [-> _]. apply Z.bits_0.
Qed.

(** The analysis of any code succeeds, its map covers the code, and the bytes it leaves unmarked
    are those where an instruction starts. *)
Lemma codeBitmap_spec {E} code : len code < 2 ^ 63 -> exists bits, codeBitmap (E:=E) code = Ok bits /\
  forall p, 0 <= p < len code -> covers bits p /\ (bit bits p = false <-> starts code p).
Proof.
  intros Hc. pose proof (len_nonneg code) as Hl. pose proof (Z.div_pos (len code) 8 Hl ltac:(lia)) as Hd.
  pose proof (Z.div_mod (len code) 8 ltac:(lia)) as Hdm. pose proof (Z.mod_pos_bound (len code) 8 ltac:(lia)) as Hmb.
  unfold codeBitmap. set (z := replicate _ 0).
  assert (len z = len code / 8 + 1 + 4) as Hz by (unfold len at 1, z; rewrite length_replicate; lia).
  destruct (bitmapLoop_spec (E:=E) code (S (length code)) 0 z) as (bits & pc' & -> & Hlen & Hpc & Hm); try done; try lia.
  { constructor. }
  { unfold len. lia. }
  { intros p Hp. unfold z. rewrite bit_zeroes. split; [done|]. lia. }
  exists bits. split; [done|]. intros p Hp. split.
  - split; [lia|]. unfold len in *. rewrite Hlen, Hz. apply Z.div_lt_upper_bound; lia.
  - pose proof (Hm p ltac:(lia)) as Hi. destruct (bit bits p).
    + split; [done|]. intros Hs. destruct Hi as [Hi _]. by destruct (Hi eq_refl).
    + split; [|done]. intros _. destruct (decide (starts code p)) as [|Hn]; [done|]. destruct Hi as [_ Hi]. discriminate Hi. split; [lia|done].
Qed.
End Code.
