(* ===== verification/EvmMem.v ===== *)
(** * The memory of a call

    Model of [blockchain/vm/memory.go] and of the helpers on byte slices of
    [blockchain/vm/common.go]: a byte slice that only grows, read and written in ranges that are
    checked by the caller. *)

From S2P Require Import Prelude Rlp EvmWord.

Module Mem.
Import RLP Word.

(** ** Slices with machine integers *)

(** [l[lo:hi]] with integer bounds. *)
Definition sliceZ {E} (l : bytes) (lo hi : Z) : res E bytes :=
  if (0 <=? lo) && (lo <=? hi) && (hi <=? len l) then Ok (take (Z.to_nat (hi - lo)) (drop (Z.to_nat lo) l)) else Panic.

(** [copy(dst[lo:hi], src)]. *)
Definition copySlice {E} (dst : bytes) (lo hi : Z) (src : bytes) : res E bytes :=
  if (0 <=? lo) && (lo <=? hi) && (hi <=? len dst) then
    let src := take (Z.to_nat (hi - lo)) src in
    Ok (take (Z.to_nat lo) dst ++ src ++ drop (Z.to_nat lo + length src) dst)
  else Panic.

(** [common.RightPadBytes] and [common.LeftPadBytes]. *)
Definition RightPadBytes (b : bytes) (l : Z) : bytes :=
  if l <=? len b then b else b ++ replicate (Z.to_nat (l - len b)) 0.
Definition LeftPadBytes (b : bytes) (l : Z) : bytes :=
  if l <=? len b then b else replicate (Z.to_nat (l - len b)) 0 ++ b.

(** [math.SafeAdd] and [math.SafeMul]: the wrapped result and whether it overflowed. *)
Definition MaxUint64 : Z := 2 ^ 64 - 1.
Definition SafeAdd (x y : Z) : Z * bool := (u64 (x + y), MaxUint64 - x <? y).
Definition SafeMul (x y : Z) : Z * bool :=
  if (x =? 0) || (y =? 0) then (0, false) else (u64 (x * y), MaxUint64 / x <? y).

(** [getData]: [size] bytes of [data] from [start] on, padded with zeroes. *)
Definition getData {E} (data : bytes) (start size : Z) : res E bytes :=
  let length := u64 (len data) in
  let start := if length <? start then length else start in
  let end_ := u64 (start + size) in
  let end_ := if length <? end_ then length else end_ in
  d ← sliceZ data start end_;
  mret (RightPadBytes d (i64 size)).

(** [toWordSize] and [allZero]. *)
Definition toWordSize (size : Z) : Z :=
  if MaxUint64 - 31 <? size then MaxUint64 / 32 + 1 else (size + 31) / 32.
Definition allZero (b : bytes) : bool := forallb (Z.eqb 0) b.

(** ** Memory *)

Record Memory := mkMemory { m_store : bytes; m_lastGasCost : Z }.
Definition NewMemory : Memory := mkMemory [] 0.
Definition Len (m : Memory) : Z := len (m_store m).
Definition setStore (b : bytes) (m : Memory) : Memory := mkMemory b (m_lastGasCost m).
Definition setLastGasCost (c : Z) (m : Memory) : Memory := mkMemory (m_store m) c.

(** [Set]: an explicit panic when the range is not allocated. *)
Definition Set_ {E} (offset size : Z) (value : bytes) (m : Memory) : res E Memory :=
  if 0 <? size then
    if u64 (Len m) <? u64 (offset + size) then Panic
    else b ← copySlice (m_store m) offset (u64 (offset + size)) value; mret (setStore b m)
  else mret m.
(** [Set32]: a word in big-endian order. *)
Definition Set32 {E} `{Uint256} (offset : Z) (val : W) (m : Memory) : res E Memory :=
  if u64 (Len m) <? u64 (offset + 32) then Panic
  else b ← copySlice (m_store m) offset (Len m) (uBytes32 val); mret (setStore b m).
(** [memory.store[off] = v] of MSTORE8. *)
Definition SetByte {E} (off v : Z) (m : Memory) : res E Memory :=
  b ← store (m_store m) (Z.to_nat off) v; mret (setStore b m).

Definition Increase (size : Z) (m : Memory) : Memory := setStore (m_store m ++ replicate (Z.to_nat size) 0) m.
Definition Resize (size : Z) (m : Memory) : Memory :=
  if u64 (Len m) <? size then Increase (size - u64 (Len m)) m else m.

(** [GetCopy] and [GetPtr]; the slice is a copy here, see the note on aliasing in the
    documentation of the root file. *)
Definition GetPtr {E} (offset size : Z) (m : Memory) : res E bytes :=
  if size =? 0 then mret []
  else if offset <? Len m then sliceZ (m_store m) offset (i64 (offset + size)) else mret [].
Definition GetCopy {E} (offset size : Z) (m : Memory) : res E bytes :=
  if size =? 0 then mret []
  else if offset <? Len m then
    if size <? 0 then Panic
    else b ← sliceZ (m_store m) offset (i64 (offset + size)); mret (b ++ replicate (Z.to_nat size - length b) 0)
  else mret [].

(** [Copy]: ranges of the same slice that may overlap. *)
Definition Copy {E} (dst src length_ : Z) (m : Memory) : res E Memory :=
  if length_ =? 0 then mret m
  else
    data ← sliceZ (m_store m) src (u64 (src + length_));
    b ← copySlice (m_store m) dst (Len m) data;
    mret (setStore b m).

(** [Slice], for tracers: out of range is no data. *)
Definition Slice {E} (begin_ end_ : Z) (m : Memory) : res E bytes :=
  if end_ =? begin_ then mret []
  else if (end_ <? begin_) || (begin_ <? 0) then mret []
  else if Len m <? end_ then mret []
  else GetCopy begin_ (i64 (end_ - begin_)) m.

(** ** Laws *)

Definition mem_limit : Z := 137438953440.  (* 0x1FFFFFFFE0 *)

Lemma i64_small z : - 2 ^ 63 <= z < 2 ^ 63 -> i64 z = z.
Proof. intros Hz. unfold i64. rewrite Z.mod_small; lia. Qed.

Lemma sliceZ_ok {E} l lo hi : 0 <= lo <= hi -> hi <= len l ->
  sliceZ (E:=E) l lo hi = Ok (take (Z.to_nat (hi - lo)) (drop (Z.to_nat lo) l)).
Proof.
  intros H1 H2. unfold sliceZ. rewrite (proj2 (Z.leb_le 0 lo)), (proj2 (Z.leb_le lo hi)), (proj2 (Z.leb_le hi (len l))) by lia. done.
Qed.
Lemma sliceZ_len {E} l lo hi b : sliceZ (E:=E) l lo hi = Ok b -> len b = hi - lo /\ 0 <= lo <= hi /\ hi <= len l.
Proof.
  unfold sliceZ. destruct (_ && _) eqn:Hb; [|done]. bool_to_prop. intros [= <-]. split; [|lia].
  unfold len in *. rewrite length_take, length_drop. lia.
Qed.

Lemma copySlice_ok {E} dst lo hi src : 0 <= lo <= hi -> hi <= len dst -> exists b,
  copySlice (E:=E) dst lo hi src = Ok b /\ length b = length dst.
Proof.
  intros H1 H2. unfold copySlice. rewrite (proj2 (Z.leb_le 0 lo)), (proj2 (Z.leb_le lo hi)), (proj2 (Z.leb_le hi (len dst))) by lia.
  eexists. split; [done|]. unfold len in *. rewrite !length_app, length_take, length_drop, length_take. lia.
Qed.

(** Reading back the range that was written, and any other position. *)
Lemma copySlice_read {E} dst lo hi src b : copySlice (E:=E) dst lo hi src = Ok b -> len src = hi - lo ->
  take (Z.to_nat (hi - lo)) (drop (Z.to_nat lo) b) = src /\
  forall i, (Z.of_nat i < lo \/ hi <= Z.of_nat i) -> b !! i = dst !! i.
Proof.
  unfold copySlice. destruct (_ && _) eqn:Hb; [|done]. bool_to_prop. intros [= <-] Hl. unfold len in *.
  rewrite (take_ge src) by lia. split.
  - rewrite drop_app_ge by (rewrite length_take; lia). rewrite length_take, Nat.min_l, Nat.sub_diag, drop_0 by lia.
    rewrite take_app_le by lia. apply take_ge. lia.
  - intros i Hi. destruct (decide (Z.of_nat i < lo)) as [Hlt|Hge].
    + rewrite lookup_app_l by (rewrite length_take; lia). apply lookup_take_lt. lia.
    + rewrite lookup_app_r by (rewrite length_take; lia). rewrite length_take, Nat.min_l by lia.
      rewrite lookup_app_r by lia. rewrite lookup_drop. f_equal. lia.
Qed.

Section ranges.
Context (m : Memory).
Hypothesis Hm : Len m < 2 ^ 63.

Lemma u64_Len : u64 (Len m) = Len m.
Proof using Hm. apply u64_small. unfold is_u64, Len in *. pose proof (len_nonneg (m_store m)). lia. Qed.

Lemma Set_ok {E} offset size value : 0 <= offset -> 0 <= size -> (0 < size -> offset + size <= Len m) ->
  exists m', Set_ (E:=E) offset size value m = Ok m' /\ Len m' = Len m /\ m_lastGasCost m' = m_lastGasCost m.
Proof using Hm.
  intros H0 H1 H2. unfold Set_. destruct (Z.ltb_spec 0 size) as [Hs|]; [|by exists m].
  specialize (H2 Hs). rewrite u64_Len, (u64_small (offset + size)) by (unfold is_u64; lia).
  rewrite (proj2 (Z.ltb_ge (Len m) (offset + size))) by lia.
  destruct (copySlice_ok (E:=E) (m_store m) offset (offset + size) value) as (b & -> & Hb); [lia|done|].
  eexists. split; [done|]. unfold Len, len. cbn. by rewrite Hb.
Qed.

Lemma Set32_ok {E} `{Uint256} offset val : 0 <= offset -> offset + 32 <= Len m ->
  exists m', Set32 (E:=E) offset val m = Ok m' /\ Len m' = Len m /\ m_lastGasCost m' = m_lastGasCost m.
Proof using Hm.
  intros H0 H2. unfold Set32. rewrite u64_Len, (u64_small (offset + 32)) by (unfold is_u64; lia).
  rewrite (proj2 (Z.ltb_ge (Len m) (offset + 32))) by lia.
  destruct (copySlice_ok (E:=E) (m_store m) offset (Len m) (uBytes32 val)) as (b & -> & Hb); [lia|done|].
  eexists. split; [done|]. unfold Len, len. cbn. by rewrite Hb.
Qed.

Lemma SetByte_ok {E} off v : 0 <= off < Len m ->
  exists m', SetByte (E:=E) off v m = Ok m' /\ Len m' = Len m /\ m_lastGasCost m' = m_lastGasCost m.
Proof.
  intros H0. unfold SetByte. unfold Len, len in *. rewrite store_lt by lia. eexists. split; [done|]. cbn. by rewrite length_insert.
Qed.

Lemma GetPtr_ok {E} offset size : 0 <= size -> (0 < size -> 0 <= offset /\ offset + size <= Len m) ->
  exists b, GetPtr (E:=E) offset size m = Ok b /\ len b = size.
Proof using Hm.
  intros H1 H2. unfold GetPtr. destruct (Z.eqb_spec size 0) as [->|Hs]; [by exists []|]. destruct H2 as [H0 H2]; [lia|].
  rewrite (proj2 (Z.ltb_lt offset (Len m))) by lia. rewrite i64_small by lia.
  destruct (sliceZ (E:=E) (m_store m) offset (offset + size)) as [b| | |] eqn:Hb; rewrite sliceZ_ok in Hb by (unfold Len in *; lia); try done.
  exists b. split; [done|]. injection Hb as <-. unfold Len, len in *. rewrite length_take, length_drop. lia.
Qed.

Lemma GetCopy_ok {E} offset size : 0 <= size -> (0 < size -> 0 <= offset /\ offset + size <= Len m) ->
  exists b, GetCopy (E:=E) offset size m = Ok b /\ len b = size.
Proof using Hm.
  intros H1 H2. unfold GetCopy. destruct (Z.eqb_spec size 0) as [->|Hs]; [by exists []|]. destruct H2 as [H0 H2]; [lia|].
  rewrite (proj2 (Z.ltb_lt offset (Len m))), (proj2 (Z.ltb_ge size 0)) by lia. rewrite i64_small by lia.
  rewrite sliceZ_ok by (unfold Len in *; lia). cbn [mbind res_bind mret res_ret]. eexists. split; [done|].
  unfold Len, len in *. rewrite length_app, length_replicate, length_take, length_drop. lia.
Qed.

Lemma memCopy_ok {E} dst src n : 0 <= dst -> 0 <= src -> 0 <= n -> (0 < n -> dst + n <= Len m /\ src + n <= Len m) ->
  exists m', Copy (E:=E) dst src n m = Ok m' /\ Len m' = Len m /\ m_lastGasCost m' = m_lastGasCost m.
Proof using Hm.
  intros H0 H1 Hn H2. unfold Copy. destruct (Z.eqb_spec n 0) as [->|Hs]; [by exists m|]. destruct H2 as [H2 H3]; [lia|].
  rewrite u64_small by (unfold is_u64; lia). rewrite sliceZ_ok by (unfold Len in *; lia). cbn [mbind res_bind].
  edestruct (copySlice_ok (E:=E) (m_store m) dst (Len m)) as (b & -> & Hb); [lia|done|].
  eexists. split; [done|]. unfold Len, len. cbn. by rewrite Hb.
Qed.
End ranges.

Lemma Increase_len size m : 0 <= size -> Len (Increase size m) = Len m + size.
Proof. intros Hs. unfold Len, len, Increase. cbn. rewrite length_app, length_replicate. lia. Qed.

Lemma RightPad_len b l : len (RightPadBytes b l) = Z.max (len b) l.
Proof.
  unfold RightPadBytes. destruct (Z.leb_spec l (len b)); [lia|]. rewrite len_app. unfold len in *. rewrite length_replicate. lia.
Qed.

(** [getData] of real slices never faults. *)
Lemma getData_ok {E} data start size : len data < 2 ^ 63 -> 0 <= start -> 0 <= size < 2 ^ 63 ->
  exists b, getData (E:=E) data start size = Ok b /\ len b = size.
Proof.
  intros Hd H0 Hs. unfold getData. pose proof (len_nonneg data). rewrite (u64_small (len data)) by (unfold is_u64; lia).
  set (st := if len data <? start then len data else start).
  assert (0 <= st <= len data) by (unfold st; destruct (Z.ltb_spec (len data) start); lia).
  rewrite u64_small by (unfold is_u64; lia). set (en := if _ <? st + size then _ else _).
  assert (st <= en <= len data /\ en <= st + size) by (unfold en; destruct (Z.ltb_spec (len data) (st + size)); lia).
  rewrite sliceZ_ok by lia. cbn [mbind res_bind mret res_ret]. eexists. split; [done|].
  rewrite RightPad_len, i64_small by lia. unfold len in *. rewrite length_take, length_drop. lia.
Qed.

Lemma toWordSize_bounds n : 0 <= n <= mem_limit -> toWordSize n = (n + 31) / 32 /\ n <= toWordSize n * 32 <= n + 31.
Proof.
  intros Hn. unfold toWordSize, MaxUint64. rewrite (proj2 (Z.ltb_ge _ _)) by (unfold mem_limit in *; lia).
  split; [done|]. pose proof (Z.div_mod (n + 31) 32 ltac:(lia)). pose proof (Z.mod_pos_bound (n + 31) 32 ltac:(lia)). lia.
Qed.

Lemma SafeAdd_ok x y : 0 <= x -> 0 <= y -> (SafeAdd x y).2 = false -> (SafeAdd x y).1 = x + y /\ x + y < 2 ^ 64.
Proof.
  unfold SafeAdd, MaxUint64. cbn [fst snd]. intros Hx Hy Ho%Z.ltb_ge. rewrite u64_small by (unfold is_u64; lia). lia.
Qed.
Lemma SafeMul_ok x y : 0 <= x -> 0 <= y -> (SafeMul x y).2 = false -> (SafeMul x y).1 = x * y /\ x * y < 2 ^ 64.
Proof.
  unfold SafeMul, MaxUint64. intros Hx Hy. destruct ((x =? 0) || (y =? 0)) eqn:Hz; cbn [fst snd].
  - intros _. apply orb_true_iff in Hz as [Hz|Hz]; apply Z.eqb_eq in Hz; subst; lia.
  - bool_to_prop. intros Ho%Z.ltb_ge. assert (x * y <= 2 ^ 64 - 1); [|rewrite u64_small by (unfold is_u64; nia); lia].
    pose proof (Z.mul_div_le (2 ^ 64 - 1) x ltac:(lia)). nia.
Qed.
End Mem.
