(* ===== verification/EvmParams.v ===== *)
(** * Gas and computation costs

    The constants of [params/protocol_params.go] and [params/computation_cost_params.go] that the
    virtual machine uses, and the gas steps of [blockchain/vm/gas.go]. *)

From S2P Require Import Prelude.

Module Params.

(** ** Gas *)

Definition CallValueTransferGas : Z := 9000.
Definition CallNewAccountGas : Z := 25000.
Definition QuadCoeffDiv : Z := 512.
Definition SstoreSetGas : Z := 20000.
Definition LogDataGas : Z := 8.
Definition CallStipend : Z := 2300.
Definition Sha3Gas : Z := 30.
Definition Sha3WordGas : Z := 6.
Definition InitCodeWordGas : Z := 2.
Definition SstoreResetGas : Z := 5000.
Definition SstoreClearGas : Z := 5000.
Definition SstoreRefundGas : Z := 15000.
Definition SstoreSentryGasEIP2200 : Z := 2300.
Definition SstoreSetGasEIP2200 : Z := 20000.
Definition SstoreResetGasEIP2200 : Z := 5000.
Definition SstoreClearsScheduleRefundEIP2200 : Z := 15000.
Definition ColdAccountAccessCostEIP2929 : Z := 2600.
Definition ColdSloadCostEIP2929 : Z := 2100.
Definition WarmStorageReadCostEIP2929 : Z := 100.
Definition TxAccessListStorageKeyGas : Z := 1900.
Definition SstoreClearsScheduleRefundEIP3529 : Z := SstoreResetGasEIP2200 - ColdSloadCostEIP2929 + TxAccessListStorageKeyGas.
Definition JumpdestGas : Z := 1.
Definition CreateDataGas : Z := 200.
Definition ExpGas : Z := 10.
Definition LogGas : Z := 375.
Definition CopyGas : Z := 3.
Definition CreateGas : Z := 32000.
Definition Create2Gas : Z := 32000.
Definition SelfdestructRefundGas : Z := 24000.
Definition MemoryGas : Z := 3.
Definition LogTopicGas : Z := 375.
Definition CallGas : Z := 700.
Definition ExtcodeSizeGas : Z := 700.
Definition SelfdestructGas : Z := 5000.
Definition BalanceGasEIP150 : Z := 400.
Definition BalanceGasEIP1884 : Z := 700.
Definition SloadGasEIP150 : Z := 200.
Definition SloadGasEIP1884 : Z := 800.
Definition SloadGasEIP2200 : Z := 800.
Definition ExtcodeHashGasConstantinople : Z := 400.
Definition ExtcodeHashGasEIP1884 : Z := 700.
Definition ExpByte : Z := 50.
Definition ExtcodeCopyBase : Z := 700.
Definition CreateBySelfdestructGas : Z := 25000.
Definition EcrecoverGas : Z := 3000.
Definition Sha256BaseGas : Z := 60.
Definition Sha256PerWordGas : Z := 12.
Definition Ripemd160BaseGas : Z := 600.
Definition Ripemd160PerWordGas : Z := 120.
Definition IdentityBaseGas : Z := 15.
Definition IdentityPerWordGas : Z := 3.
Definition Bn256AddGasByzantium : Z := 500.
Definition Bn256AddGasIstanbul : Z := 150.
Definition Bn256ScalarMulGasByzantium : Z := 40000.
Definition Bn256ScalarMulGasIstanbul : Z := 6000.
Definition Bn256PairingBaseGasByzantium : Z := 100000.
Definition Bn256PairingBaseGasIstanbul : Z := 45000.
Definition Bn256PairingPerPointGasByzantium : Z := 80000.
Definition Bn256PairingPerPointGasIstanbul : Z := 34000.
Definition BlobTxPointEvaluationPrecompileGas : Z := 50000.
Definition VMLogBaseGas : Z := 100.
Definition VMLogPerByteGas : Z := 20.
Definition FeePayerGas : Z := 300.
Definition ValidateSenderGas : Z := 5000.
Definition CallCreateDepth : Z := 1024.
Definition StackLimit : Z := 1024.
Definition MaxCodeSize : Z := 24576.
Definition MaxInitCodeSize : Z := 2 * MaxCodeSize.
Definition ZeroBaseFee : Z := 0.

Definition GasZero : Z := 0.
Definition GasQuickStep : Z := 2.
Definition GasFastestStep : Z := 3.
Definition GasFastStep : Z := 5.
Definition GasMidStep : Z := 8.
Definition GasSlowStep : Z := 10.
Definition GasExtStep : Z := 20.

(** ** Computation costs *)

Definition ExtCodeHashComputationCost : Z := 1000.
Definition Create2ComputationCost : Z := 10000.
Definition StaticCallComputationCost : Z := 10000.
Definition ReturnDataSizeComputationCost : Z := 10.
Definition ReturnDataCopyComputationCost : Z := 40.
Definition RevertComputationCost : Z := 0.
Definition DelegateCallComputationCost : Z := 696.
Definition StopComputationCost : Z := 0.
Definition AddComputationCost : Z := 150.
Definition MulComputationCost : Z := 200.
Definition SubComputationCost : Z := 219.
Definition DivComputationCost : Z := 404.
Definition SdivComputationCost : Z := 739.
Definition ModComputationCost : Z := 812.
Definition SmodComputationCost : Z := 560.
Definition AddmodComputationCost : Z := 3349.
Definition MulmodComputationCost : Z := 4757.
Definition ExpComputationCost : Z := 5000.
Definition ShlComputationCost : Z := 1603.
Definition ShrComputationCost : Z := 1346.
Definition SarComputationCost : Z := 1815.
Definition SignExtendComputationCost : Z := 481.
Definition LtComputationCost : Z := 201.
Definition GtComputationCost : Z := 264.
Definition SltComputationCost : Z := 176.
Definition SgtComputationCost : Z := 222.
Definition EqComputationCost : Z := 220.
Definition IszeroComputationCost : Z := 165.
Definition AndComputationCost : Z := 288.
Definition XorComputationCost : Z := 657.
Definition OrComputationCost : Z := 160.
Definition NotComputationCost : Z := 1289.
Definition ByteComputationCost : Z := 589.
Definition Sha3ComputationCost : Z := 2465.
Definition AddressComputationCost : Z := 284.
Definition BalanceComputationCost : Z := 1407.
Definition OriginComputationCost : Z := 210.
Definition CallerComputationCost : Z := 188.
Definition CallValueComputationCost : Z := 149.
Definition CallDataLoadComputationCost : Z := 596.
Definition CallDataSizeComputationCost : Z := 194.
Definition CallDataCopyComputationCost : Z := 100.
Definition CodeSizeComputationCost : Z := 145.
Definition CodeCopyComputationCost : Z := 898.
Definition GasPriceComputationCost : Z := 131.
Definition ExtCodeSizeComputationCost : Z := 1481.
Definition ExtCodeCopyComputationCost : Z := 1000.
Definition BlockHashComputationCost : Z := 500.
Definition CoinbaseComputationCost : Z := 189.
Definition TimestampComputationCost : Z := 265.
Definition NumberComputationCost : Z := 202.
Definition DifficultyComputationCost : Z := 180.
Definition GasLimitComputationCost : Z := 166.
Definition PopComputationCost : Z := 140.
Definition MloadComputationCost : Z := 376.
Definition MstoreComputationCost : Z := 288.
Definition Mstore8ComputationCost : Z := 5142.
Definition SloadComputationCost : Z := 835.
Definition SstoreComputationCost : Z := 1548.
Definition JumpComputationCost : Z := 253.
Definition JumpiComputationCost : Z := 176.
Definition PcComputationCost : Z := 147.
Definition MsizeComputationCost : Z := 137.
Definition GasComputationCost : Z := 230.
Definition JumpDestComputationCost : Z := 10.
Definition PushComputationCost : Z := 120.
Definition Dup1ComputationCost : Z := 190.
Definition Dup2ComputationCost : Z := 190.
Definition Dup3ComputationCost : Z := 176.
Definition Dup4ComputationCost : Z := 142.
Definition Dup5ComputationCost : Z := 177.
Definition Dup6ComputationCost : Z := 165.
Definition Dup7ComputationCost : Z := 147.
Definition Dup8ComputationCost : Z := 157.
Definition Dup9ComputationCost : Z := 138.
Definition Dup10ComputationCost : Z := 174.
Definition Dup11ComputationCost : Z := 141.
Definition Dup12ComputationCost : Z := 144.
Definition Dup13ComputationCost : Z := 157.
Definition Dup14ComputationCost : Z := 143.
Definition Dup15ComputationCost : Z := 237.
Definition Dup16ComputationCost : Z := 149.
Definition Swap1ComputationCost : Z := 141.
Definition Swap2ComputationCost : Z := 156.
Definition Swap3ComputationCost : Z := 145.
Definition Swap4ComputationCost : Z := 135.
Definition Swap5ComputationCost : Z := 115.
Definition Swap6ComputationCost : Z := 146.
Definition Swap7ComputationCost : Z := 199.
Definition Swap8ComputationCost : Z := 130.
Definition Swap9ComputationCost : Z := 160.
Definition Swap10ComputationCost : Z := 134.
Definition Swap11ComputationCost : Z := 147.
Definition Swap12ComputationCost : Z := 128.
Definition Swap13ComputationCost : Z := 121.
Definition Swap14ComputationCost : Z := 114.
Definition Swap15ComputationCost : Z := 197.
Definition Swap16ComputationCost : Z := 128.
Definition Log0ComputationCost : Z := 100.
Definition Log1ComputationCost : Z := 1000.
Definition Log2ComputationCost : Z := 1000.
Definition Log3ComputationCost : Z := 1000.
Definition Log4ComputationCost : Z := 1000.
Definition CreateComputationCost : Z := 2094.
Definition CallComputationCost : Z := 5000.
Definition CallCodeComputationCost : Z := 4000.
Definition ReturnComputationCost : Z := 0.
Definition SelfDestructComputationCost : Z := 0.
Definition EcrecoverComputationCost : Z := 113150.
Definition Sha256PerWordComputationCost : Z := 100.
Definition Sha256BaseComputationCost : Z := 1000.
Definition Ripemd160PerWordComputationCost : Z := 10.
Definition Ripemd160BaseComputationCost : Z := 100.
Definition IdentityPerWordComputationCost : Z := 0.
Definition IdentityBaseComputationCost : Z := 0.
Definition BigModExpPerGasComputationCost : Z := 10.
Definition BigModExpBaseComputationCost : Z := 100.
Definition Bn256AddComputationCost : Z := 8000.
Definition Bn256ScalarMulComputationCost : Z := 100000.
Definition Bn256ParingBaseComputationCost : Z := 2000000.
Definition Bn256ParingPerPointComputationCost : Z := 1000000.
Definition BlobTxPointEvaluationPrecompileComputationCost : Z := 2200000.
Definition VMLogPerByteComputationCost : Z := 0.
Definition VMLogBaseComputationCost : Z := 10.
Definition FeePayerComputationCost : Z := 10.
Definition ValidateSenderPerSigComputationCost : Z := 180000.
Definition ValidateSenderBaseComputationCost : Z := 10000.
Definition ChainIDComputationCost : Z := 120.
Definition SelfBalanceComputationCost : Z := 374.
Definition Blake2bBaseComputationCost : Z := 10000.
Definition Blake2bScaleComputationCost : Z := 10.
Definition BaseFeeComputationCost : Z := 198.
Definition RandomComputationCost : Z := 1498.
Definition Push0ComputationCost : Z := 80.
Definition McopyComputationCost : Z := 250.
Definition TloadComputationCost : Z := 220.
Definition TstoreComputationCost : Z := 280.
Definition BlobHashComptationCost : Z := 165.
Definition BlobBaseFeeComputationCost : Z := 120.
Definition AddmodComputationCostIstanbul : Z := 1410.
Definition MulmodComputationCostIstanbul : Z := 1760.
Definition ShlComputationCostIstanbul : Z := 478.
Definition ShrComputationCostIstanbul : Z := 498.
Definition SarComputationCostIstanbul : Z := 834.
Definition XorComputationCostIstanbul : Z := 454.
Definition NotComputationCostIstanbul : Z := 364.
Definition SdivComputationCostCancun : Z := 360.
Definition ModComputationCostCancun : Z := 320.
Definition AddmodComputationCostCancun : Z := 360.
Definition MulmodComputationCostCancun : Z := 700.
Definition ExpComputationCostCancun : Z := 720.
Definition Sha3ComputationCostCancun : Z := 560.
Definition Mstore8ComputationCostCancun : Z := 230.
Definition SloadComputationCostCancun : Z := 2550.
Definition SstoreComputationCostCancun : Z := 2510.
Definition Log1ComputationCostCancun : Z := 500.
Definition Log2ComputationCostCancun : Z := 500.
Definition Log3ComputationCostCancun : Z := 500.
Definition Log4ComputationCostCancun : Z := 500.
Definition OpcodeComputationCostLimit : Z := 100000000.
Definition OpcodeComputationCostLimitCancun : Z := 150000000.
Definition OpcodeComputationCostLimitInfinite : Z := 2 ^ 64 - 1.
(** The format of the code of a contract. *)
Definition CodeFormatEVM : Z := 0.
End Params.
