(* ===== verification/EvmState.v ===== *)
(** * Contracts, calls and the state they run on

    Model of [blockchain/vm/interface.go], [contract.go], [stack.go] and [errors.go]: the
    interface of the state database, the contract of a call, the objects that calls share, and
    the state monad in which the instructions are written. *)

From S2P Require Import Prelude Rlp AccountKey EvmWord EvmCode EvmMem.

Module Evm.
Export AccountKey Word Code Mem.

(** ** Errors *)

Inductive vmError :=
| ErrCodeStoreOutOfGas | ErrDepth | ErrInsufficientBalance | ErrContractAddressCollision | ErrTotalTimeLimitReached
| ErrOpcodeComputationCostLimitReached | ErrFailedOnSetCode | ErrWriteProtection | ErrReturnDataOutOfBounds
| ErrExecutionReverted | ErrMaxCodeSizeExceeded | ErrInvalidJump | ErrInvalidCode | errStopToken | errGasUintOverflow
| ErrOutOfGas | ErrPrecompiledContractAddress | errInvalidOpcode | errStackUnderflow | errStackLimit | errReentrancySentry
| errCurvePoint | errBadPairingInput | errBlake2FInvalidInputLength | errBlake2FInvalidFinalFlag
| errBlobVerifyInvalidInputLength | errBlobVerifyMismatchedVersion | errBlobVerifyKZGProof.
#[export] Instance vmError_eq : EqDecision vmError.
Proof. solve_decision. Defined.

(** Panics that the state database or a gas function raises on purpose; they are kept apart from
    the run-time faults of the machine itself. *)
Inductive vmPanic := panicStateDB | panicSstoreAddress.

(** ** The state database *)

(** The forks ([params.Rules]). *)
Record Rules := mkRules {
  IsIstanbul : bool; IsLondon : bool; IsEthTxType : bool; IsMagma : bool; IsKore : bool; IsShanghai : bool; IsCancun : bool; IsKaia : bool;
  IsRandao : bool
}.

(** [vm.StateDB]; getters return the database as well since they may load objects.  [SetCode]
    returns whether it succeeded, [GetVmVersion] nothing for an account without program. *)
Class VMState := {
  DB : Type;
  dbCreateSmartContractAccount : Address -> Z -> Rules -> DB -> DB;
  dbCreateSmartContractAccountWithKey : Address -> bool -> AccountKey -> Z -> Rules -> DB -> DB;
  dbCreateEOA : Address -> bool -> AccountKey -> DB -> DB;
  dbSubBalance : Address -> Z -> DB -> DB;
  dbAddBalance : Address -> Z -> DB -> DB;
  dbGetBalance : Address -> DB -> Z * DB;
  dbGetNonce : Address -> DB -> Z * DB;
  dbIncNonce : Address -> DB -> DB;
  dbSetNonce : Address -> Z -> DB -> DB;
  dbGetCodeHash : Address -> DB -> Hash * DB;
  dbGetCode : Address -> DB -> bytes * DB;
  dbSetCode : Address -> bytes -> DB -> bool * DB;
  dbGetCodeSize : Address -> DB -> Z * DB;
  dbGetVmVersion : Address -> DB -> option Z * DB;
  dbAddRefund : Z -> DB -> DB;
  dbSubRefund : Z -> DB -> go DB;
  dbGetCommittedState : Address -> Hash -> DB -> Hash * DB;
  dbGetState : Address -> Hash -> DB -> Hash * DB;
  dbSetState : Address -> Hash -> Hash -> DB -> DB;
  dbGetTransientState : Address -> Hash -> DB -> Hash;
  dbSetTransientState : Address -> Hash -> Hash -> DB -> DB;
  dbSelfDestruct : Address -> DB -> DB;
  dbHasSelfDestructed : Address -> DB -> bool * DB;
  dbSelfDestruct6780 : Address -> DB -> DB;
  dbExist : Address -> DB -> bool * DB;
  dbEmpty : Address -> DB -> bool * DB;
  dbAddressInAccessList : Address -> DB -> bool;
  dbSlotInAccessList : Address -> Hash -> DB -> go (bool * bool);
  dbAddAddressToAccessList : Address -> DB -> DB;
  dbAddSlotToAccessList : Address -> Hash -> DB -> go DB;
  dbRevertToSnapshot : Z -> DB -> go DB;
  dbSnapshot : DB -> Z * DB;
  dbAddLog : Address -> list Hash -> bytes -> DB -> DB;
  dbAddPreimage : Hash -> bytes -> DB -> DB;
  dbIsProgramAccount : Address -> DB -> bool * DB;
  dbGetKey : Address -> DB -> AccountKey * DB
}.

Definition zeroHash : Hash := replicate 32 0.
Definition zeroAddress : Address := replicate 20 0.

(** [common.BytesToAddress]: keep the last 20 bytes, pad on the left. *)
Definition BytesToAddress (b : bytes) : Address :=
  let b := drop (length b - 20) b in replicate (20 - length b) 0 ++ b.

(** [common.IsPrecompiledContractAddress]: the addresses 1 to 0x3FF. *)
Definition IsPrecompiledContractAddress (a : Address) : bool :=
  negb (bool_decide (a = zeroAddress)) && (RLP.from_be a <=? 1023).

(** ** Contracts *)

(** Who calls: an account, or a running contract, of which its address, fee payer, caller and
    value are read. *)
Inductive ContractRef :=
| AccountRef (a : Address)
| AccountRefWithFeePayer (sender feePayer : Address)
| ContractAsRef (address feePayer callerAddress : Address) (value : Z).
Definition refAddress (r : ContractRef) : Address :=
  match r with AccountRef a => a | AccountRefWithFeePayer s _ => s | ContractAsRef a _ _ _ => a end.
Definition refFeePayer (r : ContractRef) : Address :=
  match r with AccountRef a => a | AccountRefWithFeePayer _ f => f | ContractAsRef _ f _ _ => f end.

(** [Contract]; the map of analyses that it shares with its callers is kept with the machine. *)
Record Contract := mkContract {
  c_CallerAddress : Address;
  c_FeePayerAddress : Address;
  c_caller : ContractRef;
  c_self : Address;
  c_analysis : option bytes;
  c_Code : bytes;
  c_CodeHash : Hash;
  c_CodeAddr : option Address;
  c_Input : bytes;
  c_Gas : Z;
  c_value : Z
}.

(** [NewContract] with its code still to be set. *)
Definition NewContract (caller : ContractRef) (object : Address) (value gas : Z) : Contract :=
  mkContract (refAddress caller) (refFeePayer caller) caller object None [] zeroHash None [] gas value.
(** [AsDelegate]: the caller must be a contract. *)
Definition AsDelegate {E} (c : Contract) : res E Contract :=
  match c_caller c with
  | ContractAsRef _ _ callerAddress value =>
      Ok (mkContract callerAddress (c_FeePayerAddress c) (c_caller c) (c_self c) (c_analysis c) (c_Code c) (c_CodeHash c)
            (c_CodeAddr c) (c_Input c) (c_Gas c) value)
  | _ => Panic
  end.
(** [SetCallCode] and [SetCodeOptionalHash]. *)
Definition SetCallCode (addr : Address) (hash : Hash) (code : bytes) (c : Contract) : Contract :=
  mkContract (c_CallerAddress c) (c_FeePayerAddress c) (c_caller c) (c_self c) (c_analysis c) code hash (Some addr)
    (c_Input c) (c_Gas c) (c_value c).
Definition setInput (input : bytes) (c : Contract) : Contract :=
  mkContract (c_CallerAddress c) (c_FeePayerAddress c) (c_caller c) (c_self c) (c_analysis c) (c_Code c) (c_CodeHash c)
    (c_CodeAddr c) input (c_Gas c) (c_value c).
Definition setGas (gas : Z) (c : Contract) : Contract :=
  mkContract (c_CallerAddress c) (c_FeePayerAddress c) (c_caller c) (c_self c) (c_analysis c) (c_Code c) (c_CodeHash c)
    (c_CodeAddr c) (c_Input c) gas (c_value c).
Definition setAnalysis (bits : bytes) (c : Contract) : Contract :=
  mkContract (c_CallerAddress c) (c_FeePayerAddress c) (c_caller c) (c_self c) (Some bits) (c_Code c) (c_CodeHash c)
    (c_CodeAddr c) (c_Input c) (c_Gas c) (c_value c).
(** A running contract as the caller of another. *)
Definition asRef (c : Contract) : ContractRef :=
  ContractAsRef (c_self c) (c_FeePayerAddress c) (c_CallerAddress c) (c_value c).

(** [GetByte] and [GetOp]: past the end is STOP. *)
Definition GetOp (n : Z) (c : Contract) : Z :=
  if n <? u64 (len (c_Code c)) then default 0 (c_Code c !! Z.to_nat n) else 0.
(** [UseGas]: whether there was enough, and the contract. *)
Definition UseGas (gas : Z) (c : Contract) : bool * Contract :=
  if c_Gas c <? gas then (false, c) else (true, setGas (c_Gas c - gas) c).

Section machine.
Context {word : Uint256} {vms : VMState}.

(** ** The machine *)

(** What the calls of a transaction share: fields of [EVM] and of [EVMInterpreter], the map of
    analyses of the outermost contract, and how often the abort flag was read. *)
Record EVM := mkEVM {
  evm_StateDB : DB;
  evm_depth : Z;
  evm_callGasTemp : Z;
  evm_opcodeComputationCostSum : Z;
  evm_readOnly : bool;
  evm_returnData : bytes;
  evm_jumpdests : gmap Hash bytes;
  evm_loads : nat
}.
Definition setDB (db : DB) (e : EVM) : EVM :=
  mkEVM db (evm_depth e) (evm_callGasTemp e) (evm_opcodeComputationCostSum e) (evm_readOnly e) (evm_returnData e)
    (evm_jumpdests e) (evm_loads e).
Definition setDepth (d : Z) (e : EVM) : EVM :=
  mkEVM (evm_StateDB e) d (evm_callGasTemp e) (evm_opcodeComputationCostSum e) (evm_readOnly e) (evm_returnData e)
    (evm_jumpdests e) (evm_loads e).
Definition setCallGasTemp (g : Z) (e : EVM) : EVM :=
  mkEVM (evm_StateDB e) (evm_depth e) g (evm_opcodeComputationCostSum e) (evm_readOnly e) (evm_returnData e)
    (evm_jumpdests e) (evm_loads e).
Definition setCostSum (c : Z) (e : EVM) : EVM :=
  mkEVM (evm_StateDB e) (evm_depth e) (evm_callGasTemp e) c (evm_readOnly e) (evm_returnData e) (evm_jumpdests e) (evm_loads e).
Definition setReadOnly (b : bool) (e : EVM) : EVM :=
  mkEVM (evm_StateDB e) (evm_depth e) (evm_callGasTemp e) (evm_opcodeComputationCostSum e) b (evm_returnData e)
    (evm_jumpdests e) (evm_loads e).
Definition setReturnData (b : bytes) (e : EVM) : EVM :=
  mkEVM (evm_StateDB e) (evm_depth e) (evm_callGasTemp e) (evm_opcodeComputationCostSum e) (evm_readOnly e) b
    (evm_jumpdests e) (evm_loads e).
Definition setJumpdests (m : gmap Hash bytes) (e : EVM) : EVM :=
  mkEVM (evm_StateDB e) (evm_depth e) (evm_callGasTemp e) (evm_opcodeComputationCostSum e) (evm_readOnly e)
    (evm_returnData e) m (evm_loads e).
Definition setLoads (n : nat) (e : EVM) : EVM :=
  mkEVM (evm_StateDB e) (evm_depth e) (evm_callGasTemp e) (evm_opcodeComputationCostSum e) (evm_readOnly e)
    (evm_returnData e) (evm_jumpdests e) n.

(** [PrecompiledContract]. *)
Record PrecompiledContract := mkPrecompiled {
  GetRequiredGasAndComputationCost : bytes -> res vmPanic (Z * Z);
  RunPrecompiled : bytes -> Contract -> EVM -> res vmPanic (bytes * option vmError * EVM)
}.

(** ** What a run is given *)

Record BlockContext := mkBlockContext {
  GetHash : Z -> Hash; Coinbase : Address; Rewardbase : Address; GasLimit : Z; BlockNumber : Z; Time : Z; BlockScore : Z;
  BaseFee : Z; Random : Hash
}.
Record TxContext := mkTxContext { Origin : Address; GasPrice : Z }.
Record Config := mkConfig { NoRecursion : bool; EnablePreimageRecording : bool; ComputationCostLimit : Z; Prefetching : bool }.

(** The context of a run.  [abortAt n] is what the [n]-th read of the abort flag returns, since
    another thread may set it at any time; [keccak256] is the hash; the tables of precompiled
    contracts are those of [contracts.go]. *)
Record Env := mkEnv {
  Context_ : BlockContext; TxContext_ : TxContext; Config_ : Config; ChainID : Z; chainRules : Rules;
  abortAt : nat -> Z;
  keccak256 : bytes -> Hash;
  PrecompiledContractsByzantium : gmap Address PrecompiledContract;
  PrecompiledContractsIstanbul : gmap Address PrecompiledContract;
  PrecompiledContractsKore : gmap Address PrecompiledContract;
  PrecompiledContractsCancun : gmap Address PrecompiledContract
}.

(** ** The state of a call and its monad *)

(** [ScopeContext] with the program counter; the head of the stack is its top, the last element
    of [Stack.data]. *)
Record St := mkSt { s_pc : Z; s_stack : list W; s_mem : Memory; s_contract : Contract; s_evm : EVM }.
Definition setPc (pc : Z) (s : St) : St := mkSt pc (s_stack s) (s_mem s) (s_contract s) (s_evm s).
Definition setStack (l : list W) (s : St) : St := mkSt (s_pc s) l (s_mem s) (s_contract s) (s_evm s).
Definition setMem (m : Memory) (s : St) : St := mkSt (s_pc s) (s_stack s) m (s_contract s) (s_evm s).
Definition setContract (c : Contract) (s : St) : St := mkSt (s_pc s) (s_stack s) (s_mem s) c (s_evm s).
Definition setEvm (e : EVM) (s : St) : St := mkSt (s_pc s) (s_stack s) (s_mem s) (s_contract s) e.

Definition M (A : Type) : Type := St -> res vmPanic (A * St).
#[export] Instance M_ret : MRet M := fun A a s => Ok (a, s).
#[export] Instance M_bind : MBind M := fun A B k m s =>
  match m s with
  | Ok (a, s) => k a s
  | Err e => Err e
  | Panic => Panic
  | NoFuel => NoFuel
  end.

(** Code that may fault and does not change the state of the call. *)
Definition lift {A} (r : res vmPanic A) : M A := fun s => a ← r; mret (a, s).
Definition get {A} (f : St -> A) : M A := fun s => Ok (f s, s).
Definition modify (f : St -> St) : M unit := fun s => Ok (tt, f s).

(** A method of the state database: a getter, a change, and one that may panic. *)
Definition dbRead {A} (f : DB -> A * DB) : M A := fun s =>
  let '(a, db) := f (evm_StateDB (s_evm s)) in Ok (a, setEvm (setDB db (s_evm s)) s).
Definition dbDo (f : DB -> DB) : M unit := modify (fun s => setEvm (setDB (f (evm_StateDB (s_evm s))) (s_evm s)) s).
Definition dbTry {A} (f : DB -> go A) : M A := fun s =>
  match f (evm_StateDB (s_evm s)) with Ok a => Ok (a, s) | _ => Err panicStateDB end.
Definition dbChange (f : DB -> go DB) : M unit :=
  db ← dbTry f; modify (fun s => setEvm (setDB db (s_evm s)) s).

(** ** The stack *)

Definition push (d : W) : M unit := modify (fun s => setStack (d :: s_stack s) s).
Definition pop : M W := fun s =>
  match s_stack s with x :: l => Ok (x, setStack l s) | [] => Panic end.
Definition Back (n : nat) : M W := fun s =>
  match s_stack s !! n with Some x => Ok (x, s) | None => Panic end.
Definition peek : M W := Back 0.
(** Writing through the pointer that [peek] returned. *)
Definition poke (x : W) : M unit := fun s =>
  match s_stack s with _ :: l => Ok (tt, setStack (x :: l) s) | [] => Panic end.
Definition dup (n : nat) : M unit := x ← Back (n - 1); push x.
Definition swap (n : nat) : M unit := fun s =>
  match s_stack s !! (n - 1)%nat, s_stack s !! 0%nat with
  | Some x, Some y => Ok (tt, setStack (<[0%nat := x]> (<[(n - 1)%nat := y]> (s_stack s))) s)
  | _, _ => Panic
  end.

(** ** The contract of the call *)

Definition useGas (gas : Z) : M bool := fun s =>
  let '(ok, c) := UseGas gas (s_contract s) in Ok (ok, setContract c s).

(** [isCode]: the analysis of the contract, of the code hash, or a new one. *)
Definition isCode (udest : Z) : M bool :=
  c ← get s_contract;
  match c_analysis c with
  | Some bits => lift (codeSegment bits udest)
  | None =>
      if bool_decide (c_CodeHash c = zeroHash) then
        bits ← lift (codeBitmap (c_Code c));
        modify (fun s => setContract (setAnalysis bits (s_contract s)) s);;
        lift (codeSegment bits udest)
      else
        jumpdests ← get (fun s => evm_jumpdests (s_evm s));
        bits ← match jumpdests !! c_CodeHash c with
               | Some bits => mret bits
               | None =>
                   bits ← lift (codeBitmap (c_Code c));
                   modify (fun s => setEvm (setJumpdests (<[c_CodeHash c := bits]> (evm_jumpdests (s_evm s))) (s_evm s)) s);;
                   mret bits
               end;
        modify (fun s => setContract (setAnalysis bits (s_contract s)) s);;
        lift (codeSegment bits udest)
  end.

(** [validJumpdest]. *)
Definition validJumpdest (dest : W) : M bool :=
  let '(udest, overflow) := uUint64WithOverflow dest in
  c ← get s_contract;
  if overflow || (u64 (len (c_Code c)) <=? udest) then mret false
  else
    op ← lift (index (c_Code c) (Z.to_nat udest));
    if negb (op =? JUMPDEST) then mret false else isCode udest.

(** [evm.Cancelled] and the reads of the abort flag. *)
Definition loadAbort (env : Env) : M Z := fun s =>
  let n := evm_loads (s_evm s) in Ok (abortAt env n, setEvm (setLoads (S n) (s_evm s)) s).
Definition Cancelled (env : Env) : M bool := a ← loadAbort env; mret (a =? 1).
End machine.
End Evm.
