(* ===== verification/EvmGas.v ===== *)
(** * Memory sizes and gas

    Model of [blockchain/vm/memory_table.go], [gas.go], [gas_table.go] and [operations_acl.go]:
    how much memory an instruction needs and what it costs.  The functions that a jump table can
    hold are named by the constructors of [memorySizeFunc] and [gasFunc]. *)

From S2P Require Import Prelude Rlp AccountKey EvmWord EvmCode EvmMem EvmParams EvmState.

Module Gas.
Export Evm Params.

Section gas.
Context {word : Uint256} {vms : VMState}.

(** ** Memory sizes *)

(** [calcMemSize64] and [calcMemSize64WithUint]: the size and whether it overflowed. *)
Definition calcMemSize64WithUint (off : W) (length64 : Z) : Z * bool :=
  if length64 =? 0 then (0, false)
  else
    let '(offset64, overflow) := uUint64WithOverflow off in
    if overflow then (0, true)
    else let val := u64 (offset64 + length64) in (val, val <? offset64).
Definition calcMemSize64 (off l : W) : Z * bool :=
  if negb (uIsUint64 l) then (0, true) else calcMemSize64WithUint off (uUint64 l).
End gas.

Inductive memorySizeFunc :=
| memorySha3 | memoryCallDataCopy | memoryReturnDataCopy | memoryCodeCopy | memoryExtCodeCopy | memoryMLoad | memoryMStore8
| memoryMStore | memoryMcopy | memoryCreate | memoryCreate2 | memoryCall | memoryDelegateCall | memoryStaticCall
| memoryReturn | memoryRevert | memoryLog.

Section gas.
Context {word : Uint256} {vms : VMState}.

(** The size of the range at [Back o] of length [Back l]. *)
Definition memRange (o l : nat) : M (Z * bool) := off ← Back o; n ← Back l; mret (calcMemSize64 off n).
(** The larger of two ranges, the input and the output of a call. *)
Definition memRanges (o1 l1 o2 l2 : nat) : M (Z * bool) :=
  r ← memRange o1 l1;
  let '(x, overflow) := (r : Z * bool) in
  if overflow then mret (0, true)
  else
    r ← memRange o2 l2;
    let '(y, overflow) := (r : Z * bool) in
    if overflow then mret (0, true) else if y <? x then mret (x, false) else mret (y, false).

Definition memorySize (f : memorySizeFunc) : M (Z * bool) :=
  match f with
  | memorySha3 => memRange 0 1
  | memoryCallDataCopy => memRange 0 2
  | memoryReturnDataCopy => memRange 0 2
  | memoryCodeCopy => memRange 0 2
  | memoryExtCodeCopy => memRange 1 3
  | memoryMLoad => off ← Back 0; mret (calcMemSize64WithUint off 32)
  | memoryMStore8 => off ← Back 0; mret (calcMemSize64WithUint off 1)
  | memoryMStore => off ← Back 0; mret (calcMemSize64WithUint off 32)
  | memoryMcopy =>
      dst ← Back 0; src ← Back 1;
      let mStart := if 0 <? uCmp src dst then src else dst in
      n ← Back 2; mret (calcMemSize64 mStart n)
  | memoryCreate => memRange 1 2
  | memoryCreate2 => memRange 1 2
  | memoryCall => memRanges 5 6 3 4
  | memoryDelegateCall => memRanges 4 5 2 3
  | memoryStaticCall => memRanges 4 5 2 3
  | memoryReturn => memRange 0 1
  | memoryRevert => memRange 0 1
  | memoryLog => memRange 0 1
  end.

(** ** Gas functions *)

(** A gas function may change the state of the call before it fails. *)
Definition G (A : Type) : Type := St -> res vmPanic ((vmError + A) * St).
#[export] Instance G_ret : MRet G := fun A a s => Ok (inr a, s).
#[export] Instance G_bind : MBind G := fun A B k m s =>
  match m s with
  | Ok (inr a, s) => k a s
  | Ok (inl e, s) => Ok (inl e, s)
  | Err e => Err e
  | Panic => Panic
  | NoFuel => NoFuel
  end.
Definition failG {A} (e : vmError) : G A := fun s => Ok (inl e, s).
Definition fromM {A} (m : M A) : G A := fun s => r ← m s; mret (inr r.1, r.2).

Definition back (n : nat) : G W := fromM (Back n).
Definition self : G Address := fromM (get (fun s => c_self (s_contract s))).
Definition addRefund (gas : Z) : G unit := fromM (dbDo (dbAddRefund gas)).
Definition subRefund (gas : Z) : G unit := fromM (dbChange (dbSubRefund gas)).

(** The results of [SafeAdd], [SafeMul] and [Uint64WithOverflow] with overflow as an error. *)
Definition orOverflow (r : Z * bool) : G Z := if r.2 then failG errGasUintOverflow else mret r.1.
Definition safeAdd (x y : Z) : G Z := orOverflow (SafeAdd x y).
Definition safeMul (x y : Z) : G Z := orOverflow (SafeMul x y).

(** [memoryGasCost]: linear and quadratic cost of the memory, less what was paid for before. *)
Definition memoryGasCost (newMemSize : Z) : G Z :=
  if newMemSize =? 0 then mret 0
  else if mem_limit <? newMemSize then failG errGasUintOverflow
  else
    let newMemSizeWords := toWordSize newMemSize in
    let newMemSize := u64 (newMemSizeWords * 32) in
    mem ← fromM (get s_mem);
    if u64 (Len mem) <? newMemSize then
      let square := u64 (newMemSizeWords * newMemSizeWords) in
      let linCoef := u64 (newMemSizeWords * MemoryGas) in
      let quadCoef := square / QuadCoeffDiv in
      let newTotalFee := u64 (linCoef + quadCoef) in
      let fee := u64 (newTotalFee - m_lastGasCost mem) in
      fromM (modify (fun s => setMem (setLastGasCost newTotalFee (s_mem s)) s));;
      mret fee
    else mret 0.

(** [memoryCopierGas]. *)
Definition memoryCopierGas (stackpos : nat) (memorySize : Z) : G Z :=
  gas ← memoryGasCost memorySize;
  w ← back stackpos;
  words ← orOverflow (uUint64WithOverflow w);
  words ← safeMul (toWordSize words) CopyGas;
  safeAdd gas words.

(** [gasSStore]. *)
Definition gasSStore (memorySize : Z) : G Z :=
  y ← back 1; x ← back 0; a ← self;
  current ← fromM (dbRead (dbGetState a (uBytes32 x)));
  let isOldEmpty := bool_decide (current = zeroHash) in
  let isNewEmpty := bool_decide (uBytes32 y = zeroHash) in
  if isOldEmpty && negb isNewEmpty then mret SstoreSetGas
  else if negb isOldEmpty && isNewEmpty then addRefund SstoreRefundGas;; mret SstoreClearGas
  else mret SstoreResetGas.

(** [gasSStoreEIP2200]. *)
Definition gasSStoreEIP2200 (memorySize : Z) : G Z :=
  gasLeft ← fromM (get (fun s => c_Gas (s_contract s)));
  if gasLeft <=? SstoreSentryGasEIP2200 then failG errReentrancySentry
  else
    y ← back 1; x ← back 0; a ← self;
    current ← fromM (dbRead (dbGetState a (uBytes32 x)));
    let value := uBytes32 y in
    if bool_decide (current = value) then mret SloadGasEIP2200
    else
      original ← fromM (dbRead (dbGetCommittedState a (uBytes32 x)));
      if bool_decide (original = current) then
        if bool_decide (original = zeroHash) then mret SstoreSetGasEIP2200
        else
          (if bool_decide (value = zeroHash) then addRefund SstoreClearsScheduleRefundEIP2200 else mret tt);;
          mret SstoreResetGasEIP2200
      else
        (if negb (bool_decide (original = zeroHash)) then
           if bool_decide (current = zeroHash) then subRefund SstoreClearsScheduleRefundEIP2200
           else if bool_decide (value = zeroHash) then addRefund SstoreClearsScheduleRefundEIP2200 else mret tt
         else mret tt);;
        (if bool_decide (original = value) then
           if bool_decide (original = zeroHash) then addRefund (SstoreSetGasEIP2200 - SloadGasEIP2200)
           else addRefund (SstoreResetGasEIP2200 - SloadGasEIP2200)
         else mret tt);;
        mret SloadGasEIP2200.

(** [makeGasLog]. *)
Definition makeGasLog (n : Z) (memorySize : Z) : G Z :=
  w ← back 1;
  requestedSize ← orOverflow (uUint64WithOverflow w);
  gas ← memoryGasCost memorySize;
  gas ← safeAdd gas LogGas;
  gas ← safeAdd gas (u64 (n * LogTopicGas));
  memorySizeGas ← safeMul requestedSize LogDataGas;
  safeAdd gas memorySizeGas.

(** [gasSha3] and [gasCreate2]: memory and the words that are hashed. *)
Definition gasSha3 (memorySize : Z) : G Z :=
  gas ← memoryGasCost memorySize;
  w ← back 1;
  wordGas ← orOverflow (uUint64WithOverflow w);
  wordGas ← safeMul (toWordSize wordGas) Sha3WordGas;
  safeAdd gas wordGas.
Definition pureMemoryGascost (memorySize : Z) : G Z := memoryGasCost memorySize.
Definition gasCreate2 (memorySize : Z) : G Z :=
  gas ← memoryGasCost memorySize;
  w ← back 2;
  wordGas ← orOverflow (uUint64WithOverflow w);
  wordGas ← safeMul (toWordSize wordGas) Sha3WordGas;
  safeAdd gas wordGas.

(** [gasCreateEip3860] and [gasCreate2Eip3860]: the init code is limited. *)
Definition gasCreateEip3860 (memorySize : Z) : G Z :=
  gas ← memoryGasCost memorySize;
  w ← back 2;
  let '(size, overflow) := uUint64WithOverflow w in
  if overflow || (MaxInitCodeSize <? size) then failG errGasUintOverflow
  else
    let moreGas := u64 (InitCodeWordGas * (u64 (size + 31) / 32)) in
    safeAdd gas moreGas.
Definition gasCreate2Eip3860 (memorySize : Z) : G Z :=
  gas ← memoryGasCost memorySize;
  w ← back 2;
  let '(size, overflow) := uUint64WithOverflow w in
  if overflow || (MaxInitCodeSize <? size) then failG errGasUintOverflow
  else
    let moreGas := u64 ((InitCodeWordGas + Sha3WordGas) * (u64 (size + 31) / 32)) in
    safeAdd gas moreGas.

(** [gasExp]: by the byte length of the exponent. *)
Definition gasExp (memorySize : Z) : G Z :=
  e ← back 1;
  let expByteLen := (uBitLen e + 7) / 8 in
  safeAdd (u64 (expByteLen * ExpByte)) ExpGas.

(** [callGas]: all but one 64th of what is left after [base], or what is asked for. *)
Definition callGas (availableGas base : Z) (callCost : W) : Z :=
  let availableGas := u64 (availableGas - base) in
  let gas := u64 (availableGas - availableGas / 64) in
  if negb (uIsUint64 callCost) || (gas <? uUint64 callCost) then gas else uUint64 callCost.

(** The end of the gas functions of calls: the gas of the callee is set aside. *)
Definition addCallGas (gas : Z) : G Z :=
  c ← fromM (get s_contract);
  w ← back 0;
  let temp := callGas (c_Gas c) gas w in
  fromM (modify (fun s => setEvm (setCallGasTemp temp (s_evm s)) s));;
  safeAdd gas temp.

(** [gasCall], [gasCallCode], [gasDelegateCall], [gasStaticCall]. *)
Definition gasCall (memorySize : Z) : G Z :=
  v ← back 2;
  let transfersValue := negb (uSign v =? 0) in
  w ← back 1;
  let address := uBytes20 w in
  gas ← (if transfersValue then
           empty ← fromM (dbRead (dbEmpty address));
           mret (u64 ((if (empty : bool) then CallNewAccountGas else 0) + CallValueTransferGas))
         else mret 0);
  memoryGas ← memoryGasCost memorySize;
  gas ← safeAdd gas memoryGas;
  addCallGas gas.
Definition gasCallCode (memorySize : Z) : G Z :=
  memoryGas ← memoryGasCost memorySize;
  v ← back 2;
  let gas := if negb (uSign v =? 0) then CallValueTransferGas else 0 in
  gas ← safeAdd gas memoryGas;
  addCallGas gas.
Definition gasDelegateCall (memorySize : Z) : G Z := gas ← memoryGasCost memorySize; addCallGas gas.
Definition gasStaticCall (memorySize : Z) : G Z := gas ← memoryGasCost memorySize; addCallGas gas.

(** [gasSelfdestruct]. *)
Definition gasSelfdestruct (memorySize : Z) : G Z :=
  w ← back 0; a ← self;
  let address := uBytes20 w in
  empty ← fromM (dbRead (dbEmpty address));
  balance ← (if (empty : bool) then fromM (dbRead (dbGetBalance a)) else mret 0);
  let gas := if empty && negb (balance =? 0) then SelfdestructGas + CreateBySelfdestructGas else SelfdestructGas in
  dead ← fromM (dbRead (dbHasSelfDestructed a));
  (if (dead : bool) then mret tt else addRefund SelfdestructRefundGas);;
  mret gas.

(** ** Access lists *)

(** [makeGasSStoreFunc]. *)
Definition makeGasSStoreFunc (clearingRefund : Z) (memorySize : Z) : G Z :=
  gasLeft ← fromM (get (fun s => c_Gas (s_contract s)));
  if gasLeft <=? SstoreSentryGasEIP2200 then failG errReentrancySentry
  else
    y ← back 1; x ← back 0; a ← self;
    let slot := uBytes32 x in
    current ← fromM (dbRead (dbGetState a slot));
    present ← fromM (dbTry (dbSlotInAccessList a slot));
    let '(addrPresent, slotPresent) := (present : bool * bool) in
    cost ← (if slotPresent then mret 0
            else
              fromM (dbChange (dbAddSlotToAccessList a slot));;
              if addrPresent then mret ColdSloadCostEIP2929 else fromM (lift (Err panicSstoreAddress)));
    let value := uBytes32 y in
    if bool_decide (current = value) then mret (cost + WarmStorageReadCostEIP2929)
    else
      original ← fromM (dbRead (dbGetCommittedState a slot));
      if bool_decide (original = current) then
        if bool_decide (original = zeroHash) then mret (cost + SstoreSetGasEIP2200)
        else
          (if bool_decide (value = zeroHash) then addRefund clearingRefund else mret tt);;
          mret (cost + (SstoreResetGasEIP2200 - ColdSloadCostEIP2929))
      else
        (if negb (bool_decide (original = zeroHash)) then
           if bool_decide (current = zeroHash) then subRefund clearingRefund
           else if bool_decide (value = zeroHash) then addRefund clearingRefund else mret tt
         else mret tt);;
        (if bool_decide (original = value) then
           if bool_decide (original = zeroHash) then addRefund (SstoreSetGasEIP2200 - WarmStorageReadCostEIP2929)
           else addRefund (SstoreResetGasEIP2200 - ColdSloadCostEIP2929 - WarmStorageReadCostEIP2929)
         else mret tt);;
        mret (cost + WarmStorageReadCostEIP2929).

(** [gasSLoadEIP2929]. *)
Definition gasSLoadEIP2929 (memorySize : Z) : G Z :=
  loc ← back 0; a ← self;
  present ← fromM (dbTry (dbSlotInAccessList a (uBytes32 loc)));
  if (present : bool * bool).2 then mret WarmStorageReadCostEIP2929
  else fromM (dbChange (dbAddSlotToAccessList a (uBytes32 loc)));; mret ColdSloadCostEIP2929.

(** [gasExtCodeCopyEIP2929] and [gasEip2929AccountCheck]. *)
Definition gasExtCodeCopyEIP2929 (memorySize : Z) : G Z :=
  gas ← memoryCopierGas 3 memorySize;
  w ← back 0;
  let addr := uBytes20 w in
  warm ← fromM (get (fun s => dbAddressInAccessList addr (evm_StateDB (s_evm s))));
  if (warm : bool) then mret gas
  else fromM (dbDo (dbAddAddressToAccessList addr));; safeAdd gas (ColdAccountAccessCostEIP2929 - WarmStorageReadCostEIP2929).
Definition gasEip2929AccountCheck (memorySize : Z) : G Z :=
  w ← back 0;
  let addr := uBytes20 w in
  warm ← fromM (get (fun s => dbAddressInAccessList addr (evm_StateDB (s_evm s))));
  if (warm : bool) then mret 0
  else fromM (dbDo (dbAddAddressToAccessList addr));; mret (ColdAccountAccessCostEIP2929 - WarmStorageReadCostEIP2929).

(** [makeCallVariantGasCallEIP2929]: the cold access is paid before the 63/64 rule is applied,
    then given back to be charged with the rest. *)
Definition makeCallVariantGasCallEIP2929 (oldCalculator : Z -> G Z) (memorySize : Z) : G Z :=
  w ← back 1;
  let addr := uBytes20 w in
  warmAccess ← fromM (get (fun s => dbAddressInAccessList addr (evm_StateDB (s_evm s))));
  let coldCost := ColdAccountAccessCostEIP2929 - WarmStorageReadCostEIP2929 in
  if (warmAccess : bool) then oldCalculator memorySize
  else
    fromM (dbDo (dbAddAddressToAccessList addr));;
    ok ← fromM (useGas coldCost);
    if negb ok then failG ErrOutOfGas
    else
      gas ← oldCalculator memorySize;
      fromM (modify (fun s => setContract (setGas (u64 (c_Gas (s_contract s) + coldCost)) (s_contract s)) s));;
      mret (u64 (gas + coldCost)).

(** [makeSelfdestructGasFn]. *)
Definition makeSelfdestructGasFn (refundsEnabled : bool) (memorySize : Z) : G Z :=
  w ← back 0; a ← self;
  let address := uBytes20 w in
  warm ← fromM (get (fun s => dbAddressInAccessList address (evm_StateDB (s_evm s))));
  gas ← (if (warm : bool) then mret 0
         else fromM (dbDo (dbAddAddressToAccessList address));; mret ColdAccountAccessCostEIP2929);
  empty ← fromM (dbRead (dbEmpty address));
  balance ← (if (empty : bool) then fromM (dbRead (dbGetBalance a)) else mret 0);
  let gas := if empty && negb (balance =? 0) then u64 (gas + CreateBySelfdestructGas) else gas in
  (if refundsEnabled then
     dead ← fromM (dbRead (dbHasSelfDestructed a));
     if (dead : bool) then mret tt else addRefund SelfdestructRefundGas
   else mret tt);;
  mret gas.
End gas.

(** The gas functions of the tables. *)
Inductive gasFunc :=
| G_memoryCopierGas (stackpos : nat) | G_gasSStore | G_gasSStoreEIP2200 | G_makeGasLog (n : Z) | G_gasSha3
| G_pureMemoryGascost | G_gasCreate2 | G_gasCreateEip3860 | G_gasCreate2Eip3860 | G_gasExp | G_gasCall | G_gasCallCode
| G_gasDelegateCall | G_gasStaticCall | G_gasSelfdestruct | G_makeGasSStoreFunc (clearingRefund : Z) | G_gasSLoadEIP2929
| G_gasExtCodeCopyEIP2929 | G_gasEip2929AccountCheck | G_makeCallVariantGasCallEIP2929 (oldCalculator : gasFunc)
| G_makeSelfdestructGasFn (refundsEnabled : bool).

(** Calling one of them. *)
Fixpoint dynamicGas_ `{Uint256} `{VMState} (f : gasFunc) (memorySize : Z) : G Z :=
  match f with
  | G_memoryCopierGas n => memoryCopierGas n memorySize
  | G_gasSStore => gasSStore memorySize
  | G_gasSStoreEIP2200 => gasSStoreEIP2200 memorySize
  | G_makeGasLog n => makeGasLog n memorySize
  | G_gasSha3 => gasSha3 memorySize
  | G_pureMemoryGascost => pureMemoryGascost memorySize
  | G_gasCreate2 => gasCreate2 memorySize
  | G_gasCreateEip3860 => gasCreateEip3860 memorySize
  | G_gasCreate2Eip3860 => gasCreate2Eip3860 memorySize
  | G_gasExp => gasExp memorySize
  | G_gasCall => gasCall memorySize
  | G_gasCallCode => gasCallCode memorySize
  | G_gasDelegateCall => gasDelegateCall memorySize
  | G_gasStaticCall => gasStaticCall memorySize
  | G_gasSelfdestruct => gasSelfdestruct memorySize
  | G_makeGasSStoreFunc r => makeGasSStoreFunc r memorySize
  | G_gasSLoadEIP2929 => gasSLoadEIP2929 memorySize
  | G_gasExtCodeCopyEIP2929 => gasExtCodeCopyEIP2929 memorySize
  | G_gasEip2929AccountCheck => gasEip2929AccountCheck memorySize
  | G_makeCallVariantGasCallEIP2929 old => makeCallVariantGasCallEIP2929 (dynamicGas_ old) memorySize
  | G_makeSelfdestructGasFn b => makeSelfdestructGasFn b memorySize
  end.
End Gas.
