(* ===== verification/EvmOps.v ===== *)
(** * Instructions

    Model of [blockchain/vm/instructions.go] and of the instructions of [eips.go].  An
    instruction runs in the state of its call and returns data and an error; the calls that it
    may make are the operations of [Calls].  The functions a jump table can hold are named by the
    constructors of [executionFunc]. *)

From S2P Require Import Prelude Rlp AccountKey EvmWord EvmCode EvmMem EvmParams EvmState EvmGas.

Module Ops.
Export Gas.

(** ** What instructions are written with *)

Section ops.
Context {word : Uint256} {vms : VMState}.

(** The methods of [EVM] that instructions call: return data, (address,) gas left, error. *)
Definition CallResult : Type := bytes * Z * option vmError * EVM.
Definition CreateResult : Type := bytes * Address * Z * option vmError * EVM.
Record Calls := mkCalls {
  callCall : ContractRef -> Address -> bytes -> Z -> Z -> EVM -> res vmPanic CallResult;
  callCallCode : ContractRef -> Address -> bytes -> Z -> Z -> EVM -> res vmPanic CallResult;
  callDelegateCall : ContractRef -> Address -> bytes -> Z -> EVM -> res vmPanic CallResult;
  callStaticCall : ContractRef -> Address -> bytes -> Z -> EVM -> res vmPanic CallResult;
  callCreate : ContractRef -> bytes -> Z -> Z -> Z -> EVM -> res vmPanic CreateResult;
  callCreate2 : ContractRef -> bytes -> Z -> Z -> W -> EVM -> res vmPanic CreateResult
}.

(** What an instruction returns. *)
Definition Op : Type := M (bytes * option vmError).
Definition done_ : Op := mret ([], None).
Definition fail (e : vmError) : Op := mret ([], Some e).

Definition memRead {A} (f : Memory -> res vmPanic A) : M A := m ← get s_mem; lift (f m).
Definition memDo (f : Memory -> res vmPanic Memory) : M unit :=
  m ← get s_mem; m ← lift (f m); modify (setMem m).
Definition readOnly : M bool := get (fun s => evm_readOnly (s_evm s)).
Definition address : M Address := get (fun s => c_self (s_contract s)).
Definition code : M bytes := get (fun s => c_Code (s_contract s)).
Definition input : M bytes := get (fun s => c_Input (s_contract s)).
Definition returnData : M bytes := get (fun s => evm_returnData (s_evm s)).
Definition setRet (b : bytes) : M unit := modify (fun s => setEvm (setReturnData b (s_evm s)) s).
Definition flag (b : bool) : W := if b then uSetOne else uClear.

(** ** Arithmetic and comparison *)

(** The shape of an instruction that replaces two operands by one. *)
Definition binary (f : W -> W -> W) : Op := x ← pop; y ← peek; poke (f x y);; done_.

Definition opAdd : Op := binary uAdd.
Definition opSub : Op := binary uSub.
Definition opMul : Op := binary uMul.
Definition opDiv : Op := binary uDiv.
Definition opSdiv : Op := binary uSDiv.
Definition opMod : Op := binary uMod.
Definition opSmod : Op := binary uSMod.
Definition opExp : Op := binary uExp.
Definition opSignExtend : Op := binary (fun back num => uExtendSign num back).
Definition opNot : Op := x ← peek; poke (uNot x);; done_.
Definition opLt : Op := binary (fun x y => flag (uLt x y)).
Definition opGt : Op := binary (fun x y => flag (uGt x y)).
Definition opSlt : Op := binary (fun x y => flag (uSlt x y)).
Definition opSgt : Op := binary (fun x y => flag (uSgt x y)).
Definition opEq : Op := binary (fun x y => flag (uEq x y)).
Definition opIszero : Op := x ← peek; poke (flag (uIsZero x));; done_.
Definition opAnd : Op := binary uAnd.
Definition opOr : Op := binary uOr.
Definition opXor : Op := binary uXor.
Definition opByte : Op := binary (fun th val => uByte val th).
Definition opAddmod : Op :=
  x ← pop; y ← pop; z ← peek; poke (if uIsZero z then uClear else uAddMod x y z);; done_.
Definition opMulmod : Op := x ← pop; y ← pop; z ← peek; poke (uMulMod x y z);; done_.
Definition opSHL : Op :=
  shift ← pop; value ← peek;
  poke (if uLtUint64 shift 256 then uLsh value (uUint64 shift) else uClear);; done_.
Definition opSHR : Op :=
  shift ← pop; value ← peek;
  poke (if uLtUint64 shift 256 then uRsh value (uUint64 shift) else uClear);; done_.
Definition opSAR : Op :=
  shift ← pop; value ← peek;
  if uGtUint64 shift 256 then poke (if 0 <=? uSign value then uClear else uSetAllOne);; done_
  else poke (uSRsh value (uUint64 shift));; done_.

(** ** Environment *)

Definition opSha3 (env : Env) : Op :=
  offset ← pop; size ← peek;
  data ← memRead (GetPtr (i64 (uUint64 offset)) (i64 (uUint64 size)));
  let h := keccak256 env data in
  (if EnablePreimageRecording (Config_ env) then dbDo (dbAddPreimage h data) else mret tt);;
  poke (uSetBytes h);; done_.
Definition opAddress : Op := a ← address; push (uSetBytes a);; done_.
Definition opBalance : Op :=
  slot ← peek; b ← dbRead (dbGetBalance (uBytes20 slot)); poke (uFromBig b);; done_.
Definition opOrigin (env : Env) : Op := push (uSetBytes (Origin (TxContext_ env)));; done_.
Definition opCaller : Op := a ← get (fun s => c_CallerAddress (s_contract s)); push (uSetBytes a);; done_.
Definition opCallValue : Op := v ← get (fun s => c_value (s_contract s)); push (uFromBig v);; done_.
Definition opCallDataLoad : Op :=
  x ← peek;
  let '(offset, overflow) := uUint64WithOverflow x in
  if overflow then poke uClear;; done_
  else i ← input; data ← lift (getData i offset 32); poke (uSetBytes data);; done_.
Definition opCallDataSize : Op := i ← input; push (uSetUint64 (u64 (len i)));; done_.
(** An offset beyond 64 bits reads no data. *)
Definition clampOffset (w : W) : Z :=
  let '(o, overflow) := uUint64WithOverflow w in if overflow then MaxUint64 else o.
Definition opCallDataCopy : Op :=
  memOffset ← pop; dataOffset ← pop; length_ ← pop;
  i ← input;
  data ← lift (getData i (clampOffset dataOffset) (uUint64 length_));
  memDo (Set_ (uUint64 memOffset) (uUint64 length_) data);; done_.
Definition opReturnDataSize : Op := r ← returnData; push (uSetUint64 (u64 (len r)));; done_.
Definition opReturnDataCopy : Op :=
  memOffset ← pop; dataOffset ← pop; length_ ← pop;
  let '(offset64, overflow) := uUint64WithOverflow dataOffset in
  if overflow then fail ErrReturnDataOutOfBounds
  else
    let '(end64, overflow) := uUint64WithOverflow (uAdd dataOffset length_) in
    r ← returnData;
    if overflow || (u64 (len r) <? end64) then fail ErrReturnDataOutOfBounds
    else
      data ← lift (sliceZ r offset64 end64);
      memDo (Set_ (uUint64 memOffset) (uUint64 length_) data);; done_.
Definition opExtCodeSize : Op :=
  slot ← peek; n ← dbRead (dbGetCodeSize (uBytes20 slot)); poke (uSetUint64 (u64 n));; done_.
Definition opCodeSize : Op := c ← code; push (uSetUint64 (u64 (len c)));; done_.
Definition opCodeCopy : Op :=
  memOffset ← pop; codeOffset ← pop; length_ ← pop;
  c ← code;
  data ← lift (getData c (clampOffset codeOffset) (uUint64 length_));
  memDo (Set_ (uUint64 memOffset) (uUint64 length_) data);; done_.
Definition opExtCodeCopy : Op :=
  a ← pop; memOffset ← pop; codeOffset ← pop; length_ ← pop;
  c ← dbRead (dbGetCode (uBytes20 a));
  data ← lift (getData c (clampOffset codeOffset) (uUint64 length_));
  memDo (Set_ (uUint64 memOffset) (uUint64 length_) data);; done_.
Definition opExtCodeHash1052 : Op :=
  slot ← peek;
  empty ← dbRead (dbEmpty (uBytes20 slot));
  if (empty : bool) then poke uClear;; done_
  else h ← dbRead (dbGetCodeHash (uBytes20 slot)); poke (uSetBytes h);; done_.
Definition opExtCodeHash : Op :=
  slot ← peek; h ← dbRead (dbGetCodeHash (uBytes20 slot)); poke (uSetBytes h);; done_.
Definition opGasprice (env : Env) : Op := push (uFromBig (GasPrice (TxContext_ env)));; done_.
Definition opBlockhash (env : Env) : Op :=
  num ← peek;
  let '(num64, overflow) := uUint64WithOverflow num in
  if overflow then poke uClear;; done_
  else
    let upper := u64 (BlockNumber (Context_ env)) in
    let lower := if upper <? 257 then 0 else upper - 256 in
    if (lower <=? num64) && (num64 <? upper) then poke (uSetBytes (GetHash (Context_ env) num64));; done_
    else poke uClear;; done_.
Definition opCoinbase (env : Env) : Op := push (uSetBytes (Coinbase (Context_ env)));; done_.
Definition opTimestamp (env : Env) : Op := push (uSetUint64 (u64 (Time (Context_ env))));; done_.
Definition opNumber (env : Env) : Op := push (uFromBig (BlockNumber (Context_ env)));; done_.
Definition opDifficulty (env : Env) : Op := push (uFromBig (BlockScore (Context_ env)));; done_.
Definition opRandom (env : Env) : Op := push (uFromBig (RLP.from_be (Random (Context_ env))));; done_.
Definition opGasLimit (env : Env) : Op := push (uSetUint64 (GasLimit (Context_ env)));; done_.
Definition opSelfBalance : Op := a ← address; b ← dbRead (dbGetBalance a); push (uFromBig b);; done_.
Definition opChainID (env : Env) : Op := push (uFromBig (ChainID env));; done_.
Definition opBaseFee (env : Env) : Op := push (uFromBig (BaseFee (Context_ env)));; done_.
Definition opBlobHash : Op := peek;; poke uClear;; done_.
Definition opBlobBaseFee : Op := push (uSetUint64 ZeroBaseFee);; done_.

(** ** Stack, memory, storage and control flow *)

Definition opPop : Op := pop;; done_.
Definition opMload : Op :=
  v ← peek; data ← memRead (GetPtr (i64 (uUint64 v)) 32); poke (uSetBytes data);; done_.
Definition opMstore : Op := mStart ← pop; val ← pop; memDo (Set32 (uUint64 mStart) val);; done_.
Definition opMstore8 : Op := off ← pop; val ← pop; memDo (SetByte (uUint64 off) (u8 (uUint64 val)));; done_.
Definition opMcopy : Op :=
  dst ← pop; src ← pop; length_ ← pop; memDo (Copy (uUint64 dst) (uUint64 src) (uUint64 length_));; done_.
Definition opSload : Op :=
  loc ← peek; a ← address; val ← dbRead (dbGetState a (uBytes32 loc)); poke (uSetBytes val);; done_.
Definition opSstore : Op :=
  ro ← readOnly;
  if (ro : bool) then fail ErrWriteProtection
  else loc ← pop; val ← pop; a ← address; dbDo (dbSetState a (uBytes32 loc) (uBytes32 val));; done_.
Definition opTload : Op :=
  loc ← peek; a ← address;
  val ← get (fun s => dbGetTransientState a (uBytes32 loc) (evm_StateDB (s_evm s)));
  poke (uSetBytes val);; done_.
Definition opTstore : Op :=
  ro ← readOnly;
  if (ro : bool) then fail ErrWriteProtection
  else loc ← pop; val ← pop; a ← address; dbDo (dbSetTransientState a (uBytes32 loc) (uBytes32 val));; done_.
Definition opJump (env : Env) : Op :=
  cancelled ← Cancelled env;
  if (cancelled : bool) then fail errStopToken
  else
    pos ← pop; ok ← validJumpdest pos;
    if negb ok then fail ErrInvalidJump else modify (setPc (u64 (uUint64 pos - 1)));; done_.
Definition opJumpi (env : Env) : Op :=
  cancelled ← Cancelled env;
  if (cancelled : bool) then fail errStopToken
  else
    pos ← pop; cond ← pop;
    if uIsZero cond then done_
    else
      ok ← validJumpdest pos;
      if negb ok then fail ErrInvalidJump else modify (setPc (u64 (uUint64 pos - 1)));; done_.
Definition opJumpdest : Op := done_.
Definition opPc : Op := pc ← get s_pc; push (uSetUint64 pc);; done_.
Definition opMsize : Op := m ← get s_mem; push (uSetUint64 (u64 (Len m)));; done_.
Definition opGas : Op := c ← get s_contract; push (uSetUint64 (c_Gas c));; done_.
Definition opReturn : Op :=
  offset ← pop; size ← pop;
  ret ← memRead (GetPtr (i64 (uUint64 offset)) (i64 (uUint64 size)));
  mret (ret, Some errStopToken).
Definition opRevert : Op :=
  offset ← pop; size ← pop;
  ret ← memRead (GetPtr (i64 (uUint64 offset)) (i64 (uUint64 size)));
  setRet ret;; mret (ret, Some ErrExecutionReverted).
Definition opStop : Op := fail errStopToken.
Definition opSelfdestruct : Op :=
  ro ← readOnly;
  if (ro : bool) then fail ErrWriteProtection
  else
    beneficiary ← pop; a ← address;
    balance ← dbRead (dbGetBalance a);
    dbDo (dbAddBalance (uBytes20 beneficiary) balance);;
    dbDo (dbSelfDestruct a);;
    fail errStopToken.
Definition opSelfdestruct6780 : Op :=
  ro ← readOnly;
  if (ro : bool) then fail ErrWriteProtection
  else
    beneficiary ← pop; a ← address;
    balance ← dbRead (dbGetBalance a);
    dbDo (dbSubBalance a balance);;
    dbDo (dbAddBalance (uBytes20 beneficiary) balance);;
    dbDo (dbSelfDestruct6780 a);;
    fail errStopToken.

(** [makeLog]. *)
Fixpoint popTopics (n : nat) : M (list Hash) :=
  match n with
  | O => mret []
  | S n => t ← pop; ts ← popTopics n; mret (uBytes32 t :: ts)
  end.
Definition makeLog (size : nat) : Op :=
  ro ← readOnly;
  if (ro : bool) then fail ErrWriteProtection
  else
    mStart ← pop; mSize ← pop;
    topics ← popTopics size;
    d ← memRead (GetCopy (i64 (uUint64 mStart)) (i64 (uUint64 mSize)));
    a ← address;
    dbDo (dbAddLog a topics d);; done_.

Definition opPush0 : Op := push uClear;; done_.
Definition opPush1 : Op :=
  c ← code; pc ← get s_pc;
  let pc := u64 (pc + 1) in
  modify (setPc pc);;
  if pc <? u64 (len c) then b ← lift (index c (Z.to_nat pc)); push (uSetUint64 b);; done_
  else push uClear;; done_.
(** [makePush]. *)
Definition makePush (size : Z) (pushByteSize : Z) : Op :=
  c ← code; pc ← get s_pc;
  let codeLen := len c in
  let startMin := if i64 (u64 (pc + 1)) <? codeLen then i64 (u64 (pc + 1)) else codeLen in
  let endMin := if startMin + pushByteSize <? codeLen then startMin + pushByteSize else codeLen in
  data ← lift (sliceZ c startMin endMin);
  push (uSetBytes (RightPadBytes data pushByteSize));;
  modify (setPc (u64 (pc + size)));; done_.
(** [makeDup] and [makeSwap]. *)
Definition makeDup (size : nat) : Op := dup size;; done_.
Definition makeSwap (size : nat) : Op := swap (size + 1);; done_.

(** ** Calls *)

(** Running a method of the machine. *)
Definition evmDo {A} (f : EVM -> res vmPanic (A * EVM)) : M A := fun s =>
  r ← f (s_evm s); let '(a, e) := (r : A * EVM) in mret (a, setEvm e s).
Definition gasBack (returnGas : Z) : M unit :=
  modify (fun s => setContract (setGas (u64 (c_Gas (s_contract s) + returnGas)) (s_contract s)) s).

(** The end of the instructions that call: success on the stack, the data in the memory, the gas
    that is left back to the contract. *)
Definition finishCall (retOffset retSize : W) (r : bytes * Z * option vmError) : Op :=
  let '(ret, returnGas, err) := r in
  push (match err with None => uSetOne | Some _ => uClear end);;
  (if bool_decide (err = None) || bool_decide (err = Some ErrExecutionReverted)
   then memDo (Set_ (uUint64 retOffset) (uUint64 retSize) ret) else mret tt);;
  gasBack returnGas;;
  setRet ret;;
  mret (ret, None).

Definition opCall (calls : Calls) : Op :=
  temp ← pop;
  gas ← get (fun s => evm_callGasTemp (s_evm s));
  addr ← pop; value ← pop; inOffset ← pop; inSize ← pop; retOffset ← pop; retSize ← pop;
  args ← memRead (GetPtr (i64 (uUint64 inOffset)) (i64 (uUint64 inSize)));
  ro ← readOnly;
  if ro && negb (uIsZero value) then fail ErrWriteProtection
  else
    let gas := if uIsZero value then gas else u64 (gas + CallStipend) in
    let bigVal := if uIsZero value then 0 else uv value in
    c ← get s_contract;
    r ← evmDo (callCall calls (asRef c) (uBytes20 addr) args gas bigVal);
    finishCall retOffset retSize r.
Definition opCallCode (calls : Calls) : Op :=
  temp ← pop;
  gas ← get (fun s => evm_callGasTemp (s_evm s));
  addr ← pop; value ← pop; inOffset ← pop; inSize ← pop; retOffset ← pop; retSize ← pop;
  args ← memRead (GetPtr (i64 (uUint64 inOffset)) (i64 (uUint64 inSize)));
  let gas := if uIsZero value then gas else u64 (gas + CallStipend) in
  let bigVal := if uIsZero value then 0 else uv value in
  c ← get s_contract;
  r ← evmDo (callCallCode calls (asRef c) (uBytes20 addr) args gas bigVal);
  finishCall retOffset retSize r.
Definition opDelegateCall (calls : Calls) : Op :=
  temp ← pop;
  gas ← get (fun s => evm_callGasTemp (s_evm s));
  addr ← pop; inOffset ← pop; inSize ← pop; retOffset ← pop; retSize ← pop;
  args ← memRead (GetPtr (i64 (uUint64 inOffset)) (i64 (uUint64 inSize)));
  c ← get s_contract;
  r ← evmDo (callDelegateCall calls (asRef c) (uBytes20 addr) args gas);
  finishCall retOffset retSize r.
Definition opStaticCall (calls : Calls) : Op :=
  temp ← pop;
  gas ← get (fun s => evm_callGasTemp (s_evm s));
  addr ← pop; inOffset ← pop; inSize ← pop; retOffset ← pop; retSize ← pop;
  args ← memRead (GetPtr (i64 (uUint64 inOffset)) (i64 (uUint64 inSize)));
  c ← get s_contract;
  r ← evmDo (callStaticCall calls (asRef c) (uBytes20 addr) args gas);
  finishCall retOffset retSize r.

(** The end of the instructions that create a contract. *)
Definition finishCreate (r : bytes * Address * Z * option vmError) : Op :=
  let '(ret, addr, returnGas, suberr) := r in
  push (match suberr with None => uSetBytes addr | Some _ => uClear end);;
  gasBack returnGas;;
  if bool_decide (suberr = Some ErrExecutionReverted) then setRet ret;; mret (ret, None)
  else setRet [];; done_.

Definition opCreate (calls : Calls) : Op :=
  ro ← readOnly;
  if (ro : bool) then fail ErrWriteProtection
  else
    value ← pop; offset ← pop; size ← pop;
    input ← memRead (GetCopy (i64 (uUint64 offset)) (i64 (uUint64 size)));
    c ← get s_contract;
    let gas := u64 (c_Gas c - c_Gas c / 64) in
    useGas gas;;
    let bigVal := if uIsZero value then 0 else uv value in
    c ← get s_contract;
    r ← evmDo (callCreate calls (asRef c) input gas bigVal CodeFormatEVM);
    finishCreate r.
Definition opCreate2 (calls : Calls) : Op :=
  ro ← readOnly;
  if (ro : bool) then fail ErrWriteProtection
  else
    endowment ← pop; offset ← pop; size ← pop; salt ← pop;
    input ← memRead (GetCopy (i64 (uUint64 offset)) (i64 (uUint64 size)));
    c ← get s_contract;
    let gas := u64 (c_Gas c - c_Gas c / 64) in
    useGas gas;;
    let bigEndowment := if uIsZero endowment then 0 else uv endowment in
    c ← get s_contract;
    r ← evmDo (callCreate2 calls (asRef c) input gas bigEndowment salt);
    finishCreate r.
End ops.

(** ** The instructions of the tables *)

Inductive executionFunc :=
| F_opAdd | F_opSub | F_opMul | F_opDiv | F_opSdiv | F_opMod | F_opSmod | F_opExp | F_opSignExtend | F_opNot | F_opLt | F_opGt
| F_opSlt | F_opSgt | F_opEq | F_opIszero | F_opAnd | F_opOr | F_opXor | F_opByte | F_opAddmod | F_opMulmod | F_opSHL | F_opSHR
| F_opSAR | F_opSha3 | F_opAddress | F_opBalance | F_opOrigin | F_opCaller | F_opCallValue | F_opCallDataLoad
| F_opCallDataSize | F_opCallDataCopy | F_opReturnDataSize | F_opReturnDataCopy | F_opExtCodeSize | F_opCodeSize
| F_opCodeCopy | F_opExtCodeCopy | F_opExtCodeHash1052 | F_opExtCodeHash | F_opGasprice | F_opBlockhash | F_opCoinbase
| F_opTimestamp | F_opNumber | F_opDifficulty | F_opRandom | F_opGasLimit | F_opSelfBalance | F_opChainID | F_opBaseFee
| F_opBlobHash | F_opBlobBaseFee | F_opPop | F_opMload | F_opMstore | F_opMstore8 | F_opMcopy | F_opSload | F_opSstore
| F_opTload | F_opTstore | F_opJump | F_opJumpi | F_opJumpdest | F_opPc | F_opMsize | F_opGas | F_opReturn | F_opRevert
| F_opStop | F_opSelfdestruct | F_opSelfdestruct6780 | F_makeLog (size : nat) | F_opPush0 | F_opPush1
| F_makePush (size pushByteSize : Z) | F_makeDup (size : nat) | F_makeSwap (size : nat) | F_opCall | F_opCallCode
| F_opDelegateCall | F_opStaticCall | F_opCreate | F_opCreate2.

Definition execute_ `{Uint256} `{VMState} (env : Env) (calls : Calls) (f : executionFunc) : Op :=
  match f with
  | F_opAdd => opAdd | F_opSub => opSub | F_opMul => opMul | F_opDiv => opDiv | F_opSdiv => opSdiv | F_opMod => opMod
  | F_opSmod => opSmod | F_opExp => opExp | F_opSignExtend => opSignExtend | F_opNot => opNot | F_opLt => opLt
  | F_opGt => opGt | F_opSlt => opSlt | F_opSgt => opSgt | F_opEq => opEq | F_opIszero => opIszero | F_opAnd => opAnd
  | F_opOr => opOr | F_opXor => opXor | F_opByte => opByte | F_opAddmod => opAddmod | F_opMulmod => opMulmod
  | F_opSHL => opSHL | F_opSHR => opSHR | F_opSAR => opSAR | F_opSha3 => opSha3 env | F_opAddress => opAddress
  | F_opBalance => opBalance | F_opOrigin => opOrigin env | F_opCaller => opCaller | F_opCallValue => opCallValue
  | F_opCallDataLoad => opCallDataLoad | F_opCallDataSize => opCallDataSize | F_opCallDataCopy => opCallDataCopy
  | F_opReturnDataSize => opReturnDataSize | F_opReturnDataCopy => opReturnDataCopy | F_opExtCodeSize => opExtCodeSize
  | F_opCodeSize => opCodeSize | F_opCodeCopy => opCodeCopy | F_opExtCodeCopy => opExtCodeCopy
  | F_opExtCodeHash1052 => opExtCodeHash1052 | F_opExtCodeHash => opExtCodeHash | F_opGasprice => opGasprice env
  | F_opBlockhash => opBlockhash env | F_opCoinbase => opCoinbase env | F_opTimestamp => opTimestamp env
  | F_opNumber => opNumber env | F_opDifficulty => opDifficulty env | F_opRandom => opRandom env
  | F_opGasLimit => opGasLimit env | F_opSelfBalance => opSelfBalance | F_opChainID => opChainID env
  | F_opBaseFee => opBaseFee env | F_opBlobHash => opBlobHash | F_opBlobBaseFee => opBlobBaseFee | F_opPop => opPop
  | F_opMload => opMload | F_opMstore => opMstore | F_opMstore8 => opMstore8 | F_opMcopy => opMcopy | F_opSload => opSload
  | F_opSstore => opSstore | F_opTload => opTload | F_opTstore => opTstore | F_opJump => opJump env
  | F_opJumpi => opJumpi env | F_opJumpdest => opJumpdest | F_opPc => opPc | F_opMsize => opMsize | F_opGas => opGas
  | F_opReturn => opReturn | F_opRevert => opRevert | F_opStop => opStop | F_opSelfdestruct => opSelfdestruct
  | F_opSelfdestruct6780 => opSelfdestruct6780 | F_makeLog n => makeLog n | F_opPush0 => opPush0 | F_opPush1 => opPush1
  | F_makePush n k => makePush n k | F_makeDup n => makeDup n | F_makeSwap n => makeSwap n | F_opCall => opCall calls
  | F_opCallCode => opCallCode calls | F_opDelegateCall => opDelegateCall calls | F_opStaticCall => opStaticCall calls
  | F_opCreate => opCreate calls | F_opCreate2 => opCreate2 calls
  end.
End Ops.
