(* ===== verification/EvmTable.v ===== *)
(** * Jump tables

    Model of [blockchain/vm/opcodes.go], [stack_table.go], [jump_table.go] and of the functions of
    [eips.go] that change a table: for every fork, the instruction of each opcode with its
    constant and dynamic gas, its stack bounds, its memory and its computation cost. *)

From S2P Require Import Prelude Rlp AccountKey EvmWord EvmCode EvmMem EvmParams EvmState EvmGas EvmOps.

Module Table.
Export Ops.

(** ** Opcodes *)

Definition STOP : Z := 0.
Definition ADD : Z := 1.
Definition MUL : Z := 2.
Definition SUB : Z := 3.
Definition DIV : Z := 4.
Definition SDIV : Z := 5.
Definition MOD : Z := 6.
Definition SMOD : Z := 7.
Definition ADDMOD : Z := 8.
Definition MULMOD : Z := 9.
Definition EXP : Z := 10.
Definition SIGNEXTEND : Z := 11.
Definition LT : Z := 16.
Definition GT : Z := 17.
Definition SLT : Z := 18.
Definition SGT : Z := 19.
Definition EQ : Z := 20.
Definition ISZERO : Z := 21.
Definition AND : Z := 22.
Definition OR : Z := 23.
Definition XOR : Z := 24.
Definition NOT : Z := 25.
Definition BYTE : Z := 26.
Definition SHL : Z := 27.
Definition SHR : Z := 28.
Definition SAR : Z := 29.
Definition SHA3 : Z := 32.
Definition ADDRESS : Z := 48.
Definition BALANCE : Z := 49.
Definition ORIGIN : Z := 50.
Definition CALLER : Z := 51.
Definition CALLVALUE : Z := 52.
Definition CALLDATALOAD : Z := 53.
Definition CALLDATASIZE : Z := 54.
Definition CALLDATACOPY : Z := 55.
Definition CODESIZE : Z := 56.
Definition CODECOPY : Z := 57.
Definition GASPRICE : Z := 58.
Definition EXTCODESIZE : Z := 59.
Definition EXTCODECOPY : Z := 60.
Definition RETURNDATASIZE : Z := 61.
Definition RETURNDATACOPY : Z := 62.
Definition EXTCODEHASH : Z := 63.
Definition BLOCKHASH : Z := 64.
Definition COINBASE : Z := 65.
Definition TIMESTAMP : Z := 66.
Definition NUMBER : Z := 67.
Definition DIFFICULTY : Z := 68.
Definition PREVRANDAO : Z := 68.
Definition GASLIMIT : Z := 69.
Definition CHAINID : Z := 70.
Definition SELFBALANCE : Z := 71.
Definition BASEFEE : Z := 72.
Definition BLOBHASH : Z := 73.
Definition BLOBBASEFEE : Z := 74.
Definition POP : Z := 80.
Definition MLOAD : Z := 81.
Definition MSTORE : Z := 82.
Definition MSTORE8 : Z := 83.
Definition SLOAD : Z := 84.
Definition SSTORE : Z := 85.
Definition JUMP : Z := 86.
Definition JUMPI : Z := 87.
Definition PC : Z := 88.
Definition MSIZE : Z := 89.
Definition GAS : Z := 90.
Definition TLOAD : Z := 92.
Definition TSTORE : Z := 93.
Definition MCOPY : Z := 94.
Definition PUSH0 : Z := 95.
Definition PUSH2 : Z := 97.
Definition PUSH3 : Z := 98.
Definition PUSH4 : Z := 99.
Definition PUSH5 : Z := 100.
Definition PUSH6 : Z := 101.
Definition PUSH7 : Z := 102.
Definition PUSH8 : Z := 103.
Definition PUSH9 : Z := 104.
Definition PUSH10 : Z := 105.
Definition PUSH11 : Z := 106.
Definition PUSH12 : Z := 107.
Definition PUSH13 : Z := 108.
Definition PUSH14 : Z := 109.
Definition PUSH15 : Z := 110.
Definition PUSH16 : Z := 111.
Definition PUSH17 : Z := 112.
Definition PUSH18 : Z := 113.
Definition PUSH19 : Z := 114.
Definition PUSH20 : Z := 115.
Definition PUSH21 : Z := 116.
Definition PUSH22 : Z := 117.
Definition PUSH23 : Z := 118.
Definition PUSH24 : Z := 119.
Definition PUSH25 : Z := 120.
Definition PUSH26 : Z := 121.
Definition PUSH27 : Z := 122.
Definition PUSH28 : Z := 123.
Definition PUSH29 : Z := 124.
Definition PUSH30 : Z := 125.
Definition PUSH31 : Z := 126.
Definition DUP1 : Z := 128.
Definition DUP2 : Z := 129.
Definition DUP3 : Z := 130.
Definition DUP4 : Z := 131.
Definition DUP5 : Z := 132.
Definition DUP6 : Z := 133.
Definition DUP7 : Z := 134.
Definition DUP8 : Z := 135.
Definition DUP9 : Z := 136.
Definition DUP10 : Z := 137.
Definition DUP11 : Z := 138.
Definition DUP12 : Z := 139.
Definition DUP13 : Z := 140.
Definition DUP14 : Z := 141.
Definition DUP15 : Z := 142.
Definition DUP16 : Z := 143.
Definition SWAP1 : Z := 144.
Definition SWAP2 : Z := 145.
Definition SWAP3 : Z := 146.
Definition SWAP4 : Z := 147.
Definition SWAP5 : Z := 148.
Definition SWAP6 : Z := 149.
Definition SWAP7 : Z := 150.
Definition SWAP8 : Z := 151.
Definition SWAP9 : Z := 152.
Definition SWAP10 : Z := 153.
Definition SWAP11 : Z := 154.
Definition SWAP12 : Z := 155.
Definition SWAP13 : Z := 156.
Definition SWAP14 : Z := 157.
Definition SWAP15 : Z := 158.
Definition SWAP16 : Z := 159.
Definition LOG0 : Z := 160.
Definition LOG1 : Z := 161.
Definition LOG2 : Z := 162.
Definition LOG3 : Z := 163.
Definition LOG4 : Z := 164.
Definition CREATE : Z := 240.
Definition CALL : Z := 241.
Definition CALLCODE : Z := 242.
Definition RETURN : Z := 243.
Definition DELEGATECALL : Z := 244.
Definition CREATE2 : Z := 245.
Definition STATICCALL : Z := 250.
Definition REVERT : Z := 253.
Definition SELFDESTRUCT : Z := 255.

(** ** Operations *)

(** [operation]; a missing function is [None]. *)
Record operation := mkOperation {
  execute : executionFunc;
  constantGas : Z;
  dynamicGas : option gasFunc;
  minStack_ : Z;
  maxStack_ : Z;
  memorySize_ : option memorySizeFunc;
  computationCost : Z
}.
Definition withConstantGas (g : Z) (o : operation) : operation :=
  mkOperation (execute o) g (dynamicGas o) (minStack_ o) (maxStack_ o) (memorySize_ o) (computationCost o).
Definition withDynamicGas (g : gasFunc) (o : operation) : operation :=
  mkOperation (execute o) (constantGas o) (Some g) (minStack_ o) (maxStack_ o) (memorySize_ o) (computationCost o).
Definition withComputationCost (c : Z) (o : operation) : operation :=
  mkOperation (execute o) (constantGas o) (dynamicGas o) (minStack_ o) (maxStack_ o) (memorySize_ o) c.

(** [stack_table.go]. *)
Definition maxStack (pop push : Z) : Z := StackLimit + pop - push.
Definition minStack (pops push : Z) : Z := pops.
Definition minSwapStack (n : Z) : Z := minStack n n.
Definition maxSwapStack (n : Z) : Z := maxStack n n.
Definition minDupStack (n : Z) : Z := minStack n (n + 1).
Definition maxDupStack (n : Z) : Z := maxStack n (n + 1).

(** A table maps opcodes to operations. *)
Abbreviation JumpTable := (gmap Z operation) (only parsing).

(** [jt[op] = o] and the assignments to a field of [jt[op]]. *)
Definition setOp (op : Z) (o : operation) (jt : JumpTable) : JumpTable := <[op := o]> jt.
Definition setConstantGas (op g : Z) (jt : JumpTable) : JumpTable := alter (withConstantGas g) op jt.
Definition setDynamicGas (op : Z) (g : gasFunc) (jt : JumpTable) : JumpTable := alter (withDynamicGas g) op jt.
Definition setComputationCost (op c : Z) (jt : JumpTable) : JumpTable := alter (withComputationCost c) op jt.
Local Notation "jt |> f" := (f jt) (at level 61, left associativity, only parsing).

(** ** The tables of the early forks *)

Definition frontierArithmetic : list (Z * operation) :=
  [(STOP, mkOperation F_opStop 0 None (minStack 0 0) (maxStack 0 0) None StopComputationCost);
   (ADD, mkOperation F_opAdd GasFastestStep None (minStack 2 1) (maxStack 2 1) None AddComputationCost);
   (MUL, mkOperation F_opMul GasFastStep None (minStack 2 1) (maxStack 2 1) None MulComputationCost);
   (SUB, mkOperation F_opSub GasFastestStep None (minStack 2 1) (maxStack 2 1) None SubComputationCost);
   (DIV, mkOperation F_opDiv GasFastStep None (minStack 2 1) (maxStack 2 1) None DivComputationCost);
   (SDIV, mkOperation F_opSdiv GasFastStep None (minStack 2 1) (maxStack 2 1) None SdivComputationCost);
   (MOD, mkOperation F_opMod GasFastStep None (minStack 2 1) (maxStack 2 1) None ModComputationCost);
   (SMOD, mkOperation F_opSmod GasFastStep None (minStack 2 1) (maxStack 2 1) None SmodComputationCost);
   (ADDMOD, mkOperation F_opAddmod GasMidStep None (minStack 3 1) (maxStack 3 1) None AddmodComputationCost);
   (MULMOD, mkOperation F_opMulmod GasMidStep None (minStack 3 1) (maxStack 3 1) None MulmodComputationCost);
   (EXP, mkOperation F_opExp 0 (Some G_gasExp) (minStack 2 1) (maxStack 2 1) None ExpComputationCost);
   (SIGNEXTEND, mkOperation F_opSignExtend GasFastStep None (minStack 2 1) (maxStack 2 1) None SignExtendComputationCost)].
Definition frontierComparison : list (Z * operation) :=
  [(LT, mkOperation F_opLt GasFastestStep None (minStack 2 1) (maxStack 2 1) None LtComputationCost);
   (GT, mkOperation F_opGt GasFastestStep None (minStack 2 1) (maxStack 2 1) None GtComputationCost);
   (SLT, mkOperation F_opSlt GasFastestStep None (minStack 2 1) (maxStack 2 1) None SltComputationCost);
   (SGT, mkOperation F_opSgt GasFastestStep None (minStack 2 1) (maxStack 2 1) None SgtComputationCost);
   (EQ, mkOperation F_opEq GasFastestStep None (minStack 2 1) (maxStack 2 1) None EqComputationCost);
   (ISZERO, mkOperation F_opIszero GasFastestStep None (minStack 1 1) (maxStack 1 1) None IszeroComputationCost);
   (AND, mkOperation F_opAnd GasFastestStep None (minStack 2 1) (maxStack 2 1) None AndComputationCost);
   (XOR, mkOperation F_opXor GasFastestStep None (minStack 2 1) (maxStack 2 1) None XorComputationCost);
   (OR, mkOperation F_opOr GasFastestStep None (minStack 2 1) (maxStack 2 1) None OrComputationCost);
   (NOT, mkOperation F_opNot GasFastestStep None (minStack 1 1) (maxStack 1 1) None NotComputationCost);
   (BYTE, mkOperation F_opByte GasFastestStep None (minStack 2 1) (maxStack 2 1) None ByteComputationCost);
   (SHA3, mkOperation F_opSha3 Sha3Gas (Some G_gasSha3) (minStack 2 1) (maxStack 2 1) (Some memorySha3) Sha3ComputationCost)].
Definition frontierEnvironment : list (Z * operation) :=
  [(ADDRESS, mkOperation F_opAddress GasQuickStep None (minStack 0 1) (maxStack 0 1) None AddressComputationCost);
   (BALANCE, mkOperation F_opBalance BalanceGasEIP150 None (minStack 1 1) (maxStack 1 1) None BalanceComputationCost);
   (ORIGIN, mkOperation F_opOrigin GasQuickStep None (minStack 0 1) (maxStack 0 1) None OriginComputationCost);
   (CALLER, mkOperation F_opCaller GasQuickStep None (minStack 0 1) (maxStack 0 1) None CallerComputationCost);
   (CALLVALUE, mkOperation F_opCallValue GasQuickStep None (minStack 0 1) (maxStack 0 1) None CallValueComputationCost);
   (CALLDATALOAD, mkOperation F_opCallDataLoad GasFastestStep None (minStack 1 1) (maxStack 1 1) None CallDataLoadComputationCost);
   (CALLDATASIZE, mkOperation F_opCallDataSize GasQuickStep None (minStack 0 1) (maxStack 0 1) None CallDataSizeComputationCost);
   (CALLDATACOPY, mkOperation F_opCallDataCopy GasFastestStep (Some (G_memoryCopierGas 2)) (minStack 3 0) (maxStack 3 0) (Some memoryCallDataCopy) CallDataCopyComputationCost);
   (CODESIZE, mkOperation F_opCodeSize GasQuickStep None (minStack 0 1) (maxStack 0 1) None CodeSizeComputationCost);
   (CODECOPY, mkOperation F_opCodeCopy GasFastestStep (Some (G_memoryCopierGas 2)) (minStack 3 0) (maxStack 3 0) (Some memoryCodeCopy) CodeCopyComputationCost);
   (GASPRICE, mkOperation F_opGasprice GasQuickStep None (minStack 0 1) (maxStack 0 1) None GasPriceComputationCost);
   (EXTCODESIZE, mkOperation F_opExtCodeSize ExtcodeSizeGas None (minStack 1 1) (maxStack 1 1) None ExtCodeSizeComputationCost);
   (EXTCODECOPY, mkOperation F_opExtCodeCopy ExtcodeCopyBase (Some (G_memoryCopierGas 3)) (minStack 4 0) (maxStack 4 0) (Some memoryExtCodeCopy) ExtCodeCopyComputationCost);
   (BLOCKHASH, mkOperation F_opBlockhash GasExtStep None (minStack 1 1) (maxStack 1 1) None BlockHashComputationCost);
   (COINBASE, mkOperation F_opCoinbase GasQuickStep None (minStack 0 1) (maxStack 0 1) None CoinbaseComputationCost);
   (TIMESTAMP, mkOperation F_opTimestamp GasQuickStep None (minStack 0 1) (maxStack 0 1) None TimestampComputationCost);
   (NUMBER, mkOperation F_opNumber GasQuickStep None (minStack 0 1) (maxStack 0 1) None NumberComputationCost);
   (DIFFICULTY, mkOperation F_opDifficulty GasQuickStep None (minStack 0 1) (maxStack 0 1) None DifficultyComputationCost);
   (GASLIMIT, mkOperation F_opGasLimit GasQuickStep None (minStack 0 1) (maxStack 0 1) None GasLimitComputationCost)].
Definition frontierStorage : list (Z * operation) :=
  [(POP, mkOperation F_opPop GasQuickStep None (minStack 1 0) (maxStack 1 0) None PopComputationCost);
   (MLOAD, mkOperation F_opMload GasFastestStep (Some G_pureMemoryGascost) (minStack 1 1) (maxStack 1 1) (Some memoryMLoad) MloadComputationCost);
   (MSTORE, mkOperation F_opMstore GasFastestStep (Some G_pureMemoryGascost) (minStack 2 0) (maxStack 2 0) (Some memoryMStore) MstoreComputationCost);
   (MSTORE8, mkOperation F_opMstore8 GasFastestStep (Some G_pureMemoryGascost) (minStack 2 0) (maxStack 2 0) (Some memoryMStore8) Mstore8ComputationCost);
   (SLOAD, mkOperation F_opSload SloadGasEIP150 None (minStack 1 1) (maxStack 1 1) None SloadComputationCost);
   (SSTORE, mkOperation F_opSstore 0 (Some G_gasSStore) (minStack 2 0) (maxStack 2 0) None SstoreComputationCost);
   (JUMP, mkOperation F_opJump GasMidStep None (minStack 1 0) (maxStack 1 0) None JumpComputationCost);
   (JUMPI, mkOperation F_opJumpi GasSlowStep None (minStack 2 0) (maxStack 2 0) None JumpiComputationCost);
   (PC, mkOperation F_opPc GasQuickStep None (minStack 0 1) (maxStack 0 1) None PcComputationCost);
   (MSIZE, mkOperation F_opMsize GasQuickStep None (minStack 0 1) (maxStack 0 1) None MsizeComputationCost);
   (GAS, mkOperation F_opGas GasQuickStep None (minStack 0 1) (maxStack 0 1) None GasComputationCost);
   (JUMPDEST, mkOperation F_opJumpdest JumpdestGas None (minStack 0 0) (maxStack 0 0) None JumpDestComputationCost)].
Definition frontierPush : list (Z * operation) :=
  [(PUSH1, mkOperation F_opPush1 GasFastestStep None (minStack 0 1) (maxStack 0 1) None PushComputationCost);
   (PUSH2, mkOperation (F_makePush 2 2) GasFastestStep None (minStack 0 1) (maxStack 0 1) None PushComputationCost);
   (PUSH3, mkOperation (F_makePush 3 3) GasFastestStep None (minStack 0 1) (maxStack 0 1) None PushComputationCost);
   (PUSH4, mkOperation (F_makePush 4 4) GasFastestStep None (minStack 0 1) (maxStack 0 1) None PushComputationCost);
   (PUSH5, mkOperation (F_makePush 5 5) GasFastestStep None (minStack 0 1) (maxStack 0 1) None PushComputationCost);
   (PUSH6, mkOperation (F_makePush 6 6) GasFastestStep None (minStack 0 1) (maxStack 0 1) None PushComputationCost);
   (PUSH7, mkOperation (F_makePush 7 7) GasFastestStep None (minStack 0 1) (maxStack 0 1) None PushComputationCost);
   (PUSH8, mkOperation (F_makePush 8 8) GasFastestStep None (minStack 0 1) (maxStack 0 1) None PushComputationCost);
   (PUSH9, mkOperation (F_makePush 9 9) GasFastestStep None (minStack 0 1) (maxStack 0 1) None PushComputationCost);
   (PUSH10, mkOperation (F_makePush 10 10) GasFastestStep None (minStack 0 1) (maxStack 0 1) None PushComputationCost);
   (PUSH11, mkOperation (F_makePush 11 11) GasFastestStep None (minStack 0 1) (maxStack 0 1) None PushComputationCost);
   (PUSH12, mkOperation (F_makePush 12 12) GasFastestStep None (minStack 0 1) (maxStack 0 1) None PushComputationCost);
   (PUSH13, mkOperation (F_makePush 13 13) GasFastestStep None (minStack 0 1) (maxStack 0 1) None PushComputationCost);
   (PUSH14, mkOperation (F_makePush 14 14) GasFastestStep None (minStack 0 1) (maxStack 0 1) None PushComputationCost);
   (PUSH15, mkOperation (F_makePush 15 15) GasFastestStep None (minStack 0 1) (maxStack 0 1) None PushComputationCost);
   (PUSH16, mkOperation (F_makePush 16 16) GasFastestStep None (minStack 0 1) (maxStack 0 1) None PushComputationCost)].
Definition frontierPushLong : list (Z * operation) :=
  [(PUSH17, mkOperation (F_makePush 17 17) GasFastestStep None (minStack 0 1) (maxStack 0 1) None PushComputationCost);
   (PUSH18, mkOperation (F_makePush 18 18) GasFastestStep None (minStack 0 1) (maxStack 0 1) None PushComputationCost);
   (PUSH19, mkOperation (F_makePush 19 19) GasFastestStep None (minStack 0 1) (maxStack 0 1) None PushComputationCost);
   (PUSH20, mkOperation (F_makePush 20 20) GasFastestStep None (minStack 0 1) (maxStack 0 1) None PushComputationCost);
   (PUSH21, mkOperation (F_makePush 21 21) GasFastestStep None (minStack 0 1) (maxStack 0 1) None PushComputationCost);
   (PUSH22, mkOperation (F_makePush 22 22) GasFastestStep None (minStack 0 1) (maxStack 0 1) None PushComputationCost);
   (PUSH23, mkOperation (F_makePush 23 23) GasFastestStep None (minStack 0 1) (maxStack 0 1) None PushComputationCost);
   (PUSH24, mkOperation (F_makePush 24 24) GasFastestStep None (minStack 0 1) (maxStack 0 1) None PushComputationCost);
   (PUSH25, mkOperation (F_makePush 25 25) GasFastestStep None (minStack 0 1) (maxStack 0 1) None PushComputationCost);
   (PUSH26, mkOperation (F_makePush 26 26) GasFastestStep None (minStack 0 1) (maxStack 0 1) None PushComputationCost);
   (PUSH27, mkOperation (F_makePush 27 27) GasFastestStep None (minStack 0 1) (maxStack 0 1) None PushComputationCost);
   (PUSH28, mkOperation (F_makePush 28 28) GasFastestStep None (minStack 0 1) (maxStack 0 1) None PushComputationCost);
   (PUSH29, mkOperation (F_makePush 29 29) GasFastestStep None (minStack 0 1) (maxStack 0 1) None PushComputationCost);
   (PUSH30, mkOperation (F_makePush 30 30) GasFastestStep None (minStack 0 1) (maxStack 0 1) None PushComputationCost);
   (PUSH31, mkOperation (F_makePush 31 31) GasFastestStep None (minStack 0 1) (maxStack 0 1) None PushComputationCost);
   (PUSH32, mkOperation (F_makePush 32 32) GasFastestStep None (minStack 0 1) (maxStack 0 1) None PushComputationCost)].
Definition frontierDup : list (Z * operation) :=
  [(DUP1, mkOperation (F_makeDup 1) GasFastestStep None (minDupStack 1) (maxDupStack 1) None Dup1ComputationCost);
   (DUP2, mkOperation (F_makeDup 2) GasFastestStep None (minDupStack 2) (maxDupStack 2) None Dup2ComputationCost);
   (DUP3, mkOperation (F_makeDup 3) GasFastestStep None (minDupStack 3) (maxDupStack 3) None Dup3ComputationCost);
   (DUP4, mkOperation (F_makeDup 4) GasFastestStep None (minDupStack 4) (maxDupStack 4) None Dup4ComputationCost);
   (DUP5, mkOperation (F_makeDup 5) GasFastestStep None (minDupStack 5) (maxDupStack 5) None Dup5ComputationCost);
   (DUP6, mkOperation (F_makeDup 6) GasFastestStep None (minDupStack 6) (maxDupStack 6) None Dup6ComputationCost);
   (DUP7, mkOperation (F_makeDup 7) GasFastestStep None (minDupStack 7) (maxDupStack 7) None Dup7ComputationCost);
   (DUP8, mkOperation (F_makeDup 8) GasFastestStep None (minDupStack 8) (maxDupStack 8) None Dup8ComputationCost);
   (DUP9, mkOperation (F_makeDup 9) GasFastestStep None (minDupStack 9) (maxDupStack 9) None Dup9ComputationCost);
   (DUP10, mkOperation (F_makeDup 10) GasFastestStep None (minDupStack 10) (maxDupStack 10) None Dup10ComputationCost);
   (DUP11, mkOperation (F_makeDup 11) GasFastestStep None (minDupStack 11) (maxDupStack 11) None Dup11ComputationCost);
   (DUP12, mkOperation (F_makeDup 12) GasFastestStep None (minDupStack 12) (maxDupStack 12) None Dup12ComputationCost);
   (DUP13, mkOperation (F_makeDup 13) GasFastestStep None (minDupStack 13) (maxDupStack 13) None Dup13ComputationCost);
   (DUP14, mkOperation (F_makeDup 14) GasFastestStep None (minDupStack 14) (maxDupStack 14) None Dup14ComputationCost);
   (DUP15, mkOperation (F_makeDup 15) GasFastestStep None (minDupStack 15) (maxDupStack 15) None Dup15ComputationCost);
   (DUP16, mkOperation (F_makeDup 16) GasFastestStep None (minDupStack 16) (maxDupStack 16) None Dup16ComputationCost)].
Definition frontierSwap : list (Z * operation) :=
  [(SWAP1, mkOperation (F_makeSwap 1) GasFastestStep None (minSwapStack 2) (maxSwapStack 2) None Swap1ComputationCost);
   (SWAP2, mkOperation (F_makeSwap 2) GasFastestStep None (minSwapStack 3) (maxSwapStack 3) None Swap2ComputationCost);
   (SWAP3, mkOperation (F_makeSwap 3) GasFastestStep None (minSwapStack 4) (maxSwapStack 4) None Swap3ComputationCost);
   (SWAP4, mkOperation (F_makeSwap 4) GasFastestStep None (minSwapStack 5) (maxSwapStack 5) None Swap4ComputationCost);
   (SWAP5, mkOperation (F_makeSwap 5) GasFastestStep None (minSwapStack 6) (maxSwapStack 6) None Swap5ComputationCost);
   (SWAP6, mkOperation (F_makeSwap 6) GasFastestStep None (minSwapStack 7) (maxSwapStack 7) None Swap6ComputationCost);
   (SWAP7, mkOperation (F_makeSwap 7) GasFastestStep None (minSwapStack 8) (maxSwapStack 8) None Swap7ComputationCost);
   (SWAP8, mkOperation (F_makeSwap 8) GasFastestStep None (minSwapStack 9) (maxSwapStack 9) None Swap8ComputationCost);
   (SWAP9, mkOperation (F_makeSwap 9) GasFastestStep None (minSwapStack 10) (maxSwapStack 10) None Swap9ComputationCost);
   (SWAP10, mkOperation (F_makeSwap 10) GasFastestStep None (minSwapStack 11) (maxSwapStack 11) None Swap10ComputationCost);
   (SWAP11, mkOperation (F_makeSwap 11) GasFastestStep None (minSwapStack 12) (maxSwapStack 12) None Swap11ComputationCost);
   (SWAP12, mkOperation (F_makeSwap 12) GasFastestStep None (minSwapStack 13) (maxSwapStack 13) None Swap12ComputationCost);
   (SWAP13, mkOperation (F_makeSwap 13) GasFastestStep None (minSwapStack 14) (maxSwapStack 14) None Swap13ComputationCost);
   (SWAP14, mkOperation (F_makeSwap 14) GasFastestStep None (minSwapStack 15) (maxSwapStack 15) None Swap14ComputationCost);
   (SWAP15, mkOperation (F_makeSwap 15) GasFastestStep None (minSwapStack 16) (maxSwapStack 16) None Swap15ComputationCost);
   (SWAP16, mkOperation (F_makeSwap 16) GasFastestStep None (minSwapStack 17) (maxSwapStack 17) None Swap16ComputationCost)].
Definition frontierSystem : list (Z * operation) :=
  [(LOG0, mkOperation (F_makeLog 0) 0 (Some (G_makeGasLog 0)) (minStack 2 0) (maxStack 2 0) (Some memoryLog) Log0ComputationCost);
   (LOG1, mkOperation (F_makeLog 1) 0 (Some (G_makeGasLog 1)) (minStack 3 0) (maxStack 3 0) (Some memoryLog) Log1ComputationCost);
   (LOG2, mkOperation (F_makeLog 2) 0 (Some (G_makeGasLog 2)) (minStack 4 0) (maxStack 4 0) (Some memoryLog) Log2ComputationCost);
   (LOG3, mkOperation (F_makeLog 3) 0 (Some (G_makeGasLog 3)) (minStack 5 0) (maxStack 5 0) (Some memoryLog) Log3ComputationCost);
   (LOG4, mkOperation (F_makeLog 4) 0 (Some (G_makeGasLog 4)) (minStack 6 0) (maxStack 6 0) (Some memoryLog) Log4ComputationCost);
   (CREATE, mkOperation F_opCreate CreateGas (Some G_pureMemoryGascost) (minStack 3 1) (maxStack 3 1) (Some memoryCreate) CreateComputationCost);
   (CALL, mkOperation F_opCall CallGas (Some G_gasCall) (minStack 7 1) (maxStack 7 1) (Some memoryCall) CallComputationCost);
   (CALLCODE, mkOperation F_opCallCode CallGas (Some G_gasCallCode) (minStack 7 1) (maxStack 7 1) (Some memoryCall) CallCodeComputationCost);
   (RETURN, mkOperation F_opReturn 0 (Some G_pureMemoryGascost) (minStack 2 0) (maxStack 2 0) (Some memoryReturn) ReturnComputationCost);
   (SELFDESTRUCT, mkOperation F_opSelfdestruct 0 (Some G_gasSelfdestruct) (minStack 1 0) (maxStack 1 0) None SelfDestructComputationCost)].
Definition newFrontierInstructionSet : JumpTable :=
  list_to_map (frontierArithmetic ++ frontierComparison ++ frontierEnvironment ++ frontierStorage ++
    frontierPush ++ frontierPushLong ++ frontierDup ++ frontierSwap ++ frontierSystem).

Definition newHomesteadInstructionSet : JumpTable :=
  newFrontierInstructionSet
  |> setOp DELEGATECALL (mkOperation F_opDelegateCall CallGas (Some G_gasDelegateCall) (minStack 6 1) (maxStack 6 1) (Some memoryDelegateCall) DelegateCallComputationCost).
Definition newByzantiumInstructionSet : JumpTable :=
  newHomesteadInstructionSet
  |> setOp STATICCALL (mkOperation F_opStaticCall CallGas (Some G_gasStaticCall) (minStack 6 1) (maxStack 6 1) (Some memoryStaticCall) StaticCallComputationCost)
  |> setOp RETURNDATASIZE (mkOperation F_opReturnDataSize GasQuickStep None (minStack 0 1) (maxStack 0 1) None ReturnDataSizeComputationCost)
  |> setOp RETURNDATACOPY (mkOperation F_opReturnDataCopy GasFastestStep (Some (G_memoryCopierGas 2)) (minStack 3 0) (maxStack 3 0) (Some memoryReturnDataCopy) ReturnDataCopyComputationCost)
  |> setOp REVERT (mkOperation F_opRevert 0 (Some G_pureMemoryGascost) (minStack 2 0) (maxStack 2 0) (Some memoryRevert) RevertComputationCost).
Definition newConstantinopleInstructionSet : JumpTable :=
  newByzantiumInstructionSet
  |> setOp SHL (mkOperation F_opSHL GasFastestStep None (minStack 2 1) (maxStack 2 1) None ShlComputationCost)
  |> setOp SHR (mkOperation F_opSHR GasFastestStep None (minStack 2 1) (maxStack 2 1) None ShrComputationCost)
  |> setOp SAR (mkOperation F_opSAR GasFastestStep None (minStack 2 1) (maxStack 2 1) None SarComputationCost)
  |> setOp EXTCODEHASH (mkOperation F_opExtCodeHash ExtcodeHashGasConstantinople None (minStack 1 1) (maxStack 1 1) None ExtCodeHashComputationCost)
  |> setOp CREATE2 (mkOperation F_opCreate2 Create2Gas (Some G_gasCreate2) (minStack 4 1) (maxStack 4 1) (Some memoryCreate2) Create2ComputationCost).

(** ** Changes of a table *)

Definition enable1884 (jt : JumpTable) : JumpTable :=
  jt
  |> setConstantGas SLOAD SloadGasEIP1884
  |> setConstantGas BALANCE BalanceGasEIP1884
  |> setConstantGas EXTCODEHASH ExtcodeHashGasEIP1884
  |> setOp SELFBALANCE (mkOperation F_opSelfBalance GasFastStep None (minStack 0 1) (maxStack 0 1) None SelfBalanceComputationCost).
Definition enable1344 (jt : JumpTable) : JumpTable :=
  jt
  |> setOp CHAINID (mkOperation F_opChainID GasQuickStep None (minStack 0 1) (maxStack 0 1) None ChainIDComputationCost).
Definition enable2200 (jt : JumpTable) : JumpTable :=
  jt
  |> setConstantGas SLOAD SloadGasEIP2200
  |> setDynamicGas SSTORE G_gasSStoreEIP2200.
Definition enableIstanbulComputationCostModification (jt : JumpTable) : JumpTable :=
  jt
  |> setComputationCost ADDMOD AddmodComputationCostIstanbul
  |> setComputationCost MULMOD MulmodComputationCostIstanbul
  |> setComputationCost NOT NotComputationCostIstanbul
  |> setComputationCost XOR XorComputationCostIstanbul
  |> setComputationCost SHL ShlComputationCostIstanbul
  |> setComputationCost SHR ShrComputationCostIstanbul
  |> setComputationCost SAR SarComputationCostIstanbul.
Definition enable1153 (jt : JumpTable) : JumpTable :=
  jt
  |> setOp TLOAD (mkOperation F_opTload WarmStorageReadCostEIP2929 None (minStack 1 1) (maxStack 1 1) None TloadComputationCost)
  |> setOp TSTORE (mkOperation F_opTstore WarmStorageReadCostEIP2929 None (minStack 2 0) (maxStack 2 0) None TstoreComputationCost).
Definition enable3198 (jt : JumpTable) : JumpTable :=
  jt
  |> setOp BASEFEE (mkOperation F_opBaseFee GasQuickStep None (minStack 0 1) (maxStack 0 1) None BaseFeeComputationCost).
Definition enable2929 (jt : JumpTable) : JumpTable :=
  jt
  |> setDynamicGas SSTORE (G_makeGasSStoreFunc SstoreClearsScheduleRefundEIP2200)
  |> setConstantGas SLOAD 0
  |> setDynamicGas SLOAD G_gasSLoadEIP2929
  |> setConstantGas EXTCODECOPY WarmStorageReadCostEIP2929
  |> setDynamicGas EXTCODECOPY G_gasExtCodeCopyEIP2929
  |> setConstantGas EXTCODESIZE WarmStorageReadCostEIP2929
  |> setDynamicGas EXTCODESIZE G_gasEip2929AccountCheck
  |> setConstantGas EXTCODEHASH WarmStorageReadCostEIP2929
  |> setDynamicGas EXTCODEHASH G_gasEip2929AccountCheck
  |> setConstantGas BALANCE WarmStorageReadCostEIP2929
  |> setDynamicGas BALANCE G_gasEip2929AccountCheck
  |> setConstantGas CALL WarmStorageReadCostEIP2929
  |> setDynamicGas CALL (G_makeCallVariantGasCallEIP2929 G_gasCall)
  |> setConstantGas CALLCODE WarmStorageReadCostEIP2929
  |> setDynamicGas CALLCODE (G_makeCallVariantGasCallEIP2929 G_gasCallCode)
  |> setConstantGas STATICCALL WarmStorageReadCostEIP2929
  |> setDynamicGas STATICCALL (G_makeCallVariantGasCallEIP2929 G_gasStaticCall)
  |> setConstantGas DELEGATECALL WarmStorageReadCostEIP2929
  |> setDynamicGas DELEGATECALL (G_makeCallVariantGasCallEIP2929 G_gasDelegateCall)
  |> setConstantGas SELFDESTRUCT SelfdestructGas
  |> setDynamicGas SELFDESTRUCT (G_makeSelfdestructGasFn true).
Definition enable3529 (jt : JumpTable) : JumpTable :=
  jt
  |> setDynamicGas SSTORE (G_makeGasSStoreFunc SstoreClearsScheduleRefundEIP3529)
  |> setDynamicGas SELFDESTRUCT (G_makeSelfdestructGasFn false).
Definition enable4399 (jt : JumpTable) : JumpTable :=
  jt
  |> setOp PREVRANDAO (mkOperation F_opRandom GasQuickStep None (minStack 0 1) (maxStack 0 1) None RandomComputationCost).
Definition enable3855 (jt : JumpTable) : JumpTable :=
  jt
  |> setOp PUSH0 (mkOperation F_opPush0 GasQuickStep None (minStack 0 1) (maxStack 0 1) None Push0ComputationCost).
Definition enable3860 (jt : JumpTable) : JumpTable :=
  jt
  |> setDynamicGas CREATE G_gasCreateEip3860
  |> setDynamicGas CREATE2 G_gasCreate2Eip3860.
Definition enable5656 (jt : JumpTable) : JumpTable :=
  jt
  |> setOp MCOPY (mkOperation F_opMcopy GasFastestStep (Some (G_memoryCopierGas 2)) (minStack 3 0) (maxStack 3 0) (Some memoryMcopy) McopyComputationCost).
Definition enable6780 (jt : JumpTable) : JumpTable :=
  jt
  |> setOp SELFDESTRUCT (mkOperation F_opSelfdestruct6780 SelfdestructGas (Some (G_makeSelfdestructGasFn false)) (minStack 1 0) (maxStack 1 0) None SelfDestructComputationCost).
Definition enable4844 (jt : JumpTable) : JumpTable :=
  jt
  |> setOp BLOBHASH (mkOperation F_opBlobHash GasFastestStep None (minStack 1 1) (maxStack 1 1) None BlobHashComptationCost).
Definition enable7516 (jt : JumpTable) : JumpTable :=
  jt
  |> setOp BLOBBASEFEE (mkOperation F_opBlobBaseFee GasQuickStep None (minStack 0 1) (maxStack 0 1) None BlobBaseFeeComputationCost).
Definition enable1052 (jt : JumpTable) : JumpTable :=
  jt
  |> setOp EXTCODEHASH (mkOperation F_opExtCodeHash1052 ExtcodeHashGasConstantinople None (minStack 1 1) (maxStack 1 1) None ExtCodeHashComputationCost).
Definition enableCancunComputationCostModification (jt : JumpTable) : JumpTable :=
  jt
  |> setComputationCost SDIV SdivComputationCostCancun
  |> setComputationCost MOD ModComputationCostCancun
  |> setComputationCost ADDMOD AddmodComputationCostCancun
  |> setComputationCost MULMOD MulmodComputationCostCancun
  |> setComputationCost EXP ExpComputationCostCancun
  |> setComputationCost SHA3 Sha3ComputationCostCancun
  |> setComputationCost MSTORE8 Mstore8ComputationCostCancun
  |> setComputationCost SLOAD SloadComputationCostCancun
  |> setComputationCost SSTORE SstoreComputationCostCancun
  |> setComputationCost LOG1 Log1ComputationCostCancun
  |> setComputationCost LOG2 Log2ComputationCostCancun
  |> setComputationCost LOG3 Log3ComputationCostCancun
  |> setComputationCost LOG4 Log4ComputationCostCancun.

(** [EnableEIP]: nothing for an unknown number. *)
Definition EnableEIP (eipNum : Z) (jt : JumpTable) : option JumpTable :=
  match eipNum with
  | 4844 => Some (enable4844 jt) | 7516 => Some (enable7516 jt) | 6780 => Some (enable6780 jt)
  | 5656 => Some (enable5656 jt) | 3860 => Some (enable3860 jt) | 3855 => Some (enable3855 jt)
  | 4399 => Some (enable4399 jt) | 3529 => Some (enable3529 jt) | 2929 => Some (enable2929 jt)
  | 2200 => Some (enable2200 jt) | 1884 => Some (enable1884 jt) | 1344 => Some (enable1344 jt)
  | 1153 => Some (enable1153 jt) | _ => None
  end.

(** ** The tables of the later forks *)

Definition newIstanbulInstructionSet : JumpTable :=
  enableIstanbulComputationCostModification (enable2200 (enable1884 (enable1344 newConstantinopleInstructionSet))).
Definition newLondonInstructionSet : JumpTable := enable3198 newIstanbulInstructionSet.
Definition newKoreInstructionSet : JumpTable := enable4399 (enable3529 (enable2929 newLondonInstructionSet)).
Definition newShanghaiInstructionSet : JumpTable := enable3860 (enable3855 newKoreInstructionSet).
Definition newCancunInstructionSet : JumpTable :=
  enableCancunComputationCostModification (enable1052 (enable1153 (enable6780 (enable5656 (enable7516 (enable4844
    newShanghaiInstructionSet)))))).

(** The table that [NewEVMInterpreter] picks, and the limit of the computation cost. *)
Definition instructionSet (r : Rules) : JumpTable :=
  if IsCancun r then newCancunInstructionSet
  else if IsShanghai r then newShanghaiInstructionSet
  else if IsKore r then newKoreInstructionSet
  else if IsLondon r then newLondonInstructionSet
  else if IsIstanbul r then newIstanbulInstructionSet
  else newConstantinopleInstructionSet.
Definition costLimit (r : Rules) (configured override : Z) : Z :=
  if configured =? OpcodeComputationCostLimitInfinite then configured
  else if negb (override =? 0) then override
  else if IsCancun r then OpcodeComputationCostLimitCancun else OpcodeComputationCostLimit.
End Table.
