(* ===== verification/EvmRun.v ===== *)
(** * The interpreter and the calls

    Model of [blockchain/vm/interpreter.go] and [evm.go], with the transfers of
    [blockchain/evm.go]: the loop that runs the code of a contract, and the calls and creations
    that run a contract inside another.  The recursion is on a fuel that every turn of the loop
    takes one from, so that the calls of an instruction run on less. *)

From S2P Require Import Prelude Rlp AccountKey EvmWord EvmCode EvmMem EvmParams EvmState EvmGas EvmOps EvmTable.

Module Run.
Export Table.

(** ** The machine monad *)

Section machine.
Context {word : Uint256} {vms : VMState}.

(** Code of [evm.go], which has no stack or memory of its own. *)
Definition EM (A : Type) : Type := EVM -> res vmPanic (A * EVM).
#[export] Instance EM_ret : MRet EM := fun A a e => Ok (a, e).
#[export] Instance EM_bind : MBind EM := fun A B k m e =>
  match m e with
  | Ok (a, e) => k a e
  | Err p => Err p
  | Panic => Panic
  | NoFuel => NoFuel
  end.
Definition evmGet {A} (f : EVM -> A) : EM A := fun e => Ok (f e, e).
Definition evmModify (f : EVM -> EVM) : EM unit := fun e => Ok (tt, f e).
Definition evmLift {A} (r : res vmPanic A) : EM A := fun e => a ← r; mret (a, e).
Definition stRead {A} (f : DB -> A * DB) : EM A := fun e => let '(a, db) := f (evm_StateDB e) in Ok (a, setDB db e).
Definition stDo (f : DB -> DB) : EM unit := evmModify (fun e => setDB (f (evm_StateDB e)) e).
Definition stChange (f : DB -> go DB) : EM unit := fun e =>
  match f (evm_StateDB e) with Ok db => Ok (tt, setDB db e) | _ => Err panicStateDB end.

(** [CanTransfer] and [Transfer] of [blockchain/evm.go]. *)
Definition CanTransfer (a : Address) (amount : Z) : EM bool := b ← stRead (dbGetBalance a); mret (amount <=? b).
Definition Transfer (sender recipient : Address) (amount : Z) : EM unit :=
  stDo (dbSubBalance sender amount);; stDo (dbAddBalance recipient amount).

Definition VmVersion0 : Z := 0.
Definition CancelByTotalTimeLimit : Z := 2.
End machine.

(** How the loop ends: by a return inside it, or by leaving it with the result of the last
    instruction. *)
Inductive exit := Returned (e : vmError) | Broke (ret : bytes) (err : option vmError).

Section interpreter.
Context {word : Uint256} {vms : VMState} (env : Env) (jt : gmap Z operation).

(** ** One turn of the loop *)

(** The size of the memory after the instruction, in bytes, and by how much it grows; an error
    when it overflows. *)
Definition memoryFor (o : operation) : M (option (Z * Z)) :=
  match memorySize_ o with
  | None => mret (Some (0, 0))
  | Some f =>
      r ← memorySize f;
      let '(memSize, overflow) := (r : Z * bool) in
      if overflow then mret None
      else
        let '(size, overflow) := SafeMul (toWordSize memSize) 32 in
        if overflow then mret None
        else m ← get s_mem; mret (Some (size, if u64 (Len m) <? size then size - u64 (Len m) else 0))
  end.
(** The dynamic gas of the instruction: whether it was paid. *)
Definition payDynamic (o : operation) (size : Z) : M bool :=
  match dynamicGas o with
  | None => mret true
  | Some g =>
      r ← (dynamicGas_ g size : M (vmError + Z));
      match r with
      | inl _ => mret false
      | inr cost => useGas cost
      end
  end.
(** The checks before an instruction runs: the stack, the gas, the computation cost and the
    memory. *)
Definition prepare (o : operation) : M (option vmError) :=
  sLen ← get (fun s => len (s_stack s));
  if sLen <? minStack_ o then mret (Some errStackUnderflow)
  else if maxStack_ o <? sLen then mret (Some errStackLimit)
  else
    ok ← useGas (constantGas o);
    if negb ok then mret (Some ErrOutOfGas)
    else
      modify (fun s => setEvm (setCostSum (u64 (evm_opcodeComputationCostSum (s_evm s) + computationCost o)) (s_evm s)) s);;
      sum ← get (fun s => evm_opcodeComputationCostSum (s_evm s));
      if ComputationCostLimit (Config_ env) <? sum then mret (Some ErrOpcodeComputationCostLimitReached)
      else
        r ← memoryFor o;
        match r with
        | None => mret (Some errGasUintOverflow)
        | Some (size, extra) =>
            paid ← payDynamic o size;
            if negb paid then mret (Some ErrOutOfGas)
            else
              (if 0 <? extra then modify (fun s => setMem (Increase extra (s_mem s)) s) else mret tt);;
              mret None
        end.

Definition step (calls : Calls) : M (exit + bytes) :=
  op ← get (fun s => GetOp (s_pc s) (s_contract s));
  match jt !! op with
  | None => mret (inl (Returned errInvalidOpcode))
  | Some o =>
      r ← prepare o;
      match r with
      | Some e => mret (inl (Returned e))
      | None =>
          r ← execute_ env calls (execute o);
          let '(res, err) := (r : bytes * option vmError) in
          match err with
          | Some e => mret (inl (Broke res (Some e)))
          | None => modify (fun s => setPc (u64 (s_pc s + 1)) s);; mret (inr res)
          end
      end
  end.

(** ** Running a contract *)

(** [EVMInterpreter.Run], given its loop: the result and the contract with the gas left. *)
Definition RunWith (loop : bytes -> M exit) (c : Contract) (input : bytes) : EM (bytes * option vmError * Contract) := fun e =>
  let e := setReturnData [] (setDepth (evm_depth e + 1) e) in
  if len (c_Code c) =? 0 then Ok ([], None, c, setDepth (evm_depth e - 1) e)
  else
    r ← loop [] (mkSt 0 [] NewMemory (setInput input c) e);
    let '(x, s) := (r : exit * St) in
    match x with
    | Returned err => Ok ([], Some err, s_contract s, setDepth (evm_depth (s_evm s) - 1) (s_evm s))
    | Broke ret err =>
        r ← loadAbort env s;
        let '(abort, s) := (r : Z * St) in
        let result := if negb (Z.land abort CancelByTotalTimeLimit =? 0) then ([], Some ErrTotalTimeLimitReached)
                      else (ret, if bool_decide (err = Some errStopToken) then None else err) in
        Ok (result, s_contract s, setDepth (evm_depth (s_evm s) - 1) (s_evm s))
    end.

(** [GetPrecompiledContractMap] and [isProgramAccount]. *)
Definition GetPrecompiledContractMap (a : Address) : EM (gmap Address PrecompiledContract) :=
  v ← stRead (dbGetVmVersion a);
  mret (if bool_decide (v = Some VmVersion0) then PrecompiledContractsByzantium env
        else if IsCancun (chainRules env) then PrecompiledContractsCancun env
        else if IsKore (chainRules env) then PrecompiledContractsKore env
        else if IsIstanbul (chainRules env) then PrecompiledContractsIstanbul env
        else PrecompiledContractsByzantium env).
Definition isProgramAccount (caller addr : Address) : EM bool :=
  m ← GetPrecompiledContractMap caller;
  if bool_decide (is_Some (m !! addr)) then mret true else stRead (dbIsProgramAccount addr).

(** [RunPrecompiledContract]: the computation cost is due whether the gas suffices or not. *)
Definition RunPrecompiledContract (p : PrecompiledContract) (input : bytes) (c : Contract) :
    EM (bytes * Z * option vmError * Contract) := fun e =>
  r ← GetRequiredGasAndComputationCost p input;
  let '(gas, computationCost) := (r : Z * Z) in
  let '(ok, c) := UseGas gas c in
  if ok then
    r ← RunPrecompiled p input c e;
    let '(ret, err, e) := (r : bytes * option vmError * EVM) in Ok (ret, computationCost, err, c, e)
  else Ok ([], computationCost, Some ErrOutOfGas, c, e).

(** [run]: a precompiled contract or the interpreter. *)
Definition run (loop : bytes -> M exit) (c : Contract) (input : bytes) : EM (bytes * option vmError * Contract) :=
  p ← match c_CodeAddr c with
      | None => mret None
      | Some a => m ← GetPrecompiledContractMap (c_CallerAddress c); mret (m !! a)
      end;
  match p with
  | Some p =>
      r ← RunPrecompiledContract p input c;
      let '(ret, computationCost, err, c) := (r : bytes * Z * option vmError * Contract) in
      evmModify (fun e => setCostSum (u64 (evm_opcodeComputationCostSum e + computationCost)) e);;
      mret (ret, err, c)
  | None => RunWith loop c input
  end.

(** ** Calls *)

(** [NewContract]: a contract called by an account starts with an empty map of analyses. *)
Definition newContract (caller : ContractRef) (object : Address) (value gas : Z) : EM Contract :=
  match caller with
  | ContractAsRef _ _ _ _ => mret tt
  | _ => evmModify (setJumpdests ∅)
  end;;
  mret (NewContract caller object value gas).
Definition setCallCode (addr : Address) (c : Contract) : EM Contract :=
  h ← stRead (dbGetCodeHash addr); code ← stRead (dbGetCode addr); mret (SetCallCode addr h code c).

(** The end of a call: on an error the state is reverted, and all gas is gone unless the code
    asked for it. *)
Definition settle (snapshot : Z) (r : bytes * Z * option vmError) : EM (bytes * Z * option vmError) :=
  let '(ret, gas, err) := r in
  match err with
  | None => mret (ret, gas, None)
  | Some e =>
      stChange (dbRevertToSnapshot snapshot);;
      mret (ret, if bool_decide (e = ErrExecutionReverted) then gas else 0, Some e)
  end.

(** The checks that all calls start with: [Some] of an early result. *)
Definition callGuard (gas : Z) : EM (option (bytes * Z * option vmError)) :=
  depth ← evmGet evm_depth;
  if NoRecursion (Config_ env) && (0 <? depth) then mret (Some ([], gas, None))
  else if CallCreateDepth <? depth then mret (Some ([], gas, Some ErrDepth))
  else mret None.

(** [Call]. *)
Definition callPrecompiledFilter (caller addr : Address) (value : Z) : EM bool :=
  if IsPrecompiledContractAddress addr then
    m ← GetPrecompiledContractMap caller;
    if negb (bool_decide (is_Some (m !! addr))) || negb (value =? 0) then mret false
    else
      exist ← stRead (dbExist addr);
      (if (exist : bool) then mret tt else stDo (dbCreateSmartContractAccount addr CodeFormatEVM (chainRules env)));;
      mret true
  else mret true.
Definition CallWith (loop : bytes -> M exit) (caller : ContractRef) (addr : Address) (input : bytes) (gas value : Z) :
    EM (bytes * Z * option vmError) :=
  guard ← callGuard gas;
  match guard with
  | Some r => mret r
  | None =>
      enough ← CanTransfer (refAddress caller) value;
      if negb enough then mret ([], gas, Some ErrInsufficientBalance)
      else
        snapshot ← stRead dbSnapshot;
        allowed ← callPrecompiledFilter (refAddress caller) addr value;
        if negb allowed then mret ([], gas, Some ErrPrecompiledContractAddress)
        else
          exist ← stRead (dbExist addr);
          if negb exist && (value =? 0) then mret ([], gas, None)
          else
            (if (exist : bool) then mret tt else stDo (dbCreateEOA addr false AccountKeyLegacy));;
            Transfer (refAddress caller) addr value;;
            program ← isProgramAccount (refAddress caller) addr;
            if (program : bool) then
              c ← newContract caller addr value gas;
              c ← setCallCode addr c;
              r ← run loop c input;
              let '(ret, err, c) := (r : bytes * option vmError * Contract) in
              settle snapshot (ret, c_Gas c, err)
            else settle snapshot ([], gas, None)
  end.

(** [CallCode], [DelegateCall] and [StaticCall], from the code they run on. *)
Definition runCode (loop : bytes -> M exit) (addr : Address) (input : bytes) (c : Contract) (snapshot : Z) :
    EM (bytes * Z * option vmError) :=
  c ← setCallCode addr c;
  r ← run loop c input;
  let '(ret, err, c) := (r : bytes * option vmError * Contract) in
  settle snapshot (ret, c_Gas c, err).
Definition CallCodeWith (loop : bytes -> M exit) (caller : ContractRef) (addr : Address) (input : bytes) (gas value : Z) :
    EM (bytes * Z * option vmError) :=
  guard ← callGuard gas;
  match guard with
  | Some r => mret r
  | None =>
      enough ← CanTransfer (refAddress caller) value;
      if negb enough then mret ([], gas, Some ErrInsufficientBalance)
      else
        program ← isProgramAccount (refAddress caller) addr;
        if negb program then mret ([], gas, None)
        else
          snapshot ← stRead dbSnapshot;
          c ← newContract caller (refAddress caller) value gas;
          runCode loop addr input c snapshot
  end.
Definition DelegateCallWith (loop : bytes -> M exit) (caller : ContractRef) (addr : Address) (input : bytes) (gas : Z) :
    EM (bytes * Z * option vmError) :=
  guard ← callGuard gas;
  match guard with
  | Some r => mret r
  | None =>
      program ← isProgramAccount (refAddress caller) addr;
      if negb program then mret ([], gas, None)
      else
        snapshot ← stRead dbSnapshot;
        c ← newContract caller (refAddress caller) 0 gas;
        c ← evmLift (AsDelegate c);
        runCode loop addr input c snapshot
  end.
Definition StaticCallWith (loop : bytes -> M exit) (caller : ContractRef) (addr : Address) (input : bytes) (gas : Z) :
    EM (bytes * Z * option vmError) :=
  guard ← callGuard gas;
  match guard with
  | Some r => mret r
  | None =>
      ro ← evmGet evm_readOnly;
      evmModify (setReadOnly true);;
      program ← isProgramAccount (refAddress caller) addr;
      r ← (if negb program then mret ([], gas, None)
           else
             snapshot ← stRead dbSnapshot;
             c ← newContract caller addr 0 gas;
             runCode loop addr input c snapshot);
      evmModify (setReadOnly ro);;
      mret r
  end.

(** ** Creations *)

(** [crypto.CreateAddress] and [crypto.CreateAddress2]. *)
Definition CreateAddress (b : Address) (nonce : Z) : Address :=
  BytesToAddress (drop 12 (keccak256 env (RLP.enc (RLP.Lst [RLP.Str b; RLP.Str (RLP.minbe nonce)])))).
Definition CreateAddress2 (b : Address) (salt : Hash) (inithash : Hash) : Address :=
  BytesToAddress (drop 12 (keccak256 env ([255] ++ b ++ salt ++ inithash))).

Definition emptyCodeHash_ : Hash := keccak256 env [].

(** Whether a contract may be created at the address. *)
Definition collision (address : Address) (contractHash : Hash) : EM bool :=
  if IsShanghai (chainRules env) then
    nonce ← stRead (dbGetNonce address);
    mret (negb (nonce =? 0) ||
          (negb (bool_decide (contractHash = zeroHash)) && negb (bool_decide (contractHash = emptyCodeHash_))))
  else stRead (dbExist address).

(** What becomes of the code that the creation returned: the gas for it, its size, and the
    prefix reserved by EIP-3541. *)
Definition storeCode (address : Address) (ret : bytes) (c : Contract) (err : option vmError) : EM (Contract * option vmError) :=
  match err with
  | None =>
      if MaxCodeSize <? len ret then mret (c, None)
      else
        let '(ok, c) := UseGas (u64 (u64 (len ret) * CreateDataGas)) c in
        if ok then
          set ← stRead (dbSetCode address ret);
          mret (c, if (set : bool) then None else Some ErrFailedOnSetCode)
        else mret (c, Some ErrCodeStoreOutOfGas)
  | Some e => mret (c, Some e)
  end.
Definition finishCode (snapshot : Z) (ret : bytes) (c : Contract) (err : option vmError) : EM (Contract * option vmError) :=
  let maxCodeSizeExceeded := MaxCodeSize <? len ret in
  r ← (if maxCodeSizeExceeded || bool_decide (is_Some err) then
         stChange (dbRevertToSnapshot snapshot);;
         mret (if bool_decide (err = Some ErrExecutionReverted) then c else setGas 0 c)
       else mret c);
  let err := if maxCodeSizeExceeded && bool_decide (err = None) then Some ErrMaxCodeSizeExceeded else err in
  let err := if bool_decide (err = None) && bool_decide (ret !! 0%nat = Some 239) && IsKore (chainRules env)
             then Some ErrInvalidCode else err in
  mret (r, err).

(** [create]. *)
Definition createWith (loop : bytes -> M exit) (caller : ContractRef) (code : bytes) (hash : Hash) (gas value : Z)
    (address : Address) (humanReadable : bool) (codeFormat : Z) : EM (bytes * Address * Z * option vmError) :=
  depth ← evmGet evm_depth;
  if CallCreateDepth <? depth then mret ([], zeroAddress, gas, Some ErrDepth)
  else
    enough ← CanTransfer (refAddress caller) value;
    if negb enough then mret ([], zeroAddress, gas, Some ErrInsufficientBalance)
    else
      stDo (dbIncNonce (refAddress caller));;
      (if IsKore (chainRules env) then stDo (dbAddAddressToAccessList address) else mret tt);;
      contractHash ← stRead (dbGetCodeHash address);
      taken ← collision address contractHash;
      if (taken : bool) then mret ([], zeroAddress, 0, Some ErrContractAddressCollision)
      else if IsPrecompiledContractAddress address then mret ([], zeroAddress, gas, Some ErrPrecompiledContractAddress)
      else
        snapshot ← stRead dbSnapshot;
        stDo (dbCreateSmartContractAccountWithKey address humanReadable AccountKeyFail codeFormat (chainRules env));;
        stDo (dbSetNonce address 1);;
        (if value =? 0 then mret tt else Transfer (refAddress caller) address value);;
        c ← newContract caller address value gas;
        let c := SetCallCode address hash code c in
        if NoRecursion (Config_ env) && (0 <? depth) then mret ([], address, gas, None)
        else
          r ← RunWith loop c [];
          let '(ret, err, c) := (r : bytes * option vmError * Contract) in
          r ← storeCode address ret c err;
          let '(c, err) := (r : Contract * option vmError) in
          r ← finishCode snapshot ret c err;
          let '(c, err) := (r : Contract * option vmError) in
          mret (ret, address, c_Gas c, err).

(** [Create], [Create2] and [CreateWithAddress]; only the last two have hashed the code. *)
Definition CreateWith (loop : bytes -> M exit) (caller : ContractRef) (code : bytes) (gas value codeFormat : Z) :
    EM (bytes * Address * Z * option vmError) :=
  nonce ← stRead (dbGetNonce (refAddress caller));
  createWith loop caller code zeroHash gas value (CreateAddress (refAddress caller) nonce) false codeFormat.
Definition Create2With (loop : bytes -> M exit) (caller : ContractRef) (code : bytes) (gas endowment : Z) (salt : W) :
    EM (bytes * Address * Z * option vmError) :=
  let hash := keccak256 env code in
  createWith loop caller code hash gas endowment (CreateAddress2 (refAddress caller) (uBytes32 salt) hash) false CodeFormatEVM.
Definition CreateWithAddressWith (loop : bytes -> M exit) (caller : ContractRef) (code : bytes) (gas value : Z)
    (address : Address) (humanReadable : bool) (codeFormat : Z) : EM (bytes * Address * Z * option vmError) :=
  createWith loop caller code (keccak256 env code) gas value address humanReadable codeFormat.

Definition callsWith (loop : bytes -> M exit) : Calls :=
  mkCalls (CallWith loop) (CallCodeWith loop) (DelegateCallWith loop) (StaticCallWith loop) (CreateWith loop) (Create2With loop).

(** ** The loop *)

Fixpoint loop (fuel : nat) (res : bytes) : M exit :=
  match fuel with
  | O => fun _ => NoFuel
  | S fuel =>
      abort ← loadAbort env;
      if negb (abort =? 0) then mret (Broke res None)
      else
        r ← step (callsWith (loop fuel));
        match r with
        | inl x => mret x
        | inr res => loop fuel res
        end
  end.

(** The methods of [EVM] on a given fuel. *)
Definition Call (fuel : nat) := CallWith (loop fuel).
Definition CallCode (fuel : nat) := CallCodeWith (loop fuel).
Definition DelegateCall (fuel : nat) := DelegateCallWith (loop fuel).
Definition StaticCall (fuel : nat) := StaticCallWith (loop fuel).
Definition Create (fuel : nat) := CreateWith (loop fuel).
Definition Create2 (fuel : nat) := Create2With (loop fuel).
Definition CreateWithAddress (fuel : nat) := CreateWithAddressWith (loop fuel).
End interpreter.
End Run.
