(* ===== verification/EvmSpec.v ===== *)
(** * What a run preserves

    The promises of the state database that the machine relies on, the invariant of a running
    call, and the rules by which the instructions are proved against them. *)

From S2P Require Import Prelude Rlp AccountKey EvmWord EvmCode EvmMem EvmParams EvmState EvmGas EvmOps EvmTable EvmRun.

Module Spec.
Export Run.

(** ** The promises of the state database *)

Definition is_addr (a : Address) : Prop := length a = 20%nat.

(** A key whose validation does not fault: its public keys are points, and a key of roles has
    one. *)
Fixpoint sound_key (k : AccountKey) : Prop :=
  match k with
  | AccountKeyRoleBased keys => keys <> [] /\ (fix all (keys : list AccountKey) : Prop :=
                                                match keys with [] => True | k :: keys => sound_key k /\ all keys end) keys
  | _ => key_ok k
  end.

(** [alike] relates databases from which the same can be read, [same] those that agree on what
    contracts own; [within id g s] holds when the snapshot [id], taken in the state [g], can be
    reverted to from [s]. *)
Class StateRel {vms : VMState} := {
  good : DB -> Prop;
  alike : DB -> DB -> Prop;
  same : DB -> DB -> Prop;
  within : Z -> DB -> DB -> Prop
}.

Section laws.
Context {vms : VMState} {rel : StateRel}.

(** A well-formed later state, from which every earlier snapshot can still be reverted to. *)
Definition ext (s s' : DB) : Prop := good s' /\ forall id g, within id g s -> within id g s'.
Definition reads {A} (f : DB -> A * DB) : Prop := forall s, good s -> ext s (f s).2 /\ alike s (f s).2.
Definition quiet (f : DB -> DB) : Prop := forall s, good s -> ext s (f s) /\ same s (f s).
Definition changes (f : DB -> DB) : Prop := forall s, good s -> ext s (f s).
End laws.

(** Getters leave the database alike, and the changes that are not to what contracts own
    (refunds, access lists, preimages, empty accounts) leave it the same; every operation keeps
    earlier snapshots; reverting leads back to the state of the snapshot; the code of an account is
    the one its code hash stands for, and its key can be validated against. *)
Class StateLaws {vms : VMState} {rel : StateRel} (hash : bytes -> Hash) := {
  #[global] same_preorder :: PreOrder same;
  #[global] alike_preorder :: PreOrder alike;
  law_alike s s' : alike s s' -> same s s';
  law_GetBalance a : is_addr a -> reads (dbGetBalance a);
  law_GetNonce a : is_addr a -> reads (dbGetNonce a);
  law_GetCodeHash a : is_addr a -> reads (dbGetCodeHash a);
  law_GetCode a : is_addr a -> reads (dbGetCode a);
  law_GetCodeSize a : is_addr a -> reads (dbGetCodeSize a);
  law_GetVmVersion a : is_addr a -> reads (dbGetVmVersion a);
  law_GetState a k : is_addr a -> reads (dbGetState a k);
  law_GetCommittedState a k : is_addr a -> reads (dbGetCommittedState a k);
  law_HasSelfDestructed a : is_addr a -> reads (dbHasSelfDestructed a);
  law_Exist a : is_addr a -> reads (dbExist a);
  law_Empty a : is_addr a -> reads (dbEmpty a);
  law_IsProgramAccount a : is_addr a -> reads (dbIsProgramAccount a);
  law_GetKey a : is_addr a -> reads (dbGetKey a);
  law_AddRefund g : quiet (dbAddRefund g);
  law_SubRefund g s s' : good s -> dbSubRefund g s = Ok s' -> ext s s' /\ same s s';
  law_AddAddress a : is_addr a -> quiet (dbAddAddressToAccessList a);
  law_AddSlot a k s s' : is_addr a -> good s -> dbAddSlotToAccessList a k s = Ok s' -> ext s s' /\ same s s';
  law_AddPreimage h p : quiet (dbAddPreimage h p);
  law_SubBalance_zero a : is_addr a -> quiet (dbSubBalance a 0);
  law_AddBalance_zero a : is_addr a -> quiet (dbAddBalance a 0);
  law_CreateEmpty a f r s s' : is_addr a -> good s -> dbExist a s = (false, s') ->
    ext s' (dbCreateSmartContractAccount a f r s') /\ same s' (dbCreateSmartContractAccount a f r s');
  law_CreateSmartContract a h k f r : is_addr a -> sound_key k -> changes (dbCreateSmartContractAccountWithKey a h k f r);
  law_CreateEOA a h k : is_addr a -> sound_key k -> changes (dbCreateEOA a h k);
  law_SubBalance a v : is_addr a -> changes (dbSubBalance a v);
  law_AddBalance a v : is_addr a -> changes (dbAddBalance a v);
  law_IncNonce a : is_addr a -> changes (dbIncNonce a);
  law_SetNonce a n : is_addr a -> changes (dbSetNonce a n);
  law_SetCode a c s : is_addr a -> len c <= MaxCodeSize -> good s -> ext s (dbSetCode a c s).2;
  law_SetState a k v : is_addr a -> changes (dbSetState a k v);
  law_SetTransientState a k v : changes (dbSetTransientState a k v);
  law_SelfDestruct a : is_addr a -> changes (dbSelfDestruct a);
  law_SelfDestruct6780 a : is_addr a -> changes (dbSelfDestruct6780 a);
  law_AddLog a t d : changes (dbAddLog a t d);
  law_Snapshot s : good s -> ext s (dbSnapshot s).2 /\ alike s (dbSnapshot s).2 /\ within (dbSnapshot s).1 s (dbSnapshot s).2;
  law_Revert id g s : good s -> within id g s -> exists s', dbRevertToSnapshot id s = Ok s' /\ ext g s' /\ alike g s';
  law_code_len a s : is_addr a -> good s -> len (dbGetCode a s).1 < 2 ^ 63;
  law_code_hash a s : is_addr a -> good s -> let '(h, s1) := dbGetCodeHash a s in
    (dbGetCode a s1).1 = [] \/ hash (dbGetCode a s1).1 = h;
  law_key a s : is_addr a -> good s -> sound_key (dbGetKey a s).1
}.

Section spec.
Context {word : Uint256} {wspec : Uint256Spec} {vms : VMState} {rel : StateRel}.
Context (hash : bytes -> Hash) {laws : StateLaws hash}.

Lemma ext_good s s' : ext s s' -> good s'.
Proof. by intros []. Qed.
Lemma ext_refl s : good s -> ext s s.
Proof. by split. Qed.
Lemma ext_trans s1 s2 s3 : ext s1 s2 -> ext s2 s3 -> ext s1 s3.
Proof. intros [_ H1] [H2 H3]. split; [done|]. eauto. Qed.

(** ** Analyses *)

(** The cached analyses are those of the codes with that hash. *)
Definition cache_ok (m : gmap Hash bytes) : Prop := forall code bits, len code < 2 ^ 63 ->
  m !! hash code = Some bits -> codeBitmap (E:=vmPanic) code = Ok bits.

(** A contract as the machine builds it: twenty-byte addresses, code and input of real slices,
    the analysis of its own code, and a code hash that stands for the code. *)
Record contract_ok (c : Contract) : Prop := {
  co_self : is_addr (c_self c);
  co_caller : is_addr (c_CallerAddress c);
  co_code : len (c_Code c) < 2 ^ 63;
  co_input : len (c_Input c) < 2 ^ 63;
  co_hash : c_CodeHash c = zeroHash \/ hash (c_Code c) = c_CodeHash c;
  co_analysis : forall bits, c_analysis c = Some bits -> codeBitmap (E:=vmPanic) (c_Code c) = Ok bits
}.

(** ** The machine *)

Record evm_ok (e : EVM) : Prop := { eo_db : good (evm_StateDB e); eo_cache : cache_ok (evm_jumpdests e) }.

(** What a call leaves of the machine it started on. *)
Record evm_rel (e e' : EVM) : Prop := {
  er_depth : evm_depth e' = evm_depth e;
  er_readOnly : evm_readOnly e' = evm_readOnly e;
  er_ext : ext (evm_StateDB e) (evm_StateDB e');
  er_same : evm_readOnly e = true -> same (evm_StateDB e) (evm_StateDB e');
  er_cache : cache_ok (evm_jumpdests e')
}.

Lemma evm_rel_refl e : evm_ok e -> evm_rel e e.
Proof using laws. intros []. split; try done. Qed.
Lemma evm_rel_trans e1 e2 e3 : evm_rel e1 e2 -> evm_rel e2 e3 -> evm_rel e1 e3.
Proof using laws.
  intros [D1 R1 X1 S1 _] [D2 R2 X2 S2 C2]. split; try done; try congruence.
  - by eapply ext_trans.
  - intros Hr. etransitivity; [by apply S1|]. apply S2. congruence.
Qed.
Lemma evm_rel_ok e e' : evm_rel e e' -> evm_ok e'.
Proof. intros [_ _ X _ C]. split; [by eapply ext_good|done]. Qed.

(** Machines that differ in other fields than those of [evm_rel]. *)
Lemma evm_rel_fields e e1 e2 : evm_rel e e1 -> evm_depth e2 = evm_depth e1 -> evm_readOnly e2 = evm_readOnly e1 ->
  evm_StateDB e2 = evm_StateDB e1 -> evm_jumpdests e2 = evm_jumpdests e1 -> evm_rel e e2.
Proof. intros [] H1 H2 H3 H4. split; rewrite ?H1, ?H2, ?H3, ?H4; done. Qed.

(** A step of the database. *)
Lemma evm_rel_db e e1 db : evm_rel e e1 -> ext (evm_StateDB e1) db -> (evm_readOnly e = true -> same (evm_StateDB e1) db) ->
  evm_rel e (setDB db e1).
Proof using laws.
  intros [D R X S C] Hx Hs. split; try done.
  - by eapply ext_trans.
  - intros Hr. etransitivity; [by apply S|by apply Hs].
Qed.

(** ** Outcomes *)

(** [r] is a result with [Q] or a panic of the state database, never a fault of the machine, and
    lacks fuel only when [enough] does not hold. *)
Definition post {A} (enough : Prop) (r : res vmPanic A) (Q : A -> Prop) : Prop :=
  match r with Ok a => Q a | Err _ => True | Panic => False | NoFuel => ~ enough end.

Lemma post_mono {A} (E E' : Prop) r (Q Q' : A -> Prop) : (E' -> E) -> (forall a, Q a -> Q' a) -> post E r Q -> post E' r Q'.
Proof. intros HE HQ. destruct r; cbn; auto. Qed.
Lemma post_bind {A B} (E : Prop) (m : res vmPanic A) (k : A -> res vmPanic B) Q :
  post E m (fun a => post E (k a) Q) -> post E (m ≫= k) Q.
Proof. by destruct m. Qed.

Definition wp {A} (E : Prop) (m : M A) (Q : A -> St -> Prop) (s : St) : Prop := post E (m s) (fun r => Q r.1 r.2).
Definition ewp {A} (E : Prop) (m : EM A) (Q : A -> EVM -> Prop) (e : EVM) : Prop := post E (m e) (fun r => Q r.1 r.2).

Lemma wp_mono {A} (E E' : Prop) (m : M A) (Q Q' : A -> St -> Prop) s :
  (E' -> E) -> (forall a s', Q a s' -> Q' a s') -> wp E m Q s -> wp E' m Q' s.
Proof. intros HE HQ. apply post_mono; [done|]. intros [a s'] Hq. by apply HQ. Qed.
Lemma wp_bind {A B} (E : Prop) (m : M A) (k : A -> M B) Q s : wp E m (fun a s' => wp E (k a) Q s') s -> wp E (m ≫= k) Q s.
Proof. unfold wp, mbind, M_bind. destruct (m s) as [[a s']| | |]; done. Qed.
Lemma wp_ret {A} (E : Prop) (a : A) Q s : Q a s -> wp E (mret a) Q s.
Proof. done. Qed.
Lemma wp_get {A} (E : Prop) (f : St -> A) Q s : Q (f s) s -> wp E (get f) Q s.
Proof. done. Qed.
Lemma wp_modify (E : Prop) f Q s : Q tt (f s) -> wp E (modify f) Q s.
Proof. done. Qed.
Lemma wp_lift {A} (E : Prop) (r : res vmPanic A) Q s : post E r (fun a => Q a s) -> wp E (lift r) Q s.
Proof. unfold wp, lift. by destruct r. Qed.

Lemma ewp_mono {A} (E E' : Prop) (m : EM A) (Q Q' : A -> EVM -> Prop) e :
  (E' -> E) -> (forall a e', Q a e' -> Q' a e') -> ewp E m Q e -> ewp E' m Q' e.
Proof. intros HE HQ. apply post_mono; [done|]. intros [a e'] Hq. by apply HQ. Qed.
Lemma ewp_bind {A B} (E : Prop) (m : EM A) (k : A -> EM B) Q e : ewp E m (fun a e' => ewp E (k a) Q e') e -> ewp E (m ≫= k) Q e.
Proof. unfold ewp, mbind, EM_bind. destruct (m e) as [[a e']| | |]; done. Qed.
Lemma ewp_ret {A} (E : Prop) (a : A) Q e : Q a e -> ewp E (mret a) Q e.
Proof. done. Qed.

(** Getters and changes of the database in a call of [evm.go]. *)
Lemma ewp_stRead {A} (E : Prop) (f : DB -> A * DB) e0 Q e : evm_rel e0 e -> reads f ->
  (forall a e', (f (evm_StateDB e)).1 = a -> evm_rel e0 e' -> e' = setDB (f (evm_StateDB e)).2 e -> Q a e') -> ewp E (stRead f) Q e.
Proof using laws.
  intros Hr Hf HQ. unfold ewp, stRead. destruct (Hf (evm_StateDB e)) as [Hx Hs]; [apply (evm_rel_ok _ _ Hr)|].
  destruct (f (evm_StateDB e)) as [a db] eqn:Hfe. cbn in *. eapply HQ; [done| |done]. eapply evm_rel_db; [done|done|]. intros _. by apply law_alike.
Qed.
Lemma ewp_stDo (E : Prop) (f : DB -> DB) e0 Q e : evm_rel e0 e -> changes f -> (evm_readOnly e0 = true -> quiet f) ->
  (forall e', evm_rel e0 e' -> e' = setDB (f (evm_StateDB e)) e -> Q tt e') -> ewp E (stDo f) Q e.
Proof using laws.
  intros Hr Hf Hq HQ. unfold ewp, stDo, evmModify. cbn. apply HQ; [|done]. pose proof (evm_rel_ok _ _ Hr) as [Hg _].
  apply evm_rel_db; [done|by apply Hf|]. intros Hro. by apply (Hq Hro).
Qed.
End spec.
End Spec.
