(* ===== verification/EvmInv.v ===== *)
(** * The invariant of a running call

    The bounds that hold at every turn of the interpreter, what an instruction leaves of them,
    and the rules for the parts instructions are made of. *)

From S2P Require Import Prelude Rlp AccountKey EvmWord EvmCode EvmMem EvmParams EvmState EvmGas EvmOps EvmTable EvmRun EvmSpec.

Module Inv.
Export Spec.

(** No more gas than this is ever given to a call. *)
Definition gas_max : Z := 2 ^ 61.

(** What a memory of so many words costs, and that what was paid for the memory is its cost. *)
Definition memFee (words : Z) : Z := words * MemoryGas + words * words / QuadCoeffDiv.
Definition mem_paid (m : Memory) : Prop := Len m mod 32 = 0 /\ m_lastGasCost m = memFee (Len m / 32).

Section inv.
Context {word : Uint256} {wspec : Uint256Spec} {vms : VMState} {rel : StateRel}.
Context (hash : bytes -> Hash) {laws : StateLaws hash} (hash_inj : Inj (=) (=) hash).

(** ** Invariant and frame *)

Record inv (s : St) : Prop := {
  i_stack : len (s_stack s) <= StackLimit;
  i_mem : Len (s_mem s) <= mem_limit;
  i_paid : mem_paid (s_mem s);
  i_gas : 0 <= c_Gas (s_contract s) <= gas_max;
  i_pc : is_u64 (s_pc s);
  i_contract : contract_ok hash (s_contract s);
  i_evm : evm_ok hash (s_evm s)
}.

(** The fields of a contract that running it does not change. *)
Definition static (c : Contract) :=
  (c_Code c, c_CodeHash c, c_self c, c_CallerAddress c, c_Input c, c_CodeAddr c, c_value c, c_FeePayerAddress c).

(** What an instruction leaves as it was; the stack, the program counter and the gas apart. *)
Record frame (s0 s : St) : Prop := {
  f_static : static (s_contract s) = static (s_contract s0);
  f_contract : contract_ok hash (s_contract s);
  f_len : Len (s_mem s) = Len (s_mem s0);
  f_last : m_lastGasCost (s_mem s) = m_lastGasCost (s_mem s0);
  f_evm : evm_rel hash (s_evm s0) (s_evm s)
}.
Definition same_gas (s0 s : St) : Prop := c_Gas (s_contract s) = c_Gas (s_contract s0).

Lemma frame_refl s : inv s -> frame s s.
Proof using laws. intros []. split; try done. by apply evm_rel_refl. Qed.

(** The stack and the program counter are free. *)
Lemma frame_free s0 s s' : frame s0 s -> s_mem s' = s_mem s -> s_contract s' = s_contract s -> s_evm s' = s_evm s -> frame s0 s'.
Proof. intros [] H1 H2 H3. split; by rewrite ?H1, ?H2, ?H3. Qed.

Lemma frame_evm s0 s e : frame s0 s -> evm_rel hash (s_evm s0) e -> frame s0 (setEvm e s).
Proof. intros [] He. by split. Qed.
Lemma frame_mem s0 s m : frame s0 s -> Len m = Len (s_mem s) -> m_lastGasCost m = m_lastGasCost (s_mem s) -> frame s0 (setMem m s).
Proof. intros [] H1 H2. split; try done; cbn; congruence. Qed.

(** So are the fields of the machine that a call does not restore. *)
Lemma frame_fields s0 s e : frame s0 s -> evm_depth e = evm_depth (s_evm s) -> evm_readOnly e = evm_readOnly (s_evm s) ->
  evm_StateDB e = evm_StateDB (s_evm s) -> evm_jumpdests e = evm_jumpdests (s_evm s) -> frame s0 (setEvm e s).
Proof. intros Hf ? ? ? ?. apply frame_evm; [done|]. eapply evm_rel_fields; [apply Hf|done..]. Qed.

Lemma frame_good s0 s : frame s0 s -> good (evm_StateDB (s_evm s)).
Proof. intros [_ _ _ _ He]. by apply (evm_rel_ok _ _ _ He). Qed.
Lemma frame_code s0 s : frame s0 s -> c_Code (s_contract s) = c_Code (s_contract s0).
Proof. intros [H _ _ _ _]. unfold static in H. congruence. Qed.
Lemma frame_ro s0 s : frame s0 s -> evm_readOnly (s_evm s) = evm_readOnly (s_evm s0).
Proof. intros [_ _ _ _ []]. done. Qed.

(** ** Rules *)

Lemma wp_read {A} E (f : DB -> A * DB) e0 Q s : evm_rel hash e0 (s_evm s) -> reads f ->
  (forall a db, evm_rel hash e0 (setDB db (s_evm s)) -> f (evm_StateDB (s_evm s)) = (a, db) -> Q a (setEvm (setDB db (s_evm s)) s)) ->
  wp E (dbRead f) Q s.
Proof using laws.
  intros He Hr HQ. unfold wp, dbRead. destruct (Hr (evm_StateDB (s_evm s))) as [Hx Hs]; [apply (evm_rel_ok _ _ _ He)|].
  destruct (f (evm_StateDB (s_evm s))) as [a db] eqn:Hfe. cbn in *. apply HQ; [|done]. apply (evm_rel_db hash); [done|done|]. intros _. by apply law_alike.
Qed.
Lemma wp_do E (f : DB -> DB) e0 Q s : evm_rel hash e0 (s_evm s) -> changes f -> (evm_readOnly e0 = true -> quiet f) ->
  (forall db, evm_rel hash e0 (setDB db (s_evm s)) -> Q tt (setEvm (setDB db (s_evm s)) s)) -> wp E (dbDo f) Q s.
Proof using laws.
  intros He Hc Hq HQ. unfold wp, dbDo, modify. cbn. apply HQ. pose proof (eo_db _ _ (evm_rel_ok _ _ _ He)).
  apply (evm_rel_db hash); [done|by apply Hc|]. intros Hro. by apply (Hq Hro).
Qed.
Lemma wp_dbRead {A} E (f : DB -> A * DB) s0 Q s : frame s0 s -> reads f ->
  (forall a db, frame s0 (setEvm (setDB db (s_evm s)) s) -> f (evm_StateDB (s_evm s)) = (a, db) -> Q a (setEvm (setDB db (s_evm s)) s)) ->
  wp E (dbRead f) Q s.
Proof using laws. intros Hf Hr HQ. eapply wp_read; [apply Hf|done|]. intros a db He. apply HQ. by apply frame_evm. Qed.
Lemma wp_dbDo E (f : DB -> DB) s0 Q s : frame s0 s -> changes f -> (evm_readOnly (s_evm s0) = true -> quiet f) ->
  (forall db, frame s0 (setEvm (setDB db (s_evm s)) s) -> Q tt (setEvm (setDB db (s_evm s)) s)) -> wp E (dbDo f) Q s.
Proof using laws. intros Hf Hc Hq HQ. eapply wp_do; [apply Hf|done|done|]. intros db He. apply HQ. by apply frame_evm. Qed.
Lemma wp_dbTry {A} E (f : DB -> go A) Q s : (forall a, f (evm_StateDB (s_evm s)) = Ok a -> Q a s) -> wp E (dbTry f) Q s.
Proof. intros HQ. unfold wp, dbTry. destruct (f _) eqn:Hf; cbn; auto. Qed.
Lemma wp_dbChange E (f : DB -> go DB) e0 Q s : evm_rel hash e0 (s_evm s) ->
  (forall db db', good db -> f db = Ok db' -> ext db db' /\ same db db') ->
  (forall db, evm_rel hash e0 (setDB db (s_evm s)) -> Q tt (setEvm (setDB db (s_evm s)) s)) -> wp E (dbChange f) Q s.
Proof using laws.
  intros He Hc HQ. unfold dbChange. apply wp_bind, wp_dbTry. intros db Hdb. apply wp_modify. apply HQ.
  destruct (Hc _ _ (eo_db _ _ (evm_rel_ok _ _ _ He)) Hdb). by apply (evm_rel_db hash).
Qed.
Lemma wp_memRead {A} E (f : Memory -> res vmPanic A) Q s : post E (f (s_mem s)) (fun a => Q a s) -> wp E (memRead f) Q s.
Proof. intros H. unfold memRead. apply wp_bind, wp_get, wp_lift. done. Qed.
Lemma wp_memDo E (f : Memory -> res vmPanic Memory) s0 Q s : frame s0 s ->
  (exists m, f (s_mem s) = Ok m /\ Len m = Len (s_mem s) /\ m_lastGasCost m = m_lastGasCost (s_mem s)) ->
  (forall m, frame s0 (setMem m s) -> Q tt (setMem m s)) -> wp E (memDo f) Q s.
Proof.
  intros Hf (m & Hm & Hl & Hg) HQ. unfold memDo. apply wp_bind, wp_get, wp_bind, wp_lift. rewrite Hm. cbn [post]. apply wp_modify, HQ.
  by apply frame_mem.
Qed.
Lemma wp_setRet E b s0 Q s : frame s0 s ->
  (frame s0 (setEvm (setReturnData b (s_evm s)) s) -> Q tt (setEvm (setReturnData b (s_evm s)) s)) -> wp E (setRet b) Q s.
Proof. intros Hf HQ. apply wp_modify, HQ. by apply frame_fields. Qed.
Lemma wp_loadAbort E env s0 Q s : frame s0 s ->
  (forall a, let s' := setEvm (setLoads (S (evm_loads (s_evm s))) (s_evm s)) s in frame s0 s' -> Q a s') -> wp E (loadAbort env) Q s.
Proof. intros Hf HQ. unfold wp, loadAbort. cbn [post]. apply HQ. by apply frame_fields. Qed.
Lemma wp_pop E Q s x l : s_stack s = x :: l -> Q x (setStack l s) -> wp E pop Q s.
Proof. intros H HQ. unfold wp, pop. by rewrite H. Qed.
Lemma wp_Back E n Q s x : s_stack s !! n = Some x -> Q x s -> wp E (Back n) Q s.
Proof. intros H HQ. unfold wp, Back. by rewrite H. Qed.
Lemma wp_poke E x Q s y l : s_stack s = y :: l -> Q tt (setStack (x :: l) s) -> wp E (poke x) Q s.
Proof. intros H HQ. unfold wp, poke. by rewrite H. Qed.

(** ** Memory ranges *)

(** The range of [l] bytes from [off] on lies in a memory of [L] bytes. *)
Definition ranged (off l : W) (L : Z) : Prop := uv l < 2 ^ 64 /\ (0 < uv l -> uv off < 2 ^ 64 /\ uv off + uv l <= L).

Lemma calcMemSize64WithUint_ready off n m : 0 <= n < 2 ^ 64 -> calcMemSize64WithUint off n = (m, false) ->
  0 <= m /\ (0 < n -> uv off < 2 ^ 64 /\ uv off + n = m).
Proof using wspec.
  intros Hn. unfold calcMemSize64WithUint. destruct (Z.eqb_spec n 0) as [->|Hz]; [intros [= <-]; lia|].
  rewrite uUint64WithOverflow_spec. destruct (Z.ltb_spec (uv off) (2 ^ 64)) as [Ho|]; cbn [negb]; [|done].
  pose proof (uv_range off). rewrite (u64_small (uv off)) by (unfold is_u64; lia). intros [= <- Hlt%Z.ltb_ge].
  assert (uv off + n < 2 ^ 64).
  { destruct (decide (uv off + n < 2 ^ 64)); [done|]. exfalso. unfold u64 in Hlt.
    assert ((uv off + n) mod 2 ^ 64 = uv off + n - 2 ^ 64) by (symmetry; apply (Z.mod_unique _ _ 1); lia). lia. }
  rewrite u64_small by (unfold is_u64; lia). lia.
Qed.
Lemma calcMemSize64_ready off l m : calcMemSize64 off l = (m, false) -> 0 <= m /\ (forall L, m <= L -> ranged off l L).
Proof using wspec.
  unfold calcMemSize64. rewrite uIsUint64_spec. destruct (Z.ltb_spec (uv l) (2 ^ 64)) as [Hl|]; cbn [negb]; [|done].
  pose proof (uv_range l). rewrite uUint64_small by done. intros H0. apply calcMemSize64WithUint_ready in H0 as [Hm H1]; [|lia].
  split; [done|]. intros L HL. split; [done|]. intros Hp. specialize (H1 Hp). lia.
Qed.

Section memory.
Context (m : Memory) (Hm : Len m <= mem_limit).

Lemma mem_bound : Len m < 2 ^ 63.
Proof using Hm. unfold mem_limit in Hm. lia. Qed.

Lemma ranged_nums off l : ranged off l (Len m) -> uUint64 l = uv l /\ i64 (uUint64 l) = uv l /\
  (0 < uv l -> uUint64 off = uv off /\ i64 (uUint64 off) = uv off /\ uv off + uv l <= Len m) /\ 0 <= uv l < 2 ^ 63.
Proof using Hm wspec.
  intros [Hl Hr]. pose proof mem_bound. pose proof (uv_range l). pose proof (uv_range off).
  assert (0 <= uv l < 2 ^ 63) by (destruct (decide (0 < uv l)) as [Hp|]; [destruct (Hr Hp); lia|lia]).
  rewrite uUint64_small, i64_small by lia. split_and!; try done; try lia. intros Hp. destruct (Hr Hp). rewrite uUint64_small, i64_small by lia. lia.
Qed.

Lemma ranged_GetPtr {E} off l : ranged off l (Len m) -> exists b, GetPtr (E:=E) (i64 (uUint64 off)) (i64 (uUint64 l)) m = Ok b /\ len b = uv l.
Proof using Hm wspec.
  intros Hr. destruct (ranged_nums off l Hr) as (H1 & H2 & H3 & H4). rewrite H2. apply GetPtr_ok; [apply mem_bound|lia|].
  intros Hp. destruct (H3 Hp) as (? & -> & ?). pose proof (uv_range off). lia.
Qed.
Lemma ranged_GetCopy {E} off l : ranged off l (Len m) -> exists b, GetCopy (E:=E) (i64 (uUint64 off)) (i64 (uUint64 l)) m = Ok b /\ len b = uv l.
Proof using Hm wspec.
  intros Hr. destruct (ranged_nums off l Hr) as (H1 & H2 & H3 & H4). rewrite H2. apply GetCopy_ok; [apply mem_bound|lia|].
  intros Hp. destruct (H3 Hp) as (? & -> & ?). pose proof (uv_range off). lia.
Qed.
Lemma ranged_Set {E} off l data : ranged off l (Len m) -> exists m', Set_ (E:=E) (uUint64 off) (uUint64 l) data m = Ok m' /\
  Len m' = Len m /\ m_lastGasCost m' = m_lastGasCost m.
Proof using Hm wspec.
  intros Hr. destruct (ranged_nums off l Hr) as (H1 & _ & H3 & H4). rewrite H1. apply Set_ok; [apply mem_bound| |lia|].
  - apply uUint64_range.
  - intros Hp. destruct (H3 Hp) as (-> & _ & ?). done.
Qed.
End memory.

(** ** Jump destinations *)

Lemma analysed_segment E code bits p : codeBitmap (E:=vmPanic) code = Ok bits -> len code < 2 ^ 63 -> 0 <= p < len code ->
  post E (codeSegment bits p) (fun b => b = bool_decide (starts code p)).
Proof.
  intros Hb Hc Hp. destruct (codeBitmap_spec (E:=vmPanic) code Hc) as (bits' & Hb' & Hs). rewrite Hb in Hb'. injection Hb' as <-.
  destruct (Hs p Hp) as [Hcov Hst]. rewrite codeSegment_bit by done. cbn. destruct (bit bits p); cbn; symmetry.
  - apply bool_decide_eq_false. intros Hq. by apply Hst in Hq.
  - apply bool_decide_eq_true. by apply Hst.
Qed.

Lemma cache_insert j c bits : contract_ok hash c -> cache_ok hash j -> c_CodeHash c <> zeroHash ->
  codeBitmap (E:=vmPanic) (c_Code c) = Ok bits -> cache_ok hash (<[c_CodeHash c := bits]> j).
Proof using hash_inj.
  intros Hc Hj Hz Hb code' bits' Hl. destruct (co_hash _ _ Hc) as [|Hh]; [done|]. rewrite <- Hh. destruct (decide (hash code' = hash (c_Code c))) as [He|Hne].
  - apply (inj hash) in He. subst code'. rewrite lookup_insert_eq. by intros [= <-].
  - rewrite lookup_insert_ne by done. by apply Hj.
Qed.

Lemma frame_analysis s0 s bits : frame s0 s -> codeBitmap (E:=vmPanic) (c_Code (s_contract s)) = Ok bits ->
  frame s0 (setContract (setAnalysis bits (s_contract s)) s).
Proof.
  intros [Hst [] Hl Hg He] Hb. split; try done. split; try done. cbn. by intros bits' [= <-].
Qed.

(** [isCode] answers whether an instruction starts at the position, through any of the caches. *)
Lemma isCode_ok E s0 s p Q : frame s0 s -> 0 <= p < len (c_Code (s_contract s)) ->
  (forall s', frame s0 s' -> same_gas s s' -> s_stack s' = s_stack s -> s_pc s' = s_pc s ->
     Q (bool_decide (starts (c_Code (s_contract s)) p)) s') ->
  wp E (isCode p) Q s.
Proof using hash_inj laws.
  intros Hf Hp HQ. pose proof (f_contract _ _ Hf) as Hc. pose proof (co_code _ _ Hc) as Hcl.
  assert (forall bits s', codeBitmap (E:=vmPanic) (c_Code (s_contract s)) = Ok bits -> frame s0 s' -> same_gas s s' ->
    s_stack s' = s_stack s -> s_pc s' = s_pc s -> wp E (lift (codeSegment bits p)) Q s') as Hseg.
  { intros bits s' Hb ? ? ? ?. apply wp_lift. eapply post_mono; [| |by apply (analysed_segment E (c_Code (s_contract s)))]; [done|]. intros b ->. by apply HQ. }
  unfold isCode. apply wp_bind, wp_get. destruct (c_analysis (s_contract s)) as [bits|] eqn:Ha.
  { apply Hseg; try done. by apply (co_analysis _ _ Hc). }
  destruct (codeBitmap_spec (E:=vmPanic) (c_Code (s_contract s)) Hcl) as (bits & Hb & _).
  clear HQ. case_bool_decide as Hz.
  - apply wp_bind, wp_lift. rewrite Hb. cbn [post]. apply wp_bind, wp_modify, Hseg; try done. by apply frame_analysis.
  - apply wp_bind, wp_get, wp_bind. destruct (evm_jumpdests (s_evm s) !! c_CodeHash (s_contract s)) as [bits'|] eqn:Hj.
    + apply wp_ret. assert (bits' = bits) as ->.
      { destruct (co_hash _ _ Hc) as [|Hh]; [done|]. rewrite <- Hh in Hj. apply (er_cache _ _ _ (f_evm _ _ Hf)) in Hj; [congruence|done]. }
      apply wp_bind, wp_modify, Hseg; try done. by apply frame_analysis.
    + apply wp_bind, wp_lift. rewrite Hb. cbn [post]. apply wp_bind, wp_modify, wp_ret, wp_bind, wp_modify, Hseg; try done.
      apply (frame_analysis s0 (setEvm _ s)); [|done]. apply frame_evm; [done|]. destruct (f_evm _ _ Hf) as [? ? ? ? ?].
      split; try done. by apply cache_insert.
Qed.

(** [validJumpdest] answers whether the position is a JUMPDEST where an instruction starts. *)
Definition jump_target (code : bytes) (p : Z) : Prop := code !! Z.to_nat p = Some JUMPDEST /\ starts code p.

Lemma validJumpdest_ok E s0 s dest (Q : bool -> St -> Prop) : frame s0 s ->
  (forall b s', frame s0 s' -> same_gas s s' -> s_stack s' = s_stack s -> s_pc s' = s_pc s ->
     (b = true <-> jump_target (c_Code (s_contract s)) (uv dest)) -> Q b s') ->
  wp E (validJumpdest dest) Q s.
Proof using hash_inj laws wspec.
  intros Hf HQ. unfold validJumpdest. rewrite uUint64WithOverflow_spec. apply wp_bind, wp_get.
  pose proof (co_code _ _ (f_contract _ _ Hf)) as Hcl. pose proof (len_nonneg (c_Code (s_contract s))).
  rewrite (u64_small (len _)) by (unfold is_u64; lia). pose proof (uv_range dest).
  destruct (Z.ltb_spec (uv dest) (2 ^ 64)) as [Hd|Hd]; cbn [negb orb].
  - rewrite u64_small by (unfold is_u64; lia). destruct (Z.leb_spec (len (c_Code (s_contract s))) (uv dest)) as [Hge|Hlt].
    + apply wp_ret, HQ; try done. split; [done|]. intros [Hl _]. apply lookup_lt_Some in Hl. unfold len in Hge. lia.
    + destruct (lookup_lt_is_Some_2 (c_Code (s_contract s)) (Z.to_nat (uv dest))) as [op Hop]; [unfold len in Hlt; lia|].
      apply wp_bind, wp_lift. rewrite (index_lookup _ _ _ Hop). cbn [post]. destruct (Z.eqb_spec op JUMPDEST) as [->|Hne]; cbn [negb].
      * eapply isCode_ok; [done|lia|]. intros s' ? ? ? ?. apply HQ; try done. rewrite bool_decide_eq_true. unfold jump_target. tauto.
      * apply wp_ret, HQ; try done. split; [done|]. intros [Hl _]. congruence.
  - apply wp_ret, HQ; try done. split; [done|]. intros [Hl _]. apply lookup_lt_Some in Hl. unfold len in *. lia.
Qed.
End inv.
End Inv.
