(* ===== verification/EvmPlain.v ===== *)
(** * Instructions without calls

    Every instruction that makes no call, run on a stack with its operands and a memory that holds
    its ranges, neither faults nor changes anything but the stack, the program counter, the
    contents of the memory and the state database; and not even the latter when the call is
    read-only. *)

From S2P Require Import Prelude Rlp AccountKey EvmWord EvmCode EvmMem EvmParams EvmState EvmGas EvmOps EvmTable EvmRun.
From S2P Require Import EvmSpec EvmInv.

Module Plain.
Export Inv.

(** ** The shape of an instruction *)

(** How many values it takes from the stack, and how many it puts there. *)
Definition arity (f : executionFunc) : nat * nat :=
  match f with
  | F_opAdd | F_opSub | F_opMul | F_opDiv | F_opSdiv | F_opMod | F_opSmod | F_opExp | F_opSignExtend | F_opLt | F_opGt | F_opSlt
  | F_opSgt | F_opEq | F_opAnd | F_opOr | F_opXor | F_opByte | F_opSHL | F_opSHR | F_opSAR | F_opSha3 => (2, 1)
  | F_opAddmod | F_opMulmod => (3, 1)
  | F_opNot | F_opIszero | F_opBalance | F_opCallDataLoad | F_opExtCodeSize | F_opExtCodeHash1052 | F_opExtCodeHash | F_opBlockhash
  | F_opBlobHash | F_opMload | F_opSload | F_opTload => (1, 1)
  | F_opAddress | F_opOrigin | F_opCaller | F_opCallValue | F_opCallDataSize | F_opReturnDataSize | F_opCodeSize | F_opGasprice
  | F_opCoinbase | F_opTimestamp | F_opNumber | F_opDifficulty | F_opRandom | F_opGasLimit | F_opSelfBalance | F_opChainID
  | F_opBaseFee | F_opBlobBaseFee | F_opPc | F_opMsize | F_opGas | F_opPush0 | F_opPush1 | F_makePush _ _ => (0, 1)
  | F_opCallDataCopy | F_opReturnDataCopy | F_opCodeCopy | F_opMcopy => (3, 0)
  | F_opExtCodeCopy => (4, 0)
  | F_opPop | F_opJump | F_opSelfdestruct | F_opSelfdestruct6780 => (1, 0)
  | F_opMstore | F_opMstore8 | F_opSstore | F_opTstore | F_opJumpi | F_opReturn | F_opRevert => (2, 0)
  | F_opJumpdest | F_opStop => (0, 0)
  | F_makeLog n => (n + 2, 0)
  | F_makeDup n => (n, n + 1)
  | F_makeSwap n => (n + 1, n + 1)
  | F_opCall | F_opCallCode => (7, 1)
  | F_opDelegateCall | F_opStaticCall => (6, 1)
  | F_opCreate => (3, 1)
  | F_opCreate2 => (4, 1)
  end%nat.

(** The memory it needs. *)
Definition memOf (f : executionFunc) : option memorySizeFunc :=
  match f with
  | F_opSha3 => Some memorySha3
  | F_opCallDataCopy => Some memoryCallDataCopy
  | F_opReturnDataCopy => Some memoryReturnDataCopy
  | F_opCodeCopy => Some memoryCodeCopy
  | F_opExtCodeCopy => Some memoryExtCodeCopy
  | F_opMload => Some memoryMLoad
  | F_opMstore => Some memoryMStore
  | F_opMstore8 => Some memoryMStore8
  | F_opMcopy => Some memoryMcopy
  | F_opReturn => Some memoryReturn
  | F_opRevert => Some memoryRevert
  | F_makeLog _ => Some memoryLog
  | F_opCall | F_opCallCode => Some memoryCall
  | F_opDelegateCall => Some memoryDelegateCall
  | F_opStaticCall => Some memoryStaticCall
  | F_opCreate => Some memoryCreate
  | F_opCreate2 => Some memoryCreate2
  | _ => None
  end.

(** Whether it always ends the call, whether it makes a call, and whether its parameters are
    those of the tables. *)
Definition halts (f : executionFunc) : bool :=
  match f with F_opReturn | F_opRevert | F_opStop | F_opSelfdestruct | F_opSelfdestruct6780 => true | _ => false end.
Definition callsOut (f : executionFunc) : bool :=
  match f with F_opCall | F_opCallCode | F_opDelegateCall | F_opStaticCall | F_opCreate | F_opCreate2 => true | _ => false end.
Definition sized (f : executionFunc) : bool :=
  match f with
  | F_makeDup n => (0 <? n)%nat
  | F_makePush n k => (0 <=? n) && (0 <=? k)
  | _ => true
  end.

Section plain.
Context {word : Uint256} {wspec : Uint256Spec} {vms : VMState} {rel : StateRel}.
Context (hash : bytes -> Hash) {laws : StateLaws hash} (hash_inj : Inj (=) (=) hash).

(** The memory holds the range. *)
Definition fits (r : res vmPanic (Z * bool * St)) (L : Z) : Prop := match r with Ok ((m, false), _) => m <= L | _ => False end.

(** The memory has been sized for the instruction. *)
Definition mem_ready (f : option memorySizeFunc) (s : St) : Prop :=
  match f with
  | None => True
  | Some mf => fits (memorySize mf s) (Len (s_mem s))
  end.

(** What holds after an instruction. *)
Definition plain_post (f : executionFunc) (s0 : St) (r : bytes * option vmError) (s : St) : Prop :=
  frame hash s0 s /\ same_gas s0 s /\ is_u64 (s_pc s) /\
  (r.2 = None -> halts f = false /\ len (s_stack s) + Z.of_nat (arity f).1 = len (s_stack s0) + Z.of_nat (arity f).2).

Lemma fits_range o l s off n : fits (memRange o l s) (Len (s_mem s)) -> s_stack s !! o = Some off -> s_stack s !! l = Some n ->
  ranged off n (Len (s_mem s)).
Proof using wspec.
  intros H Ho Hl. revert H. unfold memRange, Back, fits, mbind, M_bind. rewrite Ho, Hl. cbn. destruct (calcMemSize64 off n) as [m [|]] eqn:Hcalc; [done|].
  intros Hm. by apply (calcMemSize64_ready off n m).
Qed.

Lemma fits_ranges o1 l1 o2 l2 s x1 n1 x2 n2 : fits (memRanges o1 l1 o2 l2 s) (Len (s_mem s)) ->
  s_stack s !! o1 = Some x1 -> s_stack s !! l1 = Some n1 -> s_stack s !! o2 = Some x2 -> s_stack s !! l2 = Some n2 ->
  ranged x1 n1 (Len (s_mem s)) /\ ranged x2 n2 (Len (s_mem s)).
Proof using wspec.
  intros H H1 H2 H3 H4. revert H. unfold memRanges, memRange, Back, fits, mbind, M_bind. rewrite H1, H2. cbn.
  destruct (calcMemSize64 x1 n1) as [a [|]] eqn:Ha; [done|]. rewrite H3, H4. cbn. destruct (calcMemSize64 x2 n2) as [b [|]] eqn:Hb; [done|].
  apply calcMemSize64_ready in Ha as [? Ha], Hb as [? Hb]. destruct (Z.ltb_spec b a); cbn; intros; split; (apply Ha || apply Hb); lia.
Qed.

Lemma fits_uint n s off : 0 < n < 2 ^ 64 -> fits ((off ← Back 0; mret (calcMemSize64WithUint off n)) s) (Len (s_mem s)) ->
  s_stack s !! 0%nat = Some off -> uUint64 off = uv off /\ uv off + n <= Len (s_mem s).
Proof using wspec.
  intros Hn H Ho. revert H. unfold Back, fits, mbind, M_bind. rewrite Ho. cbn. destruct (calcMemSize64WithUint off n) as [m [|]] eqn:Hcalc; [done|].
  intros Hm. apply calcMemSize64WithUint_ready in Hcalc as [_ H]; [|lia]. destruct H; [lia|]. rewrite uUint64_small by done. lia.
Qed.

Lemma quiet_changes (f : DB -> DB) : quiet f -> changes f.
Proof. intros Hq s Hs. by apply Hq. Qed.

Lemma address_of_word w : is_addr (uBytes20 w).
Proof using wspec. apply uBytes20_length. Qed.
End plain.

(** ** Automation *)

(** The addresses of words and of the contract. *)
Ltac solve_addr := first [assumption|apply address_of_word].

(** The promise about an operation of the state database. *)
Ltac solve_law :=
  first
  [ apply law_GetBalance; solve_addr | apply law_GetNonce; solve_addr | apply law_GetCodeHash; solve_addr
  | apply law_GetCode; solve_addr | apply law_GetCodeSize; solve_addr | apply law_GetVmVersion; solve_addr
  | apply law_GetState; solve_addr | apply law_GetCommittedState; solve_addr | apply law_HasSelfDestructed; solve_addr
  | apply law_Exist; solve_addr | apply law_Empty; solve_addr | apply law_IsProgramAccount; solve_addr
  | apply law_AddRefund | apply law_AddAddress; solve_addr | apply law_AddPreimage | apply law_SubBalance_zero; solve_addr
  | apply law_AddBalance_zero; solve_addr | apply law_CreateSmartContract; solve_addr | apply law_CreateEOA; solve_addr
  | apply law_SubBalance; solve_addr | apply law_AddBalance; solve_addr | apply law_IncNonce; solve_addr
  | apply law_SetNonce; solve_addr | apply law_SetState; solve_addr | apply law_SetTransientState
  | apply law_SelfDestruct; solve_addr | apply law_SelfDestruct6780; solve_addr | apply law_AddLog ].

(** A frame that differs in the stack and the program counter. *)
Ltac solve_frame :=
  match goal with H : frame _ _ _ |- frame _ _ _ => by eapply frame_free; [exact H|reflexivity|reflexivity|reflexivity] end.

Ltac take_stack st n :=
  lazymatch n with
  | O => idtac
  | S ?n => let x := fresh "w" in destruct st as [|x st]; [exfalso; match goal with H : (_ <= length _)%nat |- _ => cbn in H; lia end|]; take_stack st n
  end.

(** Conditions of the instructions. *)
Ltac case_if := match goal with |- wp _ (if ?b then _ else _) _ _ => destruct b eqn:? end.

(** One step of an instruction. *)
Ltac wp_step h :=
  lazymatch goal with
  | |- wp _ (mbind _ _) _ _ => apply wp_bind
  | |- wp _ (mret _) _ _ => apply wp_ret
  | |- wp _ pop _ _ => eapply wp_pop; [reflexivity|]
  | |- wp _ peek _ _ => eapply wp_Back; [reflexivity|]
  | |- wp _ (Back _) _ _ => eapply wp_Back; [reflexivity|]
  | |- wp _ (poke _) _ _ => eapply wp_poke; [reflexivity|]
  | |- wp _ (push _) _ _ => apply wp_modify
  | |- wp _ (modify _) _ _ => apply wp_modify
  | |- wp _ (get _) _ _ => apply wp_get
  | |- wp _ (dbRead _) _ _ => eapply (wp_dbRead h); [solve_frame|solve_law|intros ? ? ? ?]
  | |- wp _ (dbDo _) _ _ =>
      eapply (wp_dbDo h); [solve_frame|first [solve_law|apply quiet_changes; solve_law]|first [intros _; solve_law|intros ?; cbn in *; congruence]|intros ? ?]
  | |- wp _ (dbTry _) _ _ => apply wp_dbTry; intros ? ?
  | |- wp _ done_ _ _ => apply wp_ret
  | |- wp _ (fail _) _ _ => apply wp_ret
  | |- wp _ address _ _ => apply wp_get
  | |- wp _ code _ _ => apply wp_get
  | |- wp _ input _ _ => apply wp_get
  | |- wp _ returnData _ _ => apply wp_get
  | |- wp _ readOnly _ _ => apply wp_get
  | |- wp _ (setRet _) _ _ => eapply (wp_setRet h); [solve_frame|intros ?]
  | |- wp _ (loadAbort _) _ _ => eapply (wp_loadAbort h); [solve_frame|intros ? ? ?]
  | |- wp _ (if _ then _ else _) _ _ => case_if
  end.

(** The end of an instruction. *)
Ltac solve_post :=
  split_and!; [solve_frame|reflexivity|first [eassumption|apply u64_range]|first [done|intros _; split; [reflexivity|]; unfold len; cbn; lia]].

(** Reading a range that the memory holds, and writing one. *)
Ltac mem_get := apply wp_bind, wp_memRead; cbn [s_mem setMem setStack setEvm];
  lazymatch goal with
  | H : ranged ?o ?l (Len (s_mem _)) |- post _ (GetPtr (i64 (uUint64 ?o)) (i64 (uUint64 ?l)) ?m) _ =>
      destruct (ranged_GetPtr (E:=vmPanic) m ltac:(assumption) o l H) as (? & -> & ?)
  | H : ranged ?o ?l (Len (s_mem _)) |- post _ (GetCopy (i64 (uUint64 ?o)) (i64 (uUint64 ?l)) ?m) _ =>
      destruct (ranged_GetCopy (E:=vmPanic) m ltac:(assumption) o l H) as (? & -> & ?)
  end; cbn [post].
Ltac mem_set h :=
  apply wp_bind; eapply (wp_memDo h);
  [solve_frame|cbn [s_mem setMem setStack setEvm]; apply ranged_Set; [assumption|eassumption]|intros ? ?].

(** The operands on the stack, and what the invariant says. *)
Ltac start_with h n :=
  intros [pc st m c e] Hi Hn Hready Hcode; pose proof (frame_refl h _ Hi) as Hf; pose proof (i_pc _ _ Hi) as Hpc;
  pose proof (i_mem _ _ Hi) as Hmem; pose proof (i_contract _ _ Hi) as Hc; pose proof (co_self _ _ Hc) as Hself;
  cbn [s_pc s_mem s_contract s_stack] in *; apply Nat2Z.inj_le in Hn; cbn [arity fst] in Hn; take_stack st n; cbn [execute_].

Section ops.
Context {word : Uint256} {wspec : Uint256Spec} {vms : VMState} {rel : StateRel}.
Context (hash : bytes -> Hash) {laws : StateLaws hash} (hash_inj : Inj (=) (=) hash).
Context (env : Env) (calls : Calls) (E : Prop).

(** [f] behaves as described. *)
Definition plain_spec (f : executionFunc) : Prop := forall s, inv hash s -> Z.of_nat (arity f).1 <= len (s_stack s) ->
  mem_ready (memOf f) s -> (halts f = false -> s_pc s < len (c_Code (s_contract s))) -> wp E (execute_ env calls f) (plain_post hash f s) s.

Ltac start n := start_with hash n.

(** ** Arithmetic, the environment and the stack *)

Definition stack_only (f : executionFunc) : bool :=
  match f with
  | F_opAdd | F_opSub | F_opMul | F_opDiv | F_opSdiv | F_opMod | F_opSmod | F_opExp | F_opSignExtend | F_opLt | F_opGt | F_opSlt
  | F_opSgt | F_opEq | F_opAnd | F_opOr | F_opXor | F_opByte | F_opSHL | F_opSHR | F_opSAR | F_opAddmod | F_opMulmod | F_opNot
  | F_opIszero | F_opBalance | F_opExtCodeSize | F_opExtCodeHash1052 | F_opExtCodeHash | F_opBlobHash
  | F_opSload | F_opTload | F_opAddress | F_opOrigin | F_opCaller | F_opCallValue | F_opCallDataSize | F_opReturnDataSize
  | F_opCodeSize | F_opGasprice | F_opCoinbase | F_opTimestamp | F_opNumber | F_opDifficulty | F_opRandom | F_opGasLimit
  | F_opSelfBalance | F_opChainID | F_opBaseFee | F_opBlobBaseFee | F_opPc | F_opMsize | F_opGas | F_opPush0 | F_opPop
  | F_opJumpdest | F_opStop => true
  | _ => false
  end.

Lemma stack_only_ok f : stack_only f = true -> plain_spec f.
Proof using laws wspec.
  destruct f; intros Hs; try discriminate Hs; clear Hs; lazymatch goal with |- plain_spec ?f => let n := eval cbn in (fst (arity f)) in start n end.
  all: cbv delta [opAdd opSub opMul opDiv opSdiv opMod opSmod opExp opSignExtend opNot opLt opGt opSlt opSgt opEq opIszero opAnd opOr
    opXor opByte opAddmod opMulmod opSHL opSHR opSAR opAddress opBalance opOrigin opCaller opCallValue
    opCallDataSize opReturnDataSize opExtCodeSize opCodeSize opExtCodeHash1052 opExtCodeHash opGasprice opCoinbase
    opTimestamp opNumber opDifficulty opRandom opGasLimit opSelfBalance opChainID opBaseFee opBlobHash opBlobBaseFee opPop
    opSload opTload opJumpdest opPc opMsize opGas opPush0 opStop binary] beta.
  all: repeat wp_step hash.
  all: solve_post.
Qed.

(** ** Memory and data *)

Lemma opSha3_ok : plain_spec F_opSha3.
Proof using laws wspec.
  start 2%nat. apply fits_range with (off := w) (n := w0) in Hready; [|done..]. unfold opSha3. do 4 wp_step hash.
  mem_get. repeat wp_step hash.
  all: solve_post.
Qed.
Lemma opReturn_ok : plain_spec F_opReturn.
Proof using laws wspec.
  start 2%nat. apply fits_range with (off := w) (n := w0) in Hready; [|done..]. unfold opReturn. do 4 wp_step hash.
  mem_get. repeat wp_step hash. solve_post.
Qed.
Lemma opRevert_ok : plain_spec F_opRevert.
Proof using laws wspec.
  start 2%nat. apply fits_range with (off := w) (n := w0) in Hready; [|done..]. unfold opRevert. do 4 wp_step hash.
  mem_get. repeat wp_step hash. solve_post.
Qed.

Lemma clampOffset_range w : 0 <= clampOffset w.
Proof using wspec.
  unfold clampOffset. rewrite uUint64WithOverflow_spec. destruct (negb _); [done|]. apply u64_range.
Qed.
Lemma ranged_length o l m : Len m <= mem_limit -> ranged o l (Len m) -> 0 <= uUint64 l < 2 ^ 63.
Proof using wspec. intros Hm Hr. destruct (ranged_nums m Hm o l Hr) as (-> & _ & _ & ?). done. Qed.

Lemma opCallDataLoad_ok : plain_spec F_opCallDataLoad.
Proof using laws wspec.
  start 1%nat. unfold opCallDataLoad. do 2 wp_step hash. rewrite uUint64WithOverflow_spec. case_if; [repeat wp_step hash; solve_post|].
  do 3 wp_step hash. apply wp_lift. destruct (getData_ok (E:=vmPanic) (c_Input c) (u64 (uv w)) 32) as (b & Hb & _); [apply Hc|apply u64_range|lia|].
  cbn [s_contract setStack]. rewrite Hb. cbn [post]. repeat wp_step hash. solve_post.
Qed.
Lemma opBlockhash_ok : plain_spec F_opBlockhash.
Proof using laws wspec.
  start 1%nat. unfold opBlockhash. do 2 wp_step hash. rewrite uUint64WithOverflow_spec. case_if; [repeat wp_step hash; solve_post|].
  cbv zeta. repeat wp_step hash.
  all: solve_post.
Qed.

(** A copy of data into a range of the memory. *)
Lemma copy_ok f s0 s src off (mo l : W) : frame hash s0 s -> ranged mo l (Len (s_mem s)) -> Len (s_mem s) <= mem_limit ->
  len src < 2 ^ 63 ->
  (forall m, frame hash s0 (setMem m s) -> plain_post hash f s0 ([], None) (setMem m s)) ->
  wp E (data ← lift (getData src (clampOffset off) (uUint64 l)); memDo (Set_ (uUint64 mo) (uUint64 l) data);; done_) (plain_post hash f s0) s.
Proof using laws wspec.
  intros Hf Hr Hm Hs HQ. wp_step hash. apply wp_lift.
  destruct (getData_ok (E:=vmPanic) src (clampOffset off) (uUint64 l)) as (b & -> & _); [done|apply clampOffset_range|by eapply ranged_length|].
  cbn [post]. apply wp_bind. eapply (wp_memDo hash); [done|by apply ranged_Set|]. intros m Hf'. apply wp_ret. by apply HQ.
Qed.
Lemma opCallDataCopy_ok : plain_spec F_opCallDataCopy.
Proof using laws wspec.
  start 3%nat. apply fits_range with (off := w) (n := w1) in Hready; [|done..]. unfold opCallDataCopy. do 8 wp_step hash.
  apply copy_ok; [solve_frame|done|done|apply Hc|]. intros ? ?. solve_post.
Qed.
Lemma opCodeCopy_ok : plain_spec F_opCodeCopy.
Proof using laws wspec.
  start 3%nat. apply fits_range with (off := w) (n := w1) in Hready; [|done..]. unfold opCodeCopy. do 8 wp_step hash.
  apply copy_ok; [solve_frame|done|done|apply Hc|]. intros ? ?. solve_post.
Qed.
Lemma opExtCodeCopy_ok : plain_spec F_opExtCodeCopy.
Proof using laws wspec.
  start 4%nat. apply fits_range with (off := w0) (n := w2) in Hready; [|done..]. unfold opExtCodeCopy. do 10 wp_step hash.
  apply copy_ok; [done|done|done| |intros ? ?; solve_post].
  match goal with H : dbGetCode ?a ?db = (?x, _) |- _ => pose proof (law_code_len (hash:=hash) a db (address_of_word _) (frame_good _ _ _ Hf)) as Hl; cbn in Hl, H;
    rewrite H in Hl; done end.
Qed.

Lemma opReturnDataCopy_ok : plain_spec F_opReturnDataCopy.
Proof using laws wspec.
  start 3%nat. apply fits_range with (off := w) (n := w1) in Hready; [|done..]. unfold opReturnDataCopy. do 6 wp_step hash.
  rewrite !uUint64WithOverflow_spec. case_if; [repeat wp_step hash; solve_post|]. apply negb_false_iff, Z.ltb_lt in Heqb.
  do 2 wp_step hash. case_if; [repeat wp_step hash; solve_post|]. bool_to_prop.
  pose proof (uv_range w0). pose proof (uv_range w1). destruct (Hready) as [Hl _]. rewrite uAdd_spec in *. unfold u256 in *.
  rewrite (Z.mod_small (uv w0 + uv w1)) in * by lia. rewrite !u64_small in * by (unfold is_u64; lia).
  set (r := evm_returnData _) in *. assert (u64 (len r) <= len r) by (apply Z.mod_le; [apply len_nonneg|lia]).
  wp_step hash. apply wp_lift. rewrite sliceZ_ok by lia. cbn [post]. mem_set hash. repeat wp_step hash. solve_post.
Qed.

Lemma opMload_ok : plain_spec F_opMload.
Proof using laws wspec.
  start 1%nat. apply fits_uint with (off := w) in Hready as [Ho Hl]; [|lia|done]. cbn [s_mem] in Hl. pose proof (uv_range w).
  unfold opMload. do 3 wp_step hash. apply wp_memRead. cbn [s_mem]. rewrite Ho, i64_small by (unfold mem_limit in *; lia).
  destruct (GetPtr_ok m (mem_bound m Hmem) (E:=vmPanic) (uv w) 32) as (b & -> & _); [lia|lia|]. cbn [post]. repeat wp_step hash. solve_post.
Qed.
Lemma opMstore_ok : plain_spec F_opMstore.
Proof using laws wspec.
  start 2%nat. apply fits_uint with (off := w) in Hready as [Ho Hl]; [|lia|done]. pose proof (uv_range w). unfold opMstore. do 5 wp_step hash.
  eapply (wp_memDo hash); [solve_frame|rewrite Ho; apply Set32_ok; [by apply mem_bound|lia|done]|intros ? ?]. repeat wp_step hash. solve_post.
Qed.
Lemma opMstore8_ok : plain_spec F_opMstore8.
Proof using laws wspec.
  start 2%nat. apply fits_uint with (off := w) in Hready as [Ho Hl]; [|lia|done]. cbn [s_mem] in Hl. pose proof (uv_range w). unfold opMstore8. do 5 wp_step hash.
  eapply (wp_memDo hash); [solve_frame|rewrite Ho; apply SetByte_ok; cbn; lia|intros ? ?]. repeat wp_step hash. solve_post.
Qed.
Lemma opMcopy_ok : plain_spec F_opMcopy.
Proof using laws wspec.
  start 3%nat. unfold opMcopy. do 7 wp_step hash.
  assert (ranged (if 0 <? uCmp w0 w then w0 else w) w1 (Len m)) as Hr.
  { revert Hready. unfold mem_ready, fits, memorySize, memOf, Back, mbind, M_bind. cbn -[Z.ltb]. destruct (calcMemSize64 (if 0 <? uCmp w0 w then w0 else w) w1) as [x [|]] eqn:Hcalc; [done|].
    intros Hx. eapply calcMemSize64_ready; [exact Hcalc|exact Hx]. }
  pose proof (ranged_length _ _ m Hmem Hr) as Hl. destruct Hr as [Hlw Hr]. pose proof (uv_range w). pose proof (uv_range w0). rewrite uCmp_spec in Hr.
  eapply (wp_memDo hash); [solve_frame|apply memCopy_ok; [by apply mem_bound|apply uUint64_range|apply uUint64_range|lia|]|intros ? ?; repeat wp_step hash; solve_post].
  intros Hp. rewrite uUint64_small in Hp by done. specialize (Hr Hp). cbn [s_mem setStack].
  destruct (Z.ltb_spec 0 (Z.sgn (uv w0 - uv w))); rewrite !uUint64_small by lia; lia.
Qed.

(** ** Writes *)

Lemma opSstore_ok : plain_spec F_opSstore.
Proof using laws. start 2%nat. unfold opSstore. repeat wp_step hash. all: solve_post. Qed.
Lemma opTstore_ok : plain_spec F_opTstore.
Proof using laws. start 2%nat. unfold opTstore. repeat wp_step hash. all: solve_post. Qed.
Lemma opSelfdestruct_ok : plain_spec F_opSelfdestruct.
Proof using laws wspec. start 1%nat. unfold opSelfdestruct. repeat wp_step hash. all: solve_post. Qed.
Lemma opSelfdestruct6780_ok : plain_spec F_opSelfdestruct6780.
Proof using laws wspec. start 1%nat. unfold opSelfdestruct6780. repeat wp_step hash. all: solve_post. Qed.

Lemma popTopics_ok n s (Q : list Hash -> St -> Prop) : (n <= length (s_stack s))%nat ->
  (forall ts, Q ts (setStack (drop n (s_stack s)) s)) -> wp E (popTopics n) Q s.
Proof.
  revert s Q. induction n as [|n IH]; intros [pc st m c e] Q Hn HQ; [apply (HQ [])|]. destruct st as [|t st]; [cbn in Hn; lia|].
  cbn [popTopics]. wp_step hash. eapply wp_pop; [reflexivity|]. apply wp_bind, IH; [cbn in *; lia|]. intros ts. apply wp_ret, HQ.
Qed.
Lemma makeLog_ok n : plain_spec (F_makeLog n).
Proof using laws wspec.
  start 2%nat. apply fits_range with (off := w) (n := w0) in Hready; [|done..]. cbn [length] in Hn. unfold makeLog. do 2 wp_step hash.
  case_if; [repeat wp_step hash; solve_post|]. do 5 wp_step hash. apply popTopics_ok; [cbn; lia|]. intros ts. mem_get. repeat wp_step hash.
  split_and!; [solve_frame|reflexivity|eassumption|]. intros _. split; [reflexivity|]. unfold len. cbn. rewrite length_drop. lia.
Qed.

(** ** Jumps and pushes *)

(** The jump itself. *)
Lemma jump_ok f s0 s (pos : W) : frame hash s0 s -> same_gas s0 s -> is_u64 (s_pc s) ->
  (halts f = false /\ len (s_stack s) + Z.of_nat (arity f).1 = len (s_stack s0) + Z.of_nat (arity f).2) ->
  wp E (ok ← validJumpdest pos; if negb ok then fail ErrInvalidJump else modify (setPc (u64 (uUint64 pos - 1)));; done_)
    (plain_post hash f s0) s.
Proof using hash_inj laws wspec.
  intros Hf Hg Hpc Hl. wp_step hash. apply (validJumpdest_ok hash hash_inj E s0); [done|]. intros b s' Hf' Hg' Hs' Hpc' _.
  assert (same_gas s0 s') by (unfold same_gas in *; congruence).
  case_if; repeat wp_step hash; split_and!; try solve_frame; try done; cbn; rewrite ?Hpc', ?Hs'; try done. apply u64_range.
Qed.
Lemma opJump_ok : plain_spec F_opJump.
Proof using hash_inj laws wspec.
  start 1%nat. unfold opJump, Cancelled. do 4 wp_step hash. case_if; [repeat wp_step hash; solve_post|].
  do 2 wp_step hash. apply jump_ok; [solve_frame|reflexivity|done|split; [done|unfold len; cbn; lia]].
Qed.
Lemma opJumpi_ok : plain_spec F_opJumpi.
Proof using hash_inj laws wspec.
  start 2%nat. unfold opJumpi, Cancelled. do 4 wp_step hash. case_if; [repeat wp_step hash; solve_post|].
  do 4 wp_step hash. case_if; [repeat wp_step hash; solve_post|]. apply jump_ok; [solve_frame|reflexivity|done|split; [done|unfold len; cbn; lia]].
Qed.

Lemma opPush1_ok : plain_spec F_opPush1.
Proof using laws.
  start 0%nat. unfold opPush1. do 6 wp_step hash. cbv zeta. cbn [s_pc s_contract]. pose proof (u64_range (pc + 1)) as Hr. set (p := u64 (pc + 1)) in *.
  case_if; [|repeat wp_step hash; solve_post]. apply Z.ltb_lt in Heqb. pose proof (co_code _ _ Hc). pose proof (len_nonneg (c_Code c)).
  rewrite u64_small in Heqb by (unfold is_u64; lia).
  destruct (lookup_lt_is_Some_2 (c_Code c) (Z.to_nat p)) as [b Hb]; [unfold len, is_u64 in *; lia|].
  wp_step hash. apply wp_lift. rewrite (index_lookup _ _ _ Hb). cbn [post]. repeat wp_step hash. solve_post.
Qed.
Lemma makePush_ok n k : sized (F_makePush n k) = true -> plain_spec (F_makePush n k).
Proof using laws.
  intros Hsz. start 0%nat. specialize (Hcode eq_refl). unfold sized in Hsz. bool_to_prop. unfold makePush. do 4 wp_step hash. cbv zeta. cbn [s_pc s_contract].
  pose proof (co_code _ _ Hc). unfold is_u64 in Hpc. rewrite (u64_small (pc + 1)), i64_small by (unfold is_u64; lia).
  set (lo := if pc + 1 <? len (c_Code c) then _ else _). assert (0 <= lo <= len (c_Code c)) by (unfold lo; destruct (Z.ltb_spec (pc + 1) (len (c_Code c))); lia).
  set (hi := if lo + k <? _ then _ else _). assert (lo <= hi <= len (c_Code c)) by (unfold hi; destruct (Z.ltb_spec (lo + k) (len (c_Code c))); lia).
  wp_step hash. apply wp_lift. rewrite sliceZ_ok by lia. cbn [post]. repeat wp_step hash. solve_post.
Qed.
Lemma makeDup_ok n : sized (F_makeDup n) = true -> plain_spec (F_makeDup n).
Proof using laws.
  intros Hsz%Nat.ltb_lt. start 0%nat. destruct (lookup_lt_is_Some_2 st (n - 1)) as [x Hx]; [lia|]. unfold makeDup, dup. do 2 wp_step hash.
  eapply wp_Back; [done|]. repeat wp_step hash. split_and!; [solve_frame|reflexivity|done|]. intros _. split; [done|]. unfold len. cbn. lia.
Qed.
Lemma makeSwap_ok n : plain_spec (F_makeSwap n).
Proof using laws.
  start 0%nat. destruct (lookup_lt_is_Some_2 st n) as [x Hx]; [lia|]. destruct (lookup_lt_is_Some_2 st 0) as [y Hy]; [lia|].
  unfold makeSwap, swap. wp_step hash. unfold wp. cbn [s_stack]. rewrite Nat.add_sub, Hx, Hy. cbn [post fst snd]. repeat wp_step hash.
  split_and!; [solve_frame|reflexivity|done|]. intros _. split; [done|]. unfold len. cbn. rewrite !length_insert. lia.
Qed.

(** Every instruction without calls. *)
Lemma plain_ok f : callsOut f = false -> sized f = true -> plain_spec f.
Proof using hash_inj laws wspec.
  intros Hc Hs. destruct (stack_only f) eqn:Ho; [by apply stack_only_ok|]. destruct f; try discriminate.
  all: auto using opSha3_ok, opReturn_ok, opRevert_ok, opCallDataLoad_ok, opBlockhash_ok, opCallDataCopy_ok, opCodeCopy_ok, opExtCodeCopy_ok,
    opReturnDataCopy_ok, opMload_ok, opMstore_ok, opMstore8_ok, opMcopy_ok, opSstore_ok, opTstore_ok, opSelfdestruct_ok,
    opSelfdestruct6780_ok, makeLog_ok, opJump_ok, opJumpi_ok, opPush1_ok, makePush_ok, makeDup_ok, makeSwap_ok.
Qed.
End ops.
End Plain.
