(* ===== verification/EvmCost.v ===== *)
(** * What instructions cost

    Every gas function either fails or returns a cost that fits 64 bits; it leaves the stack, the
    memory and the gas of the contract as they were.  The cost covers the growth of the memory,
    is not zero where the constant gas is, and, for the instructions that call, covers the gas
    set aside for the callee and the price of a transfer. *)

From S2P Require Import Prelude Rlp AccountKey EvmWord EvmCode EvmMem EvmParams EvmState EvmGas EvmOps EvmTable EvmRun.
From S2P Require Import EvmSpec EvmInv EvmPlain.

Module Cost.
Export Plain.

(** ** The shape of a gas function *)

(** How deep it looks into the stack, whether it charges for the memory, whether its cost is
    never zero, and whether it sets gas aside for a call (with a value on the stack). *)
Fixpoint looksAt (g : gasFunc) : nat :=
  match g with
  | G_memoryCopierGas n => S n
  | G_gasSStore | G_gasSStoreEIP2200 | G_makeGasLog _ | G_gasSha3 | G_gasExp | G_makeGasSStoreFunc _ => 2
  | G_pureMemoryGascost => 0
  | G_gasCreate2 | G_gasCreateEip3860 | G_gasCreate2Eip3860 | G_gasCall | G_gasCallCode => 3
  | G_gasDelegateCall | G_gasStaticCall | G_gasSelfdestruct | G_gasSLoadEIP2929 | G_gasEip2929AccountCheck
  | G_makeSelfdestructGasFn _ => 1
  | G_gasExtCodeCopyEIP2929 => 4
  | G_makeCallVariantGasCallEIP2929 old => Nat.max 2 (looksAt old)
  end.
Fixpoint chargesMemory (g : gasFunc) : bool :=
  match g with
  | G_memoryCopierGas _ | G_makeGasLog _ | G_gasSha3 | G_pureMemoryGascost | G_gasCreate2 | G_gasCreateEip3860
  | G_gasCreate2Eip3860 | G_gasCall | G_gasCallCode | G_gasDelegateCall | G_gasStaticCall | G_gasExtCodeCopyEIP2929 => true
  | G_makeCallVariantGasCallEIP2929 old => chargesMemory old
  | _ => false
  end.
Definition costly (g : gasFunc) : bool :=
  match g with
  | G_gasSStore | G_gasSStoreEIP2200 | G_makeGasLog _ | G_gasExp | G_makeGasSStoreFunc _ | G_gasSLoadEIP2929 => true
  | _ => false
  end.
Fixpoint reserves (g : gasFunc) : option bool :=
  match g with
  | G_gasCall | G_gasCallCode => Some true
  | G_gasDelegateCall | G_gasStaticCall => Some false
  | G_makeCallVariantGasCallEIP2929 old => reserves old
  | _ => None
  end.
(** The parameters that the tables use. *)
Definition direct (g : gasFunc) : bool := match g with G_makeCallVariantGasCallEIP2929 _ => false | _ => true end.
Definition gasSized (g : gasFunc) : bool :=
  match g with
  | G_makeGasLog n => (0 <=? n) && (n <=? 4)
  | G_makeCallVariantGasCallEIP2929 old => direct old && bool_decide (is_Some (reserves old))
  | _ => true
  end.

Lemma memFee_mono a b : 0 <= a <= b -> memFee a <= memFee b.
Proof.
  intros H. unfold memFee, MemoryGas, QuadCoeffDiv. assert (a * a / 512 <= b * b / 512) by (apply Z.div_le_mono; nia). lia.
Qed.
Lemma memFee_bound a : 0 <= a < 2 ^ 32 -> 0 <= memFee a < 2 ^ 56.
Proof.
  intros H. unfold memFee, MemoryGas, QuadCoeffDiv. assert (0 <= a * a / 512) by (apply Z.div_pos; nia).
  assert (a * a / 512 < 2 ^ 55) by (apply Z.div_lt_upper_bound; nia). lia.
Qed.

Section cost.
Context {word : Uint256} {wspec : Uint256Spec} {vms : VMState} {rel : StateRel}.
Context (hash : bytes -> Hash) {laws : StateLaws hash}.
Context (E : Prop).

Definition gasOf (s : St) : Z := c_Gas (s_contract s).
Definition lastOf (s : St) : Z := m_lastGasCost (s_mem s).

(** What a gas function leaves as it was; when it fails, some gas may be gone. *)
Record priced (s0 s : St) : Prop := {
  p_static : static (s_contract s) = static (s_contract s0);
  p_contract : contract_ok hash (s_contract s);
  p_store : m_store (s_mem s) = m_store (s_mem s0);
  p_evm : evm_rel hash (s_evm s0) (s_evm s);
  p_stack : s_stack s = s_stack s0;
  p_pc : s_pc s = s_pc s0;
  p_gas : 0 <= gasOf s <= gasOf s0
}.
(** While it runs, the gas is that of the start, and the memory has been paid up to [L]. *)
Definition at_ (s0 : St) (L : Z) (s : St) : Prop := priced s0 s /\ gasOf s = gasOf s0 /\ lastOf s = L.

Lemma at_refl s : inv hash s -> at_ s (lastOf s) s.
Proof using laws. intros []. split; [|done]. split; try done; [by apply evm_rel_refl|unfold gasOf; lia]. Qed.
Lemma priced_trans s1 s2 s3 : priced s1 s2 -> priced s2 s3 -> priced s1 s3.
Proof using laws.
  intros [] []. split; try congruence; try done; [|lia]. by eapply (evm_rel_trans hash).
Qed.
Lemma at_evm s0 L s e : at_ s0 L s -> evm_rel hash (s_evm s0) e -> at_ s0 L (setEvm e s).
Proof. intros [[] ?] ?. split; [|done]. by split. Qed.
Lemma at_good s0 L s : at_ s0 L s -> good (evm_StateDB (s_evm s)).
Proof. intros [[? ? ? He ? ? ?] _]. apply (evm_rel_ok _ _ _ He). Qed.

(** ** Rules *)

Definition gp {A} (s0 : St) (m : G A) (Q : A -> St -> Prop) (s : St) : Prop :=
  wp E (m : M (vmError + A)) (fun r s' => match r with inl _ => priced s0 s' | inr a => Q a s' end) s.

Lemma gp_bind {A B} s0 (m : G A) (k : A -> G B) Q s : gp s0 m (fun a s' => gp s0 (k a) Q s') s -> gp s0 (m ≫= k) Q s.
Proof. unfold gp, wp, mbind, G_bind. destruct (m s) as [[[?|?] ?]| | |]; done. Qed.
Lemma gp_ret {A} s0 (a : A) Q s : Q a s -> gp s0 (mret a) Q s.
Proof. done. Qed.
Lemma gp_fail {A} s0 e Q s : priced s0 s -> gp s0 (failG (A:=A) e) Q s.
Proof. done. Qed.
Lemma gp_fromM {A} s0 (m : M A) Q s : wp E m Q s -> gp s0 (fromM m) Q s.
Proof. unfold gp, wp, fromM. destruct (m s) as [[? ?]| | |]; done. Qed.
Lemma gp_mono {A} s0 s1 (m : G A) (Q Q' : A -> St -> Prop) s : (forall s', priced s0 s' -> priced s1 s') ->
  (forall a s', Q a s' -> Q' a s') -> gp s0 m Q s -> gp s1 m Q' s.
Proof. intros Hp HQ. apply wp_mono; [done|]. intros [?|?] ?; auto. Qed.

Lemma gp_back s0 L n (Q : W -> St -> Prop) s : at_ s0 L s -> (n < length (s_stack s0))%nat ->
  (forall x, s_stack s0 !! n = Some x -> Q x s) -> gp s0 (back n) Q s.
Proof.
  intros [[] _] Hn HQ. destruct (lookup_lt_is_Some_2 (s_stack s0) n Hn) as [x Hx]. apply gp_fromM. eapply wp_Back; [by rewrite p_stack0|by apply HQ].
Qed.
Lemma gp_self s0 L (Q : Address -> St -> Prop) s : at_ s0 L s -> (forall a, is_addr a -> Q a s) -> gp s0 self Q s.
Proof. intros [[] _] HQ. apply gp_fromM, wp_get, HQ. by destruct p_contract0. Qed.
Lemma gp_get {A} s0 (f : St -> A) (Q : A -> St -> Prop) s : Q (f s) s -> gp s0 (fromM (get f)) Q s.
Proof. intros HQ. by apply gp_fromM, wp_get. Qed.
Lemma gp_read {A} s0 L (f : DB -> A * DB) (Q : A -> St -> Prop) s : at_ s0 L s -> reads f ->
  (forall a s', at_ s0 L s' -> Q a s') -> gp s0 (fromM (dbRead f)) Q s.
Proof using laws.
  intros Ha Hr HQ. apply gp_fromM. eapply (wp_read hash); [apply Ha|done|]. intros a db He _. apply HQ. by apply at_evm.
Qed.
Lemma gp_do s0 L (f : DB -> DB) (Q : unit -> St -> Prop) s : at_ s0 L s -> quiet f ->
  (forall s', at_ s0 L s' -> Q tt s') -> gp s0 (fromM (dbDo f)) Q s.
Proof using laws.
  intros Ha Hr HQ. apply gp_fromM. eapply (wp_do hash); [apply Ha|by apply quiet_changes|done|]. intros db He. apply HQ. by apply at_evm.
Qed.
Lemma gp_change s0 L (f : DB -> go DB) (Q : unit -> St -> Prop) s : at_ s0 L s ->
  (forall db db', good db -> f db = Ok db' -> ext db db' /\ same db db') ->
  (forall s', at_ s0 L s' -> Q tt s') -> gp s0 (fromM (dbChange f)) Q s.
Proof using laws.
  intros Ha Hr HQ. apply gp_fromM. eapply (wp_dbChange hash); [apply Ha|done|]. intros db He. apply HQ. by apply at_evm.
Qed.
Lemma gp_try {A} s0 (f : DB -> go A) (Q : A -> St -> Prop) s : (forall a, Q a s) -> gp s0 (fromM (dbTry f)) Q s.
Proof. intros HQ. apply gp_fromM, wp_dbTry. intros a _. apply HQ. Qed.
Lemma gp_orOverflow s0 L r (Q : Z -> St -> Prop) s : at_ s0 L s -> (r.2 = false -> Q r.1 s) -> gp s0 (orOverflow r) Q s.
Proof. intros Ha HQ. unfold orOverflow. destruct r.2; [by apply gp_fail, Ha|by apply gp_ret, HQ]. Qed.
Lemma gp_safeAdd s0 L x y (Q : Z -> St -> Prop) s : at_ s0 L s -> 0 <= x -> 0 <= y -> (x + y < 2 ^ 64 -> Q (x + y) s) -> gp s0 (safeAdd x y) Q s.
Proof.
  intros Ha Hx Hy HQ. eapply gp_orOverflow; [done|]. intros Ho. destruct (SafeAdd_ok x y Hx Hy Ho) as [-> ?]. by apply HQ.
Qed.
Lemma gp_safeMul s0 L x y (Q : Z -> St -> Prop) s : at_ s0 L s -> 0 <= x -> 0 <= y -> (x * y < 2 ^ 64 -> Q (x * y) s) -> gp s0 (safeMul x y) Q s.
Proof.
  intros Ha Hx Hy HQ. eapply gp_orOverflow; [done|]. intros Ho. destruct (SafeMul_ok x y Hx Hy Ho) as [-> ?]. by apply HQ.
Qed.
Lemma gp_uint64 s0 L w (Q : Z -> St -> Prop) s : at_ s0 L s -> (forall n, 0 <= n < 2 ^ 64 -> Q n s) -> gp s0 (orOverflow (uUint64WithOverflow w)) Q s.
Proof using wspec.
  intros Ha HQ. eapply gp_orOverflow; [done|]. intros _. apply HQ. rewrite uUint64WithOverflow_spec. cbn. apply u64_range.
Qed.

(** ** The memory *)

Definition grown (size : Z) (s0 : St) : Z := Z.max size (Len (s_mem s0)) / 32.
(** What the growth costs. *)
Definition growth (size : Z) (s0 : St) : Z := memFee (grown size s0) - memFee (Len (s_mem s0) / 32).

Lemma words_bound n : 0 <= n <= mem_limit -> 0 <= n / 32 < 2 ^ 32.
Proof. unfold mem_limit. intros H. split; [apply Z.div_pos; lia|apply Z.div_lt_upper_bound; lia]. Qed.
Lemma growth_bound size s0 : inv hash s0 -> 0 <= size <= mem_limit -> 0 <= growth size s0 < 2 ^ 56.
Proof.
  intros [? Hl _ _ _ _ _] Hs. unfold growth, grown. pose proof (len_nonneg (m_store (s_mem s0))) as H0. fold (Len (s_mem s0)) in H0.
  pose proof (words_bound (Z.max size (Len (s_mem s0))) ltac:(lia)). pose proof (words_bound (Len (s_mem s0)) ltac:(lia)).
  pose proof (memFee_mono (Len (s_mem s0) / 32) (Z.max size (Len (s_mem s0)) / 32)) as Hm.
  pose proof (memFee_bound (Z.max size (Len (s_mem s0)) / 32) ltac:(lia)). pose proof (memFee_bound (Len (s_mem s0) / 32) ltac:(lia)).
  assert (Len (s_mem s0) / 32 <= Z.max size (Len (s_mem s0)) / 32) by (apply Z.div_le_mono; lia). lia.
Qed.

Lemma gp_memoryGasCost s0 size (Q : Z -> St -> Prop) s : inv hash s0 -> 0 <= size -> size mod 32 = 0 -> at_ s0 (lastOf s0) s ->
  (forall s', size <= mem_limit -> at_ s0 (memFee (grown size s0)) s' -> 0 <= growth size s0 < 2 ^ 56 -> Q (growth size s0) s') ->
  gp s0 (memoryGasCost size) Q s.
Proof.
  intros Hi H0 H32 Ha HQ. pose proof (growth_bound size s0 Hi) as Hg. destruct Hi as [_ Hl [Hw Hp] _ _ _ _].
  pose proof (len_nonneg (m_store (s_mem s0))) as Hn. fold (Len (s_mem s0)) in Hn. destruct Ha as [Hpr [Hgas Hlast]].
  assert (Len (s_mem s) = Len (s_mem s0)) as HL by (unfold Len; by rewrite (p_store _ _ Hpr)).
  assert (size <= Len (s_mem s0) -> growth size s0 = 0 /\ memFee (grown size s0) = lastOf s0) as Hsmall.
  { intros Hle. unfold growth, grown. rewrite Z.max_r by done. unfold lastOf. rewrite Hp. lia. }
  unfold memoryGasCost. destruct (Z.eqb_spec size 0) as [->|Hnz].
  { apply gp_ret. destruct Hsmall as [He Hf]; [done|]. rewrite He in *. apply HQ; [unfold mem_limit; lia|rewrite Hf; by split|lia]. }
  destruct (Z.ltb_spec mem_limit size) as [|Hlim]; [by apply gp_fail|]. specialize (Hg ltac:(lia)).
  destruct (toWordSize_bounds size ltac:(lia)) as [_ Hb]. assert (toWordSize size * 32 = size) as Hts.
  { assert ((toWordSize size * 32 - size) mod 32 = 0) as Hz by (rewrite Zminus_mod, Z_mod_mult, H32; done).
    rewrite Z.mod_small in Hz by lia. lia. }
  assert (toWordSize size = size / 32) as Htw by (apply Z.div_unique_exact; lia).
  rewrite Hts. rewrite (u64_small size) by (unfold is_u64, mem_limit in *; lia). apply gp_bind, gp_get.
  rewrite u64_small by (unfold is_u64, mem_limit in *; lia). rewrite HL. destruct (Z.ltb_spec (Len (s_mem s0)) size) as [Hlt|Hge].
  - assert (grown size s0 = size / 32) as Hgr by (unfold grown; by rewrite Z.max_l by lia).
    pose proof (words_bound size ltac:(lia)) as Hwb. rewrite Htw. set (w := size / 32) in *. rewrite <- Hgr in *.
    pose proof (memFee_bound (grown size s0) Hwb) as Hmf. unfold memFee in Hmf. unfold MemoryGas, QuadCoeffDiv in *.
    assert (0 <= grown size s0 * grown size s0 < 2 ^ 64) by nia. assert (0 <= grown size s0 * grown size s0 / 512) by (apply Z.div_pos; lia).
    rewrite (u64_small (grown size s0 * grown size s0)), (u64_small (grown size s0 * 3)) by (unfold is_u64; lia).
    rewrite (u64_small (_ + _)) by (unfold is_u64; lia). fold MemoryGas QuadCoeffDiv. fold (memFee (grown size s0)).
    apply gp_bind, gp_fromM, wp_modify, gp_ret. fold (lastOf s). rewrite Hlast. unfold lastOf. rewrite Hp. fold (growth size s0).
    rewrite u64_small by (unfold is_u64; lia). apply HQ; [done| |done]. split; [|done]. by destruct Hpr; split.
  - apply gp_ret. destruct (Hsmall Hge) as [He Hf]. rewrite He in *. apply HQ; [done|rewrite Hf; by split|done].
Qed.

(** ** What is charged *)

(** The price of the value that a call with it pays. *)
Definition transferPrice (valued : bool) (s0 : St) : Z :=
  match valued, s_stack s0 !! 2%nat with true, Some v => if uIsZero v then 0 else CallValueTransferGas | _, _ => 0 end.

Record charged (g : gasFunc) (size : Z) (s0 : St) (cost : Z) (s : St) : Prop := {
  ch_cost : is_u64 cost;
  ch_at : at_ s0 (if chargesMemory g then memFee (grown size s0) else lastOf s0) s;
  ch_memory : chargesMemory g = true -> size <= mem_limit /\ growth size s0 <= cost;
  ch_costly : costly g = true -> 1 + (if chargesMemory g then growth size s0 else 0) <= cost;
  ch_reserved : forall valued, reserves g = Some valued ->
    0 <= evm_callGasTemp (s_evm s) /\
    evm_callGasTemp (s_evm s) + transferPrice valued s0 + growth size s0 <= cost /\
    (direct g = true -> cost <= 2 ^ 64 - 2 ^ 57)
}.

Definition charges (g : gasFunc) : Prop := forall s0 size, inv hash s0 -> (looksAt g <= length (s_stack s0))%nat ->
  0 <= size -> size mod 32 = 0 -> gp s0 (dynamicGas_ g size) (charged g size s0) s0.

Ltac gp_step :=
  cbv zeta;
  lazymatch goal with
  | |- gp _ (mbind _ _) _ _ => apply gp_bind
  | |- gp _ (mret _) _ _ => apply gp_ret
  | H : at_ _ _ ?s |- gp _ (failG _) _ ?s => apply gp_fail, H
  | H : at_ _ _ ?s |- gp _ (back _) _ ?s => eapply gp_back; [exact H|lia|intros ? ?]
  | H : at_ _ _ ?s |- gp _ self _ ?s => eapply gp_self; [exact H|intros ? ?]
  | |- gp _ (fromM (get _)) _ _ => apply gp_get
  | H : at_ _ _ ?s |- gp _ (fromM (dbRead _)) _ ?s => eapply gp_read; [exact H|solve_law|intros ? ? ?]
  | H : at_ _ _ ?s |- gp _ (fromM (dbDo _)) _ ?s => eapply gp_do; [exact H|solve_law|intros ? ?]
  | H : at_ _ _ ?s |- gp _ (addRefund _) _ ?s => eapply gp_do; [exact H|solve_law|intros ? ?]
  | H : at_ _ _ ?s |- gp _ (subRefund _) _ ?s => eapply gp_change; [exact H|intros; by eapply law_SubRefund|intros ? ?]
  | H : at_ _ _ ?s |- gp _ (fromM (dbChange (dbAddSlotToAccessList _ _))) _ ?s =>
      eapply gp_change; [exact H|intros; by eapply law_AddSlot|intros ? ?]
  | |- gp _ (fromM (dbTry _)) _ _ => apply gp_try; intros ?
  | |- gp _ (fromM (lift (Err _))) _ _ => exact I
  | H : at_ _ _ ?s |- gp _ (memoryGasCost _) _ ?s => eapply gp_memoryGasCost; [eassumption|assumption|assumption|exact H|intros ? ? ? ?]
  | H : at_ _ _ ?s |- gp _ (orOverflow (uUint64WithOverflow _)) _ ?s => eapply gp_uint64; [exact H|intros ? ?]
  | H : at_ _ _ ?s |- gp _ (safeAdd _ _) _ ?s => eapply gp_safeAdd; [exact H|lia|lia|intros ?]
  | H : at_ _ _ ?s |- gp _ (safeMul _ _) _ ?s => eapply gp_safeMul; [exact H|lia|lia|intros ?]
  | |- gp _ (let '(_, _) := ?r in _) _ _ => destruct r
  | |- gp _ (if ?b then _ else _) _ _ => destruct b eqn:?
  end.

Ltac begin_ :=
  intros s0 size Hi Hn H0 H32; pose proof (at_refl s0 Hi) as Ha; cbn [looksAt] in Hn; cbn [dynamicGas_].
Ltac solve_charged :=
  split; cbn [chargesMemory costly reserves]; [unfold is_u64; lia|assumption|try done; intros _; lia|try done; intros _; lia|done].

Lemma toWordSize_nonneg n : 0 <= n < 2 ^ 64 -> 0 <= toWordSize n.
Proof.
  intros Hn. unfold toWordSize, MaxUint64. destruct (Z.ltb_spec (2 ^ 64 - 1 - 31) n); [done|]. apply Z.div_pos; lia.
Qed.

Lemma pureMemory_charges : charges G_pureMemoryGascost.
Proof using laws. begin_. unfold pureMemoryGascost. gp_step. solve_charged. Qed.
Lemma copier_charges n : charges (G_memoryCopierGas n).
Proof using laws wspec.
  begin_. unfold memoryCopierGas. do 6 gp_step. pose proof (toWordSize_nonneg n0 ltac:(assumption)). unfold CopyGas in *. repeat gp_step. solve_charged.
Qed.
Lemma sha3_charges : charges G_gasSha3.
Proof using laws wspec.
  begin_. unfold gasSha3. do 6 gp_step. pose proof (toWordSize_nonneg n ltac:(assumption)). unfold Sha3WordGas in *. repeat gp_step. solve_charged.
Qed.
Lemma create2_charges : charges G_gasCreate2.
Proof using laws wspec.
  begin_. unfold gasCreate2. do 6 gp_step. pose proof (toWordSize_nonneg n ltac:(assumption)). unfold Sha3WordGas in *. repeat gp_step. solve_charged.
Qed.
Lemma sstore_charges : charges G_gasSStore.
Proof using laws. begin_. unfold gasSStore. repeat gp_step. all: unfold SstoreSetGas, SstoreClearGas, SstoreResetGas; solve_charged. Qed.
Lemma sstore2200_charges : charges G_gasSStoreEIP2200.
Proof using laws.
  begin_. unfold gasSStoreEIP2200. repeat gp_step.
  all: unfold SloadGasEIP2200, SstoreSetGasEIP2200, SstoreResetGasEIP2200; solve_charged.
Qed.
Lemma log_charges n : 0 <= n <= 4 -> charges (G_makeGasLog n).
Proof using laws wspec.
  intros Hn4. begin_. unfold makeGasLog. unfold LogGas, LogTopicGas, LogDataGas in *. rewrite (u64_small (n * 375)) by (unfold is_u64; lia).
  repeat gp_step. solve_charged.
Qed.
Lemma create3860_charges : charges G_gasCreateEip3860.
Proof using laws wspec.
  begin_. unfold gasCreateEip3860. do 4 gp_step. rewrite uUint64WithOverflow_spec. gp_step; [gp_step|]. 
  pose proof (u64_range (InitCodeWordGas * (u64 (u64 (uv x) + 31) / 32))) as Hr. unfold is_u64 in Hr. repeat gp_step. solve_charged.
Qed.
Lemma create23860_charges : charges G_gasCreate2Eip3860.
Proof using laws wspec.
  begin_. unfold gasCreate2Eip3860. do 4 gp_step. rewrite uUint64WithOverflow_spec. gp_step; [gp_step|]. 
  pose proof (u64_range ((InitCodeWordGas + Sha3WordGas) * (u64 (u64 (uv x) + 31) / 32))) as Hr. unfold is_u64 in Hr. repeat gp_step. solve_charged.
Qed.
Lemma exp_charges : charges G_gasExp.
Proof using laws wspec.
  begin_. unfold gasExp. do 2 gp_step. pose proof (u64_range ((uBitLen x + 7) / 8 * ExpByte)) as Hr. unfold is_u64 in Hr. unfold ExpGas. repeat gp_step. solve_charged.
Qed.
Lemma selfdestruct_charges : charges G_gasSelfdestruct.
Proof using laws wspec.
  begin_. unfold gasSelfdestruct. repeat gp_step.
  all: match goal with |- context [if ?b then _ else _] => destruct b end; unfold SelfdestructGas, CreateBySelfdestructGas; solve_charged.
Qed.
Lemma sstore2929_charges r : charges (G_makeGasSStoreFunc r).
Proof using laws.
  begin_. unfold makeGasSStoreFunc. repeat gp_step.
  all: unfold WarmStorageReadCostEIP2929, SstoreSetGasEIP2200, SstoreResetGasEIP2200, ColdSloadCostEIP2929; solve_charged.
Qed.
Lemma sload2929_charges : charges G_gasSLoadEIP2929.
Proof using laws.
  begin_. unfold gasSLoadEIP2929. repeat gp_step.
  all: unfold WarmStorageReadCostEIP2929, ColdSloadCostEIP2929; solve_charged.
Qed.
Lemma account2929_charges : charges G_gasEip2929AccountCheck.
Proof using laws wspec.
  begin_. unfold gasEip2929AccountCheck. repeat gp_step.
  all: unfold ColdAccountAccessCostEIP2929, WarmStorageReadCostEIP2929; solve_charged.
Qed.
Lemma extcodecopy2929_charges : charges G_gasExtCodeCopyEIP2929.
Proof using laws wspec.
  begin_. unfold gasExtCodeCopyEIP2929, memoryCopierGas. gp_step. do 6 gp_step. pose proof (toWordSize_nonneg n ltac:(assumption)).
  unfold CopyGas, ColdAccountAccessCostEIP2929, WarmStorageReadCostEIP2929 in *. repeat gp_step.
  all: solve_charged.
Qed.
Lemma selfdestruct2929_charges b : charges (G_makeSelfdestructGasFn b).
Proof using laws wspec.
  begin_. unfold makeSelfdestructGasFn, ColdAccountAccessCostEIP2929, CreateBySelfdestructGas. repeat gp_step.
  all: match goal with |- context [if ?b then u64 ?x else _] => destruct b; [rewrite (u64_small x) by (unfold is_u64; lia)|] end; solve_charged.
Qed.

(** ** Calls *)

(** All but one 64th, so far below 2^64 even when the base exceeds the gas and the difference wraps. *)
Lemma callGas_bound available base w : 0 <= callGas available base w <= 2 ^ 64 - 2 ^ 58.
Proof using wspec.
  unfold callGas. pose proof (u64_range (available - base)) as Ha. set (a := u64 (available - base)) in *. unfold is_u64 in Ha.
  pose proof (Z.div_mod a 64 ltac:(lia)). pose proof (Z.mod_pos_bound a 64 ltac:(lia)).
  rewrite u64_small by (unfold is_u64; lia). pose proof (uUint64_range w) as Hw. unfold is_u64 in Hw.
  destruct (_ || _) eqn:Hb; [lia|]. bool_to_prop. lia.
Qed.
(** Within the gas, the callee gets no more than asked for, and no more than all but one 64th. *)
Lemma callGas_within available base w : 0 <= base <= available -> available < 2 ^ 64 ->
  callGas available base w = Z.min (uv w) (available - base - (available - base) / 64).
Proof using wspec.
  intros Hb Ha. unfold callGas. pose proof (uv_range w). rewrite (u64_small (available - base)) by (unfold is_u64; lia).
  pose proof (Z.div_mod (available - base) 64 ltac:(lia)). pose proof (Z.mod_pos_bound (available - base) 64 ltac:(lia)).
  rewrite u64_small by (unfold is_u64; lia). rewrite uIsUint64_spec. destruct (Z.ltb_spec (uv w) (2 ^ 64)) as [Hw|]; cbn [negb orb]; [|lia].
  rewrite uUint64_small by done. destruct (Z.ltb_spec (available - base - (available - base) / 64) (uv w)); lia.
Qed.

Lemma gp_addCallGas s0 L gas (Q : Z -> St -> Prop) s : at_ s0 L s -> (0 < length (s_stack s0))%nat -> 0 <= gas < 2 ^ 57 ->
  (forall s', at_ s0 L s' -> 0 <= evm_callGasTemp (s_evm s') <= 2 ^ 64 - 2 ^ 58 -> Q (gas + evm_callGasTemp (s_evm s')) s') ->
  gp s0 (addCallGas gas) Q s.
Proof using wspec.
  intros Ha Hn Hg HQ. unfold addCallGas. do 4 gp_step. apply gp_bind, gp_fromM, wp_modify.
  pose proof (callGas_bound (c_Gas (s_contract s)) gas x) as Hb. set (s' := setEvm _ s).
  assert (at_ s0 L s') as Ha'. { apply at_evm; [done|]. eapply evm_rel_fields; [apply Ha|done..]. }
  eapply gp_safeAdd; [done|lia|lia|]. intros _. by apply (HQ s').
Qed.

Ltac solve_call :=
  split; cbn [chargesMemory costly reserves]; [unfold is_u64; lia|assumption|intros _; lia|done|intros ? [= <-]; split_and!; [lia| |intros _; lia]].

Lemma sign_zero v : (uSign v =? 0) = uIsZero v.
Proof using wspec.
  rewrite uSign_spec, uIsZero_spec. unfold s256. pose proof (uv_range v).
  destruct (Z.ltb_spec (uv v) (2 ^ 255)), (Z.eqb_spec (uv v) 0); (apply Z.eqb_eq; lia) || (apply Z.eqb_neq; lia).
Qed.
Lemma transferPrice_value s0 v : s_stack s0 !! 2%nat = Some v -> transferPrice true s0 = if uIsZero v then 0 else CallValueTransferGas.
Proof. intros H. unfold transferPrice. by rewrite H. Qed.

Lemma delegatecall_charges : charges G_gasDelegateCall.
Proof using laws wspec.
  begin_. unfold gasDelegateCall. do 2 gp_step. eapply gp_addCallGas; [done|lia|lia|]. intros ? Ha' Ht. solve_call. cbn. lia.
Qed.
Lemma staticcall_charges : charges G_gasStaticCall.
Proof using laws wspec.
  begin_. unfold gasStaticCall. do 2 gp_step. eapply gp_addCallGas; [done|lia|lia|]. intros ? Ha' Ht. solve_call. cbn. lia.
Qed.
Lemma callcode_charges : charges G_gasCallCode.
Proof using laws wspec.
  begin_. unfold gasCallCode. do 4 gp_step. match goal with H : s_stack s0 !! 2%nat = Some ?v |- _ => pose proof (transferPrice_value s0 v H) as Hp; set (val := v) in * end.
  rewrite sign_zero. unfold CallValueTransferGas in *. destruct (uIsZero val); cbn [negb]; do 2 gp_step.
  all: eapply gp_addCallGas; [done|lia|lia|]; intros ? Ha' Ht; solve_call; rewrite Hp; lia.
Qed.
Lemma call_charges : charges G_gasCall.
Proof using laws wspec.
  begin_. unfold gasCall. do 5 gp_step. match goal with H : s_stack s0 !! 2%nat = Some ?v |- _ => pose proof (transferPrice_value s0 v H) as Hp; set (val := v) in * end.
  rewrite sign_zero. unfold CallValueTransferGas, CallNewAccountGas in *. destruct (uIsZero val); cbn [negb]; repeat gp_step.
  all: try match goal with |- context [if ?b then 25000 else 0] => destruct b; rewrite (u64_small (_ + 9000)) by (unfold is_u64; lia) end.
  all: repeat gp_step; eapply gp_addCallGas; [done|lia|lia|]; intros ? Ha' Ht; solve_call; rewrite Hp; lia.
Qed.

(** The stack and the memory determine what is charged for them. *)
Lemma priced_Len s0 s : priced s0 s -> Len (s_mem s) = Len (s_mem s0).
Proof. intros []. unfold Len. congruence. Qed.
Lemma priced_growth s0 s size : priced s0 s -> grown size s = grown size s0 /\ growth size s = growth size s0.
Proof. intros Hp. unfold growth, grown. by rewrite (priced_Len _ _ Hp). Qed.
Lemma priced_transferPrice s0 s v : priced s0 s -> transferPrice v s = transferPrice v s0.
Proof. intros []. unfold transferPrice. by rewrite p_stack0. Qed.

Lemma priced_inv s0 s : inv hash s0 -> priced s0 s -> lastOf s = lastOf s0 -> inv hash s.
Proof.
  intros [] Hp Hl. pose proof (priced_Len _ _ Hp) as HL. destruct Hp. split; try done.
  - by rewrite p_stack0.
  - by rewrite HL.
  - unfold mem_paid in *. rewrite HL. by unfold lastOf in Hl; rewrite Hl.
  - unfold gasOf in *. lia.
  - by rewrite p_pc0.
  - by eapply evm_rel_ok.
Qed.

(** Taking gas, and giving it back. *)
Lemma priced_setGas s0 s g : priced s0 s -> 0 <= g <= gasOf s0 -> priced s0 (setContract (setGas g (s_contract s)) s).
Proof. intros [? [] ? ? ? ? ?] Hg. by split. Qed.

Lemma callVariant_charges old v : direct old = true -> reserves old = Some v -> charges old -> charges (G_makeCallVariantGasCallEIP2929 old).
Proof using laws wspec.
  intros Hdir Hres Hold. begin_. unfold makeCallVariantGasCallEIP2929. do 4 gp_step. gp_step.
  { eapply gp_mono; [done| |apply Hold; try done; lia]. intros cost s' [? ? ? _ Hr]. split; try done. intros v' Hv. by destruct (Hr v' Hv) as (? & ? & _). }
  do 2 gp_step. match goal with H : at_ s0 _ ?s |- gp s0 _ _ ?s => rename s into s1; rename H into Ha1 end. gp_step. apply gp_fromM.
  unfold wp, useGas, UseGas, ColdAccountAccessCostEIP2929, WarmStorageReadCostEIP2929. destruct (Z.ltb_spec (c_Gas (s_contract s1)) (2600 - 100)) as [Hlt|Hge].
  { cbn [post fst snd negb]. apply gp_fail. destruct Ha1 as [[? [] ? ? ? ? ?] _]. by split. }
  cbn [post fst snd negb]. set (s2 := setContract _ s1). destruct Ha1 as (Hp1 & Hg1 & Hl1).
  assert (priced s0 s2) as Hp2 by (apply priced_setGas; [done|unfold gasOf in *; lia]).
  assert (inv hash s2) as Hi2 by (by apply (priced_inv s0)).
  apply gp_bind. eapply gp_mono; [intros s'; apply (priced_trans _ _ _ Hp2)| |apply Hold; try done; rewrite (p_stack _ _ Hp2); lia].
  intros cost s3 [Hc [Hp3 [Hg3 Hl3]] Hm _ Hr]. destruct (Hr _ Hres) as (Ht & Hb & Hroom). specialize (Hroom Hdir). unfold is_u64 in Hc.
  apply gp_bind, gp_fromM, wp_modify, gp_ret. assert (gasOf s2 = gasOf s0 - 2500) as Hg2 by (unfold gasOf in *; cbn; lia).
  pose proof (i_gas _ _ Hi) as Hgm. unfold gas_max in Hgm. rewrite (u64_small (cost + _)) by (unfold is_u64; lia).
  assert (u64 (c_Gas (s_contract s3) + (2600 - 100)) = gasOf s0) as -> by (unfold gasOf in *; rewrite u64_small by (unfold is_u64; lia); lia).
  destruct (priced_growth _ _ size Hp2) as [Hgr Hgw]. rewrite Hgr in Hl3. rewrite Hgw in Hm. assert (lastOf s2 = lastOf s0) as Hl2 by done. rewrite Hl2 in Hl3.
  split; cbn [chargesMemory costly reserves]; [unfold is_u64; lia| |intros Hcm; destruct (Hm Hcm); lia|done|].
  - split_and!; [|done|done]. apply priced_setGas; [by eapply priced_trans|unfold gasOf in *; lia].
  - rewrite Hres. intros ? [= <-]. rewrite (priced_transferPrice _ _ _ Hp2) in Hb. cbn [s_evm setContract]. split_and!; [done|rewrite Hgw in Hb; lia|done].
Qed.

(** Every gas function of the tables. *)
Lemma gas_charges g : gasSized g = true -> charges g.
Proof using laws wspec.
  assert (forall g, direct g = true -> gasSized g = true -> charges g) as Hdirect.
  { intros [] Hd Hs; try discriminate Hd; auto using copier_charges, sstore_charges, sstore2200_charges, sha3_charges, pureMemory_charges,
      create2_charges, create3860_charges, create23860_charges, exp_charges, call_charges, callcode_charges, delegatecall_charges,
      staticcall_charges, selfdestruct_charges, sstore2929_charges, sload2929_charges, extcodecopy2929_charges,
      account2929_charges, selfdestruct2929_charges.
    apply log_charges. cbn in Hs. bool_to_prop. lia. }
  destruct g as [| | | | | | | | | | | | | | | | | | |old|]; intros Hs; try by apply Hdirect.
  cbn in Hs. apply andb_true_iff in Hs as [Hd [v Hr]%bool_decide_eq_true]. eapply callVariant_charges; [done..|]. apply Hdirect; [done|].
  by destruct old.
Qed.
End cost.
End Cost.
