(* ===== verification/EvmStep.v ===== *)
(** * One turn of the interpreter

    The facts about the jump tables that the interpreter relies on, checked for every opcode of
    every fork, and what the checks before an instruction establish. *)

From S2P Require Import Prelude Rlp AccountKey EvmWord EvmCode EvmMem EvmParams EvmState EvmGas EvmOps EvmTable EvmRun.
From S2P Require Import EvmSpec EvmInv EvmPlain EvmCost.

Module Step.
Export Cost.

#[export] Instance memorySizeFunc_eq : EqDecision memorySizeFunc.
Proof. solve_decision. Defined.

(** ** Tables *)

(** How deep a memory size looks into the stack. *)
Definition memDepth (f : memorySizeFunc) : nat :=
  match f with
  | memoryMLoad | memoryMStore | memoryMStore8 => 1
  | memorySha3 | memoryReturn | memoryRevert | memoryLog => 2
  | memoryCallDataCopy | memoryReturnDataCopy | memoryCodeCopy | memoryMcopy | memoryCreate | memoryCreate2 => 3
  | memoryExtCodeCopy => 4
  | memoryDelegateCall | memoryStaticCall => 6
  | memoryCall => 7
  end.
(** Whether the instruction calls with a value. *)
Definition valuedCall (f : executionFunc) : option bool :=
  match f with
  | F_opCall | F_opCallCode => Some true
  | F_opDelegateCall | F_opStaticCall => Some false
  | _ => None
  end.

(** What the entry of an opcode must say about its instruction. *)
Definition gas_fits (o : operation) : bool :=
  match dynamicGas o with
  | None => bool_decide (memOf (execute o) = None) && bool_decide (valuedCall (execute o) = None) && (halts (execute o) || (1 <=? constantGas o))
  | Some g =>
      gasSized g && (looksAt g <=? (arity (execute o)).1)%nat && (chargesMemory g || bool_decide (memOf (execute o) = None)) &&
      (halts (execute o) || (1 <=? constantGas o) || costly g) &&
      (bool_decide (valuedCall (execute o) = None) || bool_decide (valuedCall (execute o) = reserves g))
  end.
Definition op_fits (o : operation) : bool :=
  (minStack_ o =? Z.of_nat (arity (execute o)).1) &&
  (maxStack_ o =? StackLimit + Z.of_nat (arity (execute o)).1 - Z.of_nat (arity (execute o)).2) &&
  bool_decide (memorySize_ o = memOf (execute o)) &&
  match memOf (execute o) with None => true | Some f => (memDepth f <=? (arity (execute o)).1)%nat end &&
  sized (execute o) && (0 <=? constantGas o) && (constantGas o <? 2 ^ 64) && (negb (callsOut (execute o)) || (1 <=? constantGas o)) && gas_fits o.

Lemma gas_fits_dynamic o g : gas_fits o = true -> dynamicGas o = Some g ->
  gasSized g = true /\ (looksAt g <= (arity (execute o)).1)%nat /\ (chargesMemory g = true \/ memOf (execute o) = None) /\
  (halts (execute o) = true \/ 1 <= constantGas o \/ costly g = true) /\ (valuedCall (execute o) = None \/ valuedCall (execute o) = reserves g).
Proof.
  unfold gas_fits. intros H Hg. rewrite Hg, !andb_true_iff, !orb_true_iff, !bool_decide_eq_true, Nat.leb_le, Z.leb_le in H. tauto.
Qed.
Lemma gas_fits_constant o : gas_fits o = true -> dynamicGas o = None ->
  memOf (execute o) = None /\ valuedCall (execute o) = None /\ (halts (execute o) = true \/ 1 <= constantGas o).
Proof.
  unfold gas_fits. intros H Hg. rewrite Hg, !andb_true_iff, !orb_true_iff, !bool_decide_eq_true, Z.leb_le in H. tauto.
Qed.

Record op_right (o : operation) : Prop := {
  or_min : minStack_ o = Z.of_nat (arity (execute o)).1;
  or_max : maxStack_ o = StackLimit + Z.of_nat (arity (execute o)).1 - Z.of_nat (arity (execute o)).2;
  or_memory : memorySize_ o = memOf (execute o);
  or_depth : match memOf (execute o) with None => True | Some f => (memDepth f <= (arity (execute o)).1)%nat end;
  or_sized : sized (execute o) = true;
  or_gas : 0 <= constantGas o < 2 ^ 64;
  or_calls : callsOut (execute o) = true -> 1 <= constantGas o;
  or_fits : gas_fits o = true
}.
Lemma op_fits_right o : op_fits o = true -> op_right o.
Proof.
  unfold op_fits. rewrite !andb_true_iff, orb_true_iff, bool_decide_eq_true, !Z.eqb_eq, !Z.leb_le, Z.ltb_lt, negb_true_iff.
  intros ((((((((? & ?) & ?) & Hd) & ?) & ?) & ?) & Hc) & ?). split; try done.
  - destruct (memOf (execute o)); [by apply Nat.leb_le|done].
  - intros Hco. destruct Hc; [congruence|done].
Qed.

Definition table_fits (jt : JumpTable) : bool :=
  forallb (fun x : Z * operation => op_fits x.2 && (negb (x.1 =? STOP) || halts (execute x.2))) (map_to_list jt).

Lemma tables_fit r : table_fits (instructionSet r) = true.
Proof.
  unfold instructionSet. destruct (IsCancun r); [vm_compute; reflexivity|]. destruct (IsShanghai r); [vm_compute; reflexivity|].
  destruct (IsKore r); [vm_compute; reflexivity|]. destruct (IsLondon r); [vm_compute; reflexivity|].
  destruct (IsIstanbul r); vm_compute; reflexivity.
Qed.

Lemma table_op jt op o : table_fits jt = true -> jt !! op = Some o -> op_right o /\ (op = STOP -> halts (execute o) = true).
Proof.
  unfold table_fits. rewrite forallb_forall. intros H Ho. specialize (H (op, o)). apply andb_true_iff in H as [H1 H2].
  - split; [by apply op_fits_right|]. intros ->. cbn in H2. done.
  - apply list_elem_of_In, elem_of_map_to_list, Ho.
Qed.

Section step.
Context {word : Uint256} {wspec : Uint256Spec} {vms : VMState} {rel : StateRel}.
Context (hash : bytes -> Hash) {laws : StateLaws hash} (hash_inj : Inj (=) (=) hash).
Context (env : Env) (E : Prop).

(** ** The memory an instruction needs *)

Lemma calcMemSize64_bound off l : 0 <= (calcMemSize64 off l).1 < 2 ^ 64.
Proof using wspec.
  unfold calcMemSize64, calcMemSize64WithUint. destruct (negb _); [done|]. destruct (_ =? 0); [done|].
  rewrite uUint64WithOverflow_spec. destruct (negb _); [done|]. apply u64_range.
Qed.
Lemma calcMemSize64WithUint_bound off n : 0 <= (calcMemSize64WithUint off n).1 < 2 ^ 64.
Proof using wspec.
  unfold calcMemSize64WithUint. destruct (_ =? 0); [done|]. rewrite uUint64WithOverflow_spec. destruct (negb _); [done|]. apply u64_range.
Qed.

(** A memory size reads the stack and nothing else. *)
Definition reads_stack (m : M (Z * bool)) (st : list W) : Prop :=
  exists r, 0 <= r.1 < 2 ^ 64 /\ forall s, s_stack s = st -> m s = Ok (r, s).

Lemma back_reads n (k : W -> M (Z * bool)) st : (n < length st)%nat -> (forall x, reads_stack (k x) st) -> reads_stack (x ← Back n; k x) st.
Proof.
  intros Hn Hk. destruct (lookup_lt_is_Some_2 st n Hn) as [x Hx]. destruct (Hk x) as (r & Hr & Hs). exists r. split; [done|].
  intros s <-. unfold mbind, M_bind, Back. rewrite Hx. by apply Hs.
Qed.
Lemma ret_reads r st : 0 <= r.1 < 2 ^ 64 -> reads_stack (mret r) st.
Proof. intros Hr. by exists r. Qed.
Lemma memRange_reads o l st : (o < length st)%nat -> (l < length st)%nat -> reads_stack (memRange o l) st.
Proof using wspec. intros Ho Hl. apply back_reads; [done|]. intros x. apply back_reads; [done|]. intros y. apply ret_reads, calcMemSize64_bound. Qed.
Lemma memRanges_reads o1 l1 o2 l2 st : (o1 < length st)%nat -> (l1 < length st)%nat -> (o2 < length st)%nat -> (l2 < length st)%nat ->
  reads_stack (memRanges o1 l1 o2 l2) st.
Proof using wspec.
  intros H1 H2 H3 H4. destruct (memRange_reads o1 l1 st H1 H2) as ([x bx] & Hx & Hxs), (memRange_reads o2 l2 st H3 H4) as ([y by_] & Hy & Hys).
  exists (if bx then (0, true) else if by_ then (0, true) else if y <? x then (x, false) else (y, false)).
  split; [destruct bx, by_; try done; destruct (y <? x); done|]. intros s Hs. unfold memRanges, mbind, M_bind. rewrite Hxs by done. destruct bx; [done|].
  rewrite Hys by done. destruct by_; [done|]. by destruct (y <? x).
Qed.

Lemma memorySize_reads f st : (memDepth f <= length st)%nat -> reads_stack (memorySize f) st.
Proof using wspec.
  destruct f; cbn [memDepth memorySize]; intros Hn; try (apply memRange_reads; lia); try (apply memRanges_reads; lia);
    try (apply back_reads; [lia|]; intros x; apply ret_reads, calcMemSize64WithUint_bound).
  do 2 (apply back_reads; [lia|]; intros ?). cbv zeta. apply back_reads; [lia|]. intros ?. apply ret_reads, calcMemSize64_bound.
Qed.

(** What [memoryFor] returns: a size in words that suffices, and the growth. *)
Definition roomFor (f : option memorySizeFunc) (size : Z) (st : list W) : Prop :=
  match f with None => size = 0 | Some f => exists m, m <= size /\ forall s, s_stack s = st -> memorySize f s = Ok ((m, false), s) end.

Lemma memoryFor_ok o (Q : option (Z * Z) -> St -> Prop) s : Len (s_mem s) <= mem_limit ->
  match memorySize_ o with None => True | Some f => (memDepth f <= length (s_stack s))%nat end -> Q None s ->
  (forall size, 0 <= size -> size mod 32 = 0 -> roomFor (memorySize_ o) size (s_stack s) -> Q (Some (size, Z.max 0 (size - Len (s_mem s)))) s) ->
  wp E (memoryFor o) Q s.
Proof using wspec.
  intros Hlim Hd HN HS. pose proof (len_nonneg (m_store (s_mem s))) as H0. fold (Len (s_mem s)) in H0. unfold memoryFor. destruct (memorySize_ o) as [f|].
  - destruct (memorySize_reads f (s_stack s) Hd) as ([m ov] & Hm & Hr). cbn [fst] in Hm. unfold wp, mbind, M_bind. rewrite Hr by done. destruct ov; [done|].
    destruct (SafeMul (toWordSize m) 32) as [size ov] eqn:Hsm. destruct ov; [done|]. pose proof (toWordSize_nonneg m Hm) as Hw.
    destruct (SafeMul_ok (toWordSize m) 32 Hw ltac:(lia) ltac:(by rewrite Hsm)) as [He Hlt]. rewrite Hsm in He. cbn [fst] in He. subst size.
    assert (m <= toWordSize m * 32) as Hle.
    { revert Hlt. unfold toWordSize, MaxUint64. destruct (Z.ltb_spec (2 ^ 64 - 1 - 31) m); [change ((2 ^ 64 - 1) / 32) with (2 ^ 59 - 1); lia|].
      pose proof (Z.div_mod (m + 31) 32 ltac:(lia)). pose proof (Z.mod_pos_bound (m + 31) 32 ltac:(lia)). lia. }
    unfold get. cbn [mret M_ret post fst snd]. rewrite u64_small by (unfold is_u64, mem_limit in *; lia).
    set (L := Len (s_mem s)) in *. replace (if L <? _ then _ else _) with (Z.max 0 (toWordSize m * 32 - L)) by (destruct (Z.ltb_spec L (toWordSize m * 32)); lia).
    apply HS; [lia|apply Z_mod_mult|]. by exists m.
  - apply wp_ret. replace (Some (0, 0)) with (Some (0, Z.max 0 (0 - Len (s_mem s)))) by (do 2 f_equal; lia). by apply HS.
Qed.

(** ** The checks before an instruction *)

(** After the dynamic gas was paid. *)
Record paid (o : operation) (size : Z) (s1 s : St) : Prop := {
  pd_priced : priced hash s1 s;
  pd_size : size <= mem_limit;
  pd_last : lastOf s = memFee (grown size s1);
  pd_gas : gasOf s + growth size s1 <= gasOf s1;
  pd_progress : (halts (execute o) || (1 <=? constantGas o)) = false -> gasOf s + growth size s1 < gasOf s1;
  pd_reserved : forall v, valuedCall (execute o) = Some v -> 0 <= evm_callGasTemp (s_evm s) /\
    gasOf s + evm_callGasTemp (s_evm s) + transferPrice v s1 + growth size s1 <= gasOf s1
}.

(** Without growth the fee is that of the memory as it is. *)
Lemma no_growth s size : inv hash s -> size <= Len (s_mem s) -> growth size s = 0 /\ memFee (grown size s) = lastOf s.
Proof. intros [_ _ [_ Hp] _ _ _ _] Hs. unfold growth, grown. rewrite Z.max_r by done. unfold lastOf. rewrite Hp. lia. Qed.

Lemma payDynamic_ok o size s1 : inv hash s1 -> gas_fits o = true -> Z.of_nat (arity (execute o)).1 <= len (s_stack s1) ->
  0 <= size -> size mod 32 = 0 -> (memOf (execute o) = None -> size = 0) ->
  wp E (payDynamic o size) (fun ok s => if (ok : bool) then paid o size s1 s else priced hash s1 s) s1.
Proof using laws wspec.
  intros Hi Hg Hn H0 H32 Hm. apply Nat2Z.inj_le in Hn. unfold payDynamic.
  pose proof (at_refl hash s1 Hi) as [Hp _]. destruct (no_growth s1 0 Hi) as [Hng Hnf]; [apply len_nonneg|].
  destruct (dynamicGas o) as [g|] eqn:Hdg.
  - destruct (gas_fits_dynamic o g Hg Hdg) as (Hsz & Hlk & Hcm & Hpg & Hvc). apply wp_bind.
    eapply wp_mono; [done| |apply (gas_charges hash E g); try done; lia].
    intros [e|cost] s; [intros Hpr; by apply wp_ret|]. intros [Hc [Hpr [Hgas Hlast]] Hmem Hcost Hres]. unfold is_u64 in Hc.
    unfold wp, useGas, UseGas. fold (gasOf s). destruct (Z.ltb_spec (gasOf s) cost) as [|Hge]; cbn [post fst snd].
    { destruct Hpr as [? [] ? ? ? ? ?]. by split. }
    assert (size <= mem_limit /\ lastOf s = memFee (grown size s1) /\ growth size s1 <= cost) as (? & ? & ?).
    { destruct (chargesMemory g) eqn:Hch; [destruct Hmem; [done|]; done|]. destruct Hcm as [|Hm0]; [done|]. rewrite (Hm Hm0). split; [by unfold mem_limit|]. split; [congruence|lia]. }
    split; change (gasOf (setContract _ s)) with (gasOf s - cost); try done.
    + apply priced_setGas; [done|unfold gasOf in *; lia].
    + lia.
    + intros [Hh1 Hh2]%orb_false_iff. bool_to_prop. destruct Hpg as [|[|Hcg]]; [congruence|lia|]. specialize (Hcost Hcg). destruct (chargesMemory g); [lia|]. destruct Hcm as [|Hm0]; [done|]. rewrite (Hm Hm0), Hng. lia.
    + intros v Hv. destruct (Hres v) as (? & ? & _); [destruct Hvc; congruence|]. cbn [s_evm setContract]. lia.
  - destruct (gas_fits_constant o Hg Hdg) as (Hm0 & Hv0 & Hpg). rewrite (Hm Hm0). apply wp_ret.
    split; [done|by unfold mem_limit|congruence|lia| |intros v Hv; congruence]. intros [Hh1 Hh2]%orb_false_iff. bool_to_prop.
    destruct Hpg; [congruence|lia].
Qed.

(** The gas and what the memory has cost: never more than at the start. *)
Definition worth (s : St) : Z := gasOf s + memFee (Len (s_mem s) / 32).

(** What the checks establish. *)
Record ready (o : operation) (s0 s : St) : Prop := {
  rd_inv : inv hash s;
  rd_static : static (s_contract s) = static (s_contract s0);
  rd_evm : evm_rel hash (s_evm s0) (s_evm s);
  rd_stack : s_stack s = s_stack s0;
  rd_pc : s_pc s = s_pc s0;
  rd_pops : Z.of_nat (arity (execute o)).1 <= len (s_stack s0);
  rd_pushes : len (s_stack s0) + Z.of_nat (arity (execute o)).2 <= StackLimit + Z.of_nat (arity (execute o)).1;
  rd_memory : mem_ready (memOf (execute o)) s;
  rd_grows : Len (s_mem s0) <= Len (s_mem s);
  rd_gas : 0 <= gasOf s;
  rd_worth : worth s <= worth s0;
  rd_progress : halts (execute o) = false -> worth s < worth s0;
  rd_reserved : forall v, valuedCall (execute o) = Some v -> 0 <= evm_callGasTemp (s_evm s) /\
    worth s + evm_callGasTemp (s_evm s) + transferPrice v s0 < worth s0
}.

(** Growing the memory to what was paid for. *)
Lemma grow_ok o size s1 s : inv hash s1 -> paid o size s1 s -> 0 <= size -> size mod 32 = 0 ->
  let s' := if 0 <? Z.max 0 (size - Len (s_mem s1)) then setMem (Increase (Z.max 0 (size - Len (s_mem s1))) (s_mem s)) s else s in
  Len (s_mem s') = Z.max size (Len (s_mem s1)) /\ inv hash s'.
Proof.
  intros Hi [Hp Hs Hl _ _ _] H0 H32 s'. pose proof (priced_Len _ _ _ Hp) as HL. pose proof (len_nonneg (m_store (s_mem s1))) as Hn. fold (Len (s_mem s1)) in Hn.
  assert (Len (s_mem s') = Z.max size (Len (s_mem s1))) as HL'.
  { unfold s'. destruct (Z.ltb_spec 0 (Z.max 0 (size - Len (s_mem s1)))); [cbn [s_mem setMem]; rewrite Increase_len by lia|]; lia. }
  split; [done|]. destruct Hi as [Hst Hlim [Hw Hpd] Hg Hpc Hc He]. destruct Hp.
  assert (s_stack s' = s_stack s /\ s_contract s' = s_contract s /\ s_evm s' = s_evm s /\ s_pc s' = s_pc s /\ lastOf s' = lastOf s) as (E1 & E2 & E3 & E4 & E5).
  { unfold s'. destruct (0 <? _); done. }
  split; rewrite ?HL', ?E1, ?E2, ?E3, ?E4, ?p_stack0, ?p_pc0; try done.
  - lia.
  - split; [rewrite HL'; destruct (Z.max_spec size (Len (s_mem s1))) as [[_ ->]|[_ ->]]; done|]. fold (lastOf s'). rewrite E5, HL'. done.
  - unfold gasOf in *. lia.
  - by eapply evm_rel_ok.
Qed.

Lemma ready_grown o size s0 s1 s : op_right o -> inv hash s1 -> priced hash s0 s1 -> gasOf s1 = gasOf s0 - constantGas o ->
  Z.of_nat (arity (execute o)).1 <= len (s_stack s0) ->
  len (s_stack s0) <= StackLimit + Z.of_nat (arity (execute o)).1 - Z.of_nat (arity (execute o)).2 ->
  0 <= size -> size mod 32 = 0 -> roomFor (memOf (execute o)) size (s_stack s1) -> paid o size s1 s ->
  ready o s0 (if 0 <? Z.max 0 (size - Len (s_mem s1)) then setMem (Increase (Z.max 0 (size - Len (s_mem s1))) (s_mem s)) s else s).
Proof using laws.
  intros [] Hi1 Hp1 Hg1 Hpops Hpush H0 H32 Hroom Hpd. destruct (grow_ok o size s1 s Hi1 Hpd H0 H32) as [HL Hi'].
  pose proof (priced_trans _ _ _ _ Hp1 (pd_priced _ _ _ _ Hpd)) as Hp. pose proof (priced_Len _ _ _ Hp1) as HL1.
  destruct Hpd as [Hp2 _ _ Hpay Hprog Hresv]. set (s' := if 0 <? _ then _ else s) in *.
  assert (s_stack s' = s_stack s /\ s_contract s' = s_contract s /\ s_evm s' = s_evm s /\ s_pc s' = s_pc s) as (E1 & E2 & E3 & E4).
  { unfold s'. destruct (0 <? _); done. }
  assert (gasOf s' = gasOf s) as Eg by (unfold gasOf; by rewrite E2). clearbody s'.
  assert (worth s' + (gasOf s1 - gasOf s - growth size s1) + constantGas o = worth s0) as Hw.
  { unfold worth. rewrite HL, Eg, <- HL1. unfold growth, grown. lia. }
  split; rewrite ?E1, ?E2, ?E3, ?E4, ?Eg; try apply Hp; try done; try lia.
  - unfold mem_ready. destruct (memOf (execute o)) as [f|]; [|done]. destruct Hroom as (m & Hm & Hr).
    unfold fits. rewrite Hr by (rewrite E1; apply Hp2). lia.
  - intros Hh. rewrite Hh in Hprog. cbn [orb] in Hprog. destruct (Z.leb_spec 1 (constantGas o)); [|specialize (Hprog eq_refl)]; lia.
  - intros v Hv. destruct (Hresv v Hv) as [Ht Hb]. split; [done|]. rewrite (priced_transferPrice _ _ _ v Hp1) in Hb.
    assert (1 <= constantGas o); [|lia]. apply or_calls0. by destruct (execute o).
Qed.

Lemma prepare_ok o s0 : inv hash s0 -> op_right o ->
  wp E (prepare env o) (fun r s => match r with Some _ => priced hash s0 s | None => ready o s0 s end) s0.
Proof using laws wspec.
  intros Hi []. pose proof (at_refl hash s0 Hi) as [Hp0 _]. unfold prepare. apply wp_bind, wp_get. rewrite or_min0, or_max0.
  destruct (Z.ltb_spec (len (s_stack s0)) (Z.of_nat (arity (execute o)).1)) as [|Hpops]; [by apply wp_ret|].
  destruct (Z.ltb_spec (StackLimit + Z.of_nat (arity (execute o)).1 - Z.of_nat (arity (execute o)).2) (len (s_stack s0))) as [|Hpush]; [by apply wp_ret|].
  apply wp_bind. unfold wp at 1, useGas, UseGas. fold (gasOf s0). destruct (Z.ltb_spec (gasOf s0) (constantGas o)) as [|Hge]; cbn [post fst snd negb].
  { destruct Hp0 as [? [] ? ? ? ? ?]. by split. }
  apply wp_bind, wp_modify, wp_bind, wp_get. set (s1 := setEvm _ _).
  assert (priced hash s0 s1) as Hp1.
  { destruct (priced_setGas hash s0 s0 (gasOf s0 - constantGas o) Hp0 ltac:(lia)) as [? ? ? He ? ? ?]. split; try done. by eapply evm_rel_fields. }
  assert (inv hash s1) as Hi1 by (by apply (priced_inv hash s0)). assert (gasOf s1 = gasOf s0 - constantGas o) as Hg1 by done. clearbody s1.
  destruct (_ <? _); [by apply wp_ret|]. apply wp_bind, memoryFor_ok; [apply Hi1| |by apply wp_ret|].
  { rewrite or_memory0, (p_stack _ _ _ Hp1). destruct (memOf (execute o)); [unfold len in *; lia|done]. }
  intros size H0 H32 Hroom. rewrite or_memory0 in Hroom. apply wp_bind.
  eapply wp_mono; [done| |apply payDynamic_ok; try done; [by rewrite (p_stack _ _ _ Hp1)|intros Hm; by rewrite Hm in Hroom]].
  intros [|] s2 Hpd; [|by eapply wp_ret, priced_trans]. cbn [negb]. apply wp_bind.
  assert (op_right o) as Hor by done. pose proof (ready_grown o size s0 s1 s2 Hor Hi1 Hp1 Hg1 Hpops Hpush H0 H32 Hroom Hpd) as Hrd.
  by destruct (0 <? _).
Qed.
End step.
End Step.
