(* ===== verification/EvmCalls.v ===== *)
(** * Instructions that call

    What a call promises to the instruction that makes it, and that the instructions that call
    keep the invariant and never hold more gas than before. *)

From S2P Require Import Prelude Rlp AccountKey EvmWord EvmCode EvmMem EvmParams EvmState EvmGas EvmOps EvmTable EvmRun.
From S2P Require Import EvmSpec EvmInv EvmPlain EvmCost EvmStep.

Module CallOps.
Export Step.

Definition ref_ok (r : ContractRef) : Prop :=
  is_addr (refAddress r) /\ match r with ContractAsRef _ _ c _ => is_addr c | _ => True end.
Definition ref_contract (r : ContractRef) : Prop := match r with ContractAsRef _ _ _ _ => True | _ => False end.

(** Arithmetic on the gas of states that differ elsewhere. *)
Ltac gas_lia := unfold gasOf in *; cbn [s_contract setStack setEvm setMem setContract setGas c_Gas s_evm fst snd] in *; lia.

Section calls.
Context {word : Uint256} {wspec : Uint256Spec} {vms : VMState} {rel : StateRel}.
Context (hash : bytes -> Hash) {laws : StateLaws hash}.

(** ** The promise of a call *)

(** The machine as it was, no more gas than was given, and after an error the state of before; the
    gas is gone then, unless the code reverted or never ran. *)
Definition forfeits (gas : Z) (r : bytes * Z * option vmError) : Prop :=
  r.1.2 = 0 \/ r.2 = Some ErrExecutionReverted \/ r.1 = ([], gas).
Definition call_post (e : EVM) (gas : Z) (r : bytes * Z * option vmError) (e' : EVM) : Prop :=
  evm_rel hash e e' /\ 0 <= r.1.2 <= gas /\ (r.2 <> None -> alike (evm_StateDB e) (evm_StateDB e') /\ forfeits gas r).
Definition create_post (e : EVM) (gas : Z) (r : bytes * Address * Z * option vmError) (e' : EVM) : Prop :=
  evm_rel hash e e' /\ 0 <= r.1.2 <= gas.

Record calls_ok (n : Z) (calls : Calls) : Prop := {
  ok_Call caller addr input gas value e : ref_ok caller -> is_addr addr -> len input < 2 ^ 63 -> 0 <= gas <= gas_max -> evm_ok hash e ->
    (evm_readOnly e = true -> value = 0) -> ewp (gas < n) (callCall calls caller addr input gas value) (call_post e gas) e;
  ok_CallCode caller addr input gas value e : ref_ok caller -> is_addr addr -> len input < 2 ^ 63 -> 0 <= gas <= gas_max -> evm_ok hash e ->
    ewp (gas < n) (callCallCode calls caller addr input gas value) (call_post e gas) e;
  ok_DelegateCall caller addr input gas e : ref_ok caller -> ref_contract caller -> is_addr addr -> len input < 2 ^ 63 -> 0 <= gas <= gas_max ->
    evm_ok hash e -> ewp (gas < n) (callDelegateCall calls caller addr input gas) (call_post e gas) e;
  ok_StaticCall caller addr input gas e : ref_ok caller -> is_addr addr -> len input < 2 ^ 63 -> 0 <= gas <= gas_max -> evm_ok hash e ->
    ewp (gas < n) (callStaticCall calls caller addr input gas) (call_post e gas) e;
  ok_Create caller code gas value format e : ref_ok caller -> len code < 2 ^ 63 -> 0 <= gas <= gas_max -> evm_ok hash e -> evm_readOnly e = false ->
    ewp (gas < n) (callCreate calls caller code gas value format) (create_post e gas) e;
  ok_Create2 caller code gas value salt e : ref_ok caller -> len code < 2 ^ 63 -> 0 <= gas <= gas_max -> evm_ok hash e -> evm_readOnly e = false ->
    ewp (gas < n) (callCreate2 calls caller code gas value salt) (create_post e gas) e
}.

(** ** The instructions *)

(** What holds after any instruction that started with [budget] to spend. *)
Definition op_post (f : executionFunc) (budget : Z) (s0 : St) (r : bytes * option vmError) (s : St) : Prop :=
  frame hash s0 s /\ 0 <= gasOf s <= budget /\ is_u64 (s_pc s) /\
  (r.2 = None -> halts f = false /\ len (s_stack s) + Z.of_nat (arity f).1 = len (s_stack s0) + Z.of_nat (arity f).2).

Lemma wp_evmDo {A} (E : Prop) (f : EVM -> res vmPanic (A * EVM)) Q s : ewp E f (fun a e => Q a (setEvm e s)) (s_evm s) -> wp E (evmDo f) Q s.
Proof. unfold ewp, wp, evmDo. destruct (f (s_evm s)) as [[a e]| | |]; done. Qed.

(** A callee leaves a machine from which the caller can go on. *)
Lemma frame_call s0 s e : frame hash s0 s -> evm_rel hash (s_evm s) e -> frame hash s0 (setEvm e s).
Proof using laws. intros Hf He. apply frame_evm; [done|]. eapply (evm_rel_trans hash); [apply Hf|done]. Qed.
Lemma frame_gas s0 s g : frame hash s0 s -> frame hash s0 (setContract (setGas g (s_contract s)) s).
Proof. intros [? [] ? ? ?]. by split. Qed.

Context (env : Env) (calls : Calls) (E : Prop) (n : Z) (Hcalls : calls_ok n calls).

Lemma gasBack_ok s0 s g (Q : unit -> St -> Prop) : frame hash s0 s -> 0 <= gasOf s + g < 2 ^ 64 ->
  (frame hash s0 (setContract (setGas (gasOf s + g) (s_contract s)) s) -> Q tt (setContract (setGas (gasOf s + g) (s_contract s)) s)) ->
  wp E (gasBack g) Q s.
Proof. intros Hf Hg HQ. apply wp_modify. fold (gasOf s). rewrite u64_small by done. by apply HQ, frame_gas. Qed.

Lemma finishCall_ok f budget s0 s off size ret g err : frame hash s0 s -> is_u64 (s_pc s) -> Len (s_mem s) <= mem_limit ->
  ranged off size (Len (s_mem s)) -> 0 <= gasOf s -> 0 <= g -> gasOf s + g <= budget -> budget <= gas_max ->
  halts f = false -> len (s_stack s) + 1 + Z.of_nat (arity f).1 = len (s_stack s0) + Z.of_nat (arity f).2 ->
  wp E (finishCall off size (ret, g, err)) (op_post f budget s0) s.
Proof using wspec.
  intros Hf Hpc Hm Hr H0 Hg Hb Hmax Hh Hl. unfold finishCall. unfold gas_max in Hmax. apply wp_bind, wp_modify.
  assert (frame hash s0 (setStack (match err with None => uSetOne | Some _ => uClear end :: s_stack s) s)) as Hf1 by solve_frame.
  assert (forall s', frame hash s0 s' -> s_stack s' = match err with None => uSetOne | Some _ => uClear end :: s_stack s -> s_pc s' = s_pc s ->
    gasOf s' = gasOf s -> wp E (gasBack g;; setRet ret;; mret (ret, None)) (op_post f budget s0) s') as Hrest.
  { intros s' Hf' Hst Hpc' Hg'. apply wp_bind. eapply gasBack_ok; [done|lia|]. intros Hf2. apply wp_bind. eapply (wp_setRet hash); [done|]. intros Hf3.
    apply wp_ret. split_and!; [done|cbn; lia..|cbn; by rewrite Hpc'|]. intros _. split; [done|]. cbn [s_stack setEvm setContract]. rewrite Hst. rewrite len_cons. lia. }
  apply wp_bind. destruct (_ || _); [|by apply wp_ret, Hrest].
  eapply (wp_memDo hash); [done|by apply ranged_Set|]. intros m Hf2. by apply Hrest.
Qed.

Lemma asRef_ok c : contract_ok hash c -> ref_ok (asRef c) /\ ref_contract (asRef c).
Proof. intros []. by split. Qed.

(** An instruction that may spend less than [budget], what it set aside for the callee included. *)
Definition call_spec (f : executionFunc) : Prop := forall s, inv hash s -> Z.of_nat (arity f).1 <= len (s_stack s) -> mem_ready (memOf f) s ->
  (halts f = false -> s_pc s < len (c_Code (s_contract s))) -> forall budget v, valuedCall f = Some v -> 0 <= evm_callGasTemp (s_evm s) ->
  gasOf s + evm_callGasTemp (s_evm s) + transferPrice v s < budget -> budget <= gas_max -> (E -> budget <= n) ->
  wp E (execute_ env calls f) (op_post f (budget - 1) s) s.

(** A call that was made, and the end of the instruction. *)
Lemma called f budget s0 s off size g (call : EVM -> res vmPanic (bytes * Z * option vmError * EVM)) :
  frame hash s0 s -> is_u64 (s_pc s) -> Len (s_mem s) <= mem_limit -> ranged off size (Len (s_mem s)) ->
  0 <= gasOf s -> gasOf s + g < budget -> budget <= gas_max -> (E -> budget <= n) ->
  halts f = false -> len (s_stack s) + 1 + Z.of_nat (arity f).1 = len (s_stack s0) + Z.of_nat (arity f).2 ->
  ewp (g < n) call (call_post (s_evm s) g) (s_evm s) ->
  wp E (r ← evmDo call; finishCall off size r) (op_post f (budget - 1) s0) s.
Proof using laws wspec.
  intros Hf Hpc Hm Hr H0 Hg Hmax HE Hh Hl Hcall. apply wp_bind, wp_evmDo. eapply ewp_mono; [|  |exact Hcall]; [intros HE'; specialize (HE HE'); lia|].
  intros [[ret g'] err] e' (He & Hg' & _). cbn [fst snd] in Hg'. apply finishCall_ok; try done; try lia; [by apply frame_call|].
  change (gasOf s + g' <= budget - 1). lia.
Qed.

Lemma stipend_ok temp s budget w : 0 <= temp -> 0 <= gasOf s -> gasOf s + temp + transferPrice true s < budget -> budget <= gas_max ->
  s_stack s !! 2%nat = Some w ->
  let g := if uIsZero w then temp else u64 (temp + CallStipend) in 0 <= g /\ gasOf s + g < budget .
Proof.
  intros Ht Hs Hb Hm Hw. rewrite (transferPrice_value _ _ Hw) in Hb. unfold gas_max, CallValueTransferGas, CallStipend in *.
  destruct (uIsZero w); cbn zeta; [lia|]. rewrite u64_small by (unfold is_u64; lia). lia.
Qed.

(** A range of the memory is a slice. *)
Lemma ranged_small m off (l : W) : Len m <= mem_limit -> ranged off l (Len m) -> uv l < 2 ^ 63.
Proof using wspec. intros Hm Hr. destruct (ranged_nums m Hm off l Hr) as (_ & _ & _ & ?). lia. Qed.

Lemma opCall_ok : call_spec F_opCall.
Proof using Hcalls laws wspec.
  start_with hash 7%nat. intros budget v [= <-] Ht Hb Hmax HE. apply fits_ranges with (x1 := w4) (n1 := w5) (x2 := w2) (n2 := w3) in Hready as [Hret Hin]; [|done..].
  pose proof (i_gas _ _ Hi) as [Hgas _]. destruct (stipend_ok _ _ _ w1 Ht Hgas Hb Hmax eq_refl) as [Hg0 Hg].
  unfold opCall. do 16 wp_step hash. mem_get. do 2 wp_step hash. cbn [s_evm setStack] in *.
  case_if; [repeat wp_step hash; split_and!; [solve_frame|gas_lia..|done|done]|]. do 2 wp_step hash.
  apply called with (g := if uIsZero w1 then evm_callGasTemp e else u64 (evm_callGasTemp e + CallStipend)); try done; [solve_frame|..].
  { unfold len. cbn. lia. }
  apply (ok_Call _ _ Hcalls); [by apply asRef_ok|apply address_of_word| |gas_lia|apply Hi|].
  - match goal with H : len _ = uv w3 |- _ => rewrite H end. apply (ranged_small _ _ _ Hmem Hin).
  - cbn. intros Hro. rewrite Hro in *. by destruct (uIsZero w1).
Qed.
Lemma opCallCode_ok : call_spec F_opCallCode.
Proof using Hcalls laws wspec.
  start_with hash 7%nat. intros budget v [= <-] Ht Hb Hmax HE. apply fits_ranges with (x1 := w4) (n1 := w5) (x2 := w2) (n2 := w3) in Hready as [Hret Hin]; [|done..].
  pose proof (i_gas _ _ Hi) as [Hgas _]. destruct (stipend_ok _ _ _ w1 Ht Hgas Hb Hmax eq_refl) as [Hg0 Hg].
  unfold opCallCode. do 16 wp_step hash. mem_get. cbv zeta. do 2 wp_step hash. cbn [s_evm setStack] in *.
  apply called with (g := if uIsZero w1 then evm_callGasTemp e else u64 (evm_callGasTemp e + CallStipend)); try done; [solve_frame|..].
  { unfold len. cbn. lia. }
  apply (ok_CallCode _ _ Hcalls); [by apply asRef_ok|apply address_of_word|match goal with H : len _ = uv _ |- _ => rewrite H end; apply (ranged_small _ _ _ Hmem Hin)|gas_lia|apply Hi].
Qed.
Lemma opDelegateCall_ok : call_spec F_opDelegateCall.
Proof using Hcalls laws wspec.
  start_with hash 6%nat. intros budget v [= <-] Ht Hb Hmax HE. apply fits_ranges with (x1 := w3) (n1 := w4) (x2 := w1) (n2 := w2) in Hready as [Hret Hin]; [|done..].
  pose proof (i_gas _ _ Hi) as [Hgas _]. change (transferPrice false _) with 0 in Hb.
  unfold opDelegateCall. do 14 wp_step hash. mem_get. do 2 wp_step hash. cbn [s_evm setStack] in *.
  apply called with (g := evm_callGasTemp e); try done; [solve_frame|gas_lia|unfold len; cbn; lia|].
  apply (ok_DelegateCall _ _ Hcalls); [by apply asRef_ok|done|apply address_of_word|match goal with H : len _ = uv _ |- _ => rewrite H end; apply (ranged_small _ _ _ Hmem Hin)|gas_lia|apply Hi].
Qed.
Lemma opStaticCall_ok : call_spec F_opStaticCall.
Proof using Hcalls laws wspec.
  start_with hash 6%nat. intros budget v [= <-] Ht Hb Hmax HE. apply fits_ranges with (x1 := w3) (n1 := w4) (x2 := w1) (n2 := w2) in Hready as [Hret Hin]; [|done..].
  pose proof (i_gas _ _ Hi) as [Hgas _]. change (transferPrice false _) with 0 in Hb.
  unfold opStaticCall. do 14 wp_step hash. mem_get. do 2 wp_step hash. cbn [s_evm setStack] in *.
  apply called with (g := evm_callGasTemp e); try done; [solve_frame|gas_lia|unfold len; cbn; lia|].
  apply (ok_StaticCall _ _ Hcalls); [by apply asRef_ok|apply address_of_word|match goal with H : len _ = uv _ |- _ => rewrite H end; apply (ranged_small _ _ _ Hmem Hin)|gas_lia|apply Hi].
Qed.

(** ** Creations *)

Definition create_spec (f : executionFunc) : Prop := forall s, inv hash s -> Z.of_nat (arity f).1 <= len (s_stack s) -> mem_ready (memOf f) s ->
  (halts f = false -> s_pc s < len (c_Code (s_contract s))) -> forall budget, gasOf s < budget -> budget <= gas_max -> (E -> budget <= n) ->
  wp E (execute_ env calls f) (op_post f (budget - 1) s) s.

Lemma finishCreate_ok f budget s0 s ret addr g err : frame hash s0 s -> is_u64 (s_pc s) -> 0 <= gasOf s -> 0 <= g -> gasOf s + g <= budget ->
  budget <= gas_max -> halts f = false -> len (s_stack s) + 1 + Z.of_nat (arity f).1 = len (s_stack s0) + Z.of_nat (arity f).2 ->
  wp E (finishCreate (ret, addr, g, err)) (op_post f budget s0) s.
Proof.
  intros Hf Hpc H0 Hg Hb Hmax Hh Hl. unfold finishCreate. unfold gas_max in Hmax. apply wp_bind, wp_modify.
  set (s1 := setStack _ _). assert (frame hash s0 s1) by (unfold s1; solve_frame). assert (gasOf s1 = gasOf s) as Hg1 by done.
  assert (len (s_stack s1) = 1 + len (s_stack s)) as Hl1 by apply len_cons. apply wp_bind. eapply gasBack_ok; [done|lia|]. intros Hf2. rewrite Hg1 in *.
  destruct (bool_decide _); (apply wp_bind; eapply (wp_setRet hash); [done|]; intros Hf3; apply wp_ret).
  all: split_and!; [done|gas_lia..|done|]; intros _; split; [done|]; cbn [s_stack setEvm setContract]; lia.
Qed.

(** All but one 64th of the gas goes to the creation. *)
Lemma created f budget s0 s (call : Contract -> Z -> EVM -> res vmPanic (bytes * Address * Z * option vmError * EVM)) :
  frame hash s0 s -> is_u64 (s_pc s) -> 0 <= gasOf s < budget -> budget <= gas_max -> (E -> budget <= n) ->
  halts f = false -> len (s_stack s) + 1 + Z.of_nat (arity f).1 = len (s_stack s0) + Z.of_nat (arity f).2 ->
  (forall c g, contract_ok hash c -> 0 <= g <= gas_max -> ewp (g < n) (call c g) (create_post (s_evm s) g) (s_evm s)) ->
  wp E (c ← get s_contract; let gas := u64 (c_Gas c - c_Gas c / 64) in useGas gas;; c ← get s_contract; r ← evmDo (call c gas); finishCreate r)
    (op_post f (budget - 1) s0) s.
Proof using laws.
  intros Hf Hpc Hg Hmax HE Hh Hl Hcall. apply wp_bind, wp_get. fold (gasOf s). cbv zeta.
  pose proof (Z.div_mod (gasOf s) 64 ltac:(lia)). pose proof (Z.mod_pos_bound (gasOf s) 64 ltac:(lia)). unfold gas_max in Hmax.
  rewrite u64_small by (unfold is_u64; lia). set (g := gasOf s - gasOf s / 64) in *. apply wp_bind. unfold wp at 1, useGas, UseGas. fold (gasOf s).
  rewrite (proj2 (Z.ltb_ge (gasOf s) g)) by lia. cbn [post fst snd]. pose proof (frame_gas s0 s (gasOf s - g) Hf) as Hf1. set (s1 := setContract _ s) in *.
  apply wp_bind, wp_get, wp_bind, wp_evmDo. eapply ewp_mono; [| |apply Hcall; [apply Hf1|unfold gas_max; lia]]; [intros HE'; specialize (HE HE'); lia|].
  intros [[[ret addr] g'] err] e' [He Hg']. cbn [fst snd] in Hg'. apply finishCreate_ok; try done; [by apply frame_call|..].
  - change (0 <= gasOf s - g). lia.
  - lia.
  - change (gasOf s - g + g' <= budget - 1). lia.
  - unfold gas_max. lia.
Qed.

Lemma opCreate_ok : create_spec F_opCreate.
Proof using Hcalls laws wspec.
  start_with hash 3%nat. intros budget Hb Hmax HE. pose proof (i_gas _ _ Hi) as [Hgas _]. apply fits_range with (off := w0) (n := w1) in Hready; [|done..].
  unfold opCreate. do 2 wp_step hash. case_if; [repeat wp_step hash; split_and!; [solve_frame|gas_lia..|done|done]|].
  do 6 wp_step hash. mem_get. apply (created F_opCreate budget _ _ (fun c g => callCreate calls (asRef c) x g (if uIsZero w then 0 else uv w) CodeFormatEVM)); try done; [solve_frame|unfold len; cbn; lia|].
  intros c' g Hc' Hg. apply (ok_Create _ _ Hcalls); try done; [by apply asRef_ok| |apply Hi].
  match goal with H : len x = uv w1 |- _ => rewrite H end. apply (ranged_small _ _ _ Hmem Hready).
Qed.
Lemma opCreate2_ok : create_spec F_opCreate2.
Proof using Hcalls laws wspec.
  start_with hash 4%nat. intros budget Hb Hmax HE. pose proof (i_gas _ _ Hi) as [Hgas _]. apply fits_range with (off := w0) (n := w1) in Hready; [|done..].
  unfold opCreate2. do 2 wp_step hash. case_if; [repeat wp_step hash; split_and!; [solve_frame|gas_lia..|done|done]|].
  do 8 wp_step hash. mem_get. apply (created F_opCreate2 budget _ _ (fun c g => callCreate2 calls (asRef c) x g (if uIsZero w then 0 else uv w) w2)); try done; [solve_frame|unfold len; cbn; lia|].
  intros c' g Hc' Hg. apply (ok_Create2 _ _ Hcalls); try done; [by apply asRef_ok| |apply Hi].
  match goal with H : len x = uv w1 |- _ => rewrite H end. apply (ranged_small _ _ _ Hmem Hready).
Qed.

(** ** Any instruction *)

(** What may be left of the gas after the memory was paid for. *)
Definition budget (s0 s : St) : Z := worth s0 - memFee (Len (s_mem s) / 32).
Lemma budget_le o s0 s : inv hash s0 -> ready hash o s0 s -> gasOf s <= budget s0 s <= gasOf s0.
Proof.
  intros Hi []. unfold budget, worth in *. pose proof (len_nonneg (m_store (s_mem s0))) as Hn. fold (Len (s_mem s0)) in Hn.
  assert (memFee (Len (s_mem s0) / 32) <= memFee (Len (s_mem s) / 32)); [|lia].
  apply memFee_mono. split; [by apply Z.div_pos|by apply Z.div_le_mono].
Qed.

Lemma execute_ok o s0 s : Inj (=) (=) hash -> op_right o -> inv hash s0 -> ready hash o s0 s -> (E -> gasOf s0 <= n) ->
  (halts (execute o) = false -> s_pc s < len (c_Code (s_contract s))) ->
  wp E (execute_ env calls (execute o)) (op_post (execute o) (if halts (execute o) then budget s0 s else budget s0 s - 1) s) s.
Proof using Hcalls laws wspec.
  intros Hinj [_ _ _ _ Hsz _ _ _] Hi Hrd HE Hcode. pose proof (budget_le o s0 s Hi Hrd) as Hbl. pose proof (i_gas _ _ Hi) as [_ Hmax]. fold (gasOf s0) in Hmax.
  destruct Hrd. rewrite <- rd_stack0 in rd_pops0. assert (forall x, worth s + x < worth s0 -> gasOf s + x < budget s0 s) as Hbud by (unfold budget, worth; lia).
  assert (budget s0 s <= gas_max /\ (E -> budget s0 s <= n)) as [Hbm HEb] by (split; [lia|intros HE'; specialize (HE HE'); lia]).
  destruct (callsOut (execute o)) eqn:Hco.
  - destruct (valuedCall (execute o)) as [v|] eqn:Hv.
    + destruct (rd_reserved0 v eq_refl) as [Ht Hb]. assert (transferPrice v s = transferPrice v s0) as Hp by (unfold transferPrice; by rewrite rd_stack0).
      rewrite <- Hp, <- Z.add_assoc in Hb. apply Hbud in Hb. rewrite Z.add_assoc in Hb. destruct (execute o); try discriminate Hv; cbn [halts].
      * by eapply opCall_ok.
      * by eapply opCallCode_ok.
      * by eapply opDelegateCall_ok.
      * by eapply opStaticCall_ok.
    + assert (gasOf s < budget s0 s) as Hlt. { rewrite <- (Z.add_0_r (gasOf s)). apply Hbud. rewrite Z.add_0_r. apply rd_progress0. by destruct (execute o). }
      destruct (execute o); try discriminate Hco; try discriminate Hv; cbn [halts].
      * by eapply opCreate_ok.
      * by eapply opCreate2_ok.
  - eapply (wp_mono E); [done| |by apply (plain_ok hash Hinj env calls E)]. intros r s' (? & Hg & ? & ?). unfold same_gas in Hg. fold (gasOf s') (gasOf s) in Hg.
    split_and!; try done; [lia|]. destruct (halts (execute o)); [lia|]. specialize (rd_progress0 eq_refl). unfold budget, worth in *. lia.
Qed.
End calls.
End CallOps.
