(* ===== verification/EvmLoop.v ===== *)
(** * Runs

    By induction on the fuel: every turn of the interpreter keeps the invariant of the call and
    uses gas, every call leaves the machine as it found it but for the state, and the fuel
    suffices when it exceeds the gas. *)

From S2P Require Import Prelude Rlp AccountKey EvmWord EvmCode EvmMem EvmParams EvmState EvmGas EvmOps EvmTable EvmRun.
From S2P Require Import EvmSpec EvmInv EvmPlain EvmCost EvmStep EvmCalls.

Module Loop.
Export CallOps.

Section loop.
Context {word : Uint256} {wspec : Uint256Spec} {vms : VMState} {rel : StateRel}.
Context (hash : bytes -> Hash) {laws : StateLaws hash} (hash_inj : Inj (=) (=) hash).
Context (env : Env) (jt : JumpTable) (Hjt : table_fits jt = true).

(** ** One turn *)

(** What is left when the loop ends. *)
Definition left_ (s0 s : St) : Prop := evm_rel hash (s_evm s0) (s_evm s) /\ 0 <= gasOf s <= gasOf s0.
(** From turn to turn. *)
Record goes (s0 s : St) : Prop := {
  g_inv : inv hash s;
  g_static : static (s_contract s) = static (s_contract s0);
  g_evm : evm_rel hash (s_evm s0) (s_evm s);
  g_gas : gasOf s < gasOf s0;
  g_worth : worth s < worth s0
}.

Lemma priced_left s0 s : priced hash s0 s -> left_ s0 s.
Proof. intros []. by split. Qed.

(** An instruction that starts from the checks. *)
Lemma op_post_left o s0 s r s' : inv hash s0 -> ready hash o s0 s ->
  op_post hash (execute o) (if halts (execute o) then budget s0 s else budget s0 s - 1) s r s' -> left_ s0 s'.
Proof using laws.
  intros Hi Hrd (Hf & Hg & _). pose proof (budget_le hash o s0 s Hi Hrd). split.
  - eapply (evm_rel_trans hash); [apply Hrd|apply Hf].
  - destruct (halts (execute o)); lia.
Qed.
Lemma op_post_goes o s0 s ret s' : inv hash s0 -> ready hash o s0 s -> op_right o ->
  op_post hash (execute o) (if halts (execute o) then budget s0 s else budget s0 s - 1) s (ret, None) s' ->
  goes s0 (setPc (u64 (s_pc s' + 1)) s').
Proof using laws.
  intros Hi Hrd Hor Hpost. destruct (op_post_left _ _ _ _ _ Hi Hrd Hpost) as [He Hgl]. destruct Hpost as (Hf & Hg & Hpc & Hst).
  destruct (Hst eq_refl) as [Hh Hl]. rewrite Hh in Hg. pose proof (budget_le hash o s0 s Hi Hrd) as Hb. pose proof (i_gas _ _ Hi). fold (gasOf s0) in *.
  destruct Hrd, Hf. rewrite rd_stack0 in Hl. assert (Len (s_mem s') = Len (s_mem s)) as HL by done. unfold budget in *. split; cbn [s_stack s_mem s_contract s_evm s_pc setPc].
  - destruct rd_inv0 as [? ? [] ? ? ? ?]. split; cbn [s_stack s_mem s_contract s_evm s_pc setPc]; try done.
    + lia.
    + by rewrite HL.
    + unfold mem_paid. by rewrite HL, f_last0.
    + fold (gasOf s'). lia.
    + apply u64_range.
    + by eapply evm_rel_ok.
  - congruence.
  - done.
  - change (gasOf s' < gasOf s0). lia.
  - change (gasOf s' + memFee (Len (s_mem s') / 32) < worth s0). rewrite HL. lia.
Qed.

Lemma step_ok (E : Prop) n calls s0 : calls_ok hash n calls -> inv hash s0 -> (E -> gasOf s0 <= n) ->
  wp E (step env jt calls) (fun r s => match r with inl _ => left_ s0 s | inr _ => goes s0 s end) s0.
Proof using Hjt hash_inj laws wspec.
  intros Hcalls Hi HE. unfold step. apply wp_bind, wp_get.
  assert (left_ s0 s0) as Hl0 by (split; [apply (evm_rel_refl hash), Hi|pose proof (i_gas _ _ Hi); unfold gasOf; lia]).
  destruct (jt !! _) as [o|] eqn:Hop; [|by apply wp_ret]. destruct (table_op jt _ o Hjt Hop) as [Hor Hstop]. apply wp_bind.
  eapply (wp_mono E); [done| |by apply (prepare_ok hash env E)]. intros [err|] s; [intros Hp; by apply wp_ret, priced_left|].
  intros Hrd. apply wp_bind. eapply (wp_mono E); [done| |apply (execute_ok hash env calls E n Hcalls o s0 s); try done].
  - intros [ret err] s' Hpost. destruct err as [err|]; [by eapply wp_ret, op_post_left|]. apply wp_bind, wp_modify, wp_ret. by eapply op_post_goes.
  - intros Hh. rewrite (rd_pc _ _ _ _ Hrd). assert (c_Code (s_contract s) = c_Code (s_contract s0)) as -> by (pose proof (rd_static _ _ _ _ Hrd) as Hs; unfold static in Hs; congruence).
    unfold GetOp in Hop, Hstop. pose proof (co_code _ _ (i_contract _ _ Hi)). pose proof (len_nonneg (c_Code (s_contract s0))).
    rewrite u64_small in Hstop by (unfold is_u64; lia). destruct (Z.ltb_spec (s_pc s0) (len (c_Code (s_contract s0)))); [done|].
    rewrite Hstop in Hh by done. discriminate.
Qed.
End loop.
End Loop.
