(* ===== verification/EvmFrames.v ===== *)
(** * Calls

    The calls and creations of [evm.go] around the code they run: what they leave when the code
    behaves, with the snapshots they revert to. *)

From S2P Require Import Prelude Rlp AccountKey EvmWord EvmCode EvmMem EvmParams EvmState EvmGas EvmOps EvmTable EvmRun.
From S2P Require Import EvmSpec EvmInv EvmPlain EvmCost EvmStep EvmCalls EvmLoop.

Module Frames.
Export Loop.

Section frames.
Context {word : Uint256} {wspec : Uint256Spec} {vms : VMState} {rel : StateRel}.
Context (hash : bytes -> Hash) {laws : StateLaws hash} (hash_inj : Inj (=) (=) hash).

(** ** Machines *)

(** Nothing that can be read has changed. *)
Definition still (e e' : EVM) : Prop := evm_rel hash e e' /\ alike (evm_StateDB e) (evm_StateDB e').
(** The snapshot [id] leads back to the state of [e0]. *)
Definition snapped (e0 : EVM) (id : Z) (e : EVM) : Prop :=
  evm_rel hash e0 e /\ exists g, ext (evm_StateDB e0) g /\ alike (evm_StateDB e0) g /\ within id g (evm_StateDB e).

Lemma still_refl e : evm_ok hash e -> still e e.
Proof using laws. intros He. split; [by apply evm_rel_refl|done]. Qed.
Lemma still_trans e1 e2 e3 : still e1 e2 -> still e2 e3 -> still e1 e3.
Proof using laws. intros [H1 S1] [H2 S2]. split; [by eapply (evm_rel_trans hash)|by etransitivity]. Qed.
Lemma still_ok e e' : still e e' -> evm_ok hash e'.
Proof. intros [H _]. by eapply evm_rel_ok. Qed.
Lemma snapped_step e0 id e e' : snapped e0 id e -> evm_rel hash e e' -> snapped e0 id e'.
Proof using laws.
  intros [H1 (g & Hx & Hs & Hw)] H2. split; [by eapply (evm_rel_trans hash)|]. exists g. split_and!; try done. by apply (er_ext _ _ _ H2).
Qed.
Lemma snapped_ok e0 id e : snapped e0 id e -> evm_ok hash e.
Proof. intros [H _]. by eapply evm_rel_ok. Qed.
Lemma snapped_ro e0 id e : snapped e0 id e -> evm_readOnly e = evm_readOnly e0.
Proof. intros [H _]. by apply H. Qed.

(** Rules. *)
Lemma ewp_read {A} (E : Prop) (f : DB -> A * DB) (Q : A -> EVM -> Prop) e : evm_ok hash e -> reads f ->
  (forall e', still e e' -> e' = setDB (f (evm_StateDB e)).2 e -> Q (f (evm_StateDB e)).1 e') -> ewp E (stRead f) Q e.
Proof using laws.
  intros He Hf HQ. eapply (ewp_stRead hash); [by apply (evm_rel_refl hash)|done|]. intros a e' <- Hr Heq. apply HQ; [|done]. split; [done|]. subst e'.
  apply Hf, He.
Qed.
Lemma ewp_do (E : Prop) (f : DB -> DB) (Q : unit -> EVM -> Prop) e : evm_ok hash e -> changes f -> (evm_readOnly e = true -> quiet f) ->
  (forall e', evm_rel hash e e' -> Q tt e') -> ewp E (stDo f) Q e.
Proof using laws. intros He Hf Hq HQ. eapply (ewp_stDo hash); [by apply (evm_rel_refl hash)|done|done|]. intros e' Hr _. by apply HQ. Qed.
Lemma ewp_get {A} (E : Prop) (f : EVM -> A) Q e : Q (f e) e -> ewp E (evmGet f) Q e.
Proof. done. Qed.
Lemma ewp_modify (E : Prop) f Q e : Q tt (f e) -> ewp E (evmModify f) Q e.
Proof. done. Qed.

Lemma ewp_snapshot (E : Prop) (Q : Z -> EVM -> Prop) e0 e : still e0 e -> (forall id e', still e0 e' -> snapped e0 id e' -> Q id e') ->
  ewp E (stRead dbSnapshot) Q e.
Proof using laws.
  intros He HQ. pose proof (still_ok _ _ He) as [Hg _]. destruct (law_Snapshot (hash:=hash) _ Hg) as (Hx & Hs & Hw). unfold ewp, stRead.
  destruct (dbSnapshot (evm_StateDB e)) as [id db] eqn:Hsn. cbn in *. destruct He as [Hr Hsm].
  assert (evm_rel hash e0 (setDB db e)) as Hr' by (apply (evm_rel_db hash); [done|done|]; intros _; by apply law_alike).
  apply HQ; split; try done; [by etransitivity|]. exists (evm_StateDB e). split_and!; try done. apply Hr.
Qed.
Lemma ewp_revert (E : Prop) (Q : unit -> EVM -> Prop) e0 id e : snapped e0 id e -> (forall e', still e0 e' -> Q tt e') -> ewp E (stChange (dbRevertToSnapshot id)) Q e.
Proof using laws.
  intros Hsn HQ. pose proof (snapped_ok _ _ _ Hsn) as [Hg Hc]. destruct Hsn as [[Hd Hro Hx Hs _] (g & Hxg & Hsg & Hw)].
  destruct (law_Revert (hash:=hash) id g _ Hg Hw) as (db & Hdb & Hx' & Hs'). unfold ewp, stChange. rewrite Hdb. cbn [post fst snd]. apply HQ.
  assert (alike (evm_StateDB e0) db) by (by etransitivity). split; [|done]. split; try done; [by eapply ext_trans|]. intros _. by apply law_alike.
Qed.

(** The end of a call. *)
Lemma settle_ok (E : Prop) e0 id e gas ret g err : snapped e0 id e -> 0 <= g <= gas -> ewp E (settle id (ret, g, err)) (call_post hash e0 gas) e.
Proof using laws.
  intros Hsn Hg. unfold settle. destruct err as [err|].
  - apply ewp_bind. eapply ewp_revert; [done|]. intros e' [Hr Hs]. apply ewp_ret. split_and!; cbn; [done|case_bool_decide; lia..|]. intros _. split; [done|].
    unfold forfeits. cbn. case_bool_decide; [subst; auto|auto].
  - apply ewp_ret. split_and!; cbn; try done; try lia. by destruct Hsn.
Qed.

(** ** Running a contract *)

Context (env : Env) (Hkeccak : forall b, keccak256 env b = hash b).

(** What the machine expects of a precompiled contract: it asks for a cost, and within the gas
    there can be, it runs without fault and leaves the state the same when it must. *)
Definition precompile_ok (p : PrecompiledContract) : Prop := forall input, len input < 2 ^ 63 ->
  post True (GetRequiredGasAndComputationCost p input) (fun costs => 0 <= costs.1 /\
    (costs.1 <= gas_max -> forall c e, is_addr (c_CallerAddress c) -> evm_ok hash e ->
       post True (RunPrecompiled p input c e) (fun r => evm_rel hash e r.2))).
Definition precompiles_ok (m : gmap Address PrecompiledContract) : Prop := map_Forall (fun _ p => precompile_ok p) m.
Record env_ok : Prop := {
  pre_Byzantium : precompiles_ok (PrecompiledContractsByzantium env);
  pre_Istanbul : precompiles_ok (PrecompiledContractsIstanbul env);
  pre_Kore : precompiles_ok (PrecompiledContractsKore env);
  pre_Cancun : precompiles_ok (PrecompiledContractsCancun env)
}.
Context (Henv : env_ok) (n : Z) (lp : bytes -> M exit).
Context (Hlp : forall res s, inv hash s -> wp (gasOf s < n) (lp res) (fun _ s' => left_ hash s s') s).

(** A contract about to run. *)
Record runnable (gas : Z) (c : Contract) : Prop := {
  rn_caller : is_addr (c_CallerAddress c);
  rn_gas : c_Gas c = gas;
  rn_code : c_Code c = [] \/ contract_ok hash c
}.
Definition run_post (e : EVM) (gas : Z) (r : bytes * option vmError * Contract) (e' : EVM) : Prop :=
  evm_rel hash e e' /\ 0 <= c_Gas r.2 <= gas.

Lemma fresh_inv c input e : contract_ok hash c -> len input < 2 ^ 63 -> 0 <= c_Gas c <= gas_max -> evm_ok hash e ->
  inv hash (mkSt 0 [] NewMemory (setInput input c) e).
Proof. intros [] Hi Hg He. by split. Qed.

Lemma RunWith_ok c input gas e : runnable gas c -> 0 <= gas <= gas_max -> len input < 2 ^ 63 -> evm_ok hash e ->
  ewp (gas < n) (RunWith env lp c input) (run_post e gas) e.
Proof using Hlp laws.
  intros [Hcl Hg Hcode] Hgas Hi He. unfold RunWith. pose proof (evm_rel_refl hash e He) as Hr. destruct (Z.eqb_spec (len (c_Code c)) 0) as [|Hne].
  { unfold ewp. cbn [post fst snd]. split; [|cbn; lia]. eapply evm_rel_fields; [exact Hr|cbn; lia|done..]. }
  set (e1 := setReturnData [] (setDepth (evm_depth e + 1) e)). destruct Hcode as [Hc|Hc]; [by rewrite Hc in Hne|].
  assert (inv hash (mkSt 0 [] NewMemory (setInput input c) e1)) as Hinv by (apply fresh_inv; try done; [lia|by destruct He]).
  pose proof (Hlp [] _ Hinv) as Hw. unfold wp, gasOf in Hw. cbn [s_contract setInput c_Gas] in Hw. rewrite Hg in Hw. unfold ewp.
  destruct (lp [] _) as [[x s]| | |] eqn:Hrun; cbn [post fst snd] in Hw; try done. cbn [mbind res_bind].
  destruct Hw as [Her Hgl]. unfold gasOf in Hgl. cbn [s_contract s_evm setInput c_Gas] in Her, Hgl.
  assert (forall s', s_contract s' = s_contract s -> evm_rel hash e1 (s_evm s') -> evm_rel hash e (setDepth (evm_depth (s_evm s') - 1) (s_evm s')) /\ 0 <= c_Gas (s_contract s') <= gas) as Hfin.
  { intros s' -> Hs'. split; [|lia]. destruct Hs' as [Hd Hro Hx Hs Hcache]. split; try done. cbn. rewrite Hd. cbn. lia. }
  destruct x as [err|ret err]; cbn [post fst snd]; [by apply Hfin|].
  unfold loadAbort. cbn [mbind res_bind]. destruct (negb _); apply (Hfin (setEvm _ s)); try done; by eapply evm_rel_fields.
Qed.

Lemma GetPrecompiledContractMap_ok (E : Prop) (a : Address) (Q : gmap Address PrecompiledContract -> EVM -> Prop) e : evm_ok hash e -> is_addr a ->
  (forall m e', still e e' -> precompiles_ok m -> Q m e') -> ewp E (GetPrecompiledContractMap env a) Q e.
Proof using Henv laws.
  intros He Ha HQ. apply ewp_bind. eapply ewp_read; [done|by apply law_GetVmVersion|]. intros e' Hs _. apply ewp_ret, HQ; [done|].
  destruct Henv. destruct (bool_decide _); [done|]. destruct (IsCancun _); [done|]. destruct (IsKore _); [done|]. by destruct (IsIstanbul _).
Qed.
Lemma isProgramAccount_ok (E : Prop) (caller a : Address) (Q : bool -> EVM -> Prop) e : evm_ok hash e -> is_addr caller -> is_addr a ->
  (forall b e', still e e' -> Q b e') -> ewp E (isProgramAccount env caller a) Q e.
Proof using Henv laws.
  intros He Hc Ha HQ. apply ewp_bind, GetPrecompiledContractMap_ok; [done|done|]. intros m e' Hs _. destruct (bool_decide _); [by apply ewp_ret, HQ|].
  eapply ewp_read; [by eapply still_ok|by apply law_IsProgramAccount|]. intros e2 Hs2 _. apply HQ. by eapply still_trans.
Qed.

Lemma run_ok c input gas e : runnable gas c -> 0 <= gas <= gas_max -> len input < 2 ^ 63 -> evm_ok hash e ->
  ewp (gas < n) (run env lp c input) (run_post e gas) e.
Proof using Henv Hlp laws.
  intros Hrn Hgas Hi He. unfold run. apply ewp_bind. destruct (c_CodeAddr c) as [a|]; [|by apply ewp_ret, RunWith_ok].
  apply ewp_bind, GetPrecompiledContractMap_ok; [done|apply Hrn|]. intros m e' Hs Hm. apply ewp_ret. pose proof (still_ok _ _ Hs) as He'.
  destruct (m !! a) as [p|] eqn:Hp.
  - pose proof (Hm a p Hp input Hi) as Hpre. apply ewp_bind. unfold ewp at 1, RunPrecompiledContract.
    destruct (GetRequiredGasAndComputationCost p input) as [[need cost]| | |]; cbn [post fst] in Hpre; try done.
    destruct Hpre as [H0 Hrun]. cbn [mbind res_bind]. unfold UseGas. rewrite (rn_gas _ _ Hrn).
    destruct (Z.ltb_spec gas need) as [|Hge].
    { cbn [post fst snd]. apply ewp_bind, ewp_modify, ewp_ret. split; [by eapply evm_rel_fields; [apply Hs|..]|cbn; rewrite (rn_gas _ _ Hrn); lia]. }
    specialize (Hrun ltac:(lia) (setGas (gas - need) c) e' (rn_caller _ _ Hrn) He').
    destruct (RunPrecompiled p input _ e') as [[[ret err] e2]| | |]; cbn [post] in Hrun; try done.
    cbn [post fst snd mbind res_bind]. apply ewp_bind, ewp_modify, ewp_ret. split; [|cbn; lia].
    eapply evm_rel_fields; [eapply (evm_rel_trans hash); [apply Hs|exact Hrun]|done..].
  - eapply ewp_mono; [done| |by apply RunWith_ok]. intros r e2 [Hr Hg]. split; [|done]. eapply (evm_rel_trans hash); [apply Hs|done].
Qed.

(** ** Setting up a call *)

(** A contract without code yet. *)
Record fresh (gas : Z) (c : Contract) : Prop := {
  fr_self : is_addr (c_self c);
  fr_caller : is_addr (c_CallerAddress c);
  fr_input : c_Input c = [];
  fr_analysis : c_analysis c = None;
  fr_gas : c_Gas c = gas
}.
Lemma fresh_code gas c addr h code : fresh gas c -> len code < 2 ^ 63 -> (code = [] \/ h = zeroHash \/ hash code = h) -> runnable gas (SetCallCode addr h code c).
Proof.
  intros [? ? Hin Han ?] Hl Hh. split; try done. destruct Hh as [->|Hh]; [by left|right]. split; try done; cbn.
  - by rewrite Hin.
  - intros bits. by rewrite Han.
Qed.

Lemma newContract_ok (E : Prop) caller object value gas (Q : Contract -> EVM -> Prop) e : evm_ok hash e -> ref_ok caller -> is_addr object ->
  (forall c e', still e e' -> fresh gas c -> c_caller c = caller -> Q c e') -> ewp E (newContract caller object value gas) Q e.
Proof using laws.
  intros He [Hc _] Ho HQ. unfold newContract. assert (fresh gas (NewContract caller object value gas)) as Hf by done.
  destruct caller as [a|s f|a f c v]; apply ewp_bind; [apply ewp_modify, ewp_ret, HQ; try done..|apply ewp_ret, ewp_ret, HQ; try done; by apply still_refl].
  all: split; [|done]; destruct He; split; try done; intros ? ? ?; by rewrite lookup_empty.
Qed.
Lemma setCallCode_ok (E : Prop) addr gas c (Q : Contract -> EVM -> Prop) e : evm_ok hash e -> is_addr addr -> fresh gas c ->
  (forall c' e', still e e' -> runnable gas c' -> Q c' e') -> ewp E (setCallCode addr c) Q e.
Proof using laws.
  intros He Ha Hf HQ. apply ewp_bind. eapply ewp_read; [done|by apply law_GetCodeHash|]. intros e1 Hs1 He1.
  apply ewp_bind. pose proof (still_ok _ _ Hs1) as Hok1. eapply ewp_read; [done|by apply law_GetCode|]. intros e2 Hs2 _.
  pose proof (law_code_hash (hash:=hash) addr _ Ha (eo_db _ _ He)) as Hh. pose proof (law_code_len (hash:=hash) addr _ Ha (eo_db _ _ Hok1)) as Hl.
  destruct (dbGetCodeHash addr (evm_StateDB e)) as [h s1]. subst e1. cbn [fst snd evm_StateDB setDB] in *.
  apply ewp_ret, HQ; [by eapply still_trans|]. apply fresh_code; [done|done|]. destruct Hh; auto.
Qed.
Lemma runCode_ok addr input gas c id e0 e : snapped e0 id e -> is_addr addr -> len input < 2 ^ 63 -> 0 <= gas <= gas_max -> fresh gas c ->
  ewp (gas < n) (runCode env lp addr input c id) (call_post hash e0 gas) e.
Proof using Henv Hlp laws.
  intros Hsn Ha Hi Hg Hf. pose proof (snapped_ok _ _ _ Hsn) as He. apply ewp_bind. eapply setCallCode_ok; [done..|]. intros c' e1 Hs1 Hr.
  apply ewp_bind. eapply ewp_mono; [done| |apply (run_ok c' input gas); try done; by eapply still_ok]. intros [[ret err] c2] e2 [Hr2 Hg2].
  apply settle_ok; [|done]. eapply snapped_step; [exact Hsn|]. eapply (evm_rel_trans hash); [apply Hs1|done].
Qed.

(** ** The calls *)

Lemma callGuard_ok (E : Prop) gas (Q : option (bytes * Z * option vmError) -> EVM -> Prop) e :
  (forall err, Q (Some ([], gas, err)) e) -> Q None e -> ewp E (callGuard env gas) Q e.
Proof. intros HS HN. apply ewp_bind, ewp_get. destruct (_ && _); [by apply ewp_ret|]. by destruct (_ <? _); apply ewp_ret. Qed.
Lemma CanTransfer_ok (E : Prop) (a : Address) amount (Q : bool -> EVM -> Prop) e : evm_ok hash e -> is_addr a ->
  (forall b e', still e e' -> Q b e') -> ewp E (CanTransfer a amount) Q e.
Proof using laws. intros He Ha HQ. apply ewp_bind. eapply ewp_read; [done|by apply law_GetBalance|]. intros e' Hs _. by apply ewp_ret, HQ. Qed.
Lemma Transfer_ok (E : Prop) sender recipient amount (Q : unit -> EVM -> Prop) e : evm_ok hash e -> is_addr sender -> is_addr recipient ->
  (evm_readOnly e = true -> amount = 0) -> (forall e', evm_rel hash e e' -> Q tt e') -> ewp E (Transfer sender recipient amount) Q e.
Proof using laws.
  intros He Hs Hr Hro HQ. apply ewp_bind. eapply ewp_do; [done|by apply law_SubBalance|intros H; rewrite (Hro H); by apply law_SubBalance_zero|]. intros e1 H1.
  eapply ewp_do; [by eapply evm_rel_ok|by apply law_AddBalance| |].
  - rewrite (er_readOnly _ _ _ H1). intros H. rewrite (Hro H). by apply law_AddBalance_zero.
  - intros e2 H2. apply HQ. by eapply (evm_rel_trans hash).
Qed.

(** A call that changed nothing. *)
Lemma still_post e gas e' r : still e e' -> 0 <= r.1.2 <= gas -> (r.2 <> None -> forfeits gas r) -> call_post hash e gas r e'.
Proof. intros [Hr Hs] Hg Hf. split; [done|]. split; [done|]. auto. Qed.
Lemma kept e gas e' err : still e e' -> 0 <= gas -> call_post hash e gas ([], gas, err) e'.
Proof. intros Hs Hg. apply still_post; [done|cbn; lia|]. intros _. by right; right. Qed.

Lemma callPrecompiledFilter_ok (E : Prop) caller (addr : Address) value (Q : bool -> EVM -> Prop) e : evm_ok hash e -> is_addr caller -> is_addr addr ->
  (forall e', still e e' -> Q false e') -> (forall e', evm_rel hash e e' -> Q true e') ->
  ewp E (callPrecompiledFilter env caller addr value) Q e.
Proof using Henv laws.
  intros He Hc Ha HF HT. unfold callPrecompiledFilter. destruct (IsPrecompiledContractAddress addr); [|by apply ewp_ret, HT, evm_rel_refl].
  apply ewp_bind, GetPrecompiledContractMap_ok; [done|done|]. intros m e1 Hs1 _. destruct (_ || _); [by apply ewp_ret, HF|].
  pose proof (still_ok _ _ Hs1) as He1. apply ewp_bind. eapply ewp_read; [done|by apply law_Exist|]. intros e2 Hs2 He2. destruct (still_trans _ _ _ Hs1 Hs2) as [Hr _].
  apply ewp_bind. destruct (dbExist addr (evm_StateDB e1)) as [ex s2] eqn:Hex. cbn [fst snd] in *. destruct ex; [by apply ewp_ret, ewp_ret, HT|].
  destruct (law_CreateEmpty (hash:=hash) addr CodeFormatEVM (chainRules env) _ _ Ha (eo_db _ _ He1) Hex) as [Hx Hsm]. subst e2.
  apply ewp_modify, ewp_ret, HT. by apply (evm_rel_db hash).
Qed.

(** From a snapshot on: the transfer, the code, if there is any, and the end of the call. *)
Lemma callCode_ok caller addr input gas value id e0 e : ref_ok caller -> is_addr addr -> len input < 2 ^ 63 -> 0 <= gas <= gas_max ->
  (evm_readOnly e0 = true -> value = 0) -> snapped e0 id e ->
  ewp (gas < n)
    (Transfer (refAddress caller) addr value;;
     program ← isProgramAccount env (refAddress caller) addr;
     if (program : bool) then
       c ← newContract caller addr value gas;
       c ← setCallCode addr c;
       r ← run env lp c input;
       let '(ret, err, c) := (r : bytes * option vmError * Contract) in settle id (ret, c_Gas c, err)
     else settle id ([], gas, None)) (call_post hash e0 gas) e.
Proof using Henv Hlp laws.
  intros Hc Ha Hi Hg Hro Hsn. pose proof Hc as [Hca _]. apply ewp_bind, Transfer_ok; [by eapply snapped_ok|done|done|by rewrite (snapped_ro _ _ _ Hsn)|].
  intros e' H'. pose proof (snapped_step _ _ _ _ Hsn H') as Hsn'. apply ewp_bind, isProgramAccount_ok; [by eapply snapped_ok|done|done|].
  intros b e1 Hs1. pose proof (snapped_step _ _ _ _ Hsn' (proj1 Hs1)) as Hsn1. destruct b; [|apply settle_ok; [done|lia]].
  apply ewp_bind, newContract_ok; [by eapply snapped_ok|done|done|]. intros c e2 Hs2 Hf _.
  apply runCode_ok; try done. by eapply snapped_step; [|apply Hs2].
Qed.

(** [Call]. *)
Lemma CallWith_ok caller addr input gas value e : ref_ok caller -> is_addr addr -> len input < 2 ^ 63 -> 0 <= gas <= gas_max -> evm_ok hash e ->
  (evm_readOnly e = true -> value = 0) -> ewp (gas < n) (CallWith env lp caller addr input gas value) (call_post hash e gas) e.
Proof using Henv Hlp laws.
  intros Hc Ha Hi Hg He Hro. pose proof Hc as [Hca _]. apply ewp_bind, callGuard_ok; [intros err; apply ewp_ret, kept; [by apply still_refl|lia]|].
  apply ewp_bind, CanTransfer_ok; [done|done|]. intros b e1 Hs1. destruct b; cbn [negb]; [|apply ewp_ret, kept; [done|lia]].
  apply ewp_bind. eapply ewp_snapshot; [done|]. intros id e2 Hs2 Hsn2. apply ewp_bind, callPrecompiledFilter_ok; [by eapply still_ok|done|done| |].
  { intros e3 Hs3. apply ewp_ret, kept; [by eapply still_trans|lia]. }
  intros e3 H3. pose proof (snapped_step _ _ _ _ Hsn2 H3) as Hsn. cbn [negb].
  apply ewp_bind. eapply ewp_read; [by eapply snapped_ok|by apply law_Exist|]. intros e4 Hs4 _.
  pose proof (snapped_step _ _ _ _ Hsn (proj1 Hs4)) as Hsn'. clear Hsn Hsn2 Hs1 Hs2 H3.
  set (exist := (dbExist addr (evm_StateDB e3)).1). destruct (negb exist && (value =? 0)) eqn:Hex; [apply ewp_ret; split_and!; [apply Hsn'|cbn; lia..|done]|].
  apply ewp_bind. destruct exist; [by apply ewp_ret, callCode_ok|]. eapply ewp_do; [by eapply snapped_ok|by apply law_CreateEOA| |].
  - rewrite (snapped_ro _ _ _ Hsn'). intros H. rewrite (Hro H) in Hex. discriminate.
  - intros e5 H5. apply callCode_ok; try done. by eapply snapped_step.
Qed.

(** [CallCode]. *)
Lemma CallCodeWith_ok caller addr input gas value e : ref_ok caller -> is_addr addr -> len input < 2 ^ 63 -> 0 <= gas <= gas_max -> evm_ok hash e ->
  ewp (gas < n) (CallCodeWith env lp caller addr input gas value) (call_post hash e gas) e.
Proof using Henv Hlp laws.
  intros Hc Ha Hi Hg He. pose proof Hc as [Hca _]. apply ewp_bind, callGuard_ok; [intros err; apply ewp_ret, kept; [by apply still_refl|lia]|].
  apply ewp_bind, CanTransfer_ok; [done|done|]. intros b e1 Hs1. destruct b; cbn [negb]; [|apply ewp_ret, kept; [done|lia]].
  apply ewp_bind, isProgramAccount_ok; [by eapply still_ok|done|done|]. intros b e2 Hs2. pose proof (still_trans _ _ _ Hs1 Hs2) as Hs.
  destruct b; cbn [negb]; [|apply ewp_ret, kept; [done|lia]]. apply ewp_bind. eapply ewp_snapshot; [done|]. intros id e3 Hs3 Hsn.
  apply ewp_bind, newContract_ok; [by eapply snapped_ok|done|done|]. intros c e4 Hs4 Hf _. apply runCode_ok; try done. by eapply snapped_step; [|apply Hs4].
Qed.

(** [DelegateCall], which only contracts make. *)
Lemma AsDelegate_ok gas c : fresh gas c -> ref_ok (c_caller c) -> ref_contract (c_caller c) -> exists c', AsDelegate (E:=vmPanic) c = Ok c' /\ fresh gas c'.
Proof. intros [] Hr Hc. unfold AsDelegate. destruct (c_caller c); try done. eexists. split; [done|]. by destruct Hr. Qed.
Lemma DelegateCallWith_ok caller addr input gas e : ref_ok caller -> ref_contract caller -> is_addr addr -> len input < 2 ^ 63 -> 0 <= gas <= gas_max ->
  evm_ok hash e -> ewp (gas < n) (DelegateCallWith env lp caller addr input gas) (call_post hash e gas) e.
Proof using Henv Hlp laws.
  intros Hc Hct Ha Hi Hg He. pose proof Hc as [Hca _]. apply ewp_bind, callGuard_ok; [intros err; apply ewp_ret, kept; [by apply still_refl|lia]|].
  apply ewp_bind, isProgramAccount_ok; [done..|]. intros b e2 Hs. destruct b; cbn [negb]; [|apply ewp_ret, kept; [done|lia]].
  apply ewp_bind. eapply ewp_snapshot; [done|]. intros id e3 Hs3 Hsn. apply ewp_bind, newContract_ok; [by eapply snapped_ok|done|done|].
  intros c e4 Hs4 Hf Hcc. destruct (AsDelegate_ok gas c Hf) as (c' & Hd & Hf'); [by rewrite Hcc..|]. apply ewp_bind. unfold evmLift. rewrite Hd.
  change (ewp (gas < n) (runCode env lp addr input c' id) (call_post hash e gas) e4). apply runCode_ok; try done. by eapply snapped_step; [|apply Hs4].
Qed.

(** [StaticCall]: read-only while the code runs, and as it was afterwards. *)
Lemma readOnly_ok e : evm_ok hash e -> evm_ok hash (setReadOnly true e).
Proof. intros []. by split. Qed.
Lemma readOnly_back e e' : evm_rel hash (setReadOnly true e) e' ->
  evm_rel hash e (setReadOnly (evm_readOnly e) e') /\ same (evm_StateDB e) (evm_StateDB e').
Proof. intros [Hd Hr Hx Hs Hc]. assert (same (evm_StateDB e) (evm_StateDB e')) by (by apply Hs). by split. Qed.
Lemma StaticCallWith_ok caller addr input gas e : ref_ok caller -> is_addr addr -> len input < 2 ^ 63 -> 0 <= gas <= gas_max -> evm_ok hash e ->
  ewp (gas < n) (StaticCallWith env lp caller addr input gas)
    (fun r e' => call_post hash e gas r e' /\ same (evm_StateDB e) (evm_StateDB e')) e.
Proof using Henv Hlp laws.
  intros Hc Ha Hi Hg He. pose proof Hc as [Hca _].
  apply ewp_bind, callGuard_ok; [intros err; apply ewp_ret; split; [apply kept; [by apply still_refl|lia]|done]|].
  apply ewp_bind, ewp_get, ewp_bind, ewp_modify. pose proof (readOnly_ok e He) as He0. set (e0 := setReadOnly true e) in *.
  apply ewp_bind, isProgramAccount_ok; [done..|]. intros b e2 Hs. apply ewp_bind.
  assert (forall r e', call_post hash e0 gas r e' -> ewp (gas < n) (evmModify (setReadOnly (evm_readOnly e));; mret r)
    (fun r e' => call_post hash e gas r e' /\ same (evm_StateDB e) (evm_StateDB e')) e') as Hback.
  { intros r e' (Hr & Hgr & Hfo). apply ewp_bind, ewp_modify, ewp_ret. destruct (readOnly_back e e' Hr) as [Hr' Hsm]. by split. }
  destruct b; cbn [negb]; [|apply ewp_ret, Hback, kept; [done|lia]].
  eapply ewp_mono; [done|exact Hback|]. apply ewp_bind. eapply ewp_snapshot; [done|]. intros id e3 Hs3 Hsn.
  apply ewp_bind, newContract_ok; [by eapply snapped_ok|done|done|]. intros c e4 Hs4 Hf _. apply runCode_ok; try done. by eapply snapped_step; [|apply Hs4].
Qed.

(** ** Creations *)

Lemma BytesToAddress_addr b : is_addr (BytesToAddress b).
Proof. unfold is_addr, BytesToAddress. rewrite length_app, length_replicate, length_drop. lia. Qed.

Lemma collision_ok (E : Prop) (a : Address) h (Q : bool -> EVM -> Prop) e : evm_ok hash e -> is_addr a ->
  (forall b e', still e e' -> Q b e') -> ewp E (collision env a h) Q e.
Proof using laws.
  intros He Ha HQ. unfold collision. destruct (IsShanghai _).
  - apply ewp_bind. eapply ewp_read; [done|by apply law_GetNonce|]. intros e' Hs _. by apply ewp_ret, HQ.
  - eapply ewp_read; [done|by apply law_Exist|]. intros e' Hs _. by apply HQ.
Qed.
Lemma storeCode_ok (E : Prop) address ret c err gas (Q : Contract * option vmError -> EVM -> Prop) e : evm_ok hash e -> evm_readOnly e = false -> is_addr address ->
  0 <= c_Gas c <= gas -> (forall r e', evm_rel hash e e' -> 0 <= c_Gas r.1 <= gas -> Q r e') -> ewp E (storeCode address ret c err) Q e.
Proof using laws.
  intros He Hro Ha Hg HQ. pose proof (evm_rel_refl hash e He) as Hr. unfold storeCode. destruct err as [err|]; [by apply ewp_ret, HQ|].
  destruct (Z.ltb_spec MaxCodeSize (len ret)) as [|Hl]; [by apply ewp_ret, HQ|]. unfold UseGas.
  pose proof (u64_range (u64 (len ret) * CreateDataGas)) as Hu. unfold is_u64 in Hu. destruct (Z.ltb_spec (c_Gas c) (u64 (u64 (len ret) * CreateDataGas))); [by apply ewp_ret, HQ|].
  apply ewp_bind. unfold ewp, stRead. pose proof (law_SetCode (hash:=hash) address ret _ Ha Hl (eo_db _ _ He)) as Hx.
  destruct (dbSetCode address ret (evm_StateDB e)) as [ok db]. cbn [post fst snd] in *. apply ewp_ret, HQ; [|cbn; lia].
  apply (evm_rel_db hash); [done|done|]. rewrite Hro. done.
Qed.
Lemma finishCode_ok (E : Prop) id ret c err gas (Q : Contract * option vmError -> EVM -> Prop) e0 e : snapped e0 id e -> 0 <= c_Gas c <= gas ->
  (forall r e', evm_rel hash e0 e' -> 0 <= c_Gas r.1 <= gas -> Q r e') -> ewp E (finishCode env id ret c err) Q e.
Proof using laws.
  intros Hsn Hg HQ. unfold finishCode. apply ewp_bind. destruct (_ || _).
  - apply ewp_bind. eapply ewp_revert; [done|]. intros e' [Hr _]. apply ewp_ret, ewp_ret, HQ; [done|]. cbn [fst]. destruct (bool_decide _); cbn; lia.
  - apply ewp_ret, ewp_ret, HQ; [by destruct Hsn|done].
Qed.

(** The code of the creation runs, and what it returns is stored. *)
Lemma deploy_ok address c gas id e0 e : snapped e0 id e -> evm_readOnly e0 = false -> is_addr address -> runnable gas c -> 0 <= gas <= gas_max ->
  ewp (gas < n)
    (r ← RunWith env lp c [];
     let '(ret, err, c) := (r : bytes * option vmError * Contract) in
     r ← storeCode address ret c err;
     let '(c, err) := (r : Contract * option vmError) in
     r ← finishCode env id ret c err;
     let '(c, err) := (r : Contract * option vmError) in
     mret (ret, address, c_Gas c, err)) (create_post hash e0 gas) e.
Proof using Hlp laws.
  intros Hsn Hro Ha Hrn Hg. apply ewp_bind. eapply ewp_mono; [done| |apply (RunWith_ok c [] gas); try done; by eapply snapped_ok].
  intros [[ret err] c1] e1 [Hr1 Hg1]. pose proof (snapped_step _ _ _ _ Hsn Hr1) as Hsn1. cbn [snd] in Hg1.
  apply ewp_bind. eapply (storeCode_ok _ address ret c1 err gas); [by eapply snapped_ok|by rewrite (snapped_ro _ _ _ Hsn1)|done|done|].
  intros [c2 err2] e2 Hr2 Hg2. apply ewp_bind. eapply (finishCode_ok _ id ret c2 err2 gas); [by eapply snapped_step|done|]. intros [c3 err3] e3 Hr3 Hg3. by apply ewp_ret.
Qed.

(** A change to the state of a machine that is not read-only. *)
Lemma ewp_write (E : Prop) (f : DB -> DB) (Q : unit -> EVM -> Prop) e : evm_ok hash e -> evm_readOnly e = false -> changes f ->
  (forall e', evm_rel hash e e' -> Q tt e') -> ewp E (stDo f) Q e.
Proof using laws. intros He Hro Hf HQ. eapply ewp_do; try done. by rewrite Hro. Qed.

Lemma createBody_ok caller code h gas value address hr fmt depth e : ref_ok caller -> is_addr address -> len code < 2 ^ 63 -> (h = zeroHash \/ hash code = h) ->
  0 <= gas <= gas_max -> evm_ok hash e -> evm_readOnly e = false ->
  ewp (gas < n)
    (snapshot ← stRead dbSnapshot;
     stDo (dbCreateSmartContractAccountWithKey address hr AccountKeyFail fmt (chainRules env));;
     stDo (dbSetNonce address 1);;
     (if value =? 0 then mret tt else Transfer (refAddress caller) address value);;
     c ← newContract caller address value gas;
     let c := SetCallCode address h code c in
     if NoRecursion (Config_ env) && (0 <? depth) then mret ([], address, gas, None)
     else
       r ← RunWith env lp c [];
       let '(ret, err, c) := (r : bytes * option vmError * Contract) in
       r ← storeCode address ret c err;
       let '(c, err) := (r : Contract * option vmError) in
       r ← finishCode env snapshot ret c err;
       let '(c, err) := (r : Contract * option vmError) in
       mret (ret, address, c_Gas c, err)) (create_post hash e gas) e.
Proof using Hlp laws.
  intros Hc Ha Hl Hh Hg He Hro. pose proof Hc as [Hca _]. apply ewp_bind. eapply ewp_snapshot; [by apply still_refl|]. intros id e1 _ Hsn1.
  assert (forall e', snapped e id e' -> evm_ok hash e' /\ evm_readOnly e' = false) as Hsn.
  { intros e' Hs. split; [by eapply snapped_ok|]. by rewrite (snapped_ro _ _ _ Hs). }
  apply ewp_bind. eapply ewp_write; [by apply Hsn..|by apply law_CreateSmartContract|]. intros e2 H2. apply (snapped_step _ _ _ _ Hsn1) in H2.
  apply ewp_bind. eapply ewp_write; [by apply Hsn..|by apply law_SetNonce|]. intros e3 H3. apply (snapped_step _ _ _ _ H2) in H3.
  apply ewp_bind. apply ewp_mono with (E := (gas < n)) (Q := fun _ e' => snapped e id e'); [done| |]; cycle 1.
  { destruct (value =? 0); [by apply ewp_ret|].
    apply Transfer_ok; [by apply Hsn|done|done|rewrite (proj2 (Hsn _ H3)); done|]. intros e4 H4. by eapply snapped_step. }
  intros [] e4 H4. apply ewp_bind, newContract_ok; [by apply Hsn|done|done|]. intros c e5 [Hs5 _] Hf _. apply (snapped_step _ _ _ _ H4) in Hs5. cbv zeta.
  destruct (_ && _); [apply ewp_ret; split; [apply Hs5|cbn; lia]|]. apply (deploy_ok address (SetCallCode address h code c) gas); try done. apply fresh_code; auto.
Qed.

Lemma createWith_ok caller code h gas value address hr fmt e : ref_ok caller -> is_addr address -> len code < 2 ^ 63 -> (h = zeroHash \/ hash code = h) ->
  0 <= gas <= gas_max -> evm_ok hash e -> evm_readOnly e = false ->
  ewp (gas < n) (createWith env lp caller code h gas value address hr fmt) (create_post hash e gas) e.
Proof using Hlp laws.
  intros Hc Ha Hl Hh Hg He Hro. pose proof Hc as [Hca _]. apply ewp_bind, ewp_get. destruct (_ <? evm_depth e); [apply ewp_ret; split; [by apply evm_rel_refl|cbn; lia]|].
  apply ewp_bind, CanTransfer_ok; [done|done|]. intros b e1 [Hr1 _]. destruct b; cbn [negb]; [|apply ewp_ret; split; [done|cbn; lia]].
  assert (forall e', evm_rel hash e e' -> evm_ok hash e' /\ evm_readOnly e' = false) as Hok.
  { intros e' Hr. split; [by eapply evm_rel_ok|]. by rewrite (er_readOnly _ _ _ Hr). }
  apply ewp_bind. eapply ewp_write; [by apply Hok..|by apply law_IncNonce|]. intros e2 H2. apply (evm_rel_trans hash _ _ _ Hr1) in H2.
  apply ewp_bind. apply ewp_mono with (E := (gas < n)) (Q := fun _ e' => evm_rel hash e e'); [done| |]; cycle 1.
  { destruct (IsKore _); [|by apply ewp_ret].
    eapply ewp_write; [by apply Hok..|by apply quiet_changes, law_AddAddress|]. intros e3 H3. by eapply (evm_rel_trans hash). }
  intros [] e3 H3. apply ewp_bind. eapply ewp_read; [by apply Hok|by apply law_GetCodeHash|]. intros e4 [H4 _] _. apply (evm_rel_trans hash _ _ _ H3) in H4.
  apply ewp_bind, collision_ok; [by apply Hok|done|]. intros b e5 [H5 _]. apply (evm_rel_trans hash _ _ _ H4) in H5.
  destruct b; [apply ewp_ret; split; [done|cbn; lia]|]. destruct (IsPrecompiledContractAddress address); [apply ewp_ret; split; [done|cbn; lia]|].
  eapply ewp_mono; [done| |apply (createBody_ok caller code h gas value address hr fmt (evm_depth e)); try done; by apply Hok].
  intros r e6 [H6 Hg6]. split; [|done]. by eapply (evm_rel_trans hash).
Qed.

(** ** All of them *)

Lemma callsWith_ok : calls_ok hash n (callsWith env lp).
Proof using Henv Hkeccak Hlp laws.
  split; cbn [callsWith callCall callCallCode callDelegateCall callStaticCall callCreate callCreate2]; intros.
  - by apply CallWith_ok.
  - by apply CallCodeWith_ok.
  - by apply DelegateCallWith_ok.
  - eapply ewp_mono; [done| |by apply StaticCallWith_ok]. by intros r e' [? _].
  - unfold CreateWith. apply ewp_bind. eapply ewp_read; [done|by apply law_GetNonce; destruct H|]. intros e' [He' _] _.
    eapply ewp_mono; [done| |apply createWith_ok; try done]; [|apply BytesToAddress_addr|by left|by eapply evm_rel_ok|by rewrite (er_readOnly _ _ _ He')].
    intros r e2 [Hr Hg]. split; [|done]. by eapply (evm_rel_trans hash).
  - apply createWith_ok; try done; [apply BytesToAddress_addr|]. right. by rewrite Hkeccak.
Qed.
End frames.
End Frames.
