(* ===== verification/EvmMain.v ===== *)
(** * What a run guarantees

    The fuel induction, and the theorems about the calls of the virtual machine on any state
    database that keeps its promises. *)

From S2P Require Import Prelude Rlp AccountKey EvmWord EvmCode EvmMem EvmParams EvmState EvmGas EvmOps EvmTable EvmRun.
From S2P Require Import EvmSpec EvmInv EvmPlain EvmCost EvmStep EvmCalls EvmLoop EvmFrames.

Module Main.
Export Frames.

(** ** More fuel changes nothing *)

Section fuel.
Context {word : Uint256} {vms : VMState} (env : Env) (jt : JumpTable).

(** The same result, unless the first ran out of fuel. *)
Definition upto {E A} (r r' : res E A) : Prop := r = NoFuel \/ r = r'.
Definition uptoM {A} (m m' : M A) : Prop := forall s, upto (m s) (m' s).
Definition uptoEM {A} (m m' : EM A) : Prop := forall e, upto (m e) (m' e).

Lemma upto_refl {E A} (r : res E A) : upto r r.
Proof. by right. Qed.
Lemma upto_bind {E A B} (m m' : res E A) (k k' : A -> res E B) : upto m m' -> (forall a, upto (k a) (k' a)) -> upto (m ≫= k) (m' ≫= k').
Proof. intros [->| ->] Hk; [by left|]. destruct m'; cbn; auto using upto_refl. Qed.
Lemma uptoM_bind {A B} (m m' : M A) (k k' : A -> M B) : uptoM m m' -> (forall a, uptoM (k a) (k' a)) -> uptoM (m ≫= k) (m' ≫= k').
Proof.
  intros Hm Hk s. unfold mbind, M_bind. destruct (Hm s) as [->| ->]; [by left|]. destruct (m' s) as [[a s']| | |]; [apply Hk|by right..].
Qed.
Lemma uptoEM_bind {A B} (m m' : EM A) (k k' : A -> EM B) : uptoEM m m' -> (forall a, uptoEM (k a) (k' a)) -> uptoEM (m ≫= k) (m' ≫= k').
Proof.
  intros Hm Hk e. unfold mbind, EM_bind. destruct (Hm e) as [->| ->]; [by left|]. destruct (m' e) as [[a e']| | |]; [apply Hk|by right..].
Qed.
Lemma uptoM_refl {A} (m : M A) : uptoM m m.
Proof. intros s. by right. Qed.
Lemma uptoEM_refl {A} (m : EM A) : uptoEM m m.
Proof. intros e. by right. Qed.
Lemma uptoM_evmDo {A} (f f' : EVM -> res vmPanic (A * EVM)) : uptoEM f f' -> uptoM (evmDo f) (evmDo f').
Proof. intros H s. unfold evmDo. apply upto_bind; [apply H|]. intros [a e]. apply upto_refl. Qed.

Ltac upto_step :=
  lazymatch goal with
  | |- uptoEM (mbind _ _) (mbind _ _) => apply uptoEM_bind; [|intros ?]
  | |- uptoM (mbind _ _) (mbind _ _) => apply uptoM_bind; [|intros ?]
  | |- uptoM (evmDo _) (evmDo _) => apply uptoM_evmDo
  | |- uptoEM (if ?b then _ else _) _ => destruct b
  | |- uptoM (if ?b then _ else _) _ => destruct b
  | |- uptoEM (match ?o with Some _ => _ | None => _ end) _ => destruct o
  | |- uptoM (match ?o with Some _ => _ | None => _ end) _ => destruct o
  | |- uptoEM (let '(_, _) := ?r in _) _ => destruct r
  | |- uptoM (let '(_, _) := ?r in _) _ => destruct r
  | |- uptoEM ?m ?m => apply uptoEM_refl
  | |- uptoM ?m ?m => apply uptoM_refl
  end.

Section loops.
Context (lp lp' : bytes -> M exit) (H : forall res, uptoM (lp res) (lp' res)).

Lemma upto_RunWith c input : uptoEM (RunWith env lp c input) (RunWith env lp' c input).
Proof using H.
  intros e. unfold RunWith. destruct (_ =? 0); [by right|]. apply upto_bind; [apply H|]. intros [x s]. apply upto_refl.
Qed.
Lemma upto_run c input : uptoEM (run env lp c input) (run env lp' c input).
Proof using H. unfold run. repeat upto_step. apply upto_RunWith. Qed.
Lemma upto_runCode addr input c id : uptoEM (runCode env lp addr input c id) (runCode env lp' addr input c id).
Proof using H. unfold runCode. repeat upto_step. apply upto_run. Qed.
Lemma upto_Call caller addr input gas value : uptoEM (CallWith env lp caller addr input gas value) (CallWith env lp' caller addr input gas value).
Proof using H. unfold CallWith. repeat (upto_step || apply upto_run). Qed.
Lemma upto_CallCode caller addr input gas value : uptoEM (CallCodeWith env lp caller addr input gas value) (CallCodeWith env lp' caller addr input gas value).
Proof using H. unfold CallCodeWith. repeat (upto_step || apply upto_runCode). Qed.
Lemma upto_DelegateCall caller addr input gas : uptoEM (DelegateCallWith env lp caller addr input gas) (DelegateCallWith env lp' caller addr input gas).
Proof using H. unfold DelegateCallWith. repeat (upto_step || apply upto_runCode). Qed.
Lemma upto_StaticCall caller addr input gas : uptoEM (StaticCallWith env lp caller addr input gas) (StaticCallWith env lp' caller addr input gas).
Proof using H. unfold StaticCallWith. repeat (upto_step || apply upto_runCode). Qed.
Lemma upto_create caller code h gas value address hr fmt :
  uptoEM (createWith env lp caller code h gas value address hr fmt) (createWith env lp' caller code h gas value address hr fmt).
Proof using H. unfold createWith. repeat (upto_step || apply upto_RunWith). Qed.

Lemma upto_execute f : uptoM (execute_ env (callsWith env lp) f) (execute_ env (callsWith env lp') f).
Proof using H.
  destruct f; cbn [execute_]; try (lazymatch goal with |- uptoM ?m ?m => apply uptoM_refl end).
  - unfold opCall. repeat (upto_step || apply upto_Call).
  - unfold opCallCode. repeat (upto_step || apply upto_CallCode).
  - unfold opDelegateCall. repeat (upto_step || apply upto_DelegateCall).
  - unfold opStaticCall. repeat (upto_step || apply upto_StaticCall).
  - unfold opCreate. repeat upto_step. unfold callsWith, callCreate, CreateWith. repeat (upto_step || apply upto_create).
  - unfold opCreate2. repeat upto_step. apply upto_create.
Qed.
Lemma upto_step_ : uptoM (step env jt (callsWith env lp)) (step env jt (callsWith env lp')).
Proof using H.
  unfold step. repeat (upto_step || apply upto_execute).
Qed.
End loops.

Lemma upto_loop n k res : uptoM (loop env jt n res) (loop env jt (n + k) res).
Proof.
  revert res. induction n as [|n IH]; intros res; [by left|]. cbn [loop Nat.add]. upto_step; [apply uptoM_refl|]. upto_step; [apply uptoM_refl|].
  apply uptoM_bind; [by apply upto_step_|]. intros [x|b]; [apply uptoM_refl|apply IH].
Qed.

(** A family of computations that only more fuel can complete, and that completes when the fuel
    exceeds the gas, has one result. *)
Lemma one_result {A} (m : nat -> EM A) (gas : Z) e : 0 <= gas -> (forall n k, uptoEM (m n) (m (n + k)%nat)) ->
  (forall fuel, m fuel e = NoFuel -> Z.of_nat fuel <= gas) -> exists r, r <> NoFuel /\ forall fuel, gas < Z.of_nat fuel -> m fuel e = r.
Proof.
  intros Hg Hm Hn. exists (m (S (Z.to_nat gas)) e). split; [intros H; apply Hn in H; lia|]. intros fuel Hf.
  replace fuel with (S (Z.to_nat gas) + (fuel - S (Z.to_nat gas)))%nat by lia. destruct (Hm (S (Z.to_nat gas)) (fuel - S (Z.to_nat gas))%nat e) as [H|H]; [|done].
  apply Hn in H. lia.
Qed.
End fuel.

(** ** The guarantees *)

Section guarantees.
Context {word : Uint256} {wspec : Uint256Spec} {vms : VMState} {rel : StateRel}.
Context (hash : bytes -> Hash) {laws : StateLaws hash} (hash_inj : Inj (=) (=) hash).
Context (env : Env) (Hkeccak : forall b, keccak256 env b = hash b) (Henv : env_ok hash env).

Abbreviation jt := (instructionSet (chainRules env)).

Lemma loop_ok fuel res s : inv hash s -> wp (gasOf s < Z.of_nat fuel) (loop env jt fuel res) (fun _ s' => left_ hash s s') s.
Proof using Henv Hkeccak hash_inj laws wspec.
  revert res s. induction fuel as [|fuel IH]; intros res s Hi; [unfold wp; cbn; pose proof (i_gas _ _ Hi); unfold gasOf; lia|].
  pose proof (frame_refl hash s Hi) as Hf. pose proof (i_gas _ _ Hi) as Hg. fold (gasOf s) in Hg. cbn [loop]. apply wp_bind. eapply (wp_loadAbort hash); [done|].
  intros abort s1 Hf1. destruct (negb _); [apply wp_ret; split; [apply Hf1|unfold gasOf in *; cbn; lia]|].
  assert (inv hash s1) as Hi1 by (destruct Hi as [? ? ? ? ? ? []]; by split). assert (gasOf s1 = gasOf s) as Hg1 by done. pose proof (f_evm _ _ _ Hf1) as Hr1. clearbody s1.
  apply wp_bind. eapply wp_mono; [| |apply (step_ok hash hash_inj env jt (tables_fit _) (gasOf s < Z.of_nat (S fuel)) (Z.of_nat fuel) (callsWith env (loop env jt fuel)) s1)]; [done| | |done|lia].
  - intros [x|b] s2.
    + intros [Hr Hl]. apply wp_ret. split; [by eapply (evm_rel_trans hash)|lia].
    + intros [Hi2 _ Hr Hlt _]. eapply wp_mono; [| |by apply IH]; [lia|]. intros x s3 [Hr3 Hl3]. split; [|lia].
      eapply (evm_rel_trans hash); [exact Hr1|]. by eapply (evm_rel_trans hash).
  - apply (callsWith_ok hash env Hkeccak Henv). exact IH.
Qed.

(** ** Bounds inside a run *)

(** A turn of the loop that goes on, with any fuel for the calls it makes. *)
Inductive turn : St -> St -> Prop :=
| turn_step fuel res s s' : step env jt (callsWith env (loop env jt fuel)) s = Ok (inr res, s') -> turn s s'.

Lemma turn_goes s s' : inv hash s -> turn s s' -> goes hash s s'.
Proof using Henv Hkeccak hash_inj laws wspec.
  intros Hi Ht. destruct Ht as [fuel res s1 s2 Hstep].
  assert (calls_ok hash (Z.of_nat fuel) (callsWith env (loop env jt fuel))) as Hc by (apply (callsWith_ok hash env Hkeccak Henv), loop_ok).
  pose proof (step_ok hash hash_inj env jt (tables_fit _) (gasOf s1 <= Z.of_nat fuel) _ _ s1 Hc Hi (fun H => H)) as Hs.
  unfold wp in Hs. by rewrite Hstep in Hs.
Qed.
Lemma turns_inv s s' : inv hash s -> rtc turn s s' -> inv hash s' /\ worth s' <= worth s /\ gasOf s' <= gasOf s.
Proof using Henv Hkeccak hash_inj laws wspec.
  intros Hi Hr. induction Hr as [s|s s2 s3 Ht Hr IH]; [done|]. destruct (turn_goes _ _ Hi Ht) as [Hi2 _ _ Hg Hw]. destruct (IH Hi2) as (? & ? & ?). split; [done|lia].
Qed.
End guarantees.
End Main.
