(* ===== verification/EvmStateDB.v ===== *)
(** * The state database under the virtual machine

    [StateDB] of [blockchain/state] as the [vm.StateDB] of the machine: the operations of the
    interface, and the proof that they keep its promises. *)

From S2P Require Import Prelude Rlp AccountKey StateDB StateRevert EvmWord EvmCode EvmMem EvmParams EvmState EvmGas EvmOps.
From S2P Require Import EvmTable EvmRun EvmSpec.

Module Link.
Import AccountKey Account State Revert.

(** ** The methods that only the machine uses *)

Section methods.
Context {env : StateEnv}.

(** [CodeInfo.GetVmVersion] and [StateDB.GetVmVersion]. *)
Definition GetVmVersion (codeInfo : Z) : Z := Z.shiftr (Z.land codeInfo 240) 4.
Definition GetVmVersionAt (a : Address) (s : StateDB) : option Z * StateDB :=
  let '(o, s) := getStateObject a s in
  (match o with
   | Some o => match so_account o with SmartContractAccount _ _ _ info => Some (GetVmVersion info) | _ => None end
   | None => None
   end, s).
(** [stateObject.CodeSize] and [StateDB.GetCodeSize]; the size of a code that is not loaded is
    read from the database. *)
Definition CodeSize (o : stateObject) : Z :=
  match so_code o with
  | Some c => len c
  | None => if bool_decide (CodeHash o = emptyCodeHash) then 0 else len (default [] (contractCode (BytesToHash (CodeHash o))))
  end.
Definition GetCodeSizeAt (a : Address) (s : StateDB) : Z * StateDB :=
  let '(o, s) := getStateObject a s in (match o with Some o => CodeSize o | None => 0 end, s).
(** [AddressInAccessList] and [SlotInAccessList]. *)
Definition AddressInAccessList (a : Address) (s : StateDB) : bool := ContainsAddress (sd_accessList s) a.
Definition SlotInAccessList (a : Address) (slot : Hash) (s : StateDB) : go (bool * bool) := Contains (sd_accessList s) a slot.

(** The code that a creation returns: no data is a nil slice. *)
Definition sliceOf (b : bytes) : option bytes := match b with [] => None | _ => Some b end.
End methods.

(** An invariant of the trie and of the flat snapshot below a state. *)
Class Below := below : gmap Address Account -> option Snapshot_ -> Prop.

(** The logs that contracts emit, before the state database completes them. *)
Definition newLog (a : Address) (topics : list Hash) (data : bytes) : Log := mkLog a topics data zeroHash 0 zeroHash 0.

#[export] Instance StateDB_VMState {env : StateEnv} : Evm.VMState := {|
  Evm.DB := StateDB;
  Evm.dbCreateSmartContractAccount a f r := CreateSmartContractAccount a f (Evm.IsIstanbul r) (Evm.IsLondon r);
  Evm.dbCreateSmartContractAccountWithKey a h k f r := CreateSmartContractAccountWithKey a h k f (Evm.IsIstanbul r) (Evm.IsLondon r);
  Evm.dbCreateEOA := CreateEOA;
  Evm.dbSubBalance := SubBalance;
  Evm.dbAddBalance := AddBalance;
  Evm.dbGetBalance := GetBalanceAt;
  Evm.dbGetNonce := GetNonceAt;
  Evm.dbIncNonce := IncNonce;
  Evm.dbSetNonce := SetNonceAt;
  Evm.dbGetCodeHash := GetCodeHashAt;
  Evm.dbGetCode a s := let '(c, s) := GetCodeAt a s in (default [] c, s);
  Evm.dbSetCode a c := SetCode a (sliceOf c);
  Evm.dbGetCodeSize := GetCodeSizeAt;
  Evm.dbGetVmVersion := GetVmVersionAt;
  Evm.dbAddRefund := AddRefund;
  Evm.dbSubRefund := SubRefund;
  Evm.dbGetCommittedState := GetCommittedStateAt;
  Evm.dbGetState := GetStateAt;
  Evm.dbSetState := SetState;
  Evm.dbGetTransientState := GetTransientState;
  Evm.dbSetTransientState := SetTransientState;
  Evm.dbSelfDestruct := SelfDestruct;
  Evm.dbHasSelfDestructed := HasSelfDestructed;
  Evm.dbSelfDestruct6780 := SelfDestruct6780;
  Evm.dbExist := Exist;
  Evm.dbEmpty := EmptyAt;
  Evm.dbAddressInAccessList := AddressInAccessList;
  Evm.dbSlotInAccessList := SlotInAccessList;
  Evm.dbAddAddressToAccessList := AddAddressToAccessList;
  Evm.dbAddSlotToAccessList := AddSlotToAccessList;
  Evm.dbRevertToSnapshot := RevertToSnapshot;
  Evm.dbSnapshot := Snapshot;
  Evm.dbAddLog a t d := AddLog (newLog a t d);
  Evm.dbAddPreimage := AddPreimage;
  Evm.dbIsProgramAccount := IsProgramAccount;
  Evm.dbGetKey := GetKeyAt
|}.

Section link.
Context {env : StateEnv}.

(** ** What is kept beside the journal *)

(** A loaded code is the one its hash stands for, and keys can be validated against. *)
Definition keyOf (acc : Account) : AccountKey := ac_key (common acc).
Record loaded_ok (o : stateObject) : Prop := {
  lo_code c : so_code o = Some c -> len c < 2 ^ 63 /\ keccak c = CodeHash o;
  lo_key : Spec.sound_key (keyOf (so_account o))
}.
Record coded (s : StateDB) : Prop := {
  cd_objects a o : is_addr a -> sd_stateObjects s !! a = Some o -> loaded_ok o;
  cd_accounts a acc : is_addr a -> readAccount s a = Some acc -> Spec.sound_key (keyOf acc)
}.
(** The database below does not change, and the codes and keys stay in order. *)
Record held (s s' : StateDB) : Prop := {
  hd_trie : sd_trie s' = sd_trie s;
  hd_snap : sd_snap s' = sd_snap s;
  hd_coded : coded s -> coded s'
}.

Lemma held_refl s : held s s.
Proof. by split. Qed.
Lemma held_trans s1 s2 s3 : held s1 s2 -> held s2 s3 -> held s1 s3.
Proof. intros [] []. split; [congruence|congruence|auto]. Qed.
Lemma held_load s o : (coded s -> is_addr (so_address o) -> loaded_ok o) -> held s (setStateObject o s).
Proof.
  intros Ho. split; [done|done|]. intros Hc. split; [|intros a acc; rewrite (readAccount_same _ s) by done; apply Hc].
  intros a o' Ha. fields. destruct (decide (a = so_address o)) as [->|Hne].
  - rewrite lookup_insert_eq. intros [= <-]. by apply Ho.
  - rewrite lookup_insert_ne by done. by apply Hc.
Qed.
Lemma held_put s o : loaded_ok o -> held s (setStateObject o s).
Proof. intros Ho. by apply held_load. Qed.
(** Only other parts of the state change. *)
Lemma held_other s s' : sd_trie s' = sd_trie s -> sd_snap s' = sd_snap s -> sd_stateObjects s' = sd_stateObjects s -> held s s'.
Proof.
  intros H1 H2 H3. split; [done|done|]. intros Hc. split; intros a ?; [rewrite H3|rewrite (readAccount_same _ s) by done]; apply Hc.
Qed.

Lemma keyOf_SetBalance acc b : keyOf (SetBalance acc b) = keyOf acc.
Proof. by destruct acc. Qed.
Lemma keyOf_SetNonce acc n : keyOf (SetNonce acc n) = keyOf acc.
Proof. by destruct acc. Qed.
Lemma loaded_new a acc : Spec.sound_key (keyOf acc) -> loaded_ok (newObject a acc).
Proof. intros Hk. by split. Qed.
Lemma loaded_account o acc : loaded_ok o -> program acc = program (so_account o) -> keyOf acc = keyOf (so_account o) -> loaded_ok (withAccount acc o).
Proof.
  intros [Hc Hk] Hp He. split; [|objfields; by rewrite He]. intros c Hco. rewrite CodeHash_program by done. by apply Hc.
Qed.

Lemma held_getDeleted a s : held s (getDeletedStateObject a s).2.
Proof.
  unfold getDeletedStateObject. destruct (sd_stateObjects s !! a); [apply held_refl|]. destruct (readAccount s a) as [acc|] eqn:Hr; [|apply held_refl].
  apply held_load. intros Hc Ha. apply loaded_new. by apply (cd_accounts s Hc a acc Ha).
Qed.
Lemma held_get a s : held s (getStateObject a s).2.
Proof.
  unfold getStateObject. pose proof (held_getDeleted a s) as H. destruct (getDeletedStateObject a s) as [[o|] s']; done.
Qed.
Lemma held_create a acc s : Spec.sound_key (keyOf acc) -> held s (createObjectWith a acc s).2 /\ loaded_ok (createObjectWith a acc s).1.1.
Proof.
  intros Hk. unfold createObjectWith. pose proof (held_getDeleted a s) as H. destruct (getDeletedStateObject a s) as [prev s']. cbn [snd] in H. cbv zeta. cbn [fst snd].
  assert (loaded_ok (withFlags false false true (setNonce 0 (newObject a acc)))) as Hn by (split; [done|]; objfields; by rewrite keyOf_SetNonce).
  split; [|exact Hn]. eapply held_trans; [exact H|]. eapply held_trans; [|by apply held_put]. apply held_other.
  all: fields; destruct (sd_snap s') as [sn|] eqn:Hsn, prev as [p|]; try done; case_bool_decide; done.
Qed.

(** ** What the database below promises *)

Hypothesis keccak_len : forall b, length (keccak b) = 32%nat.
Hypothesis keccak_addresses : addresses_distinct.
(** Codes are stored under their hash. *)
Hypothesis codes_hashed : forall h c, contractCode h = Some c -> len c < 2 ^ 63 /\ keccak c = h.
(** The trie of the empty root is empty. *)
Hypothesis empty_root : default ∅ (openStorageTrie emptyExtHash) = ∅.

Lemma loaded_Code o : length (CodeHash o) = 32%nat -> loaded_ok o -> loaded_ok (Code o).2.
Proof using codes_hashed.
  intros Hl Ho. unfold Code. destruct (so_code o) eqn:Hc; [done|]. destruct (bool_decide _); [done|]. cbn. split; [|apply Ho]. intros c Hcode. objfields.
  destruct (codes_hashed _ _ Hcode) as [Hs ->]. rewrite BytesToHash_32 in * by done. by split.
Qed.

(** The object of an address after it was asked for. *)
Lemma held_live a s o : wf s -> coded s -> is_addr a -> (getStateObject a s).1 = Some o -> loaded_ok o /\ length (CodeHash o) = 32%nat.
Proof.
  intros Hw Hc Ha Hg. destruct (load_spec a s Hw) as (s' & He & Hj & Hw' & _ & Hl). pose proof (hd_coded _ _ (held_get a s) Hc) as Hc'. rewrite He in *. cbn in *.
  apply live_inv in Hg as [Hv _]. rewrite Hv in Hl. split; [by apply (cd_objects _ Hc' a)|by apply (object_code a s' o)].
Qed.
Lemma held_getOrNew a acc s : wf s -> coded s -> is_addr a -> hash_ok acc -> Spec.sound_key (keyOf acc) ->
  let r := (let '(o, s) := getStateObject a s in
            match o with Some o => (o, s) | None => let '(o, _, s) := createObjectWith a acc s in (o, s) end) in
  held s r.2 /\ loaded_ok r.1 /\ length (CodeHash r.1) = 32%nat.
Proof using keccak_len.
  intros Hw Hc Ha Hh Hk r. subst r. pose proof (held_get a s) as H. pose proof (held_live a s) as Hl. destruct (getStateObject a s) as [[o|] s'] eqn:Hg; cbn [fst snd] in *.
  - split; [done|]. by apply Hl.
  - destruct (held_create a acc s' Hk) as [H2 H3]. destruct (createObjectWith a acc s') as [[o prev] s2] eqn:Hcr. cbn [fst snd] in *.
    split; [by eapply held_trans|]. split; [done|]. apply CodeHash_ok; [done|].
    unfold createObjectWith in Hcr. destruct (getDeletedStateObject a s') as [p s3]. injection Hcr as <- _ _. objfields. by destruct acc.
Qed.
Definition got (s : StateDB) (r : stateObject * StateDB) : Prop := held s r.2 /\ loaded_ok r.1 /\ length (CodeHash r.1) = 32%nat.
Lemma held_getOrNewObject a s : wf s -> coded s -> is_addr a -> got s (GetOrNewStateObject a s).
Proof using keccak_len. intros Hw Hc Ha. by apply (held_getOrNew a newExternallyOwnedAccount). Qed.
Lemma held_getOrNewContract a s : wf s -> coded s -> is_addr a -> got s (GetOrNewSmartContract a s).
Proof using keccak_len.
  intros Hw Hc Ha. apply (held_getOrNew a (newSmartContractAccountWithMap emptyCodeHash (mkValues (Some 1) None (Some false) (Some AccountKeyFail) None None None)));
    try done. by apply hash_ok_values.
Qed.

(** Reads are of twenty-byte addresses, codes that are set have the length of a slice, and new keys are
    sound. *)
Definition cmd_reads (c : cmd) : Prop :=
  match c with CRead a | CGetCode a | CGetState a _ | CGetCommittedState a _ => is_addr a | _ => True end.
Definition code_small (c : cmd) : Prop :=
  match c with
  | CSetCode _ (Some c) => len c < 2 ^ 63
  | CCreateEOA _ _ k | CCreateSmartContract _ _ k _ _ _ => Spec.sound_key k
  | _ => True
  end.

Lemma held_carry a acc s : Spec.sound_key (keyOf acc) -> held s (carryBalance (createObjectWith a acc s)).
Proof.
  intros Hk. destruct (held_create a acc s Hk) as [H1 H2]. unfold carryBalance. destruct (createObjectWith a acc s) as [[o [p|]] s']; cbn [fst snd] in *; [|done].
  eapply held_trans; [exact H1|]. apply held_put, loaded_account; [done|apply program_SetBalance|apply keyOf_SetBalance].
Qed.
Lemma held_setAccount o acc e s : loaded_ok o -> program acc = program (so_account o) -> keyOf acc = keyOf (so_account o) ->
  held s (setStateObject (withAccount acc o) (journalAppend e s)).
Proof. intros Ho Hp Hk. eapply held_trans; [|by apply held_put, loaded_account]. by apply held_other. Qed.
Lemma held_getter {A} a (f : StateDB -> stateObject -> A * stateObject) (d : A) s : wf s -> coded s -> is_addr a ->
  (forall s o, loaded_ok o -> length (CodeHash o) = 32%nat -> loaded_ok (f s o).2) ->
  held s (let '(o, s) := getStateObject a s in match o with Some o => let '(v, o) := f s o in (v, setStateObject o s) | None => (d, s) end).2.
Proof.
  intros Hw Hc Ha Hf. pose proof (held_get a s) as H. pose proof (held_live a s) as Hl. destruct (getStateObject a s) as [[o|] s']; cbn [fst snd] in *; [|done].
  destruct (Hl o) as [Ho Hlen]; [done..|]. specialize (Hf s' o Ho Hlen). destruct (f s' o) as [v o']. eapply held_trans; [exact H|by apply held_put].
Qed.

Lemma held_SelfDestruct a s : wf s -> coded s -> is_addr a -> held s (SelfDestruct a s).
Proof.
  intros Hw Hc Ha. unfold SelfDestruct. pose proof (held_get a s) as H. pose proof (held_live a s) as Hl. destruct (getStateObject a s) as [[o|] s']; cbn [fst snd] in *; [|done].
  destruct (Hl o) as [Ho _]; [done..|]. eapply held_trans; [exact H|]. apply (held_setAccount (withFlags true (so_deleted o) (so_created o) o)).
  - by destruct Ho.
  - apply program_SetBalance.
  - apply keyOf_SetBalance.
Qed.
Lemma loaded_committed s o k : loaded_ok o -> loaded_ok (objGetCommittedState s o k).2.
Proof.
  intros [Hc Hk]. unfold objGetCommittedState, getStorageTrie. destruct (_ !! k); [by split|]. destruct (sd_snap s); [|by split]. case_bool_decide; [by split|].
  by destruct (sn_Storage _ _ _).
Qed.
Lemma loaded_state s o k : loaded_ok o -> loaded_ok (objGetState s o k).2.
Proof. intros Ho. unfold objGetState. destruct (_ !! k); [done|]. by apply loaded_committed. Qed.
Lemma held_SetCode a c s : wf s -> coded s -> is_addr a -> code_small (CSetCode a c) -> held s (SetCode a c s).2.
Proof using codes_hashed keccak_len.
  intros Hw Hc Ha Hs. unfold SetCode. destruct (held_getOrNewContract a s Hw Hc Ha) as (H1 & H2 & H3). destruct (GetOrNewSmartContract a s) as [o s'].
  cbn [fst snd] in *. pose proof (loaded_Code o H3 H2) as H4. destruct (Code o) as [prev o']. cbn [fst snd] in *. eapply held_trans; [exact H1|].
  eapply held_trans; [|apply held_put]; [by apply held_other|]. unfold setCode. destruct (isProgram (so_account o')) eqn:Hp; [|done].
  split; [|objfields; destruct H4 as [_ H4]; by destruct (so_account o')]. intros c' Hc'. objfields. subst c. cbn in Hs. split; [done|]. unfold CodeHash. objfields. by destruct (so_account o').
Qed.
Lemma held_SetState a k v s : wf s -> coded s -> is_addr a -> held s (SetState a k v s).
Proof using keccak_len.
  intros Hw Hc Ha. unfold SetState. destruct (held_getOrNewContract a s Hw Hc Ha) as (H1 & H2 & H3). destruct (GetOrNewSmartContract a s) as [o s'].
  cbn [fst snd] in *. assert (loaded_ok (objGetState s' o k).2) as H4 by (by apply loaded_state). destruct (objGetState s' o k) as [prev o']. cbn [snd] in H4.
  eapply held_trans; [exact H1|]. case_bool_decide; [by apply held_put|].
  eapply held_trans; [|apply held_put; by destruct H4; split]. by apply held_other.
Qed.

(** Every command. *)
Lemma run_held c s s' : cmd_ok c -> cmd_reads c -> code_small c -> wf s -> coded s -> run c s = Ok s' -> held s s'.
Proof using codes_hashed keccak_len.
  intros Hok Hrd Hsm Hw Hc Hr. destruct c; cbn [run cmd_ok cmd_reads] in *; try (injection Hr as <-).
  all: unfold AddBalance, SubBalance, SetBalanceAt, IncNonce, SetNonceAt.
  all: try match goal with |- context [GetOrNewStateObject ?a ?s] =>
    pose proof (held_getOrNewObject a s Hw Hc Hok) as (H1 & H2 & H3); destruct (GetOrNewStateObject a s) as [o s1]; cbn [fst snd] in *;
    eapply held_trans; [exact H1|] end.
  - destruct (amount =? 0); [|apply held_setAccount; [done|apply program_SetBalance|apply keyOf_SetBalance]]. destruct (empty_ o); [|apply held_refl]. unfold touch. case_bool_decide; by apply held_other.
  - destruct (amount =? 0); [apply held_refl|apply held_setAccount; [done|apply program_SetBalance|apply keyOf_SetBalance]].
  - apply held_setAccount; [done|apply program_SetBalance|apply keyOf_SetBalance].
  - apply held_setAccount; [done|apply program_SetNonce|apply keyOf_SetNonce].
  - apply held_setAccount; [done|apply program_SetNonce|apply keyOf_SetNonce].
  - by apply held_SetCode.
  - by apply held_SetState.
  - by apply held_SelfDestruct.
  - unfold SelfDestruct6780. pose proof (held_get a s) as H. destruct (load_spec a s Hw) as (s1 & He & Hj & Hw1 & _). rewrite He in *. cbn in H.
    destruct (live (view s a)) as [o|]; [|done]. destruct (so_created o); [|done]. eapply held_trans; [exact H|]. apply held_SelfDestruct; [done| |done]. by apply H.
  - unfold SetTransientState. case_bool_decide; by apply held_other.
  - by apply held_carry.
  - by apply held_carry.
  - by apply held_carry.
  - by apply held_other.
  - unfold AddPreimage. destruct (sd_preimages s !! hash); by apply held_other.
  - by apply held_other.
  - unfold SubRefund in Hr. destruct (_ <? _); [done|]. injection Hr as <-. by apply held_other.
  - unfold AddAddressToAccessList. destruct (AddAddress _ a) as [[|] al]; by apply held_other.
  - unfold AddSlotToAccessList in Hr. destruct (AddSlot _ a slot) as [[[am sm] al]| | |]; try done. injection Hr as <-. destruct am, sm; by apply held_other.
  - apply held_get.
  - apply (held_getter a (fun _ => Code)); try done. intros s0 o Ho Hl. by apply loaded_Code.
  - apply (held_getter a (fun s o => objGetState s o key)); try done. intros s0 o Ho _. by apply loaded_state.
  - apply (held_getter a (fun s o => objGetCommittedState s o key)); try done. intros s0 o Ho _. by apply loaded_committed.
Qed.

(** ** The relations of the interface *)

(** What is known of the trie and of the flat snapshot below, which the machine leaves alone. *)
Context {bl : Below}.

(** The flat snapshot holds no storage of accounts that do not exist. *)
Definition snap_ok (s : StateDB) : Prop := forall sn a k, sd_snap s = Some sn -> is_addr a -> readAccount s a = None ->
  sn_Storage sn (keccak a) (keccak k) = None.
Record good_ (s : StateDB) : Prop := {
  gd_wf : wf s;
  gd_counted : counted s;
  gd_sorted : StronglySorted Z.lt (sd_validRevisions s).*1;
  gd_next : Forall (fun r => r.1 < sd_nextRevisionId s) (sd_validRevisions s);
  gd_coded : coded s;
  gd_snap : snap_ok s;
  gd_below : below (sd_trie s) (sd_snap s)
}.
Definition within_ (id : Z) (g s : StateDB) : Prop := good_ g /\ exists revs es,
  sd_validRevisions s = sd_validRevisions g ++ (id, length (entries g)) :: revs /\ entries s = entries g ++ es /\ undoes es g s.

(** What contracts own. *)
Record same_ (s t : StateDB) : Prop := {
  sm_balance a : is_addr a -> (GetBalanceAt a s).1 = (GetBalanceAt a t).1;
  sm_nonce a : is_addr a -> (GetNonceAt a s).1 = (GetNonceAt a t).1;
  sm_codeHash a : is_addr a -> (GetCodeHashAt a s).1 = (GetCodeHashAt a t).1;
  sm_code a : is_addr a -> (GetCodeAt a s).1 = (GetCodeAt a t).1;
  sm_state a k : is_addr a -> (GetStateAt a k s).1 = (GetStateAt a k t).1;
  sm_committed a k : is_addr a -> (GetCommittedStateAt a k s).1 = (GetCommittedStateAt a k t).1;
  sm_selfDestructed a : is_addr a -> (HasSelfDestructed a s).1 = (HasSelfDestructed a t).1;
  sm_transient a k : GetTransientState a k s = GetTransientState a k t;
  sm_logs h : GetLogs h s = GetLogs h t
}.

#[export] Instance StateDB_StateRel : Spec.StateRel := {|
  Spec.good := good_; Spec.alike := equiv; Spec.same := same_; Spec.within := within_
|}.

#[export] Instance same_equivalence : Equivalence same_.
Proof.
  split.
  - by split.
  - intros s t H. split; intros; symmetry; by apply H.
  - intros s t u H1 H2. split; intros; (etransitivity; [by apply H1|by apply H2]).
Qed.

(** ** Commands *)

Lemma snap_held s s' : held s s' -> snap_ok s -> snap_ok s'.
Proof.
  intros [Ht Hs _] Hok sn a k. rewrite Hs, (readAccount_same s' s) by done. apply Hok.
Qed.
Lemma steps_ext es s s' : good_ s -> steps es s s' -> held s s' -> Spec.ext s s'.
Proof.
  intros [Hw Hc Hs Hn Hcd Hsn Hbl] [U W E C R] Hh. unfold revisions in R. injection R as R1 R2. split.
  - split; rewrite ?R1, ?R2; auto; [by apply Hh|by eapply snap_held|by rewrite (hd_trie _ _ Hh), (hd_snap _ _ Hh)].
  - intros id g [Hg (revs & es0 & Hr & He & Hu)]. split; [done|]. exists revs, (es0 ++ es). rewrite R1, E, He, app_assoc. split_and!; try done. by eapply undoes_trans.
Qed.
Lemma run_ext c s s' : cmd_ok c -> cmd_reads c -> code_small c -> good_ s -> run c s = Ok s' -> Spec.ext s s'.
Proof using codes_hashed keccak_addresses keccak_len.
  intros Hok Hrd Hsm Hg Hr. destruct (run_step keccak_len keccak_addresses c s s' Hok (gd_wf s Hg) Hr) as [es Hst]. eapply steps_ext; [done|exact Hst|].
  apply (run_held c); try done; apply Hg.
Qed.

(** Taking a snapshot, and going back to it. *)
Lemma Snapshot_law s : good_ s -> Spec.ext s (Snapshot s).2 /\ equiv s (Snapshot s).2 /\ within_ (Snapshot s).1 s (Snapshot s).2.
Proof.
  intros [Hw Hc Hs Hn Hcd Hsn Hbl]. unfold Snapshot. cbn [fst snd]. set (s' := setRevisions _ _ s). assert (equiv s' s) as He by apply equiv_revisions. split_and!.
  - split.
    + split; unfold s'; fields; try done.
      * eapply wf_equiv; [exact He| |done]. eapply keyed_same; [| |apply Hw]; done.
      * rewrite fmap_app. apply StronglySorted_app_2; [|done|repeat constructor]. intros x1 x2 Hx1 Hx2. cbn in Hx2. apply list_elem_of_singleton in Hx2 as ->.
        apply list_elem_of_fmap in Hx1 as (r & -> & Hr). apply (proj1 (Forall_forall _ _) Hn r Hr).
      * apply Forall_app. split; [|repeat constructor; simpl; lia]. eapply Forall_impl; [exact Hn|]. intros r ?. simpl in *. lia.
      * by apply (held_other s).
    + intros id g [Hg (revs & es & Hr & Hen & Hu)]. split; [done|]. exists (revs ++ [(sd_nextRevisionId s, length (entries s))]), es.
      split_and!; [|done|by eapply undoes_ext]. unfold s'. fields. by rewrite Hr, <- app_assoc.
  - by symmetry.
  - split; [done|]. exists [], []. unfold s'. fields. split_and!; [done|by rewrite app_nil_r|]. by apply undoes_equiv.
Qed.
Lemma codeOf_ok s a o c : wf s -> coded s -> is_addr a -> view s a = Some o -> codeOf o = Some c -> len c < 2 ^ 63 /\ keccak c = CodeHash o.
Proof using codes_hashed.
  intros Hw Hc Ha Hv Hcode. pose proof (wf_code s Hw a o Ha Hv) as Hl. unfold codeOf in Hcode. destruct (so_code o) as [c'|] eqn:Ho.
  - injection Hcode as ->. unfold view in Hv. destruct (sd_stateObjects s !! a) as [o'|] eqn:Hs.
    + injection Hv as ->. by apply (cd_objects s Hc a o Ha Hs).
    + destruct (readAccount s a); [|done]. injection Hv as <-. done.
  - destruct (bool_decide _); [done|]. rewrite BytesToHash_32 in Hcode by done. by apply codes_hashed.
Qed.
Lemma view_key s a o : coded s -> is_addr a -> view s a = Some o -> Spec.sound_key (keyOf (so_account o)).
Proof.
  intros Hc Ha. unfold view. destruct (sd_stateObjects s !! a) as [o'|] eqn:Hs; [intros [= <-]; by apply (cd_objects s Hc a)|].
  destruct (readAccount s a) as [acc|] eqn:Hr; [|done]. intros [= <-]. by apply (cd_accounts s Hc a).
Qed.
Lemma coded_equiv s g : equiv s g -> wf g -> coded g -> coded s.
Proof using codes_hashed.
  intros He Hw Hc. split; [|intros a acc; rewrite (readAccount_same s g) by apply He; apply Hc]. intros a o Ha Ho.
  destruct (equiv_view s g a o Ha He) as (og & Hv & Hoe); [unfold view; by rewrite Ho|]. split.
  - intros c Hco. destruct (codeOf_ok g a og c Hw Hc Ha Hv) as [Hl Hk]; [rewrite <- (oe_code _ _ _ Hoe); unfold codeOf; by rewrite Hco|].
    split; [done|]. by rewrite Hk, (objeq_CodeHash _ _ _ Hoe).
  - rewrite (oe_account _ _ _ Hoe). by apply (view_key g a).
Qed.

(** The position of a revision is that of its identifier. *)
Lemma revision_index l i j (r r' : Z * nat) : StronglySorted Z.lt l.*1 -> l !! i = Some r -> l !! j = Some r' -> r.1 = r'.1 -> i = j.
Proof.
  intros Hs Hi Hj He. assert (forall i j r r', l !! i = Some r -> l !! j = Some r' -> (i < j)%nat -> r.1 < r'.1) as Hlt.
  { intros i' j' x y Hx Hy Hij. apply (StronglySorted_lookup Z.lt l.*1 i' j'); try done; by rewrite list_lookup_fmap, ?Hx, ?Hy. }
  destruct (Nat.lt_trichotomy i j) as [H|[H|H]]; [|done|]; [apply (Hlt _ _ _ _ Hi Hj) in H|apply (Hlt _ _ _ _ Hj Hi) in H]; lia.
Qed.

Lemma Revert_law id g s : good_ s -> within_ id g s -> exists s', RevertToSnapshot id s = Ok s' /\ Spec.ext g s' /\ equiv g s'.
Proof using codes_hashed.
  intros [Hw Hc Hs Hn Hcd Hsn Hbl] [Hg (revs & es & Hr & He & Hu)].
  assert (sd_validRevisions s !! length (sd_validRevisions g) = Some (id, length (entries g))) as Hat by (rewrite Hr; by apply list_lookup_middle).
  destruct (searchRevision_found id (sd_validRevisions s) Hs) as [n Hi]; [apply list_elem_of_fmap; exists (id, length (entries g)); split; [done|by eapply list_elem_of_lookup_2]|].
  pose proof (revision_index _ _ _ _ _ Hs Hi Hat eq_refl) as Hidx. rewrite Hidx in Hi. rewrite Hat in Hi. injection Hi as <-.
  assert (take (length (entries g)) (entries s) = entries g) as Htk by (rewrite He; apply take_app_length).
  destruct (revertJournal_spec g es s (length (entries g)) Hu (wf_keyed s Hw)) as (s1 & Hrv & Heq & Hk & Hes & Hds & Hrs); [by rewrite Htk|].
  rewrite Htk in Hes. unfold revisions in Hrs. injection Hrs as Hv Hx. destruct Hg as [Hwg Hcg Hsg Hng Hcdg Hsng Hblg].
  set (s' := setRevisions (sd_validRevisions g) (sd_nextRevisionId s) s1).
  assert (equiv s' g) as Heq' by (etransitivity; [apply equiv_revisions|done]).
  exists s'. split; [|split; [|by symmetry]].
  - unfold RevertToSnapshot. rewrite Hidx, Hat. cbn [fst snd]. rewrite Z.eqb_refl. cbn [negb]. rewrite Hrv. cbn [mbind res_bind mret res_ret].
    unfold s'. by rewrite Hv, Hx, Hr, take_app_length.
  - split.
    + split; unfold s'; fields; try done.
      * eapply wf_equiv; [exact Heq'| |done]. eapply keyed_same; [| |exact Hk]; done.
      * intros a Ha. unfold dirties, entries in *. fields. rewrite Hds. rewrite (counted_revert g es s Hc) by (try done). rewrite Hes. done.
      * apply Forall_forall. intros r Hin. apply (proj1 (Forall_forall _ _) Hn). rewrite Hr. apply elem_of_app. by left.
      * by apply (coded_equiv s' g).
      * intros sn a k. unfold s'. fields. rewrite (eq_snap _ _ Heq), (readAccount_same _ g) by (apply Heq). apply Hsng.
      * by rewrite (eq_trie _ _ Heq), (eq_snap _ _ Heq).
    + intros id' g' [Hg' (revs' & es' & Hr' & He' & Hu')]. split; [done|]. exists revs', es'. split_and!; [done| |by eapply undoes_ext].
      unfold s', entries in *. fields. congruence.
Qed.

(** ** Reading *)

Lemma get_value a s : (getStateObject a s).1 = live (view s a).
Proof. unfold getStateObject, getDeletedStateObject, view. destruct (sd_stateObjects s !! a); [done|]. by destruct (readAccount s a). Qed.
Lemma get_ctx a s : sd_snap (getStateObject a s).2 = sd_snap s /\ sd_snapDestructs (getStateObject a s).2 = sd_snapDestructs s.
Proof. unfold getStateObject, getDeletedStateObject. destruct (sd_stateObjects s !! a); [done|]. by destruct (readAccount s a). Qed.

(** What the getters return, as functions of the object. *)
Lemma GetBalanceAt_value a s : (GetBalanceAt a s).1 = match live (view s a) with Some o => GetBalance (so_account o) | None => 0 end.
Proof. unfold GetBalanceAt. rewrite <- get_value. by destruct (getStateObject a s). Qed.
Lemma GetNonceAt_value a s : (GetNonceAt a s).1 = match live (view s a) with Some o => GetNonce (so_account o) | None => 0 end.
Proof. unfold GetNonceAt. rewrite <- get_value. by destruct (getStateObject a s). Qed.
Lemma GetCodeHashAt_value a s : (GetCodeHashAt a s).1 = BytesToHash (match live (view s a) with Some o => CodeHash o | None => emptyCodeHash end).
Proof. unfold GetCodeHashAt. rewrite <- get_value. by destruct (getStateObject a s). Qed.
Lemma HasSelfDestructed_value a s : (HasSelfDestructed a s).1 = match live (view s a) with Some o => so_selfDestructed o | None => false end.
Proof. unfold HasSelfDestructed. rewrite <- get_value. by destruct (getStateObject a s). Qed.
Lemma GetCodeAt_value a s : (GetCodeAt a s).1 = match live (view s a) with Some o => codeOf o | None => None end.
Proof.
  unfold GetCodeAt. rewrite <- get_value. destruct (getStateObject a s) as [[o|] s']; [|done]. destruct (Code_spec s' o) as [H _]. destruct (Code o). exact H.
Qed.
Lemma current_ctx s t o k : sd_snap s = sd_snap t -> sd_snapDestructs s = sd_snapDestructs t -> current s o k = current t o k.
Proof. intros Hs Hd. unfold current. by rewrite (committed_ctx s t) by (done || by rewrite Hd). Qed.
Lemma GetStateAt_value a k s : (GetStateAt a k s).1 = match live (view s a) with Some o => current s o k | None => zeroHash end.
Proof.
  unfold GetStateAt. rewrite <- get_value. destruct (get_ctx a s) as [H1 H2]. destruct (getStateObject a s) as [[o|] s']; [|done]. cbn [fst snd] in *.
  destruct (objGetState_spec s' o k) as [H _]. destruct (objGetState s' o k). cbn in *. by rewrite H, (current_ctx s' s).
Qed.
Lemma GetCommittedStateAt_value a k s : (GetCommittedStateAt a k s).1 = match live (view s a) with Some o => committed s o k | None => zeroHash end.
Proof.
  unfold GetCommittedStateAt. rewrite <- get_value. destruct (get_ctx a s) as [H1 H2]. destruct (getStateObject a s) as [[o|] s']; [|done]. cbn [fst snd] in *.
  destruct (objGetCommittedState_spec s' o k) as [H _]. destruct (objGetCommittedState s' o k). cbn in *. rewrite H. apply committed_ctx; [done|by rewrite H2].
Qed.

(** States that agree on every live object, up to what contracts own. *)
Record owned_alike (s t : StateDB) (o o' : option stateObject) : Prop := {
  oa_balance : match o with Some o => GetBalance (so_account o) | None => 0 end = match o' with Some o => GetBalance (so_account o) | None => 0 end;
  oa_nonce : match o with Some o => GetNonce (so_account o) | None => 0 end = match o' with Some o => GetNonce (so_account o) | None => 0 end;
  oa_codeHash : match o with Some o => CodeHash o | None => emptyCodeHash end = match o' with Some o => CodeHash o | None => emptyCodeHash end;
  oa_dead : match o with Some o => so_selfDestructed o | None => false end = match o' with Some o => so_selfDestructed o | None => false end;
  oa_code : match o with Some o => codeOf o | None => None end = match o' with Some o => codeOf o | None => None end;
  oa_state k : match o with Some o => current s o k | None => zeroHash end = match o' with Some o => current t o k | None => zeroHash end;
  oa_committed k : match o with Some o => committed s o k | None => zeroHash end = match o' with Some o => committed t o k | None => zeroHash end
}.
Lemma same_owned s t : (forall a, is_addr a -> owned_alike s t (live (view s a)) (live (view t a))) -> (forall a k, GetTransientState a k s = GetTransientState a k t) ->
  (forall h, GetLogs h s = GetLogs h t) -> same_ s t.
Proof.
  intros Ho Ht Hl. split; intros; try done; (destruct (Ho a) as [H1 H2 H3 H4 H5 H6 H7]; [done|]).
  - by rewrite !GetBalanceAt_value.
  - by rewrite !GetNonceAt_value.
  - by rewrite !GetCodeHashAt_value, H3.
  - by rewrite !GetCodeAt_value.
  - by rewrite !GetStateAt_value.
  - by rewrite !GetCommittedStateAt_value.
  - by rewrite !HasSelfDestructed_value.
Qed.
Lemma objeq_owned s t o o' : sd_snap s = sd_snap t -> sd_snapDestructs s = sd_snapDestructs t -> objeq s o o' -> owned_alike s t (Some o) (Some o').
Proof.
  intros Hs Hd He. pose proof (objeq_CodeHash _ _ _ He) as Hh. destruct He as [H1 H2 H3 H4 H5 H6 H7 H8 H9]. split; try done; try congruence.
  - intros k. rewrite H9. by apply current_ctx.
  - intros k. rewrite H8. apply committed_ctx; [done|by rewrite Hd].
Qed.
Lemma owned_refl s t o : sd_snap s = sd_snap t -> sd_snapDestructs s = sd_snapDestructs t -> owned_alike s t o o.
Proof. intros Hs Hd. destruct o as [o|]; [|done]. by apply objeq_owned. Qed.
Lemma equiv_same s t : equiv s t -> same_ s t.
Proof.
  intros He. apply same_owned; [|apply He|apply He]. intros a Ha. pose proof (eq_objects _ _ He a Ha) as Hv. destruct Hv as [o o' Ho|]; [|done].
  unfold live. cbn. rewrite <- (oe_deleted _ _ _ Ho). destruct (so_deleted o); [done|]. apply objeq_owned; [apply He|apply He|done].
Qed.
Lemma core_same s t : core s = core t -> sd_transientStorage s = sd_transientStorage t -> sd_logs s = sd_logs t -> same_ s t.
Proof.
  intros Hc Ht Hl. apply same_owned; [|intros; unfold GetTransientState; by rewrite Ht|intros; unfold GetLogs; by rewrite Hl].
  intros a _. rewrite (view_core s t a Hc). unfold core in Hc. apply owned_refl; congruence.
Qed.

(** ** The laws *)

Lemma reads_law {A} c (f : StateDB -> A * StateDB) : cmd_ok c -> cmd_reads c -> code_small c -> (forall s, run c s = Ok (f s).2) ->
  (forall s, wf s -> equiv (f s).2 s) -> Spec.reads f.
Proof using codes_hashed keccak_addresses keccak_len.
  intros H1 H2 H3 Hr He s Hg. split; [by apply (run_ext c)|]. symmetry. apply He, Hg.
Qed.
Lemma get_equiv a s : wf s -> equiv (getStateObject a s).2 s.
Proof. intros Hw. destruct (load_spec a s Hw) as (s' & -> & _ & _ & He & _). exact He. Qed.
Lemma getter_equiv {A} a (f : StateDB -> stateObject -> A * stateObject) (d : A) s : wf s -> (forall s o, objeq s (f s o).2 o) ->
  equiv (let '(o, s) := getStateObject a s in match o with Some o => let '(v, o) := f s o in (v, setStateObject o s) | None => (d, s) end).2 s.
Proof.
  intros Hw Hf. destruct (load_spec a s Hw) as (s1 & -> & _ & Hw1 & He & Hl). destruct (live (view s a)) as [o|] eqn:Hv; [|done].
  apply live_inv in Hv as [Hv _]. rewrite Hv in Hl. specialize (Hf s1 o). destruct (f s1 o) as [v o']. cbn [snd] in *. etransitivity; [|exact He].
  apply (equiv_put s1 o' o); [|done]. pose proof (ky_address s1 (wf_keyed s1 Hw1) _ _ Hl) as Hoa. rewrite (oe_address _ _ _ Hf), Hoa. unfold view. by rewrite Hl.
Qed.

Lemma changes_law c (f : StateDB -> StateDB) : cmd_ok c -> cmd_reads c -> code_small c -> (forall s, run c s = Ok (f s)) -> Spec.changes f.
Proof using codes_hashed keccak_addresses keccak_len. intros H1 H2 H3 Hr s Hg. by apply (run_ext c). Qed.
Lemma quiet_law c (f : StateDB -> StateDB) : cmd_ok c -> cmd_reads c -> code_small c -> (forall s, run c s = Ok (f s)) ->
  (forall s, good_ s -> same_ s (f s)) -> Spec.quiet f.
Proof using codes_hashed keccak_addresses keccak_len. intros H1 H2 H3 Hr Hs s Hg. split; [by apply (run_ext c)|by apply Hs]. Qed.

(** An account that comes into being empty. *)
Definition blank (acc : Account) : Prop :=
  GetBalance acc = 0 /\ match acc with SmartContractAccount _ root h _ => root = emptyExtHash /\ h = emptyCodeHash | _ => True end.

(** The object that a creation puts under its address. *)
Definition newborn (a : Address) (acc : Account) : stateObject := withFlags false false true (setNonce 0 (newObject a acc)).

Lemma newborn_owned a acc s t : blank acc -> (forall k, fresh t (newborn a acc) k = zeroHash) -> owned_alike s t None (Some (newborn a acc)).
Proof.
  intros [Hb Hacc] Hf. assert (CodeHash (newborn a acc) = emptyCodeHash) as Hh by (unfold CodeHash, newborn; objfields; destruct acc; [done|by destruct Hacc]).
  split; try done.
  - unfold newborn, GetBalance in *. objfields. by destruct acc.
  - unfold newborn, GetNonce. objfields. by destruct acc.
  - unfold codeOf. rewrite Hh. by rewrite bool_decide_eq_true_2.
  - intros k. symmetry. apply Hf.
  - intros k. symmetry. apply Hf.
Qed.
Lemma newborn_fresh a acc t k : blank acc -> (sd_snap t <> None -> keccak a ∈ sd_snapDestructs t \/ forall sn, sd_snap t = Some sn -> sn_Storage sn (keccak a) (keccak k) = None) ->
  fresh t (newborn a acc) k = zeroHash.
Proof using empty_root.
  intros [_ Hacc] Hs. assert (openedTrie (newborn a acc) = ∅) as Ht by (unfold openedTrie, newborn; objfields; destruct acc as [c|c r h i]; [done|]; cbn; destruct Hacc as [-> _]; done).
  unfold fresh. rewrite Ht, lookup_empty. destruct (sd_snap t) as [sn|]; [|done]. change (addrHash (newborn a acc)) with (keccak a).
  destruct Hs as [Hin|Hno]; [done|by rewrite bool_decide_eq_true_2|]. rewrite (Hno sn eq_refl). by case_bool_decide.
Qed.

Lemma view_none_account s a : view s a = None -> readAccount s a = None.
Proof. unfold view. destruct (sd_stateObjects s !! a); [done|]. by destruct (readAccount s a). Qed.

(** The state after a creation. *)
Lemma create_parts a acc s : good_ s -> is_addr a -> live (view s a) = None -> exists s0,
  let s2 := carryBalance (createObjectWith a acc s) in
  equiv s0 s /\ keyed s0 /\ sd_stateObjects s0 !! a = view s a /\
  (sd_stateObjects s2 = <[a := newborn a acc]> (sd_stateObjects s0) /\ sd_trie s2 = sd_trie s0 /\ sd_snap s2 = sd_snap s0 /\
    sd_transientStorage s2 = sd_transientStorage s0 /\ sd_logs s2 = sd_logs s0) /\
  (forall x, x <> keccak a -> x ∈ sd_snapDestructs s2 <-> x ∈ sd_snapDestructs s0) /\
  (forall p, sd_snap s0 <> None -> view s a = Some p -> keccak a ∈ sd_snapDestructs s2).
Proof.
  intros Hgd Ha Hl. pose proof (gd_wf s Hgd) as Hw. destruct (getDeleted_spec a s (wf_keyed s Hw)) as (s0 & Hg & He & Hk & Hm & Hlk). exists s0. cbv zeta.
  unfold createObjectWith. rewrite Hg. cbv zeta.
  set (s1 := match sd_snap s0, view s a with Some _, Some p => _ | _, _ => s0 end). set (s2 := setStateObject _ (journalAppend _ s1)).
  assert (carryBalance (newborn a acc, match view s a with Some p => if so_deleted p then None else Some p | None => None end, s2) = s2) as Hcb.
  { unfold live in Hl. destruct (view s a) as [p|]; [|done]. cbn in Hl. by destruct (so_deleted p). }
  match goal with |- context [carryBalance ?x] => change (carryBalance x) with
    (carryBalance (newborn a acc, match view s a with Some p => if so_deleted p then None else Some p | None => None end, s2)) end. rewrite Hcb.
  split_and!; try done.
  all: try (unfold s2, s1; fields; destruct (sd_snap s0) eqn:Hs0, (view s a); try done; by case_bool_decide).
  - intros x Hx. unfold s2, s1. fields. destruct (sd_snap s0), (view s a) as [p|] eqn:Hv; try done. case_bool_decide; [done|]. fields.
    assert (addrHash p = keccak a) as -> by (unfold addrHash; by rewrite (ky_address s0 Hk a p Hlk)).
    rewrite elem_of_union, elem_of_singleton. split; [intros [?|?]; [contradiction|done]|by right].
  - intros p Hne Hv. unfold s2, s1. rewrite Hv in *. assert (addrHash p = keccak a) as Hap by (unfold addrHash; by rewrite (ky_address s0 Hk a p Hlk)).
    destruct (sd_snap s0); [|done]. rewrite Hap. case_bool_decide; [done|]. fields. rewrite elem_of_union, elem_of_singleton. by left.
Qed.

Lemma create_same a acc s : good_ s -> is_addr a -> blank acc -> live (view s a) = None -> same_ s (carryBalance (createObjectWith a acc s)).
Proof using empty_root keccak_addresses.
  intros Hgd Ha Hbl Hl. pose proof (gd_snap s Hgd) as Hsn. destruct (create_parts a acc s Hgd Ha Hl) as (s0 & He & Hk & Hlk & (Ho & Htr & Hs & Hts & Hlg) & Hd & Hda).
  cbv zeta in *. set (s2 := carryBalance _) in *. clearbody s2. transitivity s0; [symmetry; by apply equiv_same|].
  apply same_owned; [|intros; unfold GetTransientState; by rewrite Hts|intros; unfold GetLogs; by rewrite Hlg].
  intros b Hib. destruct (decide (b = a)) as [->|Hne].
  - assert (view s2 a = Some (newborn a acc)) as -> by (unfold view; by rewrite Ho, lookup_insert_eq).
    assert (live (view s0 a) = None) as -> by (unfold view; rewrite Hlk; destruct (view s a) eqn:Hv; [done|]; by rewrite (readAccount_same s0 s), (view_none_account s a) by (apply He || done)).
    apply newborn_owned; [done|]. intros k. apply newborn_fresh; [done|]. rewrite Hs. intros Hsne. destruct (view s a) as [p|] eqn:Hv; [left; by apply (Hda p)|right].
    intros sn Hsnap. apply (Hsn sn a k); [by rewrite <- (eq_snap _ _ He)|done|by apply view_none_account].
  - assert (view s2 b = view s0 b) as -> by (unfold view; rewrite Ho, lookup_insert_ne, (readAccount_same s2 s0) by done; done).
    destruct (view s0 b) as [o|] eqn:Hv; [|done]. unfold live. cbn. destruct (so_deleted o); [done|].
    assert (addrHash o = keccak b) as Hb by (unfold addrHash; by rewrite (view_address s0 b o Hk Hv)).
    assert (addrHash o ∈ sd_snapDestructs s0 <-> addrHash o ∈ sd_snapDestructs s2) as Hiff.
    { symmetry. apply Hd. rewrite Hb. intros Heq. by apply (keccak_addresses b a Hib Ha) in Heq. }
    split; try done; intros k; [unfold current|]; by rewrite (committed_ctx s0 s2) by done.
Qed.

Lemma carry_nothing a acc s : wf s -> live (view s a) = None -> carryBalance (createObjectWith a acc s) = (createObjectWith a acc s).2.
Proof.
  intros Hw Hl. destruct (getDeleted_spec a s (wf_keyed s Hw)) as (s0 & Hg & _). unfold createObjectWith. rewrite Hg. cbv zeta. unfold live in Hl.
  destruct (view s a) as [p|]; [|done]. cbn in Hl. by destruct (so_deleted p).
Qed.
Lemma getOrNew_same a s : good_ s -> is_addr a -> same_ s (GetOrNewStateObject a s).2.
Proof using codes_hashed empty_root keccak_addresses keccak_len.
  intros Hg Ha. unfold GetOrNewStateObject. destruct (load_spec a s (gd_wf s Hg)) as (s1 & Hget & _ & Hw1 & He & Hlk). rewrite Hget.
  assert (good_ s1) as Hg1. { apply (run_ext (CRead a) s); try done. cbn. by rewrite Hget. }
  destruct (live (view s a)) as [o|] eqn:Hl; [by apply equiv_same; symmetry|]. transitivity s1; [by apply equiv_same; symmetry|].
  assert (live (view s1 a) = None) as Hl1. { unfold view. rewrite Hlk. destruct (view s a) eqn:Hv; [done|].
    by rewrite (readAccount_same s1 s), (view_none_account s a) by (apply He || done). }
  unfold createObject. pose proof (create_same a newExternallyOwnedAccount s1 Hg1 Ha ltac:(done) Hl1) as H. rewrite carry_nothing in H by done.
  by destruct (createObjectWith a newExternallyOwnedAccount s1) as [[o p] s2].
Qed.
Lemma AddBalance_zero a s : good_ s -> is_addr a -> same_ s (AddBalance a 0 s).
Proof using codes_hashed empty_root keccak_addresses keccak_len.
  intros Hg Ha. pose proof (getOrNew_same a s Hg Ha) as H. unfold AddBalance. destruct (GetOrNewStateObject a s) as [o s1]. cbn [snd Z.eqb] in *.
  destruct (empty_ o); [|done]. transitivity s1; [done|]. unfold touch. case_bool_decide; by apply core_same.
Qed.
Lemma SubBalance_zero a s : good_ s -> is_addr a -> same_ s (SubBalance a 0 s).
Proof using codes_hashed empty_root keccak_addresses keccak_len.
  intros Hg Ha. pose proof (getOrNew_same a s Hg Ha) as H. unfold SubBalance. by destruct (GetOrNewStateObject a s) as [o s1].
Qed.

Lemma AddSlot_same a k s s' : AddSlotToAccessList a k s = Ok s' -> same_ s s'.
Proof.
  unfold AddSlotToAccessList. destruct (AddSlot _ a k) as [[[am sm] al]| | |]; try done. intros [= <-]. destruct am, sm; by apply core_same.
Qed.
Lemma CreateEmpty_law a f i l s s' : is_addr a -> good_ s -> Exist a s = (false, s') ->
  Spec.ext s' (CreateSmartContractAccount a f i l s') /\ same_ s' (CreateSmartContractAccount a f i l s').
Proof using codes_hashed empty_root keccak_addresses keccak_len.
  intros Ha Hg Hex. unfold Exist in Hex. destruct (load_spec a s (gd_wf s Hg)) as (s1 & Hget & _ & Hw1 & He & Hlk). rewrite Hget in Hex. injection Hex as Hl <-.
  assert (good_ s1) as Hg1. { apply (run_ext (CRead a) s); try done. cbn. by rewrite Hget. }
  apply bool_decide_eq_false in Hl. assert (live (view s1 a) = None) as Hl1.
  { destruct (live (view s a)) eqn:Hlv; [by destruct Hl|]. unfold view. rewrite Hlk. destruct (view s a) eqn:Hv; [done|].
    by rewrite (readAccount_same s1 s), (view_none_account s a) by (apply He || done). }
  split; [by apply (run_ext (CCreateSmartContract a false AccountKeyFail f i l))|]. by apply create_same.
Qed.

Lemma GetCode_reads a : is_addr a -> Spec.reads (fun s => let '(c, s) := GetCodeAt a s in (default [] c, s)).
Proof using codes_hashed keccak_addresses keccak_len.
  intros Ha. apply (reads_law (CGetCode a)); try done.
  - intros s. cbn. by destruct (GetCodeAt a s).
  - intros s Hw. pose proof (getter_equiv a (fun _ => Code) None s Hw (fun s o => proj2 (Code_spec s o))) as H. change (equiv (GetCodeAt a s).2 s) in H. by destruct (GetCodeAt a s).
Qed.
Lemma code_len_law a s : is_addr a -> good_ s -> len (default [] (GetCodeAt a s).1) < 2 ^ 63.
Proof using codes_hashed.
  intros Ha Hg. rewrite GetCodeAt_value. destruct (live (view s a)) as [o|] eqn:Hl; [|done]. apply live_inv in Hl as [Hv _].
  destruct (codeOf o) as [c|] eqn:Hc; [|done]. by apply (codeOf_ok s a o c); try apply Hg.
Qed.
Lemma code_hash_law a s : is_addr a -> good_ s -> let '(h, s1) := GetCodeHashAt a s in
  default [] (GetCodeAt a s1).1 = [] \/ keccak (default [] (GetCodeAt a s1).1) = h.
Proof using codes_hashed.
  intros Ha Hg. pose proof (GetCodeHashAt_value a s) as Hh. pose proof (get_equiv a s (gd_wf s Hg)) as He.
  assert ((GetCodeHashAt a s).2 = (getStateObject a s).2) as H2 by (unfold GetCodeHashAt; by destruct (getStateObject a s)).
  destruct (GetCodeHashAt a s) as [h s1]. cbn [fst snd] in *. subst h s1. rewrite (sm_code _ _ (equiv_same _ _ He) a Ha), GetCodeAt_value.
  destruct (live (view s a)) as [o|] eqn:Hl; [|by left]. apply live_inv in Hl as [Hv _]. pose proof (wf_code s (gd_wf s Hg) a o Ha Hv) as H32.
  destruct (codeOf o) as [c|] eqn:Hc; [|by left]. right. rewrite BytesToHash_32 by done. by apply (codeOf_ok s a o c); try apply Hg.
Qed.

Lemma key_law a s : is_addr a -> good_ s -> Spec.sound_key (GetKeyAt a s).1.
Proof.
  intros Ha Hg. unfold GetKeyAt. pose proof (get_value a s) as H. destruct (getStateObject a s) as [[o|] s1]; [|done]. cbn [fst] in *.
  symmetry in H. apply live_inv in H as [Hv _]. by apply (view_key s a); [apply Hg|..].
Qed.

(** Getters that read the object and nothing else. *)
Lemma object_getters a : is_addr a ->
  Spec.reads (GetBalanceAt a) /\ Spec.reads (GetNonceAt a) /\ Spec.reads (GetCodeHashAt a) /\ Spec.reads (GetCodeSizeAt a) /\
  Spec.reads (GetVmVersionAt a) /\ Spec.reads (HasSelfDestructed a) /\ Spec.reads (Exist a) /\ Spec.reads (EmptyAt a) /\
  Spec.reads (IsProgramAccount a) /\ Spec.reads (GetKeyAt a).
Proof using codes_hashed keccak_addresses keccak_len.
  intros Ha. assert (forall A (g : StateDB -> A * StateDB), (forall s, (g s).2 = (getStateObject a s).2) -> Spec.reads g) as H.
  { intros A g Hg. apply (reads_law (CRead a)); try done; [intros s; by rewrite Hg|]. intros s Hw. rewrite Hg. by apply get_equiv. }
  split_and!; apply H; intros s; unfold GetBalanceAt, GetNonceAt, GetCodeHashAt, GetCodeSizeAt, GetVmVersionAt, HasSelfDestructed, Exist, EmptyAt,
    IsProgramAccount, GetKeyAt; by destruct (getStateObject a s).
Qed.

(** The state database keeps the promises of the interface. *)
Lemma StateDB_laws : Spec.StateLaws keccak.
Proof using codes_hashed empty_root keccak_addresses keccak_len.
  split; try apply _; try (intros a Ha; by apply (object_getters a Ha)).
  - apply equiv_same.
  - apply GetCode_reads.
  - intros a k Ha. apply (reads_law (CGetState a k)); try done. intros s Hw. apply (getter_equiv a (fun s o => objGetState s o k)); [done|]. intros s0 o. apply objGetState_spec.
  - intros a k Ha. apply (reads_law (CGetCommittedState a k)); try done. intros s Hw. apply (getter_equiv a (fun s o => objGetCommittedState s o k)); [done|].
    intros s0 o. apply objGetCommittedState_spec.
  - intros g. apply (quiet_law (CAddRefund g)); try done. intros s _. by apply core_same.
  - intros g s s' Hg Hs. split; [by apply (run_ext (CSubRefund g))|]. unfold Evm.dbSubRefund in Hs. cbn in Hs. unfold SubRefund in Hs.
    destruct (_ <? _); [done|]. injection Hs as <-. by apply core_same.
  - intros a Ha. apply (quiet_law (CAddAddress a)); try done. intros s _. cbn. unfold AddAddressToAccessList. destruct (AddAddress _ a) as [[|] al]; by apply core_same.
  - intros a k s s' Ha Hg Hs. split; [by apply (run_ext (CAddSlot a k))|by eapply AddSlot_same].
  - intros h q. apply (quiet_law (CAddPreimage h q)); try done. intros s _. cbn. unfold AddPreimage. destruct (_ !! h); [done|by apply core_same].
  - intros a Ha. apply (quiet_law (CSubBalance a 0)); try done. intros s Hg. by apply SubBalance_zero.
  - intros a Ha. apply (quiet_law (CAddBalance a 0)); try done. intros s Hg. by apply AddBalance_zero.
  - intros a f r s s' Ha Hg Hs. by apply (CreateEmpty_law a f _ _ s).
  - intros a h k f r Ha Hk. by apply (changes_law (CCreateSmartContract a h k f (Evm.IsIstanbul r) (Evm.IsLondon r))).
  - intros a h k Ha Hk. by apply (changes_law (CCreateEOA a h k)).
  - intros a v Ha. by apply (changes_law (CSubBalance a v)).
  - intros a v Ha. by apply (changes_law (CAddBalance a v)).
  - intros a Ha. by apply (changes_law (CIncNonce a)).
  - intros a k Ha. by apply (changes_law (CSetNonce a k)).
  - intros a c s Ha Hl Hg. apply (run_ext (CSetCode a (sliceOf c))); try done. destruct c; cbn in *; [done|]. unfold Params.MaxCodeSize in Hl. lia.
  - intros a k v Ha. by apply (changes_law (CSetState a k v)).
  - intros a k v. by apply (changes_law (CSetTransientState a k v)).
  - intros a Ha. by apply (changes_law (CSelfDestruct a)).
  - intros a Ha. by apply (changes_law (CSelfDestruct6780 a)).
  - intros a t d. by apply (changes_law (CAddLog (newLog a t d))).
  - apply Snapshot_law.
  - apply Revert_law.
  - intros a s Ha Hg. pose proof (code_len_law a s Ha Hg) as H. cbn. by destruct (GetCodeAt a s).
  - intros a s Ha Hg. pose proof (code_hash_law a s Ha Hg) as H. cbn. destruct (GetCodeHashAt a s) as [h s1]. by destruct (GetCodeAt a s1).
  - apply key_law.
Qed.

(** A new state database on a trie of accounts, without a flat snapshot, is one of them. *)
Lemma good_New trie : map_Forall (fun _ acc => hash_ok acc /\ Spec.sound_key (keyOf acc)) trie -> below trie None -> good_ (New trie None).
Proof using keccak_len.
  intros Ht Hbl. destruct (wf_New trie keccak_len) as [Hw _ _]; [intros a acc Ha; by apply (Ht a acc)|]. split.
  - done.
  - by intros a _.
  - constructor.
  - constructor.
  - split; [done|]. intros a acc _ Ha. by apply (Ht a acc).
  - done.
  - done.
Qed.
End link.
End Link.
