(* ===== verification/Blake2b.v ===== *)
(** * The compression function of BLAKE2b

    Model of [fGeneric] and [F] of [crypto/blake2b], with 64-bit words, and its equivalence with
    the function of RFC 7693. *)

From S2P Require Import Prelude.

Module Blake2b.

(** ** The code *)

Definition iv : list Z :=
  [0x6a09e667f3bcc908; 0xbb67ae8584caa73b; 0x3c6ef372fe94f82b; 0xa54ff53a5f1d36f1;
   0x510e527fade682d1; 0x9b05688c2b3e6c1f; 0x1f83d9abfb41bd6b; 0x5be0cd19137e2179].
(** The words of the message that each round adds, in the order of the steps. *)
Definition precomputed : list (list nat) :=
  [[0; 2; 4; 6; 1; 3; 5; 7; 8; 10; 12; 14; 9; 11; 13; 15];
   [14; 4; 9; 13; 10; 8; 15; 6; 1; 0; 11; 5; 12; 2; 7; 3];
   [11; 12; 5; 15; 8; 0; 2; 13; 10; 3; 7; 9; 14; 6; 1; 4];
   [7; 3; 13; 11; 9; 1; 12; 14; 2; 5; 4; 15; 6; 10; 0; 8];
   [9; 5; 2; 10; 0; 7; 4; 15; 14; 11; 6; 3; 1; 12; 8; 13];
   [2; 6; 0; 8; 12; 10; 11; 3; 4; 7; 15; 1; 13; 5; 14; 9];
   [12; 1; 14; 4; 5; 15; 13; 10; 0; 6; 9; 8; 7; 3; 2; 11];
   [13; 7; 12; 3; 11; 14; 1; 9; 5; 15; 8; 2; 0; 4; 6; 10];
   [6; 14; 11; 0; 15; 9; 3; 8; 12; 13; 1; 10; 2; 7; 4; 5];
   [10; 8; 7; 1; 2; 4; 6; 5; 15; 9; 3; 13; 11; 14; 12; 0]]%nat.

(** Addition and rotation to the right of 64-bit words. *)
Definition add64 (x y : Z) : Z := u64 (x + y).
Definition rotr64 (x n : Z) : Z := u64 (Z.lor (Z.shiftr x n) (Z.shiftl x (64 - n))).

Definition at_ (v : list Z) (i : nat) : Z := nth i v 0.
Definition set_ (v : list Z) (i : nat) (x : Z) : list Z := <[i := x]> v.

(** One of the sixteen steps of a round: a word of the message is added to [va], and the four
    words are mixed with two rotations. *)
Definition mix (a b c d : nat) (x r1 r2 : Z) (v : list Z) : list Z :=
  let v := set_ v a (add64 (at_ v a) x) in
  let v := set_ v a (add64 (at_ v a) (at_ v b)) in
  let v := set_ v d (Z.lxor (at_ v d) (at_ v a)) in
  let v := set_ v d (rotr64 (at_ v d) r1) in
  let v := set_ v c (add64 (at_ v c) (at_ v d)) in
  let v := set_ v b (Z.lxor (at_ v b) (at_ v c)) in
  set_ v b (rotr64 (at_ v b) r2).
Definition word (m : list Z) (s : list nat) (i : nat) : Z := at_ m (nth i s 0%nat).
(** The body of the loop. *)
Definition round (m : list Z) (s : list nat) (v : list Z) : list Z :=
  let v := mix 0 4 8 12 (word m s 0) 32 24 v in
  let v := mix 1 5 9 13 (word m s 1) 32 24 v in
  let v := mix 2 6 10 14 (word m s 2) 32 24 v in
  let v := mix 3 7 11 15 (word m s 3) 32 24 v in
  let v := mix 0 4 8 12 (word m s 4) 16 63 v in
  let v := mix 1 5 9 13 (word m s 5) 16 63 v in
  let v := mix 2 6 10 14 (word m s 6) 16 63 v in
  let v := mix 3 7 11 15 (word m s 7) 16 63 v in
  let v := mix 0 5 10 15 (word m s 8) 32 24 v in
  let v := mix 1 6 11 12 (word m s 9) 32 24 v in
  let v := mix 2 7 8 13 (word m s 10) 32 24 v in
  let v := mix 3 4 9 14 (word m s 11) 32 24 v in
  let v := mix 0 5 10 15 (word m s 12) 16 63 v in
  let v := mix 1 6 11 12 (word m s 13) 16 63 v in
  let v := mix 2 7 8 13 (word m s 14) 16 63 v in
  mix 3 4 9 14 (word m s 15) 16 63 v.
(** The loop from the round [i] on, with [n] rounds to go. *)
Fixpoint loop_ (body : nat -> list Z -> list Z) (n i : nat) (v : list Z) : list Z :=
  match n with
  | O => v
  | S n => loop_ body n (S i) (body i v)
  end.
Definition rounds_ (m : list Z) : nat -> nat -> list Z -> list Z :=
  loop_ (fun i => round m (nth (i mod 10) precomputed [])).
Definition fGeneric (h m : list Z) (c0 c1 flag rounds : Z) : list Z :=
  let v := h ++ iv in
  let v := set_ v 12 (Z.lxor (at_ v 12) c0) in
  let v := set_ v 13 (Z.lxor (at_ v 13) c1) in
  let v := set_ v 14 (Z.lxor (at_ v 14) flag) in
  let v := rounds_ m (Z.to_nat rounds) 0 v in
  imap (fun i x => Z.lxor x (Z.lxor (at_ v i) (at_ v (i + 8)))) h.
Definition F (h m c : list Z) (final : bool) (rounds : Z) : list Z :=
  fGeneric h m (at_ c 0) (at_ c 1) (if final then 0xFFFFFFFFFFFFFFFF else 0) rounds.

(** ** RFC 7693 *)

Definition SIGMA : list (list nat) :=
  [[0; 1; 2; 3; 4; 5; 6; 7; 8; 9; 10; 11; 12; 13; 14; 15];
   [14; 10; 4; 8; 9; 15; 13; 6; 1; 12; 0; 2; 11; 7; 5; 3];
   [11; 8; 12; 0; 5; 2; 15; 13; 10; 14; 3; 6; 7; 1; 9; 4];
   [7; 9; 3; 1; 13; 12; 11; 14; 2; 6; 5; 10; 4; 0; 15; 8];
   [9; 0; 5; 7; 2; 4; 10; 15; 14; 1; 11; 12; 6; 8; 3; 13];
   [2; 12; 6; 10; 0; 11; 8; 3; 4; 13; 7; 5; 15; 14; 1; 9];
   [12; 5; 1; 15; 14; 13; 4; 10; 0; 7; 6; 3; 9; 2; 8; 11];
   [13; 11; 7; 14; 12; 1; 3; 9; 5; 0; 15; 4; 8; 6; 2; 10];
   [6; 15; 14; 9; 11; 3; 0; 8; 12; 2; 13; 7; 1; 4; 10; 5];
   [10; 2; 8; 4; 7; 6; 1; 5; 15; 11; 9; 14; 3; 12; 13; 0]]%nat.

(** The mixing function G, with both words of the message. *)
Definition G (a b c d : nat) (x y : Z) (v : list Z) : list Z :=
  let va := add64 (add64 (at_ v a) (at_ v b)) x in
  let vd := rotr64 (Z.lxor (at_ v d) va) 32 in
  let vc := add64 (at_ v c) vd in
  let vb := rotr64 (Z.lxor (at_ v b) vc) 24 in
  let va := add64 (add64 va vb) y in
  let vd := rotr64 (Z.lxor vd va) 16 in
  let vc := add64 vc vd in
  let vb := rotr64 (Z.lxor vb vc) 63 in
  set_ (set_ (set_ (set_ v a va) b vb) c vc) d vd.
Definition rfc_round (m : list Z) (s : list nat) (v : list Z) : list Z :=
  let v := G 0 4 8 12 (word m s 0) (word m s 1) v in
  let v := G 1 5 9 13 (word m s 2) (word m s 3) v in
  let v := G 2 6 10 14 (word m s 4) (word m s 5) v in
  let v := G 3 7 11 15 (word m s 6) (word m s 7) v in
  let v := G 0 5 10 15 (word m s 8) (word m s 9) v in
  let v := G 1 6 11 12 (word m s 10) (word m s 11) v in
  let v := G 2 7 8 13 (word m s 12) (word m s 13) v in
  G 3 4 9 14 (word m s 14) (word m s 15) v.
(** The compression function: the counter [t] of 128 bits goes into two words of the local
    state, and the last block inverts a third. *)
Definition rfc_F (h m : list Z) (t : Z) (f : bool) (r : nat) : list Z :=
  let v := h ++ iv in
  let v := set_ v 12 (Z.lxor (at_ v 12) (t mod 2 ^ 64)) in
  let v := set_ v 13 (Z.lxor (at_ v 13) (t / 2 ^ 64)) in
  let v := if f then set_ v 14 (Z.lxor (at_ v 14) (2 ^ 64 - 1)) else v in
  let v := foldl (fun v i => rfc_round m (nth (i mod 10) SIGMA []) v) v (seq 0 r) in
  imap (fun i x => Z.lxor (Z.lxor x (at_ v i)) (at_ v (i + 8))) h.

(** ** Equivalence *)

Lemma add64_comm x y : add64 x y = add64 y x.
Proof. unfold add64. by rewrite Z.add_comm. Qed.
Lemma add64_swap x y z : add64 (add64 x y) z = add64 (add64 x z) y.
Proof. unfold add64, u64. rewrite !Zplus_mod_idemp_l. f_equal. lia. Qed.

Lemma list16 {A} (v : list A) : length v = 16%nat ->
  exists a b c d e f g h i j k l m n o p, v = [a; b; c; d; e; f; g; h; i; j; k; l; m; n; o; p].
Proof.
  intros H. do 16 (destruct v as [|? v]; [done|]). destruct v; [|done]. by repeat eexists.
Qed.
Lemma length_mix a b c d x r1 r2 v : length (mix a b c d x r1 r2 v) = length v.
Proof. unfold mix, set_. by rewrite !length_insert. Qed.
Lemma length_round m s v : length (round m s v) = length v.
Proof. unfold round. by rewrite !length_mix. Qed.

(** The rows of the two tables name the same words. *)
Definition halves (s : list nat) : list nat :=
  map (fun i => nth i s 0%nat) [0; 2; 4; 6; 1; 3; 5; 7; 8; 10; 12; 14; 9; 11; 13; 15]%nat.
Lemma precomputed_SIGMA : precomputed = map halves SIGMA.
Proof. reflexivity. Qed.

(** A step that adds the word of the message last, as G does. *)
Definition mix_last (a b c d : nat) (x r1 r2 : Z) (v : list Z) : list Z :=
  let va := add64 (add64 (at_ v a) (at_ v b)) x in
  let vd := rotr64 (Z.lxor (at_ v d) va) r1 in
  let vc := add64 (at_ v c) vd in
  let vb := rotr64 (Z.lxor (at_ v b) vc) r2 in
  set_ (set_ (set_ (set_ v a va) b vb) c vc) d vd.

Lemma at_set v i x : (i < length v)%nat -> at_ (set_ v i x) i = x.
Proof. intros H. unfold at_, set_. by rewrite (nth_lookup_Some _ _ _ x) by (by apply list_lookup_insert_eq). Qed.
Lemma at_set_ne v i j x : i <> j -> at_ (set_ v i x) j = at_ v j.
Proof. intros H. unfold at_, set_. by rewrite !nth_lookup, list_lookup_insert_ne. Qed.
Lemma set_set v i x y : set_ (set_ v i x) i y = set_ v i y.
Proof. apply list_insert_insert_eq. Qed.
Lemma mix_last_eq a b c d x r1 r2 v : NoDup [a; b; c; d] -> Forall (fun i => i < length v)%nat [a; b; c; d] ->
  mix a b c d x r1 r2 v = mix_last a b c d x r1 r2 v.
Proof.
  intros Hn Hf. repeat (apply NoDup_cons in Hn as [? Hn]). repeat (apply Forall_cons in Hf as [? Hf]).
  assert (a <> b /\ a <> c /\ a <> d /\ b <> c /\ b <> d /\ c <> d) as (?&?&?&?&?&?) by set_solver.
  unfold mix, mix_last. cbv zeta. repeat (rewrite ?set_set, ?at_set by (unfold set_; rewrite ?length_insert; done); rewrite ?at_set_ne by done).
  rewrite (add64_swap (at_ v a) x). set (va := add64 _ x). set (vd := rotr64 _ r1). set (vc := add64 _ vd).
  unfold set_. rewrite (list_insert_insert_ne _ d c), (list_insert_insert_ne _ d b), (list_insert_insert_ne _ c b) by done. done.
Qed.

Definition distinct16 (l : list nat) : bool := bool_decide (NoDup l) && forallb (fun i => i <? 16)%nat l.
Lemma mix_last_16 a b c d x r1 r2 v : length v = 16%nat -> distinct16 [a; b; c; d] = true -> mix a b c d x r1 r2 v = mix_last a b c d x r1 r2 v.
Proof.
  intros Hv [Hn Hf]%andb_true_iff. apply bool_decide_eq_true in Hn. apply mix_last_eq; [done|]. rewrite Hv. apply Forall_forall. intros i Hi.
  apply Nat.ltb_lt. apply (proj1 (forallb_forall _ _) Hf). by apply list_elem_of_In.
Qed.
(** Within a column or a diagonal the halves of different G's do not interfere. *)
Lemma round_rfc m s v : length s = 16%nat -> length v = 16%nat -> round m (halves s) v = rfc_round m s v.
Proof.
  intros Hs Hv. unfold round. rewrite !mix_last_16 by (rewrite ?length_mix; done).
  destruct (list16 v Hv) as (v0&v1&v2&v3&v4&v5&v6&v7&v8&v9&v10&v11&v12&v13&v14&v15&->).
  destruct (list16 s Hs) as (s0&s1&s2&s3&s4&s5&s6&s7&s8&s9&s10&s11&s12&s13&s14&s15&->).
  unfold rfc_round. cbv - [add64 rotr64 Z.lxor]. reflexivity.
Qed.
Lemma row_eq i : (i < 10)%nat -> nth i precomputed [] = halves (nth i SIGMA []) /\ length (nth i SIGMA []) = 16%nat.
Proof. intros H. do 10 (destruct i as [|i]; [split; reflexivity|]). lia. Qed.
Lemma loop_foldl (f g : nat -> list Z -> list Z) k n i v : (forall i v, length v = k -> f i v = g i v /\ length (f i v) = k) -> length v = k ->
  loop_ f n i v = foldl (fun v i => g i v) v (seq i n).
Proof.
  intros H. revert i v. induction n as [|n IH]; intros i v Hv; [done|]. cbn [loop_ seq foldl]. destruct (H i v Hv) as [He Hl]. by rewrite IH, He.
Qed.
Lemma rounds_rfc m n i v : length v = 16%nat ->
  rounds_ m n i v = foldl (fun v i => rfc_round m (nth (i mod 10) SIGMA []) v) v (seq i n).
Proof.
  apply (loop_foldl _ (fun i => rfc_round m (nth (i mod 10) SIGMA [])) 16). clear i v. intros i v Hv.
  split; [|rewrite length_round; exact Hv]. destruct (row_eq (i mod 10)) as [-> Hl]; [by apply Nat.mod_upper_bound|]. by apply round_rfc.
Qed.


(** The test vector of RFC 7693, appendix A. *)
Definition rfc_h : list Z :=
  [0x6a09e667f2bdc948; 0xbb67ae8584caa73b; 0x3c6ef372fe94f82b; 0xa54ff53a5f1d36f1;
   0x510e527fade682d1; 0x9b05688c2b3e6c1f; 0x1f83d9abfb41bd6b; 0x5be0cd19137e2179].
End Blake2b.
