(* ===== verification/EvmPrecompiles.v ===== *)
(** * Precompiled contracts

    Model of [blockchain/vm/contracts.go]: the costs and the runs of the native contracts, and
    the tables that hold them.  The cryptography that they call is a parameter, except for the
    compression function of BLAKE2b. *)

From Stdlib Require Import Zpow_facts.
From S2P Require Import Prelude Rlp AccountKey EvmWord EvmCode EvmMem EvmParams EvmState Blake2b.

Module Pre.
Export Evm Params.

(** ** The cryptography *)

(** [sha256.Sum256], RIPEMD-160, [crypto.Ecrecover] with no value for an error, the groups of
    [crypto/bn256], [kzg4844.VerifyProof], and what [accountkey] is given. *)
Class Crypto := {
  Sum256 : bytes -> bytes;
  ripemd160 : bytes -> bytes;
  Keccak256 : bytes -> bytes;
  Ecrecover : bytes -> bytes -> option bytes;
  G1 : Type;
  G2 : Type;
  UnmarshalG1 : bytes -> option G1;
  MarshalG1 : G1 -> bytes;
  UnmarshalG2 : bytes -> option G2;
  AddG1 : G1 -> G1 -> G1;
  ScalarMult : G1 -> Z -> G1;
  PairingCheck : list G1 -> list G2 -> bool;
  VerifyProof : bytes -> bytes -> bytes -> bytes -> bool;
  CompressPubkey : PublicKey -> go bytes;
  PubkeyToAddress : PublicKey -> Address;
  IsIstanbulAt : Z -> bool
}.

(** ** Numbers and words in slices *)

(** [big.Int.SetBytes], [BitLen] and [Exp] with a positive modulus. *)
Definition SetBytes (b : bytes) : Z := RLP.from_be (map u8 b).
Definition BitLen (x : Z) : Z := if x =? 0 then 0 else Z.log2 (Z.abs x) + 1.
Definition Exp (x y m : Z) : Z := Zpow_mod x y m.
(** [binary.LittleEndian]. *)
Definition leUint64 (b : bytes) : Z := u64 (SetBytes (rev b)).
Definition lePutUint64 (x : Z) : bytes := rev (RLP.be 8 x).

(** [crypto.ValidateSignatureValues] and [crypto.UnmarshalPubkey]. *)
Definition secp256k1N : Z := 0xfffffffffffffffffffffffffffffffebaaedce6af48a03bbfd25e8cd0364141.
Definition secp256k1halfN : Z := secp256k1N / 2.
Definition ValidateSignatureValues (v r s : Z) (homestead : bool) : bool :=
  if (r <? 1) || (s <? 1) then false
  else if homestead && (secp256k1halfN <? s) then false
  else (r <? secp256k1N) && (s <? secp256k1N) && ((v =? 0) || (v =? 1)).
Definition UnmarshalPubkey (pub : bytes) : res vmPanic (option PublicKey) :=
  if negb (len pub =? 65) then mret None
  else
    t ← index pub 0;
    if negb (t =? 4) then mret None
    else x ← sliceZ pub 1 33; y ← sliceZ pub 33 65; mret (Some (mkPub (SetBytes x) (SetBytes y))).

Section contracts.
Context {vms : VMState} {crypto : Crypto}.

(** A contract whose run is a function of its input. *)
Abbreviation result := (res vmPanic (bytes * option vmError)).
Definition native (gas : bytes -> res vmPanic (Z * Z)) (run : bytes -> result) : PrecompiledContract :=
  mkPrecompiled gas (fun input _ e => r ← run input; let '(ret, err) := (r : bytes * option vmError) in mret (ret, err, e)).

(** ** Recovery, hashes and copies *)

Definition ecrecoverRun (input : bytes) : result :=
  let input := RightPadBytes input 128 in
  rb ← sliceZ input 64 96;
  sb ← sliceZ input 96 128;
  vb ← index input 63;
  let r := SetBytes rb in
  let s := SetBytes sb in
  let v := u8 (vb - 27) in
  pad ← sliceZ input 32 63;
  if negb (allZero pad) || negb (ValidateSignatureValues v r s false) then mret ([], None)
  else
    rs ← sliceZ input 64 128;
    hash ← sliceZ input 0 32;
    match Ecrecover hash (rs ++ [v]) with
    | None => mret ([], None)
    | Some pubKey =>
        p ← sliceZ pubKey 1 (len pubKey);
        h ← sliceZ (Keccak256 p) 12 (len (Keccak256 p));
        mret (LeftPadBytes h 32, None)
    end.
Definition ecrecover : PrecompiledContract :=
  native (fun _ => mret (EcrecoverGas, EcrecoverComputationCost)) ecrecoverRun.

(** Costs by words of 32 bytes, and by items. *)
Definition linear (n perItem base : Z) : Z := u64 (u64 (n * perItem) + base).
Definition n32Bytes (input : bytes) : Z := u64 (i64 (len input + 31)) / 32.

Definition sha256hash : PrecompiledContract :=
  native (fun input => let n := n32Bytes input in
            mret (linear n Sha256PerWordGas Sha256BaseGas, linear n Sha256PerWordComputationCost Sha256BaseComputationCost))
         (fun input => mret (Sum256 input, None)).
Definition ripemd160hash : PrecompiledContract :=
  native (fun input => let n := n32Bytes input in
            mret (linear n Ripemd160PerWordGas Ripemd160BaseGas, linear n Ripemd160PerWordComputationCost Ripemd160BaseComputationCost))
         (fun input => mret (LeftPadBytes (ripemd160 input) 32, None)).
Definition dataCopy : PrecompiledContract :=
  native (fun input => let n := n32Bytes input in
            mret (linear n IdentityPerWordGas IdentityBaseGas, linear n IdentityPerWordComputationCost IdentityBaseComputationCost))
         (fun input => mret (input, None)).

(** ** Modular exponentiation *)

Definition modexpMultComplexity (x : Z) : Z :=
  if x <=? 64 then x * x
  else if x <=? 1024 then x * x / 4 + (96 * x - 3072)
  else x * x / 16 + (480 * x - 199680).
(** What follows the three lengths. *)
Definition operands (input : bytes) : bytes := if 96 <? len input then drop 96 input else [].
Definition word (input : bytes) (start size : Z) : res vmPanic Z := d ← getData input start size; mret (SetBytes d).
(** The length of the exponent that the cost depends on. *)
Definition adjustedExpLen (input : bytes) (baseLen expLen : Z) : res vmPanic Z :=
  expHead ← (if len input <=? baseLen then mret 0
             else if 32 <? expLen then word input (u64 baseLen) 32
             else word input (u64 baseLen) (u64 expLen));
  let bitlen := BitLen expHead in
  let msb := if 0 <? bitlen then bitlen - 1 else 0 in
  mret ((if 32 <? expLen then 8 * (expLen - 32) else 0) + msb).
Definition bigModExpGas (eip2565 : bool) (input : bytes) : res vmPanic (Z * Z) :=
  baseLen ← word input 0 32;
  expLen ← word input 32 32;
  modLen ← word input 64 32;
  adjExpLen ← adjustedExpLen (operands input) baseLen expLen;
  let gas := Z.max modLen baseLen in
  if (eip2565 : bool) then
    let gas := (gas + 7) / 8 in
    let gas := gas * gas in
    let gas := gas * Z.max adjExpLen 1 / 3 in
    if 64 <? BitLen gas then mret (MaxUint64, MaxUint64)
    else if gas <? 200 then mret (200, 200 / 100 + BigModExpBaseComputationCost)
    else mret (gas, u64 (gas / 100 + BigModExpBaseComputationCost))
  else
    let gas := modexpMultComplexity gas * Z.max adjExpLen 1 / 20 in
    if 64 <? BitLen gas then mret (MaxUint64, MaxUint64)
    else mret (gas, u64 (gas / 100 + BigModExpBaseComputationCost)).
Definition bigModExpRun (input : bytes) : result :=
  baseLen ← word input 0 32;
  expLen ← word input 32 32;
  modLen ← word input 64 32;
  let baseLen := u64 baseLen in
  let expLen := u64 expLen in
  let modLen := u64 modLen in
  let input := operands input in
  if (baseLen =? 0) && (modLen =? 0) then mret ([], None)
  else
    base ← word input 0 baseLen;
    exp ← word input baseLen expLen;
    mod_ ← word input (u64 (baseLen + expLen)) modLen;
    if BitLen mod_ =? 0 then mret (LeftPadBytes [] (i64 modLen), None)
    else mret (LeftPadBytes (RLP.minbe (Exp base exp mod_)) (i64 modLen), None).
Definition bigModExp (eip2565 : bool) : PrecompiledContract := native (bigModExpGas eip2565) bigModExpRun.

(** ** The curve bn256 *)

Definition newCurvePoint (blob : bytes) : vmError + G1 := match UnmarshalG1 blob with Some p => inr p | None => inl errCurvePoint end.
Definition newTwistPoint (blob : bytes) : vmError + G2 := match UnmarshalG2 blob with Some p => inr p | None => inl errCurvePoint end.
Definition runBn256Add (input : bytes) : result :=
  xb ← getData input 0 64;
  match newCurvePoint xb with
  | inl err => mret ([], Some err)
  | inr x =>
      yb ← getData input 64 64;
      match newCurvePoint yb with
      | inl err => mret ([], Some err)
      | inr y => mret (MarshalG1 (AddG1 x y), None)
      end
  end.
Definition runBn256ScalarMul (input : bytes) : result :=
  pb ← getData input 0 64;
  match newCurvePoint pb with
  | inl err => mret ([], Some err)
  | inr p => k ← word input 64 32; mret (MarshalG1 (ScalarMult p k), None)
  end.
Definition true32Byte : bytes := replicate 31 0 ++ [1].
Definition false32Byte : bytes := replicate 32 0.
(** The loop over the pairs of points, from the byte [i] on. *)
Fixpoint pairingLoop (fuel : nat) (input : bytes) (i : Z) (cs : list G1) (ts : list G2) : res vmPanic (vmError + list G1 * list G2) :=
  if i <? len input then
    match fuel with
    | O => NoFuel
    | S fuel =>
        cb ← sliceZ input i (i + 64);
        match newCurvePoint cb with
        | inl err => mret (inl err)
        | inr c =>
            tb ← sliceZ input (i + 64) (i + 192);
            match newTwistPoint tb with
            | inl err => mret (inl err)
            | inr t => pairingLoop fuel input (i + 192) (cs ++ [c]) (ts ++ [t])
            end
        end
    end
  else mret (inr (cs, ts)).
Definition runBn256Pairing (input : bytes) : result :=
  if 0 <? len input mod 192 then mret ([], Some errBadPairingInput)
  else
    r ← pairingLoop (length input) input 0 [] [];
    match r with
    | inl err => mret ([], Some err)
    | inr (cs, ts) => mret (if PairingCheck cs ts then true32Byte else false32Byte, None)
    end.

Definition bn256AddIstanbul : PrecompiledContract := native (fun _ => mret (Bn256AddGasIstanbul, Bn256AddComputationCost)) runBn256Add.
Definition bn256AddByzantium : PrecompiledContract := native (fun _ => mret (Bn256AddGasByzantium, Bn256AddComputationCost)) runBn256Add.
Definition bn256ScalarMulIstanbul : PrecompiledContract :=
  native (fun _ => mret (Bn256ScalarMulGasIstanbul, Bn256ScalarMulComputationCost)) runBn256ScalarMul.
Definition bn256ScalarMulByzantium : PrecompiledContract :=
  native (fun _ => mret (Bn256ScalarMulGasByzantium, Bn256ScalarMulComputationCost)) runBn256ScalarMul.
Definition bn256PairingIstanbul : PrecompiledContract :=
  native (fun input => let numParings := u64 (len input / 192) in
            mret (linear numParings Bn256PairingPerPointGasIstanbul Bn256PairingBaseGasIstanbul,
                  linear numParings Bn256ParingPerPointComputationCost Bn256ParingBaseComputationCost)) runBn256Pairing.
Definition bn256PairingByzantium : PrecompiledContract :=
  native (fun input => let numParings := u64 (len input / 192) in
            mret (linear numParings Bn256PairingPerPointGasByzantium Bn256PairingBaseGasByzantium,
                  linear numParings Bn256ParingPerPointComputationCost Bn256ParingBaseComputationCost)) runBn256Pairing.

(** ** BLAKE2b *)

Definition blake2FInputLength : Z := 213.
Definition blake2FGas (input : bytes) : res vmPanic (Z * Z) :=
  if negb (len input =? blake2FInputLength) then mret (0, 0)
  else
    rb ← sliceZ input 0 4;
    let gas := SetBytes rb in
    mret (gas, u64 (Blake2bBaseComputationCost + u64 (Blake2bScaleComputationCost * gas))).
(** Words of eight bytes from [offset] on. *)
Fixpoint words (input : bytes) (offset : Z) (n : nat) : res vmPanic (list Z) :=
  match n with
  | O => mret []
  | S n => b ← sliceZ input offset (offset + 8); l ← words input (offset + 8) n; mret (leUint64 b :: l)
  end.
Definition blake2FRun (input : bytes) : result :=
  if negb (len input =? blake2FInputLength) then mret ([], Some errBlake2FInvalidInputLength)
  else
    flag ← index input 212;
    if negb (flag =? 0) && negb (flag =? 1) then mret ([], Some errBlake2FInvalidFinalFlag)
    else
      rb ← sliceZ input 0 4;
      h ← words input 4 8;
      m ← words input 68 16;
      t ← words input 196 2;
      let h := Blake2b.F h m t (flag =? 1) (SetBytes rb) in
      mret (concat (map lePutUint64 h), None).
Definition blake2F : PrecompiledContract := native blake2FGas blake2FRun.

(** ** Point evaluation (EIP-4844) *)

Definition blobVerifyInputLength : Z := 192.
Definition blobPrecompileReturnValue : bytes :=
  RLP.be 32 4096 ++ RLP.be 32 0x73eda753299d7d483339d80809a1d80553bda402fffe5bfeffffffff00000001.
Definition kZGToVersionedHash (kzg : bytes) : res vmPanic bytes :=
  let h := Sum256 kzg in _ ← index h 0; mret (<[0%nat := 1]> h).
Definition kzgRun (input : bytes) : result :=
  if negb (len input =? blobVerifyInputLength) then mret ([], Some errBlobVerifyInvalidInputLength)
  else
    versionedHash ← sliceZ input 0 32;
    point ← sliceZ input 32 64;
    claim ← sliceZ input 64 96;
    commitment ← sliceZ input 96 144;
    h ← kZGToVersionedHash commitment;
    if negb (bool_decide (h = versionedHash)) then mret ([], Some errBlobVerifyMismatchedVersion)
    else
      proof ← sliceZ input 144 192;
      if negb (VerifyProof commitment point claim proof) then mret ([], Some errBlobVerifyKZGProof)
      else mret (blobPrecompileReturnValue, None).
Definition kzgPointEvaluation : PrecompiledContract :=
  native (fun _ => mret (BlobTxPointEvaluationPrecompileGas, BlobTxPointEvaluationPrecompileComputationCost)) kzgRun.

(** ** The contracts of this chain *)

(** [vmLog]: the message goes to a log file or to the standard output, which are not modelled. *)
Definition vmLog : PrecompiledContract :=
  native (fun input => let l := u64 (len input) in
            mret (linear l VMLogPerByteGas VMLogBaseGas, linear l VMLogPerByteComputationCost VMLogBaseComputationCost))
         (fun _ => mret ([], None)).
Definition feePayer : PrecompiledContract :=
  mkPrecompiled (fun _ => mret (FeePayerGas, FeePayerComputationCost)) (fun _ c e => mret (c_FeePayerAddress c, None, e)).

Definition SignatureLength : Z := 65.
(** The public keys of the signatures, or no value when one cannot be recovered. *)
Fixpoint recoverKeys (n : nat) (msg ptr : bytes) : res vmPanic (option (list PublicKey)) :=
  match n with
  | O => mret (Some [])
  | S n =>
      sig ← sliceZ ptr 0 SignatureLength;
      match Ecrecover msg sig with
      | None => mret None
      | Some p =>
          pk ← UnmarshalPubkey p;
          match pk with
          | None => mret None
          | Some pk => rest ← recoverKeys n msg (drop 65 ptr); mret (cons pk <$> rest)
          end
      end
  end.
(** [validateSender]: whether the signatures of the message are those of the account's key. *)
Definition validateSenderCheck (number : Z) (input : bytes) : EVM -> res vmPanic (bool * EVM) := fun e =>
  if len input <? 20 then mret (false, e)
  else
    from ← sliceZ input 0 20;
    let from := BytesToAddress from in
    let ptr := drop 20 input in
    if len ptr <? 32 then mret (false, e)
    else
      msg ← sliceZ ptr 0 32;
      let ptr := drop 32 ptr in
      if negb (len ptr mod SignatureLength =? 0) then mret (false, e)
      else
        pubs ← recoverKeys (Z.to_nat (len ptr / SignatureLength)) msg ptr;
        match pubs with
        | None => mret (false, e)
        | Some pubs =>
            let '(k, db) := dbGetKey from (evm_StateDB e) in
            let e := setDB db e in
            match ValidateAccountKey CompressPubkey PubkeyToAddress IsIstanbulAt number from k pubs RoleTransaction with
            | Ok _ => mret (true, e)
            | Err _ => mret (false, e)
            | Panic => Panic
            | NoFuel => NoFuel
            end
        end.
Definition validateSender (number : Z) : PrecompiledContract :=
  mkPrecompiled (fun input => let numSigs := u64 (len input / SignatureLength) in
                   mret (u64 (numSigs * ValidateSenderGas),
                         linear numSigs ValidateSenderPerSigComputationCost ValidateSenderBaseComputationCost))
    (fun input _ e => r ← validateSenderCheck (u64 number) input e;
       let '(valid, e) := (r : bool * EVM) in mret ([if valid then 1 else 0], None, e)).

(** ** The tables *)

(** The contracts of a fork, for the block with this number. *)
Definition ContractsByzantium (number : Z) : gmap Address PrecompiledContract := list_to_map [
  (BytesToAddress [1], ecrecover); (BytesToAddress [2], sha256hash); (BytesToAddress [3], ripemd160hash);
  (BytesToAddress [4], dataCopy); (BytesToAddress [5], bigModExp false); (BytesToAddress [6], bn256AddByzantium);
  (BytesToAddress [7], bn256ScalarMulByzantium); (BytesToAddress [8], bn256PairingByzantium);
  (BytesToAddress [9], vmLog); (BytesToAddress [10], feePayer); (BytesToAddress [11], validateSender number)].
Definition ContractsIstanbul (number : Z) : gmap Address PrecompiledContract := list_to_map [
  (BytesToAddress [1], ecrecover); (BytesToAddress [2], sha256hash); (BytesToAddress [3], ripemd160hash);
  (BytesToAddress [4], dataCopy); (BytesToAddress [5], bigModExp false); (BytesToAddress [6], bn256AddIstanbul);
  (BytesToAddress [7], bn256ScalarMulIstanbul); (BytesToAddress [8], bn256PairingIstanbul); (BytesToAddress [9], blake2F);
  (BytesToAddress [3; 253], vmLog); (BytesToAddress [3; 254], feePayer); (BytesToAddress [3; 255], validateSender number)].
Definition ContractsKore (number : Z) : gmap Address PrecompiledContract := list_to_map [
  (BytesToAddress [1], ecrecover); (BytesToAddress [2], sha256hash); (BytesToAddress [3], ripemd160hash);
  (BytesToAddress [4], dataCopy); (BytesToAddress [5], bigModExp true); (BytesToAddress [6], bn256AddIstanbul);
  (BytesToAddress [7], bn256ScalarMulIstanbul); (BytesToAddress [8], bn256PairingIstanbul); (BytesToAddress [9], blake2F);
  (BytesToAddress [3; 253], vmLog); (BytesToAddress [3; 254], feePayer); (BytesToAddress [3; 255], validateSender number)].
Definition ContractsCancun (number : Z) : gmap Address PrecompiledContract := list_to_map [
  (BytesToAddress [1], ecrecover); (BytesToAddress [2], sha256hash); (BytesToAddress [3], ripemd160hash);
  (BytesToAddress [4], dataCopy); (BytesToAddress [5], bigModExp true); (BytesToAddress [6], bn256AddIstanbul);
  (BytesToAddress [7], bn256ScalarMulIstanbul); (BytesToAddress [8], bn256PairingIstanbul); (BytesToAddress [9], blake2F);
  (BytesToAddress [10], kzgPointEvaluation);
  (BytesToAddress [3; 253], vmLog); (BytesToAddress [3; 254], feePayer); (BytesToAddress [3; 255], validateSender number)].

(** [ActivePrecompiles]: the addresses of the table of the fork, and after Istanbul also those
    that contracts deployed before it use; [keys] stands for the order in which Go walks a map. *)
Definition ActivePrecompiles (keys : gset Address -> list Address) (rules : Rules) : list Address :=
  let addrs := if IsCancun rules then keys (dom (ContractsCancun 0))
               else if IsIstanbul rules then keys (dom (ContractsIstanbul 0))
               else keys (dom (ContractsByzantium 0)) in
  if IsIstanbul rules then addrs ++ [BytesToAddress [10]; BytesToAddress [11]] else addrs.

(** The context of a run, with the tables in place. *)
Definition newEnv (c : BlockContext) (t : TxContext) (cfg : Config) (chainID : Z) (rules : Rules) (abort : nat -> Z) : Env :=
  mkEnv c t cfg chainID rules abort Keccak256 (ContractsByzantium (BlockNumber c)) (ContractsIstanbul (BlockNumber c))
    (ContractsKore (BlockNumber c)) (ContractsCancun (BlockNumber c)).
End contracts.
End Pre.
