(* ===== verification/EvmPreSpec.v ===== *)
(** * What the precompiled contracts guarantee

    Within the gas there can be, no precompiled contract faults or changes more of the machine
    than it may; and the modular exponentiation computes what EIP-198 says. *)

From Stdlib Require Import Zpow_facts.
From S2P Require Import Prelude Rlp AccountKey EvmWord EvmCode EvmMem EvmParams EvmState EvmGas EvmOps EvmTable EvmRun.
From S2P Require Import EvmSpec EvmInv EvmPlain EvmCost EvmStep EvmCalls EvmLoop EvmFrames Blake2b EvmPrecompiles.

Module PreSpec.
Import RLP.
Export Frames Pre.

(** ** Data beyond the end *)

(** [size] bytes of the data from [start] on, where everything past the end is zero. *)
Definition extended (data : bytes) (start size : Z) : bytes :=
  map (fun j => default 0 (data !! (Z.to_nat start + j)%nat)) (seq 0 (Z.to_nat size)).

Lemma getData_extended {E} data start size : len data < 2 ^ 63 -> 0 <= start -> 0 <= size < 2 ^ 63 ->
  getData (E:=E) data start size = Ok (extended data start size).
Proof.
  intros Hd H0 Hs. unfold getData. pose proof (len_nonneg data). rewrite (u64_small (len data)) by (unfold is_u64; lia).
  set (st := if len data <? start then len data else start).
  assert (0 <= st <= len data /\ (st = start \/ len data < start /\ st = len data)) as [Hst Hst'] by (unfold st; destruct (Z.ltb_spec (len data) start); lia).
  rewrite u64_small by (unfold is_u64; lia). set (en := if _ <? st + size then _ else _).
  assert (st <= en <= len data /\ (en = st + size \/ en = len data /\ en < st + size)) as [Hen Hen'] by (unfold en; destruct (Z.ltb_spec (len data) (st + size)); lia).
  rewrite sliceZ_ok by lia. cbn [mbind res_bind mret res_ret]. f_equal. unfold RightPadBytes. rewrite i64_small by lia.
  set (d := take _ _). assert (len d = en - st) as Hl by (unfold d, len in *; rewrite length_take, length_drop; lia).
  apply list_eq. intros j. unfold extended. rewrite list_lookup_fmap.
  destruct (decide (j < Z.to_nat size)%nat) as [Hj|Hj].
  - rewrite lookup_seq_lt by done. cbn [fmap option_fmap option_map].
    destruct (decide (j < length d)%nat) as [Hjd|Hjd].
    + assert (d !! j = data !! (Z.to_nat start + j)%nat) as Hdj.
      { unfold d. rewrite lookup_take_lt, lookup_drop by (unfold len in *; lia). f_equal. unfold len in *. lia. }
      destruct (lookup_lt_is_Some_2 d j Hjd) as [x Hx]. destruct (size <=? len d); [|rewrite lookup_app_l by done]; by rewrite Nat.add_0_l, Hx, <- Hdj, Hx.
    + rewrite Nat.add_0_l. destruct (Z.leb_spec size (len d)) as [|Hlt]; [unfold len in *; lia|]. rewrite lookup_app_r by lia.
      rewrite lookup_replicate_2 by (unfold len in *; lia). rewrite lookup_ge_None_2; [done|]. unfold len in *. lia.
  - rewrite (lookup_ge_None_2 (seq _ _)) by (rewrite length_seq; lia). cbn. apply lookup_ge_None. destruct (Z.leb_spec size (len d)); [unfold len in *; lia|].
    rewrite length_app, length_replicate. unfold len in *. lia.
Qed.
Lemma extended_bytes data start size : is_bytes data -> is_bytes (extended data start size).
Proof.
  intros H. apply Forall_forall. intros x Hx. unfold extended in Hx. apply list_elem_of_fmap in Hx as (j & -> & _).
  destruct (data !! _) eqn:Hl; [by eapply Forall_lookup_1|by split].
Qed.
Lemma length_extended data start size : length (extended data start size) = Z.to_nat size.
Proof. unfold extended. by rewrite length_map, length_seq. Qed.

(** ** Numbers *)

Lemma SetBytes_bound b : 0 <= SetBytes b < 256 ^ len b.
Proof.
  unfold SetBytes. pose proof (from_be_bound (map u8 b)) as H. unfold len in *. rewrite length_map in H. apply H.
  apply Forall_forall. intros x Hx. apply list_elem_of_fmap in Hx as (y & -> & _). apply u8_range.
Qed.
Lemma SetBytes_bytes b : is_bytes b -> SetBytes b = from_be b.
Proof. intros H. unfold SetBytes. f_equal. induction H as [|x l Hx _ IH]; [done|]. cbn. by rewrite IH, u8_small. Qed.
Lemma BitLen_0 x : BitLen x = 0 <-> x = 0.
Proof. unfold BitLen. destruct (Z.eqb_spec x 0); [done|]. pose proof (Z.log2_nonneg (Z.abs x)). lia. Qed.

Lemma from_be_zeros k b : from_be (replicate k 0 ++ b) = from_be b.
Proof. unfold from_be. rewrite fold_left_app. f_equal. induction k as [|k IH]; [done|]. by cbn. Qed.
Lemma LeftPad_minbe x n : 0 <= n -> 0 <= x < 256 ^ n -> LeftPadBytes (minbe x) n = be (Z.to_nat n) x.
Proof.
  intros Hn Hx. assert (len (minbe x) <= n) as Hl.
  { destruct (Z.eq_dec x 0) as [->|Hne]; [done|]. rewrite minbe_pos by lia. unfold len. rewrite be_length.
    destruct (nbytes_bounds x ltac:(lia)) as (H1 & Hlo & _). assert (256 ^ (Z.of_nat (nbytes x) - 1) < 256 ^ n) as H by lia. apply Z.pow_lt_mono_r_iff in H; lia. }
  assert (len (LeftPadBytes (minbe x) n) = n) as Hlen.
  { unfold LeftPadBytes. destruct (Z.leb_spec n (len (minbe x))); [lia|]. rewrite len_app. unfold len in *. rewrite length_replicate. lia. }
  assert (from_be (LeftPadBytes (minbe x) n) = x /\ is_bytes (LeftPadBytes (minbe x) n)) as [Hv Hb].
  { unfold LeftPadBytes. destruct (_ <=? _); [split; [apply from_be_minbe; lia|apply minbe_bytes]|]. rewrite from_be_zeros, from_be_minbe by lia. split; [done|].
    apply Forall_app. split; [|apply minbe_bytes]. apply Forall_replicate. by split. }
  rewrite <- (be_from_be _ Hb), Hv. f_equal. unfold len in Hlen. lia.
Qed.

(** The number that [size] bytes of the data from [start] on stand for. *)
Definition num (data : bytes) (start size : Z) : Z := from_be (map u8 (extended data start size)).
Lemma num_bound data start size : 0 <= num data start size < 256 ^ Z.max 0 size.
Proof.
  unfold num. pose proof (SetBytes_bound (extended data start size)) as H. unfold SetBytes, len in H. rewrite length_extended in H.
  replace (Z.of_nat (Z.to_nat size)) with (Z.max 0 size) in H by lia. done.
Qed.
Lemma word_num data start size : len data < 2 ^ 63 -> 0 <= start -> 0 <= size < 2 ^ 63 -> word data start size = Ok (num data start size).
Proof. intros. unfold word. by rewrite getData_extended. Qed.

(** ** The cost of an exponentiation bounds its operands *)

Section modexp.
Context (input : bytes) (Hlen : len input < 2 ^ 63).
Definition lengths : Z * Z * Z := (num input 0 32, num input 32 32, num input 64 32).

Lemma operands_len : len (operands input) < 2 ^ 63.
Proof using Hlen. unfold operands. destruct (_ <? _); [|done]. unfold len in *. rewrite length_drop. lia. Qed.
Lemma adjusted_ok baseLen expLen : 0 <= baseLen -> 0 <= expLen -> exists adj, adjustedExpLen (operands input) baseLen expLen = Ok adj /\ 0 <= adj /\ 8 * (expLen - 32) <= adj.
Proof using Hlen.
  intros Hb He. unfold adjustedExpLen. pose proof operands_len as Ho. pose proof (len_nonneg (operands input)).
  assert (exists head, (if len (operands input) <=? baseLen then mret 0 else if 32 <? expLen then word (operands input) (u64 baseLen) 32
    else word (operands input) (u64 baseLen) (u64 expLen)) = Ok head) as [head ->].
  { destruct (Z.leb_spec (len (operands input)) baseLen); [by eexists|]. rewrite (u64_small baseLen) by (unfold is_u64; lia).
    destruct (Z.ltb_spec 32 expLen); [|rewrite (u64_small expLen) by (unfold is_u64; lia)]; rewrite word_num by lia; by eexists. }
  cbn [mbind res_bind]. eexists. split; [done|]. assert (0 <= BitLen head) by (unfold BitLen; destruct (_ =? 0); [done|]; pose proof (Z.log2_nonneg (Z.abs head)); lia).
  destruct (Z.ltb_spec 0 (BitLen head)), (Z.ltb_spec 32 expLen); lia.
Qed.

(** The operands of an exponentiation that can be paid for are slices. *)
Definition modexp_small (l : Z * Z * Z) : Prop :=
  let '(baseLen, expLen, modLen) := l in (baseLen = 0 /\ modLen = 0) \/ (baseLen < 2 ^ 36 /\ modLen < 2 ^ 36 /\ expLen < 3 * 2 ^ 61).

Lemma complexity_bound x adj : 0 < x -> 1 <= adj -> modexpMultComplexity x * adj / 20 <= gas_max -> x < 2 ^ 36 /\ adj <= 20 * gas_max + 19.
Proof.
  intros Hx Ha Hg. assert (1 <= modexpMultComplexity x /\ (2 ^ 36 <= x -> 2 ^ 68 <= modexpMultComplexity x)) as [H1 H2].
  { unfold modexpMultComplexity. destruct (Z.leb_spec x 64); [nia|]. pose proof (Z.div_mod (x * x) 4 ltac:(lia)). pose proof (Z.mod_pos_bound (x * x) 4 ltac:(lia)).
    pose proof (Z.div_mod (x * x) 16 ltac:(lia)). pose proof (Z.mod_pos_bound (x * x) 16 ltac:(lia)). destruct (Z.leb_spec x 1024); nia. }
  pose proof (Z.div_mod (modexpMultComplexity x * adj) 20 ltac:(lia)). pose proof (Z.mod_pos_bound (modexpMultComplexity x * adj) 20 ltac:(lia)).
  unfold gas_max in *. split; [|nia]. destruct (Z.lt_ge_cases x (2 ^ 36)); [done|]. specialize (H2 ltac:(done)). nia.
Qed.
Lemma complexity2565_bound x adj : 0 < x -> 1 <= adj -> (x + 7) / 8 * ((x + 7) / 8) * adj / 3 <= gas_max -> x < 2 ^ 36 /\ adj <= 20 * gas_max + 19.
Proof.
  intros Hx Ha Hg. pose proof (Z.div_mod (x + 7) 8 ltac:(lia)). pose proof (Z.mod_pos_bound (x + 7) 8 ltac:(lia)). set (y := (x + 7) / 8) in *.
  pose proof (Z.div_mod (y * y * adj) 3 ltac:(lia)). pose proof (Z.mod_pos_bound (y * y * adj) 3 ltac:(lia)). assert (1 <= y * y) by nia.
  unfold gas_max in *. split; [|nia]. destruct (Z.lt_ge_cases x (2 ^ 36)); [done|]. assert (2 ^ 33 <= y) by lia. assert (2 ^ 66 <= y * y) by nia. nia.
Qed.

Lemma bigModExp_costs eip2565 : exists costs, bigModExpGas eip2565 input = Ok costs /\ 0 <= costs.1 /\ (costs.1 <= gas_max -> modexp_small lengths).
Proof using Hlen.
  pose proof (num_bound input 0 32) as Hb. pose proof (num_bound input 32 32) as He. pose proof (num_bound input 64 32) as Hm.
  unfold bigModExpGas. rewrite !word_num by lia. cbn [mbind res_bind]. unfold lengths, modexp_small.
  set (bl := num input 0 32) in *. set (el := num input 32 32) in *. set (ml := num input 64 32) in *.
  destruct (adjusted_ok bl el) as (adj & -> & Ha & Hae); [lia..|]. cbn [mbind res_bind].
  assert (Hsmall : 0 < Z.max ml bl -> Z.max ml bl < 2 ^ 36 /\ Z.max adj 1 <= 20 * gas_max + 19 -> bl = 0 /\ ml = 0 \/ bl < 2 ^ 36 /\ ml < 2 ^ 36 /\ el < 3 * 2 ^ 61)
    by (unfold gas_max; lia).
  assert (Hzero : Z.max ml bl = 0 -> bl = 0 /\ ml = 0) by lia. assert (gas_max < MaxUint64) by done.
  destruct eip2565.
  - set (g := _ / 3). destruct (64 <? BitLen g); [eexists; split; [done|]; cbn [fst]; split; [done|lia]|].
    assert (0 <= g) by (unfold g; apply Z.div_pos; [|done]; pose proof (Z.div_pos (Z.max ml bl + 7) 8); nia).
    assert (g <= gas_max -> modexp_small lengths) as Hg.
    { intros Hg. destruct (Z.eq_dec (Z.max ml bl) 0); [left; auto|]. apply Hsmall; [lia|]. apply complexity2565_bound; [lia..|done]. }
    destruct (Z.ltb_spec g 200); eexists; (split; [done|]); cbn [fst]; (split; [lia|]); intros; apply Hg; unfold gas_max in *; lia.
  - set (g := _ / 20). destruct (64 <? BitLen g); [eexists; split; [done|]; cbn [fst]; split; [done|lia]|]. eexists. split; [done|]. cbn [fst].
    destruct (Z.eq_dec (Z.max ml bl) 0) as [Hz|Hnz]; [split; [unfold g; rewrite Hz; change (modexpMultComplexity 0) with 0; by rewrite Z.mul_0_l|left; auto]|].
    assert (0 <= modexpMultComplexity (Z.max ml bl)) by (unfold modexpMultComplexity; destruct (Z.leb_spec (Z.max ml bl) 64); [nia|];
      pose proof (Z.div_pos (Z.max ml bl * Z.max ml bl) 4); pose proof (Z.div_pos (Z.max ml bl * Z.max ml bl) 16); destruct (Z.leb_spec (Z.max ml bl) 1024); nia).
    split; [unfold g; apply Z.div_pos; nia|]. intros Hg. apply Hsmall; [lia|]. apply complexity_bound; [lia..|done].
Qed.

(** ** Modular exponentiation *)

(** EIP-198: the lengths of the operands, the operands, and the remainder in as many bytes as the
    modulus; data past the end of the input is zero. *)
Definition modexp : bytes :=
  let '(baseLen, expLen, modLen) := lengths in
  let data := drop 96 input in
  let base := num data 0 baseLen in
  let exp := num data baseLen expLen in
  let modulus := num data (baseLen + expLen) modLen in
  be (Z.to_nat modLen) (if modulus =? 0 then 0 else base ^ exp mod modulus).

Lemma operands_drop : operands input = drop 96 input.
Proof. unfold operands. destruct (Z.ltb_spec 96 (len input)) as [|Hl]; [done|]. symmetry. apply drop_ge. unfold len in Hl. lia. Qed.
Lemma bigModExp_value : modexp_small lengths -> bigModExpRun input = Ok (modexp, None).
Proof using Hlen.
  intros Hs. pose proof (num_bound input 0 32) as Hb. pose proof (num_bound input 32 32) as He. pose proof (num_bound input 64 32) as Hm.
  pose proof operands_len as Ho. rewrite operands_drop in Ho.
  unfold bigModExpRun, modexp. rewrite !word_num, operands_drop by lia. cbn [mbind res_bind]. unfold lengths, modexp_small in *.
  set (bl := num input 0 32) in *. set (el := num input 32 32) in *. set (ml := num input 64 32) in *. destruct Hs as [[-> ->]|(H1 & H2 & H3)]; [done|].
  rewrite (u64_small bl), (u64_small el), (u64_small ml), (u64_small (bl + el)) by (unfold is_u64; lia). rewrite !word_num by lia. cbn [mbind res_bind].
  destruct (Z.eqb_spec bl 0) as [Hbz|_], (Z.eqb_spec ml 0) as [Hmz|_]; cbn [andb]; [by rewrite Hmz|..].
  all: set (B := num _ 0 bl); set (X := num _ bl el); pose proof (num_bound (drop 96 input) (bl + el) ml) as HM; set (M := num _ (bl + el) ml) in *.
  all: rewrite Z.max_r in HM by lia; pose proof (BitLen_0 M); destruct (Z.eqb_spec (BitLen M) 0), (Z.eqb_spec M 0); try tauto; rewrite i64_small by lia; do 2 f_equal.
  all: unfold Exp; rewrite ?Zpow_mod_correct by done; first [change (@nil Z) with (minbe 0)|idtac]; apply LeftPad_minbe; try lia.
  all: pose proof (Z.mod_pos_bound (B ^ X) M); lia.
Qed.
End modexp.

(** C29. The modular exponentiation has a cost for every input, and computes what EIP-198 says
    whenever the cost is one that can be paid. *)
Theorem bigModExp_correct eip2565 input : len input < 2 ^ 63 -> exists gas computation, bigModExpGas eip2565 input = Ok (gas, computation) /\ 0 <= gas /\
  (gas <= gas_max -> bigModExpRun input = Ok (modexp input, None)).
Proof.
  intros Hl. destruct (bigModExp_costs input Hl eip2565) as ([gas computation] & Hc & H0 & Hs). exists gas, computation. split_and!; [done..|].
  intros Hg. by apply bigModExp_value, Hs.
Qed.
(** Three to the fifth modulo seven: 3, 5 and 7 in one byte each. *)
Definition demo_modexp : bytes := be 32 1 ++ be 32 1 ++ be 32 1 ++ [3; 5; 7].
Lemma bigModExp_correct_witness : (exists gas computation, bigModExpGas true demo_modexp = Ok (gas, computation) /\ 0 <= gas /\
  (gas <= gas_max -> bigModExpRun demo_modexp = Ok (modexp demo_modexp, None))) /\ bigModExpRun demo_modexp = Ok ([5], None) /\ modexp demo_modexp = [5].
Proof. split; [apply bigModExp_correct; done|split; vm_compute; reflexivity]. Defined.

(** ** Every contract *)

Section contracts.
Context {vms : VMState} {rel : StateRel} {crypto : Crypto}.
Context (hash : bytes -> Hash) {laws : StateLaws hash}.

(** What the cryptography promises: digests have 32 bytes, a recovered key is the encoding of a
    point in 65 bytes, and points can be compressed. *)
Record crypto_ok : Prop := {
  Keccak256_len b : len (Keccak256 b) = 32;
  Sum256_len b : len (Sum256 b) = 32;
  Ecrecover_len h sig p : Ecrecover h sig = Some p -> len p = 65;
  Ecrecover_point h sig p pk : Ecrecover h sig = Some p -> UnmarshalPubkey p = Ok (Some pk) -> point pk;
  CompressPubkey_ok pk : point pk -> exists b, CompressPubkey pk = Ok b /\ is_bytes b /\ len b < 256
}.
Context (Hcrypto : crypto_ok).

(** A run that is a function of the input does not touch the machine. *)
Lemma native_ok gas run :
  (forall input, len input < 2 ^ 63 -> exists costs, gas input = Ok costs /\ 0 <= costs.1 /\ (costs.1 <= gas_max -> exists r, run input = Ok r)) ->
  precompile_ok hash (native gas run).
Proof using laws.
  intros H input Hi. destruct (H input Hi) as (costs & Hc & H0 & Hr). cbn [GetRequiredGasAndComputationCost native]. rewrite Hc. split; [done|].
  intros Hm c e _ He. destruct (Hr Hm) as [[ret err] Hrun]. cbn [RunPrecompiled native]. rewrite Hrun. by apply evm_rel_refl.
Qed.
(** A run that never faults, at a cost that is a number. *)
Lemma native_total gas run : (forall input, exists costs, gas input = Ok costs /\ 0 <= costs.1) -> (forall input, len input < 2 ^ 63 -> exists r, run input = Ok r) ->
  precompile_ok hash (native gas run).
Proof using laws. intros Hg Hr. apply native_ok. intros input Hi. destruct (Hg input) as (costs & Hc & H0). exists costs. split_and!; [done..|]. intros _. by apply Hr. Qed.
Lemma linear_range n p b : 0 <= linear n p b.
Proof. unfold linear. pose proof (u64_range (u64 (n * p) + b)) as H. unfold is_u64 in H. lia. Qed.

Lemma sliceZ_bounds {E} (l : bytes) lo hi : 0 <= lo <= hi -> hi <= len l -> exists b, sliceZ (E:=E) l lo hi = Ok b /\ len b = hi - lo.
Proof. intros H1 H2. rewrite sliceZ_ok by done. eexists. split; [done|]. unfold len in *. rewrite length_take, length_drop. lia. Qed.
Lemma index_ok {E} (l : bytes) i : Z.of_nat i < len l -> exists x, index (E:=E) l i = Ok x.
Proof. intros H. destruct (lookup_lt_is_Some_2 l i) as [x Hx]; [unfold len in H; lia|]. exists x. by apply index_lookup. Qed.

(** The next slice or element of a run is in bounds. *)
Ltac in_bounds :=
  match goal with
  | |- context [sliceZ ?l ?lo ?hi ≫= _] =>
      let b := fresh "b" in let Hl := fresh "Hl" in
      destruct (sliceZ_bounds (E:=vmPanic) l lo hi) as (b & -> & Hl); [lia|lia|]; cbn [mbind res_bind mret res_ret]
  | |- context [index ?l ?i ≫= _] =>
      let x := fresh "x" in destruct (index_ok (E:=vmPanic) l i) as (x & ->); [lia|]; cbn [mbind res_bind]
  end.

Lemma ecrecover_ok : precompile_ok hash ecrecover.
Proof using Hcrypto laws.
  apply native_total; [by eexists|]. intros input Hi. unfold ecrecoverRun. pose proof (RightPad_len input 128) as Hl. set (i := RightPadBytes input 128) in *. clearbody i.
  repeat in_bounds. destruct (_ || _); [by eexists|].
  destruct (Ecrecover _ _) as [p|] eqn:Hp; [|by eexists]. pose proof (Ecrecover_len Hcrypto _ _ _ Hp). in_bounds. match goal with |- context [Keccak256 ?x] => pose proof (Keccak256_len Hcrypto x) end. in_bounds. by eexists.
Qed.
Lemma word_ok input start size : len input < 2 ^ 63 -> 0 <= start -> 0 <= size < 2 ^ 63 -> exists x, word input start size = Ok x.
Proof. intros. rewrite word_num by done. by eexists. Qed.
Lemma runBn256Add_ok input : len input < 2 ^ 63 -> exists r, runBn256Add input = Ok r.
Proof.
  intros Hi. unfold runBn256Add. rewrite !getData_extended by lia. cbn [mbind res_bind]. destruct (newCurvePoint (extended input 0 64)); [by eexists|].
  destruct (newCurvePoint _); by eexists.
Qed.
Lemma runBn256ScalarMul_ok input : len input < 2 ^ 63 -> exists r, runBn256ScalarMul input = Ok r.
Proof.
  intros Hi. unfold runBn256ScalarMul. rewrite getData_extended by lia. cbn [mbind res_bind]. destruct (newCurvePoint _); [by eexists|].
  rewrite word_num by lia. by eexists.
Qed.
Lemma pairingLoop_ok fuel input i cs ts : len input mod 192 = 0 -> i mod 192 = 0 -> 0 <= i -> len input - i <= Z.of_nat fuel ->
  exists r, pairingLoop fuel input i cs ts = Ok r.
Proof.
  intros Hl. revert i cs ts. induction fuel as [|fuel IH]; intros i cs ts Hi H0 Hf; cbn [pairingLoop]; (destruct (Z.ltb_spec i (len input)) as [Hlt|]; [|by eexists]); [lia|].
  assert (i + 192 <= len input) by (pose proof (Z.div_mod i 192 ltac:(lia)); pose proof (Z.div_mod (len input) 192 ltac:(lia)); lia).
  in_bounds. destruct (newCurvePoint b); [by eexists|]. in_bounds. destruct (newTwistPoint b0); [by eexists|]. apply IH; [|lia..].
  rewrite <- Z.add_mod_idemp_l, Hi by lia. done.
Qed.
Lemma runBn256Pairing_ok input : exists r, runBn256Pairing input = Ok r.
Proof.
  unfold runBn256Pairing. pose proof (Z.mod_pos_bound (len input) 192 ltac:(lia)). destruct (Z.ltb_spec 0 (len input mod 192)); [by eexists|].
  destruct (pairingLoop_ok (length input) input 0 [] []) as [[err|[cs ts]] ->]; [lia|done|lia|unfold len; lia|by eexists..].
Qed.
Lemma words_ok input offset n : 0 <= offset -> offset + 8 * Z.of_nat n <= len input -> exists l, words input offset n = Ok l /\ length l = n.
Proof.
  revert offset. induction n as [|n IH]; intros offset H0 Hl; cbn [words]; [by eexists|]. in_bounds. destruct (IH (offset + 8)) as (l & -> & Hn); [lia..|].
  cbn [mbind res_bind]. eexists. split; [done|]. cbn. by rewrite Hn.
Qed.
Lemma blake2FRun_ok input : exists r, blake2FRun input = Ok r.
Proof.
  unfold blake2FRun. destruct (Z.eqb_spec (len input) blake2FInputLength) as [Hl|]; [|by eexists]. unfold blake2FInputLength in Hl. cbn [negb]. repeat in_bounds.
  destruct (_ && _); [by eexists|]. destruct (words_ok input 4 8) as (h & -> & _); [lia..|]. destruct (words_ok input 68 16) as (m & -> & _); [lia..|].
  destruct (words_ok input 196 2) as (t & -> & _); [lia..|]. by eexists.
Qed.
Lemma kzgRun_ok input : exists r, kzgRun input = Ok r.
Proof using Hcrypto.
  unfold kzgRun. destruct (Z.eqb_spec (len input) blobVerifyInputLength) as [Hl|]; [|by eexists]. unfold blobVerifyInputLength in Hl. cbn [negb].
  repeat in_bounds. unfold kZGToVersionedHash. match goal with |- context [Sum256 ?x] => pose proof (Sum256_len Hcrypto x) end. in_bounds.
  cbn [mbind res_bind mret res_ret]. case_bool_decide; cbn [negb]; [|by eexists]. destruct (VerifyProof _ _ _ _); by eexists.
Qed.
Lemma bigModExp_ok eip2565 : precompile_ok hash (bigModExp eip2565).
Proof using laws.
  apply native_ok. intros input Hi. destruct (bigModExp_costs input Hi eip2565) as (costs & Hc & H0 & Hs). exists costs. split_and!; [done..|].
  intros Hm. eexists. apply (bigModExp_value input Hi (Hs Hm)).
Qed.

(** Validation against a sound key returns. *)
Lemma sound_roles keys : sound_key (AccountKeyRoleBased keys) <-> keys <> [] /\ Forall sound_key keys.
Proof.
  cbn. apply and_iff_compat_l. induction keys as [|k keys IH]; [by split|]. rewrite Forall_cons, IH. done.
Qed.
Lemma weigh_returns keys m sum n : Forall weighted_ok keys -> exists r, weigh CompressPubkey keys m sum n = Ok r.
Proof using Hcrypto.
  intros H. revert sum n. induction H as [|k keys [Hk _] _ IH]; intros sum n; cbn [weigh]; [by eexists|].
  destruct (encodeKey_ok CompressPubkey (CompressPubkey_ok Hcrypto) _ Hk) as [b ->]. case_bool_decide; apply IH.
Qed.
Lemma Validate_returns k num r recovered from : sound_key k -> Forall point recovered ->
  exists b, Validate CompressPubkey PubkeyToAddress IsIstanbulAt k num r recovered from = Ok b.
Proof using Hcrypto.
  intros Hk Hr. revert k Hk. fix IH 1. intros k Hk. destruct k as [| |p| |t keys|keys]; [clear IH|clear IH|clear IH|clear IH|clear IH|]; cbn [Validate]; [by eexists| | |by eexists| |].
  1,2: destruct recovered as [|? [|]]; by eexists.
  - unfold validateMultiSig. destruct (_ && _); [by eexists|]. rewrite (recoveredSet_ok CompressPubkey (CompressPubkey_ok Hcrypto)) by done. cbn [mbind res_bind].
    destruct Hk as [_ Hk]. destruct (weigh_returns keys (list_to_set (map (code CompressPubkey) recovered) ∪ ∅) 0 0 Hk) as [[s n] ->]. cbn [mbind res_bind].
    destruct (_ && _); [by eexists|]. destruct (_ <? _); by eexists.
  - apply sound_roles in Hk as [Hne Hall].
    assert (Forall (fun k => sound_key k -> exists b, Validate CompressPubkey PubkeyToAddress IsIstanbulAt k num r recovered from = Ok b) keys) as Hv.
    { clear Hne Hall. induction keys as [|k keys IHk]; constructor; [apply IH|exact IHk]. }
    set (i := if (r <? length keys)%nat then r else RoleTransaction). destruct (lookup_lt_is_Some_2 keys i) as [k Hi].
    { unfold i, RoleTransaction. destruct (Nat.ltb_spec r (length keys)); [done|]. destruct keys; [done|]. cbn. lia. }
    rewrite (index_lookup _ i (Validate CompressPubkey PubkeyToAddress IsIstanbulAt k num r recovered from)) by (by rewrite list_lookup_fmap, Hi).
    cbn [mbind res_bind]. apply (Forall_lookup_1 _ _ _ _ Hv Hi), (Forall_lookup_1 _ _ _ _ Hall Hi).
Qed.

Lemma UnmarshalPubkey_ok p : exists r, UnmarshalPubkey p = Ok r.
Proof.
  unfold UnmarshalPubkey. destruct (Z.eqb_spec (len p) 65) as [Hl|]; [|by eexists]. cbn [negb]. repeat in_bounds. destruct (negb _); by eexists.
Qed.
Lemma recoverKeys_ok n msg ptr : 65 * Z.of_nat n <= len ptr -> exists r, recoverKeys n msg ptr = Ok r /\ forall pubs, r = Some pubs -> Forall point pubs.
Proof using Hcrypto.
  revert ptr. induction n as [|n IH]; intros ptr Hl; cbn [recoverKeys]; [eexists; split; [done|]; by intros ? [= <-]|]. unfold SignatureLength. in_bounds.
  destruct (Ecrecover msg b) as [p|] eqn:Hp; [|by eexists]. destruct (UnmarshalPubkey_ok p) as [[pk|] Hpk]; rewrite Hpk; cbn [mbind res_bind]; [|by eexists].
  destruct (IH (drop 65 ptr)) as (r & -> & Hr); [unfold len in *; rewrite length_drop; lia|]. cbn [mbind res_bind]. eexists. split; [done|].
  destruct r as [pubs|]; [|done]. intros ? [= <-]. constructor; [by eapply Ecrecover_point|by apply Hr].
Qed.
Lemma BytesToAddress_20 b : is_addr (BytesToAddress b).
Proof. unfold is_addr, BytesToAddress. rewrite length_app, length_replicate, length_drop. lia. Qed.
Lemma validateSenderCheck_ok number input e : len input < 2 ^ 63 -> evm_ok hash e ->
  exists b e', validateSenderCheck number input e = Ok (b, e') /\ evm_rel hash e e'.
Proof using Hcrypto laws.
  intros Hi He. pose proof (evm_rel_refl hash e He) as Hre. pose proof (len_nonneg input). unfold validateSenderCheck. destruct (Z.ltb_spec (len input) 20); [by do 2 eexists|].
  in_bounds. assert (len (drop 20 input) = len input - 20) as Hd by (unfold len in *; rewrite length_drop; lia). destruct (Z.ltb_spec (len (drop 20 input)) 32); [by do 2 eexists|].
  in_bounds. destruct (_ =? 0); cbn [negb]; [|by do 2 eexists]. destruct (recoverKeys_ok (Z.to_nat (len (drop 32 (drop 20 input)) / SignatureLength)) b0 (drop 32 (drop 20 input)))
    as (r & -> & Hr).
  { unfold SignatureLength. pose proof (len_nonneg (drop 32 (drop 20 input))). pose proof (Z.div_mod (len (drop 32 (drop 20 input))) 65 ltac:(lia)).
    pose proof (Z.div_pos (len (drop 32 (drop 20 input))) 65). pose proof (Z.mod_pos_bound (len (drop 32 (drop 20 input))) 65). lia. }
  cbn [mbind res_bind]. destruct r as [pubs|]; [|by do 2 eexists]. specialize (Hr pubs eq_refl). pose proof (BytesToAddress_20 b) as Ha. set (from := BytesToAddress b) in *.
  pose proof (law_key (hash:=hash) from _ Ha (eo_db _ _ He)) as Hk. destruct (law_GetKey (hash:=hash) from Ha _ (eo_db _ _ He)) as [Hx Hs].
  destruct (dbGetKey from (evm_StateDB e)) as [k db]. cbn [fst snd] in *. assert (evm_rel hash e (setDB db e)) as Hrel by (apply (evm_rel_db hash); [done|done|]; intros _; by apply law_alike).
  unfold ValidateAccountKey. destruct (Validate_returns k number RoleTransaction pubs from Hk Hr) as [v ->]. destruct v; cbn; by do 2 eexists.
Qed.
Lemma validateSender_ok number : precompile_ok hash (validateSender number).
Proof using Hcrypto laws.
  intros input Hi. cbn. split; [pose proof (u64_range (u64 (len input / SignatureLength) * ValidateSenderGas)) as Hu; unfold is_u64 in Hu; lia|]. intros _ c e _ He.
  destruct (validateSenderCheck_ok (u64 number) input e Hi He) as (b & e' & -> & Hr). exact Hr.
Qed.
Lemma feePayer_ok : precompile_ok hash feePayer.
Proof using laws. intros input Hi. cbn. split; [done|]. intros _ c e _ He. by apply evm_rel_refl. Qed.
Lemma blake2F_ok : precompile_ok hash blake2F.
Proof using laws.
  apply native_total; [|intros; apply blake2FRun_ok]. intros input. unfold blake2FGas. destruct (Z.eqb_spec (len input) blake2FInputLength) as [Hl|]; [|by eexists].
  unfold blake2FInputLength in Hl. cbn [negb]. in_bounds. eexists. split; [done|]. cbn [fst]. pose proof (SetBytes_bound b). lia.
Qed.

(** ** The tables *)

(** The contracts with a fixed cost or a cost by items. *)
Ltac by_items := intros; eexists; split; [reflexivity|first [apply linear_range|done]].
Lemma hashes_ok : precompile_ok hash sha256hash /\ precompile_ok hash ripemd160hash /\ precompile_ok hash dataCopy /\ precompile_ok hash vmLog.
Proof using laws. split_and!; (apply native_total; [by_items|by eexists]). Qed.
Lemma bn256Add_ok : precompile_ok hash bn256AddByzantium /\ precompile_ok hash bn256AddIstanbul.
Proof using laws. split; (apply native_total; [by_items|apply runBn256Add_ok]). Qed.
Lemma bn256ScalarMul_ok : precompile_ok hash bn256ScalarMulByzantium /\ precompile_ok hash bn256ScalarMulIstanbul.
Proof using laws. split; (apply native_total; [by_items|apply runBn256ScalarMul_ok]). Qed.
Lemma bn256Pairing_ok : precompile_ok hash bn256PairingByzantium /\ precompile_ok hash bn256PairingIstanbul.
Proof using laws. split; (apply native_total; [by_items|intros; apply runBn256Pairing_ok]). Qed.
Lemma kzg_ok : precompile_ok hash kzgPointEvaluation.
Proof using Hcrypto laws. apply native_total; [by_items|intros; apply kzgRun_ok]. Qed.

Lemma table_ok (l : list (Address * PrecompiledContract)) : Forall (precompile_ok hash) l.*2 -> precompiles_ok hash (list_to_map l).
Proof.
  intros Hl a p Hp. apply elem_of_list_to_map_2 in Hp. apply (proj1 (Forall_forall _ _) Hl). apply list_elem_of_fmap. by exists (a, p).
Qed.
Lemma tables_ok number : precompiles_ok hash (ContractsByzantium number) /\ precompiles_ok hash (ContractsIstanbul number) /\
  precompiles_ok hash (ContractsKore number) /\ precompiles_ok hash (ContractsCancun number).
Proof using Hcrypto laws.
  split_and!; apply table_ok; cbn [fmap list_fmap snd]; repeat apply Forall_cons_2; try apply Forall_nil_2.
  all: first [apply ecrecover_ok | apply hashes_ok | apply bigModExp_ok | apply bn256Add_ok | apply bn256ScalarMul_ok | apply bn256Pairing_ok | apply blake2F_ok
             | apply kzg_ok | apply feePayer_ok | apply validateSender_ok].
Qed.
Lemma newEnv_ok c t cfg chainID rules abort : env_ok hash (newEnv c t cfg chainID rules abort).
Proof using Hcrypto laws. by destruct (tables_ok (BlockNumber c)) as (? & ? & ? & ?). Qed.
End contracts.
End PreSpec.
