(* ===== verification/EvmMoney.v ===== *)
(** * Money in the virtual machine

    What a call does to the balances: it moves amounts between finitely many accounts, creates
    none, and leaves no account with less than nothing.  Amounts are only ever lost, by contracts
    that destroy themselves. *)

From S2P Require Import Prelude Rlp AccountKey EvmWord EvmCode EvmMem EvmParams EvmState EvmGas EvmOps EvmTable EvmRun EvmSpec.

(** ** Sums over finite sets *)

Module Sums.
Section sums.
Context {K : Type} `{Countable K}.

Definition over (X : gset K) (f : K -> Z) : Z := foldr Z.add 0 (f <$> elements X).

Lemma foldr_perm (l k : list Z) : l ≡ₚ k -> foldr Z.add 0 l = foldr Z.add 0 k.
Proof. induction 1; cbn; lia. Qed.
Lemma foldr_app_sum (l k : list Z) : foldr Z.add 0 (l ++ k) = foldr Z.add 0 l + foldr Z.add 0 k.
Proof. induction l; cbn; lia. Qed.
Lemma over_empty f : over ∅ f = 0.
Proof. done. Qed.
Lemma over_singleton x f : over {[x]} f = f x.
Proof. unfold over. rewrite elements_singleton. cbn. lia. Qed.
Lemma over_union X Y f : X ## Y -> over (X ∪ Y) f = over X f + over Y f.
Proof.
  intros Hd. unfold over. rewrite <- foldr_app_sum, <- fmap_app. by apply foldr_perm, fmap_Permutation, elements_disj_union.
Qed.
Lemma over_ext X f g : (forall x, x ∈ X -> f x = g x) -> over X f = over X g.
Proof.
  intros Hf. unfold over. f_equal. apply list_fmap_ext. intros i x Hx. apply Hf, elem_of_elements. by eapply list_elem_of_lookup_2.
Qed.
Lemma over_zero X f : (forall x, x ∈ X -> f x = 0) -> over X f = 0.
Proof.
  intros Hf. rewrite (over_ext X f (fun _ => 0)) by done. unfold over. induction (elements X); cbn; lia.
Qed.
Lemma over_add X f g : over X (fun x => f x + g x) = over X f + over X g.
Proof. unfold over. induction (elements X); cbn; lia. Qed.
Lemma over_sub X f g : over X (fun x => f x - g x) = over X f - over X g.
Proof. unfold over. induction (elements X); cbn; lia. Qed.
(** Elements on which the function is zero do not count. *)
Lemma over_superset X Y f : X ⊆ Y -> (forall x, x ∈ Y -> x ∉ X -> f x = 0) -> over Y f = over X f.
Proof.
  intros Hs Hf. rewrite (union_difference_L X Y Hs), over_union by set_solver. rewrite (over_zero (Y ∖ X)); [lia|]. set_solver.
Qed.
End sums.
End Sums.

Module Money.
Export Spec Sums.

Section money.
Context {vms : VMState} {rel : StateRel}.

(** ** Balances *)

Definition bal (s : DB) (a : Address) : Z := (dbGetBalance a s).1.
(** No account owes anything. *)
Definition solvent (s : DB) : Prop := forall a, is_addr a -> 0 <= bal s a.
(** The balances of finitely many accounts changed, by [d] in all. *)
Definition gains (s s' : DB) (d : Z) : Prop := exists X : gset Address, (forall a, a ∈ X -> is_addr a) /\
  (forall a, is_addr a -> a ∉ X -> bal s' a = bal s a) /\ over X (fun a => bal s' a - bal s a) = d.
(** A change of one account. *)
Definition shifts (a : Address) (d : Z) (s s' : DB) : Prop :=
  forall b, is_addr b -> bal s' b = bal s b + (if bool_decide (b = a) then d else 0).
(** No balance changed. *)
Definition level (s s' : DB) : Prop := ext s s' /\ forall a, is_addr a -> bal s' a = bal s a.
(** Nothing was gained, and no account went below zero. *)
Definition tame (s s' : DB) : Prop := ext s s' /\ (solvent s -> solvent s' /\ exists d, d <= 0 /\ gains s s' d).

Lemma gains_none s s' : (forall a, is_addr a -> bal s' a = bal s a) -> gains s s' 0.
Proof. intros H. exists ∅. split_and!; [set_solver|auto|done]. Qed.
Lemma gains_one a d s s' : is_addr a -> shifts a d s s' -> gains s s' d.
Proof.
  intros Ha H. exists {[a]}. split_and!; [by intros b ->%elem_of_singleton| |].
  - intros b Hb Hn. rewrite (H b Hb), bool_decide_eq_false_2 by set_solver. lia.
  - rewrite over_singleton, (H a Ha), bool_decide_eq_true_2 by done. lia.
Qed.
Lemma gains_trans s1 s2 s3 d1 d2 : gains s1 s2 d1 -> gains s2 s3 d2 -> gains s1 s3 (d1 + d2).
Proof.
  intros (X & HX & H1 & <-) (Y & HY & H2 & <-). exists (X ∪ Y). split_and!.
  - intros a [?|?]%elem_of_union; auto.
  - intros a Ha Hn. rewrite H2, H1; set_solver.
  - rewrite <- (over_superset X (X ∪ Y)) by (set_solver || (intros a [?|?]%elem_of_union ?; [done|]; rewrite H1 by auto; lia)).
    rewrite <- (over_superset Y (X ∪ Y)) by (set_solver || (intros a [?|?]%elem_of_union ?; [|done]; rewrite H2 by auto; lia)).
    rewrite <- over_add. apply over_ext. intros a _. lia.
Qed.
(** What was gained is determined. *)
Lemma gains_unique s s' d1 d2 : gains s s' d1 -> gains s s' d2 -> d1 = d2.
Proof.
  intros (X & HX & H1 & <-) (Y & HY & H2 & <-).
  rewrite <- (over_superset X (X ∪ Y)) by (set_solver || (intros a [?|?]%elem_of_union ?; [done|]; rewrite H1 by auto; lia)).
  apply over_superset; [set_solver|]. intros a [?|?]%elem_of_union ?; [|done]. rewrite H2 by auto. lia.
Qed.

Lemma level_trans s1 s2 s3 : level s1 s2 -> level s2 s3 -> level s1 s3.
Proof. intros [X1 H1] [X2 H2]. split; [by eapply ext_trans|]. intros a Ha. by rewrite H2, H1. Qed.
Lemma level_refl s : good s -> level s s.
Proof. intros H. split; [by apply ext_refl|done]. Qed.
Lemma tame_refl s : good s -> tame s s.
Proof. intros H. split; [by apply ext_refl|]. intros Hs. split; [done|]. exists 0. split; [done|by apply gains_none]. Qed.
Lemma tame_level s s' : level s s' -> tame s s'.
Proof.
  intros [Hx Hl]. split; [done|]. intros Hs. split; [intros a Ha; rewrite Hl by done; by apply Hs|]. exists 0. split; [done|by apply gains_none].
Qed.
Lemma tame_trans s1 s2 s3 : tame s1 s2 -> tame s2 s3 -> tame s1 s3.
Proof.
  intros [X1 H1] [X2 H2]. split; [by eapply ext_trans|]. intros Hs. destruct (H1 Hs) as [Hs2 (d1 & Hd1 & Hg1)]. destruct (H2 Hs2) as [Hs3 (d2 & Hd2 & Hg2)].
  split; [done|]. exists (d1 + d2). split; [lia|by eapply gains_trans].
Qed.
Lemma tame_good s s' : tame s s' -> good s'.
Proof. intros [H _]. by eapply ext_good. Qed.
Lemma level_good s s' : level s s' -> good s'.
Proof. intros [H _]. by eapply ext_good. Qed.
End money.

(** ** The promises of the state database about balances *)

(** What contracts own includes their balances; [SubBalance] and [AddBalance] change the balance
    of one account by the amount, a destruction empties it, and nothing else touches balances. *)
Class MoneyLaws {vms : VMState} {rel : StateRel} := {
  ml_same s s' a : is_addr a -> same s s' -> bal s' a = bal s a;
  ml_SubBalance a v s : is_addr a -> good s -> shifts a (- v) s (dbSubBalance a v s);
  ml_AddBalance a v s : is_addr a -> good s -> shifts a v s (dbAddBalance a v s);
  ml_SelfDestruct a s : is_addr a -> good s -> shifts a (- bal s a) s (dbSelfDestruct a s);
  ml_SelfDestruct6780 a s : is_addr a -> good s -> exists d, (d = 0 \/ d = - bal s a) /\ shifts a d s (dbSelfDestruct6780 a s);
  ml_CreateSmartContract a h k f r s b : is_addr a -> is_addr b -> good s -> bal (dbCreateSmartContractAccountWithKey a h k f r s) b = bal s b;
  ml_CreateEOA a h k s b : is_addr a -> is_addr b -> good s -> bal (dbCreateEOA a h k s) b = bal s b;
  ml_IncNonce a s b : is_addr a -> is_addr b -> good s -> bal (dbIncNonce a s) b = bal s b;
  ml_SetNonce a n s b : is_addr a -> is_addr b -> good s -> bal (dbSetNonce a n s) b = bal s b;
  ml_SetCode a c s b : is_addr a -> is_addr b -> good s -> bal (dbSetCode a c s).2 b = bal s b;
  ml_SetState a k v s b : is_addr a -> is_addr b -> good s -> bal (dbSetState a k v s) b = bal s b;
  ml_SetTransientState a k v s b : is_addr b -> bal (dbSetTransientState a k v s) b = bal s b;
  ml_AddLog a t d s b : is_addr b -> bal (dbAddLog a t d s) b = bal s b
}.

Section steps.
Context {vms : VMState} {rel : StateRel} (hash : bytes -> Hash) {laws : StateLaws hash} {money : MoneyLaws}.

Lemma same_level s s' : ext s s' -> same s s' -> level s s'.
Proof using laws money. intros Hx Hs. split; [done|]. intros a Ha. by apply ml_same. Qed.
Lemma alike_level s s' : ext s s' -> alike s s' -> level s s'.
Proof using laws money. intros Hx Hs. apply same_level; [done|]. by apply law_alike. Qed.
Lemma reads_level {A} (f : DB -> A * DB) s : reads f -> good s -> level s (f s).2.
Proof using laws money. intros Hf Hg. destruct (Hf s Hg). by apply alike_level. Qed.
Lemma quiet_level f s : quiet f -> good s -> level s (f s).
Proof using laws money. intros Hf Hg. destruct (Hf s Hg). by apply same_level. Qed.

(** The getters and the changes that leave all balances. *)
Definition flat (f : DB -> DB) : Prop := forall s, good s -> level s (f s).
Lemma flat_quiet f : quiet f -> flat f.
Proof using laws money. intros Hf s Hg. by apply quiet_level. Qed.
Lemma flat_changes f : changes f -> (forall s b, is_addr b -> good s -> bal (f s) b = bal s b) -> flat f.
Proof. intros Hc Hb s Hg. split; [by apply Hc|]. intros a Ha. by apply Hb. Qed.
Lemma flat_IncNonce a : is_addr a -> flat (dbIncNonce a).
Proof using laws money. intros Ha. apply flat_changes; [by apply law_IncNonce|]. intros s b Hb Hg. by apply ml_IncNonce. Qed.
Lemma flat_SetNonce a n : is_addr a -> flat (dbSetNonce a n).
Proof using laws money. intros Ha. apply flat_changes; [by apply law_SetNonce|]. intros s b Hb Hg. by apply ml_SetNonce. Qed.
Lemma flat_SetState a k v : is_addr a -> flat (dbSetState a k v).
Proof using laws money. intros Ha. apply flat_changes; [by apply law_SetState|]. intros s b Hb Hg. by apply ml_SetState. Qed.
Lemma flat_SetTransientState a k v : flat (dbSetTransientState a k v).
Proof using laws money. apply flat_changes; [by apply law_SetTransientState|]. intros s b Hb Hg. by apply ml_SetTransientState. Qed.
Lemma flat_AddLog a t d : flat (dbAddLog a t d).
Proof using laws money. apply flat_changes; [by apply law_AddLog|]. intros s b Hb Hg. by apply ml_AddLog. Qed.
Lemma flat_CreateEOA a h k : is_addr a -> sound_key k -> flat (dbCreateEOA a h k).
Proof using laws money. intros Ha Hk. apply flat_changes; [by apply law_CreateEOA|]. intros s b Hb Hg. by apply ml_CreateEOA. Qed.
Lemma flat_CreateSmartContract a h k f r : is_addr a -> sound_key k -> flat (dbCreateSmartContractAccountWithKey a h k f r).
Proof using laws money. intros Ha Hk. apply flat_changes; [by apply law_CreateSmartContract|]. intros s b Hb Hg. by apply ml_CreateSmartContract. Qed.

(** An amount that is there moves from one account to another. *)
Lemma transfer_tame a b v s : is_addr a -> is_addr b -> good s -> 0 <= v -> v <= bal s a -> tame s (dbAddBalance b v (dbSubBalance a v s)).
Proof using laws money.
  intros Ha Hb Hg Hv Hle. set (s1 := dbSubBalance a v s). assert (ext s s1) as X1 by (by apply law_SubBalance). pose proof (ext_good _ _ X1) as Hg1.
  pose proof (ml_SubBalance a v s Ha Hg) as H1. pose proof (ml_AddBalance b v s1 Hb Hg1) as H2. fold s1 in H1. split; [eapply ext_trans; [exact X1|by apply law_AddBalance]|].
  intros Hs. split.
  - intros c Hc. rewrite (H2 c Hc), (H1 c Hc). specialize (Hs c Hc). repeat case_bool_decide; subst; lia.
  - exists (- v + v). split; [lia|]. eapply gains_trans; eapply gains_one; [exact Ha|exact H1|exact Hb|exact H2].
Qed.
(** A contract gives its balance away and is emptied. *)
Lemma give_tame a b s : is_addr a -> is_addr b -> good s -> tame s (dbSelfDestruct a (dbAddBalance b (bal s a) s)).
Proof using laws money.
  intros Ha Hb Hg. set (v := bal s a). set (s1 := dbAddBalance b v s). assert (ext s s1) as X1 by (by apply law_AddBalance). pose proof (ext_good _ _ X1) as Hg1.
  pose proof (ml_AddBalance b v s Hb Hg) as H1. pose proof (ml_SelfDestruct a s1 Ha Hg1) as H2. fold s1 in H1. split; [eapply ext_trans; [exact X1|by apply law_SelfDestruct]|].
  intros Hs. pose proof (Hs a Ha) as Hva. fold v in Hva. pose proof (H1 a Ha) as H1a. split.
  - intros c Hc. rewrite (H2 c Hc). destruct (bool_decide_reflect (c = a)) as [->|_]; [lia|]. rewrite (H1 c Hc). specialize (Hs c Hc). destruct (bool_decide (c = b)); lia.
  - exists (v + - bal s1 a). split; [|eapply gains_trans; eapply gains_one; [exact Hb|exact H1|exact Ha|exact H2]]. rewrite H1a. fold v. case_bool_decide; lia.
Qed.
Lemma give6780_tame a b s : is_addr a -> is_addr b -> good s ->
  tame s (dbSelfDestruct6780 a (dbAddBalance b (bal s a) (dbSubBalance a (bal s a) s))).
Proof using laws money.
  intros Ha Hb Hg. set (v := bal s a). set (s1 := dbAddBalance b v (dbSubBalance a v s)).
  assert (tame s (dbAddBalance b v (dbSubBalance a v s)) \/ ~ solvent s) as Ht.
  { destruct (decide (0 <= v)); [left; by apply transfer_tame|right; intros Hs; by apply (Hs a) in Ha]. }
  assert (ext s s1) as X1.
  { assert (ext s (dbSubBalance a v s)) as X by (by apply law_SubBalance). eapply ext_trans; [exact X|]. apply law_AddBalance; [done|]. by eapply ext_good. }
  pose proof (ext_good _ _ X1) as Hg1. split; [eapply ext_trans; [exact X1|by apply law_SelfDestruct6780]|]. intros Hs. destruct Ht as [[_ Ht]|Ht]; [|done].
  destruct (Ht Hs) as [Hs1 (d & Hd & Hgn)]. destruct (ml_SelfDestruct6780 a s1 Ha Hg1) as (x & Hx & H2). pose proof (Hs1 a Ha) as H0. fold s1 in H0, Hgn, Hs1. split.
  - intros c Hc. rewrite (H2 c Hc). specialize (Hs1 c Hc). case_bool_decide as E; [rewrite E in *|]; lia.
  - exists (d + x). split; [lia|]. eapply gains_trans; [exact Hgn|]. eapply gains_one; [exact Ha|exact H2].
Qed.
End steps.
End Money.
