(* ===== verification/EvmMoneyDB.v ===== *)
(** * Balances of the state database

    What the operations of [StateDB] do to the balances, as the virtual machine and the
    transactions rely on it. *)

From S2P Require Import Prelude AccountKey StateDB StateRevert EvmWord EvmCode EvmMem EvmParams EvmState EvmGas EvmOps EvmTable EvmRun EvmSpec.
From S2P Require Import EvmStateDB EvmMoney.

Module MoneyDB.
Import AccountKey Account State Revert.
Export Link Money.

Section balances.
Context {env : StateEnv} {bl : Below}.

(** ** The balance of an address *)

Definition amountOf (o : option stateObject) : Z := match live o with Some o => GetBalance (so_account o) | None => 0 end.
Definition balanceOf (s : StateDB) (a : Address) : Z := amountOf (view s a).

Lemma bal_value s a : bal s a = balanceOf s a.
Proof. apply GetBalanceAt_value. Qed.
Lemma balance_equiv s t a : is_addr a -> equiv s t -> balanceOf s a = balanceOf t a.
Proof. intros Ha He. rewrite <- !bal_value. by apply (equiv_same s t He). Qed.
Lemma balance_core s t a : core s = core t -> balanceOf s a = balanceOf t a.
Proof. intros H. unfold balanceOf. by rewrite (view_core s t a H). Qed.
(** Only the loaded objects changed. *)
Lemma balance_objects s t a : sd_trie s = sd_trie t -> sd_snap s = sd_snap t -> sd_stateObjects s !! a = sd_stateObjects t !! a -> balanceOf s a = balanceOf t a.
Proof. intros H1 H2 H3. unfold balanceOf, view. by rewrite H3, (readAccount_same s t) by done. Qed.
Lemma balance_put o s a : balanceOf (setStateObject o s) a = if bool_decide (a = so_address o) then amountOf (Some o) else balanceOf s a.
Proof.
  case_bool_decide as H; [subst; unfold balanceOf, view; fields; by rewrite lookup_insert_eq|]. apply balance_objects; fields; try done. by rewrite lookup_insert_ne.
Qed.
Lemma amount_live o : so_deleted o = false -> amountOf (Some o) = GetBalance (so_account o).
Proof. intros H. unfold amountOf, live. cbn. by rewrite H. Qed.
Lemma GetBalance_SetNonce acc n : GetBalance (SetNonce acc n) = GetBalance acc.
Proof. by destruct acc. Qed.
Lemma GetBalance_SetBalance acc b : GetBalance (SetBalance acc b) = b.
Proof. by destruct acc. Qed.

(** ** Objects that are made *)

Lemma created_object a acc s : keyed s -> exists s0 s2, createObjectWith a acc s = (newborn a acc, live (view s a), s2) /\ equiv s0 s /\
  sd_stateObjects s2 = <[a := newborn a acc]> (sd_stateObjects s0) /\ sd_trie s2 = sd_trie s0 /\ sd_snap s2 = sd_snap s0.
Proof.
  intros Hk. destruct (getDeleted_spec a s Hk) as (s0 & Hg & He & Hk0 & _ & Hl). unfold createObjectWith. rewrite Hg. cbv zeta.
  set (s1 := match sd_snap s0, view s a with Some _, Some p => _ | _, _ => s0 end). eexists s0, _. split; [reflexivity|]. split; [done|].
  assert (sd_stateObjects s1 = sd_stateObjects s0 /\ sd_trie s1 = sd_trie s0 /\ sd_snap s1 = sd_snap s0) as (E1 & E2 & E3).
  { unfold s1. destruct (sd_snap s0) eqn:Hs, (view s a); try done. by case_bool_decide. }
  fields. by rewrite E1, E2, E3.
Qed.
Lemma newborn_amount a acc : amountOf (Some (newborn a acc)) = GetBalance acc.
Proof. rewrite amount_live by done. apply GetBalance_SetNonce. Qed.
(** A creation carries the balance over. *)
Lemma balance_carry a acc s b : is_addr b -> keyed s -> GetBalance acc = 0 -> balanceOf (carryBalance (createObjectWith a acc s)) b = balanceOf s b.
Proof.
  intros Hb Hk Hz. destruct (created_object a acc s Hk) as (s0 & s2 & -> & He & Ho & Ht & Hs). rewrite <- (balance_equiv s0 s b Hb He). unfold carryBalance.
  assert (balanceOf s2 b = if bool_decide (b = a) then 0 else balanceOf s0 b) as H2.
  { case_bool_decide as E; [subst; unfold balanceOf, view; by rewrite Ho, lookup_insert_eq, newborn_amount|]. apply balance_objects; try done. by rewrite Ho, lookup_insert_ne. }
  assert (b = a -> balanceOf s0 b = amountOf (view s a)) as Ha by (intros ->; by apply balance_equiv). unfold amountOf in Ha. destruct (live (view s a)) as [p|].
  - rewrite balance_put. change (so_address (setBalance _ _)) with a. case_bool_decide as E; [|done].
    rewrite (Ha E), amount_live by done. apply GetBalance_SetBalance.
  - rewrite H2. case_bool_decide as E; [by rewrite (Ha E)|done].
Qed.
(** [GetOrNewStateObject] and [GetOrNewSmartContract] return an object with the balance of the address. *)
Lemma balance_getOrNew a acc s : is_addr a -> keyed s -> GetBalance acc = 0 ->
  let r := (let '(o, s) := getStateObject a s in match o with Some o => (o, s) | None => let '(o, _, s) := createObjectWith a acc s in (o, s) end) in
  so_address r.1 = a /\ so_deleted r.1 = false /\ GetBalance (so_account r.1) = balanceOf s a /\ forall b, is_addr b -> balanceOf r.2 b = balanceOf s b.
Proof.
  intros Ha Hk Hz r. subst r. destruct (getStateObject_spec a s Hk) as (s1 & Hg & He & Hk1 & _ & Hl). rewrite Hg.
  assert (forall b, is_addr b -> balanceOf s1 b = balanceOf s b) as H1 by (intros b Hb; by apply balance_equiv).
  destruct (live (view s a)) as [o|] eqn:Hv; cbn [fst snd].
  - pose proof (live_inv _ _ Hv) as [Hvo Hd]. split_and!; [by apply (view_address s)|done| |done]. unfold balanceOf, amountOf. by rewrite Hv.
  - pose proof (balance_carry a acc s1) as Hc. destruct (created_object a acc s1 Hk1) as (s0 & s2 & E & _). rewrite E in *. cbn [fst snd].
    assert (live (view s1 a) = None) as Hn.
    { unfold view. rewrite Hl. destruct (view s a) eqn:Hv'; [done|]. by rewrite (readAccount_same s1 s), (view_none_account s a) by (apply He || done). }
    rewrite Hn in Hc. cbn [carryBalance] in Hc. split_and!; [done|done| |].
    + change (GetBalance (SetNonce acc 0) = balanceOf s a). rewrite GetBalance_SetNonce, Hz. unfold balanceOf, amountOf. by rewrite Hv.
    + intros b Hb. by rewrite Hc, H1.
Qed.
Lemma balance_getOrNewObject a s : is_addr a -> keyed s -> let r := GetOrNewStateObject a s in
  so_address r.1 = a /\ so_deleted r.1 = false /\ GetBalance (so_account r.1) = balanceOf s a /\ forall b, is_addr b -> balanceOf r.2 b = balanceOf s b.
Proof. intros Ha Hk. by apply (balance_getOrNew a newExternallyOwnedAccount). Qed.
Lemma balance_getOrNewContract a s : is_addr a -> keyed s -> let r := GetOrNewSmartContract a s in
  so_address r.1 = a /\ so_deleted r.1 = false /\ GetBalance (so_account r.1) = balanceOf s a /\ forall b, is_addr b -> balanceOf r.2 b = balanceOf s b.
Proof.
  intros Ha Hk. by apply (balance_getOrNew a (newSmartContractAccountWithMap emptyCodeHash (mkValues (Some 1) None (Some false) (Some AccountKeyFail) None None None))).
Qed.
(** The object of [a] is replaced. *)
Lemma balance_replace a e o s b : so_address o = a -> so_deleted o = false ->
  balanceOf (setStateObject o (journalAppend e s)) b = if bool_decide (b = a) then GetBalance (so_account o) else balanceOf s b.
Proof. intros <- Hd. rewrite balance_put. by rewrite amount_live. Qed.

(** ** The operations *)

Lemma balance_AddBalance a v s b : is_addr a -> is_addr b -> keyed s -> balanceOf (AddBalance a v s) b = balanceOf s b + (if bool_decide (b = a) then v else 0).
Proof.
  intros Ha Hb Hk. unfold AddBalance. destruct (balance_getOrNewObject a s Ha Hk) as (H1 & H2 & H3 & H4). destruct (GetOrNewStateObject a s) as [o s1]. cbn [fst snd] in *.
  destruct (Z.eqb_spec v 0) as [->|_].
  - replace (if bool_decide (b = a) then 0 else 0) with 0 by (by case_bool_decide). rewrite Z.add_0_r, <- H4 by done. destruct (empty_ o); [|done].
    unfold touch. case_bool_decide; by apply balance_core.
  - unfold objSetBalance. rewrite (balance_replace a) by done. case_bool_decide as E; [|by rewrite H4, Z.add_0_r]. change (so_account (setBalance ?x o)) with (SetBalance (so_account o) x).
    by rewrite GetBalance_SetBalance, H3, E.
Qed.
Lemma balance_SubBalance a v s b : is_addr a -> is_addr b -> keyed s -> balanceOf (SubBalance a v s) b = balanceOf s b + (if bool_decide (b = a) then - v else 0).
Proof.
  intros Ha Hb Hk. unfold SubBalance. destruct (balance_getOrNewObject a s Ha Hk) as (H1 & H2 & H3 & H4). destruct (GetOrNewStateObject a s) as [o s1]. cbn [fst snd] in *.
  destruct (Z.eqb_spec v 0) as [->|_].
  - rewrite H4 by done. case_bool_decide; lia.
  - unfold objSetBalance. rewrite (balance_replace a) by done. case_bool_decide as E; [|by rewrite H4, Z.add_0_r]. change (so_account (setBalance ?x o)) with (SetBalance (so_account o) x).
    by rewrite GetBalance_SetBalance, H3, E.
Qed.
(** Replacing an object by one with its balance. *)
Lemma balance_rewrite a e o o' s s1 b : is_addr b -> so_address o = a -> GetBalance (so_account o) = balanceOf s a -> (forall b, is_addr b -> balanceOf s1 b = balanceOf s b) ->
  so_address o' = so_address o -> so_deleted o' = false -> GetBalance (so_account o') = GetBalance (so_account o) ->
  balanceOf (setStateObject o' (journalAppend e s1)) b = balanceOf s b.
Proof.
  intros Hb Ha Hv Hs Ha' Hd' Hv'. rewrite (balance_replace a) by (done || congruence). case_bool_decide as E; [by rewrite Hv', Hv, E|by apply Hs].
Qed.
Lemma balance_nonce a n s b : is_addr a -> is_addr b -> keyed s -> balanceOf (let '(o, s) := GetOrNewStateObject a s in objSetNonce (n o) o s) b = balanceOf s b.
Proof.
  intros Ha Hb Hk. destruct (balance_getOrNewObject a s Ha Hk) as (H1 & H2 & H3 & H4). destruct (GetOrNewStateObject a s) as [o s1]. cbn [fst snd] in *.
  apply (balance_rewrite a _ o); try done. apply GetBalance_SetNonce.
Qed.
Lemma balance_SetCode a c s b : is_addr a -> is_addr b -> keyed s -> balanceOf (SetCode a c s).2 b = balanceOf s b.
Proof.
  intros Ha Hb Hk. unfold SetCode. destruct (balance_getOrNewContract a s Ha Hk) as (H1 & H2 & H3 & H4). destruct (GetOrNewSmartContract a s) as [o s1]. cbn [fst snd] in *.
  destruct (Code_spec s1 o) as [_ He]. destruct (Code o) as [prev o']. cbn [fst snd] in *. destruct He as [E1 E2 _ E4 _ _ _ _ _].
  apply (balance_rewrite a _ o); try done; unfold setCode; destruct (isProgram _); try done; objfields; try congruence. rewrite E2. by destruct (so_account o).
Qed.
Lemma balance_SetState a k v s b : is_addr a -> is_addr b -> keyed s -> balanceOf (SetState a k v s) b = balanceOf s b.
Proof.
  intros Ha Hb Hk. unfold SetState. destruct (balance_getOrNewContract a s Ha Hk) as (H1 & H2 & H3 & H4). destruct (GetOrNewSmartContract a s) as [o s1]. cbn [fst snd] in *.
  destruct (objGetState_spec s1 o k) as [_ He]. destruct (objGetState s1 o k) as [prev o']. cbn [fst snd] in *. destruct He as [E1 E2 _ E4 _ _ _ _ _].
  case_bool_decide.
  - rewrite balance_put, amount_live by congruence. rewrite E1, H1. case_bool_decide as E; [by rewrite E2, H3, E|by apply H4].
  - apply (balance_rewrite a _ o); try done; objfields; congruence.
Qed.
Lemma balance_SelfDestruct a s b : is_addr a -> is_addr b -> keyed s -> balanceOf (SelfDestruct a s) b = if bool_decide (b = a) then 0 else balanceOf s b.
Proof.
  intros Ha Hb Hk. unfold SelfDestruct. destruct (getStateObject_spec a s Hk) as (s1 & -> & He & Hk1 & _ & _).
  pose proof (balance_equiv s1 s b Hb He) as H1. destruct (live (view s a)) as [o|] eqn:Hv.
  - pose proof (live_inv _ _ Hv) as [Hvo Hd]. pose proof (view_address s a o Hk Hvo) as Hoa. rewrite (balance_replace a) by done. case_bool_decide; [|done]. apply GetBalance_SetBalance.
  - rewrite H1. case_bool_decide as E; [|done]. subst. unfold balanceOf, amountOf. by rewrite Hv.
Qed.
Lemma balance_SelfDestruct6780 a s : is_addr a -> keyed s -> exists d, (d = 0 \/ d = - balanceOf s a) /\
  forall b, is_addr b -> balanceOf (SelfDestruct6780 a s) b = balanceOf s b + (if bool_decide (b = a) then d else 0).
Proof.
  intros Ha Hk. unfold SelfDestruct6780. destruct (getStateObject_spec a s Hk) as (s1 & -> & He & Hk1 & _ & _).
  assert (exists d, (d = 0 \/ d = - balanceOf s a) /\ forall b, is_addr b -> balanceOf s1 b = balanceOf s b + (if bool_decide (b = a) then d else 0)) as H1.
  { exists 0. split; [by left|]. intros b Hb. rewrite (balance_equiv s1 s b Hb He). case_bool_decide; lia. }
  destruct (live (view s a)) as [o|]; [|done]. destruct (so_created o); [|done]. exists (- balanceOf s a). split; [by right|]. intros b Hb.
  rewrite balance_SelfDestruct by done. rewrite (balance_equiv s1 s b Hb He). case_bool_decide; subst; lia.
Qed.

(** The state database keeps the promises about balances. *)
#[export] Instance StateDB_money : MoneyLaws.
Proof.
  split; intros; unfold shifts; intros; rewrite ?bal_value;
    repeat match goal with H : good _ |- _ => apply gd_wf in H; apply wf_keyed in H end; change Spec.is_addr with Revert.is_addr in *.
  - match goal with H : same _ _ |- _ => apply sm_balance with (a := a) in H; [|done] end. rewrite <- !bal_value. done.
  - by apply balance_SubBalance.
  - by apply balance_AddBalance.
  - rewrite (balance_SelfDestruct a s) by done. case_bool_decide; subst; lia.
  - destruct (balance_SelfDestruct6780 a s) as (d & Hd & Hs); [done..|]. exists d. rewrite ?bal_value. split; [done|]. intros b Hb. rewrite !bal_value. by apply Hs.
  - by apply balance_carry.
  - by apply balance_carry.
  - by apply (balance_nonce a (fun o => u64 (GetNonce (so_account o) + 1))).
  - by apply (balance_nonce a (fun _ => n)).
  - by apply balance_SetCode.
  - by apply balance_SetState.
  - cbn. unfold SetTransientState. case_bool_decide; [done|]. by apply balance_core.
  - by apply balance_core.
Qed.
End balances.
End MoneyDB.
