(* ===== verification/EvmLedger.v ===== *)
(** * Calls move money

    Every instruction, call and creation of the machine moves amounts between accounts without
    creating any: the loop of the interpreter by induction on its fuel. *)

From S2P Require Import Prelude Rlp AccountKey EvmWord EvmCode EvmMem EvmParams EvmState EvmGas EvmOps EvmTable EvmRun.
From S2P Require Import EvmSpec EvmInv EvmPlain EvmCost EvmStep EvmCalls EvmMoney.

Module Ledger.
Export CallOps Money.

Create HintDb ledger.

Section ledger.
Context {word : Uint256} {wspec : Uint256Spec} {vms : VMState} {rel : StateRel}.
Context (hash : bytes -> Hash) {laws : StateLaws hash} {money : MoneyLaws}.

(** ** Code that moves money *)

Definition dbOf (s : St) : DB := evm_StateDB (s_evm s).
Definition who (s : St) : Address * Address := (c_self (s_contract s), c_CallerAddress (s_contract s)).
(** A call can run: its database is well-formed and its addresses are addresses. *)
Definition sane (s : St) : Prop := good (dbOf s) /\ is_addr (who s).1 /\ is_addr (who s).2.
Definition moves (s s' : St) : Prop := who s' = who s /\ tame (dbOf s) (dbOf s').
(** When the code returns, it has moved money, and its result satisfies [Q]. *)
Definition keeps {A} (m : M A) (Q : A -> Prop) : Prop := forall s a s', sane s -> m s = Ok (a, s') -> Q a /\ moves s s'.
Definition keepsE {A} (m : EM A) (Q : A -> Prop) : Prop := forall e a e', good (evm_StateDB e) -> m e = Ok (a, e') ->
  Q a /\ tame (evm_StateDB e) (evm_StateDB e').

Definition any {A} : A -> Prop := fun _ => True.

Lemma moves_sane s s' : sane s -> moves s s' -> sane s'.
Proof. intros (_ & Ha & Hb) [Hw Ht]. unfold sane. rewrite Hw. split_and!; [by eapply tame_good|done..]. Qed.
Lemma moves_refl s : sane s -> moves s s.
Proof. intros (Hg & _). split; [done|by apply tame_refl]. Qed.
Lemma moves_trans s1 s2 s3 : moves s1 s2 -> moves s2 s3 -> moves s1 s3.
Proof. intros [W1 T1] [W2 T2]. split; [congruence|by eapply tame_trans]. Qed.
(** Other parts of the call changed. *)
Lemma moves_other s s' : sane s -> who s' = who s -> dbOf s' = dbOf s -> moves s s'.
Proof. intros (Hg & _) Hw Hd. split; [done|]. rewrite Hd. by apply tame_refl. Qed.
Lemma moves_level s s' : who s' = who s -> level (dbOf s) (dbOf s') -> moves s s'.
Proof. intros Hw Hl. split; [done|by apply tame_level]. Qed.

Lemma keeps_any {A} (m : M A) Q : keeps m Q -> keeps m any.
Proof. intros H s a s' Hs Hm. destruct (H s a s' Hs Hm). by split. Qed.
Lemma keeps_mret {A} (a : A) (Q : A -> Prop) : Q a -> keeps (mret a) Q.
Proof. intros HQ s b s' Hs [= <- <-]. split; [done|by apply moves_refl]. Qed.
Lemma keeps_mbind {A B} (m : M A) (k : A -> M B) P Q : keeps m P -> (forall a, P a -> keeps (k a) Q) -> keeps (m ≫= k) Q.
Proof.
  intros Hm Hk s b s' Hs H. unfold mbind, M_bind in H. destruct (m s) as [[a s1]| | |] eqn:E; try done.
  destruct (Hm s a s1 Hs E) as [Ha M1]. destruct (Hk a Ha s1 b s') as [Hb M2]; [by eapply moves_sane|done|]. split; [done|by eapply moves_trans].
Qed.
Lemma keeps_get {A} (f : St -> A) (Q : A -> Prop) : (forall s, sane s -> Q (f s)) -> keeps (get f) Q.
Proof. intros HQ s b s' Hs [= <- <-]. split; [by apply HQ|by apply moves_refl]. Qed.
Lemma keeps_look {A} (f : St -> A) : keeps (get f) any.
Proof. by apply keeps_get. Qed.
Lemma keeps_address : keeps address is_addr.
Proof. apply keeps_get. by intros s (_ & Ha & _). Qed.
Lemma keeps_contract : keeps (get s_contract) (fun c => ref_ok (asRef c)).
Proof. apply keeps_get. by intros s (_ & Ha & Hb). Qed.
Lemma keeps_modify f : (forall s, who (f s) = who s /\ dbOf (f s) = dbOf s) -> keeps (modify f) any.
Proof. intros Hf s b s' Hs [= <- <-]. split; [done|]. destruct (Hf s). by apply moves_other. Qed.
Lemma keeps_lifted {A} (r : res vmPanic A) : keeps (lift r) any.
Proof. intros s a s' Hs H. unfold lift in H. destruct r; try done. injection H as <- <-. split; [done|by apply moves_refl]. Qed.
Lemma keeps_dbRead {A} (f : DB -> A * DB) : reads f -> keeps (dbRead f) any.
Proof using laws money.
  intros Hf s a s' Hs H. pose proof (reads_level hash f (dbOf s) Hf (proj1 Hs)) as Hl. unfold dbRead in H. fold (dbOf s) in H.
  destruct (f (dbOf s)) as [x db]. injection H as <- <-. split; [done|]. by apply moves_level.
Qed.
Lemma keeps_dbDo f : flat f -> keeps (dbDo f) any.
Proof. intros Hf s a s' Hs [= <- <-]. split; [done|]. apply moves_level; [done|]. apply Hf, Hs. Qed.
Lemma keeps_dbTry {A} (f : DB -> go A) : keeps (dbTry f) any.
Proof. intros s a s' Hs H. unfold dbTry in H. destruct (f _); try done. injection H as <- <-. split; [done|by apply moves_refl]. Qed.
Lemma keeps_dbChange (f : DB -> go DB) : (forall s s', good s -> f s = Ok s' -> ext s s' /\ same s s') -> keeps (dbChange f) any.
Proof using laws money.
  intros Hf s a s' Hs H. unfold dbChange, dbTry, mbind, M_bind in H. fold (dbOf s) in H. destruct (f (dbOf s)) as [db| | |] eqn:E; try done.
  injection H as <- <-. split; [done|]. destruct (Hf _ _ (proj1 Hs) E). apply moves_level; [done|]. by apply (same_level hash).
Qed.

(** The stack, the memory and the gas are free. *)
Ltac free := intros s a s' Hs H; unfold pop, Back, poke, swap, useGas, UseGas, loadAbort in H; repeat case_match; simplify_eq; (split; [done|by apply moves_other]).
Lemma keeps_pop : keeps pop any.
Proof. free. Qed.
Lemma keeps_Back n : keeps (Back n) any.
Proof. free. Qed.
Lemma keeps_poke x : keeps (poke x) any.
Proof. free. Qed.
Lemma keeps_swap n : keeps (swap n) any.
Proof. free. Qed.
Lemma keeps_useGas g : keeps (useGas g) any.
Proof. free. Qed.
Lemma keeps_loadAbort env : keeps (loadAbort env) any.
Proof. free. Qed.
Lemma keeps_evmDo {A} (f : EM A) Q : keepsE f Q -> keeps (evmDo f) Q.
Proof.
  intros Hf s a s' Hs H. unfold evmDo in H. destruct (f (s_evm s)) as [[x e]| | |] eqn:E; try done. injection H as <- <-.
  destruct (Hf _ _ _ (proj1 Hs) E). by split.
Qed.

(** ** Instructions *)

Lemma keeps_push d : keeps (push d) any.
Proof. by apply keeps_modify. Qed.
Lemma keeps_setRet b : keeps (setRet b) any.
Proof. by apply keeps_modify. Qed.
Lemma keeps_gasBack g : keeps (gasBack g) any.
Proof. by apply keeps_modify. Qed.
Lemma keeps_memRead {A} (f : Memory -> res vmPanic A) : keeps (memRead f) any.
Proof. eapply keeps_mbind; [apply keeps_look|]. intros m _. apply keeps_lifted. Qed.
Lemma keeps_memDo (f : Memory -> res vmPanic Memory) : keeps (memDo f) any.
Proof. eapply keeps_mbind; [apply keeps_look|]. intros m _. eapply keeps_mbind; [apply keeps_lifted|]. intros m' _. by apply keeps_modify. Qed.

(** The getters and changes that the instructions use, of twenty-byte addresses. *)
Ltac side := first [done|apply address_of_word|apply law_GetBalance|apply law_GetCodeSize|apply law_GetCode|apply law_GetCodeHash|apply law_Empty
  |apply law_GetState|apply law_GetCommittedState|apply law_HasSelfDestructed
  |apply (flat_SetState hash)|apply (flat_SetTransientState hash)|apply (flat_AddLog hash)
  |apply (flat_quiet hash), law_AddPreimage|apply (flat_quiet hash), law_AddRefund|apply (flat_quiet hash), law_AddAddress].
Ltac atom := first [apply keeps_address|apply keeps_contract|apply keeps_look|apply keeps_pop|apply keeps_push|apply keeps_Back|apply keeps_poke|apply keeps_swap|apply keeps_useGas
  |apply keeps_loadAbort|apply keeps_lifted|apply keeps_setRet|apply keeps_gasBack|apply keeps_memRead|apply keeps_memDo|apply keeps_dbTry
  |by apply keeps_modify|apply (keeps_dbRead)|apply keeps_dbDo|solve [eauto with ledger]]; repeat side.
Ltac keep_step :=
  match goal with
  | |- keeps (mret _) _ => by apply keeps_mret
  | |- keeps (mbind _ _) _ => first [eapply keeps_mbind; [solve [atom]|intros ? ?]|apply (keeps_mbind _ _ any any); [|intros ? _]]
  | |- keeps (match ?x with _ => _ end) _ => destruct x
  | |- keeps _ _ => solve [atom]
  end.
Ltac keep := repeat keep_step.

Lemma keeps_dup n : keeps (dup n) any.
Proof. unfold dup. keep. Qed.
Lemma keeps_Cancelled env : keeps (Cancelled env) any.
Proof. unfold Cancelled. keep. Qed.
Lemma keeps_isCode p : keeps (isCode p) any.
Proof. unfold isCode. keep. Qed.
#[local] Hint Resolve keeps_dup keeps_Cancelled keeps_isCode : ledger.
Lemma keeps_validJumpdest w : keeps (validJumpdest w) any.
Proof. unfold validJumpdest. keep. Qed.
Lemma keeps_popTopics n : keeps (popTopics n) any.
Proof. induction n; cbn [popTopics]; keep. Qed.
#[local] Hint Resolve keeps_validJumpdest keeps_popTopics : ledger.

(** What a call promises to the instruction that makes it. *)
Record calls_keep (calls : Calls) : Prop := {
  ck_Call caller addr input gas value : ref_ok caller -> is_addr addr -> 0 <= value -> keepsE (callCall calls caller addr input gas value) any;
  ck_CallCode caller addr input gas value : ref_ok caller -> is_addr addr -> keepsE (callCallCode calls caller addr input gas value) any;
  ck_DelegateCall caller addr input gas : ref_ok caller -> is_addr addr -> keepsE (callDelegateCall calls caller addr input gas) any;
  ck_StaticCall caller addr input gas : ref_ok caller -> is_addr addr -> keepsE (callStaticCall calls caller addr input gas) any;
  ck_Create caller code gas value format : ref_ok caller -> 0 <= value -> keepsE (callCreate calls caller code gas value format) any;
  ck_Create2 caller code gas value salt : ref_ok caller -> 0 <= value -> keepsE (callCreate2 calls caller code gas value salt) any
}.

Lemma keeps_finishCall o n r : keeps (finishCall o n r) any.
Proof. unfold finishCall. keep. Qed.
Lemma keeps_finishCreate r : keeps (finishCreate r) any.
Proof. unfold finishCreate, done_. keep. Qed.
#[local] Hint Resolve keeps_finishCall keeps_finishCreate : ledger.

Lemma word_value w : 0 <= (if uIsZero w then 0 else uv w).
Proof using wspec. destruct (uIsZero w); [done|]. apply uv_range. Qed.
Section execute.
Context (env : Env) (calls : Calls) (Hcalls : calls_keep calls).

(** The end of the instructions that destroy a contract: its balance is read and given away. *)
Lemma keeps_give (f : Address -> Z -> DB -> DB) : (forall a s, is_addr a -> good s -> tame s (f a (bal s a) s)) ->
  keeps (a ← address; balance ← dbRead (dbGetBalance a); dbDo (f a balance)) any.
Proof using laws money.
  intros Hf s r s' Hs E. pose proof Hs as (Hg & Ha & _). unfold address, get, dbRead, dbDo, modify, mbind, M_bind in E. cbn [who fst] in Ha.
  pose proof (reads_level hash _ (dbOf s) (law_GetBalance (hash:=hash) _ Ha) Hg) as Hl. fold (dbOf s) in E.
  assert (bal (dbOf s) (c_self (s_contract s)) = (dbGetBalance (c_self (s_contract s)) (dbOf s)).1) as Hb by done.
  destruct (dbGetBalance (c_self (s_contract s)) (dbOf s)) as [v db]. cbn [fst snd] in *. injection E as <- <-. split; [done|]. split; [done|].
  eapply tame_trans; [by apply tame_level|]. rewrite <- Hb, <- (proj2 Hl _ Ha). apply Hf; [done|]. by eapply level_good.
Qed.
Lemma keeps_opSelfdestruct : keeps opSelfdestruct any.
Proof using laws money wspec.
  unfold opSelfdestruct, fail. keep_step. keep_step; [keep|]. eapply keeps_mbind; [apply keeps_pop|]. intros w _ s r s' Hs E.
  eapply (keeps_mbind (x ← address; balance ← dbRead (dbGetBalance x); dbDo (fun db => dbSelfDestruct x (dbAddBalance (uBytes20 w) balance db))) _ any any); [| |exact Hs|].
  - apply (keeps_give (fun x balance db => dbSelfDestruct x (dbAddBalance (uBytes20 w) balance db))). intros x db Hx Hd. by apply (give_tame hash); [|apply address_of_word|].
  - intros ? _. by apply (keeps_mret ([], Some errStopToken)).
  - rewrite <- E. unfold address, get, dbRead, dbDo, modify, mbind, M_bind. by destruct (dbGetBalance _ _).
Qed.
Lemma keeps_opSelfdestruct6780 : keeps opSelfdestruct6780 any.
Proof using laws money wspec.
  unfold opSelfdestruct6780, fail. keep_step. keep_step; [keep|]. eapply keeps_mbind; [apply keeps_pop|]. intros w _ s r s' Hs E.
  eapply (keeps_mbind (x ← address; balance ← dbRead (dbGetBalance x); dbDo (fun db => dbSelfDestruct6780 x (dbAddBalance (uBytes20 w) balance (dbSubBalance x balance db)))) _ any any);
    [| |exact Hs|].
  - apply (keeps_give (fun x balance db => dbSelfDestruct6780 x (dbAddBalance (uBytes20 w) balance (dbSubBalance x balance db)))). intros x db Hx Hd.
    by apply (give6780_tame hash); [|apply address_of_word|].
  - intros ? _. by apply (keeps_mret ([], Some errStopToken)).
  - rewrite <- E. unfold address, get, dbRead, dbDo, modify, mbind, M_bind. by destruct (dbGetBalance _ _).
Qed.

(** The calls of the instructions that call. *)
Lemma keeps_call {A} (f : EM A) : keepsE f any -> keeps (evmDo f) any.
Proof. apply keeps_evmDo. Qed.
Ltac callee := match goal with
  | |- keeps (mbind _ (evmDo _)) _ => eapply keeps_mbind; [apply keeps_call|intros ? _]
  end.
Lemma keeps_calls : keeps (opCall calls) any /\ keeps (opCallCode calls) any /\ keeps (opDelegateCall calls) any /\ keeps (opStaticCall calls) any /\
  keeps (opCreate calls) any /\ keeps (opCreate2 calls) any.
Proof using Hcalls wspec.
  unfold opCall, opCallCode, opDelegateCall, opStaticCall, opCreate, opCreate2, fail.
  split_and!; repeat (callee || keep_step).
  all: first [apply (ck_Call _ Hcalls)|apply (ck_CallCode _ Hcalls)|apply (ck_DelegateCall _ Hcalls)|apply (ck_StaticCall _ Hcalls)
             |apply (ck_Create _ Hcalls)|apply (ck_Create2 _ Hcalls)]; first [done|apply address_of_word|apply word_value].
Qed.
Lemma keeps_execute f : keeps (execute_ env calls f) any.
Proof using Hcalls laws money wspec.
  destruct keeps_calls as (H1 & H2 & H3 & H4 & H5 & H6).
  destruct f; cbn [execute_]; try done; try apply keeps_opSelfdestruct; try apply keeps_opSelfdestruct6780.
  all: unfold opAdd, opSub, opMul, opDiv, opSdiv, opMod, opSmod, opExp, opSignExtend, opNot, opLt, opGt, opSlt, opSgt, opEq, opIszero, opAnd, opOr, opXor, opByte,
    opAddmod, opMulmod, opSHL, opSHR, opSAR, opSha3, opAddress, opBalance, opOrigin, opCaller, opCallValue, opCallDataLoad, opCallDataSize, opCallDataCopy,
    opReturnDataSize, opReturnDataCopy, opExtCodeSize, opCodeSize, opCodeCopy, opExtCodeCopy, opExtCodeHash1052, opExtCodeHash, opGasprice, opBlockhash, opCoinbase,
    opTimestamp, opNumber, opDifficulty, opRandom, opGasLimit, opSelfBalance, opChainID, opBaseFee, opBlobHash, opBlobBaseFee, opPop, opMload, opMstore, opMstore8,
    opMcopy, opSload, opSstore, opTload, opTstore, opJump, opJumpi, opJumpdest, opPc, opMsize, opGas, opReturn, opRevert, opStop, makeLog, opPush0, opPush1,
    makePush, makeDup, makeSwap, binary, done_, fail; keep.
Qed.
End execute.

(** ** Gas functions *)

Definition keepsG {A} (m : G A) (Q : A -> Prop) : Prop := keeps (m : M (vmError + A)) (fun r => match r with inr a => Q a | inl _ => True end).

Lemma keepsG_ret {A} (a : A) (Q : A -> Prop) : Q a -> keepsG (mret a) Q.
Proof. intros HQ s r s' Hs [= <- <-]. split; [done|by apply moves_refl]. Qed.
Lemma keepsG_fail {A} e (Q : A -> Prop) : keepsG (failG e) Q.
Proof. intros s r s' Hs [= <- <-]. split; [done|by apply moves_refl]. Qed.
Lemma keepsG_bind {A B} (m : G A) (k : A -> G B) P Q : keepsG m P -> (forall a, P a -> keepsG (k a) Q) -> keepsG (m ≫= k) Q.
Proof.
  intros Hm Hk s b s' Hs E. unfold mbind, G_bind in E. destruct (m s) as [[[e|a] s1]| | |] eqn:Em; try done.
  - injection E as <- <-. destruct (Hm s _ s1 Hs Em). by split.
  - destruct (Hm s _ s1 Hs Em) as [Ha M1]. destruct (Hk a Ha s1 b s') as [Hb M2]; [by eapply moves_sane|done|]. split; [done|by eapply moves_trans].
Qed.
Lemma keepsG_from {A} (m : M A) Q : keeps m Q -> keepsG (fromM m) Q.
Proof.
  intros Hm s r s' Hs E. unfold fromM in E. destruct (m s) as [[a s1]| | |] eqn:Em; try done. injection E as <- <-. by destruct (Hm s a s1 Hs Em).
Qed.
Lemma keepsG_back n : keepsG (back n) any.
Proof. apply keepsG_from, keeps_Back. Qed.
Lemma keepsG_self : keepsG self is_addr.
Proof. apply keepsG_from, keeps_address. Qed.
Lemma keepsG_addRefund g : keepsG (addRefund g) any.
Proof using laws money. apply keepsG_from, keeps_dbDo, (flat_quiet hash), law_AddRefund. Qed.
Lemma keepsG_subRefund g : keepsG (subRefund g) any.
Proof using laws money. apply keepsG_from, keeps_dbChange. apply law_SubRefund. Qed.
Lemma keepsG_orOverflow r : keepsG (orOverflow r) any.
Proof. unfold orOverflow. destruct (snd r); [apply keepsG_fail|by apply keepsG_ret]. Qed.
Lemma keepsG_slot a k : is_addr a -> keepsG (fromM (dbChange (dbAddSlotToAccessList a k))) any.
Proof using laws money. intros Ha. apply keepsG_from, keeps_dbChange. intros s s' Hg E. by apply (law_AddSlot (hash:=hash) a k). Qed.

Ltac atomG := first [apply keepsG_back|apply keepsG_self|apply keepsG_addRefund|apply keepsG_subRefund|apply keepsG_orOverflow|by apply keepsG_slot
  |apply keepsG_from; solve [atom]|solve [eauto with ledger]].
Ltac keepG_step :=
  match goal with
  | |- keepsG (mret _) _ => by apply keepsG_ret
  | |- keepsG (failG _) _ => apply keepsG_fail
  | |- keepsG (mbind _ _) _ => first [eapply keepsG_bind; [solve [atomG]|intros ? ?]|apply (keepsG_bind _ _ any any); [|intros ? _]]
  | |- keepsG (match ?x with _ => _ end) _ => destruct x
  | |- keepsG _ _ => solve [atomG]
  end.
Ltac keepG := repeat keepG_step.

Lemma keepsG_memoryGasCost n : keepsG (memoryGasCost n) any.
Proof. unfold memoryGasCost. keepG. Qed.
Lemma keepsG_safeAdd x y : keepsG (safeAdd x y) any.
Proof. apply keepsG_orOverflow. Qed.
Lemma keepsG_safeMul x y : keepsG (safeMul x y) any.
Proof. apply keepsG_orOverflow. Qed.
#[local] Hint Resolve keepsG_memoryGasCost keepsG_safeAdd keepsG_safeMul : ledger.
Lemma keepsG_memoryCopierGas n k : keepsG (memoryCopierGas n k) any.
Proof. unfold memoryCopierGas. keepG. Qed.
Lemma keepsG_addCallGas g : keepsG (addCallGas g) any.
Proof. unfold addCallGas. keepG. Qed.
#[local] Hint Resolve keepsG_memoryCopierGas keepsG_addCallGas : ledger.

Lemma keepsG_dynamicGas f n : keepsG (dynamicGas_ f n) any.
Proof using laws money wspec.
  revert n. induction f; intros n'; cbn [dynamicGas_].
  all: unfold gasSStore, gasSStoreEIP2200, makeGasLog, gasSha3, pureMemoryGascost, gasCreate2, gasCreateEip3860, gasCreate2Eip3860, gasExp, gasCall, gasCallCode,
    gasDelegateCall, gasStaticCall, gasSelfdestruct, makeGasSStoreFunc, gasSLoadEIP2929, gasExtCodeCopyEIP2929, gasEip2929AccountCheck,
    makeCallVariantGasCallEIP2929, makeSelfdestructGasFn; keepG.
Qed.

(** ** Turns *)

Lemma keeps_memorySize f : keeps (memorySize f) any.
Proof. destruct f; cbn [memorySize]; unfold memRanges, memRange; keep. Qed.
#[local] Hint Resolve keeps_memorySize : ledger.
Lemma keeps_memoryFor o : keeps (memoryFor o) any.
Proof. unfold memoryFor. keep. Qed.
Lemma keeps_payDynamic o n : keeps (payDynamic o n) any.
Proof using laws money wspec.
  unfold payDynamic. destruct (dynamicGas o) as [g|]; [|keep]. eapply keeps_mbind; [eapply keeps_any; exact (keepsG_dynamicGas g n)|]. intros r _. keep.
Qed.
#[local] Hint Resolve keeps_memoryFor keeps_payDynamic : ledger.
Lemma keeps_prepare env o : keeps (prepare env o) any.
Proof using laws money wspec. unfold prepare. keep. Qed.
Lemma keeps_step env jt calls : calls_keep calls -> keeps (step env jt calls) any.
Proof using laws money wspec.
  intros Hc. unfold step. eapply keeps_mbind; [apply keeps_look|]. intros op _. destruct (jt !! op) as [o|]; [|by apply keeps_mret].
  eapply keeps_mbind; [apply keeps_prepare|]. intros [e|] _; [by apply keeps_mret|]. eapply keeps_mbind; [by apply keeps_execute|]. intros r _. keep.
Qed.

(** ** Calls *)

Lemma bindE {A B} (m : EM A) (k : A -> EM B) e r : (m ≫= k) e = Ok r -> exists a e1, m e = Ok (a, e1) /\ k a e1 = Ok r.
Proof. unfold mbind, EM_bind. destruct (m e) as [[a e1]| | |]; try done. eauto. Qed.
Lemma keepsE_any {A} (m : EM A) Q : keepsE m Q -> keepsE m any.
Proof. intros H e a e' Hg E. destruct (H e a e' Hg E). by split. Qed.
Lemma keepsE_ret {A} (a : A) (Q : A -> Prop) : Q a -> keepsE (mret a) Q.
Proof. intros HQ e b e' Hg [= <- <-]. split; [done|by apply tame_refl]. Qed.
Lemma keepsE_bind {A B} (m : EM A) (k : A -> EM B) P Q : keepsE m P -> (forall a, P a -> keepsE (k a) Q) -> keepsE (m ≫= k) Q.
Proof.
  intros Hm Hk e b e' Hg (a & e1 & E1 & E2)%bindE. destruct (Hm e a e1 Hg E1) as [Ha T1]. destruct (Hk a Ha e1 b e') as [Hb T2]; [by eapply tame_good|done|].
  split; [done|by eapply tame_trans].
Qed.
Lemma keepsE_get {A} (f : EVM -> A) : keepsE (evmGet f) any.
Proof. intros e a e' Hg [= <- <-]. split; [done|by apply tame_refl]. Qed.
Lemma keepsE_modify f : (forall e, evm_StateDB (f e) = evm_StateDB e) -> keepsE (evmModify f) any.
Proof. intros Hf e a e' Hg [= <- <-]. split; [done|]. rewrite Hf. by apply tame_refl. Qed.
Lemma keepsE_lift {A} (r : res vmPanic A) (Q : A -> Prop) : (forall a, r = Ok a -> Q a) -> keepsE (evmLift r) Q.
Proof. intros HQ e a e' Hg E. unfold evmLift in E. destruct r; try done. injection E as <- <-. split; [by apply HQ|by apply tame_refl]. Qed.

(** A getter or a change that leaves all balances. *)
Lemma stRead_level {A} (f : DB -> A * DB) e a e' : reads f -> good (evm_StateDB e) -> stRead f e = Ok (a, e') ->
  a = (f (evm_StateDB e)).1 /\ level (evm_StateDB e) (evm_StateDB e').
Proof using laws money.
  intros Hf Hg E. pose proof (reads_level hash f _ Hf Hg) as Hl. unfold stRead in E. destruct (f (evm_StateDB e)) as [x db]. by injection E as <- <-.
Qed.
Lemma keepsE_read {A} (f : DB -> A * DB) : reads f -> keepsE (stRead f) any.
Proof using laws money. intros Hf e a e' Hg E. destruct (stRead_level f e a e' Hf Hg E). split; [done|by apply tame_level]. Qed.
Lemma keepsE_do f : flat f -> keepsE (stDo f) any.
Proof. intros Hf e a e' Hg [= <- <-]. split; [done|]. by apply tame_level, Hf. Qed.

(** [id] leads back to a state with the balances of [s]. *)
Definition back_to (s : DB) (id : Z) (s' : DB) : Prop := exists g, level s g /\ within id g s'.
Lemma back_to_ext s id s1 s2 : back_to s id s1 -> ext s1 s2 -> back_to s id s2.
Proof. intros (g & Hl & Hw) [_ Hx]. exists g. auto. Qed.
Lemma snapshot_level e id e' : good (evm_StateDB e) -> stRead dbSnapshot e = Ok (id, e') ->
  level (evm_StateDB e) (evm_StateDB e') /\ back_to (evm_StateDB e) id (evm_StateDB e').
Proof using laws money.
  intros Hg E. destruct (law_Snapshot (hash:=hash) _ Hg) as (Hx & Ha & Hw). unfold stRead in E. destruct (dbSnapshot (evm_StateDB e)) as [n db]. injection E as <- <-.
  split; [by apply (alike_level hash)|]. exists (evm_StateDB e). split; [by apply level_refl|done].
Qed.
Lemma revert_tame s e id e' : good (evm_StateDB e) -> back_to s id (evm_StateDB e) -> stChange (dbRevertToSnapshot id) e = Ok (tt, e') ->
  tame s (evm_StateDB e').
Proof using laws money.
  intros Hg (g & Hl & Hw) E. destruct (law_Revert (hash:=hash) id g _ Hg Hw) as (db & Hdb & Hx & Ha). unfold stChange in E. rewrite Hdb in E.
  injection E as <-. apply tame_level. eapply level_trans; [done|]. by apply (alike_level hash).
Qed.
Lemma settle_tame s e id r r' e' : tame s (evm_StateDB e) -> back_to s id (evm_StateDB e) -> settle id r e = Ok (r', e') -> tame s (evm_StateDB e').
Proof using laws money.
  intros Ht Hb E. unfold settle in E. destruct r as [[ret gas] [err|]]; [|by injection E as <- <-].
  apply bindE in E as ([] & e1 & E1 & E2). injection E2 as <- <-. by eapply revert_tame; [eapply tame_good|..].
Qed.

(** ** Running a contract *)

(** A precompiled contract leaves all balances. *)
Definition precompile_flat (p : PrecompiledContract) : Prop := forall input c e r e', good (evm_StateDB e) ->
  RunPrecompiled p input c e = Ok (r, e') -> level (evm_StateDB e) (evm_StateDB e').
Definition precompiles_flat (m : gmap Address PrecompiledContract) : Prop := map_Forall (fun _ p => precompile_flat p) m.
Record env_flat (env : Env) : Prop := {
  flat_Byzantium : precompiles_flat (PrecompiledContractsByzantium env);
  flat_Istanbul : precompiles_flat (PrecompiledContractsIstanbul env);
  flat_Kore : precompiles_flat (PrecompiledContractsKore env);
  flat_Cancun : precompiles_flat (PrecompiledContractsCancun env)
}.
Definition cok (c : Contract) : Prop := is_addr (c_self c) /\ is_addr (c_CallerAddress c).

Section run.
Context (env : Env) (Henv : env_flat env) (lp : bytes -> M exit) (Hlp : forall res, keeps (lp res) any).

Lemma keepsE_GetPrecompiledContractMap a : is_addr a -> keepsE (GetPrecompiledContractMap env a) precompiles_flat.
Proof using Henv laws money.
  intros Ha. eapply keepsE_bind; [by apply keepsE_read, law_GetVmVersion|]. intros v _. apply keepsE_ret. destruct Henv. by repeat case_match.
Qed.
Lemma keepsE_isProgramAccount a b : is_addr a -> is_addr b -> keepsE (isProgramAccount env a b) any.
Proof using Henv laws money.
  intros Ha Hb. eapply keepsE_bind; [by apply keepsE_GetPrecompiledContractMap|]. intros m _. destruct (bool_decide _); [by apply keepsE_ret|].
  by apply keepsE_read, law_IsProgramAccount.
Qed.
Lemma keepsE_RunWith c input : cok c -> keepsE (RunWith env lp c input) any.
Proof using Hlp.
  intros [Ha Hb] e [[ret err] c'] e' Hg E. split; [done|]. unfold RunWith in E. destruct (_ =? 0); [simplify_eq; by apply tame_refl|].
  set (s0 := mkSt 0 [] NewMemory _ _) in E. destruct (lp [] s0) as [[x s]| | |] eqn:El; try done.
  destruct (Hlp [] s0 x s) as [_ [_ Ht]]; [by split_and!|done|]. change (dbOf s0) with (evm_StateDB e) in Ht. cbn [mbind res_bind] in E.
  destruct x; unfold loadAbort in E; cbn [mbind res_bind] in E; by simplify_eq.
Qed.
Lemma keepsE_RunPrecompiled p input c : precompile_flat p -> keepsE (RunPrecompiledContract p input c) any.
Proof.
  intros Hp e [[[ret cost] err] c'] e' Hg E. split; [done|]. unfold RunPrecompiledContract in E. destruct (GetRequiredGasAndComputationCost p input) as [[g k]| | |]; try done.
  cbn [mbind res_bind] in E. destruct (UseGas g c) as [[] c1]; [|simplify_eq; by apply tame_refl].
  destruct (RunPrecompiled p input c1 e) as [[r e1]| | |] eqn:Er; try done. cbn [mbind res_bind] in E. destruct r as [ret' err']. simplify_eq. by eapply tame_level, Hp.
Qed.
Lemma keepsE_run c input : cok c -> keepsE (run env lp c input) any.
Proof using Henv Hlp laws money.
  intros Hc. pose proof Hc as [Ha Hb]. unfold run. eapply (keepsE_bind _ _ (fun p => match p with Some p => precompile_flat p | None => True end)).
  - destruct (c_CodeAddr c) as [a|]; [|by apply keepsE_ret]. eapply keepsE_bind; [by apply keepsE_GetPrecompiledContractMap|]. intros m Hm. apply keepsE_ret.
    destruct (m !! a) eqn:Hl; [|done]. by apply (Hm a).
  - intros [p|] Hp; [|by apply keepsE_RunWith]. eapply keepsE_bind; [by apply keepsE_RunPrecompiled|]. intros [[[ret cost] err] c'] _.
    eapply keepsE_bind; [by apply keepsE_modify|]. intros _ _. by apply keepsE_ret.
Qed.

Lemma keepsE_newContract caller object value gas : keepsE (newContract caller object value gas) (eq (NewContract caller object value gas)).
Proof.
  unfold newContract. eapply keepsE_bind; [|intros [] _; by apply keepsE_ret]. destruct caller; [by apply keepsE_modify..|]. by apply (keepsE_ret tt any).
Qed.
Lemma keepsE_setCallCode a c : is_addr a -> cok c -> keepsE (setCallCode a c) cok.
Proof using laws money.
  intros Ha Hc. eapply keepsE_bind; [by apply keepsE_read, law_GetCodeHash|]. intros h _. eapply keepsE_bind; [by apply keepsE_read, law_GetCode|].
  intros code _. by apply keepsE_ret.
Qed.
(** From a snapshot on: running the code and settling. *)
Lemma runCode_tame s addr input c id e r e' : is_addr addr -> cok c -> tame s (evm_StateDB e) -> back_to s id (evm_StateDB e) ->
  runCode env lp addr input c id e = Ok (r, e') -> tame s (evm_StateDB e').
Proof using Henv Hlp laws money.
  intros Ha Hc Ht Hb E. unfold runCode in E. pose proof (tame_good _ _ Ht) as Hg. apply bindE in E as (c1 & e1 & E1 & E).
  destruct (keepsE_setCallCode addr c Ha Hc e c1 e1 Hg E1) as [Hc1 T1]. apply bindE in E as ([[ret err] c2] & e2 & E2 & E).
  destruct (keepsE_run c1 input Hc1 e1 _ e2 (tame_good _ _ T1) E2) as [_ T2]. eapply settle_tame; [| |exact E].
  - eapply tame_trans; [exact Ht|]. by eapply tame_trans.
  - eapply back_to_ext; [by eapply back_to_ext; [exact Hb|apply T1]|apply T2].
Qed.

(** ** The calls of the machine *)

Lemma callGuard_same gas e r e' : callGuard env gas e = Ok (r, e') -> e' = e.
Proof. unfold callGuard, evmGet, mbind, EM_bind. repeat case_match; by intros [= <- <-]. Qed.
Lemma CanTransfer_spec a v e b e' : is_addr a -> good (evm_StateDB e) -> CanTransfer a v e = Ok (b, e') ->
  level (evm_StateDB e) (evm_StateDB e') /\ (b = true -> v <= bal (evm_StateDB e') a).
Proof using laws money.
  intros Ha Hg (x & e1 & E1 & E2)%bindE. injection E2 as <- <-. destruct (stRead_level _ e x e1 (law_GetBalance (hash:=hash) a Ha) Hg E1) as [-> Hl].
  split; [done|]. rewrite (proj2 Hl a Ha). unfold bal. by intros ?%Z.leb_le.
Qed.
Lemma stDo_level f e e' : flat f -> good (evm_StateDB e) -> stDo f e = Ok (tt, e') -> level (evm_StateDB e) (evm_StateDB e').
Proof. intros Hf Hg [= <-]. by apply Hf. Qed.
Lemma Transfer_tame a b v e e' : is_addr a -> is_addr b -> good (evm_StateDB e) -> 0 <= v -> v <= bal (evm_StateDB e) a ->
  Transfer a b v e = Ok (tt, e') -> tame (evm_StateDB e) (evm_StateDB e').
Proof using laws money. intros Ha Hb Hg Hv Hle [= <-]. by apply (transfer_tame hash). Qed.

Lemma callPrecompiledFilter_level caller addr value e b e' : is_addr caller -> is_addr addr -> good (evm_StateDB e) ->
  callPrecompiledFilter env caller addr value e = Ok (b, e') -> level (evm_StateDB e) (evm_StateDB e').
Proof using Henv laws money.
  intros Hc Ha Hg E. unfold callPrecompiledFilter in E. destruct (IsPrecompiledContractAddress addr); [|injection E as <- <-; by apply level_refl].
  apply bindE in E as (m & e1 & E1 & E). apply bindE in E1 as (v & e2 & E2 & E1). injection E1 as _ ->.
  destruct (stRead_level _ e v e1 (law_GetVmVersion (hash:=hash) caller Hc) Hg E2) as [_ L1]. pose proof (level_good _ _ L1) as Hg1.
  destruct (_ || _); [by injection E as <- <-|]. apply bindE in E as (x & e3 & E3 & E). destruct (stRead_level _ e1 x e3 (law_Exist (hash:=hash) addr Ha) Hg1 E3) as [Hx L2].
  apply bindE in E as ([] & e4 & E4 & E). injection E as <- <-. eapply level_trans; [exact L1|]. eapply level_trans; [exact L2|].
  destruct x; [injection E4 as <-; apply level_refl; by eapply level_good|]. injection E4 as <-. cbn [evm_StateDB setDB].
  destruct (dbExist addr (evm_StateDB e1)) as [x db] eqn:Hex. unfold stRead in E3. rewrite Hex in E3. injection E3 as -> <-.
  destruct (law_CreateEmpty (hash:=hash) addr CodeFormatEVM (chainRules env) _ _ Ha Hg1 Hex). by apply (same_level hash).
Qed.

Lemma keepsE_CallWith caller addr input gas value : ref_ok caller -> is_addr addr -> 0 <= value -> keepsE (CallWith env lp caller addr input gas value) any.
Proof using Henv Hlp laws money.
  intros [Hc Hc'] Ha Hv e r e' Hg E. split; [done|]. unfold CallWith in E. apply bindE in E as (guard & e0 & E0 & E). apply callGuard_same in E0 as ->.
  destruct guard as [r0|]; [injection E as <- <-; by apply tame_refl|]. apply bindE in E as (enough & e1 & E1 & E).
  destruct (CanTransfer_spec _ _ _ _ _ Hc Hg E1) as [L1 Hen]. destruct enough; [|injection E as <- <-; by apply tame_level]. specialize (Hen eq_refl). cbn [negb] in E.
  apply bindE in E as (id & e2 & E2 & E). destruct (snapshot_level e1 id e2 (level_good _ _ L1) E2) as [L2 Hb].
  apply bindE in E as (allowed & e3 & E3 & E). pose proof (callPrecompiledFilter_level _ _ _ _ _ _ Hc Ha (level_good _ _ L2) E3) as L3.
  pose proof (level_trans _ _ _ L2 L3) as L23. pose proof (level_trans _ _ _ L1 L23) as L03.
  destruct allowed; [|injection E as <- <-; by apply tame_level]. cbn [negb] in E. apply bindE in E as (exist & e4 & E4 & E).
  destruct (stRead_level _ e3 exist e4 (law_Exist (hash:=hash) addr Ha) (level_good _ _ L3) E4) as [_ L4].
  destruct (negb exist && _); [injection E as <- <-; by eapply tame_level, level_trans|]. apply bindE in E as ([] & e5 & E5 & E).
  assert (level (evm_StateDB e4) (evm_StateDB e5)) as L5.
  { destruct exist; [injection E5 as <-; apply level_refl; by eapply level_good|]. eapply stDo_level; [|by eapply level_good|exact E5].
    by apply (flat_CreateEOA hash). }
  pose proof (level_trans _ _ _ L23 (level_trans _ _ _ L4 L5)) as L15. apply bindE in E as ([] & e6 & E6 & E).
  assert (tame (evm_StateDB e5) (evm_StateDB e6)) as T6.
  { eapply (Transfer_tame _ _ value); [exact Hc|exact Ha|by eapply level_good|done| |exact E6]. by rewrite (proj2 L15 _ Hc). }
  assert (tame (evm_StateDB e1) (evm_StateDB e6)) as T16 by (eapply tame_trans; [by apply tame_level|done]).
  assert (back_to (evm_StateDB e1) id (evm_StateDB e6)) as B6.
  { eapply back_to_ext; [exact Hb|]. eapply ext_trans; [apply (level_trans _ _ _ L3 (level_trans _ _ _ L4 L5))|apply T6]. }
  eapply tame_trans; [apply tame_level; exact L1|]. apply bindE in E as (program & e7 & E7 & E).
  destruct (keepsE_isProgramAccount _ addr Hc Ha e6 program e7 (tame_good _ _ T6) E7) as [_ T7].
  assert (tame (evm_StateDB e1) (evm_StateDB e7)) as T17 by (by eapply tame_trans). assert (back_to (evm_StateDB e1) id (evm_StateDB e7)) as B7 by (eapply back_to_ext; [exact B6|apply T7]).
  destruct program; [|eapply settle_tame; [exact T17|exact B7|exact E]]. apply bindE in E as (c & e8 & E8 & E).
  destruct (keepsE_newContract caller addr value gas e7 c e8 (tame_good _ _ T7) E8) as [<- T8].
  eapply (runCode_tame (evm_StateDB e1) addr input (NewContract caller addr value gas) id e8); [done|by split|by eapply tame_trans| |exact E].
  eapply back_to_ext; [exact B7|apply T8].
Qed.

(** From a snapshot and a contract on, as the other calls do. *)
Lemma snapped_call s caller object value gas addr input (delegate : bool) e r e' : ref_ok caller -> is_addr object -> is_addr addr -> tame s (evm_StateDB e) ->
  (snapshot ← stRead dbSnapshot; c ← newContract caller object value gas;
   c ← (if delegate then evmLift (AsDelegate c) else mret c); runCode env lp addr input c snapshot) e = Ok (r, e') -> tame s (evm_StateDB e').
Proof using Henv Hlp laws money.
  intros [Hc Hc'] Ho Ha Ht E. pose proof (tame_good _ _ Ht) as Hg. apply bindE in E as (id & e1 & E1 & E). destruct (snapshot_level e id e1 Hg E1) as [L1 B1].
  apply bindE in E as (c & e2 & E2 & E). destruct (keepsE_newContract caller object value gas e1 c e2 (level_good _ _ L1) E2) as [<- T2].
  apply bindE in E as (c1 & e3 & E3 & E). assert (cok c1 /\ e3 = e2) as [Hc1 ->].
  { destruct delegate; [|injection E3 as <- <-; split; [by split|done]]. unfold evmLift, AsDelegate in E3. destruct caller; try done. injection E3 as <- <-. by split. }
  eapply tame_trans; [exact Ht|]. eapply (runCode_tame (evm_StateDB e) addr input c1 id e2); [done|done| | |exact E].
  - by eapply tame_trans; [apply tame_level|].
  - eapply back_to_ext; [exact B1|apply T2].
Qed.

Lemma keepsE_CallCodeWith caller addr input gas value : ref_ok caller -> is_addr addr -> keepsE (CallCodeWith env lp caller addr input gas value) any.
Proof using Henv Hlp laws money.
  intros Hr Ha e r e' Hg E. pose proof Hr as [Hc _]. split; [done|]. unfold CallCodeWith in E. apply bindE in E as (guard & e0 & E0 & E). apply callGuard_same in E0 as ->.
  destruct guard as [r0|]; [injection E as <- <-; by apply tame_refl|]. apply bindE in E as (enough & e1 & E1 & E).
  destruct (CanTransfer_spec _ _ _ _ _ Hc Hg E1) as [L1 _]. destruct enough; [|injection E as <- <-; by apply tame_level]. cbn [negb] in E.
  apply bindE in E as (program & e2 & E2 & E). destruct (keepsE_isProgramAccount _ addr Hc Ha e1 program e2 (level_good _ _ L1) E2) as [_ T2].
  assert (tame (evm_StateDB e) (evm_StateDB e2)) as T by (by eapply tame_trans; [apply tame_level|]). destruct program; [|by injection E as <- <-]. cbn [negb] in E.
  by eapply (snapped_call _ caller (refAddress caller) value gas addr input false).
Qed.
Lemma keepsE_DelegateCallWith caller addr input gas : ref_ok caller -> is_addr addr -> keepsE (DelegateCallWith env lp caller addr input gas) any.
Proof using Henv Hlp laws money.
  intros Hr Ha e r e' Hg E. pose proof Hr as [Hc _]. split; [done|]. unfold DelegateCallWith in E. apply bindE in E as (guard & e0 & E0 & E). apply callGuard_same in E0 as ->.
  destruct guard as [r0|]; [injection E as <- <-; by apply tame_refl|].
  apply bindE in E as (program & e2 & E2 & E). destruct (keepsE_isProgramAccount _ addr Hc Ha e program e2 Hg E2) as [_ T2].
  destruct program; [|by injection E as <- <-]. cbn [negb] in E. by eapply (snapped_call _ caller (refAddress caller) 0 gas addr input true).
Qed.
Lemma keepsE_StaticCallWith caller addr input gas : ref_ok caller -> is_addr addr -> keepsE (StaticCallWith env lp caller addr input gas) any.
Proof using Henv Hlp laws money.
  intros Hr Ha e r e' Hg E. pose proof Hr as [Hc _]. split; [done|]. unfold StaticCallWith in E. apply bindE in E as (guard & e0 & E0 & E). apply callGuard_same in E0 as ->.
  destruct guard as [r0|]; [injection E as <- <-; by apply tame_refl|]. apply bindE in E as (ro & e1 & [= <- <-] & E). apply bindE in E as ([] & e1 & [= <-] & E).
  apply bindE in E as (program & e2 & E2 & E). destruct (keepsE_isProgramAccount _ addr Hc Ha (setReadOnly true e) program e2 Hg E2) as [_ T2]. cbn [evm_StateDB setReadOnly] in T2.
  apply bindE in E as (r1 & e3 & E3 & E). injection E as <- <-. cbn [evm_StateDB setReadOnly].
  destruct program; [|by injection E3 as <- <-]. cbn [negb] in E3. by eapply (snapped_call _ caller addr 0 gas addr input false).
Qed.

(** ** Creations *)

Lemma collision_level address h e b e' : is_addr address -> good (evm_StateDB e) -> collision env address h e = Ok (b, e') ->
  level (evm_StateDB e) (evm_StateDB e').
Proof using laws money.
  intros Ha Hg E. unfold collision in E. destruct (IsShanghai _).
  - apply bindE in E as (n & e1 & E1 & E). injection E as _ <-. by eapply stRead_level; [apply law_GetNonce| |].
  - by eapply stRead_level; [apply law_Exist| |].
Qed.
Lemma storeCode_level address ret c err e r e' : is_addr address -> good (evm_StateDB e) -> storeCode address ret c err e = Ok (r, e') ->
  level (evm_StateDB e) (evm_StateDB e').
Proof using laws money.
  intros Ha Hg E. unfold storeCode in E. pose proof (level_refl _ Hg) as Hr. destruct err as [err|]; [by injection E as <- <-|].
  destruct (Z.ltb_spec MaxCodeSize (len ret)) as [|Hl]; [by injection E as <- <-|]. destruct (UseGas _ c) as [[] c1]; [|by injection E as <- <-].
  apply bindE in E as (set & e1 & E1 & E). injection E as <- <-. unfold stRead in E1.
  assert (ext (evm_StateDB e) (dbSetCode address ret (evm_StateDB e)).2) as Hx by (by apply (law_SetCode (hash:=hash))).
  assert (level (evm_StateDB e) (dbSetCode address ret (evm_StateDB e)).2) as Hlv by (split; [done|]; intros b Hb; by apply ml_SetCode).
  destruct (dbSetCode address ret (evm_StateDB e)) as [x db]. by injection E1 as <- <-.
Qed.
Lemma finishCode_tame s id ret c err e r e' : tame s (evm_StateDB e) -> back_to s id (evm_StateDB e) -> finishCode env id ret c err e = Ok (r, e') ->
  tame s (evm_StateDB e').
Proof using laws money.
  intros Ht Hb E. unfold finishCode in E. apply bindE in E as (c1 & e1 & E1 & E). injection E as <- <-. destruct (_ || _); [|by injection E1 as <- <-].
  apply bindE in E1 as ([] & e2 & E2 & E1). injection E1 as _ <-. by eapply revert_tame; [eapply tame_good|..].
Qed.
(** What a creation does once its address is free. *)
Lemma created_tame caller code h gas value address humanReadable format depth e r e' : ref_ok caller -> is_addr address -> 0 <= value -> good (evm_StateDB e) ->
  value <= bal (evm_StateDB e) (refAddress caller) ->
  (snapshot ← stRead dbSnapshot;
   stDo (dbCreateSmartContractAccountWithKey address humanReadable AccountKeyFail format (chainRules env));;
   stDo (dbSetNonce address 1);;
   (if value =? 0 then mret tt else Transfer (refAddress caller) address value);;
   c ← newContract caller address value gas;
   if NoRecursion (Config_ env) && (0 <? depth) then mret ([], address, gas, None)
   else
     r ← RunWith env lp (SetCallCode address h code c) [];
     let '(ret, err, c) := (r : bytes * option vmError * Contract) in
     r ← storeCode address ret c err;
     let '(c, err) := (r : Contract * option vmError) in
     r ← finishCode env snapshot ret c err;
     let '(c, err) := (r : Contract * option vmError) in
     mret (ret, address, c_Gas c, err)) e = Ok (r, e') -> tame (evm_StateDB e) (evm_StateDB e').
Proof using Henv Hlp laws money.
  intros [Hc Hc'] Ha Hv Hg Hle E. apply bindE in E as (id & e1 & E1 & E). destruct (snapshot_level e id e1 Hg E1) as [L1 B1].
  apply bindE in E as ([] & e2 & E2 & E). assert (level (evm_StateDB e1) (evm_StateDB e2)) as L2.
  { eapply stDo_level; [|by eapply level_good|exact E2]. by apply (flat_CreateSmartContract hash). }
  apply bindE in E as ([] & e3 & E3 & E). assert (level (evm_StateDB e2) (evm_StateDB e3)) as L3.
  { eapply stDo_level; [|by eapply level_good|exact E3]. by apply (flat_SetNonce hash). }
  pose proof (level_trans _ _ _ L2 L3) as L13. pose proof (level_trans _ _ _ L1 L13) as L03. apply bindE in E as ([] & e4 & E4 & E).
  assert (tame (evm_StateDB e3) (evm_StateDB e4)) as T4.
  { destruct (value =? 0); [injection E4 as <-; apply tame_refl; by eapply level_good|].
    eapply (Transfer_tame _ _ value); [exact Hc|exact Ha|by eapply level_good|done| |exact E4]. by rewrite (proj2 L03 _ Hc). }
  apply bindE in E as (c & e5 & E5 & E). destruct (keepsE_newContract caller address value gas e4 c e5 (tame_good _ _ T4) E5) as [<- T5].
  pose proof (tame_trans _ _ _ (tame_level _ _ L03) (tame_trans _ _ _ T4 T5)) as T05.
  assert (back_to (evm_StateDB e) id (evm_StateDB e5)) as B5 by (eapply back_to_ext; [exact B1|]; eapply ext_trans; [apply L13|]; eapply ext_trans; [apply T4|apply T5]).
  destruct (_ && _); [by injection E as <- <-|]. apply bindE in E as ([[ret err] c1] & e6 & E6 & E).
  destruct (keepsE_RunWith (SetCallCode address h code (NewContract caller address value gas)) [] ltac:(by split) e5 _ e6 (tame_good _ _ T5) E6) as [_ T6].
  apply bindE in E as ([c2 err2] & e7 & E7 & E). pose proof (storeCode_level _ _ _ _ _ _ _ Ha (tame_good _ _ T6) E7) as L7.
  apply bindE in E as ([c3 err3] & e8 & E8 & E). injection E as _ <-. eapply finishCode_tame; [| |exact E8].
  - eapply tame_trans; [exact T05|]. eapply tame_trans; [exact T6|by apply tame_level].
  - eapply back_to_ext; [exact B5|]. eapply ext_trans; [apply T6|apply L7].
Qed.
Lemma keepsE_createWith caller code h gas value address humanReadable format : ref_ok caller -> is_addr address -> 0 <= value ->
  keepsE (createWith env lp caller code h gas value address humanReadable format) any.
Proof using Henv Hlp laws money.
  intros [Hc Hc'] Ha Hv e r e' Hg E. split; [done|]. unfold createWith in E. apply bindE in E as (depth & e0 & [= _ <-] & E).
  destruct (_ <? depth); [injection E as <- <-; by apply tame_refl|]. apply bindE in E as (enough & e1 & E1 & E).
  destruct (CanTransfer_spec _ _ _ _ _ Hc Hg E1) as [L1 Hen]. destruct enough; [|injection E as <- <-; by apply tame_level]. specialize (Hen eq_refl). cbn [negb] in E.
  apply bindE in E as ([] & e2 & E2 & E). assert (level (evm_StateDB e1) (evm_StateDB e2)) as L2 by (eapply stDo_level; [|by eapply level_good|exact E2]; by apply (flat_IncNonce hash)).
  apply bindE in E as ([] & e3 & E3 & E). assert (level (evm_StateDB e2) (evm_StateDB e3)) as L3.
  { destruct (IsKore _); [|injection E3 as <-; apply level_refl; by eapply level_good]. eapply stDo_level; [|by eapply level_good|exact E3].
    apply (flat_quiet hash). by apply law_AddAddress. }
  apply bindE in E as (ch & e4 & E4 & E). destruct (stRead_level _ e3 ch e4 (law_GetCodeHash (hash:=hash) address Ha) (level_good _ _ L3) E4) as [_ L4].
  apply bindE in E as (taken & e5 & E5 & E). pose proof (collision_level _ _ _ _ _ Ha (level_good _ _ L4) E5) as L5.
  pose proof (level_trans _ _ _ L1 (level_trans _ _ _ L2 (level_trans _ _ _ L3 (level_trans _ _ _ L4 L5)))) as L05.
  destruct taken; [injection E as <- <-; by apply tame_level|]. destruct (IsPrecompiledContractAddress address); [injection E as <- <-; by apply tame_level|].
  eapply tame_trans; [apply tame_level; exact L05|]. eapply (created_tame caller code h gas value address humanReadable format depth e5); [by split|done|done| | |exact E].
  - by eapply level_good.
  - pose proof (level_trans _ _ _ L2 (level_trans _ _ _ L3 (level_trans _ _ _ L4 L5))) as L15. by rewrite (proj2 L15 _ Hc).
Qed.

Lemma address_created b : is_addr (BytesToAddress b).
Proof. unfold is_addr, BytesToAddress. cbv zeta. rewrite length_app, length_replicate, length_drop. lia. Qed.
Lemma callsWith_keep : calls_keep (callsWith env lp).
Proof using Henv Hlp laws money.
  split; intros; cbn [callsWith callCall callCallCode callDelegateCall callStaticCall callCreate callCreate2].
  - by apply keepsE_CallWith.
  - by apply keepsE_CallCodeWith.
  - by apply keepsE_DelegateCallWith.
  - by apply keepsE_StaticCallWith.
  - eapply keepsE_bind; [apply keepsE_read, law_GetNonce; by destruct H|]. intros n _. apply keepsE_createWith; [done|apply address_created|done].
  - apply keepsE_createWith; [done|apply address_created|done].
Qed.
End run.

(** ** The loop *)

Lemma keeps_loop env jt : env_flat env -> forall fuel res, keeps (loop env jt fuel res) any.
Proof using laws money wspec.
  intros Henv fuel. induction fuel as [|fuel IH]; intros res; [done|]. cbn [loop]. eapply keeps_mbind; [apply keeps_loadAbort|]. intros abort _.
  destruct (negb _); [by apply keeps_mret|]. eapply keeps_mbind; [apply keeps_step; by apply callsWith_keep|]. intros [x|res'] _; [by apply keeps_mret|apply IH].
Qed.
End ledger.
End Ledger.
