(* ===== verification/EvmTheorems.v ===== *)
(** * The virtual machine on the state database

    The guarantees of [EvmMain] for the machine with its precompiled contracts on the state
    database of this development: termination, bounds, failure and static calls. *)

From S2P Require Import Prelude Rlp AccountKey StateDB StateRevert EvmWord EvmCode EvmMem EvmParams EvmState EvmGas EvmOps EvmTable EvmRun.
From S2P Require Import EvmSpec EvmInv EvmPlain EvmCost EvmStep EvmCalls EvmLoop EvmFrames EvmMain EvmStateDB Blake2b EvmPrecompiles EvmPreSpec.

Module Theorems.
Export Main PreSpec Link.

(** ** What the machine is given *)

(** The database below and the cryptography: hashes of 32 bytes without collisions, the same for
    both; codes stored under their hash; and the empty root. *)
Record backend_ok {senv : State.StateEnv} {crypto : Crypto} : Prop := {
  bk_crypto : crypto_ok;
  bk_keccak b : Keccak256 b = State.keccak b;
  bk_inj : Inj (=) (=) (State.keccak (StateEnv:=senv));
  bk_codes h c : State.contractCode h = Some c -> len c < 2 ^ 63 /\ State.keccak c = h;
  bk_root : default ∅ (State.openStorageTrie Account.emptyExtHash) = ∅
}.

Section machine.
Context {word : Uint256} {wspec : Uint256Spec} {senv : State.StateEnv} {bl : Below} {crypto : Crypto} (Hb : backend_ok).
Context (c : BlockContext) (t : TxContext) (cfg : Config) (chainID : Z) (rules : Rules) (abort : nat -> Z).
Abbreviation env := (newEnv c t cfg chainID rules abort).
Abbreviation jt := (instructionSet rules).
Abbreviation keccak := (State.keccak (StateEnv:=senv)).

Lemma backend_laws : StateLaws keccak.
Proof using Hb.
  destruct Hb as [Hc Hk Hi Hcodes Hroot]. apply StateDB_laws; [|intros a b _ _ H; by apply Hi|done|done].
  intros b. pose proof (Keccak256_len Hc b) as H. rewrite Hk in H. unfold len in H. lia.
Qed.
Existing Instance backend_laws.
Lemma backend_env : env_ok keccak env.
Proof using Hb. apply (newEnv_ok keccak (bk_crypto Hb)). Qed.
Lemma calls_sound fuel : calls_ok keccak (Z.of_nat fuel) (callsWith env (loop env jt fuel)).
Proof using Hb wspec.
  apply (callsWith_ok keccak env (bk_keccak Hb) backend_env). intros res s Hs.
  apply (loop_ok keccak (bk_inj Hb) env (bk_keccak Hb) backend_env); exact Hs.
Qed.

(** C20. The state database keeps every promise that the virtual machine relies on: getters change
    nothing that can be read, every operation keeps the earlier snapshots, reverting restores
    the state of the snapshot, codes are those of their hashes and keys can be validated. *)
Theorem statedb_keeps_promises : StateLaws keccak.
Proof using Hb. apply backend_laws. Qed.

(** ** Termination *)

Lemma ran_out {A} fuel gas (m : EM A) (Q : A -> EVM -> Prop) e : ewp (gas < Z.of_nat fuel) m Q e -> m e = NoFuel -> Z.of_nat fuel <= gas.
Proof. unfold ewp. intros H He. rewrite He in H. cbn in H. lia. Qed.

(** C5. Every call and every creation returns: with more turns of the loop than there is gas, the
    result is there and no longer depends on how many there may be. *)
Theorem evm_terminates caller addr input gas value format e :
  ref_ok caller -> is_addr addr -> len input < 2 ^ 63 -> 0 <= gas <= gas_max -> evm_ok keccak e -> evm_readOnly e = false ->
  (exists r, r <> NoFuel /\ forall fuel, gas < Z.of_nat fuel -> Call env jt fuel caller addr input gas value e = r) /\
  (exists r, r <> NoFuel /\ forall fuel, gas < Z.of_nat fuel -> Create env jt fuel caller input gas value format e = r).
Proof using Hb wspec.
  intros Hc Ha Hi Hg He Hro.
  split; [apply (one_result (fun fuel => Call env jt fuel caller addr input gas value) gas)|apply (one_result (fun fuel => Create env jt fuel caller input gas value format) gas)].
  1, 4: lia.
  - intros n k. apply upto_Call, upto_loop.
  - intros fuel. eapply ran_out. apply (ok_Call _ _ _ (calls_sound fuel)); try done. by rewrite Hro.
  - intros n k. unfold Create, CreateWith. apply uptoEM_bind; [apply uptoEM_refl|]. intros nonce. apply upto_create, upto_loop.
  - intros fuel. eapply ran_out. by apply (ok_Create _ _ _ (calls_sound fuel)).
Qed.

(** ** Soundness *)

(** C16. A call raises no run-time fault (no index, slice or type assertion fails), on any code and
    input; what it returns leaves the depth and the read-only flag as they were, and no more gas
    than was given.  The panics that the state database raises on purpose end it early. *)
Theorem evm_sound fuel caller addr input gas value e :
  ref_ok caller -> is_addr addr -> len input < 2 ^ 63 -> 0 <= gas <= gas_max -> evm_ok keccak e -> (evm_readOnly e = true -> value = 0) ->
  match Call env jt fuel caller addr input gas value e with
  | Ok (ret, rest, err, e') =>
      evm_depth e' = evm_depth e /\ evm_readOnly e' = evm_readOnly e /\ evm_ok keccak e' /\ 0 <= rest <= gas
  | Err p => True
  | Panic => False
  | NoFuel => Z.of_nat fuel <= gas
  end.
Proof using Hb wspec.
  intros Hc Ha Hi Hg He Hro. pose proof (ok_Call _ _ _ (calls_sound fuel) caller addr input gas value e Hc Ha Hi Hg He Hro) as H.
  change (callCall (callsWith env (loop env jt fuel)) caller addr input gas value) with (Call env jt fuel caller addr input gas value) in H. unfold ewp in H.
  destruct (Call env jt fuel caller addr input gas value e) as [[[[ret rest] err] e']| | |]; cbn in H; [|done|done|lia].
  destruct H as (Hr & Hl & _). split_and!; try apply Hr; [by eapply evm_rel_ok|apply Hl..].
Qed.


(** C17. A static call, and everything it calls, leaves the balances, the nonces, the codes, the
    storage, the destructions, the transient storage and the logs as they were. *)
Theorem static_call_pure fuel caller addr input gas e r e' :
  ref_ok caller -> is_addr addr -> len input < 2 ^ 63 -> 0 <= gas <= gas_max -> evm_ok keccak e ->
  StaticCall env jt fuel caller addr input gas e = Ok (r, e') -> same_ (evm_StateDB e) (evm_StateDB e').
Proof using Hb wspec.
  intros Hc Ha Hi Hg He H.
  pose proof (StaticCallWith_ok keccak env backend_env (Z.of_nat fuel) (loop env jt fuel)
    (loop_ok keccak (bk_inj Hb) env (bk_keccak Hb) backend_env fuel) caller addr input gas e Hc Ha Hi Hg He) as Hs.
  unfold ewp in Hs. change (StaticCallWith env (loop env jt fuel)) with (StaticCall env jt fuel) in Hs. rewrite H in Hs. apply Hs.
Qed.

(** ** Bounds *)

(** C8. After any number of turns of the interpreter: the stack has at most 1024 words, the memory is
    of whole words, what a memory of its size costs and the gas left are within the gas of the
    start, and the next turn does not fault. *)
Theorem run_bounds ct input e s fuel :
  contract_ok keccak ct -> len input < 2 ^ 63 -> 0 <= c_Gas ct <= gas_max -> evm_ok keccak e ->
  rtc (turn env) (mkSt 0 [] NewMemory (setInput input ct) e) s ->
  let words := Len (s_mem s) / 32 in
  len (s_stack s) <= 1024 /\ Len (s_mem s) = 32 * words /\ 3 * words + words * words / 512 + c_Gas (s_contract s) <= c_Gas ct /\
  0 <= c_Gas (s_contract s) /\ 0 <= s_pc s < 2 ^ 64 /\ step env jt (callsWith env (loop env jt fuel)) s <> Panic.
Proof using Hb wspec.
  intros Hct Hi Hg He Hr. pose proof (fresh_inv keccak ct input e Hct Hi Hg He) as Hinv.
  destruct (turns_inv keccak (bk_inj Hb) env (bk_keccak Hb) backend_env _ s Hinv Hr) as (Hs & Hw & _). pose proof (i_paid _ _ Hs) as [Hp _]. pose proof (i_gas _ _ Hs).
  unfold worth, memFee, gasOf in Hw. cbn in Hw. unfold MemoryGas, QuadCoeffDiv in Hw. change (Len NewMemory) with 0 in Hw. rewrite Z.div_0_l, Z.mul_0_l, Z.div_0_l in Hw by done. cbv zeta. split_and!; [apply Hs| |lia|lia|apply Hs|apply Hs|].
  - pose proof (Z.div_mod (Len (s_mem s)) 32 ltac:(lia)). lia.
  - pose proof (step_ok keccak (bk_inj Hb) env jt (tables_fit _) False (Z.of_nat fuel) _ s (calls_sound fuel) Hs ltac:(done)) as Hstep. unfold wp in Hstep.
    intros Heq. by rewrite Heq in Hstep.
Qed.

(** ** Jumps *)

Lemma index_noerr {E A} (l : list A) i e : index (E:=E) l i <> Err e.
Proof. unfold index. by destruct (l !! i). Qed.
Lemma codeSegment_noerr {E} bits p e : codeSegment (E:=E) bits p <> Err e.
Proof.
  unfold codeSegment. destruct (index bits _) eqn:Hi; cbn; [done| |done|done]. intros [= ->]. by apply index_noerr in Hi.
Qed.
Lemma isCode_noerr s p x : contract_ok keccak (s_contract s) -> isCode p s <> Err x.
Proof.
  intros Hc. destruct (codeBitmap_spec (E:=vmPanic) (c_Code (s_contract s)) (co_code _ _ Hc)) as (bits & Hbits & _).
  assert (forall b s', lift (codeSegment b p) s' <> Err x) as Hl.
  { intros b s' H. unfold lift in H. destruct (codeSegment b p) eqn:Hseg; cbn in H; try done. injection H as ->. by apply codeSegment_noerr in Hseg. }
  unfold isCode, mbind, M_bind, get, modify. destruct (c_analysis (s_contract s)); [apply Hl|]. case_bool_decide.
  - unfold lift at 1. rewrite Hbits. apply Hl.
  - destruct (evm_jumpdests (s_evm s) !! _); [apply Hl|]. unfold lift at 1. rewrite Hbits. apply Hl.
Qed.
Lemma validJumpdest_noerr s dest x : contract_ok keccak (s_contract s) -> validJumpdest dest s <> Err x.
Proof.
  intros Hc. unfold validJumpdest. destruct (uUint64WithOverflow dest) as [u o]. unfold get, mbind, M_bind. destruct (_ || _); [done|].
  unfold lift. destruct (index _ _) eqn:Hi; cbn [mbind res_bind mret res_ret M_bind]; [|by apply index_noerr in Hi|done|done].
  destruct (negb _); [done|by apply isCode_noerr].
Qed.

(** C28. The destination of a jump is accepted exactly when it is a JUMPDEST where an instruction
    starts, whatever analyses are cached. *)
Theorem jump_destinations s dest : inv keccak s -> exists b s', validJumpdest dest s = Ok (b, s') /\
  (b = true <-> c_Code (s_contract s) !! Z.to_nat (uv dest) = Some JUMPDEST /\ starts (c_Code (s_contract s)) (uv dest)).
Proof using Hb wspec.
  intros Hs. assert (wp True (validJumpdest dest) (fun b _ => b = true <-> jump_target (c_Code (s_contract s)) (uv dest)) s) as H.
  { apply (validJumpdest_ok keccak (bk_inj Hb) True s s dest); [exact (frame_refl keccak s Hs)|]. by intros b s' _ _ _ _ Hq. }
  pose proof (fun x => validJumpdest_noerr s dest x (i_contract _ _ Hs)) as Hn. unfold wp in H. destruct (validJumpdest dest s) as [[b s']|x| |]; cbn in H; try tauto.
  - by exists b, s'.
  - by destruct (Hn x).
Qed.

(** ** Instruction tables *)

(** In every fork, an instruction demands at least as many words on the stack as it pops, leaves
    room for those it pushes, asks for the memory that it uses, and its gas function looks at no
    deeper word than it pops; an instruction that goes on has a cost. *)
Theorem instruction_tables_fit op o : instructionSet rules !! op = Some o ->
  let '(pops, pushes) := arity (execute o) in
  minStack_ o = Z.of_nat pops /\ maxStack_ o = StackLimit + Z.of_nat pops - Z.of_nat pushes /\
  memorySize_ o = memOf (execute o) /\ (forall f, memorySize_ o = Some f -> (memDepth f <= pops)%nat) /\
  (forall g, dynamicGas o = Some g -> (looksAt g <= pops)%nat) /\
  (halts (execute o) = true \/ 1 <= constantGas o \/ exists g, dynamicGas o = Some g /\ costly g = true).
Proof.
  intros Ho. destruct (table_op _ _ _ (tables_fit rules) Ho) as [[H1 H2 H3 H4 _ _ _ H5] _]. destruct (arity (execute o)) as [pops pushes] eqn:Har. cbn [fst snd] in *.
  rewrite H3. split_and!; try done.
  - intros f Hf. by rewrite Hf in H4.
  - intros g Hg. destruct (gas_fits_dynamic o g H5 Hg) as (_ & H & _). by rewrite Har in H.
  - destruct (dynamicGas o) as [g|] eqn:Hg; [destruct (gas_fits_dynamic o g H5 Hg) as (_ & _ & _ & H & _)|destruct (gas_fits_constant o H5 Hg) as (_ & _ & H)].
    + destruct H as [|[|]]; [by left|right; by left|right; right; by exists g].
    + destruct H; [by left|right; by left].
Qed.
End machine.
End Theorems.
