(* ===== verification/EvmConserve.v ===== *)
(** * No call creates money

    The calls of the machine on the state database: the sum of all balances never grows, and no
    balance becomes negative. *)

From S2P Require Import Prelude Rlp AccountKey StateDB StateRevert EvmWord EvmCode EvmMem EvmParams EvmState EvmGas EvmOps EvmTable EvmRun.
From S2P Require Import EvmSpec EvmInv EvmPlain EvmCost EvmStep EvmCalls EvmLoop EvmFrames EvmMain EvmStateDB Blake2b EvmPrecompiles EvmPreSpec.
From S2P Require Import EvmMoney EvmMoneyDB EvmLedger EvmTheorems.

Module Conserve.
Export Ledger MoneyDB Theorems.

(** ** Precompiled contracts *)

Section precompiles.
Context {vms : VMState} {rel : StateRel} (hash : bytes -> Hash) {laws : StateLaws hash} {money : MoneyLaws} {crypto : Crypto}.

Lemma native_flat gas run : precompile_flat (native gas run).
Proof. intros input c e r e' Hg E. cbn in E. destruct (run input) as [[ret err]| | |]; try done. injection E as <- <-. by apply level_refl. Qed.
Lemma feePayer_flat : precompile_flat feePayer.
Proof. intros input c e r e' Hg [= <- <-]. by apply level_refl. Qed.
Lemma validateSender_flat number : precompile_flat (validateSender number).
Proof using laws money.
  intros input c e r e' Hg E. cbn [RunPrecompiled validateSender] in E.
  destruct (validateSenderCheck (u64 number) input e) as [[valid e1]| | |] eqn:Ev; try done. cbn [mbind res_bind] in E. injection E as <- <-.
  pose proof (level_refl _ Hg) as Hr. revert Ev. unfold validateSenderCheck. destruct (_ <? _); [by intros [= <- <-]|].
  destruct (sliceZ input 0 20) as [from| | |]; try done. cbn [mbind res_bind]. destruct (_ <? _); [by intros [= <- <-]|].
  destruct (sliceZ _ 0 32) as [msg| | |]; try done. cbn [mbind res_bind]. destruct (negb _); [by intros [= <- <-]|].
  destruct (recoverKeys _ _ _) as [[pubs|]| | |]; try done; cbn [mbind res_bind]; [|by intros [= <- <-]].
  pose proof (reads_level hash _ _ (law_GetKey (hash:=hash) (BytesToAddress from) (address_created _)) Hg) as Hl.
  destruct (dbGetKey (BytesToAddress from) (evm_StateDB e)) as [k db]. destruct (ValidateAccountKey _ _ _ _ _ _ _ _); try done; by intros [= <- <-].
Qed.
Lemma table_flat (l : list (Address * PrecompiledContract)) : Forall precompile_flat l.*2 -> precompiles_flat (list_to_map l).
Proof. intros H a p Hp. apply elem_of_list_to_map_2 in Hp. apply (proj1 (Forall_forall _ _) H). apply list_elem_of_fmap. by exists (a, p). Qed.
Lemma newEnv_flat c t cfg chainID rules abort : env_flat (newEnv c t cfg chainID rules abort).
Proof using laws money.
  split; apply table_flat; cbn [fmap list_fmap fst snd]; repeat (apply Forall_cons; split); try apply Forall_nil; try done;
    first [apply validateSender_flat|apply feePayer_flat|apply native_flat].
Qed.
End precompiles.

(** ** The sum of all balances *)

Section wealth.
Context {senv : State.StateEnv} {bl : Below}.

(** The addresses with an account, in the trie or loaded. *)
Definition holders (s : State.StateDB) : gset Address :=
  filter (fun a => length a = 20%nat) (dom (State.sd_trie s) ∪ dom (State.sd_stateObjects s)).
Definition wealth (s : State.StateDB) : Z := over (holders s) (balanceOf s).

Lemma holders_addr s a : a ∈ holders s -> Revert.is_addr a.
Proof. unfold holders. by intros [Ha _]%elem_of_filter. Qed.
Lemma holders_other s a : State.sd_snap s = None -> Revert.is_addr a -> a ∉ holders s -> balanceOf s a = 0.
Proof.
  intros Hs Ha Hn. unfold holders in Hn. rewrite elem_of_filter, elem_of_union, !elem_of_dom in Hn.
  assert (State.sd_stateObjects s !! a = None /\ State.sd_trie s !! a = None) as [H1 H2].
  { split; apply eq_None_not_Some; intros Hx; apply Hn; split; try done; (by left) || by right. }
  unfold balanceOf, Revert.view, State.readAccount. by rewrite H1, Hs, H2.
Qed.
(** The sum over any set with all the holders in it. *)
Lemma wealth_over s X : State.sd_snap s = None -> (forall a, a ∈ X -> Revert.is_addr a) -> holders s ⊆ X -> over X (balanceOf s) = wealth s.
Proof. intros Hs HX Hsub. apply over_superset; [done|]. intros a Ha Hn. apply holders_other; auto. Qed.
Lemma gains_wealth s s' d : State.sd_snap s = None -> State.sd_snap s' = None -> gains s s' d -> wealth s' = wealth s + d.
Proof.
  intros Hs Hs' (X & HX & Hout & <-). set (Y := X ∪ holders s ∪ holders s').
  assert (forall a, a ∈ Y -> Revert.is_addr a) as HY.
  { intros a Ha. unfold Y in Ha. apply elem_of_union in Ha as [Ha|Ha]; [apply elem_of_union in Ha as [Ha|Ha]|]; [by apply HX|by eapply holders_addr..]. }
  rewrite <- (wealth_over s Y), <- (wealth_over s' Y) by (done || set_solver). rewrite <- (over_superset X Y) by (set_solver ||
    (intros a Ha Hn; rewrite Hout by (done || by apply HY); lia)).
  assert (forall u : DB, over Y (fun a => bal u a) = over Y (balanceOf u)) as Hbal by (intros u; apply over_ext; intros a _; apply bal_value).
  rewrite over_sub, !Hbal. lia.
Qed.
End wealth.

Section machine.
Context {word : Uint256} {wspec : Uint256Spec} {senv : State.StateEnv} {bl : Below} {crypto : Crypto} (Hb : backend_ok).
Context (c : BlockContext) (t : TxContext) (cfg : Config) (chainID : Z) (rules : Rules) (abort : nat -> Z).
Abbreviation env := (newEnv c t cfg chainID rules abort).
Abbreviation jt := (instructionSet rules).
Abbreviation keccak := (State.keccak (StateEnv:=senv)).
#[local] Instance conserve_laws : StateLaws keccak := backend_laws Hb.

Lemma flat_env : env_flat env.
Proof using Hb. apply (newEnv_flat keccak). Qed.
Lemma calls_conserve fuel : calls_keep (callsWith env (loop env jt fuel)).
Proof using Hb wspec. apply (callsWith_keep keccak env flat_env). apply (keeps_loop keccak env jt flat_env). Qed.

(** C7. A call, whatever code it runs, moves amounts between finitely many accounts and creates
    none: the balances of the accounts it touched sum to no more than before, no other balance
    changed, and no balance is negative. *)
Theorem evm_conserves fuel caller addr input gas value (e : EVM) r e' :
  ref_ok caller -> is_addr addr -> 0 <= value -> good_ (evm_StateDB e) -> solvent (evm_StateDB e) ->
  Call env jt fuel caller addr input gas value e = Ok (r, e') ->
  solvent (evm_StateDB e') /\ exists X : gset Address,
    (forall a, is_addr a -> a ∉ X -> balanceOf (evm_StateDB e') a = balanceOf (evm_StateDB e) a) /\
    over X (balanceOf (evm_StateDB e')) <= over X (balanceOf (evm_StateDB e)).
Proof using Hb wspec.
  intros Hc Ha Hv Hg Hs E. destruct (ck_Call _ (calls_conserve fuel) caller addr input gas value Hc Ha Hv e r e' Hg E) as [_ [_ Ht]].
  destruct (Ht Hs) as [Hs' (d & Hd & X & HX & Hout & Hsum)]. split; [done|]. exists X. split.
  - intros a Hia Hn. rewrite <- !bal_value. by apply Hout.
  - rewrite over_sub in Hsum. rewrite !(over_ext X (balanceOf _) (bal _)) by (intros a _; symmetry; apply bal_value). lia.
Qed.
End machine.
End Conserve.
