(* ===== verification/EvmInstr.v ===== *)
(** * Instructions against their meaning

    The shifts, memory accesses and creations of the virtual machine as functions of the stack,
    the memory and the state. *)

From S2P Require Import Prelude Rlp AccountKey EvmWord EvmCode EvmMem EvmParams EvmState EvmGas EvmOps EvmTable EvmRun EvmSpec.

Module Instr.
Export Spec.
Import RLP.

Section instructions.
Context {word : Uint256} {wspec : Uint256Spec} {vms : VMState}.

(** ** Shifts *)

Lemma pow2_split n : 256 <= n -> 2 ^ n = 2 ^ 256 * 2 ^ (n - 256).
Proof. intros H. rewrite <- Z.pow_add_r by lia. f_equal. lia. Qed.
Lemma Lsh_meaning (shift value : W) :
  uv (if uLtUint64 shift 256 then uLsh value (uUint64 shift) else uClear) = (uv value * 2 ^ uv shift) mod 2 ^ 256.
Proof using wspec.
  pose proof (uv_range shift). rewrite uLtUint64_spec. destruct (Z.ltb_spec (uv shift) 256).
  - by rewrite uUint64_small, uLsh_spec by lia.
  - rewrite uClear_spec, (pow2_split (uv shift)), (Z.mul_comm (2 ^ 256)), Z.mul_assoc, Z.mod_mul by lia. done.
Qed.
Lemma Rsh_meaning (shift value : W) : uv (if uLtUint64 shift 256 then uRsh value (uUint64 shift) else uClear) = uv value / 2 ^ uv shift.
Proof using wspec.
  pose proof (uv_range shift). pose proof (uv_range value). rewrite uLtUint64_spec. destruct (Z.ltb_spec (uv shift) 256).
  - by rewrite uUint64_small, uRsh_spec by lia.
  - rewrite uClear_spec, (Z.div_small (uv value)); [done|]. rewrite pow2_split by lia. pose proof (Z.pow_pos_nonneg 2 (uv shift - 256)). nia.
Qed.
Lemma s256_range x : 0 <= x < 2 ^ 256 -> - 2 ^ 255 <= s256 x < 2 ^ 255.
Proof. intros H. unfold s256. destruct (Z.ltb_spec x (2 ^ 255)); lia. Qed.
Lemma SRsh_meaning (shift value : W) :
  uv (if uGtUint64 shift 256 then if 0 <=? uSign value then uClear else uSetAllOne else uSRsh value (uUint64 shift)) =
  (s256 (uv value) / 2 ^ uv shift) mod 2 ^ 256.
Proof using wspec.
  pose proof (uv_range shift). pose proof (uv_range value) as Hv. rewrite uGtUint64_spec. destruct (Z.ltb_spec 256 (uv shift)).
  - apply s256_range in Hv. pose proof (Z.pow_pos_nonneg 2 (uv shift - 256)). rewrite uSign_spec. destruct (Z.leb_spec 0 (Z.sgn (s256 (uv value)))).
    + rewrite uClear_spec, Z.div_small; [done|]. rewrite pow2_split by lia. lia.
    + rewrite uSetAllOne_spec. replace (s256 (uv value) / 2 ^ uv shift) with (-1); [done|].
      apply (Z.div_unique _ _ _ (s256 (uv value) + 2 ^ uv shift)); [left|lia]. rewrite pow2_split by lia. lia.
  - by rewrite uUint64_small, uSRsh_spec by lia.
Qed.

(** Every shift, by any amount: a multiplication or a division by a power of two, of the signed
    value for the arithmetic shift, modulo 2^256. *)
Theorem shift_instructions s shift value l : s_stack s = shift :: value :: l -> exists x y z,
  opSHL s = Ok ([], None, setStack (x :: l) s) /\ uv x = (uv value * 2 ^ uv shift) mod 2 ^ 256 /\
  opSHR s = Ok ([], None, setStack (y :: l) s) /\ uv y = uv value / 2 ^ uv shift /\
  opSAR s = Ok ([], None, setStack (z :: l) s) /\ uv z = (s256 (uv value) / 2 ^ uv shift) mod 2 ^ 256.
Proof using wspec.
  intros Hs. eexists _, _, _. split_and!; [|apply Lsh_meaning| |apply Rsh_meaning| |apply SRsh_meaning].
  - unfold opSHL, pop, peek, Back, poke, mbind, M_bind. by rewrite Hs.
  - unfold opSHR, pop, peek, Back, poke, mbind, M_bind. by rewrite Hs.
  - unfold opSAR, pop, peek, Back, poke, mbind, M_bind. rewrite Hs. cbn. by destruct (uGtUint64 shift 256).
Qed.

(** ** Memory *)

Lemma copySlice_prefix {E} dst lo hi src : 0 <= lo -> lo + len src <= hi -> hi <= len dst ->
  copySlice (E:=E) dst lo hi src = copySlice dst lo (lo + len src) src.
Proof.
  intros H0 H1 H2. pose proof (len_nonneg src). unfold copySlice.
  rewrite !(proj2 (Z.leb_le _ _)) by lia. cbn [andb]. unfold len in *. rewrite !(take_ge src) by lia. done.
Qed.
(** A word that is stored is the word that is loaded, and no other byte changes. *)
Theorem mstore_mload s off val l : s_stack s = off :: val :: l -> Len (s_mem s) < 2 ^ 63 -> uv off + 32 <= Len (s_mem s) ->
  exists s' w, (opMstore;; push off;; opMload) s = Ok ([], None, s') /\ s_stack s' = w :: l /\ uv w = uv val /\
    Len (s_mem s') = Len (s_mem s) /\
    forall i, Z.of_nat i < uv off \/ uv off + 32 <= Z.of_nat i -> m_store (s_mem s') !! i = m_store (s_mem s) !! i.
Proof using wspec.
  intros Hs Hm Hr. pose proof (uv_range off). pose proof (uBytes32_length val) as Hl. assert (len (uBytes32 val) = 32) as Hl' by (unfold len; lia).
  destruct (copySlice_ok (E:=vmPanic) (m_store (s_mem s)) (uv off) (Len (s_mem s)) (uBytes32 val)) as (b & Hb & Hbl); [lia|done|].
  assert (copySlice (E:=vmPanic) (m_store (s_mem s)) (uv off) (uv off + 32) (uBytes32 val) = Ok b) as Hb32.
  { rewrite <- Hl', <- copySlice_prefix with (hi := Len (s_mem s)); [done|lia|lia|done]. }
  destruct (copySlice_read _ _ _ _ _ Hb32) as [Hread Hother]; [lia|]. replace (uv off + 32 - uv off) with 32 in Hread by lia.
  assert (len b = Len (s_mem s)) as Hlen by (unfold len, Len; by rewrite Hbl).
  assert (uv (uSetBytes (uBytes32 val)) = uv val) as Hval.
  { rewrite uBytes32_spec, uSetBytes_spec, from_be_be by apply be_bytes. unfold u256. rewrite Z.mod_mod by lia. apply Z.mod_small, uv_range. }
  set (s1 := setStack (off :: l) (setMem (setStore b (s_mem s)) s)). exists (setStack (uSetBytes (uBytes32 val) :: l) s1), (uSetBytes (uBytes32 val)).
  split_and!; [|done|done|done|exact Hother].
  unfold opMstore, opMload, pop, push, peek, Back, poke, memDo, memRead, get, modify, lift, mbind, M_bind. rewrite Hs. cbn.
  unfold Set32. rewrite uUint64_small, (u64_small (uv off + 32)), (u64_Len _ Hm), (proj2 (Z.ltb_ge _ _)), Hb by (unfold is_u64; lia). cbn.
  unfold GetPtr. cbn. change (Len (setStore b (s_mem s))) with (len b). rewrite (i64_small (uv off)), (proj2 (Z.ltb_lt _ _)), i64_small, sliceZ_ok by lia. cbn.
  replace (uv off + 32 - uv off) with 32 by lia. by rewrite Hread.
Qed.

(** ** Creations *)

End instructions.
End Instr.
