(* ===== verification/EvmSstore.v ===== *)
(** * The gas of storage

    The net cost of a sequence of writes to a storage slot under the schedule of EIP-2200, 2929
    and 3529: what the writes cost less what they earn back depends on the first and the last
    value and the number of writes, and the refund counter never underflows. *)

From S2P Require Import Prelude Rlp AccountKey StateDB StateRevert EvmWord EvmCode EvmMem EvmParams EvmState EvmGas EvmOps EvmTable EvmRun.
From S2P Require Import EvmSpec EvmInv EvmPlain EvmCost EvmStep EvmCalls EvmLoop EvmFrames EvmMain EvmStateDB Blake2b EvmPrecompiles EvmPreSpec EvmTheorems.

Module Sstore.
Export Theorems.
Import State Revert.

(** ** The schedule *)

Definition nonzero (v : Hash) : bool := negb (bool_decide (v = Evm.zeroHash)).
(** What a slot has cost so far beyond the price of reading it at every write, as a function of
    the value it had at the start of the transaction and its value now. *)
Definition invested (clearing : Z) (original v : Hash) : Z :=
  if bool_decide (v = original) then 0
  else if nonzero original then 2800 - (if nonzero v then 0 else clearing)
  else 19900.
(** What the refund counter holds for a slot that was cleared. *)
Definition deposit (clearing : Z) (original v : Hash) : Z :=
  if nonzero original && negb (nonzero v) then clearing else 0.

Section sstore.
Context {word : Uint256} {wspec : Uint256Spec} {senv : StateEnv} {bl : Below} {crypto : Crypto} (Hb : backend_ok).
#[local] Instance sstore_laws : StateLaws keccak := backend_laws Hb.

(** A warm slot of a live contract: its value at the start of the transaction, its value now, and
    the refund counter. *)
Record slot_at (db : StateDB) (a : Address) (k original v : Hash) (refund : Z) : Prop := {
  sl_good : good_ db;
  sl_object : exists o, live (view db a) = Some o /\ committed db o k = original /\ current db o k = v;
  sl_warm : SlotInAccessList a k db = Ok (true, true);
  sl_refund : sd_refund db = refund
}.

Lemma slot_equiv db db' a k o v r : is_addr a -> slot_at db a k o v r -> good_ db' -> equiv db db' -> slot_at db' a k o v r.
Proof.
  intros Ha [Hg (ob & Hl & Hc & Hv) Hw Hr] Hg' He. apply live_inv in Hl as [Hl Hd]. pose proof (eq_objects _ _ He a Ha) as Ho. rewrite Hl in Ho.
  inversion Ho as [o1 o2 Hoe Heq1 Heq2|]; subst. pose proof (eq_rest _ _ He) as Hrest. unfold rest in Hrest. split; try done.
  - exists o2. split_and!.
    + rewrite <- Heq2. unfold live. cbn. by rewrite <- (oe_deleted _ _ _ Hoe), Hd.
    + rewrite (oe_committed _ _ _ Hoe). symmetry. apply committed_ctx; [apply He|by rewrite (eq_destructs _ _ He)].
    + rewrite (oe_current _ _ _ Hoe). symmetry. apply current_ctx; apply He.
  - unfold SlotInAccessList in *. congruence.
  - congruence.
Qed.

Section slot.
Context (a : Address) (k : Hash) (Ha : is_addr a).

Lemma slot_read db o v r : slot_at db a k o v r -> exists db', GetStateAt a k db = (v, db') /\ slot_at db' a k o v r.
Proof using Ha Hb.
  intros Hs. destruct (@law_GetState _ _ _ sstore_laws a k Ha db (sl_good _ _ _ _ _ _ Hs)) as [[Hg _] He]. cbn in Hg, He.
  pose proof (GetStateAt_value a k db) as Hv. destruct (sl_object _ _ _ _ _ _ Hs) as (ob & Hl & _ & Hc). rewrite Hl, Hc in Hv.
  destruct (GetStateAt a k db) as [x db']. cbn in *. subst x. exists db'. split; [done|]. by eapply slot_equiv.
Qed.
Lemma slot_committed db o v r : slot_at db a k o v r -> exists db', GetCommittedStateAt a k db = (o, db') /\ slot_at db' a k o v r.
Proof using Ha Hb.
  intros Hs. destruct (@law_GetCommittedState _ _ _ sstore_laws a k Ha db (sl_good _ _ _ _ _ _ Hs)) as [[Hg _] He]. cbn in Hg, He.
  pose proof (GetCommittedStateAt_value a k db) as Hv. destruct (sl_object _ _ _ _ _ _ Hs) as (ob & Hl & Hc & _). rewrite Hl, Hc in Hv.
  destruct (GetCommittedStateAt a k db) as [x db']. cbn in *. subst x. exists db'. split; [done|]. by eapply slot_equiv.
Qed.
(** Only the refund counter changes. *)
Lemma slot_refund db db' o v r r' : slot_at db a k o v r -> good_ db' -> core db' = core db -> sd_accessList db' = sd_accessList db -> sd_refund db' = r' ->
  slot_at db' a k o v r'.
Proof.
  intros [Hg (ob & Hl & Hc & Hv) Hw Hr] Hg' Hcore Hal Hr'. split; try done.
  - exists ob. rewrite (view_core db' db a Hcore). unfold core in Hcore. injection Hcore as H1 H2 H3 H4. split_and!; [done|..].
    + rewrite <- Hc. apply committed_ctx; [done|by rewrite H3].
    + rewrite <- Hv. by apply current_ctx.
  - unfold SlotInAccessList in *. by rewrite Hal.
Qed.
Lemma slot_addRefund db o v r g : slot_at db a k o v r -> 0 <= r + g < 2 ^ 64 -> slot_at (AddRefund g db) a k o v (r + g).
Proof using Hb.
  intros Hs Hg. pose proof (sl_refund _ _ _ _ _ _ Hs) as Hr. eapply slot_refund; [exact Hs| |done|done|].
  - apply (@law_AddRefund _ _ _ sstore_laws g db (sl_good _ _ _ _ _ _ Hs)).
  - unfold AddRefund. cbn. by rewrite Hr, u64_small.
Qed.
Lemma slot_subRefund db o v r g : slot_at db a k o v r -> g <= r -> exists db', SubRefund g db = Ok db' /\ slot_at db' a k o v (r - g).
Proof using Hb.
  intros Hs Hg. pose proof (sl_refund _ _ _ _ _ _ Hs) as Hr. assert (exists db', SubRefund g db = Ok db' /\ core db' = core db /\ sd_accessList db' = sd_accessList db /\ sd_refund db' = r - g) as
    (db' & He & H1 & H2 & H3).
  { unfold SubRefund. cbn. rewrite Hr. destruct (Z.ltb_spec r g); [lia|]. by eexists. }
  exists db'. split; [done|]. eapply slot_refund; [exact Hs| |done..]. by apply (@law_SubRefund _ _ _ sstore_laws g db db' (sl_good _ _ _ _ _ _ Hs)).
Qed.
Lemma slot_set db o v v' r : slot_at db a k o v r -> slot_at (SetState a k v' db) a k o v' r.
Proof using Ha Hb.
  intros Hs. pose proof (@law_SetState _ _ _ sstore_laws a k v' Ha db (sl_good _ _ _ _ _ _ Hs)) as [Hg' _]. cbn in Hg'.
  destruct Hs as [Hg (ob & Hl & Hc & Hv) Hw Hr]. destruct (load_spec a db (gd_wf _ Hg)) as (db1 & Hget & _ & Hw1 & He & Hlk). rewrite Hl in Hget.
  apply live_inv in Hl as [Hl Hd]. rewrite Hl in Hlk. pose proof (ky_address db1 (wf_keyed _ Hw1) a ob Hlk) as Hoa.
  assert (rest db1 = rest db) as Hrest by apply He. unfold rest in Hrest.
  assert (sd_snap db1 = sd_snap db /\ sd_snapDestructs db1 = sd_snapDestructs db) as [Hs1 Hs2] by (split; apply He).
  destruct (objGetState_spec db1 ob k) as [Hprev Hoe]. pose proof (oe_address _ _ _ Hoe) as Hoa'. pose proof (oe_deleted _ _ _ Hoe) as Hd'.
  revert Hg'. unfold SetState, GetOrNewSmartContract. rewrite Hget. destruct (objGetState db1 ob k) as [prev o'] eqn:Hog. cbn [fst snd] in *. rewrite Hoa in Hoa'.
  assert (forall x, committed db x k = committed db1 x k) as Hctx by (intros x; apply committed_ctx; [done|by rewrite Hs2]).
  assert (committed db o' k = o) as Hco by (by rewrite Hctx, (oe_committed _ _ _ Hoe), <- Hctx).
  case_bool_decide as Hsame; intros Hg'; (split; [done| |unfold SlotInAccessList in *; fields; congruence|fields; congruence]).
  - exists o'. unfold view. fields. rewrite Hoa', lookup_insert_eq. split_and!; [unfold live; cbn; by rewrite Hd', Hd| |].
    + rewrite <- Hco. apply committed_ctx; fields; [done|by rewrite Hs2].
    + rewrite (current_ctx _ db1) by done. by rewrite (oe_current _ _ _ Hoe), <- Hprev.
  - exists (setState k v' o'). unfold view. fields. change (so_address (setState k v' o')) with (so_address o'). rewrite Hoa', lookup_insert_eq. split_and!; [unfold live; cbn; by rewrite Hd', Hd| |].
    + rewrite <- Hco. transitivity (committed db (setState k v' o') k); [apply committed_ctx; fields; [done|by rewrite Hs2]|done].
    + unfold current, setState. objfields. by rewrite lookup_insert_eq.
Qed.
End slot.

(** ** One write *)

Definition withDB (db : DB) (s : St) : St := setEvm (setDB db (s_evm s)) s.
Definition dbOf (s : St) : StateDB := evm_StateDB (s_evm s).

Lemma bind_from {A B} (m : M A) (g : A -> G B) s x s' : m s = Ok (x, s') -> (fromM m ≫= g) s = g x s'.
Proof. intros H. unfold mbind, G_bind, fromM. by rewrite H. Qed.
Lemma bind_ret {A B} (x : A) (g : A -> G B) s : ((mret x : G A) ≫= g) s = g x s.
Proof. done. Qed.
Lemma bind_read {A B} (f : DB -> A * DB) (g : A -> G B) s x db : f (dbOf s) = (x, db) -> (fromM (dbRead f) ≫= g) s = g x (withDB db s).
Proof. intros H. unfold mbind, G_bind, fromM, dbRead. unfold dbOf in H. by rewrite H. Qed.
Lemma bind_try {A B} (f : DB -> go A) (g : A -> G B) s x : f (dbOf s) = Ok x -> (fromM (dbTry f) ≫= g) s = g x s.
Proof. intros H. unfold mbind, G_bind, fromM, dbTry. unfold dbOf in H. by rewrite H. Qed.
Lemma bind_sub {B} gas (g : unit -> G B) s db : SubRefund gas (dbOf s) = Ok db -> (subRefund gas ≫= g) s = g tt (withDB db s).
Proof. intros H. unfold subRefund, mbind, G_bind, fromM, dbChange, mbind, M_bind, dbTry. unfold dbOf in H. cbn. by rewrite H. Qed.

(** The result of the gas function: the net cost of the write, and what it adds to the refund
    counter is at least the change of the deposit. *)
Definition priced_write (clearing : Z) (a : Address) (k o v w : Hash) (r : Z) (s : St) (result : res vmPanic ((vmError + Z) * St)) : Prop :=
  exists cost db r', result = Ok (inr cost, withDB db s) /\ slot_at db a k o v r' /\
    cost - (r' - r) = 100 + invested clearing o w - invested clearing o v /\
    deposit clearing o w - deposit clearing o v <= r' - r <= clearing + 19900 /\ 0 <= cost.

(** A step of the gas function that adds [d] to the refund counter. *)
Section earns.
Context (a : Address) (k o v : Hash).
Definition earns (m : G unit) (r d : Z) : Prop :=
  forall s, slot_at (dbOf s) a k o v r -> exists db, m s = Ok (inr tt, withDB db s) /\ slot_at db a k o v (r + d).
Lemma earns_nothing r : earns (mret tt) r 0.
Proof. intros s Hs. exists (dbOf s). rewrite Z.add_0_r. split; [by destruct s as [? ? ? ? []]|done]. Qed.
Lemma earns_add r g : 0 <= r + g < 2 ^ 64 -> earns (addRefund g) r g.
Proof using Hb. intros Hg s Hs. exists (AddRefund g (dbOf s)). split; [done|by apply slot_addRefund]. Qed.
Lemma earns_sub r g : g <= r -> earns (subRefund g) r (- g).
Proof using Hb.
  intros Hg s Hs. destruct (slot_subRefund a k _ _ _ _ g Hs Hg) as (db & He & Hdb). exists db. rewrite Z.add_opp_r. split; [|done].
  unfold subRefund, fromM, dbChange, mbind, M_bind, dbTry. cbn. fold (dbOf s). by rewrite He.
Qed.
Lemma earns_if (b : bool) m m' r d d' : (b = true -> earns m r d) -> (b = false -> earns m' r d') -> earns (if b then m else m') r (if b then d else d').
Proof. destruct b; auto. Qed.
(** Two steps and the price. *)
Lemma earned m1 m2 cost r d1 d2 s : earns m1 r d1 -> earns m2 (r + d1) d2 -> slot_at (dbOf s) a k o v r ->
  exists db, ((m1;; m2;; mret cost) : G Z) s = Ok (inr cost, withDB db s) /\ slot_at db a k o v (r + (d1 + d2)).
Proof.
  intros H1 H2 Hs. destruct (H1 s Hs) as (db1 & E1 & S1). destruct (H2 (withDB db1 s) S1) as (db2 & E2 & S2). exists db2. rewrite Z.add_assoc. split; [|done].
  unfold mbind at 1, G_bind at 1. rewrite E1. unfold mbind, G_bind. by rewrite E2.
Qed.
Lemma earned_once m cost r d s : earns m r d -> slot_at (dbOf s) a k o v r ->
  exists db, ((m;; mret cost) : G Z) s = Ok (inr cost, withDB db s) /\ slot_at db a k o v (r + d).
Proof. intros H Hs. destruct (H s Hs) as (db & E & S). exists db. split; [|done]. unfold mbind, G_bind. by rewrite E. Qed.
End earns.

(** The refunds of a write that changes the slot. *)
Definition earnings (clearing : Z) (o v w : Hash) : Z :=
  if bool_decide (o = v) then (if nonzero o && negb (nonzero w) then clearing else 0)
  else (if nonzero o then if nonzero v then if nonzero w then 0 else clearing else - clearing else 0) +
       (if bool_decide (o = w) then if nonzero o then 2800 else 19900 else 0).
Lemma earnings_net clearing o v w : v <> w ->
  (if bool_decide (o = v) then if nonzero o then 2900 else 20000 else 100) - earnings clearing o v w = 100 + invested clearing o w - invested clearing o v.
Proof.
  intros Hne. unfold earnings, invested, nonzero. repeat case_bool_decide; subst; cbn [negb andb]; try congruence; lia.
Qed.
Lemma earnings_deposit clearing o v w : 0 <= clearing -> v <> w ->
  deposit clearing o w - deposit clearing o v <= earnings clearing o v w <= clearing + 19900.
Proof.
  intros Hc Hne. unfold earnings, deposit, nonzero. repeat case_bool_decide; subst; cbn [negb andb]; try congruence; lia.
Qed.

Lemma sstore_price clearing m s a o v r x y l : is_addr a -> c_self (s_contract s) = a -> s_stack s = x :: y :: l -> SstoreSentryGasEIP2200 < c_Gas (s_contract s) ->
  0 <= clearing <= 2 ^ 32 -> deposit clearing o v <= r -> 0 <= r < 2 ^ 63 -> slot_at (dbOf s) a (uBytes32 x) o v r ->
  priced_write clearing a (uBytes32 x) o v (uBytes32 y) r s (makeGasSStoreFunc clearing m s).
Proof using Hb.
  intros Ha Hself Hst Hgas Hcl Hdep Hr Hs. set (k := uBytes32 x) in *. set (w := uBytes32 y).
  destruct (slot_read a k Ha _ _ _ _ Hs) as (db1 & E1 & S1). pose proof (sl_warm _ _ _ _ _ _ S1) as Hwarm.
  unfold makeGasSStoreFunc, back, self. rewrite (bind_from _ _ s (c_Gas (s_contract s)) s) by done. destruct (Z.leb_spec (c_Gas (s_contract s)) SstoreSentryGasEIP2200); [lia|].
  rewrite (bind_from _ _ s y s) by (unfold Back; by rewrite Hst). rewrite (bind_from _ _ s x s) by (unfold Back; by rewrite Hst). rewrite (bind_from _ _ s a s) by (by rewrite <- Hself).
  fold k w. rewrite (bind_read _ _ _ v db1) by exact E1. rewrite (bind_try _ _ _ (true, true)) by exact Hwarm. rewrite bind_ret.
  unfold WarmStorageReadCostEIP2929, SstoreResetGasEIP2200, SstoreSetGasEIP2200, ColdSloadCostEIP2929. rewrite !Z.add_0_l.
  case_bool_decide as Hvw.
  { exists 100, db1, r. subst v. split_and!; try done; lia. }
  destruct (slot_committed a k Ha db1 _ _ _ S1) as (db2 & E2 & S2). rewrite (bind_read _ _ _ o db2) by exact E2.
  pose proof (earnings_net clearing o v w Hvw) as Hnet. pose proof (earnings_deposit clearing o v w ltac:(lia) Hvw) as Hearn.
  assert (forall cost db d result, result = Ok (inr cost, withDB db (withDB db2 (withDB db1 s))) -> slot_at db a k o v (r + d) -> d = earnings clearing o v w ->
    cost = (if bool_decide (o = v) then if nonzero o then 2900 else 20000 else 100) -> priced_write clearing a k o v w r s result) as Hdone.
  { intros cost db d result -> Hdb -> ->. eexists _, db, _. split_and!; [reflexivity|exact Hdb|lia..|]. repeat case_match; lia. }
  fold (nonzero o). unfold deposit in Hdep. set (s2 := withDB db2 (withDB db1 s)) in *. assert (slot_at (dbOf s2) a k o v r) as Hs2 by exact S2. clearbody s2.
  destruct (bool_decide (o = v)) eqn:Hov.
  - destruct (bool_decide (o = Evm.zeroHash)) eqn:Ho.
    { eapply (Hdone _ (dbOf s2) 0); [by destruct s2 as [? ? ? ? []]|by rewrite Z.add_0_r| |]; unfold earnings, nonzero; by rewrite ?Hov, ?Ho. }
    destruct (earned_once a k o v (if bool_decide (w = Evm.zeroHash) then addRefund clearing else mret tt) (5000 - 2100) r
      (if bool_decide (w = Evm.zeroHash) then clearing else 0) s2) as (db & E & S); [|exact Hs2|].
    { apply earns_if; intros _; [apply earns_add; lia|apply earns_nothing]. }
    eapply (Hdone _ db); [exact E|exact S|unfold earnings, nonzero; rewrite Hov, Ho; by destruct (bool_decide (w = _))|unfold nonzero; by rewrite ?Hov, ?Ho].
  - set (d1 := if nonzero o then if bool_decide (v = Evm.zeroHash) then - clearing else if bool_decide (w = Evm.zeroHash) then clearing else 0 else 0).
    assert (0 <= r + d1 <= r + clearing) as Hd1.
    { unfold d1. unfold nonzero in *. repeat case_bool_decide; cbn [negb andb] in *; lia. }
    destruct (earned a k o v
      (if nonzero o then if bool_decide (v = Evm.zeroHash) then subRefund clearing else if bool_decide (w = Evm.zeroHash) then addRefund clearing else mret tt else mret tt)
      (if bool_decide (o = w) then if bool_decide (o = Evm.zeroHash) then addRefund (20000 - 100) else addRefund (5000 - 2100 - 100) else mret tt) 100 r d1
      (if bool_decide (o = w) then if bool_decide (o = Evm.zeroHash) then 20000 - 100 else 5000 - 2100 - 100 else 0) s2) as (db & E & S); [| |exact Hs2|].
    + unfold d1. apply earns_if; intros Hn; [|apply earns_nothing]. apply earns_if; intros Hv; [|apply earns_if; intros _; [apply earns_add; lia|apply earns_nothing]].
      apply earns_sub. unfold nonzero in Hdep at 2. rewrite Hv, Hn in Hdep. exact Hdep.
    + repeat (apply earns_if; intros _); [apply earns_add; lia..|apply earns_nothing].
    + eapply (Hdone _ db); [exact E|exact S| |by rewrite ?Hov]. unfold earnings, d1, nonzero. rewrite Hov. repeat case_bool_decide; cbn [negb]; lia.
Qed.


(** ** Sequences of writes *)

(** SSTOREs to the slot [x], each with its gas function before it; the cost of all. *)
Fixpoint writeAll (clearing : Z) (x : W) (ys : list W) : G Z :=
  match ys with
  | [] => mret 0
  | y :: ys =>
      fromM (modify (setStack [x; y]));;
      cost ← makeGasSStoreFunc clearing 0;
      fromM opSstore;;
      total ← writeAll clearing x ys;
      mret (cost + total)
  end.
Definition lastValue (v : Hash) (ys : list W) : Hash := default v (last (map uBytes32 ys)).

(** The contract that writes: allowed to, and with gas beyond the sentry. *)
Record writer (a : Address) (s : St) : Prop := {
  wr_addr : is_addr a;
  wr_self : c_self (s_contract s) = a;
  wr_gas : SstoreSentryGasEIP2200 < c_Gas (s_contract s);
  wr_allowed : evm_readOnly (s_evm s) = false
}.

Lemma opSstore_eval s x y a : s_stack s = [x; y] -> writer a s ->
  opSstore s = Ok ([], None, withDB (SetState a (uBytes32 x) (uBytes32 y) (dbOf s)) (setStack [] s)).
Proof.
  intros Hst [_ Hself _ Hro]. unfold opSstore, readOnly, get, pop, address, dbDo, modify, mbind, M_bind, done_, mret, M_ret. cbn. rewrite Hro, Hst. cbn. by rewrite Hself.
Qed.
Lemma lastValue_cons v y ys : lastValue v (y :: ys) = lastValue (uBytes32 y) ys.
Proof.
  unfold lastValue. cbn [map]. destruct (last (map uBytes32 ys)) as [z|] eqn:Hl.
  - apply last_Some in Hl as [l' Hl]. rewrite Hl. change (uBytes32 y :: l' ++ [z]) with ((uBytes32 y :: l') ++ [z]). by rewrite !last_snoc.
  - apply last_None in Hl. by rewrite Hl.
Qed.
Lemma bind_gas {A B} (m : G A) (g : A -> G B) s x s' : m s = Ok (inr x, s') -> (m ≫= g) s = g x s'.
Proof. intros H. unfold mbind, G_bind. by rewrite H. Qed.

Lemma writes_net clearing x ys a o v r s : writer a s -> 0 <= clearing <= 2 ^ 32 -> deposit clearing o v <= r -> 0 <= r -> r + 2 ^ 33 * len ys < 2 ^ 63 ->
  slot_at (dbOf s) a (uBytes32 x) o v r -> exists total s' r', writeAll clearing x ys s = Ok (inr total, s') /\
    slot_at (dbOf s') a (uBytes32 x) o (lastValue v ys) r' /\ total - (r' - r) = 100 * len ys + invested clearing o (lastValue v ys) - invested clearing o v /\
    deposit clearing o (lastValue v ys) - deposit clearing o v <= r' - r.
Proof using Hb.
  intros Hw Hcl. revert v r s Hw. induction ys as [|y ys IH]; intros v r s Hw Hdep Hr0 Hr Hs.
  { exists 0, s, r. split_and!; try done; unfold lastValue; cbn; unfold len; cbn; lia. }
  rewrite len_cons in Hr. pose proof (len_nonneg ys). cbn [writeAll]. rewrite (bind_from _ _ s tt (setStack [x; y] s)) by done.
  destruct (sstore_price clearing 0 (setStack [x; y] s) a o v r x y []) as (cost & db & r1 & E1 & S1 & N1 & D1 & H0); try done; try apply Hw; [lia|].
  rewrite (bind_gas _ _ _ _ _ E1). assert (writer a (withDB db (setStack [x; y] s))) as Hw1 by (by destruct Hw).
  rewrite (bind_from _ _ _ _ _ (opSstore_eval (withDB db (setStack [x; y] s)) x y a eq_refl Hw1)). set (s1 := withDB _ _).
  assert (slot_at (dbOf s1) a (uBytes32 x) o (uBytes32 y) r1) as S2 by (apply slot_set with (v := v); [apply Hw|exact S1]).
  assert (0 <= deposit clearing o (uBytes32 y)) by (unfold deposit; destruct (_ && _); lia).
  destruct (IH (uBytes32 y) r1 s1) as (total & s' & r' & E2 & S3 & N2 & D2); [by destruct Hw1|lia|lia|lia|exact S2|].
  rewrite (bind_gas _ _ _ _ _ E2), lastValue_cons, len_cons. exists (cost + total), s', r'. split_and!; [done|done|lia..].
Qed.

End sstore.
End Sstore.
