(* ===== verification/EvmDemo.v ===== *)
(** * A machine to run

    Concrete parameters for the theorems on the virtual machine: a hash without collisions, a
    database with a few contracts, and calls of them. *)

From S2P Require Import Prelude Rlp AccountKey StateDB StateRevert EvmWord EvmCode EvmMem EvmParams EvmState EvmGas EvmOps EvmTable EvmRun.
From S2P Require Import EvmSpec EvmInv EvmPlain EvmCost EvmStep EvmCalls EvmLoop EvmFrames EvmMain EvmStateDB Blake2b EvmPrecompiles EvmPreSpec EvmTheorems EvmInstr EvmSstore.

Module Demo.
Export Theorems.
Import Instr.

(** ** Parameters *)

(** A hash of 32 numbers, the last of which stands for the whole string. *)
Definition demoHash (b : bytes) : Hash := replicate 31 0 ++ [Z.pos (encode b)].
Lemma demoHash_inj : Inj (=) (=) demoHash.
Proof. intros b b' H. apply app_inv_head in H. injection H as H. by apply (inj encode). Qed.

(** Counts down from three in a loop, calls the contract below, and stops. *)
Definition callerCode : bytes :=
  [96; 3; 91; 96; 1; 144; 3; 128; 96; 2; 87;
   96; 0; 96; 0; 96; 0; 96; 0; 96; 0; 97; 9; 66; 97; 195; 80; 241; 0].
(** Stores five in its first slot. *)
Definition storeCode_ : bytes := [96; 5; 96; 0; 85; 0].
(** An instruction that does not exist. *)
Definition failCode : bytes := [96; 5; 96; 0; 85; 254].

#[export] Instance demoState : State.StateEnv := {|
  State.keccak := demoHash;
  State.contractCode h :=
    if bool_decide (h = demoHash callerCode) then Some callerCode
    else if bool_decide (h = demoHash storeCode_) then Some storeCode_
    else if bool_decide (h = demoHash failCode) then Some failCode else None;
  State.openStorageTrie _ := Some ∅;
  State.hashExt _ := [];
  State.compressPubkey _ := Ok []
|}.
#[export] Instance demoCrypto : Crypto := {|
  Sum256 _ := replicate 32 0; ripemd160 _ := replicate 20 0; Keccak256 := demoHash; Ecrecover _ _ := None;
  G1 := unit; G2 := unit; UnmarshalG1 _ := None; MarshalG1 _ := []; UnmarshalG2 _ := None; AddG1 _ _ := tt; ScalarMult _ _ := tt;
  PairingCheck _ _ := false; VerifyProof _ _ _ _ := false;
  CompressPubkey _ := Ok []; PubkeyToAddress _ := zeroAddress; IsIstanbulAt _ := true
|}.
Lemma demo_backend : backend_ok.
Proof.
  split; try done.
  - split; try done. intros pk _. exists []. by repeat constructor.
  - apply demoHash_inj.
  - intros h c. cbn. repeat case_bool_decide; try done; intros [= <-]; by split.
Qed.

(** ** A state *)

Definition alice : Address := BytesToAddress [9; 160].
Definition contractA : Address := BytesToAddress [9; 65].
Definition contractB : Address := BytesToAddress [9; 66].
Definition contractF : Address := BytesToAddress [9; 70].
Definition demoAccount (code : bytes) : Account.Account :=
  Account.SmartContractAccount (Account.mkCommon 1 0 false AccountKeyFail) Account.emptyExtHash (demoHash code) 0.
Definition demoAccounts : gmap Address Account.Account :=
  list_to_map [(alice, Account.ExternallyOwnedAccount (Account.mkCommon 7 1000 false AccountKeyLegacy));
               (contractA, demoAccount callerCode); (contractB, demoAccount storeCode_); (contractF, demoAccount failCode)].
Definition demoDB : State.StateDB := State.New demoAccounts None.

Lemma demoAccounts_all (P : Account.Account -> Prop) : Forall P (map snd [(alice, Account.ExternallyOwnedAccount (Account.mkCommon 7 1000 false AccountKeyLegacy));
               (contractA, demoAccount callerCode); (contractB, demoAccount storeCode_); (contractF, demoAccount failCode)]) ->
  map_Forall (fun _ acc => P acc) demoAccounts.
Proof.
  intros HP a acc Ha. apply elem_of_list_to_map_2 in Ha. apply (proj1 (Forall_forall _ _) HP). apply list_elem_of_fmap. by exists (a, acc).
Qed.
(** The trie is this one, and there is no flat snapshot. *)
#[local] Instance demoBelow : Below := fun trie snap => trie = demoAccounts /\ snap = None.
Lemma demoDB_good : good_ demoDB.
Proof. apply good_New; [done| |done]. apply demoAccounts_all. by repeat constructor. Qed.

(** ** Runs *)

Definition demoRules : Rules := mkRules true true true true true true true true true.
Definition demoContext : BlockContext := mkBlockContext (fun _ => zeroHash) zeroAddress zeroAddress 0 100 0 1 0 zeroHash.
Definition demoConfig : Config := mkConfig false false 1000000 false.
Definition demoEnv : Env := newEnv demoContext (mkTxContext alice 1) demoConfig 1 demoRules (fun _ => 0).
(** The machine at the start of a transaction that has warmed the contracts up. *)
Definition demoEVM : EVM :=
  mkEVM (dbAddAddressToAccessList contractB (dbAddAddressToAccessList contractF (dbAddAddressToAccessList contractA demoDB))) 0 0 0 false [] ∅ 0.
Lemma demoEVM_ok : evm_ok demoHash demoEVM.
Proof.
  pose proof (backend_laws demo_backend) as Hl. split; [|intros code bits _; cbn; by rewrite lookup_empty].
  assert (forall a db, is_addr a -> good db -> good (dbAddAddressToAccessList a db)) as H.
  { intros a db Ha Hg. apply (law_AddAddress (hash:=demoHash) a Ha db Hg). }
  repeat (apply H; [done|]). apply demoDB_good.
Qed.
Abbreviation demoTable := (instructionSet demoRules).

(** The call of the first contract: its loop ends, and the contract that it calls stores five. *)
Example demo_call : match Call demoEnv demoTable 100 (AccountRef alice) contractA [] 100000 0 demoEVM with
  | Ok (ret, gas, err, e) => ret = [] /\ gas = 77692 /\ err = None /\ (dbGetState contractB zeroHash (evm_StateDB e)).1 = RLP.be 32 5
  | _ => False
  end.
Proof. vm_compute. done. Qed.

(** ** Witnesses *)

(** The result of a run and the machine after it. *)
Definition outcome {A B} (r : res vmPanic (A * B)) : option A := match r with Ok (a, _) => Some a | _ => None end.
Definition after {A B} (r : res vmPanic (A * B)) (d : B) : B := match r with Ok (_, b) => b | _ => d end.
Lemma outcome_Ok {A B} (r : res vmPanic (A * B)) a d : outcome r = Some a -> r = Ok (a, after r d).
Proof. destruct r as [[a' b]| | |]; cbn; by intros [= ->]. Qed.

Lemma evm_terminates_witness :
  (exists r, r <> NoFuel /\ forall fuel, 100000 < Z.of_nat fuel -> Call demoEnv demoTable fuel (AccountRef alice) contractA [] 100000 0 demoEVM = r) /\
  (exists r, r <> NoFuel /\ forall fuel, 100000 < Z.of_nat fuel -> Create demoEnv demoTable fuel (AccountRef alice) [] 100000 0 CodeFormatEVM demoEVM = r).
Proof. apply (evm_terminates demo_backend); try done. apply demoEVM_ok. Defined.
Lemma evm_sound_witness :
  match Call demoEnv demoTable 100 (AccountRef alice) contractA [] 100000 0 demoEVM with
  | Ok (ret, rest, err, e') => evm_depth e' = 0 /\ evm_readOnly e' = false /\ evm_ok demoHash e' /\ 0 <= rest <= 100000
  | Err p => True
  | Panic => False
  | NoFuel => Z.of_nat 100 <= 100000
  end.
Proof. apply (evm_sound demo_backend demoContext (mkTxContext alice 1) demoConfig 1 demoRules); try done. apply demoEVM_ok. Defined.

(** The contract that stores and then fails, called by another contract. *)
Definition demoCaller : ContractRef := ContractAsRef contractA alice alice 0.
Definition demoFailed : EVM := after (Call demoEnv demoTable 100 demoCaller contractF [] 100000 0 demoEVM) demoEVM.

(** A static call of the contract that stores. *)
Definition demoStatic : EVM := after (StaticCall demoEnv demoTable 100 demoCaller contractB [] 100000 demoEVM) demoEVM.
Lemma static_call_pure_witness :
  StaticCall demoEnv demoTable 100 demoCaller contractB [] 100000 demoEVM = Ok ([], 0, Some ErrWriteProtection, demoStatic) /\
  same_ (evm_StateDB demoEVM) (evm_StateDB demoStatic).
Proof.
  assert (forall H : StaticCall demoEnv demoTable 100 demoCaller contractB [] 100000 demoEVM = Ok ([], 0, Some ErrWriteProtection, demoStatic), _) as Hr
    by exact (fun H => static_call_pure demo_backend demoContext (mkTxContext alice 1) demoConfig 1 demoRules (fun _ => 0) 100 demoCaller contractB [] 100000
      demoEVM ([], 0, Some ErrWriteProtection) demoStatic ltac:(clear H; done) ltac:(clear H; done) ltac:(clear H; done) ltac:(clear H; done) demoEVM_ok H).
  split; [|apply Hr]; (apply outcome_Ok; vm_compute; reflexivity).
Defined.

(** The first turns of the contract with the loop. *)
Definition demoContract : Contract := SetCallCode contractA (demoHash callerCode) callerCode (NewContract (AccountRef alice) contractA 0 100000).
Definition demoStart : St := mkSt 0 [] NewMemory (setInput [] demoContract) demoEVM.
Definition demoTurn (s : St) : St := after (step demoEnv demoTable (callsWith demoEnv (loop demoEnv demoTable 0)) s) s.
Lemma demoContract_ok : contract_ok demoHash demoContract.
Proof. split; try done. by right. Qed.
Lemma demo_turn n : (n < 5)%nat -> turn demoEnv (Nat.iter n demoTurn demoStart) (Nat.iter (S n) demoTurn demoStart).
Proof. intros Hn. do 5 (destruct n as [|n]; [apply (turn_step demoEnv 0 []); apply outcome_Ok; vm_compute; reflexivity|]). lia. Qed.
Lemma run_bounds_witness : let s := Nat.iter 5 demoTurn demoStart in
  rtc (turn demoEnv) demoStart s /\
  let words := Len (s_mem s) / 32 in
  len (s_stack s) <= 1024 /\ Len (s_mem s) = 32 * words /\ 3 * words + words * words / 512 + c_Gas (s_contract s) <= 100000 /\
  0 <= c_Gas (s_contract s) /\ 0 <= s_pc s < 2 ^ 64 /\ step demoEnv demoTable (callsWith demoEnv (loop demoEnv demoTable 3)) s <> Panic.
Proof.
  assert (rtc (turn demoEnv) demoStart (Nat.iter 5 demoTurn demoStart)) as H.
  { eapply rtc_l; [apply (demo_turn 0); lia|]. eapply rtc_l; [apply (demo_turn 1); lia|]. eapply rtc_l; [apply (demo_turn 2); lia|].
    eapply rtc_l; [apply (demo_turn 3); lia|]. eapply rtc_l; [apply (demo_turn 4); lia|]. apply rtc_refl. }
  split; [exact H|]. apply (run_bounds demo_backend demoContext (mkTxContext alice 1) demoConfig 1 demoRules (fun _ => 0) demoContract [] demoEVM); try done.
  - apply demoContract_ok.
  - apply demoEVM_ok.
Defined.

Lemma statedb_keeps_promises_witness : StateLaws demoHash.
Proof. apply (statedb_keeps_promises demo_backend). Defined.

Lemma jump_destinations_witness : exists b s', validJumpdest (uSetUint64 2) demoStart = Ok (b, s') /\
  (b = true <-> callerCode !! Z.to_nat (uv (uSetUint64 2)) = Some JUMPDEST /\ starts callerCode (uv (uSetUint64 2))).
Proof.
  apply (jump_destinations demo_backend demoStart (uSetUint64 2)). apply fresh_inv; [apply demoContract_ok|done|done|apply demoEVM_ok].
Defined.

(** ADD takes two words and leaves one. *)
Lemma instruction_tables_fit_witness : exists o, demoTable !! 1 = Some o /\
  minStack_ o = 2 /\ maxStack_ o = 1024 + 2 - 1 /\ memorySize_ o = memOf (execute o) /\
  (forall f, memorySize_ o = Some f -> (memDepth f <= 2)%nat) /\ (forall g, dynamicGas o = Some g -> (looksAt g <= 2)%nat) /\
  (halts (execute o) = true \/ 1 <= constantGas o \/ exists g, dynamicGas o = Some g /\ costly g = true).
Proof.
  destruct (demoTable !! 1) as [o|] eqn:Ho; [|vm_compute in Ho; done]. exists o. split; [done|].
  assert (execute o = F_opAdd) as He by (vm_compute in Ho; injection Ho as <-; reflexivity).
  pose proof (instruction_tables_fit demoRules 1 o Ho) as H. rewrite He in *. exact H.
Defined.

(** ** Storage *)

Import Sstore.
Definition demoSlot : Hash := uBytes32 (uSetUint64 0).
Definition slotDB : State.StateDB :=
  match dbAddSlotToAccessList contractB demoSlot (evm_StateDB demoEVM) with Ok db => db | _ => evm_StateDB demoEVM end.
Definition slotState : St :=
  mkSt 0 [] NewMemory (NewContract (AccountRef alice) contractB 0 100000) (setDB slotDB demoEVM).
Lemma slotDB_at : slot_at slotDB contractB demoSlot zeroHash zeroHash 0.
Proof.
  pose proof (backend_laws demo_backend) as Hl. split; [| |vm_compute; reflexivity|reflexivity].
  - assert (dbAddSlotToAccessList contractB demoSlot (evm_StateDB demoEVM) = Ok slotDB) as He.
    { assert (match dbAddSlotToAccessList contractB demoSlot (evm_StateDB demoEVM) with Ok _ => true | _ => false end = true) as H by (vm_compute; reflexivity).
      unfold slotDB. by destruct (dbAddSlotToAccessList _ _ _). }
    destruct (law_AddSlot (hash:=demoHash) contractB demoSlot (evm_StateDB demoEVM) slotDB) as [Hx _]; [reflexivity|apply demoEVM_ok|exact He|].
    exact (ext_good _ _ Hx).
  - assert ((fun o => (Revert.committed slotDB o demoSlot, Revert.current slotDB o demoSlot)) <$> Revert.live (Revert.view slotDB contractB) = Some (zeroHash, zeroHash)) as H
      by (vm_compute; reflexivity).
    destruct (Revert.live (Revert.view slotDB contractB)) as [o|]; [|done]. injection H as H1 H2. by exists o.
Qed.

(** ** Instructions *)

Definition demoStack (l : list W) : St := setStack l demoStart.
Lemma shift_instructions_witness : exists x y z,
  opSHL (demoStack [uSetUint64 300; uSetAllOne]) = Ok ([], None, demoStack [x]) /\ uv x = (uv uSetAllOne * 2 ^ 300) mod 2 ^ 256 /\
  opSHR (demoStack [uSetUint64 300; uSetAllOne]) = Ok ([], None, demoStack [y]) /\ uv y = uv uSetAllOne / 2 ^ 300 /\
  opSAR (demoStack [uSetUint64 300; uSetAllOne]) = Ok ([], None, demoStack [z]) /\ uv z = (s256 (uv uSetAllOne) / 2 ^ 300) mod 2 ^ 256.
Proof. apply (shift_instructions (demoStack [uSetUint64 300; uSetAllOne]) (uSetUint64 300) uSetAllOne []). done. Defined.
Definition memState : St := setMem (Increase 64 NewMemory) (demoStack [uSetUint64 5; uSetUint64 258]).
Lemma mstore_mload_witness : exists s' w, (opMstore;; push (uSetUint64 5);; opMload) memState = Ok ([], None, s') /\ s_stack s' = [w] /\ uv w = 258 /\
  Len (s_mem s') = 64 /\ forall i, Z.of_nat i < 5 \/ 5 + 32 <= Z.of_nat i -> m_store (s_mem s') !! i = m_store (s_mem memState) !! i.
Proof. apply (mstore_mload memState (uSetUint64 5) (uSetUint64 258) []); try done. Defined.

(** ** Creations *)

(** Returns a byte of code, 0xEF. *)
Definition initCode : bytes := [96; 239; 96; 0; 83; 96; 1; 96; 0; 243].
(** The creation is refused, and yet the code is there and gas is left. *)
Example demo_rejected : match Create demoEnv demoTable 100 (AccountRef alice) initCode 100000 0 CodeFormatEVM demoEVM with
  | Ok (ret, a, gas, err, e) => err = Some ErrInvalidCode /\ (dbGetCode a (evm_StateDB e)).1 = [239] /\ 0 < gas
  | _ => False
  end.
Proof. vm_compute. done. Qed.
Definition demoSet : bool * State.StateDB := dbSetCode contractA [239] (evm_StateDB demoEVM).
End Demo.
