(* ===== verification/Tx.v ===== *)
(** * Transactions

    Model of [blockchain/types/transaction.go] and of the [tx_internal_data*.go] files: the
    types of transactions, their fields, the gas they cost before anything runs, and how a fee
    is split between the sender and the fee payer.

    The twenty-one types of the chain's own transactions are seven kinds, each in a version
    whose sender pays, one whose fee payer pays, and one in which the two share the fee; the
    three versions of a kind share their code up to the gas for the fee payer. *)

From S2P Require Import Prelude Rlp AccountKey EvmWord EvmCode EvmMem EvmParams EvmState.

Module Tx.
Export Evm Params.

(** ** Parameters ([params/protocol_params.go]) *)

Definition TxGas := 21000.
Definition TxGasContractCreation := 53000.
Definition TxDataZeroGas := 4.
Definition TxDataNonZeroGas := 68.
Definition TxDataGas := 100.
Definition TxChainDataAnchoringGas := 21000.
Definition TxGasAccountUpdate := 21000.
Definition TxGasFeeDelegated := 10000.
Definition TxGasFeeDelegatedWithRatio := 15000.
Definition TxGasCancel := 21000.
Definition TxGasValueTransfer := 21000.
Definition TxGasContractExecution := 21000.
Definition TxGasHumanReadable := 4000000000.
Definition TxAccessListAddressGas := 2400.
Definition TxAccessListStorageKeyGas := 1900.
Definition CodeFormatLast := 1.
Definition MaxUint64 := 2 ^ 64 - 1.

(** ** The data of a transaction *)

(** [TxSignature]. *)
Record TxSignature := mkSig { sig_V : Z; sig_R : Z; sig_S : Z }.
(** [AccessList], as a list of addresses with their storage keys. *)
Abbreviation AccessList := (list (Address * list Hash)).

(** Who pays: the sender, a fee payer, or both; a fee payer signs as well. *)
Inductive FeeDelegation :=
| NotDelegated
| FeeDelegated (feePayer : Address) (feePayerSignatures : list TxSignature)
| FeeDelegatedWithRatio (feeRatio : Z) (feePayer : Address) (feePayerSignatures : list TxSignature).

(** What a transaction asks for, beyond the fields that all have. *)
Inductive TxKind :=
| ValueTransfer (recipient : Address) (amount : Z)
| ValueTransferMemo (recipient : Address) (amount : Z) (payload : bytes)
| AccountUpdate (key : AccountKey)
| SmartContractDeploy (recipient : option Address) (amount : Z) (payload : bytes) (humanReadable : bool) (codeFormat : Z)
| SmartContractExecution (recipient : Address) (amount : Z) (payload : bytes)
| Cancel
| ChainDataAnchoring (payload : bytes).

(** [TxInternalData] and its implementations. *)
Inductive TxInternalData :=
| TxInternalDataLegacy (nonce price gasLimit : Z) (recipient : option Address) (amount : Z) (payload : bytes) (sig : TxSignature)
| TxInternalDataEthereumAccessList (chainID nonce price gasLimit : Z) (recipient : option Address) (amount : Z) (payload : bytes)
    (accessList : AccessList) (sig : TxSignature)
| TxInternalDataEthereumDynamicFee (chainID nonce gasTipCap gasFeeCap gasLimit : Z) (recipient : option Address) (amount : Z)
    (payload : bytes) (accessList : AccessList) (sig : TxSignature)
| TxInternalDataKaia (kind : TxKind) (fee : FeeDelegation) (nonce price gasLimit : Z) (from : Address) (signatures : list TxSignature).

(** ** Types *)

Definition SubTxTypeBits := 3.
Definition TxTypeLegacyTransaction := 0.
Definition TxTypeAccountCreation := Z.shiftl 3 SubTxTypeBits.
Definition TxTypeAccountUpdate := Z.shiftl 4 SubTxTypeBits.
Definition TxTypeSmartContractDeploy := Z.shiftl 5 SubTxTypeBits.
Definition TxTypeCancel := Z.shiftl 7 SubTxTypeBits.
Definition TxTypeChainDataAnchoring := Z.shiftl 9 SubTxTypeBits.
Definition TxTypeEthereumAccessList := 30721.
Definition TxTypeEthereumDynamicFee := 30722.
Definition EthereumTxTypeEnvelope := 120.

(** The base types, and the two that follow each of them. *)
Definition baseType (k : TxKind) : Z :=
  match k with
  | ValueTransfer _ _ => Z.shiftl 1 SubTxTypeBits
  | ValueTransferMemo _ _ _ => Z.shiftl 2 SubTxTypeBits
  | AccountUpdate _ => TxTypeAccountUpdate
  | SmartContractDeploy _ _ _ _ _ => TxTypeSmartContractDeploy
  | SmartContractExecution _ _ _ => Z.shiftl 6 SubTxTypeBits
  | Cancel => TxTypeCancel
  | ChainDataAnchoring _ => TxTypeChainDataAnchoring
  end.
Definition Type_ (d : TxInternalData) : Z :=
  match d with
  | TxInternalDataLegacy _ _ _ _ _ _ _ => TxTypeLegacyTransaction
  | TxInternalDataEthereumAccessList _ _ _ _ _ _ _ _ _ => TxTypeEthereumAccessList
  | TxInternalDataEthereumDynamicFee _ _ _ _ _ _ _ _ _ _ => TxTypeEthereumDynamicFee
  | TxInternalDataKaia k fee _ _ _ _ _ =>
      baseType k + match fee with NotDelegated => 0 | FeeDelegated _ _ => 1 | FeeDelegatedWithRatio _ _ _ => 2 end
  end.

(** Predicates on types, by their bits; [TxTypeMask] keeps eight of the sixteen. *)
Definition withoutSubType (t : Z) : Z := Z.ldiff t (Z.shiftl 1 SubTxTypeBits - 1).
Definition IsAccountCreation (t : Z) : bool := t =? TxTypeAccountCreation.
Definition IsAccountUpdate (t : Z) : bool := withoutSubType t =? TxTypeAccountUpdate.
Definition IsContractDeploy (t : Z) : bool := withoutSubType t =? TxTypeSmartContractDeploy.
Definition IsCancelTransaction (t : Z) : bool := withoutSubType t =? TxTypeCancel.
Definition IsChainDataAnchoring (t : Z) : bool := withoutSubType t =? TxTypeChainDataAnchoring.
Definition IsLegacyTransaction (t : Z) : bool := t =? TxTypeLegacyTransaction.
Definition IsEthTypedTransaction (t : Z) : bool := Z.land t 65280 =? Z.shiftl EthereumTxTypeEnvelope 8.
Definition IsEthereumTransaction (t : Z) : bool := IsLegacyTransaction t || IsEthTypedTransaction t.
Definition TxFeeDelegationBitMask := 1.
Definition TxFeeDelegationWithRatioBitMask := 2.
Definition IsFeeDelegatedType (t : Z) : bool :=
  negb (Z.land (u8 t) (Z.lor TxFeeDelegationBitMask TxFeeDelegationWithRatioBitMask) =? 0) && negb (IsEthereumTransaction t).
Definition IsFeeDelegatedWithRatioTransaction (t : Z) : bool :=
  negb (Z.land (u8 t) TxFeeDelegationWithRatioBitMask =? 0) && negb (IsEthereumTransaction t).

(** ** Fields *)

Definition GetAccountNonce (d : TxInternalData) : Z :=
  match d with
  | TxInternalDataLegacy n _ _ _ _ _ _ | TxInternalDataEthereumAccessList _ n _ _ _ _ _ _ _
  | TxInternalDataEthereumDynamicFee _ n _ _ _ _ _ _ _ _ | TxInternalDataKaia _ _ n _ _ _ _ => n
  end.
Definition GetPrice (d : TxInternalData) : Z :=
  match d with
  | TxInternalDataLegacy _ p _ _ _ _ _ | TxInternalDataEthereumAccessList _ _ p _ _ _ _ _ _
  | TxInternalDataEthereumDynamicFee _ _ _ p _ _ _ _ _ _ | TxInternalDataKaia _ _ _ p _ _ _ => p
  end.
Definition GetGasLimit (d : TxInternalData) : Z :=
  match d with
  | TxInternalDataLegacy _ _ g _ _ _ _ | TxInternalDataEthereumAccessList _ _ _ g _ _ _ _ _
  | TxInternalDataEthereumDynamicFee _ _ _ _ g _ _ _ _ _ | TxInternalDataKaia _ _ _ _ g _ _ => g
  end.
(** The zero address stands for no recipient. *)
Definition someAddress (a : Address) : option Address := if bool_decide (a = zeroAddress) then None else Some a.
Definition GetRecipient (d : TxInternalData) : option Address :=
  match d with
  | TxInternalDataLegacy _ _ _ r _ _ _ | TxInternalDataEthereumAccessList _ _ _ _ r _ _ _ _
  | TxInternalDataEthereumDynamicFee _ _ _ _ _ r _ _ _ _ => r
  | TxInternalDataKaia k _ _ _ _ _ _ =>
      match k with
      | ValueTransfer r _ | ValueTransferMemo r _ _ | SmartContractExecution r _ _ => someAddress r
      | SmartContractDeploy r _ _ _ _ => r
      | AccountUpdate _ | Cancel | ChainDataAnchoring _ => None
      end
  end.
Definition GetAmount (d : TxInternalData) : Z :=
  match d with
  | TxInternalDataLegacy _ _ _ _ a _ _ | TxInternalDataEthereumAccessList _ _ _ _ _ a _ _ _
  | TxInternalDataEthereumDynamicFee _ _ _ _ _ _ a _ _ _ => a
  | TxInternalDataKaia k _ _ _ _ _ _ =>
      match k with
      | ValueTransfer _ a | ValueTransferMemo _ a _ | SmartContractExecution _ a _ | SmartContractDeploy _ a _ _ _ => a
      | AccountUpdate _ | Cancel | ChainDataAnchoring _ => 0
      end
  end.
(** [Data]: the payload, of the types that have one. *)
Definition Data (d : TxInternalData) : bytes :=
  match d with
  | TxInternalDataLegacy _ _ _ _ _ p _ | TxInternalDataEthereumAccessList _ _ _ _ _ _ p _ _
  | TxInternalDataEthereumDynamicFee _ _ _ _ _ _ _ p _ _ => p
  | TxInternalDataKaia k _ _ _ _ _ _ =>
      match k with
      | ValueTransferMemo _ _ p | SmartContractExecution _ _ p | SmartContractDeploy _ _ p _ _ | ChainDataAnchoring p => p
      | ValueTransfer _ _ | AccountUpdate _ | Cancel => []
      end
  end.
Definition AccessListOf (d : TxInternalData) : AccessList :=
  match d with
  | TxInternalDataEthereumAccessList _ _ _ _ _ _ _ l _ | TxInternalDataEthereumDynamicFee _ _ _ _ _ _ _ _ l _ => l
  | _ => []
  end.
(** [TxInternalDataFrom], [TxInternalDataFeePayer] and [TxInternalDataFeeRatio]: the types that
    implement them. *)
Definition GetFrom (d : TxInternalData) : option Address :=
  match d with TxInternalDataKaia _ _ _ _ _ from _ => Some from | _ => None end.
Definition feeDelegation (d : TxInternalData) : FeeDelegation :=
  match d with TxInternalDataKaia _ fee _ _ _ _ _ => fee | _ => NotDelegated end.
Definition GetFeePayer (d : TxInternalData) : option Address :=
  match feeDelegation d with
  | NotDelegated => None
  | FeeDelegated a _ | FeeDelegatedWithRatio _ a _ => Some a
  end.
Definition GetFeeRatio (d : TxInternalData) : option Z :=
  match feeDelegation d with FeeDelegatedWithRatio r _ _ => Some r | _ => None end.
Definition IsFeeDelegatedTransaction (d : TxInternalData) : bool := bool_decide (is_Some (GetFeePayer d)).
Definition GetRoleTypeForValidation (d : TxInternalData) : nat :=
  match d with TxInternalDataKaia (AccountUpdate _) _ _ _ _ _ _ => RoleAccountUpdate | _ => RoleTransaction end.

(** ** Fees *)

Definition MaxFeeRatio := 100.
Definition IsValid (f : Z) : bool := (1 <=? f) && (f <=? 99).
(** [FeeRatio]: the ratio, and whether the type has one. *)
Definition FeeRatio (d : TxInternalData) : Z * bool :=
  match GetFeeRatio d with None => (MaxFeeRatio, false) | Some r => (r, true) end.
(** [CalcFeeWithRatio]: the fee payer's part and the sender's.  Both numbers of the division are
    non-negative, so that Euclidean and flooring division are the same. *)
Definition CalcFeeWithRatio (feeRatio fee : Z) : Z * Z :=
  let feePayer := fee * feeRatio / 100 in (feePayer, fee - feePayer).
Definition Fee (d : TxInternalData) : Z := GetPrice d * GetGasLimit d.
Definition Cost (d : TxInternalData) : Z := Fee d + GetAmount d.

Definition GasTipCap (d : TxInternalData) : Z :=
  match d with TxInternalDataEthereumDynamicFee _ _ tip _ _ _ _ _ _ _ => tip | _ => GetPrice d end.
Definition GasFeeCap (d : TxInternalData) : Z :=
  match d with TxInternalDataEthereumDynamicFee _ _ _ cap _ _ _ _ _ _ => cap | _ => GetPrice d end.
Definition EffectiveGasTip (baseFee : option Z) (d : TxInternalData) : Z :=
  match baseFee with
  | Some baseFee => Z.min (GasTipCap d) (Z.max 0 (GasFeeCap d - baseFee))
  | None => GasTipCap d
  end.
(** [EffectiveGasPrice], from the base fee of the header and the fork. *)
Definition EffectiveGasPrice (baseFee : option Z) (rules : Rules) (d : TxInternalData) : Z :=
  match baseFee with
  | None => GetPrice d
  | Some baseFee => if IsKaia rules then EffectiveGasTip (Some baseFee) d + baseFee else baseFee
  end.

(** ** Intrinsic gas *)

(** Errors of transactions; those of the virtual machine and of keys are kept as they are. *)
Inductive txError :=
| ErrGasUintOverflow | ErrPrecompiledContractAddress_ | ErrNotForProgramAccount | ErrInvalidContractAddress
| ErrHumanReadableNotSupported | ErrInvalidCodeFormat | ErrAccountAlreadyExists | ErrNotProgramAccount
| ErrLegacyTransactionMustBeWithLegacyKey | ErrInvalidAccountKey | ErrInvalidSig | ErrNotLegacyAccount
| ErrTxTypeNotSupported | ErrInvalidChainId | ErrShouldBeSingleSignature | ErrSenderPubkeyNotSupported
| ErrSenderFeePayerNotSupported | ErrHashFeePayerNotSupported | errNotFeeDelegationTransaction | errRecover | errInvalidPubkey
| ErrNonceTooHigh | ErrNonceTooLow | errInsufficientBalanceForGas | errInsufficientBalanceForGasFeePayer
| ErrIntrinsicGas | ErrMaxInitCodeSizeExceeded | ErrInsufficientFundsFrom | ErrInsufficientFundsFeePayer
| ErrFeeRatioOutOfRange | ErrNegativeValue
| ErrVM (e : vmError) | ErrKey (e : keyError) | errAccountDoesNotExist | ErrSender (e : txError) | ErrFeePayer (e : txError).
(** Pure computations of transactions, and those on keys. *)
Abbreviation X := (res txError).
Definition liftGo {A} (m : go A) : X A := match m with Ok a => Ok a | Err e => match e with end | Panic => Panic | NoFuel => NoFuel end.
Definition liftKey {A} (m : K A) : X A :=
  match m with Ok a => Ok a | Err e => Err (ErrKey e) | Panic => Panic | NoFuel => NoFuel end.

Definition toWordSize (size : Z) : Z :=
  if MaxUint64 - 31 <? size then MaxUint64 / 32 + 1 else u64 (size + 31) / 32.
Definition IntrinsicGasPayload (gas : Z) (data : bytes) (isContractCreation : bool) (rules : Rules) : X Z :=
  let length := u64 (len data) in
  if length =? 0 then Ok gas
  else if u64 (MaxUint64 - gas) / TxDataGas <? length then Err ErrGasUintOverflow
  else
    let gas := u64 (gas + u64 (length * TxDataGas)) in
    if isContractCreation && IsShanghai rules then
      let lenWords := toWordSize length in
      if u64 (MaxUint64 - gas) / InitCodeWordGas <? lenWords then Err ErrGasUintOverflow
      else Ok (u64 (gas + u64 (lenWords * InitCodeWordGas)))
    else Ok gas.
Fixpoint countNonZero (data : bytes) (nz : Z) : Z :=
  match data with
  | [] => nz
  | b :: data => countNonZero data (if b =? 0 then nz else u64 (nz + 1))
  end.
Definition IntrinsicGasPayloadLegacy (gas : Z) (data : bytes) : X Z :=
  let length := u64 (len data) in
  if 0 <? length then
    let nz := countNonZero data 0 in
    if u64 (MaxUint64 - gas) / TxDataNonZeroGas <? nz then Err ErrGasUintOverflow
    else
      let gas := u64 (gas + u64 (nz * TxDataNonZeroGas)) in
      let z := u64 (u64 (len data) - nz) in
      if u64 (MaxUint64 - gas) / TxDataZeroGas <? z then Err ErrGasUintOverflow
      else Ok (u64 (gas + u64 (z * TxDataZeroGas)))
  else Ok gas.
(** [AccessList.StorageKeys]. *)
Fixpoint StorageKeys (l : AccessList) (sum : Z) : Z :=
  match l with
  | [] => sum
  | (_, keys) :: l => StorageKeys l (i64 (sum + len keys))
  end.
(** [IntrinsicGas]; an empty access list costs as much as none. *)
Definition IntrinsicGas (data : bytes) (accessList : AccessList) (contractCreation : bool) (r : Rules) : X Z :=
  let gas := if contractCreation then TxGasContractCreation else TxGas in
  gas ← (if IsIstanbul r then IntrinsicGasPayload gas data contractCreation r else IntrinsicGasPayloadLegacy gas data);
  let gas := u64 (gas + u64 (u64 (len accessList) * TxAccessListAddressGas)) in
  Ok (u64 (gas + u64 (u64 (StorageKeys accessList 0) * TxAccessListStorageKeyGas))).

(** The method [IntrinsicGas] of each type. *)
Definition feeDelegationGas (fee : FeeDelegation) : Z :=
  match fee with
  | NotDelegated => 0
  | FeeDelegated _ _ => TxGasFeeDelegated
  | FeeDelegatedWithRatio _ _ _ => TxGasFeeDelegatedWithRatio
  end.
Definition intrinsicGasOf (r : Rules) (d : TxInternalData) : X Z :=
  match d with
  | TxInternalDataLegacy _ _ _ to _ payload _ => IntrinsicGas payload [] (bool_decide (to = None)) r
  | TxInternalDataEthereumAccessList _ _ _ _ to _ payload l _
  | TxInternalDataEthereumDynamicFee _ _ _ _ _ to _ payload l _ => IntrinsicGas payload l (bool_decide (to = None)) r
  | TxInternalDataKaia k fee _ _ _ _ _ =>
      let extra := feeDelegationGas fee in
      match k with
      | ValueTransfer _ _ => Ok (TxGasValueTransfer + extra)
      | ValueTransferMemo _ _ payload => IntrinsicGasPayload (TxGasValueTransfer + extra) payload false r
      | AccountUpdate key => gasKey ← liftKey (AccountCreationGas key); Ok (u64 (TxGasAccountUpdate + gasKey + extra))
      | SmartContractDeploy _ _ payload humanReadable _ =>
          IntrinsicGasPayload (TxGasContractCreation + extra + if humanReadable then TxGasHumanReadable else 0) payload true r
      | SmartContractExecution _ _ payload => IntrinsicGasPayload (TxGasContractExecution + extra) payload false r
      | Cancel => Ok (TxGasCancel + extra)
      | ChainDataAnchoring payload => IntrinsicGasPayload (TxChainDataAnchoringGas + extra) payload false r
      end
  end.
End Tx.
