(* ===== verification/TxSign.v ===== *)
(** * Signatures of transactions

    Model of [blockchain/types/transaction_signing.go], [tx_signature.go], [tx_signatures.go]
    and of the serialisations that are hashed: the encoding of keys and of transactions, the
    signers, and the recovery of the senders' and the fee payers' public keys.

    The caches of hashes and keys that transactions carry hold what is computed here. *)

From S2P Require Import Prelude Rlp AccountKey EvmWord EvmCode EvmMem EvmParams EvmState EvmGas EvmOps EvmTable EvmRun Blake2b EvmPrecompiles Tx.

Module Sign.
Import RLP Pre.
Export Tx.

Section sign.
Context {crypto : Crypto}.

(** ** Encodings *)

Definition num (z : Z) : item := Str (minbe z).
(** A pointer to an address; nil is the empty string. *)
Definition optAddress (a : option Address) : item := Str (default [] a).
Definition boolItem (b : bool) : item := num (if b then 1 else 0).
Definition sigFields (s : TxSignature) : list item := [num (sig_V s); num (sig_R s); num (sig_S s)].
Definition sigItems (l : list TxSignature) : item := Lst (map (fun s => Lst (sigFields s)) l).
Definition accessListItem (l : AccessList) : item := Lst (map (fun t => Lst [Str t.1; Lst (map Str t.2)]) l).

(** [AccountKeySerializer.EncodeRLP]: the type and the key. *)
Definition encodeWeighted (w : WeightedPublicKey) : K bytes :=
  b ← encodeKey CompressPubkey (wk_Key w); mret (enc_list (enc (num (wk_Weight w)) ++ b)).
Fixpoint encodeWeightedKeys (l : list WeightedPublicKey) : K bytes :=
  match l with
  | [] => mret []
  | w :: l => b ← encodeWeighted w; rest ← encodeWeightedKeys l; mret (b ++ rest)
  end.
Fixpoint encodeAccountKey (k : AccountKey) : K bytes :=
  let type := enc (num (AccountKey.Type_ k)) in
  match k with
  | AccountKeyNil => mret type
  | AccountKeyLegacy | AccountKeyFail => mret (type ++ enc (Lst []))
  | AccountKeyPublic pk => b ← encodeKey CompressPubkey pk; mret (type ++ b)
  | AccountKeyWeightedMultiSig threshold keys =>
      ks ← encodeWeightedKeys keys; mret (type ++ enc_list (enc (num threshold) ++ enc_list ks))
  | AccountKeyRoleBased keys =>
      bs ← (fix roles (l : list AccountKey) : K (list bytes) :=
              match l with
              | [] => mret []
              | k :: l =>
                  b ← match encodeAccountKey k with
                      | Ok b => mret b
                      | Err _ => mret []
                      | Panic => Panic
                      | NoFuel => NoFuel
                      end;
                  rest ← roles l; mret (b :: rest)
              end) keys;
      mret (type ++ enc (Lst (map Str bs)))
  end.
(** The encoded key that is signed; nothing when it cannot be encoded. *)
Definition keyEnc (k : AccountKey) : X bytes :=
  match encodeAccountKey k with Ok b => mret b | Err _ => mret [] | Panic => Panic | NoFuel => NoFuel end.

(** The fields of a transaction between its sender's and its signatures: what it asks for, with
    the fee ratio. *)
Definition ratioItems (fee : FeeDelegation) : list item :=
  match fee with FeeDelegatedWithRatio r _ _ => [num r] | _ => [] end.
Definition kaiaFields (k : TxKind) (fee : FeeDelegation) (nonce price gasLimit : Z) (from : Address) : X (list item) :=
  let head := [num nonce; num price; num gasLimit] in
  let ratio := ratioItems fee in
  match k with
  | ValueTransfer to amount => mret (head ++ [Str to; num amount; Str from] ++ ratio)
  | ValueTransferMemo to amount payload | SmartContractExecution to amount payload =>
      mret (head ++ [Str to; num amount; Str from; Str payload] ++ ratio)
  | AccountUpdate key => b ← keyEnc key; mret (head ++ [Str from; Str b] ++ ratio)
  | SmartContractDeploy to amount payload humanReadable codeFormat =>
      mret (head ++ [optAddress to; num amount; Str from; Str payload; boolItem humanReadable] ++ ratio ++ [num codeFormat])
  | Cancel => mret (head ++ [Str from] ++ ratio)
  | ChainDataAnchoring payload => mret (head ++ [Str from; Str payload] ++ ratio)
  end.
(** [SerializeForSign]. *)
Definition SerializeForSign (d : TxInternalData) : X (list item) :=
  match d with
  | TxInternalDataLegacy nonce price gasLimit to amount payload _ =>
      mret [num nonce; num price; num gasLimit; optAddress to; num amount; Str payload]
  | TxInternalDataEthereumAccessList chainID nonce price gasLimit to amount payload l _ =>
      mret [num chainID; num nonce; num price; num gasLimit; optAddress to; num amount; Str payload; accessListItem l]
  | TxInternalDataEthereumDynamicFee chainID nonce tip cap gasLimit to amount payload l _ =>
      mret [num chainID; num nonce; num tip; num cap; num gasLimit; optAddress to; num amount; Str payload; accessListItem l]
  | TxInternalDataKaia k fee nonce price gasLimit from _ =>
      fields ← kaiaFields k fee nonce price gasLimit from; mret (num (Type_ d) :: fields)
  end.
(** [SerializeForSignToBytes], of the types that have it. *)
Definition SerializeForSignToBytes (d : TxInternalData) : X bytes :=
  fields ← SerializeForSign d; mret (enc (Lst fields)).

(** [EncodeRLP]: the fields with the signatures, after the type unless it is a legacy
    transaction. *)
Definition feePayerItems (fee : FeeDelegation) : list item :=
  match fee with
  | NotDelegated => []
  | FeeDelegated a sigs | FeeDelegatedWithRatio _ a sigs => [Str a; sigItems sigs]
  end.
Definition EncodeRLP (d : TxInternalData) : X bytes :=
  match d with
  | TxInternalDataLegacy _ _ _ _ _ _ sig => fields ← SerializeForSign d; mret (enc (Lst (fields ++ sigFields sig)))
  | TxInternalDataEthereumAccessList _ _ _ _ _ _ _ _ sig | TxInternalDataEthereumDynamicFee _ _ _ _ _ _ _ _ _ sig =>
      fields ← SerializeForSign d; mret ([EthereumTxTypeEnvelope; u8 (Type_ d)] ++ enc (Lst (fields ++ sigFields sig)))
  | TxInternalDataKaia k fee nonce price gasLimit from sigs =>
      fields ← kaiaFields k fee nonce price gasLimit from;
      mret (enc (num (Type_ d)) ++ enc (Lst (fields ++ [sigItems sigs] ++ feePayerItems fee)))
  end.
(** [Transaction.Hash]. *)
Definition prefixedRlpHash (prefix : Z) (i : item) : Hash := Keccak256 ([prefix] ++ enc i).
Definition TxHash (d : TxInternalData) : X Hash :=
  match d with
  | TxInternalDataEthereumAccessList _ _ _ _ _ _ _ _ sig | TxInternalDataEthereumDynamicFee _ _ _ _ _ _ _ _ _ sig =>
      fields ← SerializeForSign d; mret (prefixedRlpHash (u8 (Type_ d)) (Lst (fields ++ sigFields sig)))
  | _ => b ← EncodeRLP d; mret (Keccak256 b)
  end.
(** [SenderTxHash]: the hash without what the fee payer adds. *)
Definition SenderTxHash (d : TxInternalData) : X Hash :=
  match d with
  | TxInternalDataKaia k fee nonce price gasLimit from sigs =>
      fields ← kaiaFields k fee nonce price gasLimit from;
      mret (Keccak256 (enc (num (Type_ d)) ++ enc (Lst (fields ++ [sigItems sigs]))))
  | _ => TxHash d
  end.

(** ** Recovery *)

(** [big.Int.Uint64] of a number of either sign. *)
Definition Uint64 (z : Z) : Z := u64 (Z.abs z).
Definition recoverPlainCommon (sighash : Hash) (R S Vb : Z) (homestead : bool) : X bytes :=
  if 8 <? BitLen Vb then Err ErrInvalidSig
  else
    let V := u8 (u64 (Uint64 Vb - 27)) in
    if negb (ValidateSignatureValues V R S homestead) then Err ErrInvalidSig
    else
      match Ecrecover sighash (be 32 R ++ be 32 S ++ [V]) with
      | None => Err errRecover
      | Some pub => if negb (bool_decide (pub !! 0%nat = Some 4)) then Err errInvalidPubkey else mret pub
      end.
Definition recoverPlain (sighash : Hash) (R S Vb : Z) (homestead : bool) : X Address :=
  pub ← recoverPlainCommon sighash R S Vb homestead;
  mret (BytesToAddress (drop 12 (Keccak256 (drop 1 pub)))).
Definition recoverPlainPubkey (sighash : Hash) (R S Vb : Z) (homestead : bool) : X PublicKey :=
  pub ← recoverPlainCommon sighash R S Vb homestead;
  match UnmarshalPubkey pub with
  | Ok (Some pk) => mret pk
  | Ok None => Err errInvalidPubkey
  | _ => Panic
  end.

(** The methods of [TxSignature] and [TxSignatures]. *)
Definition isProtectedV (V : Z) : bool :=
  if BitLen V <=? 8 then
    let v := Uint64 V in negb (v =? 27) && negb (v =? 28) && negb (v =? 1) && negb (v =? 0)
  else true.
Definition deriveChainId (v : Z) : Z :=
  if BitLen v <=? 64 then
    let v := Uint64 v in if (v =? 27) || (v =? 28) then 0 else u64 (v - 35) / 2
  else (v - 35) / 2.
Definition validateSignature (v r s : Z) : bool :=
  if negb (isProtectedV v) then ValidateSignatureValues (u8 (u64 (Uint64 v - 27))) r s true
  else
    let chainID := Uint64 (deriveChainId v) in
    ValidateSignatureValues (u8 (u64 (u64 (Uint64 v - 35) - u64 (2 * chainID)))) r s false.
Definition sigRecoverAddress (txhash : Hash) (homestead : bool) (vfunc : Z -> Z) (t : TxSignature) : X Address :=
  recoverPlain txhash (sig_R t) (sig_S t) (vfunc (sig_V t)) homestead.
Definition sigRecoverPubkey (txhash : Hash) (homestead : bool) (vfunc : Z -> Z) (t : TxSignature) : X PublicKey :=
  recoverPlainPubkey txhash (sig_R t) (sig_S t) (vfunc (sig_V t)) homestead.
(** Without a signature the process is stopped. *)
Definition sigsChainId (t : list TxSignature) : X Z :=
  match t with s :: _ => mret (deriveChainId (sig_V s)) | [] => Panic end.
Definition sigsRecoverAddress (txhash : Hash) (homestead : bool) (vfunc : Z -> Z) (t : list TxSignature) : X Address :=
  match t with [s] => sigRecoverAddress txhash homestead vfunc s | _ => Err ErrShouldBeSingleSignature end.
Fixpoint sigsRecoverPubkey (txhash : Hash) (homestead : bool) (vfunc : Z -> Z) (t : list TxSignature) : X (list PublicKey) :=
  match t with
  | [] => mret []
  | s :: t =>
      pk ← sigRecoverPubkey txhash homestead vfunc s;
      rest ← sigsRecoverPubkey txhash homestead vfunc t; mret (pk :: rest)
  end.
(** [TxSignatures.ValidateSignature]. *)
Definition sigsValidate (t : list TxSignature) : bool :=
  match t with
  | [] => false
  | s0 :: _ =>
      forallb (fun s => validateSignature (sig_V s) (sig_R s) (sig_S s) && (deriveChainId (sig_V s0) =? deriveChainId (sig_V s))) t
  end.

(** The same of the data of a transaction; fee payers' signatures are not validated. *)
Definition RawSignatureValues (d : TxInternalData) : list TxSignature :=
  match d with
  | TxInternalDataLegacy _ _ _ _ _ _ sig | TxInternalDataEthereumAccessList _ _ _ _ _ _ _ _ sig
  | TxInternalDataEthereumDynamicFee _ _ _ _ _ _ _ _ _ sig => [sig]
  | TxInternalDataKaia _ _ _ _ _ _ sigs => sigs
  end.
Definition GetFeePayerRawSignatureValues (d : TxInternalData) : list TxSignature :=
  match feeDelegation d with NotDelegated => [] | FeeDelegated _ sigs | FeeDelegatedWithRatio _ _ sigs => sigs end.
Definition ChainId (d : TxInternalData) : X Z :=
  match d with
  | TxInternalDataLegacy _ _ _ _ _ _ sig => mret (deriveChainId (sig_V sig))
  | TxInternalDataEthereumAccessList c _ _ _ _ _ _ _ _ | TxInternalDataEthereumDynamicFee c _ _ _ _ _ _ _ _ _ => mret c
  | TxInternalDataKaia _ _ _ _ _ _ sigs => sigsChainId sigs
  end.
Definition ValidateSignature (d : TxInternalData) : bool :=
  match d with
  | TxInternalDataLegacy _ _ _ _ _ _ sig => validateSignature (sig_V sig) (sig_R sig) (sig_S sig)
  | TxInternalDataEthereumAccessList _ _ _ _ _ _ _ _ sig | TxInternalDataEthereumDynamicFee _ _ _ _ _ _ _ _ _ sig =>
      ValidateSignatureValues (u8 (Uint64 (sig_V sig))) (sig_R sig) (sig_S sig) false
  | TxInternalDataKaia _ _ _ _ _ _ sigs => sigsValidate sigs
  end.
Definition RecoverAddress (txhash : Hash) (vfunc : Z -> Z) (d : TxInternalData) : X Address :=
  match d with
  | TxInternalDataKaia _ _ _ _ _ _ sigs => sigsRecoverAddress txhash true vfunc sigs
  | TxInternalDataLegacy _ _ _ _ _ _ sig | TxInternalDataEthereumAccessList _ _ _ _ _ _ _ _ sig
  | TxInternalDataEthereumDynamicFee _ _ _ _ _ _ _ _ _ sig => sigRecoverAddress txhash true vfunc sig
  end.
Definition RecoverPubkey (txhash : Hash) (vfunc : Z -> Z) (d : TxInternalData) : X (list PublicKey) :=
  sigsRecoverPubkey txhash true vfunc (RawSignatureValues d).
Definition Protected (d : TxInternalData) : bool :=
  match d with TxInternalDataLegacy _ _ _ _ _ _ sig => isProtectedV (sig_V sig) | _ => true end.

(** ** Signers *)

Inductive Signer := FrontierSigner | HomesteadSigner | EIP155Signer (chainId : Z) | eip2930Signer (chainId : Z) | londonSigner (chainId : Z).
(** [MakeSigner]. *)
Definition MakeSigner (rules : Rules) (chainID : Z) : Signer :=
  if IsEthTxType rules then londonSigner chainID else EIP155Signer chainID.

(** [FrontierSigner]: its hash is on the fields that every transaction has. *)
Definition frontierHash (d : TxInternalData) : Hash :=
  Keccak256 (enc (Lst [num (GetAccountNonce d); num (GetPrice d); num (GetGasLimit d); optAddress (GetRecipient d);
    num (GetAmount d); Str (Data d)])).
Definition plainSender (homestead : bool) (d : TxInternalData) : X Address :=
  if negb (IsLegacyTransaction (Type_ d)) then Err ErrTxTypeNotSupported
  else
    match RawSignatureValues d with
    | [sig] => recoverPlain (frontierHash d) (sig_R sig) (sig_S sig) (sig_V sig) homestead
    | _ => Err ErrShouldBeSingleSignature
    end.

(** [EIP155Signer]. *)
Definition eip155Hash (chainId : Z) (d : TxInternalData) : X Hash :=
  match d with
  | TxInternalDataKaia _ _ _ _ _ _ _ =>
      b ← SerializeForSignToBytes d; mret (Keccak256 (enc (Lst [Str b; num chainId; num 0; num 0])))
  | _ => fields ← SerializeForSign d; mret (Keccak256 (enc (Lst (fields ++ [num chainId; num 0; num 0]))))
  end.
Definition HashFeePayer155 (chainId : Z) (d : TxInternalData) : X Hash :=
  match GetFeePayer d with
  | None => Err errNotFeeDelegationTransaction
  | Some a => b ← SerializeForSignToBytes d; mret (Keccak256 (enc (Lst [Str b; Str a; num chainId; num 0; num 0])))
  end.
Definition vfunc155 (chainId v : Z) : Z := v - 2 * chainId - 8.
Definition eip155Sender (chainId : Z) (d : TxInternalData) : X Address :=
  if IsEthTypedTransaction (Type_ d) then Err ErrTxTypeNotSupported
  else if negb (Protected d) then plainSender true d
  else
    c ← ChainId d;
    if negb (c =? chainId) then Err ErrInvalidChainId
    else h ← eip155Hash chainId d; RecoverAddress h (vfunc155 chainId) d.
Definition eip155SenderPubkey (chainId : Z) (d : TxInternalData) : X (list PublicKey) :=
  if IsEthTypedTransaction (Type_ d) then Err ErrTxTypeNotSupported
  else
    c ← ChainId d;
    if negb (c =? chainId) then Err ErrInvalidChainId
    else h ← eip155Hash chainId d; RecoverPubkey h (vfunc155 chainId) d.
Definition eip155SenderFeePayer (chainId : Z) (d : TxInternalData) : X (list PublicKey) :=
  if IsEthTypedTransaction (Type_ d) then Err ErrTxTypeNotSupported
  else
    c ← ChainId d;
    if negb (c =? chainId) then Err ErrInvalidChainId
    else
      h ← HashFeePayer155 chainId d;
      sigsRecoverPubkey h true (vfunc155 chainId) (GetFeePayerRawSignatureValues d).

(** [eip2930Signer] and [londonSigner], each for one type of its own: a transaction without a
    chain is hashed with the signer's. *)
Definition typedHash (chainId : Z) (d : TxInternalData) : X Hash :=
  c ← ChainId d;
  fields ← SerializeForSign d;
  mret (prefixedRlpHash (u8 (Type_ d)) (Lst (if c =? 0 then num chainId :: drop 1 fields else fields))).
Definition typedSender (chainId : Z) (d : TxInternalData) : X Address :=
  c ← ChainId d;
  if negb (c =? chainId) then Err ErrInvalidChainId
  else h ← typedHash chainId d; RecoverAddress h (fun v => v + 27) d.
Definition typedSenderPubkey (chainId : Z) (d : TxInternalData) : X (list PublicKey) :=
  c ← ChainId d;
  if negb (c =? chainId) then Err ErrInvalidChainId
  else h ← typedHash chainId d; RecoverPubkey h (fun v => v + 27) d.

(** The methods of [Signer]: whether the signer has the type for its own, or hands it down. *)
Definition handles (s : Signer) (d : TxInternalData) : bool :=
  match s, d with
  | londonSigner _, TxInternalDataEthereumDynamicFee _ _ _ _ _ _ _ _ _ _
  | londonSigner _, TxInternalDataEthereumAccessList _ _ _ _ _ _ _ _ _
  | eip2930Signer _, TxInternalDataEthereumAccessList _ _ _ _ _ _ _ _ _ => true
  | _, _ => false
  end.
Definition signerSender (s : Signer) (d : TxInternalData) : X Address :=
  match s with
  | FrontierSigner => plainSender false d
  | HomesteadSigner => plainSender true d
  | EIP155Signer c => eip155Sender c d
  | eip2930Signer c | londonSigner c => if handles s d then typedSender c d else eip155Sender c d
  end.
Definition signerSenderPubkey (s : Signer) (d : TxInternalData) : X (list PublicKey) :=
  match s with
  | FrontierSigner | HomesteadSigner => Err ErrSenderPubkeyNotSupported
  | EIP155Signer c => eip155SenderPubkey c d
  | eip2930Signer c | londonSigner c => if handles s d then typedSenderPubkey c d else eip155SenderPubkey c d
  end.
Definition signerSenderFeePayer (s : Signer) (d : TxInternalData) : X (list PublicKey) :=
  match s with
  | FrontierSigner | HomesteadSigner => Err ErrSenderFeePayerNotSupported
  | EIP155Signer c | eip2930Signer c | londonSigner c => eip155SenderFeePayer c d
  end.
Definition signerHash (s : Signer) (d : TxInternalData) : X Hash :=
  match s with
  | FrontierSigner | HomesteadSigner => mret (frontierHash d)
  | EIP155Signer c => eip155Hash c d
  | eip2930Signer c | londonSigner c => if handles s d then typedHash c d else eip155Hash c d
  end.
Definition signerHashFeePayer (s : Signer) (d : TxInternalData) : X Hash :=
  match s with
  | FrontierSigner | HomesteadSigner => Err ErrHashFeePayerNotSupported
  | EIP155Signer c | eip2930Signer c | londonSigner c => HashFeePayer155 c d
  end.

(** [decodeSignature] and [SignatureValues]: the signature made of the bytes R, S and V. *)
Definition decodeSignature (sig : bytes) : X TxSignature :=
  if negb (len sig =? SignatureLength) then Panic
  else
    v ← index sig 64;
    mret (mkSig (u8 (v + 27)) (SetBytes (take 32 sig)) (SetBytes (take 32 (drop 32 sig)))).
Definition typedValues (chainId : Z) (sig : bytes) (d : TxInternalData) : X TxSignature :=
  c ← ChainId d;
  if negb (c =? 0) && negb (c =? chainId) then Err ErrInvalidChainId
  else t ← decodeSignature sig; v ← index sig 64; mret (mkSig v (sig_R t) (sig_S t)).
Definition SignatureValues (s : Signer) (sig : bytes) (d : TxInternalData) : X TxSignature :=
  match s with
  | FrontierSigner | HomesteadSigner => if IsLegacyTransaction (Type_ d) then Err ErrTxTypeNotSupported else decodeSignature sig
  | EIP155Signer c | eip2930Signer c | londonSigner c =>
      if handles s d then
        if (Type_ d =? TxTypeEthereumDynamicFee) && negb (len sig =? SignatureLength) then Panic else typedValues c sig d
      else if IsEthTypedTransaction (Type_ d) then Err ErrTxTypeNotSupported
      else t ← decodeSignature sig; v ← index sig 64; mret (mkSig (u8 (v + 35) + 2 * c) (sig_R t) (sig_S t))
  end.

(** ** Senders *)

(** [Sender], [SenderPubkey] and [SenderFeePayerPubkey]. *)
Definition Sender (s : Signer) (d : TxInternalData) : X Address :=
  if IsEthereumTransaction (Type_ d) then signerSender s d
  else match GetFrom d with Some a => mret a | None => Panic end.
End sign.
End Sign.
