(* ===== verification/TxExec.v ===== *)
(** * The state transition

    Model of [blockchain/state_transition.go], of the methods of transactions that it calls,
    and of [ApplyTransaction] and [Process]: a transaction is validated against the state, its
    gas is bought, it is executed by the virtual machine on the state database, and what is
    left of the gas is paid back. *)

From S2P Require Import Prelude Rlp AccountKey StateDB EvmWord EvmCode EvmMem EvmParams EvmState EvmGas EvmOps EvmTable EvmRun EvmStateDB Blake2b EvmPrecompiles.
From S2P Require Import Tx TxSign.

Module Exec.
Export Run Link Pre Sign.

(** ** Parameters *)

Definition RefundQuotient := 2.
Definition RefundQuotientEIP3529 := 5.

(** ** The monad

    Code that may fail with an error of a transaction, and then keeps the state it has reached;
    what the state database raises on purpose ends it. *)

Section monad.
Context {env : State.StateEnv}.

Definition T (A : Type) : Type := State.StateDB -> res vmPanic ((txError + A) * State.StateDB).
#[export] Instance T_ret : MRet T := fun A a s => Ok (inr a, s).
#[export] Instance T_bind : MBind T := fun A B k m s =>
  match m s with
  | Ok (inr a, s) => k a s
  | Ok (inl e, s) => Ok (inl e, s)
  | Err p => Err p
  | Panic => Panic
  | NoFuel => NoFuel
  end.
Definition fail {A} (e : txError) : T A := fun s => Ok (inl e, s).
Definition liftX {A} (m : X A) : T A := fun s =>
  match m with Ok a => Ok (inr a, s) | Err e => Ok (inl e, s) | Panic => Panic | NoFuel => NoFuel end.
Definition crash {A} : T A := fun _ => Panic.
Definition starve {A} : T A := fun _ => NoFuel.
(** An error seen from outside. *)
Definition wrapError {A} (f : txError -> txError) (m : T A) : T A := fun s =>
  match m s with Ok (inl e, s) => Ok (inl (f e), s) | r => r end.
Definition tRead {A} (f : State.StateDB -> A * State.StateDB) : T A := fun s => let '(a, s) := f s in Ok (inr a, s).
Definition tDo (f : State.StateDB -> State.StateDB) : T unit := fun s => Ok (inr tt, f s).
Definition tChange (f : State.StateDB -> go State.StateDB) : T unit := fun s =>
  match f s with Ok s => Ok (inr tt, s) | _ => Err panicStateDB end.
End monad.

(** ** Transactions *)

(** [Transaction]: its data and what its validation has found. *)
Record Transaction := mkTransaction {
  tx_data : TxInternalData;
  tx_validatedSender : Address;
  tx_validatedFeePayer : Address;
  tx_validatedIntrinsicGas : Z;
  tx_checkNonce : bool
}.
Definition NewTx (d : TxInternalData) : Transaction := mkTransaction d zeroAddress zeroAddress 0 false.
Definition setValidated (sender feePayer : Address) (tx : Transaction) : Transaction :=
  mkTransaction (tx_data tx) sender feePayer (tx_validatedIntrinsicGas tx) (tx_checkNonce tx).
Definition setIntrinsicGas (gas : Z) (tx : Transaction) : Transaction :=
  mkTransaction (tx_data tx) (tx_validatedSender tx) (tx_validatedFeePayer tx) gas (tx_checkNonce tx).
Definition setCheckNonce (tx : Transaction) : Transaction :=
  mkTransaction (tx_data tx) (tx_validatedSender tx) (tx_validatedFeePayer tx) (tx_validatedIntrinsicGas tx) true.

(** What a block is applied with: the configuration of the chain at this block ([DeferredTxFee]
    is false without governance), that of the virtual machine, the order in which Go walks the
    table of precompiled contracts, the flag that stops the machine, and the turns it may take. *)
Record ChainConfig := mkChainConfig {
  cf_ChainID : Z; cf_Rules : Rules; cf_DeferredTxFee : bool; cf_VM : Config; cf_mapOrder : gset Address -> list Address;
  cf_abort : nat -> Z; cf_turns : nat
}.
(** [types.Header], as far as it is read. *)
Record Header := mkHeader {
  hd_ParentHash : Hash; hd_Root : Hash; hd_Rewardbase : Address; hd_Number : Z; hd_GasUsed : Z; hd_Time : Z; hd_BlockScore : Z;
  hd_BaseFee : option Z;
  hd_MixHash : option bytes
}.

Section exec.
Context {word : Uint256} {env : State.StateEnv} {crypto : Crypto}.

(** ** Validation *)

(** [CreateAddress]. *)
Definition CreateAddress_ (b : Address) (nonce : Z) : Address :=
  BytesToAddress (drop 12 (Keccak256 (RLP.enc (RLP.Lst [RLP.Str b; RLP.Str (RLP.minbe nonce)])))).

(** [ValidateMutableValue] of each type. *)
Definition validateMutable (d : TxInternalData) : T unit :=
  match d with
  | TxInternalDataKaia k _ _ _ _ from _ =>
      match k with
      | ValueTransfer to _ | ValueTransferMemo to _ _ =>
          program ← tRead (State.IsProgramAccount to); if (program : bool) then fail ErrNotForProgramAccount else mret tt
      | AccountUpdate key =>
          oldKey ← tRead (State.GetKeyAt from); liftX (liftKey (CheckReplacable CompressPubkey oldKey key))
      | SmartContractDeploy (Some to) _ _ _ _ =>
          exist ← tRead (State.Exist to); if (exist : bool) then fail ErrAccountAlreadyExists else mret tt
      | SmartContractExecution to _ _ =>
          ok ← tRead (State.IsContractAvailable to); if (ok : bool) then mret tt else fail ErrNotProgramAccount
      | SmartContractDeploy None _ _ _ _ | Cancel | ChainDataAnchoring _ => mret tt
      end
  | _ => mret tt
  end.
(** [Validate] of each type. *)
Definition Validate_ (d : TxInternalData) : T unit :=
  match d with
  | TxInternalDataLegacy _ _ _ to _ _ _ | TxInternalDataEthereumAccessList _ _ _ _ to _ _ _ _
  | TxInternalDataEthereumDynamicFee _ _ _ _ _ to _ _ _ _ =>
      match to with
      | Some to => if IsPrecompiledContractAddress to then fail ErrPrecompiledContractAddress_ else validateMutable d
      | None => validateMutable d
      end
  | TxInternalDataKaia k _ nonce _ _ from _ =>
      match k with
      | ValueTransfer to _ | ValueTransferMemo to _ _ =>
          if IsPrecompiledContractAddress to then fail ErrPrecompiledContractAddress_ else validateMutable d
      | SmartContractDeploy to _ _ humanReadable codeFormat =>
          if bool_decide (is_Some to) then fail ErrInvalidContractAddress
          else if IsPrecompiledContractAddress (CreateAddress_ from nonce) then fail ErrPrecompiledContractAddress_
          else if (humanReadable : bool) then fail ErrHumanReadableNotSupported
          else if negb (codeFormat <? CodeFormatLast) then fail ErrInvalidCodeFormat
          else validateMutable d
      | AccountUpdate _ | SmartContractExecution _ _ _ | Cancel | ChainDataAnchoring _ => validateMutable d
      end
  end.

(** [ValidateSender] and [ValidateFeePayer]: the gas for the signatures.  An ethereum transaction
    whose sender cannot be recovered is judged by the key of the zero address before the error
    is returned. *)
Definition checkKey (num : Z) (a : Address) (k : AccountKey) (pubkey : list PublicKey) (r : nat) : T unit :=
  match ValidateAccountKey CompressPubkey PubkeyToAddress IsIstanbulAt num a k pubkey r with
  | Ok _ => mret tt
  | Err _ => fail ErrInvalidAccountKey
  | Panic => crash
  | NoFuel => starve
  end.
Definition ValidateSender (s : Signer) (num : Z) (tx : Transaction) : T (Z * Transaction) :=
  let d := tx_data tx in
  if IsEthereumTransaction (Type_ d) then
    let sender := Sender s d in
    let addr := match sender with Ok a => a | _ => zeroAddress end in
    k ← tRead (State.GetKeyAt addr);
    if negb (AccountKey.Type_ k =? 1) then fail ErrLegacyTransactionMustBeWithLegacyKey
    else
      liftX sender;;
      mret (0, if bool_decide (tx_validatedSender tx = zeroAddress) then setValidated addr addr tx else tx)
  else
    pubkey ← liftX (signerSenderPubkey s d);
    match GetFrom d with
    | None => crash
    | Some from =>
        accKey ← tRead (State.GetKeyAt from);
        gasKey ← liftX (liftKey (SigValidationGas IsIstanbulAt accKey num (GetRoleTypeForValidation d) (len pubkey)));
        checkKey num from accKey pubkey (GetRoleTypeForValidation d);;
        mret (gasKey, if bool_decide (tx_validatedSender tx = zeroAddress) then setValidated from from tx else tx)
    end.
Definition ValidateFeePayer (s : Signer) (num : Z) (feePayer : Address) (tx : Transaction) : T (Z * Transaction) :=
  pubkey ← liftX (signerSenderFeePayer s (tx_data tx));
  accKey ← tRead (State.GetKeyAt feePayer);
  gasKey ← liftX (liftKey (SigValidationGas IsIstanbulAt accKey num RoleFeePayer (len pubkey)));
  checkKey num feePayer accKey pubkey RoleFeePayer;;
  mret (gasKey, if bool_decide (tx_validatedFeePayer tx = tx_validatedSender tx) then setValidated (tx_validatedSender tx) feePayer tx else tx).

(** [AsMessageWithAccountKeyPicker]. *)
Definition AsMessageWithAccountKeyPicker (s : Signer) (rules : Rules) (num : Z) (tx : Transaction) : T Transaction :=
  intrinsicGas ← liftX (intrinsicGasOf rules (tx_data tx));
  r ← wrapError ErrSender (ValidateSender s num tx);
  let '(gasFrom, tx) := (r : Z * Transaction) in
  let tx := setCheckNonce tx in
  r ← match GetFeePayer (tx_data tx) with
      | Some feePayer => wrapError ErrFeePayer (ValidateFeePayer s num feePayer tx)
      | None => mret (0, tx)
      end;
  let '(gasFeePayer, tx) := (r : Z * Transaction) in
  mret (setIntrinsicGas (u64 (u64 (intrinsicGas + gasFrom) + gasFeePayer)) tx).

(** ** Execution *)

Section transition.
Context (cfg : ChainConfig) (blockContext : BlockContext) (msg : Transaction) (gasPrice : Z).
Definition rules : Rules := cf_Rules cfg.
(** [NewEVM]: the context of the machine, and its state at the start of a transaction. *)
Definition vmenv : Env :=
  newEnv blockContext (mkTxContext (tx_validatedSender msg) gasPrice) (cf_VM cfg) (cf_ChainID cfg) rules (cf_abort cfg).
Definition NewEVM (s : State.StateDB) : EVM := mkEVM (s : DB) 0 0 0 false [] ∅ 0.
Definition inEVM {A} (m : EM A) : T A := fun s =>
  match m (NewEVM s) with
  | Ok (a, e) => Ok (inr a, evm_StateDB e : State.StateDB)
  | Err p => Err p
  | Panic => Panic
  | NoFuel => NoFuel
  end.

(** Errors of an execution, which end up in the receipt. *)
Inductive execError := execVM (e : vmError) | execKey (e : keyError) | execNoAccount.

(** [Execute] of each type: what is returned, the gas that is left, and the error. *)
Abbreviation execution := (bytes * Z * option execError)%type.
Definition ofVM (r : bytes * Z * option vmError) : execution := let '(ret, gas, err) := r in (ret, gas, execVM <$> err).
Definition callTx (sender : ContractRef) (to : Address) (payload : bytes) (gas value : Z) : T execution :=
  tDo (State.IncNonce (refAddress sender));;
  r ← inEVM (Call vmenv (instructionSet rules) (cf_turns cfg) sender to payload gas value);
  mret (ofVM r).
Definition createTx (sender : ContractRef) (payload : bytes) (gas value codeFormat : Z) : T execution :=
  r ← inEVM (Create vmenv (instructionSet rules) (cf_turns cfg) sender payload gas value codeFormat);
  let '(ret, _, gas, err) := (r : bytes * Address * Z * option vmError) in mret (ofVM (ret, gas, err)).
Definition updateKeyTx (sender : ContractRef) (key : AccountKey) (gas : Z) : T execution :=
  tDo (State.IncNonce (refAddress sender));;
  r ← tRead (State.UpdateKeyAt (refAddress sender) key);
  match r with
  | Ok _ => mret ([], gas, None)
  | Err State.errAccountDoesNotExist => mret ([], gas, Some execNoAccount)
  | Err (State.errKey e) => mret ([], gas, Some (execKey e))
  | Panic => crash
  | NoFuel => starve
  end.
Definition Execute (gas value : Z) : T execution :=
  let sender := AccountRefWithFeePayer (tx_validatedSender msg) (tx_validatedFeePayer msg) in
  match tx_data msg with
  | TxInternalDataLegacy _ _ _ to _ payload _ | TxInternalDataEthereumAccessList _ _ _ _ to _ payload _ _
  | TxInternalDataEthereumDynamicFee _ _ _ _ _ to _ payload _ _ =>
      match to with
      | None => createTx sender payload gas value CodeFormatEVM
      | Some to => callTx sender to payload gas value
      end
  | TxInternalDataKaia k _ _ _ _ _ _ =>
      match k with
      | ValueTransfer to _ => callTx sender to [] gas value
      | ValueTransferMemo to _ payload | SmartContractExecution to _ payload => callTx sender to payload gas value
      | AccountUpdate key => updateKeyTx sender key gas
      | SmartContractDeploy None _ payload _ codeFormat => createTx sender payload gas value codeFormat
      | SmartContractDeploy (Some to) _ payload humanReadable codeFormat =>
          r ← inEVM (CreateWithAddress vmenv (instructionSet rules) (cf_turns cfg) sender payload gas value to humanReadable codeFormat);
          let '(ret, _, gas, err) := (r : bytes * Address * Z * option vmError) in mret (ofVM (ret, gas, err))
      | Cancel | ChainDataAnchoring _ => tDo (State.IncNonce (refAddress sender));; mret ([], gas, None)
      end
  end.

(** ** Gas *)

(** [GetRefund] returns a number of 64 bits. *)
Definition GetRefund (s : State.StateDB) : Z := u64 (State.sd_refund s).

(** [buyGas]: the fee for all the gas is taken at once; [st.gas] and [st.initialGas]. *)
Definition buyGas : T (Z * Z) :=
  let d := tx_data msg in
  let mgval := GetGasLimit d * gasPrice in
  let feePayer := tx_validatedFeePayer msg in
  let sender := tx_validatedSender msg in
  let '(feeRatio, isRatioTx) := FeeRatio d in
  (if isRatioTx then
     let '(feePayerFee, senderFee) := CalcFeeWithRatio feeRatio mgval in
     b ← tRead (State.GetBalanceAt feePayer);
     if b <? feePayerFee then fail errInsufficientBalanceForGasFeePayer
     else
       b ← tRead (State.GetBalanceAt sender);
       if b <? senderFee then fail errInsufficientBalanceForGas
       else tDo (State.SubBalance feePayer feePayerFee);; tDo (State.SubBalance sender senderFee)
   else
     b ← tRead (State.GetBalanceAt feePayer);
     if b <? mgval then fail errInsufficientBalanceForGasFeePayer
     else tDo (State.SubBalance feePayer mgval));;
  mret (u64 (0 + GetGasLimit d), GetGasLimit d).
(** [preCheck]; prefetching skips the checks and leaves the initial gas at zero. *)
Definition preCheck : T (Z * Z) :=
  let d := tx_data msg in
  if Prefetching (cf_VM cfg) then mret (GetGasLimit d, 0)
  else if tx_checkNonce msg then
    nonce ← tRead (State.GetNonceAt (tx_validatedSender msg));
    if nonce <? GetAccountNonce d then fail ErrNonceTooHigh
    else if GetAccountNonce d <? nonce then fail ErrNonceTooLow
    else buyGas
  else buyGas.
(** [refundGas]: the gas left with the refund, which is paid back at the price it was bought. *)
Definition refundGas (refundQuotient initialGas gas : Z) : T Z :=
  counter ← tRead (fun s => (GetRefund s, s));
  let refund := u64 (initialGas - gas) / refundQuotient in
  let refund := if counter <? refund then counter else refund in
  let gas := u64 (gas + refund) in
  let remaining := gas * gasPrice in
  let feePayer := tx_validatedFeePayer msg in
  let '(feeRatio, isRatioTx) := FeeRatio (tx_data msg) in
  (if isRatioTx then
     let '(feePayerFee, senderFee) := CalcFeeWithRatio feeRatio remaining in
     tDo (State.AddBalance feePayer feePayerFee);; tDo (State.AddBalance (tx_validatedSender msg) senderFee)
   else tDo (State.AddBalance feePayer remaining));;
  mret gas.

(** ** Receipts *)

(** [errTxFailed2receiptstatus], for the errors that an execution ends with. *)
Definition getReceiptStatusFromErrTxFailed (err : option execError) : Z :=
  match err with
  | None => 1
  | Some (execVM e) =>
      match e with
      | ErrDepth => 3
      | ErrContractAddressCollision => 4
      | ErrCodeStoreOutOfGas => 5
      | ErrMaxCodeSizeExceeded => 6
      | ErrOutOfGas => 7
      | ErrWriteProtection => 8
      | ErrExecutionReverted => 9
      | ErrOpcodeComputationCostLimitReached => 10
      | _ => 2
      end
  | Some (execKey e) =>
      match e with
      | ErrAccountKeyFailNotUpdatable => 15
      | ErrDifferentAccountKeyType => 16
      | ErrAccountKeyNilUninitializable => 17
      | ErrNotOnCurve => 18
      | ErrZeroKeyWeight => 19
      | ErrUnserializableKey => 20
      | ErrDuplicatedKey => 21
      | ErrWeightedSumOverflow => 22
      | ErrUnsatisfiableThreshold => 23
      | ErrZeroLength => 24
      | ErrLengthTooLong => 25
      | ErrNestedCompositeType => 26
      | _ => 2
      end
  | Some execNoAccount => 2
  end.
(** [ExecutionResult]. *)
Record ExecutionResult := mkResult { UsedGas : Z; VmExecutionStatus : Z; ReturnData : bytes }.
Definition Failed (r : ExecutionResult) : bool := negb (VmExecutionStatus r =? 1).
Definition Return (r : ExecutionResult) : bytes := if Failed r then [] else ReturnData r.
Definition Revert (r : ExecutionResult) : bytes := if negb (VmExecutionStatus r =? 9) then [] else ReturnData r.

(** [TransitionDb]. *)
Definition TransitionDb : T ExecutionResult :=
  let d := tx_data msg in
  r ← preCheck;
  let '(gas, initialGas) := (r : Z * Z) in
  let amount := tx_validatedIntrinsicGas msg in
  if gas <? amount then fail ErrIntrinsicGas
  else
    let gas := gas - amount in
    enough ← (if 0 <? GetAmount d then
                b ← tRead (State.GetBalanceAt (tx_validatedSender msg)); mret (GetAmount d <=? b)
              else mret true);
    if negb enough then fail (ErrVM ErrInsufficientBalance)
    else
      tChange (State.Prepare (IsKore rules) (IsShanghai rules) (IsCancun rules) (tx_validatedSender msg) (tx_validatedFeePayer msg)
        (Coinbase blockContext) (GetRecipient d) (ActivePrecompiles (cf_mapOrder cfg) rules) (AccessListOf d));;
      if IsShanghai rules && bool_decide (GetRecipient d = None) && (MaxInitCodeSize <? len (Data d)) then fail ErrMaxInitCodeSizeExceeded
      else
        r ← Execute gas (GetAmount d);
        let '(ret, gas, vmerr) := (r : execution) in
        match vmerr with
        | Some (execVM ErrTotalTimeLimitReached) => fail (ErrVM ErrTotalTimeLimitReached)
        | _ =>
            gas ← refundGas (if IsKore rules then RefundQuotientEIP3529 else RefundQuotient) initialGas gas;
            let gasUsed := u64 (initialGas - gas) in
            (if cf_DeferredTxFee cfg then mret tt
             else tDo (State.AddBalance (if IsMagma rules then Rewardbase blockContext else Coinbase blockContext) (gasUsed * gasPrice)));;
            mret (mkResult gasUsed (getReceiptStatusFromErrTxFailed vmerr) ret)
        end.
End transition.

(** ** Blocks *)

(** [NewEVMBlockContext]; [getHash] stands for [GetHashFn], which walks the headers of the chain. *)
Definition NewEVMBlockContext (getHash : Z -> Hash) (header : Header) (author : Address) : BlockContext :=
  mkBlockContext getHash author (hd_Rewardbase header) 0 (hd_Number header) (hd_Time header) (hd_BlockScore header)
    (default 0 (hd_BaseFee header)) (match hd_MixHash header with Some h => BytesToHash h | None => hd_ParentHash header end).

(** [Receipt], and [FillContractAddress]. *)
Record Receipt := mkReceipt { r_Status : Z; r_TxHash : Hash; r_GasUsed : Z; r_ContractAddress : Address; r_Logs : list State.Log }.
Definition contractAddressOf (from : Address) (d : TxInternalData) : Address :=
  match d with
  | TxInternalDataLegacy nonce _ _ None _ _ _ | TxInternalDataEthereumAccessList _ nonce _ _ None _ _ _ _
  | TxInternalDataEthereumDynamicFee _ nonce _ _ _ None _ _ _ _ => CreateAddress_ from nonce
  | TxInternalDataKaia (SmartContractDeploy to _ _ _ _) _ nonce _ _ _ _ => default (CreateAddress_ from nonce) to
  | _ => zeroAddress
  end.

(** [ApplyTransaction]: the receipt and the gas used so far. *)
Definition ApplyTransaction (cfg : ChainConfig) (getHash : Z -> Hash) (author : Address) (header : Header) (d : TxInternalData)
    (usedGas : Z) : T (Receipt * Z) :=
  let blockNumber := u64 (hd_Number header) in
  let rules := cf_Rules cfg in
  Validate_ d;;
  msg ← AsMessageWithAccountKeyPicker (MakeSigner rules (cf_ChainID cfg)) rules blockNumber (NewTx d);
  result ← TransitionDb cfg (NewEVMBlockContext getHash header author) msg (EffectiveGasPrice (hd_BaseFee header) rules d);
  tChange (State.Finalise true false);;
  hash ← liftX (TxHash d);
  logs ← tRead (fun s => (State.GetLogs hash s, s));
  mret (mkReceipt (VmExecutionStatus result) hash (UsedGas result) (contractAddressOf (tx_validatedSender msg) d) logs,
        u64 (usedGas + UsedGas result)).

(** The loop of [Process] over the transactions of a block, up to the engine's part. *)
Fixpoint applyAll (cfg : ChainConfig) (getHash : Z -> Hash) (author : Address) (blockHash : Hash) (header : Header) (i : Z)
    (txs : list TxInternalData) (usedGas : Z) : T (list Receipt * Z) :=
  match txs with
  | [] => mret ([], usedGas)
  | d :: txs =>
      hash ← liftX (TxHash d);
      tDo (State.SetTxContext hash blockHash i);;
      r ← ApplyTransaction cfg getHash author header d usedGas;
      let '(receipt, usedGas) := (r : Receipt * Z) in
      r ← applyAll cfg getHash author blockHash header (i + 1) txs usedGas;
      let '(receipts, usedGas) := (r : list Receipt * Z) in
      mret (receipt :: receipts, usedGas)
  end.
End exec.
End Exec.
