(* ===== verification/TxState.v ===== *)
(** * The state database between transactions

    What the operations that are not part of a call do to the state database: the preparation
    of a transaction, the update of a key, and the end of a transaction.  All of them keep the
    invariant of the database; only the end of a transaction changes balances, of accounts that
    are gone. *)

From S2P Require Import Prelude Rlp AccountKey StateDB StateRevert StateFinalise EvmWord EvmCode EvmMem EvmParams EvmState EvmGas EvmOps EvmTable EvmRun.
From S2P Require Import EvmSpec EvmInv EvmPlain EvmCost EvmStep EvmCalls EvmLoop EvmFrames EvmMain EvmStateDB Blake2b EvmPrecompiles EvmPreSpec.
From S2P Require Import EvmMoney EvmMoneyDB EvmLedger EvmTheorems EvmConserve.

Module TxState.
Import AccountKey Account State Revert.
Export Conserve.

(** ** Keys *)

Section keys.
Context (CompressPubkey : PublicKey -> go bytes).

Lemma sound_simple k : IsCompositeType k = false -> key_ok k -> sound_key k.
Proof. by destruct k. Qed.
Lemma sound_installable k : key_ok k -> CheckInstallable CompressPubkey k = Ok tt -> sound_key k.
Proof.
  intros Hk Hc. destruct (IsCompositeType k) eqn:E; [|by apply sound_simple]. destruct k as [| | | | |keys]; try done.
  apply roles_installable in Hc as [Hl Hr]. apply key_ok_roles in Hk. apply sound_roles. split; [by intros ->; cbn in Hl; lia|].
  apply Forall_forall. intros k Hin. apply sound_simple; [by apply (proj1 (Forall_forall _ _) Hr)|by apply (proj1 (Forall_forall _ _) Hk)].
Qed.
(** An account whose key can be validated against has such a key after an update. *)
Lemma UpdateKey_sound old new k : sound_key old -> key_ok new -> UpdateKey CompressPubkey old new = Ok k -> sound_key k.
Proof.
  intros Ho Hn. unfold UpdateKey. rewrite DeepCopy_id. destruct (_ =? _).
  2:{ unfold ReplaceKey. destruct (CheckInstallable CompressPubkey new) as [[]| | |] eqn:E; try done. intros [= <-]. by apply sound_installable. }
  unfold Update. destruct old as [| |p| |t w|old]; try done.
  - destruct (CheckUpdatable _ _ _) as [[]| | |]; try done. by intros [= <-].
  - destruct (CheckUpdatable _ _ _) as [[]| | |] eqn:E; try done. intros [= <-]. by destruct new.
  - destruct (CheckUpdatable _ _ _) as [[]| | |] eqn:E; try done. intros [= <-]. by destruct new.
  - destruct (CheckUpdatable _ _ _) as [[]| | |] eqn:E; try done. destruct new as [| | | | |new]; try done. cbn [mbind res_bind].
    rewrite CheckUpdatable_roles in E. destruct (_ =? _)%nat; [done|]. destruct (_ <? _)%nat; [done|].
    match goal with |- context [overwriteRoles 0 new ?x] => set (a := x) end. assert (length new <= length a)%nat as Hl.
    { unfold a. destruct (Nat.ltb_spec (length old) (length new)); [rewrite length_app, length_drop|]; lia. }
    destruct (overwriteRoles_ok new 0 a) as (a' & -> & Hla & Ha); [lia|]. intros [= <-]. apply sound_roles in Ho as [Hne Ho].
    apply sound_roles. split.
    + intros ->. cbn in Hla. assert (length old <= length a)%nat as H by (unfold a; destruct (_ <? _)%nat; [rewrite length_app|]; lia). destruct old; [done|cbn in H; lia].
    + apply key_ok_roles in Hn. apply Forall_lookup. intros i k' Hi. rewrite Ha in Hi. cbn [decide] in Hi. rewrite decide_True in Hi by lia.
      rewrite drop_0, Nat.sub_0_r in Hi. unfold newRole in Hi.
      assert (forall i k', a !! i = Some k' -> (new !! i = Some k' /\ (length old <= i)%nat) \/ old !! i = Some k') as Hold.
      { intros j x. unfold a. destruct (_ <? _)%nat; [|by right]. rewrite lookup_app. destruct (old !! j) as [y|] eqn:Hj; [intros [= ->]; by right|].
        apply lookup_ge_None in Hj. rewrite lookup_drop. replace (length old + (j - length old))%nat with j by lia. by left. }
      assert (forall i k', new !! i = Some k' -> Type_ k' <> 0 \/ (length old <= i)%nat -> sound_key k') as Hnew.
      { intros j x Hx Ht. destruct (updateRoles_inv _ new old E j x Hx) as [[? ?]|(? & Hc & _)]; [destruct Ht; [done|lia]|].
        apply sound_simple; [done|]. by apply (Forall_lookup_1 _ _ _ _ Hn Hx). }
      destruct (new !! i) as [n|] eqn:Hni.
      * destruct (Z.eqb_spec (Type_ n) 0) as [Hz|Hz]; [|injection Hi as <-; apply (Hnew i n Hni); by left].
        destruct (Hold i k' Hi) as [[Hk Hge]|Hk]; [apply (Hnew i k' Hk); by right|by apply (Forall_lookup_1 _ _ _ _ Ho Hk)].
      * destruct (Hold i k' Hi) as [[Hk Hge]|Hk]; [congruence|by apply (Forall_lookup_1 _ _ _ _ Ho Hk)].
Qed.
(** With a key that can be encoded, an update returns. *)
Lemma UpdateKey_returns old new : (forall pk, point pk -> exists b, CompressPubkey pk = Ok b /\ is_bytes b /\ len b < 256) -> key_ok new ->
  returns (UpdateKey CompressPubkey old new).
Proof.
  intros Hz Hk. unfold UpdateKey. rewrite DeepCopy_id. destruct (_ =? _); [|apply returns_bind; [by apply installable_returns|done]].
  pose proof (updatable_returns CompressPubkey Hz old new Hk) as Hr. unfold Update. destruct old as [| |p| |t w|old]; try done; try (apply returns_bind; done).
  destruct (CheckUpdatable _ _ _) as [[]| | |] eqn:E; try done. destruct new as [| | | | |new]; try done. cbn [mbind res_bind].
  match goal with |- context [overwriteRoles 0 new ?x] => set (a := x) end. assert (length new <= length a)%nat as Hl.
  { unfold a. destruct (Nat.ltb_spec (length old) (length new)); [rewrite length_app, length_drop|]; lia. }
  destruct (overwriteRoles_ok new 0 a) as (a' & -> & _); [lia|]. done.
Qed.
End keys.

(** There is no flat snapshot below the trie. *)
#[export] Instance noFlat : Below := fun _ snap => snap = None.

Section db.
Context {senv : StateEnv} {crypto : Crypto} (Hb : backend_ok).
#[local] Instance state_laws : StateLaws keccak := backend_laws Hb.

(** ** Changes that leave the balances *)

Definition idle (s s' : StateDB) : Prop := good_ s' /\ forall a, is_addr a -> balanceOf s' a = balanceOf s a.

Lemma idle_refl s : good_ s -> idle s s.
Proof. by split. Qed.
Lemma idle_trans s1 s2 s3 : idle s1 s2 -> idle s2 s3 -> idle s1 s3.
Proof. intros [_ H1] [G2 H2]. split; [done|]. intros a Ha. by rewrite H2, H1. Qed.
Lemma idle_level s s' : level s s' -> idle s s'.
Proof. intros Hl. split; [exact (level_good _ _ Hl)|]. intros a Ha. rewrite <- !bal_value. by apply Hl. Qed.
Lemma idle_reads {A} (f : StateDB -> A * StateDB) s : reads f -> good_ s -> idle s (f s).2.
Proof using Hb. intros Hf Hg. apply idle_level. exact (reads_level (vms:=StateDB_VMState) keccak f s Hf Hg). Qed.
Lemma good_command c s s' : cmd_ok c -> cmd_reads c -> code_small c -> good_ s -> Revert.run c s = Ok s' -> good_ s'.
Proof using Hb.
  intros H1 H2 H3 Hg Hr. destruct Hb as [Hcr Hk Hi Hcodes Hroot]. assert (ext s s') as Hx; [|exact (ext_good _ _ Hx)]. apply (run_ext (env:=senv)) with (c := c); try done.
  - intros b. pose proof (Keccak256_len Hcr b) as H. rewrite Hk in H. unfold len in H. lia.
  - intros a b _ _ H. by apply Hi.
Qed.
Lemma idle_command c s s' : cmd_ok c -> cmd_reads c -> code_small c -> good_ s -> Revert.run c s = Ok s' -> core s' = core s -> idle s s'.
Proof using Hb. intros H1 H2 H3 Hg Hr Hc. split; [by eapply good_command|]. intros a _. by apply balance_core. Qed.
(** Parts that are neither objects nor journal. *)
Lemma idle_other s s' : good_ s -> core s' = core s -> sd_stateObjectsDirty s' = sd_stateObjectsDirty s -> al_ok (sd_accessList s') ->
  sd_logSize s' = sd_logSize s -> sd_journal s' = sd_journal s -> revisions s' = revisions s -> idle s s'.
Proof.
  intros [Hw Hc Hs Hn Hcd Hsn Hbl] Hco Hd Hal Hl Hj Hr. unfold revisions in Hr. injection Hr as R1 R2. split; [|intros a _; by apply balance_core].
  assert (held s s') as Hh by (unfold core in Hco; apply held_other; congruence). split; rewrite ?R1, ?R2; try done.
  - eapply wf_core; try done. rewrite Hl. apply Hw.
  - intros a Ha. unfold dirties, entries. rewrite Hj. by apply Hc.
  - by apply Hh.
  - by eapply snap_held.
  - by rewrite (hd_trie _ _ Hh), (hd_snap _ _ Hh).
Qed.

(** ** Preparing a transaction *)

Lemma idle_address a s : good_ s -> idle s (AddAddressToAccessList a s).
Proof using Hb.
  intros Hg. apply (idle_command (CAddAddress a)); try done. unfold AddAddressToAccessList. by destruct (AddAddress _ a) as [[|] al].
Qed.
Lemma idle_slot a k s s' : good_ s -> AddSlotToAccessList a k s = Ok s' -> idle s s'.
Proof using Hb.
  intros Hg E. apply (idle_command (CAddSlot a k)); try done. revert E. unfold AddSlotToAccessList. destruct (AddSlot _ a k) as [[[am sm] al]| | |]; try done.
  intros [= <-]. by destruct am, sm.
Qed.
Lemma idle_slots a keys : forall s s', good_ s -> addSlots a keys s = Ok s' -> idle s s'.
Proof using Hb.
  induction keys as [|k keys IH]; intros s s' Hg E; cbn in E; [injection E as <-; by apply idle_refl|].
  destruct (AddSlotToAccessList a k s) as [s1| | |] eqn:E1; try done. pose proof (idle_slot a k s s1 Hg E1) as H1.
  eapply idle_trans; [exact H1|]. apply IH; [apply H1|exact E].
Qed.
Lemma idle_tuples l : forall s s', good_ s -> addTuples l s = Ok s' -> idle s s'.
Proof using Hb.
  induction l as [|[a keys] l IH]; intros s s' Hg E; cbn in E; [injection E as <-; by apply idle_refl|].
  pose proof (idle_address a s Hg) as H0. destruct (addSlots a keys _) as [s1| | |] eqn:E1; try done.
  pose proof (idle_slots a keys _ s1 (proj1 H0) E1) as H1. eapply idle_trans; [exact H0|]. eapply idle_trans; [exact H1|]. apply IH; [apply H1|exact E].
Qed.
Lemma idle_addresses l : forall s, good_ s -> idle s (foldl (fun s a => AddAddressToAccessList a s) s l).
Proof using Hb.
  induction l as [|a l IH]; intros s Hg; [by apply idle_refl|]. cbn. pose proof (idle_address a s Hg) as H. eapply idle_trans; [exact H|]. apply IH, H.
Qed.
Lemma idle_fresh_list s : good_ s -> idle s (setAccessList newAccessList s).
Proof. intros Hg. by apply idle_other. Qed.
Lemma idle_no_transient s : good_ s -> idle s (setTransient ∅ s).
Proof. intros Hg. apply idle_other; try done. apply Hg. Qed.
Lemma idle_Prepare kore shanghai cancun sender feePayer coinbase dst precompiles l s s' : good_ s ->
  Prepare kore shanghai cancun sender feePayer coinbase dst precompiles l s = Ok s' -> idle s s'.
Proof using Hb.
  intros Hg. unfold Prepare. set (s1 := if kore then _ else s). assert (idle s s1) as H1.
  { unfold s1. destruct kore; [|by apply idle_refl]. cbv zeta.
    set (t0 := AddAddressToAccessList sender _). assert (idle s t0) as H0.
    { eapply idle_trans; [by apply idle_fresh_list|]. apply idle_address, idle_fresh_list, Hg. }
    set (t1 := if bool_decide _ then t0 else _). assert (idle s t1) as Ht1.
    { unfold t1. destruct (bool_decide _); [done|]. eapply idle_trans; [exact H0|]. apply idle_address, H0. }
    set (t2 := match dst with Some _ => _ | None => t1 end). assert (idle s t2) as Ht2.
    { unfold t2. destruct dst; [|done]. eapply idle_trans; [exact Ht1|]. apply idle_address, Ht1. }
    eapply idle_trans; [exact Ht2|]. apply idle_addresses, Ht2. }
  clearbody s1. cbv zeta. set (s2 := if shanghai then _ else s1). assert (idle s s2) as H2.
  { unfold s2. destruct shanghai; [|done]. eapply idle_trans; [exact H1|]. apply idle_address, H1. }
  clearbody s2. intros E. assert (exists s3, (if cancun then addTuples l s2 else mret s2) = Ok s3 /\ s' = setTransient ∅ s3) as (s3 & E3 & ->).
  { destruct (if cancun then _ else _) as [s3| | |]; try done. injection E as <-. by exists s3. }
  assert (idle s s3) as H3.
  { destruct cancun; [|by injection E3 as <-]. eapply idle_trans; [exact H2|]. apply (idle_tuples l); [apply H2|done]. }
  eapply idle_trans; [exact H3|]. apply idle_no_transient, H3.
Qed.
Lemma idle_SetTxContext h b i s : good_ s -> idle s (SetTxContext h b i s).
Proof. intros Hg. apply idle_other; try done. apply Hg. Qed.

(** ** Objects that are replaced *)

(** The object of [a] changes, and with it what the trie has under [a]. *)
Record rebuilt (a : Address) (o' : stateObject) (s s' : StateDB) : Prop := {
  rb_address : so_address o' = a;
  rb_sound : is_addr a -> loaded_ok o' /\ length (CodeHash o') = 32%nat;
  rb_objects : sd_stateObjects s' = <[a := o']> (sd_stateObjects s);
  rb_trie b : b <> a -> sd_trie s' !! b = sd_trie s !! b;
  rb_account acc : is_addr a -> sd_trie s' !! a = Some acc -> sd_trie s !! a = Some acc \/ acc = so_account o';
  rb_snap : sd_snap s' = sd_snap s;
  rb_dirty b : b ∈ sd_stateObjectsDirty s' -> b = a \/ b ∈ sd_stateObjectsDirty s;
  rb_rest : (sd_accessList s', sd_logSize s', sd_journal s', revisions s') = (sd_accessList s, sd_logSize s, sd_journal s, revisions s)
}.
Lemma no_flat s : good_ s -> sd_snap s = None.
Proof. intros Hg. exact (gd_below s Hg). Qed.
Lemma rebuilt_good a o' s s' : good_ s -> rebuilt a o' s s' ->
  good_ s' /\ balanceOf s' a = amountOf (Some o') /\ forall b, b <> a -> balanceOf s' b = balanceOf s b.
Proof.
  intros Hgd [Ha Ho Hobj Ht Hacc Hsn Hd Hr]. pose proof (no_flat s Hgd) as Hs. destruct Hgd as [Hw Hc Hso Hn Hcd Hsk Hbl].
  unfold revisions in Hr. injection Hr as Hal Hls Hj R1 R2.
  assert (forall b, b <> a -> readAccount s' b = readAccount s b) as Hra by (intros b Hne; unfold readAccount; rewrite Hsn, Hs; by apply Ht).
  assert (forall b, b <> a -> view s' b = view s b) as Hv by (intros b Hne; unfold view; by rewrite Hobj, lookup_insert_ne, Hra).
  assert (view s' a = Some o') as Hva by (unfold view; by rewrite Hobj, lookup_insert_eq).
  split; [|split; [by unfold balanceOf; rewrite Hva|intros b Hne; unfold balanceOf; by rewrite Hv]].
  split; rewrite ?R1, ?R2, ?Hsn; try done.
  - split; [split| |by rewrite Hal; apply Hw|by rewrite Hls; apply Hw].
    + intros b o. rewrite Hobj. destruct (decide (b = a)) as [->|Hne]; [rewrite lookup_insert_eq; by intros [= <-]|]. rewrite lookup_insert_ne by done. apply Hw.
    + intros b Hin. rewrite Hobj. destruct (decide (b = a)) as [->|Hne]; [by rewrite lookup_insert_eq|]. rewrite lookup_insert_ne by done.
      destruct (Hd b Hin) as [->|Hin']; [done|]. by apply Hw.
    + intros b o Hib. destruct (decide (b = a)) as [->|Hne]; [rewrite Hva; intros [= <-]; by apply Ho|]. rewrite Hv by done. by apply Hw.
  - intros b Hb'. unfold dirties, entries. rewrite Hj. by apply Hc.
  - split.
    + intros b o Hib. rewrite Hobj. destruct (decide (b = a)) as [->|Hne]; [rewrite lookup_insert_eq; intros [= <-]; by apply Ho|]. rewrite lookup_insert_ne by done. by apply Hcd.
    + intros b acc Hib. destruct (decide (b = a)) as [->|Hne]; [|rewrite Hra by done; by apply Hcd]. unfold readAccount. rewrite Hsn, Hs. intros Hacc'.
      destruct (Hacc acc Hib Hacc') as [H|E]; [|rewrite E; by apply Ho]. apply (cd_accounts s Hcd a acc Hib). unfold readAccount. by rewrite Hs.
  - intros sn b k Hsn'. rewrite Hsn, Hs in Hsn'. done.
Qed.
Lemma object_sound s a o : good_ s -> sd_stateObjects s !! a = Some o -> is_addr a -> loaded_ok o /\ length (CodeHash o) = 32%nat.
Proof.
  intros Hg Ho Ha. split; [by apply (cd_objects s (gd_coded s Hg) a)|]. apply (wf_code s (gd_wf s Hg) a o Ha). unfold view. by rewrite Ho.
Qed.

(** Getters of an object. *)
Lemma reads_object a : is_addr a -> reads (vms:=StateDB_VMState) (getStateObject a).
Proof using Hb.
  intros Ha t Ht. pose proof (law_GetBalance (hash:=keccak) a Ha t Ht) as H. cbn in H. unfold GetBalanceAt in H. by destruct (getStateObject a t).
Qed.

(** ** Updating a key *)

Lemma idle_UpdateKey a k s r s' : is_addr a -> key_ok k -> good_ s -> UpdateKeyAt a k s = (r, s') -> idle s s'.
Proof using Hb.
  intros Ha Hk Hg E. pose proof (idle_reads _ s (reads_object a Ha) Hg) as H1. unfold UpdateKeyAt in E.
  destruct (getStateObject_spec a s (wf_keyed s (gd_wf s Hg))) as (s1 & Hget & He & Hk1 & _ & Hl). rewrite Hget in E, H1. cbn [snd] in H1.
  destruct (live (view s a)) as [o|] eqn:Hlv; [|by injection E as <- <-].
  destruct (updateKey compressPubkey (so_account o) k) as [acc| | |] eqn:Eu; injection E as <- <-; try done.
  apply live_inv in Hlv as [Hv Hd]. rewrite Hv in Hl. pose proof (ky_address s1 Hk1 a o Hl) as Hoa. destruct H1 as [Hg1 Hbal1].
  destruct (so_account o) as [c|] eqn:Hacc; [|done]. cbn in Eu. destruct (UpdateKey compressPubkey (ac_key c) k) as [k'| | |] eqn:Ek; try done. injection Eu as <-.
  set (o' := withAccount _ o). destruct (object_sound s1 a o Hg1 Hl Ha) as [Hlo Hch].
  destruct (rebuilt_good a o' s1 (setStateObject o' s1) Hg1) as (Hg2 & Hba & Hbo).
  - split; try done; [|unfold o'; fields; by rewrite <- Hoa|by left|by right]. intros _. split.
    + split; [|unfold o'; objfields; apply (UpdateKey_sound compressPubkey (ac_key c) k k'); [|done|done]; pose proof (lo_key o Hlo) as H; unfold keyOf in H; by rewrite Hacc in H].
      intros x Hx. destruct (lo_code o Hlo x Hx) as [? Hh]. split; [done|]. rewrite Hh. unfold o', CodeHash. objfields. by rewrite Hacc.
    + rewrite <- Hch. unfold o', CodeHash. objfields. by rewrite Hacc.
  - split; [exact Hg2|]. intros b Hib. rewrite <- Hbal1 by done. destruct (decide (b = a)) as [->|Hne]; [|by apply Hbo].
    rewrite Hba, amount_live by done. unfold balanceOf, view. rewrite Hl, amount_live by done. by rewrite Hacc.
Qed.

(** ** The end of a transaction *)

(** A balance is left, or given up with its account. *)
Definition lost_at (a : Address) (s s' : StateDB) : Prop :=
  good_ s' /\ (forall b, b <> a -> balanceOf s' b = balanceOf s b) /\ (balanceOf s' a = balanceOf s a \/ balanceOf s' a = 0).

Lemma flushed_sound o : loaded_ok o -> loaded_ok (Finalised.flushed o) /\ CodeHash (Finalised.flushed o) = CodeHash o.
Proof.
  intros [Hc Hk]. destruct (Finalised.flushed_frame o) as (_ & Ha & _ & _ & _ & Hco & _). assert (CodeHash (Finalised.flushed o) = CodeHash o) as Hh by (unfold CodeHash; by rewrite Ha).
  split; [|done]. split; [intros c Hx; rewrite Hh; apply Hc; congruence|by rewrite Ha].
Qed.
Lemma withRoot_sound o : loaded_ok o -> loaded_ok (Finalised.withRoot o) /\ CodeHash (Finalised.withRoot o) = CodeHash o.
Proof.
  intros Hl. pose proof Hl as [Hc Hk]. unfold Finalised.withRoot. destruct (so_account o) eqn:Ha; cbn [isProgram]; [by rewrite ?Ha|].
  assert (CodeHash (withAccount (SetStorageRoot (SmartContractAccount c storageRoot codeHash codeInfo) (hashExt (openedTrie o))) o) = CodeHash o) as Hh by (unfold CodeHash; objfields; by rewrite Ha).
  split; [|exact Hh]. split; [intros x Hx; rewrite Hh; by apply Hc|]. done.
Qed.
Lemma withRoot_balance o : GetBalance (so_account (Finalised.withRoot o)) = GetBalance (so_account o).
Proof. unfold Finalised.withRoot. by destruct (so_account o) eqn:Ha; cbn [isProgram]; objfields; rewrite ?Ha. Qed.
Lemma updateStorageRoot_is o o' : updateStorageRoot o = Ok o' -> o' = Finalised.withRoot o.
Proof.
  unfold updateStorageRoot, Finalised.withRoot, openedTrie. destruct (isProgram _); [|by intros [= <-]]. destruct (so_storageTrie o); [|done]. by intros [= <-].
Qed.
(** A live object written back. *)
Lemma write_back a now o o1 s s1 : good_ s -> sd_stateObjects s !! a = Some o -> setStorageRoot now (Finalised.flushed o) s = Ok (o1, s1) ->
  lost_at a s (setDirty ({[a]} ∪ sd_stateObjectsDirty s1) (setStateObject (withFlags (so_selfDestructed o1) (so_deleted o1) false o1) (setTrie (<[so_address o1 := so_account o1]> (sd_trie s1)) s1))).
Proof.
  intros Hg Ho E. pose proof (ky_address s (wf_keyed s (gd_wf s Hg)) a o Ho) as Hoa. destruct (Finalised.flushed_frame o) as (Fa & Fc & Fs & Fd & _).
  assert (so_address o1 = a /\ so_deleted o1 = so_deleted o /\ GetBalance (so_account o1) = GetBalance (so_account o) /\
    (is_addr a -> loaded_ok o1 /\ length (CodeHash o1) = 32%nat) /\ exists m, s1 = setDirtyStorage m s) as (H1 & H2 & H3 & H4 & m & ->).
  { assert (o1 = Finalised.flushed o \/ o1 = Finalised.withRoot (Finalised.flushed o) /\ s1 = s) as Hcase.
    { unfold setStorageRoot in E. destruct (isProgram _); [|injection E as <- _; by left]. destruct now.
      - destruct (updateStorageRoot _) as [o2| | |] eqn:Eu; try done. injection E as <- <-. right. split; [by apply updateStorageRoot_is|done].
      - destruct (sd_stateObjectsDirtyStorage s); [|done]. injection E as <- _. by left. }
    assert (exists m, s1 = setDirtyStorage m s) as Hm.
    { unfold setStorageRoot in E. destruct (isProgram _); [destruct now|].
      - destruct (updateStorageRoot _) as [o2| | |]; try done. injection E as _ <-. exists (sd_stateObjectsDirtyStorage s). by destruct s.
      - destruct (sd_stateObjectsDirtyStorage s); [|done]. injection E as _ <-. by eexists.
      - injection E as _ <-. exists (sd_stateObjectsDirtyStorage s). by destruct s. }
    destruct Hcase as [->|[-> _]].
    - split_and!; try congruence. intros Ha. destruct (object_sound s a o Hg Ho Ha) as [Hl Hc]. destruct (flushed_sound o Hl) as [? ->]. done.
    - destruct (Finalised.withRoot_frame (Finalised.flushed o)) as (Ra & _ & Rd & _). split_and!; try congruence.
      + by rewrite withRoot_balance, Fc.
      + intros Ha. destruct (object_sound s a o Hg Ho Ha) as [Hl Hc]. destruct (flushed_sound o Hl) as [Hl' Hc']. destruct (withRoot_sound _ Hl') as [? ->]. by rewrite Hc'. }
  set (o' := withFlags _ _ false o1). set (s' := setDirty _ _). destruct (rebuilt_good a o' s s' Hg) as (Hg' & Hba & Hbo).
  - split; unfold s'; fields; try done.
    + intros Ha. destruct (H4 Ha) as [[Hc Hk] Hl]. by split.
    + unfold o'. objfields. by rewrite H1.
    + intros b Hne. by rewrite H1, lookup_insert_ne.
    + intros acc Ha. rewrite H1, lookup_insert_eq. intros [= <-]. by right.
    + intros b. rewrite elem_of_union, elem_of_singleton. done.
  - split_and!; [done|done|]. left. rewrite Hba. unfold balanceOf, view. rewrite Ho. unfold amountOf, live. cbn. rewrite H2. by destruct (so_deleted o).
Qed.
Lemma finaliseAddr_lost d now a s s' : good_ s -> finaliseAddr d now a s = Ok s' -> lost_at a s s'.
Proof.
  intros Hg. unfold finaliseAddr. destruct (sd_stateObjects s !! a) as [o|] eqn:Ho; [|intros [= <-]; by split_and!; [| |left]].
  pose proof (ky_address s (wf_keyed s (gd_wf s Hg)) a o Ho) as Hoa. pose proof (no_flat s Hg) as Hs. destruct (so_selfDestructed o || (d && empty_ o)).
  - unfold deleteStateObject. fields. rewrite Hs, bool_decide_eq_false_2 by (by intros [? ?]). cbn [mbind res_bind mret res_ret]. intros [= <-]. objfields. rewrite Hoa.
    match goal with |- lost_at _ _ (setDirty _ (setStateObject ?x _)) => set (o' := x) end. destruct (rebuilt_good a o' s (setDirty ({[a]} ∪ sd_stateObjectsDirty s) (setStateObject o' (setTrie (delete a (sd_trie s)) s))) Hg) as (Hg' & Hba & Hbo).
    + split; fields; try done.
      * intros Ha. destruct (object_sound s a o Hg Ho Ha) as [[Hc Hk] Hl]. by split.
      * unfold o'. objfields. by rewrite Hoa.
      * intros b Hne. by rewrite lookup_delete_ne.
      * intros acc _. by rewrite lookup_delete_eq.
      * intros b. rewrite elem_of_union, elem_of_singleton. done.
    + split_and!; [done|done|]. right. by rewrite Hba.
  - rewrite (Finalised.flushed_any o s Hs). destruct (setStorageRoot now (Finalised.flushed o) s) as [[o1 s1]| | |] eqn:E; try done. cbn [mbind res_bind mret res_ret fst snd].
    unfold updateStateObject. fields. assert (sd_snap s1 = None) as Hs1.
    { unfold setStorageRoot in E. destruct (isProgram _); [destruct now|by injection E as _ <-]; [destruct (updateStorageRoot _); try done; by injection E as _ <-|].
      destruct (sd_stateObjectsDirtyStorage s); [|done]. by injection E as _ <-. }
    rewrite Hs1, bool_decide_eq_false_2 by (by intros [? ?]). intros [= <-]. by apply (write_back a now o).
Qed.

(** ** What a sequence of changes adds to the balances *)

(** The balances grow by at most [d] in all, by just [d] where the change is exact, and none
    becomes negative. *)
Definition reaches (exact : bool) (e d : Z) : Prop := if exact then e = d else e <= d.
Definition nets (exact : bool) (d : Z) (s s' : StateDB) : Prop :=
  good_ s' /\ (solvent s -> solvent s' /\ exists e, reaches exact e d /\ gains s s' e).

Lemma reaches_refl ex d : reaches ex d d.
Proof. destruct ex; cbn; lia. Qed.

Lemma nets_gains s s' : (forall a, is_addr a -> balanceOf s' a = balanceOf s a) -> gains s s' 0.
Proof. intros H. apply gains_none. intros a Ha. rewrite !bal_value. by apply H. Qed.
Lemma nets_idle ex s s' : idle s s' -> nets ex 0 s s'.
Proof.
  intros [Hg Hbal]. split; [done|]. intros Hs. split; [|exists 0; split; [apply reaches_refl|by apply nets_gains]].
  intros a Ha. specialize (Hs a Ha). rewrite bal_value in *. by rewrite Hbal.
Qed.
Lemma nets_refl ex s : good_ s -> nets ex 0 s s.
Proof. intros Hg. by apply nets_idle, idle_refl. Qed.
Lemma nets_trans ex d1 d2 s1 s2 s3 : nets ex d1 s1 s2 -> nets ex d2 s2 s3 -> nets ex (d1 + d2) s1 s3.
Proof.
  intros [_ H1] [Hg H2]. split; [done|]. intros Hs. destruct (H1 Hs) as [Hs2 (e1 & He1 & G1)]. destruct (H2 Hs2) as [Hs3 (e2 & He2 & G2)].
  split; [done|]. exists (e1 + e2). split; [destruct ex; cbn in *; lia|]. by eapply gains_trans.
Qed.
Lemma nets_le ex d d' s s' : nets ex d s s' -> d <= d' -> nets false d' s s'.
Proof. intros [Hg H] Hd. split; [done|]. intros Hs. destruct (H Hs) as [Hs' (e & He & G)]. split; [done|]. exists e. split; [destruct ex; cbn in *; lia|done]. Qed.
Lemma nets_good ex d s s' : nets ex d s s' -> good_ s'.
Proof. by intros []. Qed.
Lemma nets_zero ex s1 s2 s3 : nets ex 0 s1 s2 -> nets ex 0 s2 s3 -> nets ex 0 s1 s3.
Proof. exact (nets_trans ex 0 0 s1 s2 s3). Qed.
(** The balance of one account changed. *)
Lemma nets_one ex a d s s' : good_ s' -> is_addr a -> (forall b, is_addr b -> b <> a -> balanceOf s' b = balanceOf s b) ->
  balanceOf s' a = balanceOf s a + d -> (solvent s -> 0 <= balanceOf s a + d) -> nets ex d s s'.
Proof.
  intros Hg Ha Hne Hba Hpos. split; [done|]. intros Hs. split.
  - intros b Hib. rewrite bal_value. destruct (decide (b = a)) as [->|Hn]; [rewrite Hba; auto|]. rewrite Hne by done. rewrite <- bal_value. by apply Hs.
  - exists d. split; [apply reaches_refl|]. apply (gains_one a); [done|]. intros b Hib. rewrite !bal_value. case_bool_decide as Hba'; [subst; lia|]. rewrite Hne by done. lia.
Qed.
Lemma nets_lost a s s' : lost_at a s s' -> nets false 0 s s'.
Proof.
  intros (Hg & Hne & [He|He]).
  { apply nets_idle. split; [done|]. intros b _. destruct (decide (b = a)) as [->|]; [done|auto]. }
  destruct (decide (is_addr a)) as [Ha|Ha].
  2:{ apply nets_idle. split; [done|]. intros b Hib. apply Hne. by intros ->. }
  split; [done|]. intros Hs. pose proof (Hs a Ha) as Hs'. rewrite bal_value in Hs'.
  apply (nets_le false (- balanceOf s a) 0); [|lia|done]. apply (nets_one false a); [done|done|auto|lia|lia].
Qed.
Lemma nets_finaliseLoop d now l : forall s s', good_ s -> finaliseLoop d now l s = Ok s' -> nets false 0 s s'.
Proof using Hb.
  induction l as [|a l IH]; intros s s' Hg E; cbn in E; [injection E as <-; by apply nets_refl|].
  destruct (finaliseAddr d now a s) as [s1| | |] eqn:E1; try done. pose proof (nets_lost a s s1 (finaliseAddr_lost d now a s s1 Hg E1)) as H1.
  eapply nets_zero; [exact H1|]. apply IH; [apply H1|exact E].
Qed.
Lemma idle_cleared s : good_ s -> idle s (clearJournalAndRefund s).
Proof.
  intros [Hw Hc Hs Hn Hcd Hsn Hbl]. split; [|intros a _; by apply balance_core].
  assert (held s (clearJournalAndRefund s)) as Hh by by apply held_other. split; try done.
  - eapply wf_core; try done; apply Hw.
  - constructor.
  - by apply Hh.
Qed.
Lemma idle_updateRoots l : forall s s', good_ s -> updateRoots l s = Ok s' -> idle s s'.
Proof using Hb.
  induction l as [|a l IH]; intros s s' Hg E; cbn in E; [injection E as <-; by apply idle_refl|].
  destruct (sd_stateObjects s !! a) as [o|] eqn:Ho; [|by apply IH]. destruct (updateStorageRoot o) as [o1| | |] eqn:Eu; try done. cbn [mbind res_bind mret res_ret] in E.
  apply updateStorageRoot_is in Eu as ->. pose proof (ky_address s (wf_keyed s (gd_wf s Hg)) a o Ho) as Hoa. pose proof (no_flat s Hg) as Hs.
  destruct (Finalised.withRoot_frame o) as (Ra & _ & Rd & _). unfold updateStateObject in E. revert E. fields. rewrite Hs, bool_decide_eq_false_2 by (by intros [? ?]). intros E.
  match type of E with updateRoots _ ?x = _ => set (s1 := x) in E end. assert (idle s s1) as H1; [|eapply idle_trans; [exact H1|]; apply IH; [apply H1|exact E]].
  destruct (rebuilt_good a (Finalised.withRoot o) s s1 Hg) as (Hg' & Hba & Hbo).
  - split; unfold s1; fields; try done; [congruence| | | | |by right].
    + intros Ha. destruct (object_sound s a o Hg Ho Ha) as [Hl Hc]. destruct (withRoot_sound o Hl) as [? ->]. done.
    + congruence.
    + intros b Hne. rewrite lookup_insert_ne by congruence. done.
    + intros acc Ha. rewrite Ra, Hoa, lookup_insert_eq. intros [= <-]. by right.
  - split; [done|]. intros b Hib. destruct (decide (b = a)) as [->|Hne]; [|auto]. rewrite Hba. unfold balanceOf, view. rewrite Ho. unfold amountOf, live.
    cbn. rewrite Rd. destruct (so_deleted o); [done|]. cbn. by rewrite withRoot_balance.
Qed.
Lemma nets_Finalise d now s s' : good_ s -> Finalise d now s = Ok s' -> nets false 0 s s'.
Proof using Hb.
  intros Hg. unfold Finalise. destruct (finaliseLoop _ _ _ _) as [s1| | |] eqn:E1; try done. cbn [mbind res_bind]. apply nets_finaliseLoop in E1; [|done].
  assert (nets false 0 s (clearJournalAndRefund s1)) as H2 by (eapply nets_zero; [exact E1|]; apply nets_idle, idle_cleared, E1).
  destruct (now && _); [|by intros [= <-]]. destruct (updateRoots _ _) as [s3| | |] eqn:E3; try done. intros [= <-]. apply idle_updateRoots in E3; [|apply H2].
  eapply nets_zero; [exact H2|]. apply nets_idle. eapply idle_trans; [exact E3|]. apply idle_other; try done; apply E3.
Qed.
End db.
End TxState.
