(* ===== verification/TxLedger.v ===== *)
(** * What a transaction does to the balances

    The state transition over the state database: a message that was validated is executed
    without a fault, uses no more gas than it bought, gives back what it did not use, and
    creates no money. *)

From S2P Require Import Prelude Rlp AccountKey StateDB StateRevert EvmWord EvmCode EvmMem EvmParams EvmState EvmGas EvmOps EvmTable EvmRun.
From S2P Require Import EvmSpec EvmInv EvmPlain EvmCost EvmStep EvmCalls EvmLoop EvmFrames EvmMain EvmStateDB Blake2b EvmPrecompiles EvmPreSpec.
From S2P Require Import EvmMoney EvmMoneyDB EvmLedger EvmTheorems EvmConserve.
From S2P Require Import Tx TxSign TxExec TxState.

Module TxLedger.
Import AccountKey Account State Revert.
Export TxState Exec.

(** ** Outcomes of the code of a transaction *)

Section outcomes.
Context {senv : StateEnv}.

Definition twp {A} (E : Prop) (m : T A) (Q : txError + A -> StateDB -> Prop) (s : StateDB) : Prop :=
  post E (m s) (fun r => Q r.1 r.2).
(** The same, for code whose errors all have [F]. *)
Definition twpe {A} (E : Prop) (m : T A) (F : StateDB -> Prop) (Q : A -> StateDB -> Prop) (s : StateDB) : Prop :=
  twp E m (fun r s' => match r with inl _ => F s' | inr a => Q a s' end) s.

Lemma twpe_bind {A B} E (m : T A) (k : A -> T B) F Q s : twpe E m F (fun a s' => twpe E (k a) F Q s') s -> twpe E (m ≫= k) F Q s.
Proof. unfold twpe, twp, mbind, T_bind. by destruct (m s) as [[[e|a] s']| | |]. Qed.
Lemma twpe_ret {A} E (a : A) (F : StateDB -> Prop) (Q : A -> StateDB -> Prop) s : Q a s -> twpe E (mret a) F Q s.
Proof. done. Qed.
Lemma twpe_fail {A} E e (F : StateDB -> Prop) (Q : A -> StateDB -> Prop) s : F s -> twpe E (fail e) F Q s.
Proof. done. Qed.
Lemma twpe_read {A} E (f : StateDB -> A * StateDB) (F : StateDB -> Prop) (Q : A -> StateDB -> Prop) s : Q (f s).1 (f s).2 -> twpe E (tRead f) F Q s.
Proof. unfold twpe, twp, tRead. by destruct (f s). Qed.
Lemma twpe_do E f (F : StateDB -> Prop) (Q : unit -> StateDB -> Prop) s : Q tt (f s) -> twpe E (tDo f) F Q s.
Proof. done. Qed.
Lemma twpe_change E f (F : StateDB -> Prop) (Q : unit -> StateDB -> Prop) s : (forall s', f s = Ok s' -> Q tt s') -> twpe E (tChange f) F Q s.
Proof. unfold twpe, twp, tChange. destruct (f s) as [s'| | |]; cbn; auto. Qed.
Lemma twpe_mono {A} E (m : T A) (F F' : StateDB -> Prop) (Q Q' : A -> StateDB -> Prop) s :
  (forall s', F s' -> F' s') -> (forall a s', Q a s' -> Q' a s') -> twpe E m F Q s -> twpe E m F' Q' s.
Proof. unfold twpe, twp. intros HF HQ. apply post_mono; [done|]. intros [[e|a] s']; cbn; auto. Qed.
Lemma twpe_enough {A} (E E' : Prop) (m : T A) F Q s : (E' -> E) -> twpe E m F Q s -> twpe E' m F Q s.
Proof. intros HE. apply post_mono; [done|]. done. Qed.
Lemma twpe_pure {A} E (m : X A) (F : StateDB -> Prop) (Q : A -> StateDB -> Prop) s :
  match m with Ok a => Q a s | Err _ => F s | Panic => False | NoFuel => ~ E end -> twpe E (liftX m) F Q s.
Proof. unfold twpe, twp, liftX. by destruct m. Qed.
Lemma twpe_Ok {A} E (m : T A) F Q s r s' : twpe E m F Q s -> m s = Ok (r, s') -> match r with inl _ => F s' | inr a => Q a s' end.
Proof. unfold twpe, twp. intros H E'. by rewrite E' in H. Qed.
End outcomes.

(** Public keys can be compressed. *)
Definition compressible {senv : StateEnv} : Prop := forall pk, point pk -> exists b, compressPubkey pk = Ok b /\ is_bytes b /\ len b < 256.

(** ** Well-formed transactions *)

(** The numbers and addresses of a transaction have the sizes of their types: amounts are not
    negative, and a gas limit is one that money can buy. *)
Definition kind_ok (k : TxKind) : Prop :=
  match k with
  | ValueTransfer to amount => is_addr to /\ 0 <= amount
  | ValueTransferMemo to amount payload | SmartContractExecution to amount payload => is_addr to /\ 0 <= amount /\ len payload < 2 ^ 63
  | AccountUpdate key => key_ok key
  | SmartContractDeploy to amount payload _ _ => (forall a, to = Some a -> is_addr a) /\ 0 <= amount /\ len payload < 2 ^ 63
  | Cancel => True
  | ChainDataAnchoring payload => len payload < 2 ^ 63
  end.
Definition tx_ok (d : TxInternalData) : Prop :=
  0 <= GetGasLimit d <= gas_max /\
  match d with
  | TxInternalDataLegacy _ _ _ to amount payload _ | TxInternalDataEthereumAccessList _ _ _ _ to amount payload _ _
  | TxInternalDataEthereumDynamicFee _ _ _ _ _ to amount payload _ _ => (forall a, to = Some a -> is_addr a) /\ 0 <= amount /\ len payload < 2 ^ 63
  | TxInternalDataKaia k _ _ _ _ _ _ => kind_ok k
  end.
Lemma tx_amount d : tx_ok d -> 0 <= GetAmount d.
Proof. intros [_ H]. destruct d as [| | |k]; [naive_solver..|]. destruct k; cbn in *; naive_solver. Qed.

Section transition.
Context {word : Uint256} {wspec : Uint256Spec} {senv : StateEnv} {crypto : Crypto} (Hb : backend_ok) (Hz : compressible).
Context (cfg : ChainConfig) (bc : BlockContext) (msg : Transaction) (price : Z) (ex : bool).
Abbreviation d := (tx_data msg).
Abbreviation sender := (tx_validatedSender msg).
Abbreviation feePayer := (tx_validatedFeePayer msg).
Abbreviation limit := (GetGasLimit d).

Record msg_ok : Prop := {
  mo_tx : tx_ok d;
  mo_sender : is_addr sender;
  mo_feePayer : is_addr feePayer;
  mo_price : 0 <= price;
  mo_intrinsic : 0 <= tx_validatedIntrinsicGas msg
}.
(** The fee payer's share of a fee is a part of it. *)
Definition ratio_ok : Prop := 0 <= (FeeRatio d).1 <= 100.
(** Where the two who share a fee are one, that account can pay all of it. *)
Definition payers_ok (s : StateDB) : Prop := (FeeRatio d).2 = true -> sender = feePayer -> limit * price <= balanceOf s sender.

Context (Hm : msg_ok).
#[local] Instance tx_laws : StateLaws keccak := backend_laws Hb.

Lemma shares_sum r fee : (CalcFeeWithRatio r fee).1 + (CalcFeeWithRatio r fee).2 = fee.
Proof. cbn. lia. Qed.
Lemma shares_pos r fee : 0 <= r <= 100 -> 0 <= fee -> 0 <= (CalcFeeWithRatio r fee).1 <= fee /\ 0 <= (CalcFeeWithRatio r fee).2 <= fee.
Proof.
  intros Hr Hf. cbn. assert (0 <= fee * r / 100 <= fee) as H; [|lia]. split; [apply Z.div_pos; nia|]. apply Z.div_le_upper_bound; nia.
Qed.

(** Operations on one balance. *)
Lemma nets_Add a v s : is_addr a -> 0 <= v -> good_ s -> nets ex v s (AddBalance a v s).
Proof using Hb.
  intros Ha Hv Hg. pose proof (wf_keyed s (gd_wf s Hg)) as Hk. apply (nets_one ex a); [|done| | |].
  - exact (ext_good _ _ (law_AddBalance (hash:=keccak) a v Ha s Hg)).
  - intros b Hib Hne. rewrite balance_AddBalance by done. rewrite bool_decide_eq_false_2 by done. lia.
  - rewrite balance_AddBalance by done. by rewrite bool_decide_eq_true_2.
  - intros Hs. specialize (Hs a Ha). rewrite bal_value in Hs. lia.
Qed.
Lemma nets_Sub a v s : is_addr a -> v <= balanceOf s a -> good_ s -> nets ex (- v) s (SubBalance a v s).
Proof using Hb.
  intros Ha Hv Hg. pose proof (wf_keyed s (gd_wf s Hg)) as Hk. apply (nets_one ex a); [|done| | |].
  - exact (ext_good _ _ (law_SubBalance (hash:=keccak) a v Ha s Hg)).
  - intros b Hib Hne. rewrite balance_SubBalance by done. rewrite bool_decide_eq_false_2 by done. lia.
  - rewrite balance_SubBalance by done. by rewrite bool_decide_eq_true_2.
  - intros _. lia.
Qed.
(** A balance that is read. *)
Lemma balance_read a s : is_addr a -> good_ s -> (GetBalanceAt a s).1 = balanceOf s a /\ idle s (GetBalanceAt a s).2.
Proof using Hb.
  intros Ha Hg. split; [apply (bal_value s a)|]. apply idle_reads; [exact Hb| |exact Hg]. exact (law_GetBalance (hash:=keccak) a Ha).
Qed.
(** Reading a balance, in a computation that has netted [n] so far. *)
Lemma twpe_balance E a (F : StateDB -> Prop) (Q : Z -> StateDB -> Prop) s : is_addr a -> good_ s -> (forall s', idle s s' -> Q (balanceOf s a) s') ->
  twpe E (tRead (GetBalanceAt a)) F Q s.
Proof using Hb. intros Ha Hg HQ. destruct (balance_read a s Ha Hg) as [E1 H1]. apply twpe_read. rewrite E1. by apply HQ. Qed.

Lemma limit_u64 : u64 (0 + limit) = limit.
Proof using Hm. destruct (mo_tx Hm) as [Hl _]. unfold gas_max in Hl. rewrite Z.add_0_l. apply Z.mod_small. lia. Qed.
Lemma buyGas_ok E s : good_ s -> ratio_ok -> payers_ok s ->
  twpe E (buyGas msg price) (nets false 0 s) (fun r s' => r = (limit, limit) /\ nets ex (- (limit * price)) s s') s.
Proof using Hb Hm.
  intros Hg Hr Hp. unfold buyGas, ratio_ok, payers_ok in *. destruct (FeeRatio d) as [r isRatio]. cbn [fst snd] in *. rewrite limit_u64.
  pose proof (proj1 (mo_tx Hm)) as Hl. pose proof (mo_price Hm) as Hpr. pose proof (mo_sender Hm) as Hs. pose proof (mo_feePayer Hm) as Hf.
  assert (0 <= limit * price) as Hfee by nia. apply twpe_bind. destruct isRatio.
  - pose proof (shares_sum r (limit * price)) as Hsum. pose proof (shares_pos r (limit * price) Hr Hfee) as Hpos.
    destruct (CalcFeeWithRatio r (limit * price)) as [ff sf]. cbn [fst snd] in *.
    apply twpe_bind, twpe_balance; [done|done|]. intros s1 H1. destruct (Z.ltb_spec (balanceOf s feePayer) ff); [by apply twpe_fail, nets_idle|].
    apply twpe_bind, twpe_balance; [done|apply H1|]. intros s2 H2. pose proof (idle_trans _ _ _ H1 H2) as H3.
    destruct (Z.ltb_spec (balanceOf s1 sender) sf); [by apply twpe_fail, nets_idle|]. rewrite (proj2 H1) in * by done.
    apply twpe_bind, twpe_do, twpe_do, twpe_ret. split; [done|]. rewrite <- Hsum.
    replace (- (ff + sf)) with (0 + - ff + - sf) by lia. assert (nets ex (0 + - ff) s (SubBalance feePayer ff s2)) as H4.
    { eapply nets_trans; [by apply nets_idle|]. apply nets_Sub; [done|by rewrite (proj2 H3)|apply H3]. }
    eapply nets_trans; [exact H4|]. apply nets_Sub; [done| |apply H4]. rewrite balance_SubBalance by (done || apply wf_keyed, gd_wf, H3).
    rewrite (proj2 H3) by done. case_bool_decide as Heq; [|lia]. specialize (Hp eq_refl Heq). lia.
  - apply twpe_bind, twpe_balance; [done|done|]. intros s1 H1. destruct (Z.ltb_spec (balanceOf s feePayer) (limit * price)); [by apply twpe_fail, nets_idle|].
    apply twpe_do, twpe_ret. split; [done|]. replace (- (limit * price)) with (0 + - (limit * price)) by lia.
    eapply nets_trans; [by apply nets_idle|]. apply nets_Sub; [done|by rewrite (proj2 H1)|apply H1].
Qed.
Lemma preCheck_ok E s : good_ s -> ratio_ok -> payers_ok s -> Prefetching (cf_VM cfg) = false ->
  twpe E (preCheck cfg msg price) (nets false 0 s) (fun r s' => r = (limit, limit) /\ nets ex (- (limit * price)) s s') s.
Proof using Hb Hm.
  intros Hg Hr Hp Hpre. unfold preCheck. rewrite Hpre. destruct (tx_checkNonce msg); [|by apply buyGas_ok].
  apply twpe_bind, twpe_read. pose proof (idle_reads Hb (GetNonceAt sender) s (law_GetNonce (hash:=keccak) _ (mo_sender Hm)) Hg) as H1.
  destruct (GetNonceAt sender s) as [nonce s1]. cbn [fst snd] in *. destruct (_ <? _); [by apply twpe_fail, nets_idle|].
  destruct (_ <? _); [by apply twpe_fail, nets_idle|].
  eapply twpe_mono; [| |apply buyGas_ok; [apply H1|done|]].
  - intros s' H. eapply nets_zero; [by apply nets_idle|done].
  - intros a s' [-> H]. split; [done|]. change (- (limit * price)) with (0 + - (limit * price)). eapply nets_trans; [by apply nets_idle|done].
  - intros H2 H3. rewrite (proj2 H1) by apply Hm. by apply Hp.
Qed.
(** What the machine does. *)
Lemma newEVM_ok s : good_ s -> evm_ok keccak (NewEVM s).
Proof. intros Hg. split; [exact Hg|]. intros code bits _. cbn. by rewrite lookup_empty. Qed.
Lemma inEVM_ok {A} E (m : EM A) (P : A -> Prop) (F : StateDB -> Prop) s : keepsE m any -> good_ s -> ewp E m (fun a _ => P a) (NewEVM s) ->
  twpe E (inEVM m) F (fun a s' => P a /\ nets false 0 s s') s.
Proof.
  intros Hk Hg Hw. specialize (Hk (NewEVM s)). unfold twpe, twp, inEVM, ewp in *. destruct (m (NewEVM s)) as [[a e]| | |]; cbn in *; try done.
  split; [done|]. destruct (Hk a e Hg eq_refl) as [_ [Hx Ht]]. split; [exact (ext_good _ _ Hx)|exact Ht].
Qed.
Lemma idle_IncNonce a s : is_addr a -> good_ s -> idle s (IncNonce a s).
Proof using Hb.
  intros Ha Hg. split; [exact (ext_good _ _ (law_IncNonce (hash:=keccak) a Ha s Hg))|]. intros b Hib.
  apply (balance_nonce a (fun o => u64 (GetNonce (so_account o) + 1))); [done|done|]. apply wf_keyed, gd_wf, Hg.
Qed.

Abbreviation vm := (vmenv cfg bc msg price).
Abbreviation table := (instructionSet (rules cfg)).
Definition within_gas (gas : Z) (s : StateDB) (r : bytes * Z * option execError) (s' : StateDB) : Prop := 0 <= r.1.2 <= gas /\ nets ex 0 s s'.
Lemma callTx_ok r to payload gas value (F : StateDB -> Prop) s : ex = false -> ref_ok r -> is_addr to -> len payload < 2 ^ 63 -> 0 <= gas <= gas_max -> 0 <= value -> good_ s ->
  twpe (gas < Z.of_nat (cf_turns cfg)) (callTx cfg bc msg price r to payload gas value) F (within_gas gas s) s.
Proof using Hb wspec.
  intros Hex Hr Ha Hp Hg Hv Hs. pose proof (idle_IncNonce (refAddress r) s (proj1 Hr) Hs) as H1. apply twpe_bind, twpe_do, twpe_bind.
  eapply twpe_mono; [intros s'; exact id| |apply (inEVM_ok _ _ (fun r => 0 <= r.1.2 <= gas) F)]; [| |apply H1|].
  - intros [[ret g] err] s' [Hg' Hn]. apply twpe_ret. split; [exact Hg'|]. rewrite Hex. eapply nets_zero; [by apply nets_idle|exact Hn].
  - apply (ck_Call _ (calls_conserve Hb _ _ _ _ _ _ (cf_turns cfg))); done.
  - eapply ewp_mono; [intros H; exact H| |apply (ok_Call _ _ _ (calls_sound Hb _ _ _ _ _ _ (cf_turns cfg))); try done; apply newEVM_ok, H1].
    intros a e' (_ & H & _). exact H.
Qed.
Lemma createTx_ok r payload gas value format (F : StateDB -> Prop) s : ex = false -> ref_ok r -> len payload < 2 ^ 63 -> 0 <= gas <= gas_max -> 0 <= value -> good_ s ->
  twpe (gas < Z.of_nat (cf_turns cfg)) (createTx cfg bc msg price r payload gas value format) F (within_gas gas s) s.
Proof using Hb wspec.
  intros Hex Hr Hp Hg Hv Hs. apply twpe_bind.
  eapply twpe_mono; [intros s'; exact id| |apply (inEVM_ok _ _ (fun r => 0 <= r.1.2 <= gas) F)]; [| |apply Hs|].
  - intros [[[ret a] g] err] s' [Hg' Hn]. apply twpe_ret. rewrite <- Hex in Hn. by split.
  - apply (ck_Create _ (calls_conserve Hb _ _ _ _ _ _ (cf_turns cfg))); done.
  - eapply ewp_mono; [intros H; exact H| |apply (ok_Create _ _ _ (calls_sound Hb _ _ _ _ _ _ (cf_turns cfg))); try done; by apply newEVM_ok].
    intros a e' [_ H]. exact H.
Qed.
Lemma updateKeyAt_returns a key s : key_ok key -> match (UpdateKeyAt a key s).1 with Ok _ | Err _ => True | _ => False end.
Proof using Hz.
  intros Hk. unfold UpdateKeyAt. destruct (getStateObject a s) as [[o|] s1]; [|done]. destruct (so_account o) as [c|]; [|done]. cbn [updateKey].
  pose proof (UpdateKey_returns compressPubkey (ac_key c) key Hz Hk) as Hr. by destruct (UpdateKey _ _ _).
Qed.
(** The types that the machine executes, for which amounts may be lost with contracts. *)
Definition runs_code (d : TxInternalData) : bool :=
  match d with TxInternalDataKaia (AccountUpdate _ | Cancel | ChainDataAnchoring _) _ _ _ _ _ _ => false | _ => true end.
Lemma Execute_ok gas (F : StateDB -> Prop) s : (ex = true -> runs_code d = false) -> 0 <= gas <= gas_max -> good_ s ->
  twpe (gas < Z.of_nat (cf_turns cfg)) (Execute cfg bc msg price gas (GetAmount d)) F (within_gas gas s) s.
Proof using Hb Hm Hz wspec.
  intros Hex Hg Hs. pose proof (mo_sender Hm) as Ha. pose proof (tx_amount d (mo_tx Hm)) as Hv. destruct (mo_tx Hm) as [_ Ht]. unfold Execute.
  set (r := AccountRefWithFeePayer sender feePayer). assert (ref_ok r) as Hr by done. assert (runs_code d = true -> ex = false) as Hrun by (intros Hd; destruct ex; [rewrite Hex in Hd by done; discriminate|done]).
  destruct d as [? ? ? to|? ? ? ? to|? ? ? ? ? to|k]; cbn in Ht, Hv |- *.
  1-3: specialize (Hrun eq_refl); destruct Ht as (Hto & _ & Hp); destruct to as [to|]; [apply callTx_ok|apply createTx_ok]; try done; by apply Hto.
  pose proof (nets_idle ex _ _ (idle_IncNonce sender s Ha Hs)) as H1.
  destruct k as [to|to|key|to ? payload hr format|to| |]; cbn in *.
  - specialize (Hrun eq_refl). by apply callTx_ok; destruct Ht.
  - specialize (Hrun eq_refl). apply callTx_ok; naive_solver.
  - apply twpe_bind, twpe_do, twpe_bind, twpe_read. pose proof (updateKeyAt_returns sender key (IncNonce sender s) Ht) as Hret.
    change (refAddress r) with sender. destruct (UpdateKeyAt sender key (IncNonce sender s)) as [res s'] eqn:E. apply (idle_UpdateKey Hb) in E; [|done|done|apply H1]. cbn.
    assert (nets ex 0 s s') as H2 by (eapply nets_zero; [exact H1|by apply nets_idle]).
    destruct res as [|[|]| |]; try done; (apply twpe_ret; split; [cbn; lia|done]).
  - specialize (Hrun eq_refl). destruct Ht as (Hto & _ & Hp). destruct to as [to|]; [|by apply createTx_ok]. apply twpe_bind.
    eapply twpe_mono; [intros s'; exact id| |apply (inEVM_ok _ _ (fun r => 0 <= r.1.2 <= gas) F)]; [| |apply Hs|].
    + intros [[[ret a] g] err] s' [Hg' Hn]. apply twpe_ret. rewrite <- Hrun in Hn. by split.
    + apply (keepsE_createWith keccak vm (flat_env Hb _ _ _ _ _ _)); [|done|by apply Hto|done]. apply (keeps_loop keccak vm table (flat_env Hb _ _ _ _ _ _)).
    + eapply ewp_mono; [intros H; exact H| |apply (createWith_ok keccak vm (Z.of_nat (cf_turns cfg)) (loop vm table (cf_turns cfg))); try done]; [by intros a e' [_ H]| |by apply Hto|].
      * apply (loop_ok keccak (bk_inj Hb) vm (bk_keccak Hb) (backend_env Hb _ _ _ _ _ _)).
      * right. symmetry. apply (bk_keccak Hb).
  - specialize (Hrun eq_refl). apply callTx_ok; naive_solver.
  - apply twpe_bind, twpe_do, twpe_ret. split; [cbn; lia|done].
  - apply twpe_bind, twpe_do, twpe_ret. split; [cbn; lia|done].
Qed.
Lemma refundGas_ok E q initial gas (F : StateDB -> Prop) s : 0 < q -> 0 <= gas <= initial -> initial <= gas_max -> ratio_ok -> good_ s ->
  twpe E (refundGas msg price q initial gas) F (fun g s' => gas <= g <= gas + (initial - gas) / q /\ nets ex (g * price) s s') s.
Proof using Hb Hm.
  intros Hq Hgas Hmax Hr Hg. unfold gas_max in Hmax. apply twpe_bind, twpe_read. cbn [fst snd].
  assert (0 <= GetRefund s) as Hc by (apply Z.mod_pos_bound; lia). rewrite (u64_small (initial - gas)) by (unfold is_u64; lia).
  set (refund := if GetRefund s <? _ then _ else _). assert (0 <= (initial - gas) / q <= initial - gas) as Hd.
  { split; [apply Z.div_pos; lia|]. apply Z.div_le_upper_bound; nia. }
  assert (0 <= refund <= (initial - gas) / q) as Href by (unfold refund; destruct (Z.ltb_spec (GetRefund s) ((initial - gas) / q)); lia). clearbody refund.
  rewrite (u64_small (gas + refund)) by (unfold is_u64; lia). pose proof (mo_price Hm) as Hp. unfold ratio_ok in Hr.
  pose proof (mo_sender Hm) as Hs. pose proof (mo_feePayer Hm) as Hf. assert (0 <= (gas + refund) * price) as Hfee by nia.
  destruct (FeeRatio d) as [r isRatio]. cbn [fst snd] in Hr. apply twpe_bind. destruct isRatio.
  - pose proof (shares_sum r ((gas + refund) * price)) as Hsum. pose proof (shares_pos r _ Hr Hfee) as Hpos.
    destruct (CalcFeeWithRatio r ((gas + refund) * price)) as [ff sf]. cbn [fst snd] in *. apply twpe_bind, twpe_do, twpe_do, twpe_ret. split; [lia|].
    rewrite <- Hsum. assert (nets ex ff s (AddBalance feePayer ff s)) as H1 by (apply nets_Add; [done|lia|done]).
    eapply nets_trans; [exact H1|]. apply nets_Add; [done|lia|apply H1].
  - apply twpe_do, twpe_ret. split; [lia|]. by apply nets_Add.
Qed.

Abbreviation quotient := (if IsKore (rules cfg) then RefundQuotientEIP3529 else RefundQuotient).
Definition block_ok : Prop := is_addr (Coinbase bc) /\ is_addr (Rewardbase bc).
(** What a transaction that was executed leaves: all its gas is accounted for. *)
Definition settled (s : StateDB) (r : ExecutionResult) (s' : StateDB) : Prop :=
  0 <= UsedGas r <= limit /\ (quotient - 1) * tx_validatedIntrinsicGas msg <= quotient * UsedGas r /\
  nets ex (if cf_DeferredTxFee cfg then - (UsedGas r * price) else 0) s s'.
Lemma settleTx_ok E gas vmerr ret (F : StateDB -> Prop) s0 s : 0 <= gas -> 0 <= tx_validatedIntrinsicGas msg -> gas + tx_validatedIntrinsicGas msg <= limit ->
  ratio_ok -> block_ok -> nets ex (- (limit * price)) s0 s ->
  twpe E (g ← refundGas msg price quotient limit gas;
          (if cf_DeferredTxFee cfg then mret tt
           else tDo (AddBalance (if IsMagma (rules cfg) then Rewardbase bc else Coinbase bc) (u64 (limit - g) * price)));;
          mret (mkResult (u64 (limit - g)) (getReceiptStatusFromErrTxFailed vmerr) ret)) F (settled s0) s.
Proof using Hb Hm.
  intros Hg Hi Hs Hr [Hcb Hrb] Hn. pose proof (proj1 (mo_tx Hm)) as Hl. pose proof (mo_price Hm) as Hp. apply twpe_bind.
  assert (0 < quotient) as Hq by (by destruct (IsKore _)).
  eapply twpe_mono; [intros s'; exact id| |apply (refundGas_ok E quotient limit gas F); [done|lia|lia|done|apply Hn]]. cbn beta. intros g s' [Hgr Hn'].
  pose proof (Z.mul_div_le (limit - gas) quotient Hq) as Hdiv. set (x := (limit - gas) / quotient) in *.
  assert (0 <= limit - g) as Hused by nia. unfold gas_max in Hl. rewrite (u64_small (limit - g)) by (unfold is_u64; lia).
  assert (nets ex (- ((limit - g) * price)) s0 s') as Hn2 by (replace (- ((limit - g) * price)) with (- (limit * price) + g * price) by lia; by eapply nets_trans).
  apply twpe_bind. unfold settled. cbn [UsedGas]. assert ((quotient - 1) * tx_validatedIntrinsicGas msg <= quotient * (limit - g)) as Hbound by nia.
  destruct (cf_DeferredTxFee cfg); [apply twpe_ret, twpe_ret; cbn [UsedGas]; split; [lia|split; [exact Hbound|exact Hn2]]|].
  apply twpe_do, twpe_ret. cbn [UsedGas]. split; [lia|split; [exact Hbound|]]. rewrite <- (Z.add_opp_diag_l ((limit - g) * price)). eapply nets_trans; [exact Hn2|].
  apply nets_Add; [by destruct (IsMagma _)|nia|apply Hn2].
Qed.
Lemma TransitionDb_ok s : (ex = true -> runs_code d = false) -> good_ s -> ratio_ok -> payers_ok s -> block_ok -> Prefetching (cf_VM cfg) = false ->
  twpe (limit < Z.of_nat (cf_turns cfg)) (TransitionDb cfg bc msg price) (nets false 0 s) (settled s) s.
Proof using Hb Hm Hz wspec.
  intros Hex Hg Hr Hp Hbk Hpre. pose proof (proj1 (mo_tx Hm)) as Hl. pose proof (mo_intrinsic Hm) as Hi. pose proof (mo_price Hm) as Hpr. unfold TransitionDb.
  assert (forall s', nets ex (- (limit * price)) s s' -> nets false 0 s s') as Hless by (intros s' H; eapply nets_le; [exact H|nia]).
  apply twpe_bind. eapply twpe_mono; [intros s'; exact id| |by apply preCheck_ok]. intros ? s1 [-> H1]. cbn beta iota zeta.
  destruct (Z.ltb_spec limit (tx_validatedIntrinsicGas msg)) as [?|Hge]; [by apply twpe_fail, Hless|]. set (gas := limit - tx_validatedIntrinsicGas msg).
  apply twpe_bind. assert (forall s2, idle s1 s2 -> nets ex (- (limit * price)) s s2) as Hidle.
  { intros s2 H2. replace (- (limit * price)) with (- (limit * price) + 0) by lia. eapply nets_trans; [exact H1|by apply nets_idle]. }
  eapply (twpe_mono _ _ (nets false 0 s) _ (fun _ s2 => nets ex (- (limit * price)) s s2)); [intros s'; exact id| |].
  2:{ destruct (0 <? _); [|by apply twpe_ret]. apply twpe_bind, twpe_balance; [apply Hm|apply H1|]. intros s2 H2. apply twpe_ret. by apply Hidle. }
  cbn beta. intros enough s2 H2. destruct enough; cbn [negb]; [|by apply twpe_fail, Hless]. apply twpe_bind, twpe_change. intros s3 H3.
  apply (idle_Prepare Hb) in H3; [|apply H2]. assert (nets ex (- (limit * price)) s s3) as Hs3.
  { replace (- (limit * price)) with (- (limit * price) + 0) by lia. eapply nets_trans; [exact H2|by apply nets_idle]. }
  destruct (_ && _); [by apply twpe_fail, Hless|]. apply twpe_bind.
  pose proof (Execute_ok gas (nets false 0 s) s3 Hex) as Hexe. unfold gas in *.
  eapply (twpe_enough _ (limit < Z.of_nat (cf_turns cfg))) in Hexe; [|lia|lia|apply Hs3].
  eapply twpe_mono; [intros s'; exact id| |exact Hexe]. intros [[ret g] vmerr] s4 [Hg4 H4]. cbn [fst snd] in Hg4. cbn beta iota.
  assert (nets ex (- (limit * price)) s s4) as Hs4 by (replace (- (limit * price)) with (- (limit * price) + 0) by lia; by eapply nets_trans).
  assert (twpe (limit < Z.of_nat (cf_turns cfg)) (fail (ErrVM ErrTotalTimeLimitReached)) (nets false 0 s) (settled s) s4) as Hstop by by apply twpe_fail, Hless.
  destruct vmerr as [[[]| |]|]; try exact Hstop; (apply settleTx_ok; [lia|lia|lia|done..]).
Qed.
End transition.
End TxLedger.
