(* ===== verification/TxValid.v ===== *)
(** * Validating a transaction

    The validation of a transaction that was decoded, against the state: it raises no fault, it
    leaves the state as it was, and the message it makes is one that the state transition can
    execute. *)

From S2P Require Import Prelude Rlp AccountKey StateDB StateRevert EvmWord EvmCode EvmMem EvmParams EvmState EvmGas EvmOps EvmTable EvmRun.
From S2P Require Import EvmSpec EvmInv EvmPlain EvmCost EvmStep EvmCalls EvmLoop EvmFrames EvmMain EvmStateDB Blake2b EvmPrecompiles EvmPreSpec.
From S2P Require Import EvmMoney EvmMoneyDB EvmLedger EvmTheorems EvmConserve.
From S2P Require Import Tx TxSign TxExec TxState TxLedger.

Module TxValid.
Import AccountKey Account State Revert.
Export TxLedger.

(** ** Computations that raise no fault *)

Section pure.
Context {E : Type}.
Definition safe {A} (m : res E A) (P : A -> Prop) : Prop := match m with Ok a => P a | Err _ => True | _ => False end.

Lemma safe_bind {A B} (m : res E A) (k : A -> res E B) P Q : safe m P -> (forall a, P a -> safe (k a) Q) -> safe (m ≫= k) Q.
Proof. intros Hm Hk. destruct m; try done. by apply Hk. Qed.
Lemma safe_ret {A} (a : A) (P : A -> Prop) : P a -> safe (mret a) P.
Proof. done. Qed.
Lemma safe_then {A B} (m : res E A) (f : A -> B) : safe m any -> safe (m ≫= fun a => mret (f a)) any.
Proof. by destruct m. Qed.
Lemma safe_any {A} (m : res E A) P : safe m P -> safe m any.
Proof. by destruct m. Qed.
End pure.

Section signatures.
Context {crypto : Crypto} (Hc : crypto_ok).

(** ** Encodings *)

Lemma encodePoint pk : point pk -> safe (encodeKey CompressPubkey pk) any.
Proof using Hc. intros Hp. destruct (encodeKey_ok CompressPubkey (CompressPubkey_ok Hc) pk Hp) as [b ->]. exact I. Qed.
Lemma encodeWeightedKeys_safe keys : Forall weighted_ok keys -> safe (encodeWeightedKeys keys) any.
Proof using Hc.
  induction 1 as [|k keys [Hk _] _ IH]; [exact I|]. cbn [encodeWeightedKeys]. apply (safe_bind _ _ any); [|intros b _; by apply safe_then].
  apply safe_then. by apply encodePoint.
Qed.
Lemma encodeAccountKey_safe k : key_ok k -> safe (encodeAccountKey k) any.
Proof using Hc.
  revert k. fix IH 1. intros [| |p| |t w|keys] Hk; [clear IH; exact I|clear IH; exact I|clear IH|clear IH; exact I|clear IH|].
  - apply safe_then. by apply encodePoint.
  - apply safe_then. apply encodeWeightedKeys_safe, Hk.
  - apply key_ok_roles in Hk. cbn [encodeAccountKey]. apply safe_then.
    induction keys as [|k keys IHk]; [exact I|]. apply Forall_cons in Hk as [Hk Hks]. specialize (IH k Hk).
    destruct (encodeAccountKey k) as [b| | |]; try done; cbn [mbind res_bind]; apply safe_then; exact (IHk Hks).
Qed.

Definition signable (d : TxInternalData) : Prop :=
  match d with TxInternalDataKaia (AccountUpdate key) _ _ _ _ _ _ => key_ok key | _ => True end.
Lemma kaiaFields_safe k fee nonce price gasLimit from : (forall key, k = AccountUpdate key -> key_ok key) -> safe (kaiaFields k fee nonce price gasLimit from) any.
Proof using Hc.
  intros Hk. destruct k; try exact I. specialize (Hk key eq_refl). apply safe_then. unfold keyEnc. pose proof (encodeAccountKey_safe key Hk) as H.
  by destruct (encodeAccountKey key).
Qed.
Lemma SerializeForSign_safe d : signable d -> safe (SerializeForSign d) any.
Proof using Hc. intros Hd. destruct d; try exact I. apply safe_then, kaiaFields_safe. by intros key ->. Qed.
Lemma TxHash_safe d : signable d -> safe (TxHash d) any.
Proof using Hc.
  intros Hd. destruct d as [| | |k]; [exact I..|]. apply safe_then. cbn [EncodeRLP]. apply safe_then, kaiaFields_safe. by intros key ->.
Qed.

(** ** Recovery *)

Lemma recoverPlainCommon_safe h R S V homestead : safe (recoverPlainCommon h R S V homestead) (fun pub => exists sig, Ecrecover h sig = Some pub).
Proof.
  unfold recoverPlainCommon. destruct (_ <? _); [exact I|]. destruct (negb _); [exact I|]. destruct (Ecrecover _ _) as [pub|] eqn:E; [|exact I].
  destruct (negb _); [exact I|]. by eexists.
Qed.
Lemma recoverPlain_safe h R S V homestead : safe (recoverPlain h R S V homestead) is_addr.
Proof. eapply safe_bind; [apply recoverPlainCommon_safe|]. intros pub _. apply BytesToAddress_20. Qed.
Lemma recoverPlainPubkey_safe h R S V homestead : safe (recoverPlainPubkey h R S V homestead) point.
Proof using Hc.
  eapply safe_bind; [apply recoverPlainCommon_safe|]. intros pub [sig Hs]. destruct (UnmarshalPubkey_ok pub) as [[pk|] E]; rewrite E; [|exact I].
  by apply (Ecrecover_point Hc h sig pub).
Qed.
Lemma sigsRecoverPubkey_safe h homestead vfunc sigs : safe (sigsRecoverPubkey h homestead vfunc sigs) (Forall point).
Proof using Hc.
  induction sigs as [|t sigs IH]; [by constructor|]. eapply safe_bind; [apply recoverPlainPubkey_safe|]. intros pk Hp.
  eapply safe_bind; [exact IH|]. intros rest Hr. by constructor.
Qed.
(** A transaction that was decoded has a signature, or is of a type that has just one. *)
Definition signed (d : TxInternalData) : Prop := RawSignatureValues d <> [].
Lemma ChainId_safe d : signed d -> safe (ChainId d) any.
Proof. unfold signed. intros Hs. destruct d as [| | |k fee n p g from [|]]; try exact I. done. Qed.
Lemma eip155Hash_safe c d : signable d -> safe (eip155Hash c d) any.
Proof using Hc. intros Hd. pose proof (SerializeForSign_safe d Hd) as H. destruct d; try (apply safe_then; exact H). apply safe_then. unfold SerializeForSignToBytes. by apply safe_then. Qed.
Lemma RecoverAddress_safe h vfunc d : safe (RecoverAddress h vfunc d) is_addr.
Proof. destruct d as [| | |k fee n p g from [|? [|]]]; try exact I; apply recoverPlain_safe. Qed.
Lemma eip155Sender_safe c d : signed d -> signable d -> safe (eip155Sender c d) is_addr.
Proof using Hc.
  intros Hs Hd. unfold eip155Sender. destruct (IsEthTypedTransaction _); [exact I|]. destruct (negb (Protected d)).
  - unfold plainSender. destruct (negb _); [exact I|]. destruct (RawSignatureValues d) as [|? [|]]; try exact I. apply recoverPlain_safe.
  - eapply safe_bind; [by apply ChainId_safe|]. intros c' _. destruct (negb _); [exact I|]. eapply safe_bind; [by apply eip155Hash_safe|]. intros h _. apply RecoverAddress_safe.
Qed.
Lemma typedHash_safe c d : signed d -> signable d -> safe (typedHash c d) any.
Proof using Hc. intros Hs Hd. eapply safe_bind; [by apply ChainId_safe|]. intros c' _. apply safe_then. by apply SerializeForSign_safe. Qed.
Lemma Sender_safe s d : signed d -> signable d -> (forall a, GetFrom d = Some a -> is_addr a) -> safe (Sender s d) is_addr.
Proof using Hc.
  intros Hs Hd Hf. unfold Sender. destruct (IsEthereumTransaction (Type_ d)) eqn:Et.
  - assert (forall c, safe (typedSender c d) is_addr) as Ht.
    { intros c. eapply safe_bind; [by apply ChainId_safe|]. intros c' _. destruct (negb _); [exact I|]. eapply safe_bind; [by apply typedHash_safe|]. intros h _. apply RecoverAddress_safe. }
    assert (forall h, safe (plainSender h d) is_addr) as Hp.
    { intros h. unfold plainSender. destruct (negb _); [exact I|]. destruct (RawSignatureValues d) as [|? [|]]; try exact I. apply recoverPlain_safe. }
    destruct s; cbn [signerSender]; try apply Hp; try (by apply eip155Sender_safe); (destruct (handles _ d); [apply Ht|by apply eip155Sender_safe]).
  - destruct d as [| | |k]; try done. by apply Hf.
Qed.
Lemma SenderPubkey_safe s d : signed d -> signable d -> safe (signerSenderPubkey s d) (Forall point).
Proof using Hc.
  intros Hs Hd. assert (forall c, safe (typedSenderPubkey c d) (Forall point)) as Ht.
  { intros c. eapply safe_bind; [by apply ChainId_safe|]. intros c' _. destruct (negb _); [exact I|]. eapply safe_bind; [by apply typedHash_safe|]. intros h _. apply sigsRecoverPubkey_safe. }
  assert (forall c, safe (eip155SenderPubkey c d) (Forall point)) as He.
  { intros c. unfold eip155SenderPubkey. destruct (IsEthTypedTransaction _); [exact I|]. eapply safe_bind; [by apply ChainId_safe|]. intros c' _. destruct (negb _); [exact I|].
    eapply safe_bind; [by apply eip155Hash_safe|]. intros h _. apply sigsRecoverPubkey_safe. }
  destruct s; cbn [signerSenderPubkey]; try exact I; try apply He; (destruct (handles _ d); [apply Ht|apply He]).
Qed.
Lemma SenderFeePayer_safe s d : signed d -> signable d -> safe (signerSenderFeePayer s d) (Forall point).
Proof using Hc.
  intros Hs Hd. assert (forall c, safe (eip155SenderFeePayer c d) (Forall point)) as He; [|destruct s; try exact I; apply He].
  intros c. unfold eip155SenderFeePayer. destruct (IsEthTypedTransaction _); [exact I|]. eapply safe_bind; [by apply ChainId_safe|]. intros c' _. destruct (negb _); [exact I|].
  eapply (safe_bind _ _ any); [|intros h _; apply sigsRecoverPubkey_safe]. unfold HashFeePayer155. destruct (GetFeePayer d); [|exact I].
  apply safe_then. unfold SerializeForSignToBytes. apply safe_then. by apply SerializeForSign_safe.
Qed.

(** ** Keys *)

Lemma SigValidationGas_safe k num r n : sound_key k -> safe (SigValidationGas IsIstanbulAt k num r n) (fun g => 0 <= g).
Proof.
  revert k. fix IH 1. intros [| |p| |t w|keys] Hk; [clear IH; done|clear IH; done|clear IH; done|clear IH; done|clear IH|].
  - cbn [SigValidationGas]. destruct (_ <? _); [exact I|]. destruct (_ =? _); [exact I|]. destruct (IsIstanbulAt num); apply u64_range.
  - apply sound_roles in Hk as [Hne Hall]. assert (Forall (fun k => safe (SigValidationGas IsIstanbulAt k num r n) (fun g => 0 <= g)) keys) as Hv.
    { clear Hne. induction keys as [|k keys IHk]; [constructor|]. apply Forall_cons in Hall as [Hk Hall]. constructor; [exact (IH k Hk)|exact (IHk Hall)]. }
    cbn [SigValidationGas]. set (i := if (r <? length keys)%nat then r else RoleTransaction). destruct (lookup_lt_is_Some_2 keys i) as [k Hi].
    { unfold i, RoleTransaction. destruct (Nat.ltb_spec r (length keys)); [done|]. destruct keys; [done|]. cbn. lia. }
    rewrite (index_lookup _ i (SigValidationGas IsIstanbulAt k num r n)) by (by rewrite list_lookup_fmap, Hi). cbn [mbind res_bind].
    apply (Forall_lookup_1 _ _ _ _ Hv Hi).
Qed.
Lemma AccountCreationGas_safe k : safe (AccountCreationGas k) any.
Proof.
  revert k. fix IH 1. intros [| |p| |t w|keys]; [clear IH; exact I|clear IH; exact I|clear IH; exact I|clear IH; exact I|clear IH|].
  - cbn [AccountCreationGas]. by destruct (_ <? _).
  - cbn [AccountCreationGas]. generalize 0. induction keys as [|k keys IHk]; intros gas; [exact I|]. apply (safe_bind _ _ any); [exact (IH k)|]. intros g _. exact (IHk _).
Qed.
Lemma CheckReplacable_safe old new : key_ok new -> safe (CheckReplacable CompressPubkey old new) any.
Proof using Hc.
  intros Hk. unfold CheckReplacable. pose proof (updatable_returns CompressPubkey (CompressPubkey_ok Hc) old new Hk) as H1.
  pose proof (installable_returns CompressPubkey (CompressPubkey_ok Hc) new Hk) as H2. destruct (_ =? _); [by destruct (CheckUpdatable _ _ _)|by destruct (CheckInstallable _ _)].
Qed.
Lemma liftKey_safe {A} (m : K A) P : safe m P -> safe (liftKey m) P.
Proof. by destruct m. Qed.

(** ** Gas *)

Lemma IntrinsicGasPayload_safe gas data c r : safe (IntrinsicGasPayload gas data c r) any.
Proof. unfold IntrinsicGasPayload. destruct (_ =? _); [exact I|]. destruct (_ <? _); [exact I|]. destruct (_ && _); [|exact I]. by destruct (_ <? _). Qed.
Lemma IntrinsicGasPayloadLegacy_safe gas data : safe (IntrinsicGasPayloadLegacy gas data) any.
Proof. unfold IntrinsicGasPayloadLegacy. destruct (_ <? _); [|exact I]. destruct (_ <? _); [exact I|]. by destruct (_ <? _). Qed.
Lemma IntrinsicGas_safe data l c r : safe (IntrinsicGas data l c r) any.
Proof. unfold IntrinsicGas. apply (safe_bind _ _ any); [|done]. destruct (IsIstanbul r); [apply IntrinsicGasPayload_safe|apply IntrinsicGasPayloadLegacy_safe]. Qed.
Lemma intrinsicGasOf_safe r d : safe (intrinsicGasOf r d) any.
Proof.
  destruct d as [| | |k]; cbn [intrinsicGasOf]; try apply IntrinsicGas_safe. destruct k; try exact I; try apply IntrinsicGasPayload_safe.
  apply (safe_bind _ _ any); [|done]. apply liftKey_safe, AccountCreationGas_safe.
Qed.
End signatures.

(** ** Validation *)

(** A transaction as decoding makes it. *)
Record decoded (d : TxInternalData) : Prop := {
  de_tx : tx_ok d;
  de_signed : signed d;
  de_from a : GetFrom d = Some a -> is_addr a;
  de_feePayer a : GetFeePayer d = Some a -> is_addr a
}.
Lemma decoded_signable d : decoded d -> signable d.
Proof. intros [[_ Ht] _ _ _]. destruct d as [| | |k]; try exact I. by destruct k. Qed.
Lemma zero_addr : is_addr zeroAddress.
Proof. done. Qed.

Section validation.
Context {word : Uint256} {wspec : Uint256Spec} {senv : StateEnv} {crypto : Crypto} (Hb : backend_ok).
#[local] Instance valid_laws : StateLaws keccak := backend_laws Hb.
Abbreviation Hc := (bk_crypto Hb).

Lemma idle_get {A} a (f : option stateObject -> A) s : is_addr a -> good_ s -> idle s (let '(o, s) := getStateObject a s in (f o, s)).2.
Proof using Hb. intros Ha Hg. pose proof (idle_reads Hb (getStateObject a) s (reads_object Hb a Ha) Hg) as H. by destruct (getStateObject a s). Qed.
Lemma twpe_get {A} E a (f : option stateObject -> A) (F : StateDB -> Prop) (Q : A -> StateDB -> Prop) s : is_addr a -> good_ s ->
  (forall x s', idle s s' -> Q x s') -> twpe E (tRead (fun s => let '(o, s) := getStateObject a s in (f o, s))) F Q s.
Proof using Hb. intros Ha Hg HQ. apply twpe_read. apply HQ. by apply idle_get. Qed.
Lemma twpe_key E a (F : StateDB -> Prop) (Q : AccountKey -> StateDB -> Prop) s : is_addr a -> good_ s ->
  (forall k s', sound_key k -> idle s s' -> Q k s') -> twpe E (tRead (GetKeyAt a)) F Q s.
Proof using Hb.
  intros Ha Hg HQ. apply twpe_read. apply HQ; [exact (law_key (hash:=keccak) a s Ha Hg)|]. exact (idle_reads Hb (GetKeyAt a) s (law_GetKey (hash:=keccak) a Ha) Hg).
Qed.
Lemma twpe_safe {A} E (m : X A) P (F : StateDB -> Prop) (Q : A -> StateDB -> Prop) s : safe m P -> F s -> (forall a, P a -> Q a s) -> twpe E (liftX m) F Q s.
Proof. intros Hm HF HQ. apply twpe_pure. destruct m; try done. by apply HQ. Qed.

Lemma validateMutable_ok E d s : decoded d -> good_ s -> twpe E (validateMutable d) (idle s) (fun _ => idle s) s.
Proof using Hb.
  intros [[_ Ht] _ Hf _] Hg. pose proof (idle_refl s Hg) as H0. destruct d as [| | |k]; try by apply twpe_ret. destruct k as [to|to|key|[to|]|to| |]; cbn in Ht; try by apply twpe_ret.
  - apply twpe_bind, twpe_get; [by destruct Ht|done|]. by intros [] s' H.
  - apply twpe_bind, twpe_get; [by destruct Ht|done|]. by intros [] s' H.
  - apply twpe_bind, twpe_key; [by apply Hf|done|]. intros k s' _ H. eapply (twpe_safe _ _ any); [|done|done]. apply liftKey_safe. by apply (CheckReplacable_safe Hc).
  - apply twpe_bind, twpe_get; [by apply Ht|done|]. by intros [] s' H.
  - apply twpe_bind, twpe_get; [by destruct Ht|done|]. by intros [] s' H.
Qed.
Lemma Validate_ok E d s : decoded d -> good_ s -> twpe E (Validate_ d) (idle s) (fun _ => idle s) s.
Proof using Hb.
  intros Hd Hg. pose proof (idle_refl s Hg) as H0. pose proof (validateMutable_ok E d s Hd Hg) as Hm. destruct d as [? ? ? to|? ? ? ? to|? ? ? ? ? to|k]; cbn [Validate_].
  1-3: destruct to; [|exact Hm]; destruct (IsPrecompiledContractAddress _); [by apply twpe_fail|exact Hm].
  destruct k; try exact Hm; repeat (match goal with |- twpe _ (if ?b then _ else _) _ _ _ => destruct b end; [by apply twpe_fail|]); try exact Hm.
Qed.
Lemma twpe_wrap {A} E f (m : T A) F Q s : twpe E m F Q s -> twpe E (wrapError f m) F Q s.
Proof. unfold twpe, twp, wrapError. by destruct (m s) as [[[e|a] s']| | |]. Qed.
Lemma checkKey_ok E num a k pubs r (F : StateDB -> Prop) s : sound_key k -> Forall point pubs -> F s -> twpe E (checkKey num a k pubs r) F (fun _ => F) s.
Proof using Hb.
  intros Hk Hp HF. unfold checkKey, ValidateAccountKey. destruct (Validate_returns Hc k num r pubs a Hk Hp) as [v ->]. by destruct v.
Qed.
(** The sender and the fee payer that a transaction has been validated for. *)
Definition validated (d : TxInternalData) (sender feePayer : Address) (tx : Transaction) : Prop :=
  tx_data tx = d /\ tx_validatedSender tx = sender /\ tx_validatedFeePayer tx = feePayer.
Lemma NewTx_validated d a : (if bool_decide (tx_validatedSender (NewTx d) = zeroAddress) then setValidated a a (NewTx d) else NewTx d) = setValidated a a (NewTx d).
Proof. by rewrite bool_decide_eq_true_2. Qed.
Lemma ValidateSender_ok E sg num d s : decoded d -> good_ s ->
  twpe E (ValidateSender sg num (NewTx d)) (idle s)
    (fun r s' => idle s s' /\ exists a, is_addr a /\ (forall from, GetFrom d = Some from -> a = from) /\ validated d a a r.2) s.
Proof using Hb.
  intros Hd Hg. pose proof (idle_refl s Hg) as H0. pose proof Hd as [_ Hs Hf _]. pose proof (decoded_signable d Hd) as Hsg. unfold ValidateSender. cbn [tx_data NewTx].
  destruct (IsEthereumTransaction (Type_ d)) eqn:Et.
  - pose proof (Sender_safe Hc sg d Hs Hsg Hf) as Hsend. set (addr := match Sender sg d with Ok a => a | _ => zeroAddress end).
    assert (is_addr addr) as Ha by (unfold addr; destruct (Sender sg d); [done|apply zero_addr..]).
    apply twpe_bind, twpe_key; [exact Ha|done|]. intros k s' Hk H. destruct (negb _); [by apply twpe_fail|]. apply twpe_bind. eapply twpe_safe; [exact Hsend|done|].
    intros a' _. apply twpe_ret. split; [done|]. exists addr. split; [done|]. split; [|by rewrite NewTx_validated].
    intros from Hfrom. destruct d as [| | |k' fee]; try done. exfalso. by destruct k', fee.
  - apply twpe_bind. eapply twpe_safe; [by apply (SenderPubkey_safe Hc)|done|]. intros pubs Hp. destruct (GetFrom d) as [from|] eqn:Hfrom; [|by destruct d].
    specialize (Hf from eq_refl). apply twpe_bind, twpe_key; [done|done|]. intros k s1 Hk H1. apply twpe_bind.
    eapply twpe_safe; [apply liftKey_safe, SigValidationGas_safe; exact Hk|done|]. intros g _. apply twpe_bind.
    eapply twpe_mono; [intros s'; exact id| |apply (checkKey_ok E num from k pubs _ (idle s)); done]. intros [] s2 H2. apply twpe_ret. split; [done|].
    exists from. split; [done|]. split; [by intros ? [= <-]|]. by rewrite NewTx_validated.
Qed.
Lemma ValidateFeePayer_ok E sg num d a tx fp s : decoded d -> validated d a a tx -> is_addr fp -> good_ s ->
  twpe E (ValidateFeePayer sg num fp tx) (idle s) (fun r s' => idle s s' /\ validated d a fp r.2) s.
Proof using Hb.
  intros Hd (Ht & Hva & Hvf) Ha Hg. pose proof (idle_refl s Hg) as H0. pose proof Hd as [_ Hs _ _]. pose proof (decoded_signable d Hd) as Hsg. unfold ValidateFeePayer. rewrite Ht.
  apply twpe_bind. eapply twpe_safe; [by apply (SenderFeePayer_safe Hc)|done|]. intros pubs Hp. apply twpe_bind, twpe_key; [done|done|]. intros k s1 Hk H1. apply twpe_bind.
  eapply twpe_safe; [apply liftKey_safe, SigValidationGas_safe; exact Hk|done|]. intros g _. apply twpe_bind.
  eapply twpe_mono; [intros s'; exact id| |apply (checkKey_ok E num fp k pubs _ (idle s)); done]. intros [] s2 H2. apply twpe_ret. split; [done|].
  rewrite bool_decide_eq_true_2 by congruence. cbn [snd]. unfold setValidated. rewrite Hva. done.
Qed.
(** The payer of a transaction, and its sender, where the data name them. *)
Definition parties (d : TxInternalData) (msg : Transaction) : Prop :=
  (forall from, GetFrom d = Some from -> tx_validatedSender msg = from) /\
  match GetFeePayer d with Some fp => tx_validatedFeePayer msg = fp | None => tx_validatedFeePayer msg = tx_validatedSender msg end.
Lemma AsMessage_ok E sg rules num d price s : decoded d -> 0 <= price -> good_ s ->
  twpe E (AsMessageWithAccountKeyPicker sg rules num (NewTx d)) (idle s)
    (fun msg s' => idle s s' /\ tx_data msg = d /\ msg_ok msg price /\ parties d msg) s.
Proof using Hb.
  intros Hd Hp Hg. pose proof (idle_refl s Hg) as H0. unfold AsMessageWithAccountKeyPicker. apply twpe_bind.
  eapply twpe_safe; [apply intrinsicGasOf_safe|done|]. intros ig _. apply twpe_bind, twpe_wrap. eapply twpe_mono; [intros s'; exact id| |by apply ValidateSender_ok].
  intros [gasFrom tx] s1 [H1 (a & Ha & Hfrom & Hv)]. cbn [snd] in Hv. apply twpe_bind.
  assert (forall g t s2 fp, idle s s2 -> is_addr fp -> validated d a fp t -> match GetFeePayer d with Some x => fp = x | None => fp = a end ->
    idle s s2 /\ tx_data (setIntrinsicGas (u64 g) t) = d /\ msg_ok (setIntrinsicGas (u64 g) t) price /\ parties d (setIntrinsicGas (u64 g) t)) as Hend.
  { intros g t s2 fp H2 Hfp (Ht & Hs & Hf) Hpay. cbn. split; [done|]. split; [done|]. split.
    - split; cbn; rewrite ?Ht, ?Hs, ?Hf; try done; [apply Hd|apply u64_range].
    - split; cbn; rewrite ?Hs, ?Hf; [exact Hfrom|]. by destruct (GetFeePayer d). }
  assert (validated d a a (setCheckNonce tx)) as Hv' by exact Hv. change (tx_data (setCheckNonce tx)) with (tx_data tx). rewrite (proj1 Hv). destruct (GetFeePayer d) as [fp|] eqn:Hfp.
  - pose proof (de_feePayer d Hd fp Hfp) as Hfa. apply twpe_wrap. eapply twpe_mono; [| |apply (ValidateFeePayer_ok E sg num d a _ fp s1); [done|done|done|apply H1]].
    + intros s' H. by eapply idle_trans.
    + intros [g t] s2 [H2 Hv2]. apply twpe_ret. apply (Hend _ t s2 fp); [by eapply idle_trans|done|exact Hv2|done].
  - apply twpe_ret, twpe_ret. by apply (Hend _ _ s1 a).
Qed.
End validation.
End TxValid.
