(* ===== verification/Rebalance.v ===== *)
(** * Treasury rebalancing

    Model of [blockchain/system/rebalance.go]: on the block of a fork, the balances of the old
    treasury accounts are cleared and the new ones set, as a contract says.

    The contract is read through the interface [RebalanceCaller]; a caller may execute the
    contract on the state that is being processed. *)

From S2P Require Import Prelude Rlp AccountKey StateDB StateRevert EvmWord EvmCode EvmMem EvmParams EvmState EvmGas EvmOps EvmTable EvmRun.
From S2P Require Import EvmSpec EvmInv EvmPlain EvmCost EvmStep EvmCalls EvmLoop EvmFrames EvmMain EvmStateDB Blake2b EvmPrecompiles EvmPreSpec.
From S2P Require Import EvmMoney EvmMoneyDB EvmLedger EvmTheorems EvmConserve TxState.

Module Rebalance.
Import Account State Revert.
Export TxState.

Section rebalance.
Context {senv : StateEnv}.

(** Errors; [errCall] stands for what a caller returns. *)
Inductive rebalanceError := ErrRebalanceIncorrectBlock | ErrRebalanceBadStatus | ErrRebalanceNotEnoughBalance | errNotFork | errCall.

(** The methods of the interface: nothing is returned with an error. *)
Record RebalanceCaller := mkCaller {
  RebalanceBlockNumber : StateDB -> option Z * StateDB;
  Status : StateDB -> option Z * StateDB;
  GetZeroedCount : StateDB -> option Z * StateDB;
  Zeroeds : Z -> StateDB -> option Address * StateDB;
  GetAllocatedCount : StateDB -> option Z * StateDB;
  Allocateds : Z -> StateDB -> option (Address * Z) * StateDB;
  CheckZeroedsApproved : StateDB -> option unit * StateDB
}.

(** [rebalanceResult]. *)
Record rebalanceResult := mkRebalance {
  before_Zeroed : gmap Address Z; before_Allocated : gmap Address Z;
  after_Zeroed : gmap Address Z; after_Allocated : gmap Address Z;
  Burnt : Z; Success : bool
}.
Definition newRebalanceReceipt : rebalanceResult := mkRebalance ∅ ∅ ∅ ∅ 0 false.
Definition addZeroed (a : Address) (before after : Z) (r : rebalanceResult) : rebalanceResult :=
  mkRebalance (<[a := before]> (before_Zeroed r)) (before_Allocated r) (<[a := after]> (after_Zeroed r)) (after_Allocated r) (Burnt r) (Success r).
Definition addAllocated (a : Address) (before after : Z) (r : rebalanceResult) : rebalanceResult :=
  mkRebalance (before_Zeroed r) (<[a := before]> (before_Allocated r)) (after_Zeroed r) (<[a := after]> (after_Allocated r)) (Burnt r) (Success r).

(** [fillZeroed] and [fillAllocated]: the error, with what was filled so far.  The second one
    returns no error when the number of accounts cannot be read. *)
Fixpoint zeroedLoop (c : RebalanceCaller) (n : nat) (i : Z) (r : rebalanceResult) (s : StateDB) : option rebalanceError * rebalanceResult * StateDB :=
  match n with
  | O => (None, r, s)
  | S n =>
      match Zeroeds c i s with
      | (None, s) => (Some errCall, r, s)
      | (Some ret, s) =>
          let '(before, s) := GetBalanceAt ret s in
          let '(after, s) := GetBalanceAt ret s in
          zeroedLoop c n (i + 1) (addZeroed ret before after r) s
      end
  end.
Definition fillZeroed (c : RebalanceCaller) (r : rebalanceResult) (s : StateDB) : option rebalanceError * rebalanceResult * StateDB :=
  match GetZeroedCount c s with
  | (None, s) => (Some errCall, r, s)
  | (Some num, s) => zeroedLoop c (Z.to_nat (i64 num)) 0 r s
  end.
Fixpoint allocatedLoop (c : RebalanceCaller) (n : nat) (i : Z) (r : rebalanceResult) (s : StateDB) : option rebalanceError * rebalanceResult * StateDB :=
  match n with
  | O => (None, r, s)
  | S n =>
      match Allocateds c i s with
      | (None, s) => (Some errCall, r, s)
      | (Some (a, amount), s) =>
          let '(before, s) := GetBalanceAt a s in
          allocatedLoop c n (i + 1) (addAllocated a before amount r) s
      end
  end.
Definition fillAllocated (c : RebalanceCaller) (r : rebalanceResult) (s : StateDB) : option rebalanceError * rebalanceResult * StateDB :=
  match GetAllocatedCount c s with
  | (None, s) => (None, r, s)
  | (Some num, s) => allocatedLoop c (Z.to_nat (i64 num)) 0 r s
  end.

(** [totalZeroedBalance] and [totalAllocatedBalance]. *)
Definition totalOf (m : gmap Address Z) : Z := foldr Z.add 0 (map_to_list m).*2.
Definition totalZeroedBalance (r : rebalanceResult) : Z := totalOf (before_Zeroed r).
Definition totalAllocatedBalance (r : rebalanceResult) : Z := totalOf (after_Allocated r).

(** The validations, which end with the first error. *)
Definition validateRebalance (c : RebalanceCaller) (isKIP103 : bool) (number : Z) (r : rebalanceResult) (s : StateDB) : option rebalanceError * StateDB :=
  let '(blockNum, s) := RebalanceBlockNumber c s in
  if negb (bool_decide (blockNum = Some number)) then (Some ErrRebalanceIncorrectBlock, s)
  else
    let '(status, s) := Status c s in
    if negb (bool_decide (status = Some 2)) then (Some ErrRebalanceBadStatus, s)
    else
      match CheckZeroedsApproved c s with
      | (None, s) => (Some errCall, s)
      | (Some _, s) =>
          if isKIP103 && (totalZeroedBalance r <? totalAllocatedBalance r) then (Some ErrRebalanceNotEnoughBalance, s) else (None, s)
      end.
(** The executions, in an order of the maps. *)
Definition clearZeroeds (l : list Address) (s : StateDB) : StateDB := foldl (fun s a => SetBalanceAt a 0 s) s l.
Fixpoint setAllocateds (l : list (Address * Z)) (burnt : Z) (s : StateDB) : Z * StateDB :=
  match l with
  | [] => (burnt, s)
  | (a, balance) :: l =>
      let '(currentBalance, s) := GetBalanceAt a s in
      setAllocateds l (burnt + currentBalance) (SetBalanceAt a balance s)
  end.

(** [RebalanceTreasury]; [c103] and [c160] are the callers of the two forks. *)
Definition RebalanceTreasury (isKIP160 isKIP103 : bool) (c160 c103 : RebalanceCaller) (number : Z) (s : StateDB) : option rebalanceError * rebalanceResult * StateDB :=
  if negb isKIP160 && negb isKIP103 then (Some errNotFork, newRebalanceReceipt, s)
  else
    let caller := if isKIP160 then c160 else c103 in
    match fillZeroed caller newRebalanceReceipt s with
    | (Some e, r, s) => (Some e, r, s)
    | (None, r, s) =>
        match fillAllocated caller r s with
        | (Some e, r, s) => (Some e, r, s)
        | (None, r, s) =>
            match validateRebalance caller isKIP103 number r s with
            | (Some e, s) => (Some e, r, s)
            | (None, s) =>
                let s := clearZeroeds (map_to_list (before_Zeroed r)).*1 s in
                let '(burnt, s) := setAllocateds (map_to_list (after_Allocated r)) (Burnt r) s in
                (None, mkRebalance (before_Zeroed r) (before_Allocated r) ((fun _ => 0) <$> after_Zeroed r) (after_Allocated r)
                         (burnt + (totalZeroedBalance r - totalAllocatedBalance r)) true, s)
            end
        end
    end.

(** The numbers of [memo] for the older fork, which are cut to 64 bits. *)
Definition memo103 (r : rebalanceResult) : gmap Address Z * gmap Address Z * Z * bool :=
  ((fun b => u64 (Z.abs b)) <$> before_Zeroed r, (fun b => u64 (Z.abs b)) <$> after_Allocated r, u64 (Z.abs (Burnt r)), Success r).
End rebalance.

(** ** What a rebalancing does *)

Section correct.
Context {senv : StateEnv} {crypto : Crypto} (Hb : backend_ok).

(** Reading the contract changes no balance; it returns addresses and amounts. *)
Record caller_ok (c : RebalanceCaller) : Prop := {
  co_number s : good_ s -> idle s (RebalanceBlockNumber c s).2;
  co_status s : good_ s -> idle s (Status c s).2;
  co_zeroedCount s : good_ s -> idle s (GetZeroedCount c s).2;
  co_zeroed i s : good_ s -> idle s (Zeroeds c i s).2 /\ forall a, (Zeroeds c i s).1 = Some a -> is_addr a;
  co_allocatedCount s : good_ s -> idle s (GetAllocatedCount c s).2;
  co_allocated i s : good_ s -> idle s (Allocateds c i s).2 /\ forall a v, (Allocateds c i s).1 = Some (a, v) -> is_addr a /\ 0 <= v;
  co_approved s : good_ s -> idle s (CheckZeroedsApproved c s).2
}.

(** The balances changed by [d] in all. *)
Definition books (d : Z) (s s' : StateDB) : Prop := good_ s' /\ gains s s' d.
Lemma books_trans d1 d2 s1 s2 s3 : books d1 s1 s2 -> books d2 s2 s3 -> books (d1 + d2) s1 s3.
Proof. intros [_ H1] [G2 H2]. split; [done|]. by eapply gains_trans. Qed.
Lemma books_idle s s' : idle s s' -> books 0 s s'.
Proof. intros [Hg H]. split; [done|]. by apply nets_gains. Qed.
Lemma balance_Set a v s b : is_addr a -> is_addr b -> good_ s -> balanceOf (SetBalanceAt a v s) b = if bool_decide (b = a) then v else balanceOf s b.
Proof.
  intros Ha Hib Hg. unfold SetBalanceAt. pose proof (balance_getOrNewObject a s Ha (wf_keyed s (gd_wf s Hg))) as H. destruct (GetOrNewStateObject a s) as [o s1].
  destruct H as (H1 & H2 & H3 & H4). cbn [fst snd] in *. unfold objSetBalance. rewrite (balance_replace a) by done. case_bool_decide; [|by apply H4].
  change (so_account (setBalance v o)) with (SetBalance (so_account o) v). apply GetBalance_SetBalance.
Qed.
Lemma books_Set a v s : is_addr a -> good_ s -> books (v - balanceOf s a) s (SetBalanceAt a v s).
Proof using Hb.
  intros Ha Hg. split; [by apply (good_command Hb (CSetBalance a v) s)|]. apply (gains_one a); [done|]. intros b Hib. rewrite !bal_value, balance_Set by done.
  case_bool_decide; subst; lia.
Qed.
Lemma idle_balance a s : is_addr a -> good_ s -> (GetBalanceAt a s).1 = balanceOf s a /\ idle s (GetBalanceAt a s).2.
Proof using Hb.
  intros Ha Hg. split; [apply (bal_value s a)|]. pose proof (idle_reads Hb (getStateObject a) s (reads_object Hb a Ha) Hg) as H. unfold GetBalanceAt. by destruct (getStateObject a s).
Qed.

(** What has been read of the contract. *)
Record filled (r : rebalanceResult) (s : StateDB) : Prop := {
  fl_zeroed : map_Forall (fun a v => is_addr a /\ v = balanceOf s a) (before_Zeroed r);
  fl_allocated : map_Forall (fun a v => is_addr a /\ 0 <= v) (after_Allocated r);
  fl_burnt : Burnt r = 0;
  fl_success : Success r = false
}.
Lemma filled_idle r s s' : idle s s' -> filled r s -> filled r s'.
Proof.
  intros [_ H] [Hz Ha Hbu Hsu]. split; [|done|done|done]. intros a v Hv. destruct (Hz a v Hv) as [Hia ->]. by rewrite H.
Qed.
Lemma zeroedLoop_ok c n : caller_ok c -> forall i r s, good_ s -> filled r s ->
  let '(e, r', s') := zeroedLoop c n i r s in idle s s' /\ filled r' s' /\ after_Allocated r' = after_Allocated r.
Proof using Hb.
  intros Hc. induction n as [|n IH]; intros i r s Hg Hf; cbn [zeroedLoop]; [split; [by apply idle_refl|done]|].
  destruct (co_zeroed c Hc i s Hg) as [H1 Ha]. destruct (Zeroeds c i s) as [[a|] s1]; cbn [fst snd] in *; [|split; [done|]; split; [by eapply filled_idle|done]].
  specialize (Ha a eq_refl). destruct (idle_balance a s1 Ha (proj1 H1)) as [E2 H2]. destruct (GetBalanceAt a s1) as [v s2]. cbn [fst snd] in E2, H2. subst v.
  destruct (idle_balance a s2 Ha (proj1 H2)) as [E3 H3]. destruct (GetBalanceAt a s2) as [v s3]. cbn [fst snd] in E3, H3.
  assert (idle s s3) as H4 by (eapply idle_trans; [exact H1|]; by eapply idle_trans).
  specialize (IH (i + 1) (addZeroed a (balanceOf s1 a) v r) s3 (proj1 H3)). destruct (zeroedLoop _ _ _ _ _) as [[e r'] s'] eqn:E. destruct IH as (H5 & Hf' & Hal).
  - destruct (filled_idle r s s3 H4 Hf) as [Hz Hal Hbu Hsu]. split; [|done|done|done]. cbn. apply map_Forall_insert_2; [|done]. split; [done|].
    by rewrite (proj2 H3), (proj2 H2).
  - split; [by eapply idle_trans|]. split; [done|exact Hal].
Qed.
Lemma allocatedLoop_ok c n : caller_ok c -> forall i r s, good_ s -> filled r s ->
  let '(e, r', s') := allocatedLoop c n i r s in idle s s' /\ filled r' s'.
Proof using Hb.
  intros Hc. induction n as [|n IH]; intros i r s Hg Hf; cbn [allocatedLoop]; [split; [by apply idle_refl|done]|].
  destruct (co_allocated c Hc i s Hg) as [H1 Ha]. destruct (Allocateds c i s) as [[[a v]|] s1]; cbn [fst snd] in *; [|split; [done|]; by eapply filled_idle].
  destruct (Ha a v eq_refl) as [Hia Hv]. destruct (idle_balance a s1 Hia (proj1 H1)) as [E2 H2]. destruct (GetBalanceAt a s1) as [w s2]. cbn [fst snd] in E2, H2.
  assert (idle s s2) as H4 by by eapply idle_trans.
  specialize (IH (i + 1) (addAllocated a w v r) s2 (proj1 H2)). destruct (allocatedLoop _ _ _ _ _) as [[e r'] s'] eqn:E. destruct IH as (H5 & Hf').
  - destruct (filled_idle r s s2 H4 Hf) as [Hz Hal Hbu Hsu]. split; [done| |done|done]. cbn. by apply map_Forall_insert_2.
  - split; [by eapply idle_trans|done].
Qed.
Lemma clearZeroeds_ok l : forall s, Forall is_addr l -> NoDup l -> good_ s -> books (- foldr Z.add 0 (balanceOf s <$> l)) s (clearZeroeds l s) /\
  forall b, is_addr b -> balanceOf (clearZeroeds l s) b = if bool_decide (b ∈ l) then 0 else balanceOf s b.
Proof using Hb.
  induction l as [|a l IH]; intros s Hl Hnd Hg; cbn.
  - split; [by apply books_idle, idle_refl|]. intros b _. by rewrite bool_decide_eq_false_2 by apply not_elem_of_nil.
  - apply Forall_cons in Hl as [Ha Hl]. apply NoDup_cons in Hnd as [Hn Hnd]. pose proof (books_Set a 0 s Ha Hg) as H1.
    destruct (IH (SetBalanceAt a 0 s) Hl Hnd (proj1 H1)) as [H2 Hbal]. split.
    + replace (- (balanceOf s a + foldr Z.add 0 (balanceOf s <$> l))) with (0 - balanceOf s a + - foldr Z.add 0 (balanceOf (SetBalanceAt a 0 s) <$> l)); [by eapply books_trans|].
      assert (balanceOf (SetBalanceAt a 0 s) <$> l = balanceOf s <$> l) as ->; [|lia]. apply list_fmap_ext. intros i b Hi%list_elem_of_lookup_2.
      rewrite balance_Set by (done || by eapply Forall_forall). rewrite bool_decide_eq_false_2; [done|]. by intros ->.
    + intros b Hib. unfold clearZeroeds in *. rewrite Hbal, balance_Set by done. repeat case_bool_decide; set_solver.
Qed.
Lemma setAllocateds_ok l : forall burnt s, Forall (fun av => is_addr av.1 /\ 0 <= av.2) l -> NoDup l.*1 -> good_ s ->
  let '(burnt', s') := setAllocateds l burnt s in books (foldr Z.add 0 l.*2 - (burnt' - burnt)) s s' /\
    ((forall b, is_addr b -> 0 <= balanceOf s b) -> burnt <= burnt') /\ forall b, is_addr b -> balanceOf s' b = default (balanceOf s b) ((list_to_map l : gmap Address Z) !! b).
Proof using Hb.
  induction l as [|[a v] l IH]; intros burnt s Hl Hnd Hg; cbn.
  - replace (0 - (burnt - burnt)) with 0 by lia. split; [by apply books_idle, idle_refl|]. split; [lia|]. intros b _. by rewrite lookup_empty.
  - apply Forall_cons in Hl as [[Ha Hv] Hl]. cbn in Hnd. apply NoDup_cons in Hnd as [Hn Hnd]. destruct (idle_balance a s Ha Hg) as [E1 H1].
    destruct (GetBalanceAt a s) as [cur s1]. cbn [fst snd] in *. subst cur. pose proof (books_Set a v s1 Ha (proj1 H1)) as H2.
    specialize (IH (burnt + balanceOf s a) (SetBalanceAt a v s1) Hl Hnd (proj1 H2)). destruct (setAllocateds l _ _) as [burnt' s']. destruct IH as (H3 & Hle & Hbal). split_and!.
    + replace (v + foldr Z.add 0 l.*2 - (burnt' - burnt)) with (0 + (v - balanceOf s1 a) + (foldr Z.add 0 l.*2 - (burnt' - (burnt + balanceOf s a)))).
      * eapply books_trans; [|exact H3]. eapply books_trans; [by apply books_idle|exact H2].
      * rewrite (proj2 H1) by done. lia.
    + intros Hpos. specialize (Hpos a Ha) as Hpa. assert (burnt + balanceOf s a <= burnt'); [|lia]. apply Hle. intros b Hib. rewrite balance_Set by (done || apply H1).
      case_bool_decide; [done|]. rewrite (proj2 H1) by done. by apply Hpos.
    + intros b Hib. rewrite Hbal by done. destruct (decide (b = a)) as [->|Hne].
      * rewrite lookup_insert_eq. rewrite not_elem_of_list_to_map_1 by done. cbn. rewrite balance_Set by (done || apply H1). by rewrite bool_decide_eq_true_2.
      * rewrite lookup_insert_ne by done. rewrite balance_Set by (done || apply H1). rewrite bool_decide_eq_false_2 by done. by rewrite (proj2 H1).
Qed.
Lemma over_list (X : gset Address) l f : NoDup l -> (forall a, a ∈ X <-> a ∈ l) -> over X f = foldr Z.add 0 (f <$> l).
Proof.
  intros Hnd Hx. unfold over. apply foldr_perm, fmap_Permutation, NoDup_Permutation; [apply NoDup_elements|done|]. intros a. by rewrite elem_of_elements.
Qed.
Lemma total_filled r s : filled r s -> totalZeroedBalance r = foldr Z.add 0 (balanceOf s <$> (map_to_list (before_Zeroed r)).*1).
Proof.
  intros [Hz _ _ _]. unfold totalZeroedBalance, totalOf. f_equal. rewrite <- list_fmap_compose. apply list_fmap_ext. intros i [a v] Hi%list_elem_of_lookup_2%elem_of_map_to_list.
  by destruct (Hz a v Hi).
Qed.
Lemma validate_idle c is103 number r s : caller_ok c -> good_ s -> idle s (validateRebalance c is103 number r s).2.
Proof.
  intros Hc Hg. unfold validateRebalance. pose proof (co_number c Hc s Hg) as H1. destruct (RebalanceBlockNumber c s) as [bn s1]. cbn [snd] in H1.
  destruct (negb _); [done|]. pose proof (co_status c Hc s1 (proj1 H1)) as H2. destruct (Status c s1) as [st s2]. cbn [snd] in H2.
  assert (idle s s2) as H3 by by eapply idle_trans. destruct (negb _); [done|]. pose proof (co_approved c Hc s2 (proj1 H2)) as H4.
  destruct (CheckZeroedsApproved c s2) as [[[]|] s3]; cbn [snd] in H4; [|by eapply idle_trans]. destruct (_ && _); by eapply idle_trans.
Qed.
Lemma validate_totals c is103 number r s : (validateRebalance c is103 number r s).1 = None -> is103 = true -> totalAllocatedBalance r <= totalZeroedBalance r.
Proof.
  unfold validateRebalance. destruct (RebalanceBlockNumber c s) as [bn s1]. destruct (negb _); [done|]. destruct (Status c s1) as [st s2]. destruct (negb _); [done|].
  destruct (CheckZeroedsApproved c s2) as [[[]|] s3]; [|done]. intros H ->. cbn [andb] in H. destruct (Z.ltb_spec (totalZeroedBalance r) (totalAllocatedBalance r)); [done|lia].
Qed.
(** What has been read before anything is executed. *)
Lemma fill_ok c s : caller_ok c -> good_ s ->
  let '(e, r, s') := match fillZeroed c newRebalanceReceipt s with (Some e, r, s) => (Some e, r, s) | (None, r, s) => fillAllocated c r s end in
  idle s s' /\ filled r s'.
Proof using Hb.
  intros Hc Hg. assert (filled newRebalanceReceipt s) as Hf by (split; [apply map_Forall_empty..|done|done]). unfold fillZeroed.
  pose proof (co_zeroedCount c Hc s Hg) as H1. destruct (GetZeroedCount c s) as [[n|] s1]; cbn [snd] in H1; [|split; [done|by eapply filled_idle]].
  pose proof (zeroedLoop_ok c (Z.to_nat (i64 n)) Hc 0 newRebalanceReceipt s1 (proj1 H1) (filled_idle _ _ _ H1 Hf)) as H2.
  destruct (zeroedLoop c _ 0 _ s1) as [[e r] s2]. destruct H2 as (H2 & Hf2 & _). assert (idle s s2) as H3 by by eapply idle_trans. destruct e; [done|].
  unfold fillAllocated. pose proof (co_allocatedCount c Hc s2 (proj1 H2)) as H4. destruct (GetAllocatedCount c s2) as [[k|] s3]; cbn [snd] in H4.
  - pose proof (allocatedLoop_ok c (Z.to_nat (i64 k)) Hc 0 r s3 (proj1 H4) (filled_idle _ _ _ H4 Hf2)) as H5. destruct (allocatedLoop c _ 0 r s3) as [[e r'] s4].
    destruct H5 as [H5 Hf5]. split; [|done]. eapply idle_trans; [exact H3|]. by eapply idle_trans.
  - split; [by eapply idle_trans|by eapply filled_idle].
Qed.
Lemma rebalanced_ok r s : filled r s -> good_ s ->
  let '(burnt, s') := setAllocateds (map_to_list (after_Allocated r)) (Burnt r) (clearZeroeds (map_to_list (before_Zeroed r)).*1 s) in
  books (- (burnt + (totalZeroedBalance r - totalAllocatedBalance r))) s s' /\ ((forall b, is_addr b -> 0 <= balanceOf s b) -> 0 <= burnt) /\
  forall a, is_addr a -> balanceOf s' a = default (if bool_decide (is_Some (before_Zeroed r !! a)) then 0 else balanceOf s a) (after_Allocated r !! a).
Proof using Hb.
  intros Hf Hg. pose proof Hf as [Hz Ha Hbu _]. set (l := (map_to_list (before_Zeroed r)).*1). assert (Forall is_addr l) as Hl.
  { unfold l. apply Forall_fmap, Forall_forall. intros [a v] Hi%elem_of_map_to_list. by destruct (Hz a v Hi). }
  destruct (clearZeroeds_ok l s Hl (NoDup_fst_map_to_list _) Hg) as [H1 Hb1].
  pose proof (setAllocateds_ok (map_to_list (after_Allocated r)) (Burnt r) (clearZeroeds l s)) as H2. destruct (setAllocateds _ _ _) as [burnt s'].
  destruct H2 as (H2 & Hle & Hb2); [|apply NoDup_fst_map_to_list|apply H1|].
  { apply Forall_forall. intros [a v] Hi%elem_of_map_to_list. exact (Ha a v Hi). }
  split_and!.
  - rewrite (total_filled r s Hf). unfold totalAllocatedBalance, totalOf. fold l.
    replace (- _) with (- foldr Z.add 0 (balanceOf s <$> l) + (foldr Z.add 0 (map_to_list (after_Allocated r)).*2 - (burnt - Burnt r))) by lia. by eapply books_trans.
  - intros Hpos. rewrite Hbu in Hle. apply Hle. intros b Hib. rewrite Hb1 by done. case_bool_decide; [done|by apply Hpos].
  - intros a Hia. rewrite Hb2, list_to_map_to_list, Hb1 by done. f_equal. assert (a ∈ l <-> is_Some (before_Zeroed r !! a)) as Hiff; [|by rewrite (bool_decide_ext _ _ Hiff)].
    unfold l. rewrite list_elem_of_fmap. split.
    + intros ([b v] & -> & Hi%elem_of_map_to_list). by eexists.
    + intros [v Hv]. exists (a, v). split; [done|]. by apply elem_of_map_to_list.
Qed.


(** A contract that lists one account to clear, and of which the number of new accounts cannot
    be read. *)
Definition deafCaller (a : Address) (number : Z) : RebalanceCaller :=
  mkCaller (fun s => (Some number, s)) (fun s => (Some 2, s)) (fun s => (Some 1, s)) (fun _ s => (Some a, s)) (fun s => (None, s)) (fun _ s => (None, s)) (fun s => (Some tt, s)).

(** A failure to read the number of new accounts is not an error of the rebalancing: the old
    accounts are cleared all the same, nobody is given anything, and success is reported. *)
Theorem lost_allocation_burns a number s : is_addr a -> good_ s ->
  let '(err, r, s') := RebalanceTreasury true false (deafCaller a number) (deafCaller a number) number s in
  err = None /\ Success r = true /\ after_Allocated r = ∅ /\ balanceOf s' a = 0 /\ wealth s' = wealth s - balanceOf s a.
Proof using Hb.
  intros Ha Hg. set (c := deafCaller a number). cbn [RebalanceTreasury negb andb]. unfold fillZeroed. cbn [GetZeroedCount c deafCaller].
  change (Z.to_nat (i64 1)) with 1%nat. cbn [zeroedLoop Zeroeds c deafCaller].
  destruct (idle_balance a s Ha Hg) as [E1 H1]. destruct (GetBalanceAt a s) as [v s1]. cbn [fst snd] in E1, H1. subst v.
  destruct (idle_balance a s1 Ha (proj1 H1)) as [E2 H2]. destruct (GetBalanceAt a s1) as [v s2]. cbn [fst snd] in E2, H2. subst v.
  unfold fillAllocated, validateRebalance. cbn [GetAllocatedCount RebalanceBlockNumber Status CheckZeroedsApproved c deafCaller].
  rewrite bool_decide_eq_true_2 by done. rewrite bool_decide_eq_true_2 by done. cbn [negb andb].
  assert (idle s s2) as H3 by by eapply idle_trans. set (r := addZeroed _ _ _ _).
  assert (filled r s2) as Hf.
  { split; try done. cbn. apply map_Forall_insert_2; [|apply map_Forall_empty]. split; [done|]. by rewrite (proj2 H3). }
  pose proof (rebalanced_ok r s2 Hf (proj1 H3)) as Hx. destruct (setAllocateds _ _ _) as [burnt s4] eqn:Es. destruct Hx as (H5 & _ & Hbal).
  change (setAllocateds [] 0 (clearZeroeds (map_to_list (before_Zeroed r)).*1 s2) = (burnt, s4)) in Es. injection Es as <- E4. split_and!; try done.
  - rewrite Hbal by done. cbn. rewrite lookup_empty. cbn. by rewrite lookup_insert_eq.
  - pose proof (books_trans _ _ _ _ _ (books_idle _ _ H3) H5) as H6. rewrite (gains_wealth s s4 _ (no_flat s Hg) (no_flat s4 (proj1 H6)) (proj2 H6)).
    change (totalZeroedBalance r) with (totalOf {[a := balanceOf s a]}). change (totalAllocatedBalance r) with 0. unfold totalOf. rewrite map_to_list_singleton. cbn. lia.
Qed.
End correct.
End Rebalance.
