(* ===== verification/TxBlock.v ===== *)
(** * Blocks

    Model of [StateProcessor.Process], of [Finalize] of the consensus engine
    ([consensus/istanbul/backend/engine.go]), of the gas prices that [ValidateBody] checks, and
    of the system contracts that a fork installs ([blockchain/system/registry.go],
    [storage.go]): the transactions of a block are applied, the rewards are paid, and the state
    is finalised. *)

From S2P Require Import Prelude Rlp AccountKey StateDB StateRevert EvmWord EvmCode EvmMem EvmParams EvmState EvmGas EvmOps EvmTable EvmRun.
From S2P Require Import EvmSpec EvmInv EvmPlain EvmCost EvmStep EvmCalls EvmLoop EvmFrames EvmMain EvmStateDB Blake2b EvmPrecompiles EvmPreSpec.
From S2P Require Import EvmMoney EvmMoneyDB EvmLedger EvmTheorems EvmConserve.
From S2P Require Import Staking Reward.
From S2P Require Import Tx TxSign TxExec TxState TxLedger TxValid Rebalance.

Module Block.
Import RLP State Rebalance.
Export TxValid.

(** ** System contracts *)

Section storage.
Context {crypto : Crypto}.

(** [lpad32] of a number; addresses and hashes are padded by [BytesToHash]. *)
Definition lpad32 (z : Z) : Hash := BytesToHash (minbe z).
(** [calcMappingSlot] for a key that is a string, and [calcArraySlot]. *)
Definition calcMappingSlot (base : Hash) (key : bytes) (offset : Z) : Hash :=
  BytesToHash (minbe (SetBytes (Keccak256 (key ++ base)) + offset)).
Definition calcArraySlot (base : Hash) (elemSize index offset : Z) : Hash :=
  BytesToHash (minbe (SetBytes (Keccak256 base) + elemSize * index + offset)).
(** [allocDynamicData]: data of up to 31 bytes is in the slot itself, with twice its length; longer
    data is in slots of its own. *)
Fixpoint allocLong (fuel : nat) (slot : Z) (data : bytes) : gmap Hash Hash :=
  match fuel with
  | O => ∅
  | S fuel =>
      if 32 <=? len data then <[BytesToHash (minbe slot) := BytesToHash (take 32 data)]> (allocLong fuel (slot + 1) (drop 32 data))
      else if 0 <? len data then {[BytesToHash (minbe slot) := BytesToHash (data ++ replicate (32 - length data) 0)]}
      else ∅
  end.
Definition allocDynamicData (base : Hash) (data : bytes) : gmap Hash Hash :=
  if len data <? 32 then {[base := BytesToHash (data ++ replicate (31 - length data) 0 ++ [u8 (len data * 2)])]}
  else <[base := BytesToHash (minbe (len data * 2 + 1))]> (allocLong (length data) (SetBytes (Keccak256 base)) data).

(** [RegistryConfig] and [AllocRegistry]. *)
Record RegistryConfig := mkRegistry { rg_Records : gmap bytes Address; rg_Owner : Address }.
Definition recordSlots (name : bytes) (addr : Address) : list (Hash * Hash) :=
  let arraySlot := calcMappingSlot (lpad32 0) name 0 in
  [(arraySlot, lpad32 1); (calcArraySlot arraySlot 2 0 0, BytesToHash addr); (calcArraySlot arraySlot 2 0 1, lpad32 0)].
Fixpoint bytesLe (a b : bytes) : bool :=
  match a, b with
  | [], _ => true
  | _, [] => false
  | x :: a, y :: b => (x <? y) || ((x =? y) && bytesLe a b)
  end.
Definition nameLe (a b : bytes) : Prop := bytesLe a b = true.
#[export] Instance nameLe_dec : RelDecision nameLe := fun a b => decide (bytesLe a b = true).
Definition nameSlots (i : nat) (name : bytes) : list (Hash * Hash) :=
  map_to_list (allocDynamicData (calcArraySlot (lpad32 1) 1 (Z.of_nat i) 0) name).
Definition setSlots (l : list (Hash * Hash)) (storage : gmap Hash Hash) : gmap Hash Hash := foldl (fun m kv => <[kv.1 := kv.2]> m) storage l.
Definition AllocRegistry (init : option RegistryConfig) : gmap Hash Hash :=
  match init with
  | None => ∅
  | Some init =>
      let records := map_to_list (rg_Records init) in
      let storage := setSlots (records ≫= fun na => recordSlots na.1 na.2) ∅ in
      let names := merge_sort nameLe records.*1 in
      let storage := <[lpad32 1 := lpad32 (len names)]> storage in
      let storage := setSlots (concat (imap nameSlots names)) storage in
      <[lpad32 2 := BytesToHash (rg_Owner init)]> storage
  end.
End storage.

(** ** The end of a block *)

Section engine.
Context {word : Uint256} {senv : StateEnv} {crypto : Crypto}.

(** What the engine asks about a block: the parameters of the governance at the block, the
    staking information, whether the engine has a chain, the reward address of the validator
    that runs it (zero for none), and what the number of the block makes of the forks. *)
Record Governing := mkGoverning {
  gv_params : option Reward.GovParamSet;
  gv_stakingInfo : option Staking.StakingInfo;
  gv_chain : bool;
  gv_nodeReward : Address;
  gv_KIP160 : bool; gv_KIP103 : bool; gv_Randao : bool; gv_KaiaParent : bool;
  gv_caller160 : RebalanceCaller; gv_caller103 : RebalanceCaller;
  gv_registry : option RegistryConfig; gv_RegistryAddr : Address; gv_RegistryCode : bytes;
  gv_isMainnet : bool; gv_MainnetCreditAddr : Address; gv_MainnetCreditV2Code : bytes
}.
Inductive engineError := errNoBaseFee | ErrInvalidBaseFee | errNoParams | errReward (e : Reward.rewardError) | errSetCode.

(** Headers, rules, transactions and receipts as the rewards see them. *)
Definition rewardHeader (h : Header) : Reward.Header := Reward.mkHeader (hd_Number h) (hd_GasUsed h) (hd_BaseFee h) (hd_Rewardbase h).
Definition rewardRules (r : Rules) : Reward.Rules := Reward.mkRules (IsMagma r) (IsKore r) (IsKaia r).
Definition rewardTx (d : TxInternalData) : Reward.Transaction := Reward.mkTx (GasFeeCap d) (GasTipCap d).

(** [DistributeBlockReward], in an order of the map. *)
Definition DistributeBlockReward (rewards : gmap Address Z) (s : StateDB) : StateDB :=
  foldl (fun s aa => AddBalance aa.1 aa.2 s) s (map_to_list rewards).
(** [InstallRegistry]. *)
Definition InstallRegistry (addr : Address) (code : bytes) (init : option RegistryConfig) (s : StateDB) : bool * StateDB :=
  let '(ok, s) := SetCode addr (Some code) s in
  if (ok : bool) then (true, foldl (fun s kv => SetState addr kv.1 kv.2 s) s (map_to_list (AllocRegistry init))) else (false, s).
(** The contract that the fork after this block replaces. *)
Definition replaceCredit (g : Governing) (s : StateDB) : bool * StateDB :=
  if gv_isMainnet g then
    let '(code, s) := GetCodeAt (gv_MainnetCreditAddr g) s in
    match code with Some _ => SetCode (gv_MainnetCreditAddr g) (Some (gv_MainnetCreditV2Code g)) s | None => (true, s) end
  else (true, s).

(** The rewards of the block; the header of a block that is being made gets the reward address of
    its maker. *)
Definition setRewardbase (a : Address) (h : Header) : Header :=
  mkHeader (hd_ParentHash h) (hd_Root h) a (hd_Number h) (hd_GasUsed h) (hd_Time h) (hd_BlockScore h) (hd_BaseFee h) (hd_MixHash h).
Definition blockRewards (g : Governing) (rules : Rules) (pset : Reward.GovParamSet) (header : Header) (txs : list TxInternalData) (gasUsed : list Z) :
    Header * Reward.R Reward.RewardSpec :=
  if gv_chain g && negb (Reward.IsRewardSimple pset) then
    let header := if bool_decide (hd_Root header = zeroHash) && negb (bool_decide (gv_nodeReward g = zeroAddress))
                  then setRewardbase (gv_nodeReward g) header else header in
    (header, Reward.CalcDeferredReward (gv_stakingInfo g) (rewardHeader header) (map rewardTx txs) gasUsed (rewardRules rules) pset)
  else (header, Reward.CalcDeferredRewardSimple (rewardHeader header) (map rewardTx txs) gasUsed (rewardRules rules) pset).

(** What the engine does after the rewards: rebalancing, whose error is only logged, and the
    contracts of the forks. *)
Definition forkChanges (g : Governing) (header : Header) (s : StateDB) : bool * StateDB :=
  let s := if gv_KIP160 g || gv_KIP103 g
           then (RebalanceTreasury (gv_KIP160 g) (gv_KIP103 g) (gv_caller160 g) (gv_caller103 g) (hd_Number header) s).2 else s in
  let '(ok, s) := if gv_Randao g then InstallRegistry (gv_RegistryAddr g) (gv_RegistryCode g) (gv_registry g) s else (true, s) in
  if negb ok then (false, s) else if gv_KaiaParent g then replaceCredit g s else (true, s).

(** [Finalize]; the root of the header is the hash of the state that is left. *)
Definition Finalize (g : Governing) (rules : Rules) (header : Header) (txs : list TxInternalData) (gasUsed : list Z) (s : StateDB) :
    res vmPanic ((engineError + Header) * StateDB) :=
  if IsMagma rules && negb (bool_decide (is_Some (hd_BaseFee header))) then Ok (inl errNoBaseFee, s)
  else if negb (IsMagma rules) && bool_decide (is_Some (hd_BaseFee header)) then Ok (inl ErrInvalidBaseFee, s)
  else
    match gv_params g with
    | None => Ok (inl errNoParams, s)
    | Some pset =>
        match blockRewards g rules pset header txs gasUsed with
        | (header, Ok spec) =>
            let '(ok, s) := forkChanges g header (DistributeBlockReward (Reward.Rewards spec) s) in
            if negb ok then Ok (inl errSetCode, s)
            else match IntermediateRoot true s with Ok s => Ok (inr header, s) | _ => Err panicStateDB end
        | (_, Err e) => Ok (inl (errReward e), s)
        | (_, Panic) => Panic
        | (_, NoFuel) => NoFuel
        end
    end.

(** ** A block *)

Inductive processError := procTx (e : txError) | procEngine (e : engineError).
(** [Process]: the receipts and the gas used. *)
Definition Process (cfg : ChainConfig) (g : Governing) (getHash : Z -> Hash) (author : Address) (blockHash : Hash) (header : Header)
    (txs : list TxInternalData) (s : StateDB) : res vmPanic ((processError + (list Receipt * Z)) * StateDB) :=
  match applyAll cfg getHash author blockHash header 0 txs 0 s with
  | Ok (inr (receipts, usedGas), s) =>
      match Finalize g (cf_Rules cfg) header txs (map r_GasUsed receipts) s with
      | Ok (inr _, s) => Ok (inr (receipts, usedGas), s)
      | Ok (inl e, s) => Ok (inl (procEngine e), s)
      | Err p => Err p
      | Panic => Panic
      | NoFuel => NoFuel
      end
  | Ok (inl e, s) => Ok (inl (procTx e), s)
  | Err p => Err p
  | Panic => Panic
  | NoFuel => NoFuel
  end.
(** What [ValidateBody] asks of the gas prices, and [ValidateState] of the gas. *)
Definition validGasPrices (header : Header) (txs : list TxInternalData) : bool :=
  match hd_BaseFee header with None => true | Some baseFee => forallb (fun d => baseFee <=? GetPrice d) txs end.
Definition validGasUsed (header : Header) (usedGas : Z) : bool := hd_GasUsed header =? usedGas.
End engine.
End Block.
