(* ===== verification/TxSupply.v ===== *)
(** * The money of a block

    From transactions to blocks: applying the transactions of a block takes their fees from the
    balances and creates nothing, the rewards add what was minted and what is left of the fees,
    so that the sum of all balances grows by no more than the minted coins less the burnt fees. *)

From S2P Require Import Prelude Rlp AccountKey StateDB StateRevert EvmWord EvmCode EvmMem EvmParams EvmState EvmGas EvmOps EvmTable EvmRun.
From S2P Require Import EvmSpec EvmInv EvmPlain EvmCost EvmStep EvmCalls EvmLoop EvmFrames EvmMain EvmStateDB Blake2b EvmPrecompiles EvmPreSpec.
From S2P Require Import EvmMoney EvmMoneyDB EvmLedger EvmTheorems EvmConserve.
From S2P Require Import Staking Reward.
From S2P Require Import Tx TxSign TxExec TxState TxLedger TxValid Rebalance TxBlock.

Module TxSupply.
Import State Revert Rebalance.
Export Block.

(** ** The transactions *)

(** The fee is shared by two accounts, and in a ratio of at most a hundred. *)
Definition fair (d : TxInternalData) : Prop :=
  match feeDelegation d with FeeDelegatedWithRatio r fp _ => 0 <= r <= 100 /\ GetFrom d <> Some fp | _ => True end.
(** Prices are not negative. *)
Definition priced (d : TxInternalData) : Prop := 0 <= GetPrice d /\ 0 <= GasTipCap d.
Definition header_ok (h : Header) : Prop := is_addr (hd_Rewardbase h) /\ forall fee, hd_BaseFee h = Some fee -> 0 <= fee.

Lemma price_nonneg h rules d : priced d -> header_ok h -> 0 <= EffectiveGasPrice (hd_BaseFee h) rules d.
Proof.
  intros [Hp Ht] [_ Hh]. unfold EffectiveGasPrice. destruct (hd_BaseFee h) as [fee|]; [|done]. specialize (Hh fee eq_refl). destruct (IsKaia rules); [|done].
  unfold EffectiveGasTip. lia.
Qed.
Lemma fair_ratio d msg : tx_data msg = d -> fair d -> ratio_ok msg.
Proof. intros <-. unfold fair, ratio_ok, FeeRatio, GetFeeRatio. destruct (feeDelegation (tx_data msg)); [cbn; unfold MaxFeeRatio; lia..|]. intros [? _]. done. Qed.
Lemma fair_payers {senv : StateEnv} d msg price s : tx_data msg = d -> fair d -> parties d msg -> payers_ok msg price s.
Proof.
  intros <- Hf [Hfrom Hpay] Hr Heq. exfalso. unfold fair, FeeRatio, GetFeeRatio, GetFeePayer in *. destruct (feeDelegation (tx_data msg)) as [| |r fp sigs] eqn:E; try done.
  destruct Hf as [_ Hf]. destruct (tx_data msg) as [| | |k fee n p g from sg]; try done. specialize (Hfrom from eq_refl). cbn in Hf. congruence.
Qed.

Section blocks.
Context {word : Uint256} {wspec : Uint256Spec} {senv : StateEnv} {crypto : Crypto} (Hb : backend_ok) (Hz : compressible).
Context (cfg : ChainConfig) (getHash : Z -> Hash) (author : Address) (header : Header).
Context (Hh : header_ok header) (Hauthor : is_addr author) (Hpre : Prefetching (cf_VM cfg) = false).
Abbreviation priceOf d := (EffectiveGasPrice (hd_BaseFee header) (cf_Rules cfg) d).

(** What fees take from the balances: nothing where they are paid to the proposer at once. *)
Definition owed (fees : Z) : Z := if cf_DeferredTxFee cfg then - fees else 0.
Lemma owed_add x y : owed (x + y) = owed x + owed y.
Proof. unfold owed. destruct (cf_DeferredTxFee cfg); lia. Qed.
Lemma owed_0 : owed 0 = 0.
Proof. unfold owed. by destruct (cf_DeferredTxFee cfg). Qed.
Lemma owed_le x : 0 <= x -> owed x <= 0.
Proof. unfold owed. destruct (cf_DeferredTxFee cfg); lia. Qed.
(** What a transaction leaves, as its receipt and the gas of the block say. *)
Definition applied (d : TxInternalData) (used : Z) (s : StateDB) (r : Receipt * Z) (s' : StateDB) : Prop :=
  0 <= r_GasUsed r.1 <= GetGasLimit d /\ r.2 = u64 (used + r_GasUsed r.1) /\
  nets false (owed (r_GasUsed r.1 * priceOf d)) s s'.
Lemma ApplyTransaction_ok d used s : decoded d -> fair d -> priced d -> good_ s ->
  twpe (GetGasLimit d < Z.of_nat (cf_turns cfg)) (ApplyTransaction cfg getHash author header d used) (nets false 0 s) (applied d used s) s.
Proof using Hb Hz Hh Hauthor Hpre wspec.
  intros Hd Hf Hp Hg. unfold ApplyTransaction. apply twpe_bind. eapply twpe_mono; [| |by apply (Validate_ok Hb)]; [intros s' H; by apply nets_idle|].
  intros [] s1 H1. apply twpe_bind. pose proof (price_nonneg header (cf_Rules cfg) d Hp Hh) as Hprice.
  eapply twpe_mono; [| |apply (AsMessage_ok Hb _ _ _ _ d (priceOf d) s1); [done|done|apply H1]]; [intros s' H; apply nets_idle; by eapply idle_trans|].
  intros msg s2 (H2 & Hmd & Hmsg & Hpar). assert (idle s s2) as H3 by by eapply idle_trans. apply twpe_bind.
  set (bc := NewEVMBlockContext getHash header author).
  pose proof (TransitionDb_ok Hb Hz cfg bc msg (priceOf d) false Hmsg s2) as Ht. rewrite Hmd in Ht.
  eapply twpe_mono; [| |apply Ht; [done|apply H2|by eapply fair_ratio|by eapply fair_payers|split; [exact Hauthor|apply Hh]|done]].
  { intros s' H. eapply nets_zero; [by apply nets_idle|done]. }
  intros res s3 (Hgas & _ & Hn). rewrite Hmd in Hgas.
  change (nets false (owed (UsedGas res * priceOf d)) s2 s3) in Hn. set (paid := owed (UsedGas res * priceOf d)) in *. assert (nets false paid s s3) as Hn3.
  { rewrite <- (Z.add_0_l paid). eapply nets_trans; [by apply nets_idle|done]. }
  apply twpe_bind, twpe_change. intros s4 H4. apply (nets_Finalise Hb) in H4; [|apply Hn3].
  assert (nets false paid s s4) as Hn4.
  { rewrite <- (Z.add_0_r paid). eapply nets_trans; [exact Hn3|done]. }
  apply twpe_bind. eapply twpe_safe; [apply (TxHash_safe (bk_crypto Hb)), decoded_signable, Hd| |].
  { eapply nets_le; [exact Hn4|]. apply owed_le. nia. }
  intros h _. apply twpe_bind, twpe_read, twpe_ret. split; [exact Hgas|split; [done|exact Hn4]].
Qed.
(** The fees of the transactions of a block, from the gas of their receipts. *)
Definition feesOf (txs : list TxInternalData) (gas : list Z) : Z := Staking.sumZ (zip_with (fun d g => g * priceOf d) txs gas).
Definition applicable (d : TxInternalData) : Prop := decoded d /\ fair d /\ priced d.
Definition limits (txs : list TxInternalData) : Z := Staking.sumZ (map GetGasLimit txs).
Definition all_applied (txs : list TxInternalData) (used : Z) (s : StateDB) (r : list Receipt * Z) (s' : StateDB) : Prop :=
  Forall2 (fun d g => 0 <= g <= GetGasLimit d) txs (map r_GasUsed r.1) /\
  (0 <= used -> used + limits txs < 2 ^ 64 -> r.2 = used + Staking.sumZ (map r_GasUsed r.1)) /\
  nets false (owed (feesOf txs (map r_GasUsed r.1))) s s'.
Lemma limits_nonneg txs : Forall applicable txs -> 0 <= limits txs.
Proof.
  induction 1 as [|d txs [[[Hl _] _ _ _] _] _ IH]; [done|]. unfold limits, Staking.sumZ in *. cbn. lia.
Qed.
Lemma applyAll_ok blockHash txs : Forall applicable txs -> forall i used s, good_ s ->
  twpe (Forall (fun d => GetGasLimit d < Z.of_nat (cf_turns cfg)) txs) (applyAll cfg getHash author blockHash header i txs used) (nets false 0 s) (all_applied txs used s) s.
Proof using Hb Hz Hh Hauthor Hpre wspec.
  induction 1 as [|d txs Ha Htxs IH]; intros i used s Hg; cbn [applyAll].
  { apply twpe_ret. split; [constructor|]. split; [unfold limits, Staking.sumZ; cbn; lia|]. change (nets false (owed 0) s s). rewrite owed_0. by apply nets_refl. }
  pose proof Ha as (Hd & Hf & Hp). apply twpe_bind. eapply twpe_safe; [apply (TxHash_safe (bk_crypto Hb)), decoded_signable, Hd|by apply nets_refl|]. intros h _.
  apply twpe_bind, twpe_do. pose proof (idle_SetTxContext h blockHash i s Hg) as H0. apply twpe_bind.
  pose proof (ApplyTransaction_ok d used _ Hd Hf Hp (proj1 H0)) as Hap. eapply (twpe_enough _ (Forall (fun d => GetGasLimit d < Z.of_nat (cf_turns cfg)) (d :: txs))) in Hap; [|by intros [? _]%Forall_cons].
  eapply twpe_mono; [| |exact Hap]; [intros s' H; eapply nets_zero; [by apply nets_idle|exact H]|]. intros [receipt used1] s1 (Hgas & Hused & Hn). cbn [fst snd] in Hgas, Hused, Hn.
  apply twpe_bind. specialize (IH (i + 1) used1 s1 (proj1 Hn)).
  eapply (twpe_enough _ (Forall (fun d => GetGasLimit d < Z.of_nat (cf_turns cfg)) (d :: txs))) in IH; [|by intros [_ ?]%Forall_cons].
  assert (nets false (owed (r_GasUsed receipt * priceOf d)) s s1) as Hn1.
  { rewrite <- (Z.add_0_l (owed _)). eapply nets_trans; [by apply nets_idle|exact Hn]. }
  pose proof (price_nonneg header (cf_Rules cfg) d Hp Hh) as Hprice. eapply twpe_mono; [| |exact IH].
  { intros s' H. eapply nets_le; [eapply nets_trans; [exact Hn1|exact H]|]. rewrite Z.add_0_r. apply owed_le. nia. }
  intros [receipts used2] s2 (Hall & Hsum & Hn2). apply twpe_ret. cbn [fst snd map] in *. split; [by constructor|]. split.
  - intros H0' Hlim. pose proof (limits_nonneg txs Htxs) as Hl. unfold limits, Staking.sumZ in *. cbn in Hlim. assert (used1 = used + r_GasUsed receipt) as E.
    { rewrite Hused. apply u64_small. unfold is_u64. lia. }
    rewrite Hsum, E by lia. cbn. lia.
  - change (nets false (owed (r_GasUsed receipt * priceOf d + feesOf txs (map r_GasUsed receipts))) s s2). rewrite owed_add. by eapply nets_trans.
Qed.
End blocks.

(** ** The rewards *)

Section rewards.
Context {word : Uint256} {wspec : Uint256Spec} {senv : StateEnv} {crypto : Crypto} (Hb : backend_ok).
Import Staking.

Definition to_address (m : gmap Address Z) : Prop := map_Forall (fun a _ => is_addr a) m.
Lemma to_increment m a v : to_address m -> is_addr a -> to_address (Reward.incrementRewardsMap m a v).
Proof. intros Hm Ha. by apply map_Forall_insert_2. Qed.
Lemma to_incrementAll l : forall m, to_address m -> Forall (fun av => is_addr av.1) l -> to_address (Reward.incrementAll m l).
Proof.
  unfold Reward.incrementAll. induction l as [|[a v] l IH]; intros m Hm Hl; [done|]. apply Forall_cons in Hl as [Ha Hl]. cbn. apply IH; [by apply to_increment|done].
Qed.
Lemma to_list m : to_address m -> Forall (fun av : Address * Z => is_addr av.1) (map_to_list m).
Proof. intros Hm. apply Forall_forall. intros [a v] Hi%elem_of_map_to_list. exact (Hm a v Hi). Qed.

(** The addresses of the staking information are addresses. *)
Definition staking_addrs (si : option StakingInfo) : Prop :=
  forall s, si = Some s -> is_addr (si_KIFAddr s) /\ is_addr (si_KEFAddr s) /\ Forall is_addr (si_CouncilRewardAddrs s).
Definition nodes_addrs (c : ConsolidatedStakingInfo) : Prop := Forall (fun n => is_addr (cn_RewardAddr n)) (cs_nodes c).
Lemma index_Ok {E A} (l : list A) i x : index (E:=E) l i = Ok x -> l !! i = Some x.
Proof. unfold index. destruct (l !! i); [by intros [= ->]|done]. Qed.
Lemma store_Ok {E A} (l : list A) i x k : store (E:=E) l i x = Ok k -> k = <[i := x]> l.
Proof. unfold store. destruct (decide _); [by intros [= <-]|done]. Qed.
Lemma consolidateEntry_addrs s j c ri c' ri' : Forall is_addr (si_CouncilRewardAddrs s) -> nodes_addrs c -> consolidateEntry s j c ri = Ok (c', ri') -> nodes_addrs c'.
Proof.
  intros Hs Hc. unfold consolidateEntry. intros (na & _ & E)%bind_ok. apply bind_ok in E as (sa & _ & E). apply bind_ok in E as (ra & Hra & E). apply bind_ok in E as (am & _ & E).
  destruct (ri !! ra) as [idx|].
  - apply bind_ok in E as (node & Hn & E). apply bind_ok in E as (nodes & Hst & E). injection E as <- <-. unfold nodes_addrs in *. cbn.
    apply index_Ok in Hn. apply store_Ok in Hst as ->. apply Forall_insert; [done|]. by apply (Forall_lookup_1 _ _ _ _ Hc Hn).
  - injection E as <- <-. unfold nodes_addrs in *. cbn. apply Forall_app. split; [done|]. constructor; [|constructor]. apply index_Ok in Hra. by apply (Forall_lookup_1 _ _ _ _ Hs Hra).
Qed.
Lemma consolidateLoop_addrs s n : Forall is_addr (si_CouncilRewardAddrs s) -> forall j c ri c', nodes_addrs c -> consolidateLoop s n j c ri = Ok c' -> nodes_addrs c'.
Proof.
  intros Hs. induction n as [|n IH]; intros j c ri c' Hc E; [by injection E as <-|]. cbn in E. apply bind_ok in E as ([c1 ri1] & E1 & E).
  eapply IH; [|exact E]. by eapply consolidateEntry_addrs.
Qed.
Lemma sharesLoop_addrs reward minStake t nodes : Forall (fun n => is_addr (cn_RewardAddr n)) nodes -> forall shares rem r,
  to_address shares -> Reward.sharesLoop reward minStake t nodes shares rem = Ok r -> to_address r.1.
Proof.
  induction 1 as [|n nodes Hn _ IH]; intros shares rem r Hs E; cbn in E; [by injection E as <-|]. destruct (_ <? _); [|by eapply IH].
  apply bind_ok in E as (am & _ & E). eapply IH; [|exact E]. destruct (0 <? am); [by apply map_Forall_insert_2|done].
Qed.
Lemma calcShares_addrs si reward minStake r : staking_addrs si -> Reward.calcShares si reward minStake = Ok r -> to_address r.1.
Proof.
  intros Hs. destruct si as [si|]; [|intros [= <-]; apply map_Forall_empty]. destruct (Hs si eq_refl) as (_ & _ & Hr). cbn. intros (c & Ec & E)%bind_ok.
  eapply sharesLoop_addrs; [|apply map_Forall_empty|exact E]. destruct (GetConsolidatedStakingInfo si) as [c'| | |] eqn:Eg; try done. injection Ec as <-.
  eapply consolidateLoop_addrs; [exact Hr| |exact Eg]. constructor.
Qed.
Lemma payFund_addrs f si amount m : (forall s, si = Some s -> is_addr (f s)) -> to_address m -> to_address (Reward.payFund (Reward.fundAddr f si) amount m).
Proof.
  intros Hf Hm. unfold Reward.fundAddr. destruct si as [si|]; [|done]. case_bool_decide; [done|]. apply to_increment; [done|by apply Hf].
Qed.
Lemma CalcDeferredReward_addrs si header txs gas rules pset spec : staking_addrs si -> is_addr (Reward.h_Rewardbase header) ->
  Reward.CalcDeferredReward si header txs gas rules pset = Ok spec -> to_address (Reward.Rewards spec).
Proof.
  intros Hs Hr. unfold Reward.CalcDeferredReward. intros (rc & _ & E)%bind_ok. apply bind_ok in E as ([[t rf] b] & _ & E). apply bind_ok in E as ([[[[p st] kif] kef] rem] & _ & E).
  apply bind_ok in E as ([sh srem] & Hsh & E). apply calcShares_addrs in Hsh; [|done]. cbn in Hsh.
  assert (forall x y z, to_address (Reward.incrementAll (Reward.payFund (Reward.fundAddr si_KEFAddr si) x (Reward.payFund (Reward.fundAddr si_KIFAddr si) y
    (Reward.incrementRewardsMap ∅ (Reward.h_Rewardbase header) z))) (map_to_list sh))) as Hall.
  { intros x y z. apply to_incrementAll; [|by apply to_list]. apply payFund_addrs; [intros s H; by destruct (Hs s H) as (? & ? & ?)|]. apply payFund_addrs; [intros s H; by destruct (Hs s H) as (? & ? & ?)|].
    apply to_increment; [apply map_Forall_empty|done]. }
  destruct (Reward.fundAddr si_KIFAddr si), (Reward.fundAddr si_KEFAddr si); injection E as <-; first [apply Hall|apply (Hall 0)|exact (Hall _ 0 _)|apply (Hall 0 0)].
Qed.
Lemma CalcDeferredRewardSimple_addrs header txs gas rules pset spec : is_addr (Reward.h_Rewardbase header) ->
  Reward.CalcDeferredRewardSimple header txs gas rules pset = Ok spec -> to_address (Reward.Rewards spec).
Proof.
  intros Hr. unfold Reward.CalcDeferredRewardSimple. intros (rc & _ & E)%bind_ok. destruct (_ && _); injection E as <-; (apply to_increment; [apply map_Forall_empty|done]).
Qed.

(** What a reward takes its fees from. *)
Lemma CalcDeferredReward_fee si header txs gas rules pset spec : Reward.ps_DeferredTxFee pset = true ->
  Reward.CalcDeferredReward si header txs gas rules pset = Ok spec -> Reward.GetTotalTxFee header txs gas rules pset = Ok (Reward.TotalFee spec).
Proof.
  intros Hd. unfold Reward.CalcDeferredReward. intros (rc & Hrc & E)%bind_ok. apply bind_ok in E as ([[t rf] b] & Hf & E). apply bind_ok in E as ([[[[p st] kif] kef] rem] & _ & E).
  apply bind_ok in E as ([sh srem] & _ & E). assert (Reward.TotalFee spec = t) as -> by (by destruct (Reward.fundAddr si_KIFAddr si), (Reward.fundAddr si_KEFAddr si); injection E as <-).
  clear E. unfold Reward.NewRewardConfig in Hrc. apply bind_ok in Hrc as ([[[? ?] ?] ?] & _ & Hrc). apply bind_ok in Hrc as ([[? ?] ?] & _ & Hrc).
  apply bind_ok in Hrc as (fee & Hfee & Hrc). injection Hrc as <-. rewrite Hfee. f_equal. unfold Reward.calcDeferredFee in Hf. cbn in Hf. rewrite Hd in Hf. cbn in Hf.
  destruct (if Reward.IsMagma rules then _ else _) as [x y]. destruct (Reward.IsKore rules); [|by injection Hf]. apply bind_ok in Hf as (? & _ & Hf). by injection Hf.
Qed.
Lemma CalcDeferredRewardSimple_fee header txs gas rules pset spec : Reward.ps_DeferredTxFee pset = true ->
  Reward.CalcDeferredRewardSimple header txs gas rules pset = Ok spec -> Reward.GetTotalTxFee header txs gas rules pset = Ok (Reward.TotalFee spec).
Proof.
  intros Hd. unfold Reward.CalcDeferredRewardSimple. intros (rc & Hrc & E)%bind_ok.
  unfold Reward.NewRewardConfig in Hrc. apply bind_ok in Hrc as ([[[? ?] ?] ?] & _ & Hrc). apply bind_ok in Hrc as ([[? ?] ?] & _ & Hrc).
  apply bind_ok in Hrc as (fee & Hfee & Hrc). injection Hrc as <-. rewrite Hfee. cbn in E. rewrite Hd in E. cbn in E. by injection E as <-.
Qed.
(** Paying the rewards. *)
Lemma nets_payments l : forall s, Forall (fun av => is_addr av.1 /\ 0 <= av.2) l -> good_ s ->
  nets true (Staking.sumZ (map snd l)) s (foldl (fun s aa => AddBalance aa.1 aa.2 s) s l).
Proof using Hb.
  induction l as [|[a v] l IH]; intros s Hl Hg; cbn; [by apply nets_refl|]. apply Forall_cons in Hl as [[Ha Hv] Hl].
  assert (nets true v s (AddBalance a v s)) as H1 by by apply (nets_Add Hb). unfold Staking.sumZ in *. cbn. eapply nets_trans; [exact H1|]. apply IH; [done|apply H1].
Qed.
Lemma nets_Distribute m s : to_address m -> Reward.all_nonneg m -> good_ s -> nets true (Reward.total m) s (DistributeBlockReward m s).
Proof using Hb.
  intros Ha Hn Hg. rewrite <- Reward.total_to_list. apply nets_payments; [|done]. apply Forall_forall. intros [a v] Hi%elem_of_map_to_list. split; [exact (Ha a v Hi)|exact (Hn a v Hi)].
Qed.

(** Installing contracts moves no money. *)
Lemma idle_SetCode a c s : is_addr a -> len c < 2 ^ 63 -> good_ s -> idle s (SetCode a (Some c) s).2.
Proof using Hb.
  intros Ha Hl Hg. split; [by apply (good_command Hb (CSetCode a (Some c)) s)|]. intros b Hib. apply balance_SetCode; [done|done|]. apply wf_keyed, gd_wf, Hg.
Qed.
Lemma idle_SetState a k v s : is_addr a -> good_ s -> idle s (SetState a k v s).
Proof using Hb.
  intros Ha Hg. split; [by apply (good_command Hb (CSetState a k v) s)|]. intros b Hib. apply balance_SetState; [done|done|]. apply wf_keyed, gd_wf, Hg.
Qed.
Lemma idle_states a l : is_addr a -> forall s, good_ s -> idle s (foldl (fun s kv => SetState a kv.1 kv.2 s) s l).
Proof using Hb.
  intros Ha. induction l as [|[k v] l IH]; intros s Hg; [by apply idle_refl|]. cbn. pose proof (idle_SetState a k v s Ha Hg) as H. eapply idle_trans; [exact H|]. apply IH, H.
Qed.
Lemma idle_InstallRegistry a code init s : is_addr a -> len code < 2 ^ 63 -> good_ s -> idle s (InstallRegistry a code init s).2.
Proof using Hb.
  intros Ha Hl Hg. unfold InstallRegistry. pose proof (idle_SetCode a code s Ha Hl Hg) as H1. destruct (SetCode a (Some code) s) as [[] s1]; cbn [snd] in *; [|done].
  eapply idle_trans; [exact H1|]. apply idle_states; [done|apply H1].
Qed.
Lemma idle_GetCode a s : is_addr a -> good_ s -> idle s (GetCodeAt a s).2.
Proof using Hb.
  intros Ha Hg. pose proof (idle_reads Hb _ s (law_GetCode (hash:=keccak) (StateLaws:=backend_laws Hb) a Ha) Hg) as H. cbn in H. by destruct (GetCodeAt a s).
Qed.
(** A block that no fork rebalances, and contracts that can be installed. *)
Record governing_ok (g : Governing) : Prop := {
  go_160 : gv_KIP160 g = false;
  go_103 : gv_KIP103 g = false;
  go_registry : is_addr (gv_RegistryAddr g) /\ len (gv_RegistryCode g) < 2 ^ 63;
  go_credit : is_addr (gv_MainnetCreditAddr g) /\ len (gv_MainnetCreditV2Code g) < 2 ^ 63;
  go_node : is_addr (gv_nodeReward g);
  go_staking : staking_addrs (gv_stakingInfo g);
  go_usable : Reward.usable (gv_stakingInfo g)
}.
Lemma idle_forkChanges g header s : governing_ok g -> good_ s -> idle s (forkChanges g header s).2.
Proof using Hb.
  intros [H1 H2 [Hra Hrc] [Hca Hcc] _ _ _] Hg. unfold forkChanges. rewrite H1, H2. cbn [orb].
  set (r := if gv_Randao g then _ else _). assert (idle s r.2) as Hr by (unfold r; destruct (gv_Randao g); [by apply idle_InstallRegistry|by apply idle_refl]).
  clearbody r. destruct r as [ok s1]. cbn [snd] in Hr. destruct ok; cbn [negb]; [|done]. destruct (gv_KaiaParent g); [|done]. unfold replaceCredit.
  destruct (gv_isMainnet g); [|done]. pose proof (idle_GetCode (gv_MainnetCreditAddr g) s1 Hca (proj1 Hr)) as H3. destruct (GetCodeAt _ s1) as [[c|] s2]; cbn [snd] in H3.
  - eapply idle_trans; [exact Hr|]. eapply idle_trans; [exact H3|]. apply idle_SetCode; [done|done|apply H3].
  - by eapply idle_trans.
Qed.
(** The reward of a block that [Finalize] pays. *)
Lemma blockRewards_ok g rules pset header txs gas header' spec : governing_ok g -> is_addr (hd_Rewardbase header) -> Reward.params_ok (rewardRules rules) pset ->
  Reward.block_ok (rewardHeader header) (map rewardTx txs) gas (rewardRules rules) -> blockRewards g rules pset header txs gas = (header', Ok spec) ->
  Reward.conserved spec /\ to_address (Reward.Rewards spec) /\ Reward.Minted spec = Reward.ps_MintingAmount pset /\
  (Reward.ps_DeferredTxFee pset = true -> Reward.GetTotalTxFee (rewardHeader header) (map rewardTx txs) gas (rewardRules rules) pset = Ok (Reward.TotalFee spec)) /\
  (Reward.ps_DeferredTxFee pset = false -> IsMagma rules = true -> Reward.TotalFee spec = 0 /\ Reward.BurntFee spec = 0).
Proof.
  intros [_ _ _ _ Hnode Hst Hus] Hr Hp Hbk. unfold blockRewards. destruct (gv_chain g && _).
  - set (h := if _ && _ then setRewardbase _ header else header). intros [= <- E].
    assert (Reward.block_ok (rewardHeader h) (map rewardTx txs) gas (rewardRules rules)) as Hbk' by (unfold h; destruct (_ && _); [destruct Hbk; by split|done]).
    assert (is_addr (hd_Rewardbase h)) as Hr' by (unfold h; by destruct (_ && _)).
    destruct (Reward.CalcDeferredReward_ok (gv_stakingInfo g) _ _ _ _ pset Hp Hbk' Hus) as (spec' & E' & Hc & Hm & Hd). rewrite E in E'. injection E' as <-. split_and!; try done.
    + exact (CalcDeferredReward_addrs _ (rewardHeader h) _ _ _ _ _ Hst Hr' E).
    + intros Hdef. pose proof (CalcDeferredReward_fee _ _ _ _ _ _ _ Hdef E) as H. unfold h in H. by destruct (_ && _).
    + by intros H _; apply Hd.
  - intros [= <- E]. destruct (Reward.CalcDeferredRewardSimple_ok _ _ _ _ pset Hp Hbk) as (spec' & E' & Hc & Hm & Hd). rewrite E in E'. injection E' as <-. split_and!; try done.
    + exact (CalcDeferredRewardSimple_addrs (rewardHeader header) _ _ _ _ _ Hr E).
    + intros Hdef. by apply CalcDeferredRewardSimple_fee.
Qed.
Lemma Finalize_ok g rules header txs gas s header' s' pset : governing_ok g -> is_addr (hd_Rewardbase header) -> gv_params g = Some pset ->
  Reward.params_ok (rewardRules rules) pset -> Reward.block_ok (rewardHeader header) (map rewardTx txs) gas (rewardRules rules) -> good_ s ->
  Finalize g rules header txs gas s = Ok (inr header', s') ->
  exists spec, blockRewards g rules pset header txs gas = (header', Ok spec) /\
    nets false (Reward.Minted spec + Reward.TotalFee spec - Reward.BurntFee spec) s s'.
Proof using Hb.
  intros Hgv Hr Hps Hp Hbk Hg. unfold Finalize. destruct (_ && _); [done|]. destruct (_ && _); [done|]. rewrite Hps.
  destruct (blockRewards g rules pset header txs gas) as [h [spec| | |]] eqn:Eb; try done.
  destruct (blockRewards_ok g rules pset header txs gas h spec Hgv Hr Hp Hbk Eb) as (Hc & Ha & _).
  pose proof (nets_Distribute (Reward.Rewards spec) s Ha (Reward.cv_amounts _ Hc) Hg) as H1. set (s1 := DistributeBlockReward _ s) in *.
  pose proof (idle_forkChanges g h s1 Hgv (proj1 H1)) as H2. destruct (forkChanges g h s1) as [ok s2]. cbn [snd] in H2. destruct ok; cbn [negb]; [|done].
  unfold IntermediateRoot. destruct (Finalise true true s2) as [s3| | |] eqn:E3; try done. intros [= <- <-]. exists spec. split; [done|].
  apply (nets_Finalise Hb) in E3; [|apply H2]. eapply nets_le; [eapply nets_trans; [|exact E3]; eapply nets_trans; [|apply nets_idle, H2]; eapply nets_le; [exact H1|reflexivity]|].
  destruct Hc as [Hf Hrw _ _ _]. lia.
Qed.
End rewards.

(** ** The whole block *)

Section supply.
Context {word : Uint256} {wspec : Uint256Spec} {senv : StateEnv} {crypto : Crypto} (Hb : backend_ok) (Hz : compressible).
Context (cfg : ChainConfig) (header : Header) (baseFee : Z).
Context (Hmagma : IsMagma (cf_Rules cfg) = true) (Hbase : hd_BaseFee header = Some baseFee).

Lemma tips_of txs gas : Forall2 (fun d g => 0 <= g <= GetGasLimit d /\ GetGasLimit d <= gas_max) txs gas ->
  Reward.tips (hd_BaseFee header) (map rewardTx txs) gas = Staking.sumZ (zip_with (fun d g => g * EffectiveGasTip (hd_BaseFee header) d) txs gas).
Proof.
  unfold Reward.tips. induction 1 as [|d g txs gas [Hg Hl] _ IH]; [done|]. unfold Staking.sumZ in *. cbn. cbn in IH. rewrite IH.
  assert (i64 g = g) as ->; [|done]. unfold gas_max in Hl. unfold i64. rewrite Z.mod_small; lia.
Qed.
Lemma fees_split txs gas : length txs = length gas ->
  feesOf cfg header txs gas = Staking.sumZ gas * baseFee +
    (if IsKaia (cf_Rules cfg) then Staking.sumZ (zip_with (fun d g => g * EffectiveGasTip (hd_BaseFee header) d) txs gas) else 0).
Proof using Hbase.
  unfold feesOf, EffectiveGasPrice. rewrite Hbase. revert gas. induction txs as [|d txs IH]; intros [|g gas] Hl; try done.
  - unfold Staking.sumZ. cbn. by destruct (IsKaia _).
  - injection Hl as Hl. specialize (IH gas Hl). unfold Staking.sumZ in *. cbn. cbn in IH. rewrite IH. destruct (IsKaia (cf_Rules cfg)); lia.
Qed.
Lemma total_fee txs gas pset : Forall2 (fun d g => 0 <= g <= GetGasLimit d /\ GetGasLimit d <= gas_max) txs gas -> hd_GasUsed header = Staking.sumZ gas ->
  Reward.GetTotalTxFee (rewardHeader header) (map rewardTx txs) gas (rewardRules (cf_Rules cfg)) pset = Ok (feesOf cfg header txs gas).
Proof using Hmagma Hbase.
  intros Hg Hu. pose proof (Forall2_length _ _ _ Hg) as Hl. rewrite (fees_split txs gas Hl). unfold Reward.GetTotalTxFee. cbn [Reward.IsMagma rewardRules]. rewrite Hmagma.
  cbn [Reward.h_BaseFee rewardHeader Reward.h_GasUsed Reward.IsKaia rewardRules]. rewrite Hbase. cbn [mbind res_bind]. rewrite Hu. destruct (IsKaia (cf_Rules cfg)); cbn [negb]; [|by rewrite Z.add_0_r].
  rewrite length_map, Hl, Nat.eqb_refl. cbn [negb]. rewrite <- Hbase. by rewrite tips_of.
Qed.

(** A block as it is received and checked: its header, its transactions, the governance it is
    processed under. *)
Record block_valid (g : Governing) (pset : Reward.GovParamSet) (author : Address) (txs : list TxInternalData) : Prop := {
  bv_header : header_ok header;
  bv_root : hd_Root header <> zeroHash;
  bv_author : is_addr author;
  bv_txs : Forall applicable txs;
  bv_gas : limits txs < 2 ^ 64;
  bv_governing : governing_ok g;
  bv_params : gv_params g = Some pset;
  bv_rewards : Reward.params_ok (rewardRules (cf_Rules cfg)) pset;
  bv_deferred : cf_DeferredTxFee cfg = Reward.ps_DeferredTxFee pset;
  bv_engine : gv_chain g = true;
  bv_machine : Prefetching (cf_VM cfg) = false
}.
Lemma gas_bounds txs gas : Forall applicable txs -> Forall2 (fun d g => 0 <= g <= GetGasLimit d) txs gas ->
  Forall2 (fun d g => 0 <= g <= GetGasLimit d /\ GetGasLimit d <= gas_max) txs gas.
Proof. intros Ha Hg. induction Hg as [|d g txs gas Hg _ IH]; [constructor|]. apply Forall_cons in Ha as [[[[Hl _] _ _ _] _] Ha]. constructor; [lia|by apply IH]. Qed.
Lemma block_ok_of txs gas : header_ok header -> Forall applicable txs -> Forall2 (fun d g => 0 <= g <= GetGasLimit d) txs gas -> hd_GasUsed header = Staking.sumZ gas ->
  Reward.block_ok (rewardHeader header) (map rewardTx txs) gas (rewardRules (cf_Rules cfg)).
Proof using Hbase.
  intros Hh Ha Hg Hu. pose proof (gas_bounds txs gas Ha Hg) as Hb'. assert (Forall (fun g => 0 <= g < 2 ^ 63) gas) as Hgas.
  { clear -Hb'. induction Hb' as [|d g txs gas [? Hl] _ IH]; constructor; [unfold gas_max in Hl; lia|done]. }
  split; cbn.
  - rewrite Hu. clear -Hgas. induction Hgas; unfold Staking.sumZ in *; cbn; lia.
  - apply Hh.
  - intros _. by rewrite Hbase.
  - apply Forall_fmap, Forall_forall. intros d Hd. by destruct (proj1 (Forall_forall _ _) Ha d Hd) as (_ & _ & _ & ?).
  - done.
Qed.
(** The effect of a block that was processed. *)
Lemma Process_nets g pset getHash author blockHash txs s receipts used s' : block_valid g pset author txs -> good_ s ->
  Process cfg g getHash author blockHash header txs s = Ok (inr (receipts, used), s') -> validGasUsed header used = true ->
  Forall2 (fun d r => 0 <= r_GasUsed r <= GetGasLimit d) txs receipts /\ exists header' spec,
    blockRewards g (cf_Rules cfg) pset header txs (map r_GasUsed receipts) = (header', Ok spec) /\ Reward.Minted spec = Reward.ps_MintingAmount pset /\
    nets false (Reward.Minted spec - Reward.BurntFee spec) s s'.
Proof using Hb Hz Hmagma Hbase wspec.
  intros [Hh Hroot Hau Htxs Hlim Hgv Hps Hpar Hdef Hch Hpre] Hg E Hused. unfold validGasUsed in Hused. apply Z.eqb_eq in Hused. unfold Process in E.
  pose proof (applyAll_ok Hb Hz cfg getHash author header Hh Hau Hpre blockHash txs Htxs 0 0 s Hg) as Hall.
  destruct (applyAll cfg getHash author blockHash header 0 txs 0 s) as [[[e|[rs u]] s1]| | |] eqn:Ea; try done.
  eapply twpe_Ok in Hall; [|exact Ea]. destruct Hall as (Hgas & Hsum & Hn1). cbn [fst snd] in *.
  destruct (Finalize g (cf_Rules cfg) header txs (map r_GasUsed rs) s1) as [[[e|h] s2]| | |] eqn:Ef; try done. injection E as <- <- <-.
  rewrite Hsum in Hused by lia. assert (Reward.block_ok (rewardHeader header) (map rewardTx txs) (map r_GasUsed rs) (rewardRules (cf_Rules cfg))) as Hbk by (by apply block_ok_of).
  destruct (Finalize_ok Hb g (cf_Rules cfg) header txs (map r_GasUsed rs) s1 h s2 pset Hgv (proj1 Hh) Hps Hpar Hbk (proj1 Hn1) Ef) as (spec & Espec & Hn2).
  destruct (blockRewards_ok g (cf_Rules cfg) pset header txs _ h spec Hgv (proj1 Hh) Hpar Hbk Espec) as (_ & _ & Hmint & Hfee & Hno).
  split; [by apply Forall2_fmap_r in Hgas|]. exists h, spec. split; [done|]. split; [done|]. eapply nets_le; [eapply nets_trans; [exact Hn1|exact Hn2]|].
  unfold owed. rewrite Hdef. destruct (Reward.ps_DeferredTxFee pset) eqn:Ed.
  - specialize (Hfee eq_refl). rewrite (total_fee txs _ pset (gas_bounds txs _ Htxs Hgas) Hused) in Hfee. injection Hfee as Hfee. lia.
  - destruct (Hno eq_refl Hmagma) as [-> ->]. lia.
Qed.

End supply.
End TxSupply.
