(* ===== verification/TxTheorems.v ===== *)
(** * Transactions: guarantees

    What the state transition and the application of a transaction guarantee, and where they
    do less than the transaction pool or the rewards take for granted. *)

From S2P Require Import Prelude Rlp AccountKey StateDB StateRevert EvmWord EvmCode EvmMem EvmParams EvmState EvmGas EvmOps EvmTable EvmRun.
From S2P Require Import EvmSpec EvmInv EvmPlain EvmCost EvmStep EvmCalls EvmLoop EvmFrames EvmMain EvmStateDB Blake2b EvmPrecompiles EvmPreSpec.
From S2P Require Import EvmMoney EvmMoneyDB EvmLedger EvmTheorems EvmConserve.
From S2P Require Import Staking Reward.
From S2P Require Import Tx TxSign TxExec TxState TxLedger TxValid Rebalance TxBlock TxSupply.

Module TxTheorems.
Import State Revert.
Export TxSupply.

Section theorems.
Context {word : Uint256} {wspec : Uint256Spec} {senv : StateEnv} {crypto : Crypto} (Hb : backend_ok) (Hz : compressible).

(** ** Soundness *)

Lemma nets_wealth ex d s s' : nets ex d s s' -> good_ s -> solvent s -> good_ s' /\ solvent s' /\ reaches ex (wealth s') (wealth s + d).
Proof.
  intros [Hg' H] Hg Hs. destruct (H Hs) as [Hs' (e & He & Hgain)]. split; [done|]. split; [done|].
  rewrite (gains_wealth s s' e (no_flat s Hg) (no_flat s' Hg') Hgain). destruct ex; cbn in *; lia.
Qed.

(** A message that was validated is executed without a fault, on any code and any state: with a
    turn of the machine for every unit of gas it ends, either with an error, or with a result
    whose gas is at most the limit and at least what the refund leaves of the intrinsic gas.
    No balance becomes negative, and the sum of all balances shrinks by the gas used times
    its price where fees are deferred, and grows in no case. *)
Theorem transition_sound (cfg : ChainConfig) (bc : BlockContext) (msg : Transaction) (price : Z) (s : StateDB) :
  msg_ok msg price -> ratio_ok msg -> payers_ok msg price s -> block_ok bc -> Prefetching (cf_VM cfg) = false ->
  good_ s -> solvent s -> GetGasLimit (tx_data msg) < Z.of_nat (cf_turns cfg) ->
  match TransitionDb cfg bc msg price s with
  | Ok (inr r, s') =>
      let q := if IsKore (cf_Rules cfg) then 5 else 2 in
      0 <= UsedGas r <= GetGasLimit (tx_data msg) /\ (q - 1) * tx_validatedIntrinsicGas msg <= q * UsedGas r /\
      good_ s' /\ solvent s' /\ wealth s' <= wealth s - (if cf_DeferredTxFee cfg then UsedGas r * price else 0)
  | Ok (inl _, s') => good_ s' /\ solvent s' /\ wealth s' <= wealth s
  | Err _ => True
  | Panic | NoFuel => False
  end.
Proof using Hb Hz wspec.
  intros Hm Hr Hp Hbk Hpre Hg Hs Hturns. pose proof (TransitionDb_ok Hb Hz cfg bc msg price false Hm s ltac:(done) Hg Hr Hp Hbk Hpre) as H.
  unfold twpe, twp in H. destruct (TransitionDb cfg bc msg price s) as [[[e|r] s']| | |]; cbn in H; [| |done|done|by apply H].
  - destruct (nets_wealth _ _ _ _ H Hg Hs) as (? & ? & Hw). cbn in Hw. split_and!; [done|done|lia].
  - destruct H as (Hu & Hl & Hn). destruct (nets_wealth _ _ _ _ Hn Hg Hs) as (? & ? & Hw). cbn in Hw. split; [done|]. split; [exact Hl|]. split; [done|]. split; [done|].
    destruct (cf_DeferredTxFee cfg); lia.
Qed.


(** ** Fees *)

(** What buying gas takes from an account. *)
Definition taken (msg : Transaction) (price : Z) (b : Address) : Z :=
  let fee := GetGasLimit (tx_data msg) * price in
  let '(ofPayer, ofSender) := if (FeeRatio (tx_data msg)).2 then CalcFeeWithRatio (FeeRatio (tx_data msg)).1 fee else (fee, 0) in
  (if bool_decide (b = tx_validatedFeePayer msg) then ofPayer else 0) + (if bool_decide (b = tx_validatedSender msg) then ofSender else 0).
Lemma buyGas_exact msg price s : is_addr (tx_validatedSender msg) -> is_addr (tx_validatedFeePayer msg) -> is_u64 (GetGasLimit (tx_data msg)) -> good_ s ->
  let fee := GetGasLimit (tx_data msg) * price in
  let '(ofPayer, ofSender) := if (FeeRatio (tx_data msg)).2 then CalcFeeWithRatio (FeeRatio (tx_data msg)).1 fee else (fee, balanceOf s (tx_validatedSender msg)) in
  exists s', good_ s' /\
  if (ofPayer <=? balanceOf s (tx_validatedFeePayer msg)) && (ofSender <=? balanceOf s (tx_validatedSender msg)) then
    buyGas msg price s = Ok (inr (GetGasLimit (tx_data msg), GetGasLimit (tx_data msg)), s') /\ forall b, is_addr b -> balanceOf s' b = balanceOf s b - taken msg price b
  else (exists e, buyGas msg price s = Ok (inl e, s')) /\ forall b, is_addr b -> balanceOf s' b = balanceOf s b.
Proof using Hb.
  intros Hs Hf Hl Hg. cbv zeta. unfold buyGas, taken. set (fee := GetGasLimit (tx_data msg) * price). rewrite Z.add_0_l, (u64_small _ Hl).
  assert (forall a v t b, is_addr a -> good_ t -> is_addr b -> balanceOf (SubBalance a v t) b = balanceOf t b - (if bool_decide (b = a) then v else 0)) as Hsub.
  { intros a v t b Ha Ht Hib. rewrite balance_SubBalance by (done || apply wf_keyed, gd_wf, Ht). case_bool_decide; lia. }
  destruct (FeeRatio (tx_data msg)) as [r isRatio]. cbn [fst snd]. unfold tRead, tDo, fail, mbind, T_bind, mret, T_ret. destruct isRatio.
  - destruct (CalcFeeWithRatio r fee) as [ff sf]. destruct (balance_read Hb (tx_validatedFeePayer msg) s Hf Hg) as [E1 H1]. destruct (GetBalanceAt (tx_validatedFeePayer msg) s) as [b1 s1].
    cbn [fst snd] in E1, H1. subst b1. rewrite Z.leb_antisym. destruct (_ <? ff); cbn [negb andb]; [exists s1; split; [apply H1|]; split; [by eexists|apply H1]|].
    destruct (balance_read Hb (tx_validatedSender msg) s1 Hs (proj1 H1)) as [E2 H2]. destruct (GetBalanceAt (tx_validatedSender msg) s1) as [b2 s2]. cbn [fst snd] in E2, H2. subst b2.
    pose proof (idle_trans _ _ _ H1 H2) as H3. rewrite (proj2 H1) by done. rewrite Z.leb_antisym. destruct (_ <? sf); cbn [negb]; [exists s2; split; [apply H3|]; split; [by eexists|apply H3]|].
    assert (good_ (SubBalance (tx_validatedFeePayer msg) ff s2)) as Hg2 by (apply (good_command Hb (CSubBalance (tx_validatedFeePayer msg) ff) s2); try done; apply H3).
    eexists. split; [|split; [reflexivity|]].
    + by apply (good_command Hb (CSubBalance (tx_validatedSender msg) sf) (SubBalance (tx_validatedFeePayer msg) ff s2)).
    + intros b Hib. rewrite !Hsub by (done || apply H3). rewrite (proj2 H3) by done. lia.
  - destruct (balance_read Hb (tx_validatedFeePayer msg) s Hf Hg) as [E1 H1]. destruct (GetBalanceAt (tx_validatedFeePayer msg) s) as [b1 s1].
    cbn [fst snd] in E1, H1. subst b1. rewrite Z.leb_refl, andb_true_r, Z.leb_antisym. destruct (_ <? fee); cbn [negb]; [exists s1; split; [apply H1|]; split; [by eexists|apply H1]|].
    eexists. split; [|split; [reflexivity|]].
    + apply (good_command Hb (CSubBalance (tx_validatedFeePayer msg) fee) s1); try done. apply H1.
    + intros b Hib. rewrite !Hsub by (done || apply H1). rewrite (proj2 H1) by done. destruct (bool_decide (b = tx_validatedSender msg)); lia.
Qed.

(** C37. Buying gas with a shared fee checks the two shares one by one, and the ratio not at all.  An
    account that shares a fee with itself can owe money afterwards; and with a ratio above a
    hundred, which the pool refuses but a block may contain, the sender is paid by the fee
    payer. *)
Theorem shared_fee_defects (msg : Transaction) (price : Z) (s : StateDB) (r : Z) :
  is_addr (tx_validatedSender msg) -> is_addr (tx_validatedFeePayer msg) -> is_u64 (GetGasLimit (tx_data msg)) -> 0 <= price -> good_ s ->
  GetFeeRatio (tx_data msg) = Some r ->
  let fee := GetGasLimit (tx_data msg) * price in
  let before := balanceOf s (tx_validatedSender msg) in
  exists s', 
    (tx_validatedSender msg = tx_validatedFeePayer msg -> fee * r / 100 <= before -> fee - fee * r / 100 <= before -> before < fee ->
      (exists g, buyGas msg price s = Ok (inr g, s')) /\ balanceOf s' (tx_validatedSender msg) < 0) /\
    (tx_validatedSender msg <> tx_validatedFeePayer msg -> fee * r / 100 <= balanceOf s (tx_validatedFeePayer msg) -> 0 <= before -> fee < fee * r / 100 ->
      (exists g, buyGas msg price s = Ok (inr g, s')) /\ before < balanceOf s' (tx_validatedSender msg)).
Proof using Hb.
  intros Hs Hf Hl Hp Hg Hr. cbv zeta. pose proof (buyGas_exact msg price s Hs Hf Hl Hg) as H. unfold taken, FeeRatio in H. rewrite Hr in H. cbn [fst snd CalcFeeWithRatio] in H.
  set (fee := GetGasLimit (tx_data msg) * price) in *. destruct H as (s' & Hg' & H). exists s'. split.
  - intros Heq H1 H2 H3. rewrite <- Heq in H. rewrite (proj2 (Z.leb_le _ _) H1), (proj2 (Z.leb_le _ _) H2) in H. cbn [andb] in H. destruct H as [E Hbal].
    split; [by eexists|]. rewrite Hbal by done. rewrite bool_decide_eq_true_2 by done. lia.
  - intros Hne H1 H2 H3. rewrite (proj2 (Z.leb_le _ _) H1) in H. rewrite (proj2 (Z.leb_le (fee - fee * r / 100) _)) in H by lia. cbn [andb] in H. destruct H as [E Hbal].
    split; [by eexists|]. rewrite Hbal by done. rewrite bool_decide_eq_false_2, bool_decide_eq_true_2 by done. lia.
Qed.

Lemma undeferred_report header txs gas rules pset t fee : Reward.ps_DeferredTxFee pset = false -> Reward.IsMagma rules = true ->
  Reward.GetTotalTxFee header txs gas rules pset = Ok fee -> Reward.GetTotalReward header txs gas rules pset = Ok t -> Reward.tr_BurntFee t = fee / 2.
Proof.
  intros Hd Hm Hfee. unfold Reward.GetTotalReward. intros (rc & Hrc & E)%bind_ok. apply bind_ok in E as (t0 & E0 & E).
  assert (Reward.rc_deferredTxFee rc = false /\ Reward.rc_rules rc = rules) as [Hrd Hrr].
  { unfold Reward.NewRewardConfig in Hrc. apply bind_ok in Hrc as ([[[? ?] ?] ?] & _ & Hrc). apply bind_ok in Hrc as ([[? ?] ?] & _ & Hrc).
    apply bind_ok in Hrc as (f & _ & Hrc). injection Hrc as <-. by cbn. }
  rewrite Hrd, Hm, Hfee in E. cbn in E. injection E as <-. cbn. assert (Reward.tr_BurntFee t0 = 0) as ->; [|done].
  destruct (Reward.IsRewardSimple pset).
  - apply bind_ok in E0 as (spec & Es & E0). injection E0 as <-. unfold Reward.CalcDeferredRewardSimple in Es. rewrite Hrc in Es. cbn in Es. rewrite Hrd, Hrr, Hm in Es. by injection Es as <-.
  - unfold Reward.calcDeferredFee in E0. rewrite Hrd in E0. by injection E0 as <-.
Qed.

(** C38. Where fees are not deferred, nothing of them is burnt, although the reports say that half of
    them is: a transaction that runs no code leaves the sum of all balances as it was, and the
    total reward of its block counts half of the fee as burnt. *)
Theorem undeferred_fee_not_burnt (cfg : ChainConfig) (bc : BlockContext) (msg : Transaction) (header : Header) (baseFee : Z) (s : StateDB) r s' pset t :
  let price := EffectiveGasPrice (hd_BaseFee header) (cf_Rules cfg) (tx_data msg) in
  msg_ok msg price -> ratio_ok msg -> payers_ok msg price s -> block_ok bc -> Prefetching (cf_VM cfg) = false -> good_ s -> solvent s ->
  runs_code (tx_data msg) = false -> IsMagma (cf_Rules cfg) = true -> hd_BaseFee header = Some baseFee ->
  cf_DeferredTxFee cfg = false -> Reward.ps_DeferredTxFee pset = false ->
  TransitionDb cfg bc msg price s = Ok (inr r, s') -> hd_GasUsed header = UsedGas r ->
  Reward.GetTotalReward (rewardHeader header) [rewardTx (tx_data msg)] [UsedGas r] (rewardRules (cf_Rules cfg)) pset = Ok t ->
  wealth s' = wealth s /\ Reward.tr_BurntFee t = UsedGas r * price / 2.
Proof using Hb Hz wspec.
  cbv zeta. intros Hm Hr Hp Hbk Hpre Hg Hs Hrun Hmagma Hbase Hdef Hpd E Hu Et.
  pose proof (TransitionDb_ok Hb Hz cfg bc msg _ true Hm s (fun _ => Hrun) Hg Hr Hp Hbk Hpre) as H. eapply twpe_Ok in H; [|exact E].
  destruct H as (Hgas & _ & Hn). rewrite Hdef in Hn. destruct (nets_wealth _ _ _ _ Hn Hg Hs) as (_ & _ & Hw). cbn in Hw. split; [lia|].
  refine (undeferred_report _ _ _ (rewardRules (cf_Rules cfg)) pset t _ Hpd Hmagma _ Et).
  replace (UsedGas r * _) with (feesOf cfg header [tx_data msg] [UsedGas r]) by (unfold feesOf, Staking.sumZ; cbn; lia).
  change [rewardTx (tx_data msg)] with (map rewardTx [tx_data msg]). apply (total_fee cfg header baseFee Hmagma Hbase).
  - repeat constructor; try apply Hgas. apply (mo_tx _ _ Hm).
  - unfold Staking.sumZ. cbn. lia.
Qed.
End theorems.
End TxTheorems.
