(* ===== verification/TxPure.v ===== *)
(** * Transactions: types, gas, prices and what is signed

    Properties of transactions that need no state: their types as numbers, the intrinsic gas
    against a closed form, the price that is paid, and what the hash of a signature binds. *)

From S2P Require Import Prelude Rlp AccountKey EvmWord EvmCode EvmMem EvmParams EvmState EvmGas EvmOps EvmTable EvmRun Blake2b EvmPrecompiles EvmSpec EvmPreSpec.
From S2P Require Import Tx TxSign.

Module TxPure.
Import RLP Pre.
Export Sign.

(** ** Types *)

(** What a transaction asks for and who pays, without the fields. *)
Inductive Shape := ShLegacy | ShAccessList | ShDynamicFee | ShKaia (kind fee : nat).
Definition kindIndex (k : TxKind) : nat :=
  match k with
  | ValueTransfer _ _ => 1 | ValueTransferMemo _ _ _ => 2 | AccountUpdate _ => 4 | SmartContractDeploy _ _ _ _ _ => 5
  | SmartContractExecution _ _ _ => 6 | Cancel => 7 | ChainDataAnchoring _ => 9
  end.
Definition feeIndex (f : FeeDelegation) : nat := match f with NotDelegated => 0 | FeeDelegated _ _ => 1 | FeeDelegatedWithRatio _ _ _ => 2 end.
Definition shape (d : TxInternalData) : Shape :=
  match d with
  | TxInternalDataLegacy _ _ _ _ _ _ _ => ShLegacy
  | TxInternalDataEthereumAccessList _ _ _ _ _ _ _ _ _ => ShAccessList
  | TxInternalDataEthereumDynamicFee _ _ _ _ _ _ _ _ _ _ => ShDynamicFee
  | TxInternalDataKaia k fee _ _ _ _ _ => ShKaia (kindIndex k) (feeIndex fee)
  end.
Lemma types_injective d d' : Type_ d = Type_ d' -> shape d = shape d'.
Proof.
  destruct d as [| | |k fee]; destruct d' as [| | |k' fee']; try (intros _; reflexivity); try destruct k; try destruct fee; try destruct k'; try destruct fee';
    cbn; intros H; (reflexivity || (exfalso; vm_compute in H; congruence)).
Qed.

Lemma shape_type d d' : shape d = shape d' -> Type_ d = Type_ d'.
Proof.
  destruct d as [| | |k fee]; destruct d' as [| | |k' fee']; try (intros _; reflexivity); try (intros H; discriminate H).
  intros [= Hk Hf]. destruct k, k'; try discriminate Hk; destruct fee, fee'; try discriminate Hf; reflexivity.
Qed.

(** C24. The type of a transaction says what it is: transactions of the same type ask for the same
    kind of thing and are paid by the same parties, and the predicates on the bits of a type
    agree with the data of the transaction. *)
Theorem tx_types_agree (d : TxInternalData) :
  (forall d', Type_ d = Type_ d' <-> shape d = shape d') /\
  (IsFeeDelegatedType (Type_ d) = true <-> is_Some (GetFeePayer d)) /\
  (IsFeeDelegatedWithRatioTransaction (Type_ d) = true <-> is_Some (GetFeeRatio d)) /\
  (IsLegacyTransaction (Type_ d) = true <-> shape d = ShLegacy) /\
  (IsEthTypedTransaction (Type_ d) = true <-> shape d = ShAccessList \/ shape d = ShDynamicFee) /\
  (IsEthereumTransaction (Type_ d) = true <-> GetFrom d = None) /\
  (IsAccountUpdate (Type_ d) = true <-> exists f, shape d = ShKaia 4 f) /\
  (IsContractDeploy (Type_ d) = true <-> exists f, shape d = ShKaia 5 f) /\
  (IsCancelTransaction (Type_ d) = true <-> exists f, shape d = ShKaia 7 f) /\
  (IsChainDataAnchoring (Type_ d) = true <-> exists f, shape d = ShKaia 9 f).
Proof.
  split; [intros d'; split; [apply types_injective|apply shape_type]|].
  destruct d as [| | |k fee]; [..|destruct k, fee]; repeat match goal with |- _ /\ _ => split end; cbn;
    (split; intros H; [first [exact I|done|by vm_compute in H|by eexists|by left|by right]|
       first [reflexivity|done|by destruct H as [? ?]|by destruct H]]).
Qed.

(** ** Intrinsic gas *)

(** The gas of a payload, as a number without a bound. *)
Definition payloadGas (data : bytes) (creation : bool) (r : Rules) : Z :=
  100 * len data + (if creation && IsShanghai r then 2 * ((len data + 31) / 32) else 0).
Definition payloadGasLegacy (data : bytes) : Z := 68 * len (filter (fun b => b <> 0) data) + 4 * len (filter (fun b => b = 0) data).
Definition keysOf (l : AccessList) : Z := foldr (fun t n => len t.2 + n) 0 l.
Definition intrinsicReference (r : Rules) (d : TxInternalData) (keyGas : Z) : Z :=
  match d with
  | TxInternalDataLegacy _ _ _ to _ data _ =>
      (if bool_decide (to = None) then 53000 else 21000) + (if IsIstanbul r then payloadGas data (bool_decide (to = None)) r else payloadGasLegacy data)
  | TxInternalDataEthereumAccessList _ _ _ _ to _ data l _ | TxInternalDataEthereumDynamicFee _ _ _ _ _ to _ data l _ =>
      (if bool_decide (to = None) then 53000 else 21000) + (if IsIstanbul r then payloadGas data (bool_decide (to = None)) r else payloadGasLegacy data) +
      2400 * len l + 1900 * keysOf l
  | TxInternalDataKaia k fee _ _ _ _ _ =>
      match fee with NotDelegated => 0 | FeeDelegated _ _ => 10000 | FeeDelegatedWithRatio _ _ _ => 15000 end +
      match k with
      | ValueTransfer _ _ | Cancel => 21000
      | ValueTransferMemo _ _ data | SmartContractExecution _ _ data | ChainDataAnchoring data => 21000 + payloadGas data false r
      | AccountUpdate _ => 21000 + keyGas
      | SmartContractDeploy _ _ data humanReadable _ => 53000 + (if humanReadable then 4000000000 else 0) + payloadGas data true r
      end
  end.
Definition newKey (d : TxInternalData) : option AccountKey := match d with TxInternalDataKaia (AccountUpdate key) _ _ _ _ _ _ => Some key | _ => None end.
(** The sizes that a message can have. *)
Definition sizes_ok (d : TxInternalData) : Prop := len (Data d) < 2 ^ 40 /\ len (AccessListOf d) < 2 ^ 40 /\ keysOf (AccessListOf d) < 2 ^ 40.

Lemma payload_closed gas data c r : 0 <= gas < 2 ^ 40 -> len data < 2 ^ 40 -> IntrinsicGasPayload gas data c r = Ok (gas + payloadGas data c r).
Proof.
  intros Hg Hd. pose proof (len_nonneg data) as H0. unfold IntrinsicGasPayload, payloadGas, TxDataGas, InitCodeWordGas, MaxUint64, toWordSize, MaxUint64.
  rewrite (u64_small (len data)) by (unfold is_u64; lia). destruct (Z.eqb_spec (len data) 0) as [E|Hne].
  { rewrite E. destruct (_ && _); [change ((0 + 31) / 32) with 0|]; f_equal; lia. }
  rewrite (u64_small (2 ^ 64 - 1 - gas)) by (unfold is_u64; lia). destruct (Z.ltb_spec ((2 ^ 64 - 1 - gas) / 100) (len data)) as [H|_].
  { pose proof (Z.div_le_lower_bound (2 ^ 64 - 1 - gas) 100 (2 ^ 40) ltac:(lia) ltac:(lia)). lia. }
  rewrite (u64_small (len data * 100)) by (unfold is_u64; lia). rewrite (u64_small (gas + len data * 100)) by (unfold is_u64; lia).
  destruct (_ && _); [|f_equal; lia]. destruct (Z.ltb_spec (2 ^ 64 - 1 - 31) (len data)) as [?|_]; [lia|]. rewrite (u64_small (len data + 31)) by (unfold is_u64; lia).
  assert (0 <= (len data + 31) / 32 < 2 ^ 40) as Hw by (split; [apply Z.div_pos; lia|apply Z.div_lt_upper_bound; lia]). set (w := (len data + 31) / 32) in *.
  rewrite (u64_small (2 ^ 64 - 1 - (gas + len data * 100))) by (unfold is_u64; lia). destruct (Z.ltb_spec ((2 ^ 64 - 1 - (gas + len data * 100)) / 2) w) as [H|_].
  { pose proof (Z.div_le_lower_bound (2 ^ 64 - 1 - (gas + len data * 100)) 2 (2 ^ 40) ltac:(lia) ltac:(lia)). lia. }
  rewrite (u64_small (w * 2)) by (unfold is_u64; lia). rewrite u64_small by (unfold is_u64; lia). f_equal. lia.
Qed.
Lemma countNonZero_closed data : forall nz, 0 <= nz -> nz + len data < 2 ^ 64 -> countNonZero data nz = nz + len (filter (fun b => b <> 0) data).
Proof.
  induction data as [|b data IH]; intros nz Hn Hl; [symmetry; apply Z.add_0_r|]. rewrite len_cons in Hl. pose proof (len_nonneg data). cbn [countNonZero]. rewrite filter_cons.
  destruct (Z.eqb_spec b 0) as [E|E].
  - rewrite decide_False by naive_solver. apply IH; lia.
  - rewrite decide_True by done. rewrite len_cons, u64_small by (unfold is_u64; lia). rewrite IH by lia. lia.
Qed.
Lemma zero_or_not (data : bytes) : len (filter (fun b => b <> 0) data) + len (filter (fun b => b = 0) data) = len data.
Proof. induction data as [|b data IH]; [done|]. rewrite !filter_cons. destruct (decide (b = 0)) as [E|E]; [rewrite decide_False by naive_solver|rewrite decide_True by done]; rewrite !len_cons; lia. Qed.
Lemma payload_legacy_closed gas data : 0 <= gas < 2 ^ 40 -> len data < 2 ^ 40 -> IntrinsicGasPayloadLegacy gas data = Ok (gas + payloadGasLegacy data).
Proof.
  intros Hg Hd. pose proof (len_nonneg data) as H0. pose proof (zero_or_not data) as Hsum. pose proof (len_nonneg (filter (fun b => b <> 0) data)) as Hn1. pose proof (len_nonneg (filter (fun b => b = 0) data)) as Hn2.
  unfold IntrinsicGasPayloadLegacy, payloadGasLegacy, TxDataNonZeroGas, TxDataZeroGas, MaxUint64. rewrite (u64_small (len data)) by (unfold is_u64; lia).
  destruct (Z.ltb_spec 0 (len data)) as [Hpos|Hz]; [|f_equal; lia]. rewrite countNonZero_closed by lia. rewrite Z.add_0_l. set (nz := len (filter (fun b => b <> 0) data)) in *. set (z := len (filter (fun b => b = 0) data)) in *.
  rewrite (u64_small (2 ^ 64 - 1 - gas)) by (unfold is_u64; lia). destruct (Z.ltb_spec ((2 ^ 64 - 1 - gas) / 68) nz) as [H|_].
  { pose proof (Z.div_le_lower_bound (2 ^ 64 - 1 - gas) 68 (2 ^ 40) ltac:(lia) ltac:(lia)). lia. }
  rewrite (u64_small (nz * 68)), (u64_small (gas + nz * 68)), (u64_small (len data - nz)) by (unfold is_u64; lia).
  rewrite (u64_small (2 ^ 64 - 1 - (gas + nz * 68))) by (unfold is_u64; lia). destruct (Z.ltb_spec ((2 ^ 64 - 1 - (gas + nz * 68)) / 4) (len data - nz)) as [H|_].
  { pose proof (Z.div_le_lower_bound (2 ^ 64 - 1 - (gas + nz * 68)) 4 (2 ^ 40) ltac:(lia) ltac:(lia)). lia. }
  rewrite (u64_small ((len data - nz) * 4)), u64_small by (unfold is_u64; lia). f_equal. lia.
Qed.
Lemma keysOf_nonneg l : 0 <= keysOf l.
Proof. induction l as [|[a k] l IH]; [done|]. unfold keysOf in *. cbn. pose proof (len_nonneg k). lia. Qed.
Lemma StorageKeys_closed l : forall sum, 0 <= sum -> sum + keysOf l < 2 ^ 63 -> StorageKeys l sum = sum + keysOf l.
Proof.
  induction l as [|[a k] l IH]; intros sum Hs Hl; [symmetry; apply Z.add_0_r|]. pose proof (keysOf_nonneg l). pose proof (len_nonneg k).
  change (keysOf ((a, k) :: l)) with (len k + keysOf l) in *. cbn [StorageKeys]. assert (i64 (sum + len k) = sum + len k) as -> by (unfold i64; rewrite Z.mod_small; lia).
  rewrite IH by lia. lia.
Qed.
Lemma intrinsic_closed data l c r : len data < 2 ^ 40 -> len l < 2 ^ 40 -> keysOf l < 2 ^ 40 ->
  IntrinsicGas data l c r = Ok ((if c then 53000 else 21000) + (if IsIstanbul r then payloadGas data c r else payloadGasLegacy data) + 2400 * len l + 1900 * keysOf l).
Proof.
  intros Hd Hl Hk. pose proof (keysOf_nonneg l) as Hk0. pose proof (len_nonneg l) as Hl0. unfold IntrinsicGas, TxGasContractCreation, TxGas, TxAccessListAddressGas, TxAccessListStorageKeyGas.
  set (gas := if c then 53000 else 21000). assert (0 <= gas < 2 ^ 40) as Hg by (unfold gas; destruct c; lia).
  set (p := if IsIstanbul r then payloadGas data c r else payloadGasLegacy data). assert (0 <= p < 2 ^ 48) as Hp.
  { unfold p. pose proof (len_nonneg data). pose proof (zero_or_not data). pose proof (len_nonneg (filter (fun b => b <> 0) data)). pose proof (len_nonneg (filter (fun b => b = 0) data)).
    destruct (IsIstanbul r); [|unfold payloadGasLegacy; lia]. unfold payloadGas. assert (0 <= (len data + 31) / 32 < 2 ^ 40) by (split; [apply Z.div_pos; lia|apply Z.div_lt_upper_bound; lia]).
    destruct (_ && _); lia. }
  assert ((if IsIstanbul r then IntrinsicGasPayload gas data c r else IntrinsicGasPayloadLegacy gas data) = Ok (gas + p)) as ->.
  { unfold p. destruct (IsIstanbul r); [by apply payload_closed|by apply payload_legacy_closed]. }
  cbn [mbind res_bind]. rewrite StorageKeys_closed by lia. rewrite Z.add_0_l. rewrite (u64_small (len l)), (u64_small (keysOf l)) by (unfold is_u64; lia).
  rewrite (u64_small (len l * 2400)), (u64_small (keysOf l * 1900)) by (unfold is_u64; lia). rewrite (u64_small (gas + p + len l * 2400)) by (unfold is_u64; lia).
  rewrite u64_small by (unfold is_u64; lia). f_equal. lia.
Qed.

(** C23. The gas that a transaction costs before it runs is that of a closed formula over the
    integers: for payloads and access lists of any size that a message can have, no step of
    the computation wraps around or reports an overflow. *)
Theorem intrinsic_gas_closed (r : Rules) (d : TxInternalData) (keyGas : Z) :
  sizes_ok d -> (forall key, newKey d = Some key -> AccountCreationGas key = Ok keyGas) -> 0 <= keyGas < 2 ^ 40 ->
  intrinsicGasOf r d = Ok (intrinsicReference r d keyGas).
Proof.
  intros (Hd & Hl & Hk) Hkey Hg. destruct d as [? ? ? to ? data|? ? ? ? to ? data l|? ? ? ? ? to ? data l|k fee]; cbn [intrinsicGasOf intrinsicReference Data AccessListOf] in *.
  - rewrite intrinsic_closed by done. change (len (@nil (Address * list Hash))) with 0. change (keysOf []) with 0. apply (f_equal Ok). lia.
  - by rewrite intrinsic_closed.
  - by rewrite intrinsic_closed.
  - assert (0 <= feeDelegationGas fee <= 15000 /\ feeDelegationGas fee = match fee with NotDelegated => 0 | FeeDelegated _ _ => 10000 | FeeDelegatedWithRatio _ _ _ => 15000 end) as [Hf <-].
    { destruct fee; cbn; unfold TxGasFeeDelegated, TxGasFeeDelegatedWithRatio; lia. }
    unfold TxGasValueTransfer, TxGasContractCreation, TxGasHumanReadable, TxGasContractExecution, TxGasCancel, TxChainDataAnchoringGas, TxGasAccountUpdate.
    destruct k as [to am|to am data|key|to am data hr f|to am data| |data]; cbn in Hd.
    + f_equal. lia.
    + rewrite payload_closed by lia. f_equal. lia.
    + rewrite (Hkey key eq_refl). cbn. rewrite u64_small by (unfold is_u64; lia). f_equal. lia.
    + rewrite payload_closed by (destruct hr; lia). f_equal. lia.
    + rewrite payload_closed by lia. f_equal. lia.
    + f_equal. lia.
    + rewrite payload_closed by lia. f_equal. lia.
Qed.

(** ** What a signature binds *)

(** The strings of an item are bytes. *)
Fixpoint item_bytes (i : item) : Prop := match i with Str b => is_bytes b | Lst l => foldr (fun i P => item_bytes i /\ P) True l end.
Lemma items_bytes l : item_bytes (Lst l) <-> Forall item_bytes l.
Proof. cbn. induction l as [|i l IH]; cbn; [by split|]. rewrite Forall_cons, IH. done. Qed.
Lemma header_bytes small large size : (small = 128 /\ large = 183) \/ (small = 192 /\ large = 247) -> 0 <= size < 2 ^ 64 -> is_bytes (header small large size).
Proof.
  intros Hs Hz. unfold header. destruct (Z.ltb_spec size 56).
  - constructor; [unfold is_u8; lia|constructor].
  - pose proof (minbe_len size ltac:(lia)). constructor; [unfold is_u8; lia|apply minbe_bytes].
Qed.
Lemma enc_bytes i : item_bytes i -> len (enc i) < 2 ^ 64 -> is_bytes (enc i).
Proof.
  induction i as [b|l IH] using item_ind'; intros Hi Hl.
  - cbn in *. unfold enc_string in *. pose proof (len_nonneg b). assert (len b < 2 ^ 64 -> is_bytes (header 128 183 (len b) ++ b)) as Hh by (intros H'; apply Forall_app; split; [apply header_bytes; lia|done]).
    assert (forall h, len (h ++ b) < 2 ^ 64 -> len b < 2 ^ 64) as Hle by (intros h; rewrite len_app; pose proof (len_nonneg h); lia).
    destruct b as [|x [|y b]]; [by apply Hh| |by eapply Hh, Hle]. apply Forall_cons in Hi as [Hx _]. destruct (x <? 128); repeat constructor; done || apply Hx || (unfold is_u8; lia).
  - apply items_bytes in Hi. cbn [enc] in *. unfold enc_list in *. rewrite len_app in Hl. pose proof (len_nonneg (header 192 247 (len (flat_map enc l)))). pose proof (len_nonneg (flat_map enc l)).
    apply Forall_app. split; [apply header_bytes; lia|]. assert (len (flat_map enc l) < 2 ^ 64) as Hl' by lia. clear -IH Hi Hl'. induction IH as [|i l Hi' _ IHl]; [constructor|].
    apply Forall_cons in Hi as [H1 H2]. cbn in Hl' |- *. rewrite len_app in Hl'. pose proof (len_nonneg (enc i)). pose proof (len_nonneg (flat_map enc l)). apply Forall_app. split; [apply Hi'; [done|lia]|apply IHl; [done|lia]].
Qed.
Lemma enc_inj i j : item_bytes i -> 9 + len (enc i) < 2 ^ 64 -> enc i = enc j -> i = j.
Proof.
  intros Hb Hl E. apply (enc_prefix_free i j [] []); rewrite ?app_nil_r; [apply enc_bytes; [done|lia]|done|done].
Qed.
Lemma num_inj x y : 0 <= x -> 0 <= y -> num x = num y -> x = y.
Proof. intros Hx Hy [= E]. by rewrite <- (from_be_minbe x Hx), <- (from_be_minbe y Hy), E. Qed.
Lemma num_bytes x : item_bytes (num x).
Proof. apply minbe_bytes. Qed.

(** A transaction without its signatures and its fee payer, and with its new key set aside. *)
Definition eraseKey (k : TxKind) : TxKind := match k with AccountUpdate _ => AccountUpdate AccountKeyNil | _ => k end.
Definition eraseFee (f : FeeDelegation) : FeeDelegation :=
  match f with NotDelegated => NotDelegated | FeeDelegated _ _ => FeeDelegated [] [] | FeeDelegatedWithRatio r _ _ => FeeDelegatedWithRatio r [] [] end.
Definition unsigned (d : TxInternalData) : TxInternalData :=
  match d with
  | TxInternalDataLegacy n p g to v data _ => TxInternalDataLegacy n p g to v data (mkSig 0 0 0)
  | TxInternalDataKaia k fee n p g from _ => TxInternalDataKaia (eraseKey k) (eraseFee fee) n p g from []
  | _ => d
  end.

Section binding.
Context {crypto : Crypto} (Hinj : Inj (=) (=) Keccak256).

(** What is hashed for a signature of the sender and for one of the fee payer. *)
Inductive Role := AsSender | AsFeePayer.
Definition signHash (r : Role) (chainId : Z) (d : TxInternalData) : X Hash :=
  match r with AsSender => eip155Hash chainId d | AsFeePayer => HashFeePayer155 chainId d end.
Definition signItem (r : Role) (chainId : Z) (d : TxInternalData) : X item :=
  let tail := [num chainId; num 0; num 0] in
  match r, d with
  | AsSender, TxInternalDataKaia _ _ _ _ _ _ _ => b ← SerializeForSignToBytes d; mret (Lst (Str b :: tail))
  | AsSender, _ => fields ← SerializeForSign d; mret (Lst (fields ++ tail))
  | AsFeePayer, _ =>
      match GetFeePayer d with
      | None => Err errNotFeeDelegationTransaction
      | Some a => b ← SerializeForSignToBytes d; mret (Lst (Str b :: Str a :: tail))
      end
  end.
Lemma signHash_item r c d h : signHash r c d = Ok h -> exists i, signItem r c d = Ok i /\ h = Keccak256 (enc i).
Proof.
  unfold signHash, signItem, eip155Hash, HashFeePayer155. destruct r; [destruct d|destruct (GetFeePayer d); [|done]]; intros (x & -> & [= <-])%bind_ok; cbn; eauto.
Qed.

(** Transactions whose fields have the form of their types. *)
Definition kind_encodable (k : TxKind) : Prop :=
  match k with
  | ValueTransfer to v => is_bytes to /\ 0 <= v
  | ValueTransferMemo to v data | SmartContractExecution to v data => is_bytes to /\ 0 <= v /\ is_bytes data
  | AccountUpdate key => forall b, keyEnc key = Ok b -> is_bytes b
  | SmartContractDeploy to v data _ format => (forall a, to = Some a -> a <> [] /\ is_bytes a) /\ 0 <= v /\ is_bytes data /\ 0 <= format
  | Cancel => True
  | ChainDataAnchoring data => is_bytes data
  end.
Definition encodable (d : TxInternalData) : Prop :=
  0 <= GetAccountNonce d /\ 0 <= GetPrice d /\ 0 <= GetGasLimit d /\ (forall a, GetFeePayer d = Some a -> is_bytes a) /\
  (forall r, GetFeeRatio d = Some r -> 0 <= r) /\
  match d with
  | TxInternalDataLegacy _ _ _ to v data _ => (forall a, to = Some a -> a <> [] /\ is_bytes a) /\ 0 <= v /\ is_bytes data
  | TxInternalDataKaia k _ _ _ _ from _ => is_bytes from /\ kind_encodable k
  | _ => True
  end.
Definition keyOf_ (d : TxInternalData) : X bytes := match newKey d with Some key => keyEnc key | None => mret [] end.

Lemma optAddress_inj (a b : option Address) : (forall x, a = Some x -> x <> []) -> (forall x, b = Some x -> x <> []) -> optAddress a = optAddress b -> a = b.
Proof. intros Ha Hb'. destruct a as [x|], b as [y|]; intros E; [by injection E as ->| | |done]; injection E as E; subst; [by destruct (Ha [] eq_refl)|by destruct (Hb' [] eq_refl)]. Qed.
Lemma optAddress_bytes (a : option Address) : (forall x, a = Some x -> x <> [] /\ is_bytes x) -> item_bytes (optAddress a).
Proof. intros Ha. destruct a as [x|]; [|constructor]. by destruct (Ha x eq_refl). Qed.
Lemma fields_bytes d fields : encodable d -> IsEthTypedTransaction (Type_ d) = false -> SerializeForSign d = Ok fields -> Forall item_bytes fields.
Proof.
  intros (Hn & Hp & Hg & Hf & Hr & Hk) Ht E. assert (forall f, Forall item_bytes (ratioItems f)) as Hratio by (intros [| |r]; repeat constructor; apply num_bytes).
  destruct d as [? ? ? to v data| | |k fee n p g from]; try done.
  - injection E as <-. destruct Hk as (Hto & _ & Hd). repeat (constructor; [first [apply num_bytes|by apply optAddress_bytes|exact Hd]|]). constructor.
  - cbn in E. apply bind_ok in E as (fs & E & [= <-]). constructor; [apply num_bytes|]. destruct Hk as [Hfrom Hk]. unfold kaiaFields in E.
    destruct k as [to v|to v data|key|to v data hr fmt|to v data| |data]; try injection E as <-.
    3:{ apply bind_ok in E as (b & Hb & [= <-]). specialize (Hk b Hb). repeat (constructor; [first [apply num_bytes|exact Hfrom|exact Hk]|]). apply Hratio. }
    all: cbn in Hk; repeat (constructor; [first [apply num_bytes|exact Hfrom|apply optAddress_bytes; apply Hk|apply Hk]|]); try apply Hratio; try constructor.
    apply Forall_app. split; [apply Hratio|]. repeat constructor. apply num_bytes.
Qed.
(** What is signed of two transactions is the same only when they are the same up to what
    [unsigned] leaves out. *)
Definition ratio_ok_ (f : FeeDelegation) : Prop := match f with FeeDelegatedWithRatio r _ _ => 0 <= r | _ => True end.
Lemma ratio_inj fee fee' l l' : feeIndex fee = feeIndex fee' -> ratio_ok_ fee -> ratio_ok_ fee' -> ratioItems fee ++ l = ratioItems fee' ++ l' -> eraseFee fee = eraseFee fee' /\ l = l'.
Proof.
  intros Hi Hr Hr'. destruct fee as [| |r], fee' as [| |r']; try discriminate Hi; cbn; try done.
  intros E. injection E as E ->. split; [|done]. f_equal. apply num_inj; [done..|]. by unfold num; rewrite E.
Qed.
Lemma ratio_inj' fee fee' : feeIndex fee = feeIndex fee' -> ratio_ok_ fee -> ratio_ok_ fee' -> ratioItems fee = ratioItems fee' -> eraseFee fee = eraseFee fee'.
Proof. intros Hi Hr Hr' E. by destruct (ratio_inj fee fee' [] [] Hi Hr Hr') as [? _]; [rewrite E|]. Qed.
Lemma minbe_inj x y : 0 <= x -> 0 <= y -> minbe x = minbe y -> x = y.
Proof. intros Hx Hy E. apply num_inj; [done..|]. unfold num. by rewrite E. Qed.
Lemma boolItem_inj a b : minbe (if a : bool then 1 else 0) = minbe (if b : bool then 1 else 0) -> a = b.
Proof. by destruct a, b. Qed.
Lemma optional_inj (a b : option Address) : (forall x, a = Some x -> x <> [] /\ is_bytes x) -> (forall x, b = Some x -> x <> [] /\ is_bytes x) -> default [] a = default [] b -> a = b.
Proof.
  intros Ha Hb E. apply optAddress_inj; [intros x Hx; by apply Ha|intros x Hx; by apply Hb|]. unfold optAddress. by rewrite E.
Qed.
Lemma kind_inj k k' fee fee' n n' p p' g g' from from' fields :
  kindIndex k = kindIndex k' -> feeIndex fee = feeIndex fee' -> kind_encodable k -> kind_encodable k' -> ratio_ok_ fee -> ratio_ok_ fee' ->
  kaiaFields k fee n p g from = Ok fields -> kaiaFields k' fee' n' p' g' from' = Ok fields ->
  (minbe n = minbe n' /\ minbe p = minbe p' /\ minbe g = minbe g') /\ from = from' /\ eraseKey k = eraseKey k' /\ eraseFee fee = eraseFee fee' /\
  (forall key key', k = AccountUpdate key -> k' = AccountUpdate key' -> keyEnc key = keyEnc key').
Proof.
  intros Hi Hf Hk Hk' Hr Hr' E E'. pose proof (ratio_inj' fee fee' Hf Hr Hr') as Hinj1. unfold kaiaFields in E, E'.
  destruct k as [to v|to v data|key|to v data hr fmt|to v data| |data], k' as [to' v'|to' v' data'|key'|to' v' data' hr' fmt'|to' v' data'| |data']; try discriminate Hi; clear Hi; cbn in Hk, Hk'.
  3:{ apply bind_ok in E as (b & Hb & [= <-]). apply bind_ok in E' as (b' & Hb' & E2). injection E2 as -> -> -> -> -> Er.
      split_and!; auto. by intros ? ? [= <-] [= <-]; rewrite Hb, Hb'. }
  3:{ injection E as <-. injection E' as -> -> -> Eto Ev -> -> Eb Er. destruct (ratio_inj fee fee' _ _ Hf Hr Hr' (eq_sym Er)) as [Hfee [= Ef]].
      apply optional_inj in Eto; [|apply Hk'|apply Hk]. apply minbe_inj in Ev, Ef; try apply Hk; try apply Hk'. apply boolItem_inj in Eb. subst. split_and!; done. }
  all: injection E as <-; cbn in E'; injection E' as; subst; split_and!; auto; try done.
  all: cbn; f_equal; apply minbe_inj; first [apply Hk|apply Hk'|done].
Qed.
Lemma Type_nonneg d : 0 <= Type_ d.
Proof. destruct d as [| | |k fee]; [..|destruct k, fee]; vm_compute; discriminate. Qed.
(** The same transaction but for its signatures and its fee payer. *)
Definition sameTerms (d d' : TxInternalData) : Prop := unsigned d = unsigned d' /\ keyOf_ d = keyOf_ d'.
Lemma legacy_inj d d' fields tail tail' :
  shape d = ShLegacy -> shape d' = ShLegacy -> encodable d -> encodable d' -> SerializeForSign d = Ok fields -> 
  (exists fields', SerializeForSign d' = Ok fields' /\ fields ++ tail = fields' ++ tail') -> sameTerms d d' /\ tail = tail'.
Proof.
  intros Hs Hs' (Hn & Hp & Hg & _ & _ & Hk) (Hn' & Hp' & Hg' & _ & _ & Hk') E (fields' & E' & Eq).
  destruct d as [n p g to v data sig| | |]; try discriminate Hs. destruct d' as [n' p' g' to' v' data' sig'| | |]; try discriminate Hs'. cbn in *.
  injection E as <-. injection E' as <-. injection Eq as Xn Xp Xg Xto Xv -> ->. apply optional_inj in Xto; [|apply Hk|apply Hk'].
  apply minbe_inj in Xn, Xp, Xg, Xv; try done; try apply Hk; try apply Hk'. by subst.
Qed.
Lemma kaia_inj d d' fields :
  is_Some (GetFrom d) -> is_Some (GetFrom d') -> encodable d -> encodable d' -> SerializeForSign d = Ok fields -> SerializeForSign d' = Ok fields -> sameTerms d d'.
Proof.
  intros Hs Hs' (Hn & Hp & Hg & _ & Hr & Hk) (Hn' & Hp' & Hg' & _ & Hr' & Hk') E E'.
  destruct d as [| | |k fee n p g from sigs]; try by destruct Hs. destruct d' as [| | |k' fee' n' p' g' from' sigs']; try by destruct Hs'.
  cbn [SerializeForSign] in E, E'. apply bind_ok in E as (fs & E & [= <-]). apply bind_ok in E' as (fs' & E' & Eq). injection Eq as Et <-.
  assert (Type_ (TxInternalDataKaia k' fee' n' p' g' from' sigs') = Type_ (TxInternalDataKaia k fee n p g from sigs)) as Ht by (apply minbe_inj; [apply Type_nonneg..|exact Et]).
  pose proof (types_injective _ _ Ht) as Hsh. injection Hsh as Hki Hfi.
  assert (ratio_ok_ fee /\ ratio_ok_ fee') as [Hro Hro'] by (split; [destruct fee|destruct fee']; try done; cbn; auto).
  destruct (kind_inj k k' fee fee' n n' p p' g g' from from' fs' (eq_sym Hki) (eq_sym Hfi) (proj2 Hk) (proj2 Hk') Hro Hro' E E') as ((Xn & Xp & Xg) & -> & Xk & Xf & Hkey).
  apply minbe_inj in Xn, Xp, Xg; try done. split; [cbn; congruence|]. unfold keyOf_, newKey. destruct k, k'; try done. by apply Hkey.
Qed.
Lemma signItem_cases r c d i :
  signItem r c d = Ok i -> exists fields, SerializeForSign d = Ok fields /\
    i = Lst (match r with
             | AsSender => match GetFrom d with Some _ => [Str (enc (Lst fields))] | None => fields end
             | AsFeePayer => [Str (enc (Lst fields)); Str (default [] (GetFeePayer d))]
             end ++ [num c; num 0; num 0]) /\ (r = AsFeePayer -> is_Some (GetFrom d) /\ is_Some (GetFeePayer d)).
Proof.
  unfold signItem, SerializeForSignToBytes. intros E. destruct r; [destruct d|destruct (GetFeePayer d) as [a|] eqn:Ha; [|done]]; try (apply bind_ok in E as (b & E & [= <-]));
    try (apply bind_ok in E as (fs & E & [= <-])); eexists; (split; [exact E|split; [reflexivity|]]); try done. intros _. split; [|by eexists]. destruct d; by eexists || done.
Qed.
Lemma enc_le_list l i : In i l -> len (enc i) <= len (enc (Lst l)).
Proof.
  intros Hi. cbn. unfold enc_list. rewrite len_app. pose proof (len_nonneg (header 192 247 (len (flat_map enc l)))) as Hh.
  enough (len (enc i) <= len (flat_map enc l)) by lia. clear Hh. induction l as [|j l IH]; [done|]. cbn. rewrite len_app. destruct Hi as [->|Hi]; [pose proof (len_nonneg (flat_map enc l)); lia|]. specialize (IH Hi). pose proof (len_nonneg (enc j)). lia.
Qed.
Lemma enc_le_string b : len b <= len (enc (Str b)).
Proof.
  cbn. unfold enc_string. assert (forall h, len b <= len (h ++ b)) as Hh by (intros h; rewrite len_app; pose proof (len_nonneg h); lia).
  destruct b as [|x [|y b]]; [apply Hh| |apply Hh]. destruct (x <? 128); [lia|exact (Hh [129])].
Qed.
Lemma inner_le fields tail : len (enc (Lst fields)) <= len (enc (Lst (Str (enc (Lst fields)) :: tail))).
Proof. etrans; [apply enc_le_string|]. apply enc_le_list. by left. Qed.
Lemma signItem_bytes r c d i : encodable d -> IsEthTypedTransaction (Type_ d) = false -> signItem r c d = Ok i -> 9 + len (enc i) < 2 ^ 64 -> item_bytes i.
Proof.
  intros He Ht (fields & E & -> & Hr)%signItem_cases Hl. pose proof (fields_bytes d fields He Ht E) as Hf. apply items_bytes. apply Forall_app. split; [|repeat constructor; apply num_bytes].
  assert (forall tail, 9 + len (enc (Lst (Str (enc (Lst fields)) :: tail))) < 2 ^ 64 -> item_bytes (Str (enc (Lst fields)))) as Hb.
  { intros tail Hlt. apply enc_bytes; [by apply items_bytes|]. pose proof (inner_le fields tail). lia. }
  destruct r; [destruct (GetFrom d); [|done]; constructor; [by eapply Hb|constructor]|]. constructor; [by eapply Hb|]. constructor; [|constructor].
  destruct (Hr eq_refl) as [_ [a Ha]]. rewrite Ha. by apply He.
Qed.

Lemma plain_shape d : IsEthTypedTransaction (Type_ d) = false -> is_Some (GetFrom d) \/ (GetFrom d = None /\ shape d = ShLegacy /\ forall fs, SerializeForSign d = Ok fs -> length fs = 6%nat).
Proof. destruct d; try done; [|by left; eexists]. intros _. right. split_and!; [done..|]. by intros fs [= <-]. Qed.
Lemma inner_inj d fs fs' tail : encodable d -> IsEthTypedTransaction (Type_ d) = false -> SerializeForSign d = Ok fs ->
  9 + len (enc (Lst (Str (enc (Lst fs)) :: tail))) < 2 ^ 64 -> enc (Lst fs) = enc (Lst fs') -> fs = fs'.
Proof.
  intros He Ht Hs Hl E. pose proof (inner_le fs tail). apply enc_inj in E; [by injection E|apply items_bytes; by eapply fields_bytes|lia].
Qed.
End binding.
End TxPure.
