(* ===== verification/TxDemo.v ===== *)
(** * A block to process

    Concrete parameters for the theorems on transactions and blocks: two people with keys on the
    curve, contracts, and a block whose transactions they sign. *)

From S2P Require Import Prelude Rlp AccountKey StateDB StateRevert EvmWord EvmCode EvmMem EvmParams EvmState EvmGas EvmOps EvmTable EvmRun.
From S2P Require Import EvmSpec EvmInv EvmPlain EvmCost EvmStep EvmCalls EvmLoop EvmFrames EvmMain EvmStateDB Blake2b EvmPrecompiles EvmPreSpec.
From S2P Require Import EvmMoney EvmMoneyDB EvmLedger EvmTheorems EvmConserve.
From S2P Require Import Staking Reward EvmInstr EvmSstore EvmDemo.
From S2P Require Import Tx TxSign TxExec TxState TxLedger TxValid Rebalance TxBlock TxSupply TxTheorems TxPure.

Module TxDemo.
Import AccountKey Account State Revert Block Rebalance.
Export TxTheorems.

(** ** Parameters *)

(** Compression of points, and two points: the generator of the curve and its double. *)
Definition compress (pk : PublicKey) : go bytes := Ok ((2 + pk_Y pk mod 2) :: RLP.be 32 (pk_X pk)).
Definition alicePub : PublicKey := mkPub
  0x79BE667EF9DCBBAC55A06295CE870B07029BFCDB2DCE28D959F2815B16F81798 0x483ADA7726A3C4655DA4FBFC0E1108A8FD17B448A68554199C47D08FFB10D4B8.
Definition bobPub : PublicKey := mkPub
  0xc6047f9441ed7d6d3045406e95c07cd85c778e4b8cef3ca7abac09b95c709ee5 0x1ae168fea63dc339a3c58419466ceaeef7f632653266d0e1236431a950cfe52a.
Definition marshalPub (pk : PublicKey) : bytes := 4 :: RLP.be 32 (pk_X pk) ++ RLP.be 32 (pk_Y pk).
Definition alice : Address := BytesToAddress [9; 160].
Definition bob : Address := BytesToAddress [9; 161].

Abbreviation hash := Demo.demoHash.
#[export] Instance demoState : StateEnv := {|
  keccak := hash; contractCode := contractCode (StateEnv:=Demo.demoState); openStorageTrie _ := Some ∅; hashExt _ := []; compressPubkey := compress
|}.
(** A signature whose first number is one is Alice's, any other Bob's. *)
#[export] Instance demoCrypto : Crypto := {|
  Sum256 _ := replicate 32 0; ripemd160 _ := replicate 20 0; Keccak256 := hash;
  Ecrecover _ sig := Some (marshalPub (if bool_decide (take 32 sig = RLP.be 32 1) then alicePub else bobPub));
  G1 := unit; G2 := unit; UnmarshalG1 _ := None; MarshalG1 _ := []; UnmarshalG2 _ := None; AddG1 _ _ := tt; ScalarMult _ _ := tt;
  PairingCheck _ _ := false; VerifyProof _ _ _ _ := false;
  CompressPubkey := compress; PubkeyToAddress pk := if bool_decide (pk = alicePub) then alice else bob; IsIstanbulAt _ := true
|}.
Lemma demo_compressible : compressible.
Proof.
  intros pk _. eexists. split; [reflexivity|]. split.
  - constructor; [|apply RLP.be_bytes]. unfold is_u8. pose proof (Z.mod_pos_bound (pk_Y pk) 2). lia.
  - unfold len. cbn [length]. rewrite RLP.be_length. lia.
Qed.
Lemma alice_point : UnmarshalPubkey (marshalPub alicePub) = Ok (Some alicePub) /\ point alicePub.
Proof. split; [vm_compute; reflexivity|]. split; [vm_compute; reflexivity|]. by vm_compute. Qed.
Lemma bob_point : UnmarshalPubkey (marshalPub bobPub) = Ok (Some bobPub) /\ point bobPub.
Proof. split; [vm_compute; reflexivity|]. split; [vm_compute; reflexivity|]. by vm_compute. Qed.
Lemma marshal_len pk : len (marshalPub pk) = 65.
Proof. unfold len, marshalPub. cbn [length]. by rewrite length_app, !RLP.be_length. Qed.
Lemma demo_crypto : crypto_ok.
Proof.
  split; [done|done| | |exact demo_compressible]; intros h sig p; cbn [Ecrecover demoCrypto].
  - intros [= <-]. apply marshal_len.
  - intros pk [= <-]. case_bool_decide; [rewrite (proj1 alice_point)|rewrite (proj1 bob_point)]; intros [= <-]; [apply alice_point|apply bob_point].
Qed.
Lemma ledger_backend : backend_ok.
Proof. split; [exact demo_crypto|done|exact Demo.demoHash_inj|exact (bk_codes Demo.demo_backend)|done]. Qed.

(** ** A state *)

Definition person (nonce balance : Z) : Account := ExternallyOwnedAccount (mkCommon nonce balance false AccountKeyLegacy).
Definition demoList : list (Address * Account) :=
  [(alice, person 7 (10 ^ 20)); (bob, person 0 (10 ^ 20)); (Demo.contractA, Demo.demoAccount Demo.callerCode); (Demo.contractB, Demo.demoAccount Demo.storeCode_)].
Definition demoDB : StateDB := New (list_to_map demoList) None.
Lemma demoList_all (P : Account -> Prop) : Forall P (map snd demoList) -> map_Forall (fun _ acc => P acc) (list_to_map demoList : gmap Address Account).
Proof. intros HP a acc Ha. apply elem_of_list_to_map_2 in Ha. apply (proj1 (Forall_forall _ _) HP). apply list_elem_of_fmap. by exists (a, acc). Qed.
Lemma ledgerDB_good : good_ demoDB.
Proof. apply good_New; [done| |done]. apply demoList_all. by repeat constructor. Qed.
Lemma demoDB_solvent : solvent demoDB.
Proof.
  intros a _. rewrite bal_value. unfold balanceOf, view, demoDB, readAccount. cbn [New sd_stateObjects sd_snap sd_trie]. rewrite lookup_empty.
  destruct ((list_to_map demoList : gmap Address Account) !! a) as [acc|] eqn:E; [|done]. cbn. unfold amountOf, live. cbn.
  apply (demoList_all (fun acc => 0 <= GetBalance acc)) in E; [done|]. by repeat constructor.
Qed.

(** ** A block *)

Definition demoConfig : ChainConfig :=
  mkChainConfig 1001 Demo.demoRules true Demo.demoConfig elements (fun _ => 0) (Z.to_nat 300000).
Definition demoHeader : Header := mkHeader zeroHash (replicate 32 1) alice 100 0 0 1 (Some 25) (Some []).
(** Alice calls the contract with the loop; Bob pays three tenths of the fee. *)
Definition sigOf (who : Z) : TxSignature := mkSig (35 + 2 * 1001) who 1.
Definition callTx_ : TxInternalData :=
  TxInternalDataKaia (SmartContractExecution Demo.contractA 0 []) (FeeDelegatedWithRatio 30 bob [sigOf 2]) 7 30 200000 alice [sigOf 1].
(** Then she sends him money. *)
Definition payTx : TxInternalData := TxInternalDataKaia (ValueTransferMemo bob 1000 [1; 2; 3]) NotDelegated 8 30 100000 alice [sigOf 1].

(** The result of a transaction or a block, and the state after it. *)
Definition outcomeOf {E A} (r : res vmPanic ((E + A) * StateDB)) : option A := match r with Ok (inr a, _) => Some a | _ => None end.
Definition stateAfter {E A} (r : res vmPanic ((E + A) * StateDB)) : StateDB := match r with Ok (_, s) => s | _ => demoDB end.
Lemma outcomeOf_Ok {E A} (r : res vmPanic ((E + A) * StateDB)) a : outcomeOf r = Some a -> r = Ok (inr a, stateAfter r).
Proof. destruct r as [[[e|a'] b]| | |]; cbn; by intros [= ->]. Qed.

Lemma callTx_decoded : decoded callTx_.
Proof. split; try done; by intros a [= <-]. Qed.
Lemma payTx_decoded : decoded payTx.
Proof. split; try done; by intros a [= <-]. Qed.
Lemma demoHeader_ok : header_ok demoHeader.
Proof. split; [done|]. by intros fee [= <-]. Qed.

Definition demoApply : res vmPanic ((txError + Receipt * Z) * StateDB) := ApplyTransaction demoConfig (fun _ => zeroHash) alice demoHeader callTx_ 0 demoDB.
Definition demoReceipt : Receipt := mkReceipt 1 (default [] (r_TxHash <$> (fst <$> outcomeOf demoApply))) 60808 zeroAddress [].
Lemma demoApply_Ok : demoApply = Ok (inr (demoReceipt, 60808), stateAfter demoApply).
Proof. apply outcomeOf_Ok. vm_compute. reflexivity. Qed.

Definition demoMessage : Transaction := mkTransaction callTx_ alice bob 50000 true.
Definition demoBlock : BlockContext := NewEVMBlockContext (fun _ => zeroHash) demoHeader alice.
Definition demoTransition : res vmPanic ((txError + ExecutionResult) * StateDB) := TransitionDb demoConfig demoBlock demoMessage 30 demoDB.
Definition demoResult : ExecutionResult := mkResult 74808 1 [].
Lemma demoTransition_Ok : demoTransition = Ok (inr demoResult, stateAfter demoTransition).
Proof. apply outcomeOf_Ok. vm_compute. reflexivity. Qed.
Lemma demoMessage_ok : msg_ok demoMessage 30 /\ ratio_ok demoMessage /\ payers_ok demoMessage 30 demoDB /\ block_ok demoBlock.
Proof. split; [by split|]. split; [done|]. split; [by intros _|]. done. Qed.
Lemma transition_sound_witness :
  demoTransition = Ok (inr demoResult, stateAfter demoTransition) /\ 4 * 50000 <= 5 * 74808 /\ solvent (stateAfter demoTransition) /\
  wealth (stateAfter demoTransition) <= wealth demoDB - 74808 * 30.
Proof.
  split; [exact demoTransition_Ok|]. destruct demoMessage_ok as (Hm & Hr & Hp & Hb).
  pose proof (transition_sound ledger_backend demo_compressible demoConfig demoBlock demoMessage 30 demoDB Hm Hr Hp Hb ltac:(done) ledgerDB_good demoDB_solvent
    ltac:(cbn [cf_turns demoConfig demoMessage tx_data callTx_ GetGasLimit]; lia)) as H.
  change (TransitionDb _ _ _ _ _) with demoTransition in H. rewrite demoTransition_Ok in H. destruct H as (_ & Hq & _ & Hs & Hw). split_and!; [exact Hq|exact Hs|exact Hw].
Defined.

Definition demoParams : Reward.GovParamSet :=
  Reward.mkParams (Reward.ps_Ratio Reward.demo_params) (Reward.ps_Kip82Ratio Reward.demo_params) 9600000000000000000 5000000 true 25000000000 2.
Definition demoGoverning : Governing :=
  mkGoverning (Some demoParams) None true zeroAddress false false true false (deafCaller alice 1) (deafCaller alice 1)
    (Some (mkRegistry {[ [75; 73; 80] := bob ]} alice)) (BytesToAddress [4; 1]) [0; 1] false (BytesToAddress [4; 2]) [].
Definition blockHeader (used : Z) : Header := mkHeader zeroHash (replicate 32 1) alice 100 used 0 1 (Some 25) (Some []).
Lemma demoParams_ok : Reward.params_ok (rewardRules Demo.demoRules) demoParams.
Proof. destruct Reward.demo_params_ok as [H1 H2 _ _]. by split. Qed.
Lemma demo_block_valid : block_valid demoConfig (blockHeader 82108) demoGoverning demoParams alice [callTx_; payTx].
Proof.
  split; try done.
  - split; [done|]. by intros fee [= <-].
  - constructor; [split; [exact callTx_decoded|done]|]. constructor; [split; [exact payTx_decoded|done]|constructor].
  - exact demoParams_ok.
Qed.
Definition demoProcess : res vmPanic ((processError + (list Receipt * Z)) * StateDB) :=
  Process demoConfig demoGoverning (fun _ => zeroHash) alice zeroHash (blockHeader 82108) [callTx_; payTx] demoDB.
Definition demoReceipts : list Receipt := default [] (fst <$> outcomeOf demoProcess).
Lemma demoProcess_Ok : demoProcess = Ok (inr (demoReceipts, 82108), stateAfter demoProcess) /\ map r_GasUsed demoReceipts = [60808; 21300].
Proof. split; [apply outcomeOf_Ok|]; vm_compute; reflexivity. Qed.

(** ** A call *)

Definition demoEnv : Env := newEnv Demo.demoContext (mkTxContext alice 1) Demo.demoConfig 1001 Demo.demoRules (fun _ => 0).
Definition demoCalled : res vmPanic (bytes * Z * option vmError * EVM) :=
  Call demoEnv (instructionSet Demo.demoRules) 100 (AccountRef alice) Demo.contractA [] 100000 12 (NewEVM demoDB).
Definition demoEVM : EVM := Demo.after demoCalled (NewEVM demoDB).
Lemma demoCalled_Ok : demoCalled = Ok ([], 75192, None, demoEVM) /\ balanceOf (evm_StateDB demoEVM) Demo.contractA = 12.
Proof. split; [apply Demo.outcome_Ok|]; vm_compute; reflexivity. Qed.
Lemma evm_conserves_witness :
  demoCalled = Ok ([], 75192, None, demoEVM) /\ solvent (evm_StateDB demoEVM) /\ exists X : gset Address,
    (forall a, is_addr a -> a ∉ X -> balanceOf (evm_StateDB demoEVM) a = balanceOf demoDB a) /\
    over X (balanceOf (evm_StateDB demoEVM)) <= over X (balanceOf demoDB).
Proof.
  split; [exact (proj1 demoCalled_Ok)|].
  pose proof (evm_conserves ledger_backend Demo.demoContext (mkTxContext alice 1) Demo.demoConfig 1001 Demo.demoRules (fun _ => 0) 100 (AccountRef alice) Demo.contractA []
    100000 12 (NewEVM demoDB) ([], 75192, None) demoEVM ltac:(done) ltac:(done) ltac:(done) ledgerDB_good demoDB_solvent) as H.
  change (Call _ _ _ _ _ _ _ _ _) with demoCalled in H. exact (H (proj1 demoCalled_Ok)).
Defined.

(** ** A rebalancing *)

(** Alice's account is cleared, and Bob's set to ten. *)
Definition demoCaller : RebalanceCaller :=
  mkCaller (fun s => (Some 100, s)) (fun s => (Some 2, s)) (fun s => (Some 1, s)) (fun _ s => (Some alice, s)) (fun s => (Some 1, s)) (fun _ s => (Some (bob, 10), s))
    (fun s => (Some tt, s)).
Lemma demoCaller_ok : caller_ok demoCaller.
Proof. split; cbn; try (intros s Hg; exact (idle_refl s Hg)); intros i s Hg; (split; [exact (idle_refl s Hg)|]); [by intros a [= <-]|by intros a v [= <- <-]]. Qed.
Definition demoRebalance : option rebalanceError * rebalanceResult * StateDB := RebalanceTreasury true false demoCaller demoCaller 100 demoDB.
Lemma demoRebalance_fst : fst (fst demoRebalance) = None /\ Burnt (snd (fst demoRebalance)) = 2 * 10 ^ 20 - 10.
Proof. split; vm_compute; reflexivity. Qed.
Lemma lost_allocation_burns_witness :
  let '(err, r, s') := RebalanceTreasury true false (deafCaller alice 100) (deafCaller alice 100) 100 demoDB in err = None /\ wealth s' = wealth demoDB - balanceOf demoDB alice.
Proof.
  pose proof (lost_allocation_burns ledger_backend alice 100 demoDB ltac:(done) ledgerDB_good) as H.
  destruct (RebalanceTreasury _ _ _ _ _ _) as [[err r] s']. destruct H as (He & _ & _ & _ & Hw). split; [exact He|exact Hw].
Defined.

(** ** Fees *)

(** Alice shares a fee of 150 with herself although she has 100; she shares another with Bob, who
    pays twice all of it. *)
Definition shareTx (payer : Address) (ratio price : Z) : TxInternalData :=
  TxInternalDataKaia Cancel (FeeDelegatedWithRatio ratio payer [sigOf 2]) 7 price (10 ^ 10) alice [sigOf 1].
Definition shareMessage (payer : Address) (ratio price : Z) : Transaction := mkTransaction (shareTx payer ratio price) alice payer 36000 true.
Lemma shared_fee_defects_witness :
  (exists s', (exists g, buyGas (shareMessage alice 50 (15 * 10 ^ 9)) (15 * 10 ^ 9) demoDB = Ok (inr g, s')) /\ balanceOf s' alice < 0) /\
  (exists s', (exists g, buyGas (shareMessage bob 200 1) 1 demoDB = Ok (inr g, s')) /\ balanceOf demoDB alice < balanceOf s' alice).
Proof.
  split.
  - destruct (shared_fee_defects ledger_backend (shareMessage alice 50 (15 * 10 ^ 9)) (15 * 10 ^ 9) demoDB 50 ltac:(done) ltac:(done) ltac:(split; vm_compute; [discriminate|reflexivity])
      ltac:(lia) ledgerDB_good eq_refl) as (s' & H & _). exists s'. refine (H eq_refl _ _ _); vm_compute; [discriminate..|reflexivity].
  - destruct (shared_fee_defects ledger_backend (shareMessage bob 200 1) 1 demoDB 200 ltac:(done) ltac:(done) ltac:(split; vm_compute; [discriminate|reflexivity])
      ltac:(lia) ledgerDB_good eq_refl) as (s' & _ & H). exists s'. refine (H ltac:(vm_compute; discriminate) _ _ _); vm_compute; [discriminate..|reflexivity].
Defined.

(** Alice uses a nonce up where fees are not deferred. *)
Definition plainConfig : ChainConfig := mkChainConfig 1001 Demo.demoRules false Demo.demoConfig elements (fun _ => 0) (Z.to_nat 300000).
Definition plainParams : Reward.GovParamSet :=
  Reward.mkParams (Reward.ps_Ratio Reward.demo_params) (Reward.ps_Kip82Ratio Reward.demo_params) 9600000000000000000 5000000 false 25000000000 2.
Definition plainMessage : Transaction := mkTransaction (TxInternalDataKaia Cancel NotDelegated 7 30 100000 alice [sigOf 1]) alice alice 21000 true.
Definition plainTransition : res vmPanic ((txError + ExecutionResult) * StateDB) := TransitionDb plainConfig demoBlock plainMessage 30 demoDB.
Lemma plainTransition_Ok : plainTransition = Ok (inr (mkResult 21000 1 []), stateAfter plainTransition).
Proof. apply outcomeOf_Ok. vm_compute. reflexivity. Qed.
Definition plainTotal : Reward.TotalReward := Reward.mkTotal 9600000000000000000 (21000 * 30 / 2).
Lemma undeferred_fee_not_burnt_witness :
  plainTransition = Ok (inr (mkResult 21000 1 []), stateAfter plainTransition) /\
  wealth (stateAfter plainTransition) = wealth demoDB /\ Reward.tr_BurntFee plainTotal = 21000 * 30 / 2.
Proof.
  split; [exact plainTransition_Ok|].
  pose proof (undeferred_fee_not_burnt ledger_backend demo_compressible plainConfig demoBlock plainMessage (blockHeader 21000) 25 demoDB (mkResult 21000 1 [])
    (stateAfter plainTransition) plainParams plainTotal ltac:(by split) ltac:(done) ltac:(by intros _) ltac:(done) ltac:(done) ledgerDB_good demoDB_solvent
    ltac:(done) ltac:(done) ltac:(done) ltac:(done) ltac:(done)) as H.
  change (TransitionDb _ _ _ _ _) with plainTransition in H. exact (H plainTransition_Ok ltac:(done) ltac:(vm_compute; reflexivity)).
Defined.

(** ** Gas and signatures *)

Import TxPure.
(** An access list of one account and two slots, and a payload of two words, for a new contract. *)
Definition createTx_ : TxInternalData :=
  TxInternalDataEthereumAccessList 1001 7 30 100000 None 0 (replicate 33 0 ++ replicate 31 1) [(alice, [zeroHash; zeroHash])] (mkSig 0 1 1).
Lemma intrinsic_gas_closed_witness : intrinsicGasOf Demo.demoRules createTx_ = Ok (53000 + 100 * 64 + 2 * 2 + 2400 + 2 * 1900).
Proof.
  refine (eq_trans (intrinsic_gas_closed Demo.demoRules createTx_ 0 _ _ _) _); [|done|done|vm_compute; reflexivity]. split_and!; vm_compute; split; discriminate || reflexivity.
Defined.
(** The same call with other signatures and another fee payer has the same hash for the sender. *)
Definition callTx2 : TxInternalData :=
  TxInternalDataKaia (SmartContractExecution Demo.contractA 0 []) (FeeDelegatedWithRatio 30 alice []) 7 30 200000 alice [sigOf 2].
Definition callItem : RLP.item := match signItem AsSender 1001 callTx_ with Ok i => i | _ => RLP.Lst [] end.
Lemma parties_bytes : is_bytes alice /\ is_bytes bob /\ is_bytes Demo.contractA.
Proof. split_and!; vm_compute; repeat constructor; discriminate || reflexivity. Qed.
Lemma callTx_encodable : encodable callTx_ /\ encodable callTx2.
Proof.
  destruct parties_bytes as (Ha & Hb & Hc).
  assert (kind_encodable (SmartContractExecution Demo.contractA 0 [])) as Hk by (split; [exact Hc|by split; [|constructor]]).
  split; (split; [done|]); (split; [done|]); (split; [done|]); (split; [by intros a [= <-]|]); (split; [by intros r [= <-]|]); by split.
Qed.
End TxDemo.
